(* ===== verification/_CoqProject ===== *)
-Q . S2P
Prelude.v
CInt.v
Instr.v
TestPrograms.v
LinkedList.v
BitMap.v
Disk.v
SynchDisk.v
FileHeader.v
Directory.v
OpenFile.v
FileSystem.v
FsTest.v
Startup.v
FileStore.v
Machine.v
MipsSim.v
MipsTrace.v
Execute.v
ExecuteSim.v
Disasm.v
Loader.v
UserProg.v
Sysdep.v
UserThread.v
Executables.v
Coff.v
Flat.v
Switch.v
SwitchRisc.v
Threads.v
ThreadSafety.v
Interrupt.v
Devices.v
SynchList.v
Client.v
Driver.v
SynchDevices.v
ConsoleTest.v
ReaderWriter.v
ThreadTest.v
PostOffice.v
NetTest.v
