(* ===== verification/Prelude.v ===== *)
(** * A verification development for the Nachos teaching kernel

    ** The program

    The repository is the Nachos instructional operating system with the
    changes of a course: a kernel in C++ that runs as one UNIX process on a
    simulated MIPS workstation.  Its parts, from the machine up:

    - machine/ simulates the hardware.  interrupt.cc keeps the clock and the
      list of pending interrupts; timer.cc, disk.cc, console.cc and network.cc
      are devices that schedule interrupts and call the kernel back;
      machine.cc, translate.cc and mipssim.cc execute user instructions.
    - threads/ is the kernel proper: linked lists, threads and the scheduler,
      semaphores, locks and condition variables, and the synchronised list.
    - filesys/ turns the asynchronous disk into a synchronous one and builds
      file headers, the directory, open files and the file system on it.
    - userprog/ loads executables, serves page faults and system calls.
    - network/ delivers messages to mail boxes over the network device.
    - bin/ holds tools that run on the host: the converters that make
      executables from object files, an older MIPS interpreter with its
      disassembler.

    ** The files

    Every definition that translates code keeps the name it has there,
    where Rocq allows it.

    - Prelude.v: outcomes ([Ok] or a [fault]), the state monad [M], array
      access that faults out of bounds, [for] loops, the tactic [mstep] and the
      shared lemmas.
    - CInt.v: [int], [unsigned] and [char] of the 32-bit host, the rounding
      macros of threads/utility.h, integers as bytes.
    - LinkedList.v (threads/list.cc): lists as pointers into a heap.
    - BitMap.v (userprog/bitmap.cc): bit maps as arrays of 32-bit words.
    - Disk.v (machine/disk.cc): the disk as a UNIX file, with its latencies.
    - SynchDisk.v (filesys/synchdisk.cc): the request/interrupt handshake and
      the sector cache.  The class [SectorReader] is the interface to the file
      system; [ReadsDisk] and [SeesWrites] are what the file system relies on.
    - FileHeader.v, Directory.v, OpenFile.v, FileSystem.v (filesys/): the file
      system, over any [SectorReader].
    - FsTest.v (filesys/fstest.cc): the commands that copy a UNIX file into the
      file system and print it, over FileSystem.v.
    - Startup.v (threads/main.cc, system.cc, utility.cc): the command line, for
      any choice of the macros of the Makefiles, over any [Commands].
      FileStore.v: the kernel with the file system is an instance; its runs on
      one disk, one after the other, against a map from names to contents.
    - Machine.v (machine/machine.cc, translate.cc), MipsSim.v
      (machine/mipssim.cc): registers, memory, translation, the instruction
      interpreter; [HandlerOk] is what they rely on of the kernel's exception
      handler.
    - UserProg.v (userprog/addrspace.cc, exception.cc, progtest.cc): the
      exception handler that discharges [HandlerOk], the loader, demand paging.
      Sysdep.v (machine/sysdep.cc, filesys/openfile.h, filesys.h, machine/disk.cc):
      the wrappers around UNIX, over any [Unix] that satisfies [UnixLaws]; the
      files of UserProg.v and Disk.v are what they make of it.
      UserThread.v (threads/thread.cc, scheduler.cc): the user registers across
      a context switch.
    - TestPrograms.v (test/): the user programs sort.c, matmult.c and shell.c.
      Executables.v (test/start.c, halt.c, shell.c): the machine code of test
      programs with their start-up code and stubs, run on MipsSim.v under the
      kernel of UserProg.v.
    - Coff.v (bin/coff2noff.c): the converter that makes the executables, and
      its composition with the loader.  Flat.v (bin/coff2flat.c): the converter
      to a flat memory image, over the monad and the headers of Coff.v.
    - Instr.v (bin/instr.h, encode.h): instruction fields and opcodes;
      Execute.v (bin/execute.c, system.c, int.h): the interpreter of the host
      tools, over any UNIX; ExecuteSim.v: it agrees with MipsSim.v.
      MipsTrace.v (the names of opcodes in machine/mipssim.h); Disasm.v (bin/d.c,
      opstrings.c, out.c): the disassembler, which agrees with them.
      Loader.v (bin/main.c, disasm.c): the command lines and the loader of both.
    - Switch.v (threads/switch.c, switch.h, thread.cc): the i386 code of SWITCH
      and ThreadRoot and the stack of a new thread; the class [Switcher] is
      what a context switch promises to any number of threads.  SwitchRisc.v:
      the same for MIPS and HP hosts, two more instances.
    - Threads.v, ThreadSafety.v (threads/thread.cc, scheduler.cc, synch.cc):
      the kernel's threads as a transition system, and its reachable states.
    - Interrupt.v (machine/interrupt.cc): simulated time, over any [Kernel];
      [KernelLaws] and [YieldLaw] are what it relies on of the handlers.
    - Devices.v (machine/timer.cc, disk.cc, console.cc, network.cc): the
      devices over the threads of Threads.v, the instance of [Kernel].
    - SynchList.v (threads/synchlist.cc): threads that share a list, over
      Threads.v.
    - Client.v: programs of many threads over Threads.v.  The class [Client] is
      the interface: what a program does between two kernel calls.  [Abs] is the
      thread system as such a program sees it (whose turn it is, who holds a
      lock, the semaphores' values), [reach_view] the refinement; sums over the
      threads (conservation) and brackets of [Acquire] and [Release] are proved
      there once.
    - Driver.v: the wrapper that SynchDisk and SynchConsole have in common, for
      any number of threads, over any device of the class [Driver];
      SynchDevices.v: the disk (filesys/synchdisk.cc) and the console
      (machine/console.cc) are such devices.  ConsoleTest.v (userprog/progtest.cc):
      the echo test, one thread over that console.
    - ReaderWriter.v (filesys/synchdisk.cc, openfile.cc): the protocol of
      readers and writers, for any number of threads.
    - ThreadTest.v (threads/threadtest.cc): the self tests of the thread system.
    - PostOffice.v (network/post.cc): mail boxes over Devices.v.  NetTest.v
      (network/nettest.cc): two machines that write to each other.

    ** What the theorems show

    - Lists, bit maps, the directory, the disk and the TLB counters refine the
      abstract objects they stand for: sequences, sets of bits, a bounded
      finite map, an array of sectors, an LRU order.
    - Disk stack: a synchronous read returns; a header, a file's bytes and a
      created file survive their trip to the disk; [Create] and [Remove] have
      exactly the listed outcomes and keep the file system consistent, [Remove]
      undoes [Create]; formatting establishes that consistency; a UNIX file
      copied in is printed back byte for byte.  The disk, and the files of the
      file system stubs, are files of the host, on any host that keeps what its
      manual pages promise.  From the command line, over any
      number of runs of the kernel on one disk, the copies, listings and
      removals are those of a map from names to contents.
    - Machine: the decoder is total, multiplication and overflow are exact, one
      instruction and then any number of instructions of any user program
      leave machine and kernel well formed; what is fetched from a converted
      and loaded object file is what its .text section holds.
    - Host tools: the two interpreters of the repository compute the same
      registers, outside the listed divergences; the disassembler prints the
      simulator's opcode names and operands; arguments reach the interpreted
      program; packed sections make a flat memory image; options are read as
      typed, and no section with bytes is loaded.
    - Threads: the invariant of the scheduler holds in every reachable state,
      its assertions cannot fail, locks exclude, semaphores lose no wakeup,
      ready threads run in their turn.
    - Context switch: threads are coroutines on the i386, the MIPS and the HP,
      the first switch to a new thread runs its function with its argument; user
      programs find their registers again.
    - Command line: flags and commands are read back as they were typed.
    - User programs: sort.c does not sort, matmult.c multiplies, the shell runs
      its lines; what executables do on the simulated machine, system call by
      system call.
    - Time: a tick fires exactly the interrupts that are due, in order, and the
      idle machine jumps to the next one; the devices' effect on the threads is
      a sequence of steps of Threads.v.
    - Composition: the shared list is a queue without lost wakeups whatever the
      interleaving; console input keeps its order; mail arrives unchanged, and
      two machines that run the self test of the network always finish.
    - Any number of threads: the synchronous disk serves one request at a time
      and leaves nobody waiting, the synchronous console delivers the input
      once and in order, the console test
      echoes what was typed, writers exclude readers and the protocol does not
      deadlock, the bounded buffer stays within its bounds, neighbours do not
      eat together.  The tests that the program runs end without time slices;
      with one slice at the wrong moment three of them do not work.
    - What the code does not do: the loop of GetListLength, [FirstFind] without
      a fitting run, [ExtendFile], OR and SRL, the USE_TLB build, frames and
      thread slots that are never given back; the logical immediates and high
      words of products in execute.c, flat files of sections with gaps.

    ** Readings and bounds

    - Faults end a computation: a failed [ASSERT], an access C++ gives no
      meaning to, a halt.  Theorems about every branch include them.
    - Fuel: a loop that the source does not bound takes fuel and answers
      [Diverges] without it.  The walks of LinkedList.v take the size of the
      heap; [check_loop] needs more fuel than there are pending interrupts;
      [WriteAt] recurses through the free map and needs one level where the
      file is not extended; the loops of FsTest.v move at least one byte per
      round; [Run] of MipsSim.v is stated for every number of
      instructions.  Each theorem that a call returns names the fuel.
    - Integers have their C++ width.  The theorems of Interrupt.v and Devices.v
      ask for a clock below 2^31 - 2^20, so that no due time wraps; those of
      Machine.v count fewer than 2^31 - 4 TLB operations.
    - [Env] of SynchDisk.v, [rand] and [junk] stand for what comes from outside:
      simulated and UNIX time, the C library's random numbers, uninitialised
      memory.  The theorems hold for all of them (for [Env] within the range of
      the types, [EnvOk]).
    - [SeesWrites]: the cache of synchdisk.cc is not updated by [WriteSector],
      so a cached read may be stale (SynchDisk.v proves it).  The theorems of
      the file system that need fresh reads are stated for readers that see
      writes; the uncached reader is an instance, the cached one is not.
    - SynchDisk.v and PostOffice.v read their code for one calling thread, with
      the pending interrupt delivered when the thread would sleep; the
      interleavings of their threads are the subject of SynchList.v,
      SynchDevices.v and ReaderWriter.v.
    - In Threads.v an atomic step is a routine that runs with interrupts
      disabled, up to its end or its Sleep.

    ** Not modelled

    - threads/switch.c for the SPARC, whose frame size and traps are defined in
      files that are not in the repository; switch.s, the same text after the
      preprocessor; names and priorities of threads, which nothing uses.
    - machine/sysdep.cc: signals, Delay, Abort and Exit; what sockets do (the
      network of Devices.v is a pair of queues).
    - The machine code of sort and matmult.
    - bin/out.c: reading object files into its arrays; the statistics that
      execute.c prints.
    - Text that the kernel prints, debugging output, the single-step debugger. *)
From Stdlib Require Import ZArith Lia List Bool.
From stdpp Require Import base tactics list numbers gmap.

(** ** Outcomes: what a call of a C++ routine can do *)

(** [AssertFailure]: an [ASSERT] of utility.h failed, the kernel calls
    [Abort()].  [BadAccess]: the code dereferences NULL or reads or writes
    outside an array; C++ gives no meaning to it.  [Diverges]: the fuel of a
    loop ran out; every fuelled definition comes with a theorem saying how
    much fuel is enough.  [Blocked]: the calling thread goes to sleep on a
    semaphore and, in the sequential reading of a component, nobody is left
    to wake it up.  [Halted] and [Finished]: the call does not come back
    because the machine has been halted, or the calling thread has finished. *)
Inductive fault : Type :=
| AssertFailure
| BadAccess
| Diverges
| Blocked
| Halted
| Finished.

Inductive outcome (A : Type) : Type :=
| Ok (a : A)
| Fault (f : fault).

Arguments Ok {A} _.
Arguments Fault {A} _.

#[global] Instance fault_eq_dec : EqDecision fault.
Proof. solve_decision. Defined.

#[global] Instance outcome_eq_dec {A} `{EqDecision A} : EqDecision (outcome A).
Proof. solve_decision. Defined.

#[global] Instance outcome_ret : MRet outcome := fun A a => Ok a.

#[global] Instance outcome_bind : MBind outcome := fun A B f m =>
  match m with Ok a => f a | Fault e => Fault e end.

#[global] Instance outcome_fmap : FMap outcome := fun A B f m =>
  match m with Ok a => Ok (f a) | Fault e => Fault e end.

(** ** State passing with faults *)

(** A routine that works on a component's state [S] and returns [A]. *)
Definition M (S A : Type) : Type := S -> outcome (A * S).

#[global] Instance M_ret {S} : MRet (M S) := fun A a s => Ok (a, s).

#[global] Instance M_bind {S} : MBind (M S) := fun A B f m s =>
  match m s with Ok (a, s') => f a s' | Fault e => Fault e end.

Definition get {S} : M S S := fun s => Ok (s, s).
Definition put {S} (s : S) : M S unit := fun _ => Ok (tt, s).
Definition modify {S} (f : S -> S) : M S unit := fun s => Ok (tt, f s).
Definition gets {S A} (f : S -> A) : M S A := fun s => Ok (f s, s).
Definition lift {S A} (o : outcome A) : M S A := fun s =>
  match o with Ok a => Ok (a, s) | Fault e => Fault e end.
Definition fail {S A} (e : fault) : M S A := fun _ => Fault e.

(** [ASSERT(condition)] of utility.h. *)
Definition ASSERT {S} (b : bool) : M S unit := fun s =>
  if b then Ok (tt, s) else Fault AssertFailure.

(** [ASSERT] for routines without state. *)
Definition ASSERT_ (b : bool) : outcome unit :=
  if b then Ok tt else Fault AssertFailure.

(** ** Arrays *)

(** [arr_get l i] is [l[i]], [arr_set l i v] is [l[i] = v]; outside the array
    C++ gives no meaning to either. *)
Definition arr_get {A} (l : list A) (i : Z) : outcome A :=
  if decide (0 <= i)%Z then
    match l !! Z.to_nat i with Some a => Ok a | None => Fault BadAccess end
  else Fault BadAccess.

Definition arr_set {A} (l : list A) (i : Z) (v : A) : outcome (list A) :=
  if decide (0 <= i < Z.of_nat (length l))%Z then Ok (<[Z.to_nat i := v]> l)
  else Fault BadAccess.

(** ** Loops *)

(** [for (int i = lo; n more rounds; i++) body i], the body may fault. *)
Fixpoint for_from {S} (n : nat) (i : Z) (body : Z -> M S unit) : M S unit :=
  match n with
  | O => mret tt
  | S n' => body i ≫= fun _ => for_from n' (i + 1)%Z body
  end.

(** [for (int i = lo; i < hi; i++) body i]. *)
Definition for_range {S} (lo hi : Z) (body : Z -> M S unit) : M S unit :=
  for_from (Z.to_nat (hi - lo)) lo body.

(** ** Library lemmas *)

Create HintDb nachos discriminated.

Lemma bind_Ok {S A B} (m : M S A) (f : A -> M S B) s r :
  (m ≫= f) s = Ok r <-> exists a s', m s = Ok (a, s') /\ f a s' = Ok r.
Proof.
  unfold mbind, M_bind. destruct (m s) as [[a s']|e]; naive_solver.
Qed.

Lemma obind_Ok {A B} (m : outcome A) (f : A -> outcome B) r :
  (m ≫= f) = Ok r <-> exists a, m = Ok a /\ f a = Ok r.
Proof. unfold mbind, outcome_bind. destruct m; naive_solver. Qed.

Lemma bind_run {S A B} (m : M S A) (f : A -> M S B) s a s' :
  m s = Ok (a, s') -> (m ≫= f) s = f a s'.
Proof. intros H. unfold mbind, M_bind. by rewrite H. Qed.

Lemma arr_get_Ok {A} (l : list A) i a :
  arr_get l i = Ok a <-> (0 <= i)%Z /\ l !! Z.to_nat i = Some a.
Proof.
  unfold arr_get. case_decide; [|naive_solver].
  destruct (l !! Z.to_nat i); naive_solver.
Qed.

Lemma arr_get_in {A} (l : list A) i a :
  (0 <= i)%Z -> l !! Z.to_nat i = Some a -> arr_get l i = Ok a.
Proof. intros. by apply arr_get_Ok. Qed.

Lemma arr_set_Ok {A} (l l' : list A) i v :
  arr_set l i v = Ok l' <->
  (0 <= i < Z.of_nat (length l))%Z /\ l' = <[Z.to_nat i := v]> l.
Proof. unfold arr_set. case_decide; naive_solver. Qed.

Lemma arr_set_in {A} (l : list A) i v :
  (0 <= i < Z.of_nat (length l))%Z -> arr_set l i v = Ok (<[Z.to_nat i := v]> l).
Proof. intros. by apply arr_set_Ok. Qed.

Lemma arr_get_nat {A} (l : list A) (i : nat) a :
  l !! i = Some a -> arr_get l (Z.of_nat i) = Ok a.
Proof. intros. apply arr_get_in; [lia|]. by rewrite Nat2Z.id. Qed.

Lemma arr_set_nat {A} (l : list A) (i : nat) v :
  (i < length l)%nat -> arr_set l (Z.of_nat i) v = Ok (<[i := v]> l).
Proof. intros. rewrite arr_set_in by lia. by rewrite Nat2Z.id. Qed.

Lemma lift_Ok {S A} (o : outcome A) a (s : S) :
  o = Ok a -> lift o s = Ok (a, s).
Proof. by intros ->. Qed.

Lemma ASSERT_true {S} b (s : S) : b = true -> ASSERT b s = Ok (tt, s).
Proof. by intros ->. Qed.

(** Induction principle for counting loops: an invariant indexed by the
    counter.  Every round succeeds and keeps the invariant, so the loop
    terminates normally in a state that satisfies it at the end. *)
Lemma for_from_inv {S} (I : Z -> S -> Prop) n lo (body : Z -> M S unit) s :
  I lo s ->
  (forall i s, (lo <= i < lo + Z.of_nat n)%Z -> I i s ->
     exists s', body i s = Ok (tt, s') /\ I (i + 1)%Z s') ->
  exists s', for_from n lo body s = Ok (tt, s') /\ I (lo + Z.of_nat n)%Z s'.
Proof.
  revert lo s. induction n as [|n IH]; intros lo s Hs Hbody; simpl.
  - exists s. split; [done|]. by replace (lo + Z.of_nat 0)%Z with lo by lia.
  - destruct (Hbody lo s) as (s1 & E1 & H1); [lia|done|].
    destruct (IH (lo + 1)%Z s1) as (s2 & E2 & H2); [done| |].
    + intros i s' Hi. apply Hbody. lia.
    + exists s2. rewrite (bind_run _ _ _ _ _ E1). split; [done|].
      by replace (lo + Z.of_nat (Datatypes.S n))%Z
        with (lo + 1 + Z.of_nat n)%Z by lia.
Qed.

Lemma for_range_inv {S} (I : Z -> S -> Prop) lo hi (body : Z -> M S unit) s :
  (lo <= hi)%Z -> I lo s ->
  (forall i s, (lo <= i < hi)%Z -> I i s ->
     exists s', body i s = Ok (tt, s') /\ I (i + 1)%Z s') ->
  exists s', for_range lo hi body s = Ok (tt, s') /\ I hi s'.
Proof.
  intros Hle Hs Hb. unfold for_range.
  destruct (for_from_inv I (Z.to_nat (hi - lo)) lo body s) as (s' & E & H');
    [done| |].
  - intros i s' Hi. apply Hb. lia.
  - exists s'. split; [done|].
    by replace hi with (lo + Z.of_nat (Z.to_nat (hi - lo)))%Z by lia.
Qed.

(** ** Weakest preconditions

    [wp m F Q s]: run from [s], [m] either returns with [Q] or stops with a
    fault in [F]. *)
Definition wp {S A} (m : M S A) (F : fault -> Prop) (Q : A -> S -> Prop) (s : S) : Prop :=
  match m s with Ok (a, s') => Q a s' | Fault e => F e end.

Lemma wp_bind {S A B} (m : M S A) (f : A -> M S B) F Q s :
  wp m F (fun a s' => wp (f a) F Q s') s -> wp (m ≫= f) F Q s.
Proof. unfold wp, mbind, M_bind. by destruct (m s) as [[a s']|e]. Qed.

Lemma wp_ret {S A} (a : A) F (Q : A -> S -> Prop) s : Q a s -> wp (mret a) F Q s.
Proof. done. Qed.

Lemma wp_get {S} F (Q : S -> S -> Prop) s : Q s s -> wp get F Q s.
Proof. done. Qed.

Lemma wp_modify {S} (f : S -> S) F (Q : unit -> S -> Prop) s : Q tt (f s) -> wp (modify f) F Q s.
Proof. done. Qed.

Lemma wp_lift {S A} (o : outcome A) a F (Q : A -> S -> Prop) s :
  o = Ok a -> Q a s -> wp (lift o) F Q s.
Proof. by intros ->. Qed.

Lemma wp_fail {S A} e (F : fault -> Prop) (Q : A -> S -> Prop) s : F e -> wp (fail e) F Q s.
Proof. done. Qed.

Lemma wp_assert {S} b (F : fault -> Prop) (Q : unit -> S -> Prop) s :
  (b = true -> Q tt s) -> (b = false -> F AssertFailure) -> wp (ASSERT b) F Q s.
Proof. unfold wp, ASSERT. destruct b; auto. Qed.

Lemma wp_if {S A} (b : bool) (m1 m2 : M S A) F Q s :
  (b = true -> wp m1 F Q s) -> (b = false -> wp m2 F Q s) ->
  wp (if b then m1 else m2) F Q s.
Proof. destruct b; auto. Qed.

Lemma wp_mono {S A} (m : M S A) F (Q Q' : A -> S -> Prop) s :
  wp m F Q s -> (forall a s', Q a s' -> Q' a s') -> wp m F Q' s.
Proof. unfold wp. destruct (m s) as [[a s']|e]; auto. Qed.

(** ** Tactics *)

(** Split a hypothesis [(m ≫= f) s = Ok r] into the run of [m] and the rest. *)
Ltac inv_bind H :=
  let a := fresh "a" in let s := fresh "s" in let E := fresh "E" in
  apply bind_Ok in H as (a & s & E & H).

(** Step through a computation whose first action succeeds: by computation,
    or by the lemma given. *)
Ltac mstep := erewrite bind_run; [|reflexivity]; cbv beta iota.
Tactic Notation "mstep" "by" tactic3(t) := erewrite bind_run; [|solve [t]]; cbv beta iota.

Ltac splits := repeat match goal with |- _ /\ _ => split end.

#[export] Hint Resolve arr_get_in arr_set_in : nachos.
