(* ===== verification/CInt.v ===== *)
(** * Machine integers of the 32-bit host

    The repository is built for i386 (code/Makefile.dep): [int] and
    [unsigned] have 32 bits, [char] is a signed byte, memory is little
    endian.  Integers are kept as [Z]; the wrap-around of each width is
    written out.  The two rounding macros of threads/utility.h and the byte
    images that the [(char * )] casts of the file system and the network expose
    are here too. *)
From S2P Require Import Prelude.
From Stdlib Require Import ZArith Lia List Bool.
From stdpp Require Import base tactics list numbers.
Local Open Scope Z_scope.

(** ** Widths *)

Definition wrap32 (z : Z) : Z := (z + 2147483648) mod 4294967296 - 2147483648.
Definition u32 (z : Z) : Z := z mod 4294967296.
Definition u16 (z : Z) : Z := z mod 65536.
Definition u8 (z : Z) : Z := z mod 256.

(** A byte read through a [char] lvalue: sign extension of the low byte. *)
Definition schar (z : Z) : Z := (z + 128) mod 256 - 128.

Definition is_int (z : Z) : Prop := -2147483648 <= z < 2147483648.
Definition is_uint (z : Z) : Prop := 0 <= z < 4294967296.
Definition is_byte (z : Z) : Prop := 0 <= z < 256.

(** ** threads/utility.h: rounding macros (C division truncates) *)

Definition divRoundDown (n s : Z) : Z := Z.quot n s.
Definition divRoundUp (n s : Z) : Z :=
  Z.quot n s + (if 0 <? Z.rem n s then 1 else 0).

(** ** Little-endian byte images *)

Definition int_bytes (z : Z) : list Z :=
  let v := u32 z in
  [v mod 256; v / 256 mod 256; v / 65536 mod 256; v / 16777216 mod 256].

Definition uint_of_bytes (b0 b1 b2 b3 : Z) : Z :=
  b0 + 256 * b1 + 65536 * b2 + 16777216 * b3.

Definition int_of_bytes (b0 b1 b2 b3 : Z) : Z :=
  wrap32 (uint_of_bytes b0 b1 b2 b3).

(** The image of an array of [int]s, and reading one back. *)
Definition ints_bytes (l : list Z) : list Z := concat (map int_bytes l).

Fixpoint bytes_ints (l : list Z) : list Z :=
  match l with
  | b0 :: b1 :: b2 :: b3 :: r => int_of_bytes b0 b1 b2 b3 :: bytes_ints r
  | _ => []
  end.

(** ** Lemmas *)

Lemma wrap32_small z : is_int z -> wrap32 z = z.
Proof. unfold is_int, wrap32. intros. rewrite Z.mod_small; lia. Qed.

Lemma wrap32_range z : is_int (wrap32 z).
Proof.
  unfold is_int, wrap32.
  pose proof (Z.mod_pos_bound (z + 2147483648) 4294967296). lia.
Qed.

Lemma u32_small z : is_uint z -> u32 z = z.
Proof. unfold is_uint, u32. intros. rewrite Z.mod_small; lia. Qed.

Lemma u32_range z : is_uint (u32 z).
Proof. unfold is_uint, u32. apply Z.mod_pos_bound. lia. Qed.

Lemma wrap32_add_l a b : wrap32 (wrap32 a + b) = wrap32 (a + b).
Proof.
  unfold wrap32. f_equal.
  replace ((a + 2147483648) mod 4294967296 - 2147483648 + b + 2147483648)
    with ((a + 2147483648) mod 4294967296 + b) by lia.
  rewrite Zplus_mod_idemp_l. f_equal. lia.
Qed.

Lemma wrap32_add a b : wrap32 (wrap32 a + wrap32 b) = wrap32 (a + b).
Proof. by rewrite wrap32_add_l, (Z.add_comm a), wrap32_add_l, Z.add_comm. Qed.

Lemma u32_wrap32 z : u32 (wrap32 z) = u32 z.
Proof.
  unfold u32, wrap32.
  rewrite Zminus_mod, Zmod_mod, <- Zminus_mod. f_equal. lia.
Qed.

Lemma wrap32_u32 z : wrap32 (u32 z) = wrap32 z.
Proof. unfold u32, wrap32. rewrite Zplus_mod_idemp_l. done. Qed.

Lemma schar_small z : 0 <= z < 128 -> schar z = z.
Proof. unfold schar. intros. rewrite Z.mod_small; lia. Qed.

Lemma schar_big z : 128 <= z < 256 -> schar z = z - 256.
Proof.
  unfold schar. intros.
  replace (z + 128) with (z - 128 + 1 * 256) by lia.
  rewrite Z.mod_add, Z.mod_small; lia.
Qed.

Lemma divRoundUp_nonneg n s :
  0 <= n -> 0 < s -> divRoundUp n s = (n + s - 1) / s.
Proof.
  intros Hn Hs. unfold divRoundUp.
  rewrite Z.quot_div_nonneg, Z.rem_mod_nonneg by lia.
  pose proof (Z.div_mod n s ltac:(lia)) as E.
  pose proof (Z.mod_pos_bound n s Hs).
  destruct (Z.ltb_spec 0 (n mod s)).
  - apply Z.div_unique with (n mod s - 1); lia.
  - apply Z.div_unique with (s - 1); lia.
Qed.

(** [divRoundUp] is the least number of [s]-byte units that hold [n] bytes. *)
Lemma divRoundUp_spec n s k :
  0 <= n -> 0 < s -> divRoundUp n s <= k <-> n <= k * s.
Proof.
  intros Hn Hs. rewrite divRoundUp_nonneg by done.
  pose proof (Z.div_mod (n + s - 1) s ltac:(lia)).
  pose proof (Z.mod_pos_bound (n + s - 1) s Hs). split; nia.
Qed.

Lemma divRoundUp_ge0 n s : 0 <= n -> 0 < s -> 0 <= divRoundUp n s.
Proof.
  intros. rewrite divRoundUp_nonneg by done. apply Z.div_pos; lia.
Qed.

Lemma length_int_bytes z : length (int_bytes z) = 4%nat.
Proof. done. Qed.

Lemma int_bytes_bytes z : Forall is_byte (int_bytes z).
Proof.
  unfold int_bytes. cbv zeta.
  repeat (apply List.Forall_cons; [by apply Z.mod_pos_bound|]). constructor.
Qed.

Lemma uint_of_int_bytes z :
  let v := u32 z in
  uint_of_bytes (v mod 256) (v / 256 mod 256) (v / 65536 mod 256)
    (v / 16777216 mod 256) = v.
Proof.
  intros v. pose proof (u32_range z) as Hv. fold v in Hv. clearbody v.
  unfold uint_of_bytes, is_uint in *.
  replace (v / 65536) with (v / 256 / 256) by (by rewrite Z.div_div by lia).
  replace (v / 16777216) with (v / 256 / 256 / 256)
    by (by rewrite !Z.div_div by lia).
  pose proof (Z.div_mod v 256 ltac:(lia)).
  pose proof (Z.div_mod (v / 256) 256 ltac:(lia)).
  pose proof (Z.div_mod (v / 256 / 256) 256 ltac:(lia)).
  rewrite (Z.mod_small (v / 256 / 256 / 256) 256); [lia|].
  rewrite !Z.div_div by lia.
  split; [apply Z.div_pos; lia | apply Z.div_lt_upper_bound; lia].
Qed.

(** Round trip: an [int] stored in memory reads back unchanged. *)
Lemma int_bytes_roundtrip z :
  is_int z -> bytes_ints (int_bytes z) = [z].
Proof.
  intros Hz. unfold int_bytes. cbn [bytes_ints]. unfold int_of_bytes.
  rewrite uint_of_int_bytes, wrap32_u32, wrap32_small by done. done.
Qed.

Lemma bytes_ints_cons z r :
  is_int z -> bytes_ints (int_bytes z ++ r) = z :: bytes_ints r.
Proof.
  intros Hz. pose proof (int_bytes_roundtrip z Hz) as E.
  unfold int_bytes in *. cbn [app bytes_ints] in *. by injection E as ->.
Qed.

Lemma ints_bytes_roundtrip l :
  Forall is_int l -> bytes_ints (ints_bytes l) = l.
Proof.
  induction 1 as [|z l Hz _ IH]; [done|].
  unfold ints_bytes in *. cbn [map concat]. rewrite bytes_ints_cons by done.
  by rewrite IH.
Qed.

Lemma length_ints_bytes l : length (ints_bytes l) = (4 * length l)%nat.
Proof.
  induction l as [|z l IH]; [done|]. unfold ints_bytes in *.
  cbn [map concat]. rewrite length_app, IH, length_int_bytes. simpl. lia.
Qed.

Lemma ints_bytes_bytes l : Forall is_byte (ints_bytes l).
Proof.
  induction l as [|z l IH]; [constructor|]. unfold ints_bytes in *.
  cbn [map concat]. apply Forall_app. split; [apply int_bytes_bytes|done].
Qed.

(** Byte [4 * i] of the image of an [int] array is the low byte of entry [i]. *)
Lemma ints_bytes_low l i z :
  l !! i = Some z -> ints_bytes l !! (4 * i)%nat = Some (u8 z).
Proof.
  revert i. induction l as [|x l IH]; intros [|i] H; simpl in H; try done.
  - injection H as ->. unfold ints_bytes, int_bytes. cbn. f_equal.
    unfold u32, u8. rewrite <- Znumtheory.Zmod_div_mod; try lia.
    by exists 16777216.
  - unfold ints_bytes in *. cbn [map concat].
    rewrite lookup_app_r by (rewrite length_int_bytes; lia).
    rewrite length_int_bytes.
    replace (4 * S i - 4)%nat with (4 * i)%nat by lia. by apply IH.
Qed.

#[export] Hint Resolve wrap32_range u32_range divRoundUp_ge0 : nachos.

(** ** Bits *)

Lemma testbit_u32 z i : 0 <= i < 32 -> Z.testbit (u32 z) i = Z.testbit z i.
Proof.
  intros Hi. unfold u32. change 4294967296 with (2 ^ 32).
  apply Z.mod_pow2_bits_low. lia.
Qed.

Lemma testbit_wrap32 z i : 0 <= i < 32 -> Z.testbit (wrap32 z) i = Z.testbit z i.
Proof.
  intros Hi. rewrite <- testbit_u32, u32_wrap32, testbit_u32 by done. done.
Qed.

Lemma testbit_one_shl k i : 0 <= i -> 0 <= k -> Z.testbit (Z.shiftl 1 k) i = (i =? k).
Proof.
  intros Hi Hk. rewrite Z.shiftl_1_l. rewrite Z.pow2_bits_eqb by done.
  apply Z.eqb_sym.
Qed.

Lemma u32_ones z : u32 z = Z.land z (Z.ones 32).
Proof. rewrite Z.land_ones by lia. done. Qed.

Lemma u32_lor a b : u32 (Z.lor a b) = Z.lor (u32 a) (u32 b).
Proof. rewrite !u32_ones. apply Z.land_lor_distr_l. Qed.

Lemma u32_land a b : u32 (Z.land a b) = Z.land (u32 a) (u32 b).
Proof.
  rewrite !u32_ones. apply Z.bits_inj'. intros i Hi.
  rewrite !Z.land_spec. by destruct (Z.testbit a i), (Z.testbit b i), (Z.testbit (Z.ones 32) i).
Qed.

Lemma is_uint_lor a b : is_uint a -> is_uint b -> is_uint (Z.lor a b).
Proof.
  intros Ha Hb. rewrite <- (u32_small a), <- (u32_small b), <- u32_lor by done.
  apply u32_range.
Qed.

Lemma is_uint_land a b : is_uint a -> is_uint b -> is_uint (Z.land a b).
Proof.
  intros Ha Hb. rewrite <- (u32_small a), <- (u32_small b), <- u32_land by done.
  apply u32_range.
Qed.

(** A non-zero conjunction with a one-bit mask is a bit test. *)
Lemma land_mask_nonzero w k :
  0 <= k -> negb (Z.land w (Z.shiftl 1 k) =? 0) = Z.testbit w k.
Proof.
  intros Hk. destruct (Z.testbit w k) eqn:E.
  - apply negb_true_iff, Z.eqb_neq. intros H.
    assert (Z.testbit (Z.land w (Z.shiftl 1 k)) k = false) as Hf by
      (rewrite H; apply Z.testbit_0_l).
    rewrite Z.land_spec, E, testbit_one_shl, Z.eqb_refl in Hf by done. done.
  - apply negb_false_iff, Z.eqb_eq. apply Z.bits_inj'. intros i Hi.
    rewrite Z.land_spec, testbit_one_shl, Z.testbit_0_l by done.
    destruct (Z.eqb_spec i k) as [->|]; [by rewrite E|by rewrite andb_false_r].
Qed.

(** ** Bit operations stay within [int] *)

Lemma is_int_shiftr z : is_int z <-> Z.shiftr z 31 = 0 \/ Z.shiftr z 31 = -1.
Proof.
  unfold is_int. rewrite Z.shiftr_div_pow2 by lia. change (2 ^ 31) with 2147483648. split.
  - intros H. destruct (Z.lt_ge_cases z 0); [right|left].
    + symmetry. apply Z.div_unique with (z + 2147483648); lia.
    + apply Z.div_small. lia.
  - intros [H|H]; Z.div_mod_to_equations; lia.
Qed.

Ltac is_int_bits :=
  rewrite !is_int_shiftr;
  rewrite ?Z.shiftr_land, ?Z.shiftr_lor, ?Z.shiftr_lxor;
  intros [->| ->] [->| ->]; cbn; auto.

Lemma is_int_land a b : is_int a -> is_int b -> is_int (Z.land a b).
Proof. is_int_bits. Qed.

Lemma is_int_lor a b : is_int a -> is_int b -> is_int (Z.lor a b).
Proof. is_int_bits. Qed.

Lemma is_int_lxor a b : is_int a -> is_int b -> is_int (Z.lxor a b).
Proof. is_int_bits. Qed.

Lemma is_int_lnot a : is_int a -> is_int (Z.lnot a).
Proof. unfold is_int, Z.lnot. lia. Qed.

Lemma is_int_shr a k : 0 <= k -> is_int a -> is_int (Z.shiftr a k).
Proof.
  unfold is_int. intros Hk Ha. rewrite Z.shiftr_div_pow2 by done.
  assert (0 < 2 ^ k) by (apply Z.pow_pos_nonneg; lia).
  split; [apply Z.div_le_lower_bound; nia|apply Z.div_lt_upper_bound; nia].
Qed.

(** ** Division *)

Lemma is_int_quot a b : is_int a -> is_int b -> b <> 0 -> ~ (a = -2147483648 /\ b = -1) ->
  is_int (Z.quot a b) /\ is_int (Z.rem a b).
Proof.
  unfold is_int. intros Ha Hb H0 H1. pose proof (Z.quot_rem' a b).
  pose proof (Z.rem_bound_abs a b H0). pose proof (Z.quot_abs a b H0).
  assert (Z.abs a ÷ Z.abs b <= Z.abs a) by (apply Z.quot_le_upper_bound; nia). nia.
Qed.

(** ** An [int] is determined by its 32 bits *)

Lemma int_bits_ext a b : is_int a -> is_int b ->
  (forall k, 0 <= k < 32 -> Z.testbit a k = Z.testbit b k) -> a = b.
Proof.
  intros Ha Hb H. rewrite <- (wrap32_small a), <- (wrap32_small b) by done.
  rewrite <- (wrap32_u32 a), <- (wrap32_u32 b). f_equal. rewrite !u32_ones.
  apply Z.bits_inj'. intros k Hk. rewrite !Z.land_spec, Z.testbit_ones by lia.
  destruct (Z.ltb_spec k 32); [by rewrite H by lia|by rewrite !andb_false_r].
Qed.

Create HintDb ints discriminated.
#[export] Hint Resolve wrap32_range is_int_land is_int_lor is_int_lxor is_int_lnot is_int_shr : ints.
#[export] Hint Extern 1 (is_int ?z) =>
  match isZcst z with true => unfold is_int; lia end : ints.
#[export] Hint Extern 1 (0 <= _)%Z => lia : ints.
