(* ===== verification/Instr.v ===== *)
(** * bin/instr.h, encode.h: MIPS instruction words, as the host tools see them

    An instruction is a signed [int] of the host.  The fields, the opcodes
    (octal in encode.h), and what is known of the fields. *)
From S2P Require Import Prelude CInt.
From Stdlib Require Import ZArith Lia List Bool.
From stdpp Require Import base tactics list numbers.
Local Open Scope Z_scope.

(** ** instr.h *)

Definition rd (i : Z) : Z := Z.land (Z.shiftr i 11) 31.
Definition rt (i : Z) : Z := Z.land (Z.shiftr i 16) 31.
Definition rs (i : Z) : Z := Z.land (Z.shiftr i 21) 31.
Definition shamt (i : Z) : Z := Z.land (Z.shiftr i 6) 31.
Definition immed (i : Z) : Z :=
  if negb (Z.land i 32768 =? 0) then Z.lor i (-32768) else Z.land i 32767.
Definition off26 (i : Z) : Z := wrap32 (Z.shiftl (Z.land i 67108863) 2).
Definition top4 (i : Z) : Z := Z.land i (-268435456).
Definition off16 (i : Z) : Z := wrap32 (Z.shiftl (immed i) 2).

(** The opcode, and the second opcode of I_SPECIAL. *)
Definition opcode (i : Z) : Z := Z.land (Z.shiftr i 26) 63.
Definition funct (i : Z) : Z := Z.land i 63.

(** ** encode.h: opcodes *)

Definition I_SPECIAL : Z := 0.
Definition I_BCOND : Z := 1.
Definition I_J : Z := 2.
Definition I_JAL : Z := 3.
Definition I_BEQ : Z := 4.
Definition I_BNE : Z := 5.
Definition I_BLEZ : Z := 6.
Definition I_BGTZ : Z := 7.
Definition I_ADDI : Z := 8.
Definition I_ADDIU : Z := 9.
Definition I_SLTI : Z := 10.
Definition I_SLTIU : Z := 11.
Definition I_ANDI : Z := 12.
Definition I_ORI : Z := 13.
Definition I_XORI : Z := 14.
Definition I_LUI : Z := 15.
Definition I_COP0 : Z := 16.
Definition I_COP1 : Z := 17.
Definition I_COP2 : Z := 18.
Definition I_COP3 : Z := 19.
Definition I_LB : Z := 32.
Definition I_LH : Z := 33.
Definition I_LWL : Z := 34.
Definition I_LW : Z := 35.
Definition I_LBU : Z := 36.
Definition I_LHU : Z := 37.
Definition I_LWR : Z := 38.
Definition I_SB : Z := 40.
Definition I_SH : Z := 41.
Definition I_SWL : Z := 42.
Definition I_SW : Z := 43.
Definition I_SWR : Z := 46.
Definition I_LWC0 : Z := 48.
Definition I_LWC1 : Z := 49.
Definition I_LWC2 : Z := 50.
Definition I_LWC3 : Z := 51.
Definition I_SWC0 : Z := 56.
Definition I_SWC1 : Z := 57.
Definition I_SWC2 : Z := 58.
Definition I_SWC3 : Z := 59.

(** ** encode.h: special opcodes *)

Definition I_SLL : Z := 0.
Definition I_SRL : Z := 2.
Definition I_SRA : Z := 3.
Definition I_SLLV : Z := 4.
Definition I_SRLV : Z := 6.
Definition I_SRAV : Z := 7.
Definition I_JR : Z := 8.
Definition I_JALR : Z := 9.
Definition I_SYSCALL : Z := 12.
Definition I_BREAK : Z := 13.
Definition I_MFHI : Z := 16.
Definition I_MTHI : Z := 17.
Definition I_MFLO : Z := 18.
Definition I_MTLO : Z := 19.
Definition I_MULT : Z := 24.
Definition I_MULTU : Z := 25.
Definition I_DIV : Z := 26.
Definition I_DIVU : Z := 27.
Definition I_ADD : Z := 32.
Definition I_ADDU : Z := 33.
Definition I_SUB : Z := 34.
Definition I_SUBU : Z := 35.
Definition I_AND : Z := 36.
Definition I_OR : Z := 37.
Definition I_XOR : Z := 38.
Definition I_NOR : Z := 39.
Definition I_SLT : Z := 42.
Definition I_SLTU : Z := 43.

(** ** encode.h: bcond opcodes *)

Definition I_BLTZ : Z := 0.
Definition I_BGEZ : Z := 1.
Definition I_BLTZAL : Z := 16.
Definition I_BGEZAL : Z := 17.

(** ** encode.h: whole instructions *)

Definition I_NOP : Z := 0.

(** ** The fields of an [int] *)

Lemma field_range i k n : 0 <= n -> 0 <= Z.land (Z.shiftr i k) (Z.ones n) < 2 ^ n.
Proof. intros Hn. rewrite Z.land_ones by done. apply Z.mod_pos_bound. lia. Qed.

Lemma rd_range i : 0 <= rd i < 32.
Proof. exact (field_range i 11 5 ltac:(lia)). Qed.
Lemma rt_range i : 0 <= rt i < 32.
Proof. exact (field_range i 16 5 ltac:(lia)). Qed.
Lemma rs_range i : 0 <= rs i < 32.
Proof. exact (field_range i 21 5 ltac:(lia)). Qed.
Lemma shamt_range i : 0 <= shamt i < 32.
Proof. exact (field_range i 6 5 ltac:(lia)). Qed.
Lemma opcode_range i : 0 <= opcode i < 64.
Proof. exact (field_range i 26 6 ltac:(lia)). Qed.
Lemma funct_range i : 0 <= funct i < 64.
Proof. exact (field_range i 0 6 ltac:(lia)). Qed.

#[export] Hint Resolve rd_range rt_range rs_range shamt_range opcode_range funct_range : ints.

(** [immed] is a signed half word. *)
Lemma immed_range i : -32768 <= immed i < 32768.
Proof.
  unfold immed. destruct (negb _).
  - assert (Z.shiftr (Z.lor i (-32768)) 15 = -1) as H.
    { rewrite Z.shiftr_lor. change (Z.shiftr (-32768) 15) with (-1). apply Z.lor_m1_r. }
    rewrite Z.shiftr_div_pow2 in H by lia. change (2 ^ 15) with 32768 in H. Z.div_mod_to_equations. lia.
  - pose proof (field_range i 0 15 ltac:(lia)) as H. rewrite Z.shiftr_0_r in H.
    change (Z.ones 15) with 32767 in H. lia.
Qed.

Lemma immed_int i : is_int (immed i).
Proof. pose proof (immed_range i). unfold is_int. lia. Qed.

#[export] Hint Resolve immed_int : ints.

Lemma testbit_immed i k : 0 <= k < 32 ->
  Z.testbit (immed i) k = Z.testbit i (if k <? 15 then k else 15).
Proof.
  intros Hk. unfold immed. change 32768 with (Z.shiftl 1 15) at 1.
  rewrite land_mask_nonzero by lia.
  change (-32768) with (Z.lnot (Z.ones 15)). change 32767 with (Z.ones 15).
  destruct (Z.testbit i 15) eqn:E.
  - rewrite Z.lor_spec, Z.lnot_spec, Z.testbit_ones by lia.
    destruct (Z.ltb_spec k 15).
    + assert (0 <=? k = true) as -> by lia. cbn [andb]. apply orb_false_r.
    + rewrite andb_false_r, E. apply orb_true_r.
  - rewrite Z.land_spec, Z.testbit_ones by lia.
    destruct (Z.ltb_spec k 15).
    + assert (0 <=? k = true) as -> by lia. cbn [andb]. apply andb_true_r.
    + by rewrite E, !andb_false_r.
Qed.
