(* ===== verification/TestPrograms.v ===== *)
(** * test/: the user programs sort.c, matmult.c and shell.c

    The programs are modelled at the level of their C source: arrays are lists
    whose bounds are checked, [int] has 32 bits, loops are those of [Prelude].
    A system call is an argument of the program or, where it ends the program,
    its result: Halt is the fault [Halted], Exit returns the status. *)
From Stdlib Require Import ZArith Lia List Bool.
From stdpp Require Import base tactics list numbers.
From S2P Require Import Prelude CInt.
Local Open Scope Z_scope.

(** ** Arrays given by a function of the index *)

Definition arr {A} (n : nat) (f : Z -> A) : list A := map (fun k => f (Z.of_nat k)) (seq 0 n).

Lemma arr_length {A} n (f : Z -> A) : length (arr n f) = n.
Proof. unfold arr. by rewrite length_map, length_seq. Qed.

Lemma arr_lookup {A} n (f : Z -> A) (k : nat) : (k < n)%nat -> arr n f !! k = Some (f (Z.of_nat k)).
Proof.
  intros H. unfold arr. rewrite list_lookup_fmap, lookup_seq_lt by done. done.
Qed.

Lemma arr_ext {A} n (f g : Z -> A) : (forall k, 0 <= k < Z.of_nat n -> f k = g k) -> arr n f = arr n g.
Proof.
  intros H. unfold arr. apply map_ext_in. intros k Hk. apply in_seq in Hk. apply H. lia.
Qed.

Lemma arr_get_arr {A} n (f : Z -> A) i : 0 <= i < Z.of_nat n -> arr_get (arr n f) i = Ok (f i).
Proof.
  intros H. apply arr_get_in; [lia|]. rewrite arr_lookup by lia. by rewrite Z2Nat.id by lia.
Qed.

Lemma arr_set_arr {A} n (f : Z -> A) i v : 0 <= i < Z.of_nat n ->
  arr_set (arr n f) i v = Ok (arr n (fun k => if k =? i then v else f k)).
Proof.
  intros H. rewrite arr_set_in by (rewrite arr_length; lia). f_equal. apply list_eq. intros k.
  destruct (decide (k < n)%nat) as [Hk|Hk].
  - destruct (decide (k = Z.to_nat i)) as [->|Hne].
    + rewrite list_lookup_insert_eq by (rewrite arr_length; lia). rewrite arr_lookup by lia.
      by rewrite Z2Nat.id, Z.eqb_refl by lia.
    + rewrite list_lookup_insert_ne by done. rewrite !arr_lookup by done.
      by rewrite (proj2 (Z.eqb_neq _ _)) by lia.
  - rewrite !lookup_ge_None_2; rewrite ?length_insert, ?arr_length; (done || lia).
Qed.

(** Every array is of this form. *)
Lemma arr_of_list (l : list Z) : l = arr (length l) (fun k => nth (Z.to_nat k) l 0).
Proof.
  apply list_eq. intros k. destruct (decide (k < length l)%nat) as [Hk|Hk].
  - rewrite arr_lookup by done. rewrite Nat2Z.id.
    destruct (lookup_lt_is_Some_2 l k Hk) as [v Hv]. rewrite Hv. f_equal. symmetry.
    apply nth_lookup_Some with (d := 0) in Hv. done.
  - rewrite !lookup_ge_None_2; rewrite ?arr_length; (done || lia).
Qed.

(** ** sort.c *)

Module Sort.

Section Program.
(** [ARRLEN], 900 in the source. *)
Context (ARRLEN : Z).

Definition get_A (i : Z) : M (list Z) Z := A ← get; lift (arr_get A i).
Definition set_A (i v : Z) : M (list Z) unit := A ← get; A' ← lift (arr_set A i v); put A'.

(** [if (A[j] > A[j + 1])] swap them. *)
Definition compare_swap (j : Z) : M (list Z) unit :=
  x ← get_A j;
  y ← get_A (j + 1);
  if x >? y then
    tmp ← get_A j;
    z ← get_A (j + 1);
    _ ← set_A j z;
    set_A (j + 1) tmp
  else mret tt.

Definition initialize : M (list Z) unit :=
  for_range 0 ARRLEN (fun i => set_A i (ARRLEN - i)).

Definition sort : M (list Z) unit :=
  for_range 0 (ARRLEN - 1) (fun i =>
    for_range i (ARRLEN - 1 - i) (fun j => compare_swap j)).

(** [main] up to its call of Halt. *)
Definition main : M (list Z) unit := _ ← initialize; sort.

End Program.

Definition ARRLEN : Z := 900.

(** What [compare_swap] does to an array given by a function. *)
Lemma compare_swap_run n f j :
  0 <= j -> j + 1 < Z.of_nat n ->
  compare_swap j (arr n f) =
    Ok (tt, arr n (fun k => if k =? j then Z.min (f j) (f (j + 1))
                            else if k =? j + 1 then Z.max (f j) (f (j + 1)) else f k)).
Proof.
  intros H0 H1. unfold compare_swap, get_A, set_A.
  assert (G : forall i, 0 <= i < Z.of_nat n ->
    (A ← get; lift (arr_get A i)) (arr n f) = Ok (f i, arr n f)).
  { intros i Hi. mstep. by apply lift_Ok, arr_get_arr. }
  mstep by (apply G; lia). mstep by (apply G; lia).
  destruct (Z.gtb_spec (f j) (f (j + 1))) as [Hg|Hg].
  - mstep by (apply G; lia). mstep by (apply G; lia).
    mstep by (mstep; mstep by (apply lift_Ok, arr_set_arr; lia); reflexivity).
    mstep. mstep by (apply lift_Ok, arr_set_arr; lia). unfold put. do 2 f_equal.
    apply arr_ext. intros k _. destruct (Z.eqb_spec k (j + 1)), (Z.eqb_spec k j); lia.
  - unfold mret, M_ret. do 2 f_equal. apply arr_ext. intros k _.
    destruct (Z.eqb_spec k j), (Z.eqb_spec k (j + 1)); subst; lia.
Qed.

(** The array before pass [i], for [i] up to half of its length [n]: at the
    front what earlier passes have left behind, then what is still in
    descending order, at the end the elements moved there. *)
Definition before_pass (n i k : Z) : Z :=
  if k <? i then n - 1 - 2 * k else if k <=? n - 1 - i then n - i - k else 2 * k - n + 2.

(** Within pass [i], before step [j]. *)
Definition before_step (n i j k : Z) : Z :=
  if k <? i then n - 1 - 2 * k
  else if k <? j then n - i - 1 - k
  else if k =? j then n - 2 * i
  else if k <=? n - 1 - i then n - i - k else 2 * k - n + 2.

(** Case analysis on the comparisons of a goal. *)
Ltac cases :=
  repeat match goal with
  | |- context [?a <? ?b] => destruct (Z.ltb_spec a b)
  | |- context [?a =? ?b] => destruct (Z.eqb_spec a b)
  | |- context [?a <=? ?b] => destruct (Z.leb_spec a b)
  end.

Lemma pass_run n i : 0 <= i -> 2 * i <= n - 2 ->
  for_range i (n - 1 - i) (fun j => compare_swap j) (arr (Z.to_nat n) (before_pass n i)) =
    Ok (tt, arr (Z.to_nat n) (before_pass n (i + 1))).
Proof.
  intros H0 H1.
  destruct (for_range_inv (fun j s => s = arr (Z.to_nat n) (before_step n i j)) i (n - 1 - i)
    (fun j => compare_swap j) (arr (Z.to_nat n) (before_pass n i))) as (s' & E & ->).
  - lia.
  - apply arr_ext. intros k Hk. unfold before_pass, before_step.
    cases; lia.
  - intros j s Hj ->. eexists. split; [apply compare_swap_run; lia|]. apply arr_ext. intros k Hk.
    unfold before_step. rewrite !Z.eqb_refl, !Z.ltb_irrefl.
    cases; lia.
  - rewrite E. do 2 f_equal. apply arr_ext. intros k Hk. unfold before_pass, before_step.
    cases; lia.
Qed.

(** What the array holds in the end. *)
Definition result (n k : Z) : Z := if k <? n / 2 then n - 1 - 2 * k else 2 * k - n + 2.

Lemma initialize_array n A : 0 <= n -> length A = Z.to_nat n ->
  initialize n A = Ok (tt, arr (Z.to_nat n) (before_pass n 0)).
Proof.
  intros Hn HA. rewrite (arr_of_list A), HA. set (junk := fun k => nth (Z.to_nat k) A 0).
  destruct (for_range_inv (fun i s => s = arr (Z.to_nat n) (fun k => if k <? i then n - k else junk k))
    0 n (fun i => set_A i (n - i)) (arr (Z.to_nat n) junk)) as (s' & E & ->).
  - done.
  - apply arr_ext. intros k Hk. cases; lia.
  - intros i s Hi ->. eexists. split.
    { unfold set_A. mstep. mstep by (apply lift_Ok, arr_set_arr; lia). reflexivity. }
    apply arr_ext. intros k Hk. cases; lia.
  - unfold initialize. rewrite E. do 2 f_equal. apply arr_ext. intros k Hk. unfold before_pass. cases; lia.
Qed.

Lemma sort_run n : 1 <= n ->
  sort n (arr (Z.to_nat n) (before_pass n 0)) = Ok (tt, arr (Z.to_nat n) (result n)).
Proof.
  intros Hn. pose proof (Z.div_mod n 2 ltac:(lia)) as Hd. pose proof (Z.mod_pos_bound n 2 ltac:(lia)) as Hm.
  destruct (for_range_inv (fun i s => s = arr (Z.to_nat n) (before_pass n (Z.min i (n / 2)))) 0 (n - 1)
    (fun i => for_range i (n - 1 - i) (fun j => compare_swap j)) (arr (Z.to_nat n) (before_pass n 0)))
    as (s' & E & ->).
  - lia.
  - by rewrite Z.min_l by lia.
  - intros i s Hi ->. destruct (Z.lt_ge_cases i (n / 2)) as [Hl|Hl].
    + rewrite (Z.min_l i) by lia. eexists. split; [apply pass_run; lia|]. by rewrite Z.min_l by lia.
    + rewrite !Z.min_r by lia. eexists. split; [|reflexivity]. unfold for_range.
      by replace (Z.to_nat (n - 1 - i - i)) with 0%nat by lia.
  - unfold sort. rewrite E. do 2 f_equal. apply arr_ext. intros k Hk. unfold before_pass, result.
    cases; lia.
Qed.



End Sort.

(** ** matmult.c *)

Module MatMult.

Record Arrays := mkArrays { A : list (list Z); B : list (list Z); C : list (list Z) }.

Definition set_A v s := mkArrays v (B s) (C s).
Definition set_B v s := mkArrays (A s) v (C s).
Definition set_C v s := mkArrays (A s) (B s) v.

Definition get2 (m : list (list Z)) (i j : Z) : outcome Z := r ← arr_get m i; arr_get r j.
Definition set2 (m : list (list Z)) (i j v : Z) : outcome (list (list Z)) :=
  r ← arr_get m i; r' ← arr_set r j v; arr_set m i r'.

Section Program.
(** [Dim], 20 in the source. *)
Context (Dim : Z).

Definition initialize : M Arrays unit :=
  for_range 0 Dim (fun i => for_range 0 Dim (fun j =>
    s ← get;
    a ← lift (set2 (A s) i j i); _ ← modify (set_A a);
    b ← lift (set2 (B s) i j j); _ ← modify (set_B b);
    c ← lift (set2 (C s) i j 0); modify (set_C c))).

(** [C[i][j] += A[i][k] * B[k][j]] *)
Definition accumulate (i j k : Z) : M Arrays unit :=
  s ← get;
  c ← lift (get2 (C s) i j); a ← lift (get2 (A s) i k); b ← lift (get2 (B s) k j);
  c' ← lift (set2 (C s) i j (wrap32 (c + wrap32 (a * b)))); modify (set_C c').

Definition multiply : M Arrays unit :=
  for_range 0 Dim (fun i => for_range 0 Dim (fun j => for_range 0 Dim (accumulate i j))).

(** The status given to Exit. *)
Definition main : M Arrays Z :=
  _ ← initialize; _ ← multiply;
  s ← get; lift (get2 (C s) (Dim - 1) (Dim - 1)).

End Program.

Definition Dim : Z := 20.

(** *** Square matrices *)

Definition mat (n : nat) (f : Z -> Z -> Z) : list (list Z) := arr n (fun i => arr n (f i)).

Lemma mat_ext n f g :
  (forall i j, 0 <= i < Z.of_nat n -> 0 <= j < Z.of_nat n -> f i j = g i j) -> mat n f = mat n g.
Proof. intros H. apply arr_ext. intros i Hi. apply arr_ext. intros j Hj. by apply H. Qed.

Lemma get2_mat n f i j : 0 <= i < Z.of_nat n -> 0 <= j < Z.of_nat n -> get2 (mat n f) i j = Ok (f i j).
Proof. intros Hi Hj. unfold get2, mat. rewrite arr_get_arr by done. cbn. by apply arr_get_arr. Qed.

Lemma set2_mat n f i j v : 0 <= i < Z.of_nat n -> 0 <= j < Z.of_nat n ->
  set2 (mat n f) i j v = Ok (mat n (fun r c => if (r =? i) && (c =? j) then v else f r c)).
Proof.
  intros Hi Hj. unfold set2, mat. rewrite arr_get_arr by done. cbn.
  rewrite arr_set_arr by done. cbn. rewrite arr_set_arr by done. f_equal. apply arr_ext. intros r Hr.
  destruct (Z.eqb_spec r i) as [->|]; cbn [andb]; [by apply arr_ext|done].
Qed.

(** The sum of [f] below [n]. *)
Fixpoint sum_to (n : nat) (f : Z -> Z) : Z :=
  match n with O => 0 | S n' => sum_to n' f + f (Z.of_nat n') end.

(** An entry of the product of two matrices. *)
Definition product (n : nat) (a b : Z -> Z -> Z) (i j : Z) : Z := sum_to n (fun k => a i k * b k j).

Section Loops.
Context (n : nat) (a b : Z -> Z -> Z).

(** Only [C] changes; [entry m i j]: what [m] rounds of the inner loop make
    of a zero entry. *)
Let st (f : Z -> Z -> Z) : Arrays := mkArrays (mat n a) (mat n b) (mat n f).
Let entry (m : nat) (i j : Z) : Z := wrap32 (sum_to m (fun k => a i k * b k j)).

Lemma st_ext f g :
  (forall r c, 0 <= r < Z.of_nat n -> 0 <= c < Z.of_nat n -> f r c = g r c) -> st f = st g.
Proof. intros H. unfold st. f_equal. by apply mat_ext. Qed.

Lemma accumulate_run f i j k :
  0 <= i < Z.of_nat n -> 0 <= j < Z.of_nat n -> 0 <= k < Z.of_nat n ->
  accumulate i j k (st f) =
    Ok (tt, st (fun r c => if (r =? i) && (c =? j) then wrap32 (f i j + wrap32 (a i k * b k j)) else f r c)).
Proof.
  intros Hi Hj Hk. unfold accumulate. mstep.
  mstep by (by apply lift_Ok, get2_mat). mstep by (by apply lift_Ok, get2_mat).
  mstep by (by apply lift_Ok, get2_mat). mstep by (by apply lift_Ok, set2_mat). reflexivity.
Qed.

Lemma entry_run f i j :
  0 <= i < Z.of_nat n -> 0 <= j < Z.of_nat n -> f i j = 0 ->
  exists s, for_range 0 (Z.of_nat n) (accumulate i j) (st f) = Ok (tt, s) /\
    s = st (fun r c => if (r =? i) && (c =? j) then entry n i j else f r c).
Proof.
  intros Hi Hj H0.
  destruct (for_range_inv (fun k s => s = st (fun r c =>
    if (r =? i) && (c =? j) then entry (Z.to_nat k) i j else f r c)) 0 (Z.of_nat n) (accumulate i j) (st f))
    as (s & E & ->).
  - lia.
  - apply st_ext. intros r c _ _. by destruct (Z.eqb_spec r i) as [->|], (Z.eqb_spec c j) as [->|].
  - intros k s Hk ->. eexists. split; [by apply accumulate_run|]. apply st_ext. intros r c _ _.
    destruct ((r =? i) && (c =? j)); [|done]. rewrite !Z.eqb_refl. cbn [andb].
    replace (Z.to_nat (k + 1)) with (S (Z.to_nat k)) by lia. unfold entry. cbn [sum_to].
    rewrite Z2Nat.id by lia. apply wrap32_add.
  - eexists. split; [exact E|]. by rewrite Nat2Z.id.
Qed.

Lemma row_run f i :
  0 <= i < Z.of_nat n -> (forall j, f i j = 0) ->
  exists s, for_range 0 (Z.of_nat n) (fun j => for_range 0 (Z.of_nat n) (accumulate i j)) (st f) = Ok (tt, s) /\
    s = st (fun r c => if r =? i then entry n i c else f r c).
Proof.
  intros Hi H0.
  destruct (for_range_inv (fun j s => s = st (fun r c => if (r =? i) && (c <? j) then entry n i c else f r c))
    0 (Z.of_nat n) (fun j => for_range 0 (Z.of_nat n) (accumulate i j)) (st f)) as (s & E & ->).
  - lia.
  - apply st_ext. intros r c _ Hc. destruct (Z.ltb_spec c 0); [lia|]. by rewrite andb_false_r.
  - intros j s Hj ->. destruct (entry_run (fun r c => if (r =? i) && (c <? j) then entry n i c else f r c) i j)
      as (s' & E & ->); [done..|by rewrite Z.ltb_irrefl, andb_false_r|].
    eexists. split; [exact E|]. apply st_ext. intros r c _ _.
    destruct (Z.eqb_spec r i), (Z.eqb_spec c j), (Z.ltb_spec c j), (Z.ltb_spec c (j + 1)); subst; cbn; (done || lia).
  - eexists. split; [exact E|]. apply st_ext. intros r c _ Hc.
    destruct (Z.ltb_spec c (Z.of_nat n)); [|lia]. by rewrite andb_true_r.
Qed.

Lemma multiply_run f :
  (forall i j, f i j = 0) ->
  multiply (Z.of_nat n) (st f) = Ok (tt, st (fun i j => wrap32 (product n a b i j))).
Proof.
  intros H0.
  destruct (for_range_inv (fun i s => s = st (fun r c => if r <? i then entry n r c else 0)) 0 (Z.of_nat n)
    (fun i => for_range 0 (Z.of_nat n) (fun j => for_range 0 (Z.of_nat n) (accumulate i j))) (st f))
    as (s & E & ->).
  - lia.
  - apply st_ext. intros r c Hr _. rewrite H0. by destruct (Z.ltb_spec r 0); [lia|].
  - intros i s Hi ->. destruct (row_run (fun r c => if r <? i then entry n r c else 0) i) as (s' & E & ->);
      [done|intros; by rewrite Z.ltb_irrefl|].
    eexists. split; [exact E|]. apply st_ext. intros r c _ _.
    destruct (Z.eqb_spec r i), (Z.ltb_spec r i), (Z.ltb_spec r (i + 1)); subst; (done || lia).
  - unfold multiply. rewrite E. do 2 f_equal. apply st_ext. intros r c Hr _.
    by destruct (Z.ltb_spec r (Z.of_nat n)); [|lia].
Qed.
End Loops.

(** The arrays that [main] starts from: three square matrices. *)
Definition square (n : nat) (s : Arrays) : Prop :=
  Forall (fun m => length m = n /\ Forall (fun r => length r = n) m) [A s; B s; C s].

Lemma mat_of_square n m : length m = n -> Forall (fun r => length r = n) m -> exists f, m = mat n f.
Proof.
  intros Hl Hr. exists (fun i j => nth (Z.to_nat j) (nth (Z.to_nat i) m []) 0). apply list_eq. intros i.
  destruct (decide (i < n)%nat) as [Hi|Hi].
  - unfold mat. rewrite arr_lookup by done. destruct (lookup_lt_is_Some_2 m i) as [r E]; [lia|].
    rewrite E, Nat2Z.id. f_equal. rewrite Forall_lookup in Hr. specialize (Hr i r E).
    apply nth_lookup_Some with (d := []) in E. rewrite E. rewrite <- Hr. apply arr_of_list.
  - unfold mat. rewrite !lookup_ge_None_2; rewrite ?arr_length; (done || lia).
Qed.

Lemma initialize_run n a b z :
  initialize (Z.of_nat n) (mkArrays (mat n a) (mat n b) (mat n z)) =
    Ok (tt, mkArrays (mat n (fun i _ => i)) (mat n (fun _ j => j)) (mat n (fun _ _ => 0))).
Proof.
  set (st := fun p : Z -> Z -> bool => mkArrays (mat n (fun i j => if p i j then i else a i j))
    (mat n (fun i j => if p i j then j else b i j)) (mat n (fun i j => if p i j then 0 else z i j))).
  assert (EQ : forall p q, (forall i j, 0 <= i < Z.of_nat n -> 0 <= j < Z.of_nat n -> p i j = q i j) -> st p = st q).
  { intros p q H. unfold st. f_equal; apply mat_ext; intros i j Hi Hj; by rewrite H. }
  destruct (for_range_inv (fun i s => s = st (fun r _ => r <? i)) 0 (Z.of_nat n)
    (fun i => for_range 0 (Z.of_nat n) (fun j =>
      s ← get; x ← lift (set2 (A s) i j i); _ ← modify (set_A x);
      y ← lift (set2 (B s) i j j); _ ← modify (set_B y);
      w ← lift (set2 (C s) i j 0); modify (set_C w))) (mkArrays (mat n a) (mat n b) (mat n z)))
    as (s & E & ->).
  - lia.
  - unfold st. f_equal; apply mat_ext; intros i j Hi Hj; by destruct (Z.ltb_spec i 0); [lia|].
  - intros i s Hi ->.
    match goal with |- exists s', for_range _ _ ?body _ = _ /\ _ =>
      destruct (for_range_inv (fun j s => s = st (fun r c => (r <? i) || (r =? i) && (c <? j))) 0 (Z.of_nat n)
        body (st (fun r _ => r <? i))) as (s & E & ->) end.
    + lia.
    + apply EQ. intros r c Hr Hc. destruct (Z.ltb_spec c 0); [lia|]. by rewrite andb_false_r, orb_false_r.
    + intros j s Hj ->. eexists. split.
      { mstep. mstep by (by apply lift_Ok, set2_mat). mstep. mstep by (by apply lift_Ok, set2_mat).
        mstep. mstep by (by apply lift_Ok, set2_mat). reflexivity. }
      unfold st, set_A, set_B, set_C. cbn [A B C]. f_equal; apply mat_ext; intros r c _ _;
        destruct (Z.eqb_spec r i), (Z.eqb_spec c j), (Z.ltb_spec r i), (Z.ltb_spec c j), (Z.ltb_spec c (j + 1));
        subst; cbn; (done || lia).
    + eexists. split; [exact E|]. apply EQ. intros r c Hr Hc.
      destruct (Z.ltb_spec r i), (Z.eqb_spec r i), (Z.ltb_spec c (Z.of_nat n)), (Z.ltb_spec r (i + 1)); cbn; (done || lia).
  - unfold initialize. rewrite E. unfold st. do 3 f_equal; apply mat_ext; intros i j Hi Hj;
      by destruct (Z.ltb_spec i (Z.of_nat n)); [|lia].
Qed.

Lemma sum_to_const n v : sum_to n (fun _ => v) = Z.of_nat n * v.
Proof. induction n as [|n IH]; [done|]. cbn [sum_to]. rewrite IH. lia. Qed.

(** matmult.c multiplies.  For matrices of every size and with any
    entries, and [C] cleared, its loops leave in [C] the product of [A] and
    [B], modulo 2^32; and [main], whatever the arrays hold, exits with the last
    entry of the product of the matrices that it has initialised. *)
Theorem matmult_product n (s : Arrays) :
  square n s -> (0 < n)%nat ->
  (forall a b, multiply (Z.of_nat n) (mkArrays (mat n a) (mat n b) (mat n (fun _ _ => 0))) =
    Ok (tt, mkArrays (mat n a) (mat n b) (mat n (fun i j => wrap32 (product n a b i j))))) /\
  exists s', main (Z.of_nat n) s = Ok (wrap32 (Z.of_nat n * ((Z.of_nat n - 1) * (Z.of_nat n - 1))), s').
Proof.
  intros Hs Hn. split; [intros; by apply multiply_run|].
  destruct s as [x y z]. unfold square in Hs. cbn [A B C] in Hs.
  apply Forall_cons_1 in Hs as [[X1 X2] Hs]. apply Forall_cons_1 in Hs as [[Y1 Y2] Hs].
  apply Forall_cons_1 in Hs as [[Z1 Z2] _].
  destruct (mat_of_square n x X1 X2) as [a ->], (mat_of_square n y Y1 Y2) as [b ->],
    (mat_of_square n z Z1 Z2) as [c ->].
  eexists. unfold main. mstep by apply initialize_run. mstep by (by apply multiply_run).
  mstep. cbn [C]. unfold lift. rewrite get2_mat by lia. do 3 f_equal.
  unfold product. by rewrite sum_to_const.
Qed.

(** With the 20 x 20 matrices of the source. *)
Lemma matmult_product_witness :
  exists s', main Dim (mkArrays (mat 20 (fun _ _ => 5)) (mat 20 (fun _ _ => 5)) (mat 20 (fun _ _ => 5))) =
    Ok (7220, s').
Proof.
  apply (matmult_product 20).
  - repeat (constructor; [split; [reflexivity|repeat constructor]|]). constructor.
  - lia.
Defined.

End MatMult.

(** ** shell.c *)

Module Shell.

(** What the system calls do to the outside: text written, programs run and
    waited for. *)
Inductive event := Wrote (text : list Z) | Ran (name : list Z).

(** The characters that the console will deliver, the array [buffer], and the
    events so far. *)
Record State := mkState { input : list Z; buffer : list Z; events : list event }.

Definition newline : Z := 10.
Definition prompt : list Z := [45; 45].

(** The do-while loop, from index [i]: [Read] delivers one character, or waits
    for ever.  The index is not compared with the size of [buffer]. *)
Fixpoint read_line (i : Z) (inp : list Z) (buf : list Z) : outcome (Z * (list Z * list Z)) :=
  match inp with
  | [] => Fault Blocked
  | ch :: rest =>
    buf' ← arr_set buf i ch;
    x ← arr_get buf' i;
    if negb (x =? newline) then read_line (i + 1) rest buf' else Ok (i + 1, (buf', rest))
  end.

(** A C string. *)
Fixpoint c_string (l : list Z) : list Z :=
  match l with
  | [] => []
  | ch :: r => if ch =? 0 then [] else ch :: c_string r
  end.

(** One round of the loop. *)
Definition round : M State unit := fun s =>
  r ← read_line 0 (input s) (buffer s);
  let i := r.1 - 1 in
  buf ← arr_set r.2.1 i 0;
  Ok (tt, mkState r.2.2 buf
    (events s ++ Wrote prompt :: if i >? 0 then [Ran (c_string buf)] else [])).

Fixpoint rounds (n : nat) : M State unit :=
  match n with O => mret tt | S n' => _ ← round; rounds n' end.

(** A line as it can be typed. *)
Definition typed (l : list Z) : Prop := Forall (fun ch => ch <> newline /\ ch <> 0) l.

Lemma read_line_run l rest : forall i buf,
  typed l -> 0 <= i -> i + Z.of_nat (length l) < Z.of_nat (length buf) ->
  read_line i (l ++ newline :: rest) buf =
    Ok (i + Z.of_nat (length l) + 1,
        (take (Z.to_nat i) buf ++ l ++ newline :: drop (Z.to_nat i + length l + 1) buf, rest)).
Proof.
  assert (U : forall i (buf : list Z) v, 0 <= i -> i < Z.of_nat (length buf) ->
    <[Z.to_nat i := v]> buf = take (Z.to_nat i) buf ++ v :: drop (Z.to_nat i + 1) buf).
  { intros i buf v H0 H1. rewrite insert_take_drop by lia. by replace (S (Z.to_nat i)) with (Z.to_nat i + 1)%nat by lia. }
  induction l as [|ch l IH]; intros i buf Hl H0 Hb; cbn [app read_line length] in *.
  - rewrite arr_set_in by lia. cbn. rewrite (arr_get_in _ i newline) by
      (lia || (apply list_lookup_insert_eq; lia)). cbn.
    rewrite U by lia. do 3 f_equal; [lia|]. by rewrite Nat.add_0_r.
  - apply Forall_cons_1 in Hl as [[Hn _] Hl]. rewrite arr_set_in by lia. cbn.
    rewrite (arr_get_in _ i ch) by (lia || (apply list_lookup_insert_eq; lia)). cbn.
    rewrite (proj2 (Z.eqb_neq _ _) Hn). cbn [negb]. rewrite IH by (rewrite ?length_insert; (done || lia)).
    replace (Z.to_nat (i + 1)) with (S (Z.to_nat i)) by lia.
    replace (i + 1 + Z.of_nat (length l) + 1) with (i + Z.of_nat (S (length l)) + 1) by lia.
    rewrite (take_S_r _ _ ch) by (apply list_lookup_insert_eq; lia). rewrite take_insert_ge by lia.
    rewrite <- app_assoc, drop_insert_lt by lia.
    by replace (S (Z.to_nat i) + length l + 1)%nat with (Z.to_nat i + S (length l) + 1)%nat by lia.
Qed.

Lemma read_line_overflow l rest : forall i buf,
  typed l -> 0 <= i -> Z.of_nat (length buf) <= i + Z.of_nat (length l) -> i <= Z.of_nat (length buf) ->
  read_line i (l ++ newline :: rest) buf = Fault BadAccess.
Proof.
  assert (F : forall i (buf : list Z) v, Z.of_nat (length buf) <= i -> arr_set buf i v = Fault BadAccess).
  { intros i buf v H. unfold arr_set. by rewrite decide_False by lia. }
  induction l as [|ch l IH]; intros i buf Hl H0 Hb Hi; cbn [app read_line length] in *.
  - rewrite F by lia. done.
  - apply Forall_cons_1 in Hl as [[Hn _] Hl].
    destruct (Z.eq_dec i (Z.of_nat (length buf))) as [E|E]; [by rewrite F by lia|].
    rewrite arr_set_in by lia. cbn.
    rewrite (arr_get_in _ i ch) by (lia || (apply list_lookup_insert_eq; lia)). cbn.
    rewrite (proj2 (Z.eqb_neq _ _) Hn). cbn [negb]. apply IH; rewrite ?length_insert; (done || lia).
Qed.

Lemma c_string_app l r : typed l -> c_string (l ++ 0 :: r) = l.
Proof.
  induction 1 as [|ch l [_ H] _ IH]; [done|]. cbn. rewrite (proj2 (Z.eqb_neq _ _) H). by rewrite IH.
Qed.

(** What one line causes. *)
Definition response (l : list Z) : list event :=
  Wrote prompt :: match l with [] => [] | _ => [Ran l] end.

Lemma round_run l s rest :
  typed l -> (length l < 60)%nat -> length (buffer s) = 60%nat -> input s = l ++ newline :: rest ->
  exists buf, round s = Ok (tt, mkState rest buf (events s ++ response l)) /\ length buf = 60%nat.
Proof.
  intros Hl Hn Hb Hi. unfold round. rewrite Hi, read_line_run by (done || lia).
  cbn -[Z.of_nat]. rewrite take_0. cbn [app]. rewrite arr_set_in by
    (rewrite !length_app; cbn [length]; rewrite length_drop; lia).
  replace (Z.to_nat (0 + Z.of_nat (length l) + 1 - 1)) with (length l + 0)%nat by lia.
  rewrite insert_app_r. change (<[0%nat := 0]> (newline :: ?d)) with (0 :: d).
  exists (l ++ 0 :: drop (Z.to_nat 0 + length l + 1) (buffer s)). split.
  - cbn -[Z.of_nat]. rewrite c_string_app by done. unfold response.
    destruct (Z.gtb_spec (0 + Z.of_nat (length l) + 1 - 1) 0), l; cbn [length] in *; (lia || reflexivity).
  - rewrite length_app. cbn [length]. rewrite length_drop. lia.
Qed.

(** The shell runs what is typed.  Given lines of fewer than 60 characters,
    in as many rounds it prompts for each and runs exactly those that are not
    empty, in order, and has consumed exactly their text; a longer line writes
    behind the end of [buffer]. *)
Theorem shell_lines lines s rest :
  Forall (fun l => typed l /\ (length l < 60)%nat) lines -> length (buffer s) = 60%nat ->
  input s = concat (map (fun l => l ++ [newline]) lines) ++ rest ->
  (exists buf, rounds (length lines) s =
     Ok (tt, mkState rest buf (events s ++ concat (map response lines))) /\ length buf = 60%nat) /\
  forall l, typed l -> (60 <= length l)%nat -> forall s' rest', length (buffer s') = 60%nat ->
    input s' = l ++ newline :: rest' -> round s' = Fault BadAccess.
Proof.
  intros Hl Hb Hi. split.
  - revert s Hb Hi. induction Hl as [|l lines [Hl Hn] _ IH]; intros s Hb Hi; cbn [length rounds map concat] in *.
    + exists (buffer s). rewrite app_nil_r. cbn in Hi. subst rest. by destruct s.
    + rewrite <- app_assoc, <- app_assoc in Hi.
      destruct (round_run l s _ Hl Hn Hb Hi) as (buf & E & L). mstep by exact E.
      destruct (IH (mkState _ buf (events s ++ response l)) L eq_refl) as (buf' & E' & L').
      exists buf'. rewrite E'. cbn [events]. by rewrite <- app_assoc.
  - intros l Hty Hlen s' rest' Hb' Hi'. unfold round. by rewrite Hi', read_line_overflow by (done || lia).
Qed.

Lemma shell_lines_witness :
  exists buf, rounds 2 (mkState [104; 97; 10; 10; 99] (replicate 60 7) []) =
    Ok (tt, mkState [99] buf [Wrote prompt; Ran [104; 97]; Wrote prompt]) /\ length buf = 60%nat.
Proof.
  apply (shell_lines [[104; 97]; []]).
  - constructor; [split; [|cbn; lia]|constructor; [split; [|cbn; lia]|constructor]];
      repeat constructor; discriminate.
  - reflexivity.
  - reflexivity.
Defined.

End Shell.
