(* ===== verification/LinkedList.v ===== *)
(** * threads/list.h, threads/list.cc: the kernel's singly linked lists

    The heap of [ListElement]s is explicit: a [List] object is a pair of
    pointers, every operation reads and writes cells of the heap, and a
    dereference of NULL or of a cell that is not allocated is a fault.  The
    abstraction [rep] relates such a state to a list of (key, item) pairs;
    each operation is proved to implement the corresponding function of
    [Spec]. *)
From S2P Require Import Prelude.
From Stdlib Require Import ZArith Lia List Bool Sorting.Permutation Sorting.Sorted.
From stdpp Require Import base tactics list numbers gmap.
Local Open Scope Z_scope.

(** ** Data *)

Notation loc := positive (only parsing).

(** [class ListElement]; an item is a [void *], NULL is 0. *)
Record ListElement := mkElement {
  next : option loc;
  key : Z;
  item : Z }.

(** [class List] together with the heap it lives in. *)
Record ListState := mkList {
  heap : gmap loc ListElement;
  first : option loc;
  last : option loc }.

Definition set_heap (h : gmap loc ListElement) (s : ListState) : ListState :=
  mkList h (first s) (last s).
Definition set_first (p : option loc) (s : ListState) : ListState :=
  mkList (heap s) p (last s).
Definition set_last (p : option loc) (s : ListState) : ListState :=
  mkList (heap s) (first s) p.

(** ** Memory accesses *)

(** [ptr->...]: reading through a pointer. *)
Definition deref (p : option loc) : M ListState ListElement := fun s =>
  match p ≫= fun l => heap s !! l with
  | Some e => Ok (e, s)
  | None => Fault BadAccess
  end.

(** [ptr->next = q]. *)
Definition write_next (p : option loc) (q : option loc) : M ListState unit :=
  e ← deref p;
  match p with
  | Some l => modify (fun s => set_heap (<[l := mkElement q (key e) (item e)]> (heap s)) s)
  | None => fail BadAccess
  end.

(** [new ListElement(itemPtr, sortKey)]. *)
Definition new_ListElement (itemPtr sortKey : Z) : M ListState loc := fun s =>
  let l := fresh (dom (heap s) : gset loc) in
  Ok (l, set_heap (<[l := mkElement None sortKey itemPtr]> (heap s)) s).

(** [delete element]. *)
Definition delete_element (p : option loc) : M ListState unit :=
  match p with
  | Some l => modify (fun s => set_heap (delete l (heap s)) s)
  | None => mret tt
  end.

(** ** Operations *)

Definition List_List (s : ListState) : ListState := mkList (heap s) None None.

Definition IsEmpty : M ListState bool :=
  gets (fun s => match first s with None => true | Some _ => false end).

Definition Append (it : Z) : M ListState unit :=
  element ← new_ListElement it 0;
  b ← IsEmpty;
  if (b : bool) then
    modify (fun s => set_last (Some element) (set_first (Some element) s))
  else
    l ← gets last;
    _ ← write_next l (Some element);
    modify (set_last (Some element)).

Definition Prepend (it : Z) : M ListState unit :=
  element ← new_ListElement it 0;
  b ← IsEmpty;
  if (b : bool) then
    modify (fun s => set_last (Some element) (set_first (Some element) s))
  else
    f ← gets first;
    _ ← write_next (Some element) f;
    modify (set_first (Some element)).

(** The walk of [SortedInsert]: [ptr] is the loop variable; the result says
    whether the element was linked in before the end was reached. *)
Fixpoint insert_walk (fuel : nat) (element : loc) (sortKey : Z)
    (ptr : option loc) : M ListState bool :=
  match fuel with
  | O => fail Diverges
  | S fuel' =>
    e ← deref ptr;
    match next e with
    | None => mret false
    | Some nx =>
      e' ← deref (Some nx);
      if sortKey <? key e' then
        _ ← write_next (Some element) (Some nx);
        _ ← write_next ptr (Some element);
        mret true
      else insert_walk fuel' element sortKey (Some nx)
    end
  end.

Definition SortedInsert (it sortKey : Z) : M ListState unit :=
  element ← new_ListElement it sortKey;
  b ← IsEmpty;
  if (b : bool) then
    modify (fun s => set_last (Some element) (set_first (Some element) s))
  else
    f ← gets first;
    fe ← deref f;
    if sortKey <? key fe then
      _ ← write_next (Some element) f;
      modify (set_first (Some element))
    else
      fuel ← gets (fun s => size (heap s));
      linked ← insert_walk fuel element sortKey f;
      if (linked : bool) then mret tt
      else
        l ← gets last;
        _ ← write_next l (Some element);
        modify (set_last (Some element)).

(** Returns the item and the key; NULL (and no key) when the list is empty. *)
Definition SortedRemove : M ListState (Z * option Z) :=
  element ← gets first;
  b ← IsEmpty;
  if (b : bool) then mret (0, None)
  else
    e ← deref element;
    l ← gets last;
    _ ← (if decide (element = l)
         then modify (fun s => set_last None (set_first None s))
         else modify (set_first (next e)));
    _ ← delete_element element;
    mret (item e, Some (key e)).

Definition Remove : M ListState Z :=
  r ← SortedRemove; mret r.1.

(** [Mapcar] applies a function to every item, in list order; the result is
    the sequence of items it was called on. *)
Fixpoint Mapcar_walk (fuel : nat) (ptr : option loc) : M ListState (list Z) :=
  match ptr with
  | None => mret []
  | Some _ =>
    match fuel with
    | O => fail Diverges
    | S fuel' =>
      e ← deref ptr;
      r ← Mapcar_walk fuel' (next e);
      mret (item e :: r)
    end
  end.

Definition Mapcar : M ListState (list Z) :=
  f ← gets first; fuel ← gets (fun s => size (heap s)); Mapcar_walk fuel f.

(** [GetListLength] of list.h: the loop tests [p != last] but its body does
    not move [p]. *)
Fixpoint GetListLength_loop (fuel : nat) (p : option loc) (i : Z) : M ListState Z :=
  match fuel with
  | O => fail Diverges
  | S fuel' =>
    l ← gets last;
    if decide (p = l) then mret i else GetListLength_loop fuel' p (i + 1)
  end.

Definition GetListLength (fuel : nat) : M ListState Z :=
  f ← gets first;
  match f with
  | None => mret 0
  | Some _ => GetListLength_loop fuel f 1
  end.

(** [~List]: remove elements until [Remove] returns NULL. *)
Fixpoint destroy_loop (fuel : nat) : M ListState unit :=
  match fuel with
  | O => fail Diverges
  | S fuel' =>
    it ← Remove;
    if it =? 0 then mret tt else destroy_loop fuel'
  end.

Definition List_destroy : M ListState unit :=
  fuel ← gets (fun s => S (size (heap s))); destroy_loop fuel.

(** ** Specification: lists of (key, item) pairs *)

Module Spec.
Definition append (it : Z) (xs : list (Z * Z)) := xs ++ [(0, it)].
Definition prepend (it : Z) (xs : list (Z * Z)) := (0, it) :: xs.

Fixpoint sorted_insert (it k : Z) (xs : list (Z * Z)) : list (Z * Z) :=
  match xs with
  | [] => [(k, it)]
  | x :: xs' => if k <? x.1 then (k, it) :: x :: xs'
                else x :: sorted_insert it k xs'
  end.

Definition sorted_remove (xs : list (Z * Z)) : (Z * option Z) * list (Z * Z) :=
  match xs with
  | [] => ((0, None), [])
  | x :: xs' => ((x.2, Some x.1), xs')
  end.
End Spec.

(** ** Representation *)

(** [seg h p els q]: following [next] from [p], the cells of [h] are those of
    [els], in order, and the successor of the last one is [q]. *)
Fixpoint seg (h : gmap loc ListElement) (p : option loc)
    (els : list (loc * (Z * Z))) (q : option loc) : Prop :=
  match els with
  | [] => p = q
  | (l, (k, v)) :: els' =>
    p = Some l /\ exists nx, h !! l = Some (mkElement nx k v) /\ seg h nx els' q
  end.

(** [rep s els]: the object is well formed and holds [els]. *)
Record rep (s : ListState) (els : list (loc * (Z * Z))) : Prop := {
  rep_seg : seg (heap s) (first s) els None;
  rep_nodup : NoDup (els.*1);
  rep_last : last s = list.last els.*1 }.

(** What an operation leaves alone: the cells that are not in the list. *)
Definition frame (s s' : ListState) (els : list (loc * (Z * Z))) : Prop :=
  forall l e, l ∉ els.*1 -> heap s !! l = Some e -> heap s' !! l = Some e.

(** ** Lemmas on segments *)

Lemma seg_app h p a b q :
  seg h p (a ++ b) q <-> exists m, seg h p a m /\ seg h m b q.
Proof.
  revert p. induction a as [|[l [k v]] a IH]; intros p; simpl; [naive_solver|].
  split.
  - intros (-> & nx & Hl & H). apply IH in H as (m & ? & ?). naive_solver.
  - intros (m & (-> & nx & Hl & H) & Hb). split; [done|].
    exists nx. split; [done|]. apply IH. eauto.
Qed.

Lemma seg_insert h p els q l e :
  l ∉ els.*1 -> seg h p els q -> seg (<[l := e]> h) p els q.
Proof.
  revert p. induction els as [|[l' [k v]] els IH]; intros p; simpl; [done|].
  intros Hl (-> & nx & Hl' & H). apply not_elem_of_cons in Hl as [? ?].
  split; [done|]. exists nx. rewrite lookup_insert_ne by done. auto.
Qed.

Lemma seg_delete h p els q l :
  l ∉ els.*1 -> seg h p els q -> seg (delete l h) p els q.
Proof.
  revert p. induction els as [|[l' [k v]] els IH]; intros p; simpl; [done|].
  intros Hl (-> & nx & Hl' & H). apply not_elem_of_cons in Hl as [? ?].
  split; [done|]. exists nx. rewrite lookup_delete_ne by done. auto.
Qed.

Lemma seg_in h p els q l x :
  seg h p els q -> (l, x) ∈ els -> exists nx, h !! l = Some (mkElement nx x.1 x.2).
Proof.
  revert p. induction els as [|[l' [k v]] els IH]; intros p; simpl.
  - intros _ H. by apply not_elem_of_nil in H.
  - intros (-> & nx & Hl & H) [[= -> ->]|Hin]%elem_of_cons; eauto.
Qed.

Lemma seg_dom h p els q l : seg h p els q -> l ∈ els.*1 -> l ∈ dom h.
Proof.
  intros H (x & -> & Hx)%list_elem_of_fmap. destruct x as [l x].
  destruct (seg_in _ _ _ _ _ _ H Hx) as [nx E]. by apply elem_of_dom_2 in E.
Qed.

(** A duplicate-free segment is no longer than the heap is large. *)
Lemma seg_length h p els q :
  seg h p els q -> NoDup els.*1 -> (length els <= size h)%nat.
Proof.
  intros Hs Hn. rewrite <- size_dom.
  rewrite <- (length_fmap fst els).
  rewrite <- (size_list_to_set (C := gset loc)) by done.
  apply subseteq_size. intros l Hl%elem_of_list_to_set. by eapply seg_dom.
Qed.

(** Linking a new cell between a cell and its successor. *)
Lemma seg_splice h p A lp k v m B el sk it :
  seg h p (A ++ [(lp, (k, v))]) m -> seg h m B None ->
  NoDup ((A ++ (lp, (k, v)) :: B).*1) ->
  el ∉ (A ++ (lp, (k, v)) :: B).*1 ->
  seg (<[lp := mkElement (Some el) k v]> (<[el := mkElement m sk it]> h)) p
    (A ++ (lp, (k, v)) :: (el, (sk, it)) :: B) None.
Proof.
  rewrite !fmap_app, !fmap_cons. cbn [fst].
  intros (m' & HA & Hlp)%seg_app HB (HndA & HAB & HndB)%NoDup_app Hel.
  apply not_elem_of_app in Hel as [HelA [Hellp HelB]%not_elem_of_cons].
  apply NoDup_cons in HndB as [HlpB HndB].
  assert (lp ∉ A.*1) as HlpA by (intros ?; eapply HAB; [done|]; constructor).
  destruct Hlp as (-> & nx & Hlp & Hnx). cbn [seg] in Hnx. subst nx.
  apply seg_app. exists (Some lp). split.
  - by apply seg_insert, seg_insert.
  - split; [done|]. exists (Some el). rewrite lookup_insert_eq.
    split; [done|]. split; [done|]. exists m.
    rewrite lookup_insert_ne by done. rewrite lookup_insert_eq.
    split; [done|]. by apply seg_insert, seg_insert.
Qed.

(** ** Memory accesses succeed on allocated cells *)

Lemma deref_ok s l e :
  heap s !! l = Some e -> deref (Some l) s = Ok (e, s).
Proof. intros H. unfold deref. simpl. by rewrite H. Qed.

Lemma write_next_ok s l e q :
  heap s !! l = Some e ->
  write_next (Some l) q s =
  Ok (tt, set_heap (<[l := mkElement q (key e) (item e)]> (heap s)) s).
Proof.
  intros H. unfold write_next. by rewrite (bind_run _ _ _ _ _ (deref_ok _ _ _ H)).
Qed.

Lemma rep_first_Some s l x els :
  rep s ((l, x) :: els) -> first s = Some l.
Proof. destruct x. by intros [[H _] _ _]. Qed.

Lemma rep_empty s els : rep s els -> first s = None -> els = [].
Proof. destruct els as [|[l [k v]] els]; [done|]. intros [[H _] _ _]. congruence. Qed.

(** The last cell of a non-empty list. *)
Lemma rep_snoc s els :
  rep s els -> els <> [] ->
  exists A lp x, els = A ++ [(lp, x)] /\ last s = Some lp.
Proof.
  intros Hr Hne. destruct (exists_last Hne) as (A & [lp x] & ->).
  exists A, lp, x. split; [done|]. rewrite (rep_last _ _ Hr), fmap_app.
  cbn [fmap list_fmap fst]. by rewrite last_snoc.
Qed.

(** ** Shared facts about allocation *)

Section alloc.
Context (s : ListState) (els : list (loc * (Z * Z))) (it sk : Z).
Hypothesis Hrep : rep s els.
Let el : loc := fresh (dom (heap s) : gset loc).
Let s1 : ListState := set_heap (<[el := mkElement None sk it]> (heap s)) s.

Lemma alloc_fresh : heap s !! el = None.
Proof. apply not_elem_of_dom. apply is_fresh. Qed.

Lemma alloc_notin : el ∉ els.*1.
Proof.
  intros Hin. apply (seg_dom _ _ _ _ _ (rep_seg _ _ Hrep)) in Hin.
  by apply is_fresh in Hin.
Qed.

Lemma alloc_rep : rep s1 els.
Proof.
  destruct Hrep as [Hs Hn Hl]. split; [|done..].
  apply seg_insert; [apply alloc_notin|done].
Qed.

Lemma alloc_frame : frame s s1 els.
Proof.
  intros l e _ H. simpl. rewrite lookup_insert_ne; [done|].
  intros <-. by rewrite alloc_fresh in H.
Qed.

Lemma alloc_cell : heap s1 !! el = Some (mkElement None sk it).
Proof. simpl. by rewrite lookup_insert_eq. Qed.

(** Linking the new cell after [lp] (the last three lines of [Append] and of
    [SortedInsert], and the middle insertion of [SortedInsert]). *)
Lemma link_after A lp k v B m :
  els = A ++ (lp, (k, v)) :: B ->
  heap s1 !! lp = Some (mkElement m k v) -> seg (heap s1) m B None ->
  let h := <[lp := mkElement (Some el) k v]> (<[el := mkElement m sk it]> (heap s1)) in
  forall last',
  last' = (if decide (B = []) then Some el else last s) ->
  rep (mkList h (first s) last') (A ++ (lp, (k, v)) :: (el, (sk, it)) :: B) /\
  frame s (mkList h (first s) last') els.
Proof.
  intros Hels Hlp HB h last' ->. pose proof alloc_rep as [Hs Hn Hl].
  pose proof alloc_notin as Hni. rewrite Hels in Hs, Hn, Hl, Hni.
  assert (seg (heap s1) (first s) (A ++ [(lp, (k, v))]) m) as HA.
  { apply seg_app in Hs as (m' & HsA & Hs'). apply seg_app. exists m'.
    split; [done|]. destruct Hs' as (-> & nx & E & Hs').
    split; [done|]. exists nx. split; [done|].
    rewrite Hlp in E. by injection E as <-. }
  split; [split|].
  - by apply seg_splice.
  - rewrite fmap_app, !fmap_cons in *. cbn [fst] in *.
    apply NoDup_app in Hn as (H1 & H2 & H3).
    apply not_elem_of_app in Hni as [? [? ?]%not_elem_of_cons].
    apply NoDup_app. split; [done|]. split.
    + intros x Hx. specialize (H2 x Hx). set_solver.
    + apply NoDup_cons in H3 as [? ?]. apply NoDup_cons. split; [set_solver|].
      by apply NoDup_cons.
  - simpl. simpl in Hl. rewrite fmap_app, !fmap_cons in *. cbn [fst] in *.
    rewrite last_app_cons in Hl. rewrite last_app_cons.
    rewrite !last_cons in *. case_decide as HBe; [by subst B|].
    rewrite Hl. destruct (list.last B.*1) eqn:EB; [done|].
    apply last_None, fmap_nil_inv in EB. done.
  - intros l e Hl' He. change (h !! l = Some e). unfold h.
    rewrite lookup_insert_ne.
    2:{ intros <-. apply Hl'. rewrite Hels, fmap_app, fmap_cons. set_solver. }
    rewrite lookup_insert_ne; [by apply alloc_frame|].
    intros <-. by rewrite alloc_fresh in He.
Qed.
End alloc.

(** ** Refinement of each operation *)

Lemma new_ListElement_run it k s :
  new_ListElement it k s =
  Ok (fresh (dom (heap s) : gset loc),
      set_heap (<[fresh (dom (heap s) : gset loc) := mkElement None k it]> (heap s)) s).
Proof. done. Qed.

(** The first element of an empty list. *)
Lemma rep_singleton s it k :
  rep s [] ->
  let el := fresh (dom (heap s) : gset loc) in
  rep (mkList (<[el := mkElement None k it]> (heap s)) (Some el) (Some el))
    [(el, (k, it))].
Proof.
  intros Hr el. split.
  - simpl. split; [done|]. exists None. by rewrite lookup_insert_eq.
  - simpl. apply NoDup_singleton.
  - done.
Qed.

Lemma IsEmpty_Some s l : first s = Some l -> IsEmpty s = Ok (false, s).
Proof. intros H. unfold IsEmpty, gets. by rewrite H. Qed.

Lemma IsEmpty_None s : first s = None -> IsEmpty s = Ok (true, s).
Proof. intros H. unfold IsEmpty, gets. by rewrite H. Qed.

(** The last cell and its NULL successor. *)
Lemma rep_last_cell s A lp k v :
  rep s (A ++ [(lp, (k, v))]) -> heap s !! lp = Some (mkElement None k v).
Proof.
  intros [Hs _ _]. apply seg_app in Hs as (m & _ & -> & nx & Hlp & Hn).
  simpl in Hn. by subst nx.
Qed.

(** The three insertions that end with [last->next = element; last = element]. *)
Lemma link_last s els it k :
  rep s els -> els <> [] ->
  let el := fresh (dom (heap s) : gset loc) in
  let s1 := set_heap (<[el := mkElement None k it]> (heap s)) s in
  exists s' , (l ← gets last; _ ← write_next l (Some el); modify (set_last (Some el))) s1
    = Ok (tt, s') /\ rep s' (els ++ [(el, (k, it))]) /\ frame s s' els.
Proof.
  intros Hr Hne el s1.
  destruct (rep_snoc s els Hr Hne) as (A & lp & [k' v] & E & Hlast).
  pose proof (alloc_rep s els it k Hr) as Hr1. fold el in Hr1. fold s1 in Hr1.
  assert (heap s1 !! lp = Some (mkElement None k' v)) as Hlp.
  { apply rep_last_cell with A. by rewrite <- E. }
  mstep. replace (last s1) with (Some lp) by done.
  mstep by (by apply write_next_ok).
  eexists. split; [done|].
  destruct (link_after s els it k Hr A lp k' v [] None E Hlp eq_refl (Some el) eq_refl)
    as [Hrep Hfr].
  fold el in Hrep, Hfr. fold s1 in Hrep, Hfr.
  rewrite (insert_id (heap s1) el) in Hrep, Hfr by apply alloc_cell.
  split; [|exact Hfr]. rewrite E, <- app_assoc. exact Hrep.
Qed.

(** [Append] implements appending to the sequence of (key, item) pairs. *)
Lemma append_refines s els it :
  rep s els ->
  exists s' els', Append it s = Ok (tt, s') /\ rep s' els' /\
    els'.*2 = Spec.append it els.*2 /\ frame s s' els.
Proof.
  intros Hr. unfold Append. mstep.
  destruct els as [|[l x] els].
  - mstep by (apply IsEmpty_None, (rep_seg _ _ Hr)).
    eexists _, _. split; [done|]. split; [by apply rep_singleton|].
    split; [done|]. by apply alloc_frame.
  - mstep by (eapply IsEmpty_Some, (rep_first_Some _ _ _ _ Hr)).
    destruct (link_last s _ it 0 Hr) as (s' & E & Hr' & Hf); [done|].
    rewrite E. eexists _, _. split; [done|]. split; [done|]. split; [|done].
    by rewrite fmap_app.
Qed.

(** Linking the new cell in front. *)
Lemma link_first s els it k l x :
  rep s ((l, x) :: els) ->
  let el := fresh (dom (heap s) : gset loc) in
  let s1 := set_heap (<[el := mkElement None k it]> (heap s)) s in
  exists s', (_ ← write_next (Some el) (Some l); modify (set_first (Some el))) s1
    = Ok (tt, s') /\ rep s' ((el, (k, it)) :: (l, x) :: els) /\
    frame s s' ((l, x) :: els).
Proof.
  intros Hr el s1. pose proof (alloc_notin _ _ Hr) as Hni. fold el in Hni.
  mstep by (apply write_next_ok; apply (alloc_cell s it k)).
  eexists. split; [done|]. pose proof (rep_first_Some _ _ _ _ Hr) as Hfst.
  destruct Hr as [Hs Hn Hl]. rewrite Hfst in Hs. split; [split|].
  - split; [done|]. exists (Some l). split; [apply lookup_insert_eq|].
    apply seg_insert; [done|]. by apply seg_insert.
  - rewrite fmap_cons. by apply NoDup_cons.
  - simpl. simpl in Hl. done.
  - intros l' e Hl' He. simpl. fold el.
    assert (l' <> el) by (intros ->; unfold el in He; by rewrite alloc_fresh in He).
    by rewrite !lookup_insert_ne.
Qed.

Lemma prepend_refines s els it :
  rep s els ->
  exists s' els', Prepend it s = Ok (tt, s') /\ rep s' els' /\
    els'.*2 = Spec.prepend it els.*2 /\ frame s s' els.
Proof.
  intros Hr. unfold Prepend. mstep.
  destruct els as [|[l x] els].
  - mstep by (apply IsEmpty_None, (rep_seg _ _ Hr)).
    eexists _, _. split; [done|]. split; [by apply rep_singleton|].
    split; [done|]. by apply alloc_frame.
  - pose proof (rep_first_Some _ _ _ _ Hr) as Hf.
    mstep by (by eapply IsEmpty_Some). mstep. simpl. rewrite Hf.
    destruct (link_first s els it 0 l x Hr) as (s' & E & Hr' & Hfr).
    rewrite E. by eexists _, _.
Qed.

(** The walk: it stops in front of the first element with a larger key, and
    reports [false] without a change when there is none. *)
Lemma insert_walk_spec fuel s el sk it A l k v B :
  rep s (A ++ (l, (k, v)) :: B) ->
  heap s !! el = Some (mkElement None sk it) ->
  el ∉ (A ++ (l, (k, v)) :: B).*1 ->
  (length B < fuel)%nat ->
  (Forall (fun e => e.2.1 <= sk) B /\
     insert_walk fuel el sk (Some l) s = Ok (false, s)) \/
  (exists B1 lp k' v' l2 x2 B2,
     (l, (k, v)) :: B = B1 ++ (lp, (k', v')) :: (l2, x2) :: B2 /\
     Forall (fun e => e.2.1 <= sk) (tail (B1 ++ [(lp, (k', v'))])) /\
     sk < x2.1 /\
     insert_walk fuel el sk (Some l) s =
     Ok (true, set_heap (<[lp := mkElement (Some el) k' v']>
                (<[el := mkElement (Some l2) sk it]> (heap s))) s)).
Proof.
  revert A l k v B. induction fuel as [|fuel IH]; intros A l k v B Hr Hel Hni Hf; [lia|].
  cbn [insert_walk].
  pose proof (rep_seg _ _ Hr) as Hs.
  apply seg_app in Hs as (m & _ & -> & nx & Hl & Hs).
  mstep by (by apply deref_ok). cbn [next].
  destruct B as [|[l2 [k2 v2]] B]; simpl in Hs.
  { subst nx. left. split; [constructor|done]. }
  destruct Hs as (-> & nx2 & Hl2 & Hs).
  mstep by (by apply deref_ok). cbn [key].
  assert (el <> l /\ el <> l2) as [? ?] by
    (rewrite fmap_app, !fmap_cons in Hni; set_solver).
  destruct (Z.ltb_spec sk k2) as [Hlt|Hge].
  - right. exists [], l, k, v, l2, (k2, v2), B.
    split; [done|]. split; [constructor|]. split; [done|].
    mstep by (by apply write_next_ok). mstep by (apply write_next_ok; simpl;
      rewrite lookup_insert_ne by done; exact Hl). done.
  - destruct (IH (A ++ [(l, (k, v))]) l2 k2 v2 B) as [[Hall E]|
      (B1 & lp & k' & v' & l3 & x3 & B2 & E1 & Hall & Hlt & E)].
    + by rewrite <- app_assoc.
    + done.
    + by rewrite <- app_assoc.
    + simpl in Hf. lia.
    + left. split; [by constructor|done].
    + right. exists ((l, (k, v)) :: B1), lp, k', v', l3, x3, B2.
      split; [by rewrite E1|]. split; [|done].
      destruct B1; simpl in *; injection E1; intros; subst; by constructor.
Qed.

Lemma spec_insert_split it k a b :
  Forall (fun x : Z * Z => x.1 <= k) a ->
  (match b with [] => True | x :: _ => k < x.1 end) ->
  Spec.sorted_insert it k (a ++ b) = a ++ (k, it) :: b.
Proof.
  induction 1 as [|x a Hx _ IH]; simpl; intros Hb.
  - destruct b as [|y b]; [done|]. simpl. by destruct (Z.ltb_spec k y.1); [|lia].
  - destruct (Z.ltb_spec k x.1); [lia|]. by rewrite IH.
Qed.

Lemma Forall_keys (P : Z -> Prop) (B : list (loc * (Z * Z))) :
  Forall (fun e => P e.2.1) B -> Forall (fun x : Z * Z => P x.1) B.*2.
Proof. intros H. by apply Forall_fmap. Qed.

Lemma sorted_insert_refines s els it sk :
  rep s els ->
  exists s' els', SortedInsert it sk s = Ok (tt, s') /\ rep s' els' /\
    els'.*2 = Spec.sorted_insert it sk els.*2 /\ frame s s' els.
Proof.
  intros Hr. unfold SortedInsert. mstep.
  destruct els as [|[l [k v]] els].
  { mstep by (apply IsEmpty_None, (rep_seg _ _ Hr)).
    eexists _, _. split; [done|]. split; [by apply rep_singleton|].
    split; [done|]. by apply alloc_frame. }
  pose proof (rep_first_Some _ _ _ _ Hr) as Hf.
  pose proof (alloc_rep s _ it sk Hr) as Hr1.
  pose proof (alloc_notin _ _ Hr) as Hni.
  pose proof (alloc_cell s it sk) as Hcell.
  set (el := fresh _) in *. set (s1 := set_heap _ s) in *.
  assert (first s1 = Some l) as Hf1 by done.
  mstep by (by eapply IsEmpty_Some). mstep. rewrite Hf1.
  destruct (seg_in _ _ _ _ l (k, v) (rep_seg _ _ Hr1)) as [nx Hl]; [set_solver|].
  mstep by (by apply deref_ok). cbn [key fst].
  destruct (Z.ltb_spec sk k) as [Hlt|Hge].
  { destruct (link_first s els it sk l (k, v) Hr) as (s' & E & Hr' & Hfr).
    fold el in E, Hr'. fold s1 in E. rewrite E. eexists _, _. split; [done|].
    split; [done|]. split; [|done]. simpl. by destruct (Z.ltb_spec sk k); [|lia]. }
  mstep. pose proof (seg_length _ _ _ _ (rep_seg _ _ Hr1) (rep_nodup _ _ Hr1)) as Hlen.
  cbn [length] in Hlen.
  destruct (insert_walk_spec (size (heap s1)) s1 el sk it [] l k v els)
    as [[Hall E]|(B1 & lp & k' & v' & l2 & [k2 v2] & B2 & E1 & Hall & Hlt & E)];
    [done|done|done|lia| |].
  - mstep by (exact E).
    destruct (link_last s _ it sk Hr) as (s' & E' & Hr' & Hfr); [done|].
    fold el in E', Hr'. fold s1 in E'. rewrite E'. eexists _, _. split; [done|].
    split; [done|]. split; [|done]. rewrite fmap_app.
    rewrite <- (app_nil_r ((l, (k, v)) :: els).*2) at 2.
    rewrite spec_insert_split; [done| |done].
    apply Forall_cons. split; [done|]. by apply (Forall_keys (fun z => z <= sk)).
  - mstep by (exact E). eexists _, _. split; [done|].
    assert (seg (heap s1) (first s1) (B1 ++ (lp, (k', v')) :: (l2, (k2, v2)) :: B2) None)
      as Hs1 by (rewrite <- E1; apply Hr1).
    apply seg_app in Hs1 as (m & HB1 & -> & nx' & Hlp & Hs1).
    destruct (link_after s _ it sk Hr B1 lp k' v' ((l2, (k2, v2)) :: B2) nx' E1 Hlp Hs1
      (last s) eq_refl) as [Hrep Hfr].
    destruct Hs1 as (-> & _). split; [exact Hrep|]. split; [|exact Hfr].
    rewrite E1, !fmap_app. cbn [fmap list_fmap snd].
    change ((k', v') :: (k2, v2) :: B2.*2) with ([(k', v')] ++ (k2, v2) :: B2.*2).
    rewrite app_assoc, spec_insert_split; [by rewrite <- app_assoc| |done].
    assert (Forall (fun e => e.2.1 <= sk) (B1 ++ [(lp, (k', v'))])) as Hall'.
    { destruct B1; simpl in *; injection E1; intros; subst; by constructor. }
    apply (Forall_keys (fun z => z <= sk)) in Hall'. by rewrite fmap_app in Hall'.
Qed.

(** [SortedRemove] (and [Remove]) take the head off, and free its cell. *)
Lemma sorted_remove_refines s els :
  rep s els ->
  exists s',
    SortedRemove s = Ok ((Spec.sorted_remove els.*2).1, s') /\
    rep s' (tail els) /\ frame s s' els /\
    (forall l x r, els = (l, x) :: r -> heap s' !! l = None) /\
    (forall l, heap s !! l = None -> heap s' !! l = None).
Proof.
  intros Hr. unfold SortedRemove. mstep.
  destruct els as [|[l [k v]] els].
  { mstep by (apply IsEmpty_None, (rep_seg _ _ Hr)).
    eexists. split; [done|]. split; [exact Hr|]. split; [by intros ? ?|]. split; [done|]. auto. }
  pose proof (rep_first_Some _ _ _ _ Hr) as Hf. rewrite Hf.
  mstep by (by eapply IsEmpty_Some).
  destruct Hr as [(_ & nx & Hl & Hs) Hn Hlast].
  mstep by (by apply deref_ok). mstep.
  rewrite fmap_cons in Hn. apply NoDup_cons in Hn as [Hni Hn]. cbn [fst] in Hni.
  assert (forall (h : gmap loc ListElement) e l', l' ∉ ((l, (k, v)) :: els).*1 -> h !! l' = Some e ->
    delete l h !! l' = Some e) as Hfr.
  { intros h e l' Hl' He. rewrite lookup_delete_ne; [done|].
    intros <-. apply Hl'. rewrite fmap_cons. constructor. }
  destruct els as [|[l2 [k2 v2]] els]; simpl in Hs.
  - subst nx. rewrite Hlast. simpl. destruct (decide _) as [_|]; [|done].
    mstep. mstep. eexists. split; [done|].
    split; [split; [done|constructor|done]|]. split.
    + intros l' e Hl' He. by apply Hfr.
    + split; [intros l' x r [= <- _ _]; apply lookup_delete_eq|].
      intros l' Hl'. simpl. rewrite lookup_delete_None. auto.
  - destruct Hs as (-> & nx2 & Hl2 & Hs).
    assert (last s <> Some l) as Hne.
    { rewrite Hlast, !fmap_cons, last_cons_cons. intros Hx.
      apply last_Some_elem_of in Hx. by apply Hni. }
    destruct (decide _) as [Heq|_]; [congruence|].
    mstep. mstep. cbn [next item key]. eexists.
    split; [done|]. split; [split|].
    + apply seg_delete; [done|]. split; [done|]. eauto.
    + done.
    + simpl. rewrite Hlast. by rewrite !fmap_cons, last_cons_cons.
    + split; [intros l' e Hl' He; by apply Hfr|].
      split; [intros l' x r [= <- _ _]; apply lookup_delete_eq|].
      intros l' Hl'. simpl. rewrite lookup_delete_None. auto.
Qed.

Lemma Remove_run s r s' : SortedRemove s = Ok (r, s') -> Remove s = Ok (r.1, s').
Proof. intros E. unfold Remove. by mstep by (exact E). Qed.

(** [Mapcar] visits every item once, in order, and leaves the list alone. *)
Lemma mapcar_refines s els :
  rep s els -> Mapcar s = Ok (els.*2.*2, s).
Proof.
  intros Hr. unfold Mapcar. mstep. mstep.
  pose proof (seg_length _ _ _ _ (rep_seg _ _ Hr) (rep_nodup _ _ Hr)) as Hlen.
  pose proof (rep_seg _ _ Hr) as Hs. clear Hr.
  revert Hs Hlen. generalize (first s) (size (heap s)). intros p n. revert p els.
  induction n as [|n IH]; intros p els Hs Hlen.
  - destruct els; [|simpl in Hlen; lia]. simpl in Hs. by subst p.
  - destruct els as [|[l [k v]] els]; [simpl in Hs; by subst p|].
    destruct Hs as (-> & nx & Hl & Hs). cbn [Mapcar_walk].
    mstep by (by apply deref_ok). mstep by (apply IH; [done|simpl in Hlen; lia]). done.
Qed.

(** [~List] frees every cell when no item is NULL. *)
Lemma destroy_loop_refines fuel s els :
  rep s els -> Forall (fun e => e.2.2 <> 0) els -> (length els < fuel)%nat ->
  exists s', destroy_loop fuel s = Ok (tt, s') /\ rep s' [] /\ frame s s' els /\
    (forall l, l ∈ els.*1 \/ heap s !! l = None -> heap s' !! l = None).
Proof.
  revert s els. induction fuel as [|fuel IH]; intros s els Hr Hnz Hlen; [lia|].
  destruct (sorted_remove_refines s els Hr) as (s1 & E & Hr1 & Hf & Hfree & Hnew).
  cbn [destroy_loop]. mstep by (exact (Remove_run _ _ _ E)).
  destruct els as [|[l [k v]] els].
  { simpl. exists s1. split; [done|]. split; [done|]. split; [done|].
    intros l [Hl|Hl]; [set_solver|auto]. }
  apply Forall_cons in Hnz as [Hv Hnz]. cbn in Hv |- *.
  destruct (Z.eqb_spec v 0); [done|].
  destruct (IH s1 els Hr1 Hnz) as (s2 & E2 & Hr2 & Hf2 & Hfr2); [simpl in Hlen; lia|].
  exists s2. split; [done|]. split; [done|].
  pose proof (rep_nodup _ _ Hr) as Hn. rewrite fmap_cons in Hn.
  apply NoDup_cons in Hn as [Hni Hn].
  split.
  - intros l' e Hl' He. cbn in Hl'. apply not_elem_of_cons in Hl' as [? ?].
    apply Hf2; [done|]. apply Hf; [|done]. rewrite fmap_cons. set_solver.
  - intros l' Hl'. apply Hfr2.
    destruct Hl' as [[->|Hl']%elem_of_cons|Hl']; [right; by eapply Hfree|by left|].
    right. auto.
Qed.

Lemma destroy_refines s els :
  rep s els -> Forall (fun e => e.2.2 <> 0) els ->
  exists s', List_destroy s = Ok (tt, s') /\ rep s' [] /\ frame s s' els /\
    (forall l, l ∈ els.*1 -> heap s' !! l = None).
Proof.
  intros Hr Hnz. unfold List_destroy. mstep.
  pose proof (seg_length _ _ _ _ (rep_seg _ _ Hr) (rep_nodup _ _ Hr)) as Hlen.
  destruct (destroy_loop_refines (S (size (heap s))) s els Hr Hnz)
    as (s' & E & Hr' & Hf & Hfr); [lia|]. exists s'. split; [exact E|]. auto.
Qed.

(** [GetListLength] is right on lists of at most one element and loops
    forever on every longer list, whatever the fuel. *)
Lemma GetListLength_short s els fuel :
  rep s els -> (length els <= 1)%nat ->
  GetListLength (S fuel) s = Ok (Z.of_nat (length els), s).
Proof.
  intros Hr Hlen. unfold GetListLength. mstep.
  destruct els as [|[l x] [|]]; simpl in Hlen; try lia.
  - pose proof (rep_seg _ _ Hr) as Hs. simpl in Hs. by rewrite Hs.
  - rewrite (rep_first_Some _ _ _ _ Hr). cbn [GetListLength_loop]. mstep.
    rewrite (rep_last _ _ Hr). simpl. by destruct (decide _).
Qed.

Lemma GetListLength_loop_diverges fuel s p i :
  last s <> p -> GetListLength_loop fuel p i s = Fault Diverges.
Proof.
  revert i. induction fuel as [|fuel IH]; intros i Hne; [done|].
  cbn [GetListLength_loop]. mstep. destruct (decide _); [congruence|]. by apply IH.
Qed.

Lemma GetListLength_long s els fuel :
  rep s els -> (2 <= length els)%nat -> GetListLength fuel s = Fault Diverges.
Proof.
  intros Hr Hlen. unfold GetListLength. mstep.
  destruct els as [|[l x] [|[l2 x2] els]]; simpl in Hlen; try lia.
  rewrite (rep_first_Some _ _ _ _ Hr). apply GetListLength_loop_diverges.
  rewrite (rep_last _ _ Hr). pose proof (rep_nodup _ _ Hr) as Hn.
  rewrite !fmap_cons in *. cbn [fst] in *. apply NoDup_cons in Hn as [Hni _].
  rewrite last_cons_cons. intros E. by apply last_Some_elem_of in E.
Qed.

(** ** The specification itself: a stable priority queue *)

Definition keys_sorted (xs : list (Z * Z)) : Prop := Sorted Z.le xs.*1.

Lemma sorted_insert_perm it k xs :
  Permutation (Spec.sorted_insert it k xs) ((k, it) :: xs).
Proof.
  induction xs as [|x xs IH]; simpl; [done|].
  destruct (k <? x.1); [done|]. rewrite IH. by constructor.
Qed.

Lemma sorted_insert_sorted it k xs :
  keys_sorted xs -> keys_sorted (Spec.sorted_insert it k xs).
Proof.
  unfold keys_sorted. induction xs as [|x xs IH]; simpl; intros H.
  - repeat constructor.
  - destruct (Z.ltb_spec k x.1); simpl.
    + constructor; [done|]. constructor. lia.
    + inversion H as [|? ? Hs Hh]; subst. constructor; [auto|].
      destruct xs as [|y xs]; simpl; [constructor; lia|].
      destruct (k <? y.1); simpl; constructor; [lia|]. by inversion Hh.
Qed.

(** Elements with an equal key leave in the order in which they came. *)
Lemma filter_key_above k (xs : list (Z * Z)) :
  Forall (fun z => k < z) xs.*1 -> filter (fun x : Z * Z => x.1 = k) xs = [].
Proof.
  induction xs as [|x xs IH]; [done|]. rewrite fmap_cons, Forall_cons. intros [? ?].
  rewrite filter_cons_False by lia. auto.
Qed.

Lemma sorted_insert_stable it k xs :
  keys_sorted xs ->
  filter (fun x : Z * Z => x.1 = k) (Spec.sorted_insert it k xs) =
  filter (fun x : Z * Z => x.1 = k) xs ++ [(k, it)].
Proof.
  intros Hs.
  assert (StronglySorted Z.le xs.*1) as H by
    (apply Sorted_StronglySorted; [intros a b c; lia|done]).
  clear Hs. induction xs as [|x xs IH]; [by simpl; rewrite filter_cons_True|].
  simpl in H. inversion H as [|? ? Hs Hall]; subst. cbn [Spec.sorted_insert].
  destruct (Z.ltb_spec k x.1).
  - rewrite filter_cons_True by done. rewrite filter_key_above; [done|].
    rewrite fmap_cons, Forall_cons. split; [done|].
    eapply Forall_impl; [exact Hall|]. intros z; simpl; lia.
  - rewrite !(filter_cons _ x). case_decide; rewrite IH by done; done.
Qed.

(** ** Whole runs *)

(** The calls the kernel makes on a list, and what they return. *)
Inductive list_op : Type :=
| OpAppend (it : Z)
| OpPrepend (it : Z)
| OpSortedInsert (it k : Z)
| OpSortedRemove
| OpIsEmpty
| OpMapcar.

Inductive list_answer : Type :=
| AnsUnit
| AnsRemoved (it : Z) (k : option Z)
| AnsBool (b : bool)
| AnsItems (l : list Z).

Definition run_op (o : list_op) : M ListState list_answer :=
  match o with
  | OpAppend it => _ ← Append it; mret AnsUnit
  | OpPrepend it => _ ← Prepend it; mret AnsUnit
  | OpSortedInsert it k => _ ← SortedInsert it k; mret AnsUnit
  | OpSortedRemove => r ← SortedRemove; mret (AnsRemoved r.1 r.2)
  | OpIsEmpty => b ← IsEmpty; mret (AnsBool b)
  | OpMapcar => l ← Mapcar; mret (AnsItems l)
  end.

Definition spec_op (o : list_op) (xs : list (Z * Z)) : list_answer * list (Z * Z) :=
  match o with
  | OpAppend it => (AnsUnit, Spec.append it xs)
  | OpPrepend it => (AnsUnit, Spec.prepend it xs)
  | OpSortedInsert it k => (AnsUnit, Spec.sorted_insert it k xs)
  | OpSortedRemove =>
    let r := Spec.sorted_remove xs in (AnsRemoved r.1.1 r.1.2, r.2)
  | OpIsEmpty => (AnsBool (match xs with [] => true | _ => false end), xs)
  | OpMapcar => (AnsItems xs.*2, xs)
  end.

Fixpoint run_ops (os : list list_op) : M ListState (list list_answer) :=
  match os with
  | [] => mret []
  | o :: os' => a ← run_op o; r ← run_ops os'; mret (a :: r)
  end.

Fixpoint spec_ops (os : list list_op) (xs : list (Z * Z)) :
    list list_answer * list (Z * Z) :=
  match os with
  | [] => ([], xs)
  | o :: os' =>
    let a := spec_op o xs in let r := spec_ops os' a.2 in (a.1 :: r.1, r.2)
  end.

Lemma run_op_refines o s els :
  rep s els ->
  exists s' els', run_op o s = Ok ((spec_op o els.*2).1, s') /\
    rep s' els' /\ els'.*2 = (spec_op o els.*2).2.
Proof.
  intros Hr. destruct o as [it|it|it k| | |]; cbn [run_op].
  - destruct (append_refines s els it Hr) as (s' & els' & E & ? & ? & _).
    mstep by (exact E). eauto.
  - destruct (prepend_refines s els it Hr) as (s' & els' & E & ? & ? & _).
    mstep by (exact E). eauto.
  - destruct (sorted_insert_refines s els it k Hr) as (s' & els' & E & ? & ? & _).
    mstep by (exact E). eauto.
  - destruct (sorted_remove_refines s els Hr) as (s' & E & ? & _).
    mstep by (exact E). eexists _, _. split; [done|]. split; [done|].
    by destruct els.
  - destruct els as [|[l x] els].
    + mstep by (apply IsEmpty_None, (rep_seg _ _ Hr)). by eexists _, [].
    + mstep by (eapply IsEmpty_Some, (rep_first_Some _ _ _ _ Hr)).
      eexists _, _. by split; [|split].
  - mstep by (by apply mapcar_refines). by eexists _, els.
Qed.

Lemma run_ops_refines os s els :
  rep s els ->
  exists s' els', run_ops os s = Ok ((spec_ops os els.*2).1, s') /\
    rep s' els' /\ els'.*2 = (spec_ops os els.*2).2.
Proof.
  revert s els. induction os as [|o os IH]; intros s els Hr; [by eexists _, els|].
  cbn [run_ops spec_ops].
  destruct (run_op_refines o s els Hr) as (s1 & els1 & E1 & Hr1 & Hv1).
  destruct (IH s1 els1 Hr1) as (s2 & els2 & E2 & Hr2 & Hv2).
  exists s2, els2. mstep by (exact E1). mstep by (exact E2). rewrite <- Hv1. done.
Qed.

Lemma rep_new s : rep (List_List s) [].
Proof. by split; [|constructor|]. Qed.


(** [SortedInsert]/[SortedRemove] are a stable priority queue: on a list in
    increasing key order, [SortedInsert] terminates, keeps the order, adds
    exactly the new pair, places it behind the elements that have the same
    key, and does not touch cells of other lists. *)
Theorem sorted_insert_stable_queue (s : ListState) els (it k : Z)
    (Hrep : rep s els) (Hsorted : keys_sorted els.*2) :
  exists s' els', SortedInsert it k s = Ok (tt, s') /\ rep s' els' /\
    keys_sorted els'.*2 /\ Permutation els'.*2 ((k, it) :: els.*2) /\
    filter (fun x : Z * Z => x.1 = k) els'.*2 =
      filter (fun x : Z * Z => x.1 = k) els.*2 ++ [(k, it)] /\
    frame s s' els.
Proof.
  destruct (sorted_insert_refines s els it k Hrep) as (s' & els' & E & Hr & Hv & Hf).
  exists s', els'. rewrite Hv. split; [done|]. split; [done|].
  split; [by apply sorted_insert_sorted|]. split; [apply sorted_insert_perm|].
  split; [by apply sorted_insert_stable|done].
Qed.

(** [GetListLength] never returns on a list of two or more elements: its
    loop does not advance, so no amount of fuel is enough. *)
Theorem GetListLength_never_returns (s : ListState) els (fuel : nat)
    (Hrep : rep s els) (Hlen : (2 <= length els)%nat) :
  GetListLength fuel s = Fault Diverges.
Proof. by eapply GetListLength_long. Qed.

(** A concrete list of three elements. *)
Definition demo_list : ListState :=
  mkList (list_to_map [(1%positive, mkElement (Some 2%positive) 3 101);
                       (2%positive, mkElement (Some 3%positive) 5 102);
                       (3%positive, mkElement None 5 103)])
    (Some 1%positive) (Some 3%positive).

Definition demo_els : list (loc * (Z * Z)) :=
  [(1%positive, (3, 101)); (2%positive, (5, 102)); (3%positive, (5, 103))].

Lemma demo_rep : rep demo_list demo_els.
Proof.
  split; [|apply (bool_decide_unpack _); vm_compute; exact I|done].
  repeat (split; [reflexivity|eexists; split; [reflexivity|]]). reflexivity.
Qed.

Lemma demo_sorted : keys_sorted demo_els.*2.
Proof.
  unfold keys_sorted. cbn.
  apply Sorted_cons; [apply Sorted_cons; [apply Sorted_cons|]|]; repeat constructor; lia.
Qed.

Lemma sorted_insert_stable_queue_witness :
  exists s' els', SortedInsert 104 5 demo_list = Ok (tt, s') /\ rep s' els' /\
    keys_sorted els'.*2 /\ Permutation els'.*2 ((5, 104) :: demo_els.*2) /\
    filter (fun x : Z * Z => x.1 = 5) els'.*2 =
      filter (fun x : Z * Z => x.1 = 5) demo_els.*2 ++ [(5, 104)] /\
    frame demo_list s' demo_els.
Proof.
  exact (sorted_insert_stable_queue demo_list demo_els 104 5 demo_rep demo_sorted).
Defined.

Lemma GetListLength_never_returns_witness :
  GetListLength 1000 demo_list = Fault Diverges.
Proof.
  refine (GetListLength_never_returns demo_list demo_els 1000 demo_rep _). simpl. lia.
Defined.
