(* ===== verification/BitMap.v ===== *)
(** * userprog/bitmap.h, userprog/bitmap.cc: the allocation bitmap

    A [BitMap] is an array of 32-bit words; [Mark], [Clear] and [Test] do the
    word and mask arithmetic of the source.  [bits] is the abstraction to a
    list of booleans (one per managed sector or page frame), and each
    operation is proved to act on it as expected.  [FetchFrom] and
    [WriteBack], which go through an open file, are in OpenFile.v. *)
From S2P Require Import Prelude CInt.
From Stdlib Require Import ZArith Lia List Bool.
From stdpp Require Import base tactics list numbers sets.
Local Open Scope Z_scope.

Definition BitsInByte : Z := 8.
Definition BitsInWord : Z := 32.

Record BitMap := mkBitMap {
  numBits : Z;
  numWords : Z;
  bm_map : list Z }.

Definition set_map (m : list Z) (b : BitMap) : BitMap :=
  mkBitMap (numBits b) (numWords b) m.

(** ** Operations *)

(** [1 << (which % BitsInWord)], an [int]. *)
Definition bit_mask (which : Z) : Z := wrap32 (Z.shiftl 1 (Z.rem which BitsInWord)).

Definition in_range (b : BitMap) (which : Z) : bool :=
  (0 <=? which) && (which <? numBits b).

Definition Mark (which : Z) : M BitMap unit :=
  b ← get;
  _ ← ASSERT (in_range b which);
  w ← lift (arr_get (bm_map b) (Z.quot which BitsInWord));
  m ← lift (arr_set (bm_map b) (Z.quot which BitsInWord)
              (Z.lor w (u32 (bit_mask which))));
  put (set_map m b).

Definition Clear (which : Z) : M BitMap unit :=
  b ← get;
  _ ← ASSERT (in_range b which);
  w ← lift (arr_get (bm_map b) (Z.quot which BitsInWord));
  m ← lift (arr_set (bm_map b) (Z.quot which BitsInWord)
              (Z.land w (u32 (Z.lnot (bit_mask which)))));
  put (set_map m b).

Definition Test (which : Z) : M BitMap bool :=
  b ← get;
  _ ← ASSERT (in_range b which);
  w ← lift (arr_get (bm_map b) (Z.quot which BitsInWord));
  mret (negb (Z.land w (u32 (bit_mask which)) =? 0)).

(** [BitMap::BitMap(nitems)]; [junk] is the uninitialised content of the
    freshly allocated word array. *)
Definition BitMap_BitMap (junk : list Z) (nitems : Z) : outcome BitMap :=
  let b0 := mkBitMap nitems (divRoundUp nitems BitsInWord) junk in
  r ← for_range 0 nitems Clear b0; mret r.2.

(** The loop of [Find]: [n] rounds left, the counter is [i]. *)
Fixpoint Find_loop (n : nat) (i : Z) : M BitMap Z :=
  match n with
  | O => mret (-1)
  | S n' =>
    t ← Test i;
    if (t : bool) then Find_loop n' (i + 1)
    else _ ← Mark i; mret i
  end.

Definition Find : M BitMap Z :=
  b ← get; Find_loop (Z.to_nat (numBits b)) 0.

(** The inner loop of [FirstFind]: every one of the [size] bits is tested, and
    [flag] is cleared when one of them is set. *)
Fixpoint FirstFind_flag (n : nat) (k : Z) (flag : bool) : M BitMap bool :=
  match n with
  | O => mret flag
  | S n' =>
    t ← Test k;
    FirstFind_flag n' (k + 1) (if (t : bool) then false else flag)
  end.

Fixpoint FirstFind_loop (n : nat) (i size : Z) : M BitMap Z :=
  match n with
  | O => mret (-1)
  | S n' =>
    flag ← FirstFind_flag (Z.to_nat size) i true;
    if (flag : bool) then
      _ ← for_range 0 size (fun j => Mark (i + j));
      mret i
    else FirstFind_loop n' (i + 1) size
  end.

Definition FirstFind (size : Z) : M BitMap Z :=
  b ← get; FirstFind_loop (Z.to_nat (numBits b)) 0 size.

Fixpoint NumClear_loop (n : nat) (i count : Z) : M BitMap Z :=
  match n with
  | O => mret count
  | S n' =>
    t ← Test i;
    NumClear_loop n' (i + 1) (if (t : bool) then count else count + 1)
  end.

Definition NumClear : M BitMap Z :=
  b ← get; NumClear_loop (Z.to_nat (numBits b)) 0 0.

(** [Print]: the numbers that are printed. *)
Fixpoint Print_loop (n : nat) (i : Z) : M BitMap (list Z) :=
  match n with
  | O => mret []
  | S n' =>
    t ← Test i;
    r ← Print_loop n' (i + 1);
    mret (if (t : bool) then i :: r else r)
  end.

Definition Print : M BitMap (list Z) :=
  b ← get; Print_loop (Z.to_nat (numBits b)) 0.

(** ** Abstraction *)

Record wf (b : BitMap) : Prop := {
  wf_numBits : 0 <= numBits b;
  wf_numWords : numWords b = divRoundUp (numBits b) BitsInWord;
  wf_length : Z.of_nat (length (bm_map b)) = numWords b;
  wf_words : Forall is_uint (bm_map b) }.

Definition bit (b : BitMap) (i : nat) : bool :=
  Z.testbit (nth (i / 32) (bm_map b) 0) (Z.of_nat (i mod 32)).

Definition bits (b : BitMap) : list bool :=
  List.map (bit b) (seq 0 (Z.to_nat (numBits b))).

(** ** Specification functions on lists of booleans *)

(** The first clear bit at position [i] or later. *)
Fixpoint find_clear (bs : list bool) : option nat :=
  match bs with
  | [] => None
  | false :: _ => Some O
  | true :: bs' => S <$> find_clear bs'
  end.

Fixpoint count_clear (bs : list bool) : nat :=
  match bs with
  | [] => O
  | x :: bs' => (if x : bool then 0 else 1) + count_clear bs'
  end.

(** [n] clear bits starting at position [i], all of them within the map. *)
Definition clear_run (bs : list bool) (i n : nat) : bool :=
  forallb (fun k => match bs !! k with Some false => true | _ => false end) (seq i n).

(** Set [n] bits from position [i]. *)
Definition mark_run (bs : list bool) (i n : nat) : list bool :=
  foldl (fun bs k => <[k := true]> bs) bs (seq i n).

(** The least start of a run of [n] clear bits among the first [k] positions
    from [i]. *)
Fixpoint first_fit (bs : list bool) (n k i : nat) : option nat :=
  match k with
  | O => None
  | S k' => if clear_run bs i n then Some i else first_fit bs n k' (S i)
  end.

(** ** Word-level lemmas *)

Lemma mask_pow2 which : 0 <= which -> u32 (bit_mask which) = Z.shiftl 1 (which mod 32).
Proof.
  intros H. unfold bit_mask, BitsInWord. rewrite u32_wrap32.
  rewrite Z.rem_mod_nonneg by lia. apply u32_small.
  pose proof (Z.mod_pos_bound which 32). rewrite Z.shiftl_1_l.
  split; [lia|]. change 4294967296 with (2 ^ 32). apply Z.pow_lt_mono_r; lia.
Qed.

Lemma testbit_clear_mask which i :
  0 <= which -> 0 <= i < 32 ->
  Z.testbit (u32 (Z.lnot (bit_mask which))) i = negb (i =? which mod 32).
Proof.
  intros H Hi. rewrite testbit_u32, Z.lnot_spec by lia.
  rewrite <- testbit_u32, mask_pow2, testbit_one_shl by (try done; lia || apply Z.mod_pos_bound; lia).
  done.
Qed.

(** ** Single-bit operations *)

Lemma length_bits b : length (bits b) = Z.to_nat (numBits b).
Proof. unfold bits. by rewrite length_map, length_seq. Qed.

Lemma lookup_bits b i :
  bits b !! i = if decide (i < Z.to_nat (numBits b))%nat then Some (bit b i) else None.
Proof.
  unfold bits. change (List.map (bit b)) with (fmap (M := list) (bit b)).
  rewrite list_lookup_fmap. case_decide.
  - rewrite lookup_seq_lt by done. done.
  - rewrite lookup_seq_ge by lia. done.
Qed.

Lemma in_range_nat b i :
  (i < Z.to_nat (numBits b))%nat -> in_range b (Z.of_nat i) = true.
Proof. intros. unfold in_range. lia. Qed.

Lemma div32 i : Z.of_nat i / 32 = Z.of_nat (i / 32).
Proof. by rewrite Nat2Z.inj_div. Qed.

Lemma word_index b i :
  wf b -> (i < Z.to_nat (numBits b))%nat ->
  Z.quot (Z.of_nat i) BitsInWord = Z.of_nat (i / 32) /\
  bm_map b !! (i / 32)%nat = Some (nth (i / 32) (bm_map b) 0) /\
  is_uint (nth (i / 32) (bm_map b) 0).
Proof.
  intros [H0 Hw Hl Hu] Hi. unfold BitsInWord in *.
  rewrite Z.quot_div_nonneg, div32 by lia. split; [done|].
  assert (i / 32 < length (bm_map b))%nat as Hlt.
  { apply Nat2Z.inj_lt. rewrite Hl, Hw.
    rewrite divRoundUp_nonneg, <- div32 by lia.
    apply Z.div_lt_upper_bound; [lia|].
    pose proof (Z.div_mod (numBits b + 32 - 1) 32 ltac:(lia)).
    pose proof (Z.mod_pos_bound (numBits b + 32 - 1) 32). lia. }
  destruct (lookup_lt_is_Some_2 _ _ Hlt) as [w E]. rewrite E.
  rewrite (nth_lookup_Some _ _ _ _ E). split; [done|].
  by eapply Forall_lookup_1.
Qed.

Lemma mod32 i : Z.of_nat i mod 32 = Z.of_nat (i mod 32).
Proof. by rewrite Nat2Z.inj_mod. Qed.

Lemma mod32_lt i : 0 <= Z.of_nat (i mod 32) < 32.
Proof. pose proof (Nat.mod_upper_bound i 32). lia. Qed.

(** Storing a word that differs from the old one in one bit. *)
Lemma bits_update b i w' v :
  wf b -> (i < Z.to_nat (numBits b))%nat -> is_uint w' ->
  (forall k, 0 <= k < 32 -> Z.testbit w' k =
     if k =? Z.of_nat (i mod 32) then v
     else Z.testbit (nth (i / 32) (bm_map b) 0) k) ->
  let b' := set_map (<[(i / 32)%nat := w']> (bm_map b)) b in
  wf b' /\ bits b' = <[i := v]> (bits b).
Proof.
  intros Hwf Hi Hw' Hbit b'. destruct (word_index b i Hwf Hi) as (_ & Hl & _).
  apply lookup_lt_Some in Hl as Hlt. destruct Hwf as [H0 Hw Hlen Hu]. split.
  - split; simpl; [done|done|by rewrite length_insert|].
    by apply Forall_insert.
  - apply list_eq. intros j. rewrite lookup_bits. unfold b'. cbn [numBits set_map].
    destruct (decide (i = j)) as [<-|Hne].
    + rewrite list_lookup_insert_eq by (rewrite length_bits; done).
      rewrite decide_True by done. f_equal. unfold bit. cbn [bm_map set_map].
      rewrite (nth_lookup_Some _ _ _ w') by (apply list_lookup_insert_eq; done).
      rewrite Hbit by apply mod32_lt. by rewrite Z.eqb_refl.
    + rewrite list_lookup_insert_ne by done. rewrite lookup_bits.
      case_decide; [|done]. f_equal. unfold bit. cbn [bm_map set_map].
      destruct (decide (i / 32 = j / 32)%nat) as [Heq|Hd].
      * rewrite <- Heq.
        rewrite (nth_lookup_Some _ _ _ w') by (apply list_lookup_insert_eq; done).
        rewrite Hbit by apply mod32_lt. destruct (Z.eqb_spec (Z.of_nat (j mod 32)) (Z.of_nat (i mod 32))); [|done].
        exfalso. apply Hne. rewrite (Nat.div_mod_eq i 32), (Nat.div_mod_eq j 32). lia.
      * f_equal. rewrite !nth_lookup. by rewrite list_lookup_insert_ne.
Qed.

Lemma bits_lookup_lt b i x :
  bits b !! i = Some x -> (i < Z.to_nat (numBits b))%nat.
Proof. intros H. apply lookup_lt_Some in H. by rewrite length_bits in H. Qed.

Lemma Test_spec b i x :
  wf b -> bits b !! i = Some x -> Test (Z.of_nat i) b = Ok (x, b).
Proof.
  intros Hwf Hx. pose proof (bits_lookup_lt _ _ _ Hx) as Hi.
  rewrite lookup_bits, decide_True in Hx by done. injection Hx as <-.
  destruct (word_index b i Hwf Hi) as (Hq & Hl & Hu).
  unfold Test. mstep. mstep by (by apply ASSERT_true, in_range_nat). rewrite Hq.
  mstep by (by apply lift_Ok, arr_get_nat).
  unfold mret, M_ret. do 2 f_equal. rewrite mask_pow2 by lia.
  rewrite land_mask_nonzero by (apply Z.mod_pos_bound; lia).
  unfold bit. by rewrite mod32.
Qed.

Lemma Test_out b which :
  in_range b which = false -> Test which b = Fault AssertFailure.
Proof. intros H. unfold Test. mstep. unfold ASSERT, mbind, M_bind. by rewrite H. Qed.

Lemma Mark_spec b i :
  wf b -> (i < length (bits b))%nat ->
  exists b', Mark (Z.of_nat i) b = Ok (tt, b') /\ wf b' /\
    numBits b' = numBits b /\ bits b' = <[i := true]> (bits b).
Proof.
  intros Hwf Hi. rewrite length_bits in Hi.
  destruct (word_index b i Hwf Hi) as (Hq & Hl & Hu).
  unfold Mark. mstep. mstep by (by apply ASSERT_true, in_range_nat). rewrite Hq.
  mstep by (by apply lift_Ok, arr_get_nat).
  apply lookup_lt_Some in Hl as Hlt.
  mstep by (by apply lift_Ok, arr_set_nat).
  destruct (bits_update b i (Z.lor (nth (i / 32) (bm_map b) 0) (u32 (bit_mask (Z.of_nat i)))) true)
    as [Hw Hb]; [done|done| | |by eexists].
  - apply is_uint_lor; [done|apply u32_range].
  - intros k Hk. rewrite Z.lor_spec, mask_pow2, testbit_one_shl, mod32
      by (try lia; apply Z.mod_pos_bound; lia).
    destruct (k =? _); [by rewrite orb_true_r|by rewrite orb_false_r].
Qed.

Lemma Clear_spec b i :
  wf b -> (i < length (bits b))%nat ->
  exists b', Clear (Z.of_nat i) b = Ok (tt, b') /\ wf b' /\
    numBits b' = numBits b /\ bits b' = <[i := false]> (bits b).
Proof.
  intros Hwf Hi. rewrite length_bits in Hi.
  destruct (word_index b i Hwf Hi) as (Hq & Hl & Hu).
  unfold Clear. mstep. mstep by (by apply ASSERT_true, in_range_nat). rewrite Hq.
  mstep by (by apply lift_Ok, arr_get_nat).
  apply lookup_lt_Some in Hl as Hlt.
  mstep by (by apply lift_Ok, arr_set_nat).
  destruct (bits_update b i
    (Z.land (nth (i / 32) (bm_map b) 0) (u32 (Z.lnot (bit_mask (Z.of_nat i))))) false)
    as [Hw Hb]; [done|done| | |by eexists].
  - apply is_uint_land; [done|apply u32_range].
  - intros k Hk. rewrite Z.land_spec, testbit_clear_mask, mod32 by lia.
    destruct (k =? _); simpl; [by rewrite andb_false_r|by rewrite andb_true_r].
Qed.

Lemma Mark_out b which :
  in_range b which = false -> Mark which b = Fault AssertFailure.
Proof. intros H. unfold Mark. mstep. unfold ASSERT, mbind, M_bind. by rewrite H. Qed.

Lemma Clear_out b which :
  in_range b which = false -> Clear which b = Fault AssertFailure.
Proof. intros H. unfold Clear. mstep. unfold ASSERT, mbind, M_bind. by rewrite H. Qed.

(** ** Loops over the bits *)

(** [after b b' bs]: [b'] is the map [b] with its bits changed to [bs]. *)
Definition after (b b' : BitMap) (bs : list bool) : Prop :=
  wf b' /\ numBits b' = numBits b /\ bits b' = bs.

Lemma bits_split b pre x suf :
  bits b = pre ++ x :: suf -> bits b !! length pre = Some x.
Proof. intros ->. by apply list_lookup_middle. Qed.

Lemma Find_loop_spec b pre suf :
  wf b -> bits b = pre ++ suf ->
  match find_clear suf with
  | None => Find_loop (length suf) (Z.of_nat (length pre)) b = Ok (-1, b)
  | Some k => exists b',
      Find_loop (length suf) (Z.of_nat (length pre)) b
        = Ok (Z.of_nat (length pre + k), b') /\
      after b b' (<[(length pre + k)%nat := true]> (bits b))
  end.
Proof.
  intros Hwf. revert pre. induction suf as [|x suf IH]; intros pre Hb; [done|].
  cbn [find_clear length Find_loop].
  pose proof (bits_split _ _ _ _ Hb) as Hx.
  destruct x.
  - specialize (IH (pre ++ [true])). rewrite <- app_assoc in IH. specialize (IH Hb).
    rewrite length_app in IH. cbn [length] in IH.
    replace (Z.of_nat (length pre + 1)) with (Z.of_nat (length pre) + 1) in IH by lia.
    destruct (find_clear suf) as [k|]; cbn [fmap option_fmap option_map].
    + destruct IH as (b' & E & H'). exists b'.
      mstep by (by apply Test_spec). rewrite E.
      replace (length pre + 1 + k)%nat with (length pre + S k)%nat in * by lia. done.
    + mstep by (by apply Test_spec). done.
  - destruct (Mark_spec b (length pre)) as (b' & E & Hw & Hn & Hbs);
      [done|rewrite Hb, length_app; simpl; lia|].
    exists b'. mstep by (by apply Test_spec). mstep by (exact E).
    rewrite Nat.add_0_r. done.
Qed.

(** [Find] returns and sets the lowest clear bit; -1 when there is none. *)
Lemma Find_spec b :
  wf b ->
  match find_clear (bits b) with
  | None => Find b = Ok (-1, b)
  | Some k => exists b', Find b = Ok (Z.of_nat k, b') /\
      after b b' (<[k := true]> (bits b))
  end.
Proof.
  intros Hwf. pose proof (Find_loop_spec b [] (bits b) Hwf eq_refl) as H.
  rewrite length_bits in H. exact H.
Qed.

Lemma NumClear_loop_spec b pre suf c :
  wf b -> bits b = pre ++ suf ->
  NumClear_loop (length suf) (Z.of_nat (length pre)) c b
    = Ok (c + Z.of_nat (count_clear suf), b).
Proof.
  intros Hwf. revert pre c. induction suf as [|x suf IH]; intros pre c Hb.
  - simpl. by rewrite Z.add_0_r.
  - cbn [length NumClear_loop count_clear].
    mstep by (by apply Test_spec; [|eapply bits_split]).
    specialize (IH (pre ++ [x])). rewrite <- app_assoc, length_app in IH.
    cbn [length] in IH.
    replace (Z.of_nat (length pre) + 1) with (Z.of_nat (length pre + 1)) by lia.
    rewrite IH by done. destruct x; do 2 f_equal; lia.
Qed.

Lemma NumClear_spec b :
  wf b -> NumClear b = Ok (Z.of_nat (count_clear (bits b)), b).
Proof.
  intros Hwf. pose proof (NumClear_loop_spec b [] (bits b) 0 Hwf eq_refl) as H.
  rewrite length_bits in H. exact H.
Qed.

Lemma Print_loop_spec b pre suf :
  wf b -> bits b = pre ++ suf ->
  exists l, Print_loop (length suf) (Z.of_nat (length pre)) b = Ok (l, b) /\
    forall k, k ∈ l <-> exists i, k = Z.of_nat i /\ (length pre <= i)%nat /\ bits b !! i = Some true.
Proof.
  intros Hwf. revert pre. induction suf as [|x suf IH]; intros pre Hb.
  - exists []. split; [done|]. intros k. split; [set_solver|].
    intros (i & -> & Hi & Hx). apply lookup_lt_Some in Hx.
    rewrite Hb, length_app in Hx. simpl in Hx. lia.
  - cbn [length Print_loop]. pose proof (bits_split _ _ _ _ Hb) as Hx.
    destruct (IH (pre ++ [x])) as (l & E & Hl); [by rewrite <- app_assoc|].
    rewrite length_app in E, Hl. cbn [length] in E, Hl.
    replace (Z.of_nat (length pre + 1)) with (Z.of_nat (length pre) + 1) in E by lia.
    eexists. split; [mstep by (by apply Test_spec); mstep by (exact E); done|].
    intros k. assert (forall i, (length pre <= i)%nat /\ bits b !! i = Some true <->
      (i = length pre /\ x = true) \/ ((length pre + 1 <= i)%nat /\ bits b !! i = Some true)) as Hsplit.
    { intros i. split.
      - intros [Hi Ht]. destruct (decide (i = length pre)) as [->|]; [left; naive_solver|].
        right. split; [lia|done].
      - intros [[-> ->]|[? ?]]; [naive_solver|]. split; [lia|done]. }
    setoid_rewrite Hsplit. destruct x.
    + rewrite elem_of_cons, Hl. naive_solver.
    + rewrite Hl. naive_solver.
Qed.

(** [Print] lists exactly the set bits. *)
Lemma Print_spec b :
  wf b ->
  exists l, Print b = Ok (l, b) /\
    forall k, k ∈ l <-> exists i, k = Z.of_nat i /\ bits b !! i = Some true.
Proof.
  intros Hwf. destruct (Print_loop_spec b [] (bits b) Hwf eq_refl) as (l & E & Hl).
  rewrite length_bits in E. exists l. split; [exact E|].
  intros k. rewrite Hl. simpl. split; intros (i & ? & ?); exists i; intuition lia.
Qed.

(** ** FirstFind: contiguous allocation *)

Lemma clear_run_S bs i n :
  clear_run bs i (S n) =
  (match bs !! i with Some false => true | _ => false end) && clear_run bs (S i) n.
Proof. done. Qed.

Lemma FirstFind_flag_spec b n i flag :
  wf b -> (i + n <= length (bits b))%nat ->
  FirstFind_flag n (Z.of_nat i) flag b = Ok (flag && clear_run (bits b) i n, b).
Proof.
  intros Hwf. revert i flag. induction n as [|n IH]; intros i flag Hle.
  - simpl. unfold clear_run. simpl. by rewrite andb_true_r.
  - cbn [FirstFind_flag].
    destruct (lookup_lt_is_Some_2 (bits b) i ltac:(lia)) as [x Hx].
    mstep by (by apply Test_spec). rewrite clear_run_S, Hx.
    replace (Z.of_nat i + 1) with (Z.of_nat (S i)) by lia.
    rewrite IH by lia. destruct x; simpl; [by rewrite andb_false_r|done].
Qed.

(** Past the end of the map the test aborts the kernel. *)
Lemma FirstFind_flag_out b n i flag :
  wf b -> (i <= length (bits b))%nat -> (length (bits b) < i + n)%nat ->
  FirstFind_flag n (Z.of_nat i) flag b = Fault AssertFailure.
Proof.
  intros Hwf. revert i flag. induction n as [|n IH]; intros i flag Hi Hlt; [lia|].
  cbn [FirstFind_flag].
  destruct (decide (i < length (bits b))%nat) as [Hin|Hout].
  - destruct (lookup_lt_is_Some_2 _ _ Hin) as [x Hx].
    mstep by (by apply Test_spec).
    replace (Z.of_nat i + 1) with (Z.of_nat (S i)) by lia. apply IH; lia.
  - unfold mbind, M_bind. rewrite Test_out; [done|].
    rewrite length_bits in *. pose proof (wf_numBits _ Hwf). unfold in_range. lia.
Qed.

Lemma mark_run_S bs i n : mark_run bs i (S n) = <[(i + n)%nat := true]> (mark_run bs i n).
Proof. unfold mark_run. by rewrite seq_S, foldl_app. Qed.

Lemma length_mark_run bs i n : length (mark_run bs i n) = length bs.
Proof.
  induction n as [|n IH]; [done|]. by rewrite mark_run_S, length_insert.
Qed.

Lemma lookup_mark_run bs i n k :
  (i + n <= length bs)%nat ->
  mark_run bs i n !! k = if decide (i <= k < i + n)%nat then Some true else bs !! k.
Proof.
  induction n as [|n IH]; intros Hle.
  - unfold mark_run. simpl. rewrite decide_False by lia. done.
  - rewrite mark_run_S. destruct (decide (k = i + n)%nat) as [->|Hne].
    + rewrite list_lookup_insert_eq by (rewrite length_mark_run; lia).
      rewrite decide_True by lia. done.
    + rewrite list_lookup_insert_ne, IH by lia. repeat case_decide; done || lia.
Qed.

Lemma mark_loop_spec b i n :
  wf b -> (i + n <= length (bits b))%nat ->
  exists b', for_range 0 (Z.of_nat n) (fun j => Mark (Z.of_nat i + j)) b = Ok (tt, b') /\
    after b b' (mark_run (bits b) i n).
Proof.
  intros Hwf Hle.
  destruct (for_range_inv (fun j b' => 0 <= j /\ after b b' (mark_run (bits b) i (Z.to_nat j)))
    0 (Z.of_nat n) (fun j => Mark (Z.of_nat i + j)) b) as (b' & E & _ & H').
  - lia.
  - by split.
  - intros j b1 Hj (Hj0 & Hw1 & Hn1 & Hb1).
    destruct (Mark_spec b1 (i + Z.to_nat j)) as (b2 & E2 & Hw2 & Hn2 & Hb2).
    + done.
    + rewrite Hb1, length_mark_run. lia.
    + exists b2. replace (Z.of_nat i + j) with (Z.of_nat (i + Z.to_nat j)) by lia.
      split; [done|]. split; [lia|]. split; [done|]. split; [congruence|].
      rewrite Hb2, Hb1. replace (Z.to_nat (j + 1)) with (S (Z.to_nat j)) by lia.
      by rewrite mark_run_S.
  - exists b'. split; [done|]. by rewrite Nat2Z.id in H'.
Qed.

Lemma first_fit_Some bs n k i j :
  first_fit bs n k i = Some j ->
  clear_run bs j n = true /\ (i <= j)%nat /\ forall l, (i <= l < j)%nat -> clear_run bs l n = false.
Proof.
  revert i. induction k as [|k IH]; intros i; simpl; [done|].
  destruct (clear_run bs i n) eqn:E.
  - intros [= <-]. split; [done|]. split; [done|]. intros. lia.
  - intros H. destruct (IH _ H) as (Hc & Hle & Hmin). split; [done|]. split; [lia|].
    intros l Hl. destruct (decide (l = i)) as [->|]; [done|]. apply Hmin. lia.
Qed.

Lemma first_fit_None bs n k i l :
  first_fit bs n k i = None -> (i <= l < i + k)%nat -> clear_run bs l n = false.
Proof.
  revert i. induction k as [|k IH]; intros i; simpl; [lia|].
  destruct (clear_run bs i n) eqn:E; [done|].
  intros H Hl. destruct (decide (l = i)) as [->|]; [done|]. eapply IH; [done|lia].
Qed.

Lemma clear_run_bound bs i n :
  clear_run bs i (S n) = true -> (i + S n <= length bs)%nat.
Proof.
  intros H. unfold clear_run in H. rewrite forallb_forall in H.
  assert (In (i + n)%nat (seq i (S n))) as Hin by (apply in_seq; lia).
  apply H in Hin. destruct (bs !! (i + n)%nat) eqn:E; [|done].
  apply lookup_lt_Some in E. lia.
Qed.

Lemma clear_run_lookup bs i n k :
  clear_run bs i n = true -> (i <= k < i + n)%nat -> bs !! k = Some false.
Proof.
  intros H Hk. unfold clear_run in H. rewrite forallb_forall in H.
  specialize (H k). destruct (bs !! k) as [[|]|]; try done; exfalso;
    (discriminate H; apply in_seq; lia).
Qed.

Lemma FirstFind_loop_spec b m k i :
  wf b -> (1 <= m)%nat -> (i + k = length (bits b))%nat ->
  match first_fit (bits b) m (S (length (bits b)) - m - i) i with
  | Some j => exists b',
      FirstFind_loop k (Z.of_nat i) (Z.of_nat m) b = Ok (Z.of_nat j, b') /\
      after b b' (mark_run (bits b) j m)
  | None => FirstFind_loop k (Z.of_nat i) (Z.of_nat m) b =
      if decide (k = 0 \/ m = 1)%nat then Ok (-1, b) else Fault AssertFailure
  end.
Proof.
  intros Hwf Hm. revert i. induction k as [|k IH]; intros i Hlen.
  - replace (S (length (bits b)) - m - i)%nat with 0%nat by lia. done.
  - cbn [FirstFind_loop]. rewrite Nat2Z.id.
    destruct (S (length (bits b)) - m - i)%nat as [|r] eqn:Er.
    + cbn [first_fit]. rewrite decide_False by lia.
      unfold mbind, M_bind. rewrite FirstFind_flag_out by (done || lia). done.
    + cbn [first_fit].
      destruct (clear_run (bits b) i m) eqn:Ec.
      * destruct (mark_loop_spec b i m Hwf ltac:(lia)) as (b' & E & H').
        exists b'. mstep by (apply FirstFind_flag_spec; [done|lia]).
        rewrite Ec. cbn [andb]. mstep by (exact E). done.
      * specialize (IH (S i) ltac:(lia)).
        replace (S (length (bits b)) - m - S i)%nat with r in IH by lia.
        replace (Z.of_nat i + 1) with (Z.of_nat (S i)) by lia.
        destruct (first_fit (bits b) m r (S i)) as [j|].
        -- destruct IH as (b' & E & H'). exists b'.
           mstep by (apply FirstFind_flag_spec; [done|lia]). rewrite Ec. cbn [andb]. done.
        -- mstep by (apply FirstFind_flag_spec; [done|lia]). rewrite Ec. cbn [andb].
           rewrite IH. repeat case_decide; try done; lia.
Qed.

Lemma FirstFind_spec b m :
  wf b -> (1 <= m)%nat ->
  (exists j b', clear_run (bits b) j m = true /\
     (forall l, (l < j)%nat -> clear_run (bits b) l m = false) /\
     FirstFind (Z.of_nat m) b = Ok (Z.of_nat j, b') /\
     after b b' (mark_run (bits b) j m)) \/
  ((forall j, clear_run (bits b) j m = false) /\
   FirstFind (Z.of_nat m) b =
     if decide (length (bits b) = 0 \/ m = 1)%nat then Ok (-1, b)
     else Fault AssertFailure).
Proof.
  intros Hwf Hm.
  pose proof (FirstFind_loop_spec b m (length (bits b)) 0 Hwf Hm eq_refl) as H.
  assert (FirstFind (Z.of_nat m) b =
    FirstFind_loop (length (bits b)) (Z.of_nat 0) (Z.of_nat m) b) as ->
    by (rewrite length_bits; done).
  rewrite Nat.sub_0_r in H.
  destruct (first_fit (bits b) m (S (length (bits b)) - m) 0) as [j|] eqn:E.
  - left. destruct H as (b' & Er & Ha). apply first_fit_Some in E as (Hc & _ & Hmin).
    exists j, b'. split; [done|]. split; [intros; apply Hmin; lia|]. done.
  - right. split.
    + intros j. destruct (clear_run (bits b) j m) eqn:Ec; [|done].
      destruct m as [|m]; [lia|]. apply clear_run_bound in Ec as Hle.
      rewrite <- Ec. eapply first_fit_None; [done|]. lia.
    + exact H.
Qed.

(** ** Counting *)

Lemma find_clear_Some bs k :
  find_clear bs = Some k <->
  bs !! k = Some false /\ forall j, (j < k)%nat -> bs !! j = Some true.
Proof.
  revert k. induction bs as [|x bs IH]; intros k; simpl; [split; [done|by intros [? _]]|].
  destruct x; simpl.
  - destruct k as [|k].
    + split; [|by intros [? _]]. destruct (find_clear bs); done.
    + rewrite fmap_Some. split.
      * intros (k' & Hk & [= <-]). apply IH in Hk as [? Hlt]. split; [done|].
        intros [|j] Hj; [done|]. simpl. apply Hlt. lia.
      * intros [Hk Hlt]. exists k. split; [|done]. apply IH. split; [done|].
        intros j Hj. apply (Hlt (S j)). lia.
  - split.
    + intros [= <-]. split; [done|]. lia.
    + intros [Hk Hlt]. destruct k as [|k]; [done|]. specialize (Hlt 0%nat ltac:(lia)). done.
Qed.

Lemma find_clear_None bs :
  find_clear bs = None <-> count_clear bs = 0%nat.
Proof.
  induction bs as [|[] bs IH]; simpl; [done| |done].
  rewrite <- IH. by destruct (find_clear bs).
Qed.

Lemma count_clear_set bs k :
  bs !! k = Some false -> S (count_clear (<[k := true]> bs)) = count_clear bs.
Proof.
  revert k. induction bs as [|x bs IH]; intros [|k]; simpl; try done.
  - by intros [= ->].
  - intros H. rewrite <- (IH k H). destruct x; simpl; lia.
Qed.

Lemma count_clear_unset bs k :
  bs !! k = Some true -> count_clear (<[k := false]> bs) = S (count_clear bs).
Proof.
  revert k. induction bs as [|x bs IH]; intros [|k]; simpl; try done.
  - by intros [= ->].
  - intros H. rewrite (IH k H). destruct x; simpl; lia.
Qed.

(** The clear bits in increasing order, numbered from [i]. *)
Fixpoint clear_from (i : nat) (bs : list bool) : list nat :=
  match bs with
  | [] => []
  | x :: bs' => (if x : bool then [] else [i]) ++ clear_from (S i) bs'
  end.

Definition clear_list (bs : list bool) : list nat := clear_from 0 bs.

Definition mark_all (bs : list bool) (l : list nat) : list bool :=
  foldl (fun bs k => <[k := true]> bs) bs l.

Lemma length_clear_from i bs : length (clear_from i bs) = count_clear bs.
Proof.
  revert i. induction bs as [|[] bs IH]; intros i; simpl; [done|by rewrite IH..].
Qed.

Lemma elem_of_clear_from i bs k :
  k ∈ clear_from i bs <-> (i <= k)%nat /\ bs !! (k - i)%nat = Some false.
Proof.
  revert i. induction bs as [|x bs IH]; intros i; simpl.
  - rewrite lookup_nil. split; [intros H; by apply not_elem_of_nil in H|by intros [_ ?]].
  - rewrite elem_of_app, IH. destruct (decide (k = i)) as [->|Hne].
    + rewrite Nat.sub_diag. destruct x; simpl; rewrite ?list_elem_of_singleton.
      * split; [intros [H|[H _]]; [by apply not_elem_of_nil in H|lia]|by intros [_ ?]].
      * split; [done|by left].
    + destruct (k - i)%nat as [|m] eqn:Em; simpl.
      * split; [|lia]. intros [H|[H _]]; [|lia]. destruct x;
          [by apply not_elem_of_nil in H|by apply list_elem_of_singleton in H].
      * replace (k - S i)%nat with m by lia. split.
        -- intros [H|[? ?]]; [|split; [lia|done]]. destruct x;
             [by apply not_elem_of_nil in H|by apply list_elem_of_singleton in H].
        -- intros [? ?]. right. split; [lia|done].
Qed.

Lemma NoDup_clear_from i bs : NoDup (clear_from i bs).
Proof.
  revert i. induction bs as [|x bs IH]; intros i; simpl; [constructor|].
  destruct x; simpl; [apply IH|]. constructor; [|apply IH].
  rewrite elem_of_clear_from. lia.
Qed.

Lemma elem_of_clear_list bs k : k ∈ clear_list bs <-> bs !! k = Some false.
Proof. unfold clear_list. rewrite elem_of_clear_from, Nat.sub_0_r. naive_solver lia. Qed.

Lemma length_mark_all bs l : length (mark_all bs l) = length bs.
Proof.
  revert bs. induction l as [|k l IH]; intros bs; simpl; [done|].
  unfold mark_all in *. simpl. by rewrite IH, length_insert.
Qed.

Lemma mark_all_app bs l1 l2 : mark_all bs (l1 ++ l2) = mark_all (mark_all bs l1) l2.
Proof. unfold mark_all. by rewrite foldl_app. Qed.

Lemma lookup_mark_all bs l k :
  (k < length bs)%nat ->
  mark_all bs l !! k = if decide (k ∈ l) then Some true else bs !! k.
Proof.
  revert bs. induction l as [|x l IH]; intros bs Hk.
  - by rewrite decide_False by apply not_elem_of_nil.
  - change (mark_all bs (x :: l)) with (mark_all (<[x := true]> bs) l).
    rewrite IH by (by rewrite length_insert).
    destruct (decide (k = x)) as [->|Hne].
    + rewrite (decide_True (P := x ∈ x :: l)) by left.
      case_decide; [done|]. by apply list_lookup_insert_eq.
    + case_decide as H1; case_decide as H2; try done.
      * destruct H2. by right.
      * apply elem_of_cons in H2 as [?|?]; done.
      * by rewrite list_lookup_insert_ne.
Qed.

Lemma clear_from_find i bs k :
  find_clear bs = Some k ->
  clear_from i bs = (i + k)%nat :: clear_from i (<[k := true]> bs).
Proof.
  revert i k. induction bs as [|x bs IH]; intros i k; simpl; [done|].
  destruct x; simpl.
  - destruct (find_clear bs) as [k'|] eqn:Ek; simpl; [|done]. intros [= <-]. simpl.
    rewrite (IH (S i) k' eq_refl). f_equal. lia.
  - intros [= <-]. simpl. f_equal. lia.
Qed.

(** [Find] takes the head of the list of clear bits. *)
Lemma Find_next b k rest :
  wf b -> clear_list (bits b) = k :: rest ->
  exists b', Find b = Ok (Z.of_nat k, b') /\ after b b' (<[k := true]> (bits b)) /\
    clear_list (bits b') = rest.
Proof.
  intros Hwf Hl. pose proof (Find_spec b Hwf) as H. unfold clear_list in *.
  destruct (find_clear (bits b)) as [j|] eqn:Ej.
  - apply (clear_from_find 0) in Ej. rewrite Hl in Ej. injection Ej as -> ->.
    destruct H as (b' & E & A). exists b'. splits; [done..|]. destruct A as (_ & _ & ->). done.
  - apply find_clear_None in Ej. rewrite <- (length_clear_from 0), Hl in Ej. done.
Qed.

(** ** Construction *)

Lemma BitMap_BitMap_spec junk n :
  0 <= n -> Z.of_nat (length junk) = divRoundUp n BitsInWord -> Forall is_uint junk ->
  exists b, BitMap_BitMap junk n = Ok b /\ wf b /\ numBits b = n /\
    bits b = replicate (Z.to_nat n) false.
Proof.
  intros Hn Hlen Hju. unfold BitMap_BitMap.
  set (b0 := mkBitMap n (divRoundUp n BitsInWord) junk).
  destruct (for_range_inv (fun j b => 0 <= j /\ wf b /\ numBits b = n /\
    forall k, (k < Z.to_nat j)%nat -> bits b !! k = Some false) 0 n Clear b0)
    as (b & E & _ & Hw & Hnb & Hb).
  - lia.
  - split; [lia|]. split; [by split|]. split; [done|]. intros. lia.
  - intros j b Hj (Hj0 & Hw & Hnb & Hb).
    destruct (Clear_spec b (Z.to_nat j)) as (b' & E & Hw' & Hn' & Hb');
      [done|rewrite length_bits, Hnb; lia|].
    exists b'. replace j with (Z.of_nat (Z.to_nat j)) at 1 by lia. split; [done|].
    split; [lia|]. split; [done|]. split; [congruence|]. intros k Hk. rewrite Hb'.
    destruct (decide (k = Z.to_nat j)) as [->|].
    + apply list_lookup_insert_eq. rewrite length_bits, Hnb. lia.
    + rewrite list_lookup_insert_ne by done. apply Hb. lia.
  - exists b. rewrite E. split; [done|]. split; [done|]. split; [done|].
    apply list_eq. intros k. destruct (decide (k < Z.to_nat n)%nat).
    + rewrite lookup_replicate_2 by done. by apply Hb.
    + rewrite !lookup_ge_None_2; [done|rewrite length_replicate; lia|].
      rewrite length_bits, Hnb. lia.
Qed.

(** ** Claims *)

(** [Find] on a well-formed bitmap returns the lowest clear bit and sets
    that bit and no other; it returns -1, and changes nothing, exactly when
    every bit is set. *)
Theorem bitmap_Find_lowest_clear (b : BitMap) (Hwf : wf b) :
  (exists k b', bits b !! k = Some false /\
     (forall j, (j < k)%nat -> bits b !! j = Some true) /\
     Find b = Ok (Z.of_nat k, b') /\ after b b' (<[k := true]> (bits b))) \/
  (count_clear (bits b) = 0%nat /\ Find b = Ok (-1, b)).
Proof.
  pose proof (Find_spec b Hwf) as H. destruct (find_clear (bits b)) as [k|] eqn:E.
  - left. destruct H as (b' & Er & Ha). apply find_clear_Some in E as [? ?]. eauto 10.
  - right. by apply find_clear_None in E.
Qed.

(** [FirstFind(size)], [size >= 1], returns the lowest start of [size]
    contiguous clear bits and sets exactly those bits.  When there is no such
    run it does not report failure: unless [size] is 1 (or the map is empty)
    it tests a bit past the end and the assertion in [Test] aborts the
    kernel. *)
Theorem bitmap_FirstFind_fit_or_abort (b : BitMap) (m : nat)
    (Hwf : wf b) (Hm : (1 <= m)%nat) :
  (exists j b', clear_run (bits b) j m = true /\
     (forall l, (l < j)%nat -> clear_run (bits b) l m = false) /\
     FirstFind (Z.of_nat m) b = Ok (Z.of_nat j, b') /\
     after b b' (mark_run (bits b) j m)) \/
  ((forall j, clear_run (bits b) j m = false) /\
   FirstFind (Z.of_nat m) b =
     if decide (length (bits b) = 0 \/ m = 1)%nat then Ok (-1, b)
     else Fault AssertFailure).
Proof. by apply FirstFind_spec. Qed.

(** A 40-bit map with sectors 0, 1 and 33 in use. *)
Definition demo_map : BitMap := mkBitMap 40 2 [3; 2].

Lemma demo_map_wf : wf demo_map.
Proof.
  split; [done|done|done|]. repeat constructor; done.
Qed.

Lemma bitmap_Find_lowest_clear_witness :
  (exists k b', bits demo_map !! k = Some false /\
     (forall j, (j < k)%nat -> bits demo_map !! j = Some true) /\
     Find demo_map = Ok (Z.of_nat k, b') /\
     after demo_map b' (<[k := true]> (bits demo_map))) \/
  (count_clear (bits demo_map) = 0%nat /\ Find demo_map = Ok (-1, demo_map)).
Proof. exact (bitmap_Find_lowest_clear demo_map demo_map_wf). Defined.

Lemma bitmap_FirstFind_fit_or_abort_witness :
  (exists j b', clear_run (bits demo_map) j 32 = true /\
     (forall l, (l < j)%nat -> clear_run (bits demo_map) l 32 = false) /\
     FirstFind (Z.of_nat 32) demo_map = Ok (Z.of_nat j, b') /\
     after demo_map b' (mark_run (bits demo_map) j 32)) \/
  ((forall j, clear_run (bits demo_map) j 32 = false) /\
   FirstFind (Z.of_nat 32) demo_map =
     if decide (length (bits demo_map) = 0 \/ 32 = 1)%nat then Ok (-1, demo_map)
     else Fault AssertFailure).
Proof.
  refine (bitmap_FirstFind_fit_or_abort demo_map 32 demo_map_wf _). lia.
Defined.

Example demo_Find : fst <$> Find demo_map = Ok 2.
Proof. reflexivity. Qed.

Example demo_FirstFind_abort : FirstFind 32 demo_map = Fault AssertFailure.
Proof. reflexivity. Qed.
