(* ===== verification/Disk.v ===== *)
(** * machine/disk.h, machine/disk.cc: the simulated disk

    The disk is a UNIX file: a magic number followed by the sectors.  The file
    is a map from byte offsets to bytes (a hole reads as zero) with a length.
    [ReadRequest] and [WriteRequest] return the latency with which the
    completion interrupt is scheduled; [totalTicks] is the simulated time of
    the request, kept by the interrupt simulation (Interrupt.v). *)
From S2P Require Import Prelude CInt.
From Stdlib Require Import ZArith Lia List Bool.
From stdpp Require Import base tactics list numbers gmap.
Local Open Scope Z_scope.

(** ** Constants: disk.h, stats.h, disk.cc *)

Definition SectorSize : Z := 128.
Definition SectorsPerTrack : Z := 32.
Definition NumTracks : Z := 32.
Definition NumSectors : Z := SectorsPerTrack * NumTracks.
Definition RotationTime : Z := 500.
Definition SeekTime : Z := 500.
Definition MagicNumber : Z := 1164413355.
Definition MagicSize : Z := 4.
Definition DiskSize : Z := MagicSize + NumSectors * SectorSize.

(** ** UNIX files (machine/sysdep.cc) *)

Record unix_file := mkFile { fbytes : gmap Z Z; flen : Z }.

Definition file_byte (f : unix_file) (off : Z) : Z := default 0 (fbytes f !! off).

(** [Lseek] to [off], then [Read]: fewer than [n] bytes is an assertion
    failure. *)
Definition ReadAtOff (f : unix_file) (off : Z) (n : nat) : outcome (list Z) :=
  _ ← ASSERT_ (0 <=? off);
  _ ← ASSERT_ (off + Z.of_nat n <=? flen f);
  Ok (map (fun k => file_byte f (off + Z.of_nat k)) (seq 0 n)).

Fixpoint put_bytes (m : gmap Z Z) (off : Z) (data : list Z) : gmap Z Z :=
  match data with
  | [] => m
  | b :: data' => put_bytes (<[off := b]> m) (off + 1) data'
  end.

(** [Lseek] to [off], then [WriteFile]. *)
Definition WriteAtOff (f : unix_file) (off : Z) (data : list Z) : outcome unix_file :=
  _ ← ASSERT_ (0 <=? off);
  Ok (mkFile (put_bytes (fbytes f) off data) (Z.max (flen f) (off + Z.of_nat (length data)))).

(** ** The device *)

Record Disk := mkDisk {
  dfile : unix_file;
  active : bool;
  lastSector : Z;
  bufferInit : Z;
  numDiskReads : Z;
  numDiskWrites : Z }.

(** [Disk::Disk]: [existing] is the UNIX file when it can be opened. *)
Definition Disk_Disk (existing : option unix_file) : outcome Disk :=
  f ← match existing with
      | Some f =>
        m ← ReadAtOff f 0 4;
        _ ← ASSERT_ (bool_decide (bytes_ints m = [MagicNumber]));
        Ok f
      | None =>
        f1 ← WriteAtOff (mkFile ∅ 0) 0 (int_bytes MagicNumber);
        WriteAtOff f1 (DiskSize - 4) (int_bytes 0)
      end;
  Ok (mkDisk f false 0 0 0 0).

(** Head movement: (seek time, rotation to the next sector boundary). *)
Definition TimeToSeek (totalTicks : Z) (d : Disk) (newSector : Z) : Z * Z :=
  let newTrack := Z.quot newSector SectorsPerTrack in
  let oldTrack := Z.quot (lastSector d) SectorsPerTrack in
  let seek := Z.abs (newTrack - oldTrack) * SeekTime in
  let over := Z.rem (totalTicks + seek) RotationTime in
  (seek, if 0 <? over then RotationTime - over else 0).

Definition ModuloDiff (to from : Z) : Z :=
  let toOffset := Z.rem to SectorsPerTrack in
  let fromOffset := Z.rem from SectorsPerTrack in
  Z.rem ((toOffset - fromOffset) + SectorsPerTrack) SectorsPerTrack.

Definition ComputeLatency (totalTicks : Z) (d : Disk) (newSector : Z) (writing : bool) : Z :=
  let '(seek, rotation) := TimeToSeek totalTicks d newSector in
  let timeAfter := totalTicks + seek + rotation in
  if negb writing && (seek =? 0) &&
     (ModuloDiff newSector (Z.quot (bufferInit d) RotationTime) <?
      Z.quot (timeAfter - bufferInit d) RotationTime)
  then RotationTime
  else
    let rotation := rotation +
      ModuloDiff newSector (Z.quot timeAfter RotationTime) * RotationTime in
    seek + rotation + RotationTime.

Definition UpdateLast (totalTicks : Z) (newSector : Z) (d : Disk) : Disk :=
  let '(seek, rotate) := TimeToSeek totalTicks d newSector in
  mkDisk (dfile d) (active d) newSector
    (if negb (seek =? 0) then totalTicks + seek + rotate else bufferInit d)
    (numDiskReads d) (numDiskWrites d).

Definition set_active (a : bool) (d : Disk) : Disk :=
  mkDisk (dfile d) a (lastSector d) (bufferInit d) (numDiskReads d) (numDiskWrites d).
Definition set_dfile (f : unix_file) (d : Disk) : Disk :=
  mkDisk f (active d) (lastSector d) (bufferInit d) (numDiskReads d) (numDiskWrites d).
Definition count_read (d : Disk) : Disk :=
  mkDisk (dfile d) (active d) (lastSector d) (bufferInit d)
    (numDiskReads d + 1) (numDiskWrites d).
Definition count_write (d : Disk) : Disk :=
  mkDisk (dfile d) (active d) (lastSector d) (bufferInit d)
    (numDiskReads d) (numDiskWrites d + 1).

Definition valid_sector (s : Z) : bool := (0 <=? s) && (s <? NumSectors).

(** Both requests return the delay after which [DiskDone] is scheduled. *)
Definition ReadRequest (totalTicks : Z) (sectorNumber : Z) : M Disk (list Z * Z) :=
  d ← get;
  let ticks := ComputeLatency totalTicks d sectorNumber false in
  _ ← ASSERT (negb (active d));
  _ ← ASSERT (valid_sector sectorNumber);
  data ← lift (ReadAtOff (dfile d) (SectorSize * sectorNumber + MagicSize)
                 (Z.to_nat SectorSize));
  _ ← modify (set_active true);
  _ ← modify (UpdateLast totalTicks sectorNumber);
  _ ← modify count_read;
  mret (data, ticks).

Definition WriteRequest (totalTicks : Z) (sectorNumber : Z) (data : list Z) : M Disk Z :=
  d ← get;
  let ticks := ComputeLatency totalTicks d sectorNumber true in
  _ ← ASSERT (negb (active d));
  _ ← ASSERT (valid_sector sectorNumber);
  f ← lift (WriteAtOff (dfile d) (SectorSize * sectorNumber + MagicSize) data);
  _ ← modify (set_dfile f);
  _ ← modify (set_active true);
  _ ← modify (UpdateLast totalTicks sectorNumber);
  _ ← modify count_write;
  mret ticks.

(** [Disk::HandleInterrupt] up to the call of the client's handler. *)
Definition HandleInterrupt (d : Disk) : Disk := set_active false d.

(** ** The disk as a map from sectors to contents *)

(** What sector [s] holds. *)
Definition sector (d : Disk) (s : Z) : list Z :=
  map (fun k => file_byte (dfile d) (SectorSize * s + MagicSize + Z.of_nat k))
    (seq 0 (Z.to_nat SectorSize)).

(** The magic number as it stands in the UNIX file. *)
Definition magic (d : Disk) : list Z :=
  map (fun k => file_byte (dfile d) (Z.of_nat k)) (seq 0 4).

Record disk_wf (d : Disk) : Prop := {
  wf_len : flen (dfile d) = DiskSize;
  wf_magic : magic d = int_bytes MagicNumber;
  wf_last : 0 <= lastSector d < NumSectors;
  wf_buf : 0 <= bufferInit d }.

(** ** Lemmas on the byte store *)

Lemma put_bytes_lookup data m off k :
  put_bytes m off data !! k =
  if decide (off <= k < off + Z.of_nat (length data))
  then data !! Z.to_nat (k - off) else m !! k.
Proof.
  revert m off. induction data as [|b data IH]; intros m off; cbn [put_bytes length].
  - rewrite decide_False by lia. done.
  - rewrite IH. case_decide as H1; case_decide as H2; try lia.
    + replace (Z.to_nat (k - off)) with (S (Z.to_nat (k - (off + 1)))) by lia. done.
    + replace k with off by lia. rewrite lookup_insert_eq.
      by replace (Z.to_nat (off - off)) with 0%nat by lia.
    + by rewrite lookup_insert_ne by lia.
Qed.

Lemma file_byte_written f off data f' k :
  WriteAtOff f off data = Ok f' ->
  file_byte f' k =
  if decide (off <= k < off + Z.of_nat (length data))
  then default 0 (data !! Z.to_nat (k - off)) else file_byte f k.
Proof.
  intros H. unfold WriteAtOff in H. apply obind_Ok in H as (? & _ & [= <-]).
  unfold file_byte. cbn. rewrite put_bytes_lookup. by case_decide.
Qed.

Lemma WriteAtOff_ok f off data :
  0 <= off -> exists f', WriteAtOff f off data = Ok f' /\
    flen f' = Z.max (flen f) (off + Z.of_nat (length data)).
Proof.
  intros H. unfold WriteAtOff, ASSERT_. destruct (Z.leb_spec 0 off); [|lia].
  eexists. split; reflexivity.
Qed.

Lemma ReadAtOff_ok f off n :
  0 <= off -> off + Z.of_nat n <= flen f ->
  ReadAtOff f off n = Ok (map (fun k => file_byte f (off + Z.of_nat k)) (seq 0 n)).
Proof.
  intros. unfold ReadAtOff, ASSERT_.
  destruct (Z.leb_spec 0 off), (Z.leb_spec (off + Z.of_nat n) (flen f)); done || lia.
Qed.

Lemma length_sector d s : length (sector d s) = 128%nat.
Proof. unfold sector. by rewrite length_map, length_seq. Qed.

Lemma valid_sector_true s : valid_sector s = true <-> 0 <= s < NumSectors.
Proof.
  unfold valid_sector. rewrite andb_true_iff, Z.leb_le, Z.ltb_lt. done.
Qed.

Lemma map_seq_ext_bytes (f g : nat -> Z) n :
  (forall k, (k < n)%nat -> f k = g k) -> map f (seq 0 n) = map g (seq 0 n).
Proof.
  intros H. apply map_ext_in. intros k Hk. apply in_seq in Hk. apply H. lia.
Qed.

Lemma map_lookup_seq (data : list Z) n :
  length data = n -> map (fun k => default 0 (data !! k)) (seq 0 n) = data.
Proof.
  intros <-. apply list_eq. intros i. rewrite list_lookup_fmap.
  destruct (decide (i < length data)%nat) as [Hi|Hi].
  - rewrite lookup_seq_lt by done. cbn.
    destruct (lookup_lt_is_Some_2 data i Hi) as [x E]. by rewrite E.
  - rewrite lookup_seq_ge, lookup_ge_None_2 by lia. done.
Qed.

(** ** Requests *)

Section Requests.
Context (now : Z).

Lemma sector_UpdateLast s d t : sector (UpdateLast now s d) t = sector d t.
Proof. unfold UpdateLast. by destruct (TimeToSeek now d s). Qed.

Lemma active_UpdateLast s d : active (UpdateLast now s d) = active d.
Proof. unfold UpdateLast. by destruct (TimeToSeek now d s). Qed.

Lemma TimeToSeek_rotation d s seek rot :
  0 <= now -> TimeToSeek now d s = (seek, rot) ->
  0 <= seek /\ 0 <= rot < RotationTime /\ (now + seek + rot) mod RotationTime = 0.
Proof.
  unfold TimeToSeek, RotationTime, SeekTime. intros Hnow [= Hs Hr].
  assert (0 <= seek) by (rewrite <- Hs; lia). rewrite Hs in Hr.
  rewrite Z.rem_mod_nonneg in Hr by lia.
  pose proof (Z.mod_pos_bound (now + seek) 500 ltac:(lia)).
  pose proof (Z.div_mod (now + seek) 500 ltac:(lia)).
  splits; [done| | |]; destruct (Z.ltb_spec 0 ((now + seek) mod 500)); try lia;
    subst rot; [|rewrite Z.add_0_r; lia].
  symmetry. apply Z.mod_unique with ((now + seek) / 500 + 1); lia.
Qed.

Lemma TimeToSeek_seek_bound d s seek rot :
  0 <= lastSector d < NumSectors -> 0 <= s < NumSectors ->
  TimeToSeek now d s = (seek, rot) -> seek <= 31 * SeekTime.
Proof.
  unfold TimeToSeek, NumSectors, SectorsPerTrack, NumTracks. intros Hl Hs [= <- _].
  rewrite !Z.quot_div_nonneg by lia. unfold SeekTime.
  assert (0 <= s / 32 < 32) by (split; [apply Z.div_pos|apply Z.div_lt_upper_bound]; lia).
  assert (0 <= lastSector d / 32 < 32)
    by (split; [apply Z.div_pos|apply Z.div_lt_upper_bound]; lia).
  lia.
Qed.

Lemma ModuloDiff_mod a b :
  0 <= a -> 0 <= b -> ModuloDiff a b = (a - b) mod 32 /\ 0 <= ModuloDiff a b < 32.
Proof.
  intros Ha Hb. unfold ModuloDiff, SectorsPerTrack.
  rewrite !(Z.rem_mod_nonneg a), !(Z.rem_mod_nonneg b) by lia.
  pose proof (Z.mod_pos_bound a 32 ltac:(lia)).
  pose proof (Z.mod_pos_bound b 32 ltac:(lia)).
  rewrite Z.rem_mod_nonneg by lia.
  assert (E : (a mod 32 - b mod 32 + 32) mod 32 = (a - b) mod 32).
  { replace (a mod 32 - b mod 32 + 32) with (a mod 32 - b mod 32 + 1 * 32) by lia.
    rewrite Z.mod_add by lia. by rewrite <- Zminus_mod. }
  rewrite E. split; [done|]. apply Z.mod_pos_bound. lia.
Qed.

Lemma UpdateLast_wf s d :
  0 <= now -> 0 <= s < NumSectors -> disk_wf d -> disk_wf (UpdateLast now s d).
Proof.
  intros Hn Hs [H1 H2 H3 H4]. unfold UpdateLast.
  destruct (TimeToSeek now d s) as [seek rot] eqn:E.
  apply TimeToSeek_rotation in E as (? & ? & _); [|done].
  constructor; cbn; try done. destruct (seek =? 0); cbn; lia.
Qed.

(** A read of a valid sector of an idle disk returns what the sector holds and
    leaves every sector as it was; the request is then outstanding. *)
Lemma ReadRequest_spec s d :
  0 <= now -> disk_wf d -> active d = false -> 0 <= s < NumSectors ->
  exists d', ReadRequest now s d = Ok ((sector d s, ComputeLatency now d s false), d') /\
    disk_wf d' /\ active d' = true /\ (forall t, sector d' t = sector d t).
Proof.
  intros Hn Hwf Ha Hs. unfold ReadRequest.
  mstep. mstep by (apply ASSERT_true; by rewrite Ha).
  mstep by (apply ASSERT_true; by apply valid_sector_true).
  mstep by (apply lift_Ok, ReadAtOff_ok; rewrite ?(wf_len d Hwf);
            unfold DiskSize, SectorSize, MagicSize, NumSectors, SectorsPerTrack, NumTracks in *;
            lia).
  mstep. mstep. mstep. eexists. split; [reflexivity|]. splits.
  - assert (disk_wf (set_active true d)) by (destruct Hwf; by constructor).
    pose proof (UpdateLast_wf s _ Hn Hs H) as [? ? ? ?]. by constructor.
  - apply active_UpdateLast.
  - intros t. change (sector (UpdateLast now s (set_active true d)) t = sector d t).
    by rewrite sector_UpdateLast.
Qed.

(** A write replaces exactly the sector it names. *)
Lemma WriteRequest_spec s data d :
  0 <= now -> disk_wf d -> active d = false -> 0 <= s < NumSectors ->
  length data = 128%nat ->
  exists d', WriteRequest now s data d = Ok (ComputeLatency now d s true, d') /\
    disk_wf d' /\ active d' = true /\
    (forall t, sector d' t = if decide (t = s) then data else sector d t).
Proof.
  intros Hn Hwf Ha Hs Hlen. unfold WriteRequest.
  mstep. mstep by (apply ASSERT_true; by rewrite Ha).
  mstep by (apply ASSERT_true; by apply valid_sector_true).
  unfold DiskSize, SectorSize, MagicSize, NumSectors, SectorsPerTrack, NumTracks in *.
  destruct (WriteAtOff_ok (dfile d) (128 * s + 4) data) as (f & Ef & Lf); [lia|].
  mstep by (by apply lift_Ok).
  mstep. mstep. mstep. mstep. eexists. split; [reflexivity|].
  pose proof (fun k => file_byte_written _ _ _ _ k Ef) as Hb.
  assert (Hwf' : disk_wf (set_active true (set_dfile f d))).
  { destruct Hwf as [W1 W2 W3 W4]. constructor; cbn [dfile lastSector bufferInit flen set_active set_dfile]; try done.
    - rewrite Lf, W1, Hlen. unfold DiskSize, SectorSize, MagicSize, NumSectors,
        SectorsPerTrack, NumTracks. lia.
    - rewrite <- W2. unfold magic. apply map_seq_ext_bytes. intros k Hk. cbn.
      rewrite Hb, decide_False by lia. done. }
  splits.
  - pose proof (UpdateLast_wf s _ Hn Hs Hwf') as [? ? ? ?]. by constructor.
  - apply active_UpdateLast.
  - intros t.
    change (sector (UpdateLast now s (set_active true (set_dfile f d))) t
            = if decide (t = s) then data else sector d t).
    rewrite sector_UpdateLast. unfold sector, SectorSize, MagicSize. cbn [dfile set_active set_dfile].
    case_decide as E.
    + subst t. etrans; [|apply (map_lookup_seq data (Z.to_nat 128)); lia].
      apply map_seq_ext_bytes. intros k Hk. rewrite Hb, decide_True by lia.
      do 2 f_equal. lia.
    + apply map_seq_ext_bytes. intros k Hk. rewrite Hb, decide_False by lia. done.
Qed.

End Requests.

(** ** Runs: a request, its completion interrupt, the next request *)

Inductive request :=
| ReadOp (s : Z)
| WriteOp (s : Z) (data : list Z).

Definition request_ok (r : request) : Prop :=
  match r with
  | ReadOp s => 0 <= s < NumSectors
  | WriteOp s data => 0 <= s < NumSectors /\ length data = 128%nat
  end.

(** Serve one request issued at time [now], then take its interrupt. *)
Definition serve (now : Z) (r : request) : M Disk (list Z) :=
  data ← match r with
         | ReadOp s => x ← ReadRequest now s; mret x.1
         | WriteOp s data => _ ← WriteRequest now s data; mret []
         end;
  _ ← modify HandleInterrupt;
  mret data.

Fixpoint serve_all (rs : list (Z * request)) : M Disk (list (list Z)) :=
  match rs with
  | [] => mret []
  | (now, r) :: rs' => x ← serve now r; xs ← serve_all rs'; mret (x :: xs)
  end.

(** The device as its users see it: an array of sectors. *)
Fixpoint spec_all (rs : list (Z * request)) (m : Z -> list Z) : list (list Z) :=
  match rs with
  | [] => []
  | (_, ReadOp s) :: rs' => m s :: spec_all rs' m
  | (_, WriteOp s data) :: rs' =>
      [] :: spec_all rs' (fun t => if decide (t = s) then data else m t)
  end.

Lemma sector_HandleInterrupt d t : sector (HandleInterrupt d) t = sector d t.
Proof. done. Qed.

Lemma disk_wf_HandleInterrupt d : disk_wf d -> disk_wf (HandleInterrupt d).
Proof. intros [? ? ? ?]. by constructor. Qed.

Lemma serve_spec now r d :
  0 <= now -> disk_wf d -> active d = false -> request_ok r ->
  exists x d', serve now r d = Ok (x, d') /\ disk_wf d' /\ active d' = false /\
    match r with
    | ReadOp s => x = sector d s /\ forall t, sector d' t = sector d t
    | WriteOp s data => x = [] /\
        forall t, sector d' t = if decide (t = s) then data else sector d t
    end.
Proof.
  intros Hn Hwf Ha Hr. unfold serve. destruct r as [s|s data]; cbn in Hr.
  - destruct (ReadRequest_spec now s d Hn Hwf Ha Hr) as (d1 & E & W & A & S).
    mstep by (by mstep by exact E). mstep. eexists _, _. split; [reflexivity|].
    splits; [by apply disk_wf_HandleInterrupt|done|done|done].
  - destruct Hr as [Hs Hl].
    destruct (WriteRequest_spec now s data d Hn Hwf Ha Hs Hl) as (d1 & E & W & A & S).
    mstep by (by mstep by exact E). mstep. eexists _, _. split; [reflexivity|].
    splits; [by apply disk_wf_HandleInterrupt|done|done|exact S].
Qed.

Lemma spec_all_ext rs m1 m2 :
  (forall t, m1 t = m2 t) -> spec_all rs m1 = spec_all rs m2.
Proof.
  revert m1 m2. induction rs as [|[now [s|s data]] rs IH];
    intros m1 m2 Hm; cbn; [done| |]; f_equal.
  - apply Hm.
  - by apply IH.
  - apply IH. intros t. case_decide; [done|by apply Hm].
Qed.

Lemma serve_all_spec rs d :
  Forall (fun nr => 0 <= nr.1 /\ request_ok nr.2) rs -> disk_wf d -> active d = false ->
  exists d', serve_all rs d = Ok (spec_all rs (sector d), d') /\
    disk_wf d' /\ active d' = false.
Proof.
  intros Hrs. revert d. induction Hrs as [|[now r] rs [Hn Hr] Hrs IH]; intros d Hwf Ha.
  { eexists. split; [reflexivity|done]. }
  destruct (serve_spec now r d Hn Hwf Ha Hr) as (x & d1 & E & W & A & S).
  destruct (IH d1 W A) as (d2 & E2 & W2 & A2).
  exists d2. split; [|done]. cbn [serve_all].
  mstep by exact E. mstep by exact E2. unfold mret, M_ret.
  destruct r as [s|s data]; destruct S as [-> S]; cbn [spec_all]; do 3 f_equal.
  - by apply spec_all_ext.
  - by apply spec_all_ext.
Qed.

(** A freshly created UNIX file is a well-formed idle disk of zero sectors. *)
Lemma Disk_Disk_fresh :
  exists d, Disk_Disk None = Ok d /\ disk_wf d /\ active d = false /\
    forall s, 0 <= s < NumSectors -> sector d s = replicate 128 0.
Proof.
  destruct (WriteAtOff_ok (mkFile ∅ 0) 0 (int_bytes MagicNumber)) as (f1 & E1 & L1); [lia|].
  destruct (WriteAtOff_ok f1 (DiskSize - 4) (int_bytes 0)) as (f2 & E2 & L2);
    [unfold DiskSize, MagicSize, NumSectors, SectorSize, SectorsPerTrack, NumTracks; lia|].
  pose proof (fun k => file_byte_written _ _ _ _ k E1) as B1.
  pose proof (fun k => file_byte_written _ _ _ _ k E2) as B2.
  unfold Disk_Disk. rewrite E1. unfold mbind at 2, outcome_bind at 2. rewrite E2. unfold mbind, outcome_bind.
  unfold DiskSize, MagicSize, NumSectors, SectorSize, SectorsPerTrack, NumTracks in *.
  eexists. split; [reflexivity|]. splits; [|done|].
  - constructor; cbn [dfile lastSector bufferInit]; [rewrite L2, L1; reflexivity| |done|lia].
    unfold magic. cbn [dfile].
    rewrite <- (map_lookup_seq (int_bytes MagicNumber) 4) by done.
    apply map_seq_ext_bytes. intros k Hk.
    rewrite B2, decide_False by (cbn; lia). rewrite B1, decide_True by (cbn; lia).
    do 2 f_equal. lia.
  - intros s Hs. rewrite <- (map_lookup_seq (replicate 128 0) 128) by done.
    apply map_seq_ext_bytes. intros k Hk. cbn [dfile]. unfold SectorSize, MagicSize.
    rewrite (lookup_replicate_2 128 0 k) by (cbn in Hk; lia). cbn [default from_option].
    rewrite B2. case_decide as H.
    + replace (int_bytes 0) with (replicate 4 0) by done.
      destruct (replicate 4 0 !! _) as [x|] eqn:E; [|done].
      by apply lookup_replicate in E as [-> _].
    + rewrite B1, decide_False by (cbn; lia). unfold file_byte. cbn.
      by rewrite lookup_empty.
Qed.

(** ** Properties *)

(** refinement of the disk.  For every sequence of valid requests, each
    followed by its completion interrupt, a well-formed idle disk answers
    exactly as an array of sectors does (a read returns the data last written
    to that sector, whatever was written elsewhere), no assertion of disk.cc
    fails, and the disk is again well-formed (magic number and length intact)
    and idle. *)
Theorem disk_refines_sector_array rs d :
  Forall (fun nr => 0 <= nr.1 /\ request_ok nr.2) rs -> disk_wf d -> active d = false ->
  exists d', serve_all rs d = Ok (spec_all rs (sector d), d') /\
    disk_wf d' /\ active d' = false.
Proof. apply serve_all_spec. Qed.

Definition demo_requests : list (Z * request) :=
  [(0, WriteOp 7 (replicate 128 1)); (40000, ReadOp 7); (90000, ReadOp 8)].

Lemma disk_refines_sector_array_witness :
  exists d d', Disk_Disk None = Ok d /\
    serve_all demo_requests d = Ok ([[]; replicate 128 1; replicate 128 0], d') /\
    disk_wf d' /\ active d' = false.
Proof.
  destruct Disk_Disk_fresh as (d & E & W & A & Z0).
  destruct (disk_refines_sector_array demo_requests d) as (d' & R); [|done|done|].
  - repeat (apply List.Forall_cons; [by vm_compute|]). apply List.Forall_nil.
  - exists d, d'. split; [done|]. rewrite <- (Z0 8) by by vm_compute. exact R.
Defined.

(** latency of a request.  At a non-negative time, for a well-formed disk
    and a valid sector, a request that the track buffer does not serve
    completes exactly when the head has turned past the sector: at a sector
    boundary, the sector just passed being the requested one, within one seek
    across the disk and one full turn.  Every request takes at least one
    transfer time, so an interrupt is never scheduled in the past. *)
Theorem disk_latency_rotates_past now d s :
  0 <= now -> disk_wf d -> 0 <= s < NumSectors ->
  let t := ComputeLatency now d s true in
  RotationTime <= ComputeLatency now d s false <= t /\
  t < 31 * SeekTime + (SectorsPerTrack + 1) * RotationTime /\
  (now + t) mod RotationTime = 0 /\
  ((now + t) / RotationTime - 1) mod SectorsPerTrack = s mod SectorsPerTrack.
Proof.
  intros Hn Hwf Hs. cbv zeta. unfold ComputeLatency.
  destruct (TimeToSeek now d s) as [seek rot] eqn:E.
  pose proof (TimeToSeek_seek_bound _ _ _ _ _ (wf_last d Hwf) Hs E) as Hsk.
  apply TimeToSeek_rotation in E as (H0 & H1 & H2); [|done].
  unfold SeekTime, RotationTime, SectorsPerTrack, NumSectors in *. cbn [negb andb].
  rewrite !(Z.quot_div_nonneg (now + seek + rot)) by lia.
  set (q := (now + seek + rot) / 500) in *.
  assert (Hq : now + seek + rot = 500 * q)
    by (pose proof (Z.div_mod (now + seek + rot) 500 ltac:(lia)); lia).
  destruct (ModuloDiff_mod s q) as [Em Bm]; [lia|lia|].
  splits.
  - case_match; lia.
  - case_match; lia.
  - lia.
  - symmetry. apply Z.mod_unique with (q + ModuloDiff s q + 1); lia.
  - replace (now + (seek + (rot + ModuloDiff s q * 500) + 500))
      with ((q + ModuloDiff s q + 1) * 500) by lia.
    rewrite Z.div_mul by lia. rewrite Em.
    replace (q + (s - q) mod 32 + 1 - 1) with (q + (s - q) mod 32) by lia.
    rewrite Zplus_mod_idemp_r. f_equal. lia.
Qed.

Lemma disk_latency_rotates_past_witness :
  exists d, Disk_Disk None = Ok d /\
    ComputeLatency 1234 d 37 true = 1766 /\
    (1234 + ComputeLatency 1234 d 37 true) mod RotationTime = 0.
Proof.
  destruct Disk_Disk_fresh as (d & E & W & A & Z0). exists d. split; [done|].
  assert (T : ComputeLatency 1234 d 37 true = 1766).
  { unfold Disk_Disk in E. cbn in E. injection E as <-. by vm_compute. }
  split; [exact T|].
  apply (disk_latency_rotates_past 1234 d 37); [lia|done|
    unfold NumSectors, SectorsPerTrack, NumTracks; lia].
Defined.
