(* ===== verification/SynchDisk.v ===== *)
(** * filesys/synchdisk.h, filesys/synchdisk.cc: the synchronous disk

    The object is modelled for one calling thread.  A semaphore is its value;
    [P] on a semaphore of value zero lets the outstanding disk interrupt
    happen ([Disk::HandleInterrupt], which calls [RequestDone]) and is
    [Blocked] when there is none; a lock is whether the calling thread holds
    it.  If the interrupt comes before [P] the same states are reached.
    What the kernel reads from its environment (simulated time, UNIX time, the
    contents of uninitialised memory) comes from [Env], indexed by the number
    [clk] of readings so far. *)
From S2P Require Import Prelude CInt Disk.
From Stdlib Require Import ZArith Lia List Bool.
From stdpp Require Import base tactics list numbers gmap.
Local Open Scope Z_scope.

(** ** The environment *)

Class Env := {
  totalTicks : nat -> Z;
  unix_time : nat -> Z;
  junk : nat -> nat -> Z }.

Class EnvOk (E : Env) : Prop := {
  ticks_nonneg : forall n, 0 <= totalTicks n;
  time_is_int : forall n, is_int (unix_time n);
  junk_is_byte : forall n k, is_byte (junk n k) }.

(** ** State *)

Record Cache := mkCache { valid : Z; csector : Z; cdata : list Z }.

Record SynchDisk := mkSynchDisk {
  disk : Disk;
  semaphore : Z;
  lock : bool;
  readerWtiterSemap : list Z;
  readerNum : list Z;
  readerLock : bool;
  visitorNum : list Z;
  cache : list Cache;
  FiFoPointer : Z;
  clk : nat }.

Definition set_disk d s := mkSynchDisk d (semaphore s) (lock s) (readerWtiterSemap s)
  (readerNum s) (readerLock s) (visitorNum s) (cache s) (FiFoPointer s) (clk s).
Definition set_semaphore v s := mkSynchDisk (disk s) v (lock s) (readerWtiterSemap s)
  (readerNum s) (readerLock s) (visitorNum s) (cache s) (FiFoPointer s) (clk s).
Definition set_lock b s := mkSynchDisk (disk s) (semaphore s) b (readerWtiterSemap s)
  (readerNum s) (readerLock s) (visitorNum s) (cache s) (FiFoPointer s) (clk s).
Definition set_readerWtiterSemap l s := mkSynchDisk (disk s) (semaphore s) (lock s) l
  (readerNum s) (readerLock s) (visitorNum s) (cache s) (FiFoPointer s) (clk s).
Definition set_readerNum l s := mkSynchDisk (disk s) (semaphore s) (lock s)
  (readerWtiterSemap s) l (readerLock s) (visitorNum s) (cache s) (FiFoPointer s) (clk s).
Definition set_readerLock b s := mkSynchDisk (disk s) (semaphore s) (lock s)
  (readerWtiterSemap s) (readerNum s) b (visitorNum s) (cache s) (FiFoPointer s) (clk s).
Definition set_visitorNum l s := mkSynchDisk (disk s) (semaphore s) (lock s)
  (readerWtiterSemap s) (readerNum s) (readerLock s) l (cache s) (FiFoPointer s) (clk s).
Definition set_cache c s := mkSynchDisk (disk s) (semaphore s) (lock s)
  (readerWtiterSemap s) (readerNum s) (readerLock s) (visitorNum s) c (FiFoPointer s) (clk s).
Definition set_FiFoPointer p s := mkSynchDisk (disk s) (semaphore s) (lock s)
  (readerWtiterSemap s) (readerNum s) (readerLock s) (visitorNum s) (cache s) p (clk s).
Definition set_clk n s := mkSynchDisk (disk s) (semaphore s) (lock s)
  (readerWtiterSemap s) (readerNum s) (readerLock s) (visitorNum s) (cache s) (FiFoPointer s) n.

(** The number of the next reading of the environment. *)
Definition reading : M SynchDisk nat := fun s => Ok (clk s, set_clk (S (clk s)) s).

(** Run an operation of the raw disk. *)
Definition on_disk {A} (m : M Disk A) : M SynchDisk A := fun s =>
  match m (disk s) with
  | Ok (a, d) => Ok (a, set_disk d s)
  | Fault e => Fault e
  end.

(** ** Operations *)

Definition RequestDone : M SynchDisk unit :=
  modify (fun s => set_semaphore (semaphore s + 1) s).

(** [disk->HandleInterrupt()]: the device becomes idle and calls the handler,
    [DiskRequestDone], which calls [RequestDone]. *)
Definition disk_interrupt : M SynchDisk unit :=
  _ ← on_disk (modify HandleInterrupt); RequestDone.

Definition semaphore_P : M SynchDisk unit :=
  s ← get;
  _ ← (if semaphore s =? 0 then
         if active (disk s) then disk_interrupt else fail Blocked
       else mret tt);
  modify (fun s => set_semaphore (semaphore s - 1) s).

Definition lock_Acquire : M SynchDisk unit :=
  s ← get; if lock s then fail Blocked else modify (set_lock true).

Definition lock_Release : M SynchDisk unit :=
  s ← get; if lock s then modify (set_lock false) else mret tt.

Definition readerLock_Acquire : M SynchDisk unit :=
  s ← get; if readerLock s then fail Blocked else modify (set_readerLock true).

Definition readerLock_Release : M SynchDisk unit :=
  s ← get; if readerLock s then modify (set_readerLock false) else mret tt.

(** [SynchDisk::SynchDisk]; [cache0] is what the uninitialised cache array
    holds. *)
Definition SynchDisk_SynchDisk (cache0 : list Cache) (existing : option unix_file) :
    outcome SynchDisk :=
  d ← Disk_Disk existing;
  Ok (mkSynchDisk d 0 false (replicate (Z.to_nat NumSectors) 1)
        (replicate (Z.to_nat NumSectors) 0) false
        (replicate (Z.to_nat NumSectors) 0) cache0 0 0).

(** The search loop of [ReadSector]: -1, or the first slot that is valid and
    holds the sector. *)
Fixpoint find_cache (c : list Cache) (i sectorNumber : Z) : Z :=
  match c with
  | [] => -1
  | e :: c' => if (valid e =? 1) && (csector e =? sectorNumber) then i
               else find_cache c' (i + 1) sectorNumber
  end.

Section Operations.
Context `{E : Env}.

Definition ReadSector (sectorNumber : Z) : M SynchDisk (list Z) :=
  _ ← lock_Acquire;
  s ← get;
  let find := find_cache (cache s) 0 sectorNumber in
  data ← (if find =? -1 then
            n ← reading;
            x ← on_disk (ReadRequest (totalTicks n) sectorNumber);
            c ← lift (arr_set (cache s) (FiFoPointer s) (mkCache 1 sectorNumber x.1));
            _ ← modify (set_cache c);
            _ ← modify (set_FiFoPointer (Z.rem (FiFoPointer s + 1) 4));
            mret x.1
          else
            e ← lift (arr_get (cache s) find);
            _ ← disk_interrupt;
            mret (cdata e));
  _ ← semaphore_P;
  _ ← lock_Release;
  mret data.

(** [ReadSector] without the cache: the body that the line left commented out
    in the source gives. *)
Definition ReadSector_uncached (sectorNumber : Z) : M SynchDisk (list Z) :=
  _ ← lock_Acquire;
  n ← reading;
  x ← on_disk (ReadRequest (totalTicks n) sectorNumber);
  _ ← semaphore_P;
  _ ← lock_Release;
  mret x.1.

Definition WriteSector (sectorNumber : Z) (data : list Z) : M SynchDisk unit :=
  _ ← lock_Acquire;
  n ← reading;
  _ ← on_disk (WriteRequest (totalTicks n) sectorNumber data);
  _ ← semaphore_P;
  lock_Release.

End Operations.

(** Readers and writers of one file (by the sector of its header). *)
Definition readerWtiterSemap_P (sector : Z) : M SynchDisk unit :=
  s ← get;
  v ← lift (arr_get (readerWtiterSemap s) sector);
  if v =? 0 then fail Blocked
  else l ← lift (arr_set (readerWtiterSemap s) sector (v - 1));
       modify (set_readerWtiterSemap l).

Definition readerWtiterSemap_V (sector : Z) : M SynchDisk unit :=
  s ← get;
  v ← lift (arr_get (readerWtiterSemap s) sector);
  l ← lift (arr_set (readerWtiterSemap s) sector (v + 1));
  modify (set_readerWtiterSemap l).

(** [readerNum[sector] += delta], returning the new count. *)
Definition add_readerNum (sector delta : Z) : M SynchDisk Z :=
  s ← get;
  v ← lift (arr_get (readerNum s) sector);
  l ← lift (arr_set (readerNum s) sector (v + delta));
  _ ← modify (set_readerNum l);
  mret (v + delta).

Definition SynchReaderStart (sector : Z) : M SynchDisk unit :=
  _ ← readerLock_Acquire;
  r ← add_readerNum sector 1;
  _ ← (if r =? 1 then readerWtiterSemap_P sector else mret tt);
  readerLock_Release.

Definition SynchReaderExit (sector : Z) : M SynchDisk unit :=
  _ ← readerLock_Acquire;
  r ← add_readerNum sector (-1);
  _ ← (if r =? 0 then readerWtiterSemap_V sector else mret tt);
  readerLock_Release.

Definition SynchWriterStart (sector : Z) : M SynchDisk unit := readerWtiterSemap_P sector.
Definition SynchWriterExit (sector : Z) : M SynchDisk unit := readerWtiterSemap_V sector.

(** [visitorNum[sector] += delta]. *)
Definition add_visitorNum (sector delta : Z) : M SynchDisk unit :=
  s ← get;
  v ← lift (arr_get (visitorNum s) sector);
  l ← lift (arr_set (visitorNum s) sector (v + delta));
  modify (set_visitorNum l).

(** ** Invariants *)

(** No request under way, nobody in the monitor. *)
Record ready (s : SynchDisk) : Prop := {
  rd_wf : disk_wf (disk s);
  rd_idle : active (disk s) = false;
  rd_sem : semaphore s = 0;
  rd_lock : lock s = false;
  rd_rlock : readerLock s = false;
  rd_semap : length (readerWtiterSemap s) = Z.to_nat NumSectors;
  rd_rnum : length (readerNum s) = Z.to_nat NumSectors;
  rd_vnum : length (visitorNum s) = Z.to_nat NumSectors;
  rd_cache : length (cache s) = 4%nat;
  rd_fifo : 0 <= FiFoPointer s < 4 }.

(** The user-visible contents of the disk. *)
Definition content (s : SynchDisk) (t : Z) : list Z := sector (disk s) t.

(** Every valid cache slot agrees with the disk. *)
Definition coherent (s : SynchDisk) : Prop :=
  Forall (fun e => valid e = 1 -> cdata e = content s (csector e)) (cache s).

(** The counters of the readers/writers protocol. *)
Definition same_counters (s s' : SynchDisk) : Prop :=
  readerWtiterSemap s' = readerWtiterSemap s /\ readerNum s' = readerNum s /\
  visitorNum s' = visitorNum s.

(** The part of them that excludes readers and writers. *)
Definition same_locks (s s' : SynchDisk) : Prop :=
  readerWtiterSemap s' = readerWtiterSemap s /\ readerNum s' = readerNum s.

(** ** The interface to the file system *)

(** How the file system reads a sector. *)
Class SectorReader := read_sector : Z -> M SynchDisk (list Z).

(** What it relies on: in the states [good], a read returns what the disk holds
    and changes nothing that is visible. *)
Class ReadsDisk (R : SectorReader) := {
  good : SynchDisk -> Prop;
  read_sector_law : forall t s, ready s -> good s -> 0 <= t < NumSectors ->
    exists s', read_sector t s = Ok (content s t, s') /\ ready s' /\ good s' /\
      same_counters s s' /\ forall t', content s' t' = content s t';
  good_frame : forall s s', good s -> disk s' = disk s -> cache s' = cache s -> good s' }.

(** ... and that a write keeps reads right. *)
Class SeesWrites (R : SectorReader) `{Env} `{!ReadsDisk R} : Prop :=
  write_keeps_good : forall t data s s', ready s -> good s ->
    0 <= t < NumSectors -> length data = 128%nat ->
    WriteSector t data s = Ok (tt, s') -> good s'.

(** ** Lemmas *)

Section Lemmas.
Context `{E : Env} `{!EnvOk E}.

Lemma on_disk_Ok {A} (m : M Disk A) s a d :
  m (disk s) = Ok (a, d) -> on_disk m s = Ok (a, set_disk d s).
Proof. intros H. unfold on_disk. by rewrite H. Qed.

Lemma lock_Acquire_free s : lock s = false -> lock_Acquire s = Ok (tt, set_lock true s).
Proof. intros H. unfold lock_Acquire. mstep. by rewrite H. Qed.

Lemma semaphore_P_busy s :
  semaphore s = 0 -> active (disk s) = true ->
  semaphore_P s = Ok (tt, set_semaphore 0 (set_disk (HandleInterrupt (disk s)) s)).
Proof.
  intros H1 H2. unfold semaphore_P. mstep. rewrite H1, H2. cbn. mstep.
  unfold modify, set_semaphore, set_disk. cbn. by rewrite H1.
Qed.

Lemma WriteSector_spec t data s :
  ready s -> 0 <= t < NumSectors -> length data = 128%nat ->
  exists s', WriteSector t data s = Ok (tt, s') /\ ready s' /\ same_counters s s' /\
    cache s' = cache s /\ FiFoPointer s' = FiFoPointer s /\
    forall t', content s' t' = if decide (t' = t) then data else content s t'.
Proof.
  intros [W I S L RL R1 R2 R3 R4 R5] Ht Hd. unfold WriteSector.
  destruct (WriteRequest_spec (totalTicks (clk s)) t data (disk s))
    as (d & Er & Wd & Ad & Sd); [apply ticks_nonneg|done..|].
  mstep by (by apply lock_Acquire_free). mstep.
  mstep by (apply on_disk_Ok; exact Er).
  mstep by (apply semaphore_P_busy; done).
  eexists. split; [reflexivity|]. splits; try done.
  constructor; cbn; try done. by apply disk_wf_HandleInterrupt.
Qed.

Lemma ReadSector_uncached_spec t s :
  ready s -> 0 <= t < NumSectors ->
  exists s', ReadSector_uncached t s = Ok (content s t, s') /\ ready s' /\
    same_counters s s' /\ cache s' = cache s /\
    forall t', content s' t' = content s t'.
Proof.
  intros [W I S L RL R1 R2 R3 R4 R5] Ht. unfold ReadSector_uncached.
  destruct (ReadRequest_spec (totalTicks (clk s)) t (disk s))
    as (d & Er & Wd & Ad & Sd); [apply ticks_nonneg|done..|].
  mstep by (by apply lock_Acquire_free). mstep.
  mstep by (apply on_disk_Ok; exact Er).
  mstep by (apply semaphore_P_busy; done).
  mstep. eexists. split; [reflexivity|]. splits; try done.
  constructor; cbn; try done. by apply disk_wf_HandleInterrupt.
Qed.

Lemma find_cache_hit c i t :
  find_cache c i t <> -1 -> 0 <= i ->
  exists k e, find_cache c i t = i + Z.of_nat k /\ c !! k = Some e /\
    valid e = 1 /\ csector e = t.
Proof.
  revert i. induction c as [|e c IH]; intros i; cbn [find_cache]; [done|].
  destruct ((valid e =? 1) && (csector e =? t)) eqn:Eb; intros H Hi.
  - exists 0%nat, e. splits; try done; lia.
  - destruct (IH (i + 1) H ltac:(lia)) as (k & e' & E1 & E2 & E3).
    exists (S k), e'. splits; try done; [lia|apply E3..].
Qed.

Lemma find_cache_miss c i t :
  find_cache c i t = -1 -> 0 <= i -> Forall (fun e => ~ (valid e = 1 /\ csector e = t)) c.
Proof.
  revert i. induction c as [|e c IH]; intros i; cbn [find_cache]; [constructor|].
  destruct ((valid e =? 1) && (csector e =? t)) eqn:Eb; intros H Hi; [lia|].
  constructor; [|apply (IH (i + 1)); [done|lia]]. lia.
Qed.

(** A cached read: a hit returns the slot, a miss the disk, and installs it. *)
Lemma ReadSector_spec t s :
  ready s -> 0 <= t < NumSectors ->
  exists s' data, ReadSector t s = Ok (data, s') /\ ready s' /\ same_counters s s' /\
    (forall t', content s' t' = content s t') /\
    ((exists k e, cache s !! k = Some e /\ valid e = 1 /\ csector e = t /\
        data = cdata e /\ cache s' = cache s /\ FiFoPointer s' = FiFoPointer s) \/
     (find_cache (cache s) 0 t = -1 /\ data = content s t /\
        cache s' = <[Z.to_nat (FiFoPointer s) := mkCache 1 t data]> (cache s))).
Proof.
  intros [W I S L RL R1 R2 R3 R4 R5] Ht. unfold ReadSector.
  mstep by (by apply lock_Acquire_free). mstep. cbn [cache set_lock].
  destruct (Z.eqb_spec (find_cache (cache s) 0 t) (-1)) as [Hf|Hf].
  - destruct (ReadRequest_spec (totalTicks (clk s)) t (disk s))
      as (d & Er & Wd & Ad & Sd); [apply ticks_nonneg|done..|].
    erewrite bind_run; cycle 1.
    { mstep. mstep by (apply on_disk_Ok; exact Er).
      mstep by (apply lift_Ok, arr_set_in; cbn; rewrite R4; lia).
      mstep. mstep. reflexivity. }
    cbv beta iota. mstep by (apply semaphore_P_busy; done). mstep.
    eexists _, _. split; [reflexivity|]. splits; try done; [|by right].
    constructor; cbn; try done; [by apply disk_wf_HandleInterrupt| |].
    + by rewrite length_insert.
    + rewrite Z.rem_mod_nonneg by lia. apply Z.mod_pos_bound. lia.
  - destruct (find_cache_hit _ _ _ Hf ltac:(lia)) as (k & e & -> & Hk & Hv & Hs).
    erewrite bind_run; cycle 1.
    { mstep by (apply lift_Ok; rewrite Z.add_0_l; by apply arr_get_nat). mstep. reflexivity. }
    cbv beta iota. erewrite bind_run; cycle 1.
    { unfold semaphore_P. mstep. cbn [semaphore set_semaphore set_disk set_lock].
      rewrite S. cbn. reflexivity. }
    cbv beta iota. mstep.
    eexists _, _. split; [reflexivity|]. splits; try done.
    + constructor; cbn; try done. by apply disk_wf_HandleInterrupt.
    + left. by exists k, e.
Qed.

Lemma coherent_read t s :
  ready s -> coherent s -> 0 <= t < NumSectors ->
  exists s', ReadSector t s = Ok (content s t, s') /\ ready s' /\ coherent s' /\
    same_counters s s' /\ forall t', content s' t' = content s t'.
Proof.
  intros Hr Hc Ht. destruct (ReadSector_spec t s Hr Ht)
    as (s' & data & Er & R' & C' & S' & [(k & e & Hk & Hv & Hs & -> & Hca & _)|(_ & -> & Hca)]);
    exists s'.
  - assert (cdata e = content s t) as <-.
    { subst t. unfold coherent in Hc. rewrite Forall_lookup in Hc. by eapply Hc. }
    splits; try done. unfold coherent. rewrite Hca.
    eapply Forall_impl; [exact Hc|]. intros e' H V. rewrite S'. by apply H.
  - splits; try done. unfold coherent. rewrite Hca. apply Forall_insert.
    + eapply Forall_impl; [exact Hc|]. intros e' H V. rewrite S'. by apply H.
    + intros _. cbn. by rewrite S'.
Qed.

(** The uncached reader keeps the interface in every state, also across
    writes; the reader of the source keeps it in coherent states. *)
#[local] Instance uncached_reader : SectorReader := ReadSector_uncached.

Lemma uncached_read_law t s : ready s -> True -> 0 <= t < NumSectors ->
  exists s', read_sector t s = Ok (content s t, s') /\ ready s' /\ True /\
    same_counters s s' /\ forall t', content s' t' = content s t'.
Proof.
  intros Hr _ Ht. destruct (ReadSector_uncached_spec t s Hr Ht) as (s' & ? & ? & ? & _ & ?).
  by exists s'.
Qed.

Definition uncached_reads_disk : ReadsDisk ReadSector_uncached :=
  {| good := fun _ => True; read_sector_law := uncached_read_law;
     good_frame := fun _ _ _ _ _ => I |}.

Lemma uncached_sees_writes : @SeesWrites ReadSector_uncached E uncached_reads_disk.
Proof. done. Qed.

Lemma coherent_frame s s' :
  coherent s -> disk s' = disk s -> cache s' = cache s -> coherent s'.
Proof. unfold coherent, content. by intros H -> ->. Qed.

Definition cached_reads_disk : ReadsDisk ReadSector :=
  {| good := coherent; read_sector_law := coherent_read; good_frame := coherent_frame |}.

End Lemmas.

(** ** Effects as clients of the interface see them *)

Section Effects.
Context `{E : Env} `{!EnvOk E} `{R : SectorReader} `{RD : !ReadsDisk R}.

(** Sector [t] replaced. *)
Definition upd (c : Z -> list Z) (t : Z) (data : list Z) : Z -> list Z :=
  fun t' => if decide (t' = t) then data else c t'.

(** [effect s s' c]: from [s] the disk goes to [s'], where it is ready, reads
    are right, the reader counts are those of [s] and sector [t] holds [c t]. *)
Definition effect (s s' : SynchDisk) (c : Z -> list Z) : Prop :=
  ready s' /\ good s' /\ same_counters s s' /\ forall t, content s' t = c t.

Lemma effect_refl s : ready s -> good s -> effect s s (content s).
Proof. done. Qed.

Lemma effect_trans s1 s2 s3 c1 c2 :
  effect s1 s2 c1 -> effect s2 s3 c2 -> effect s1 s3 c2.
Proof.
  intros (_ & _ & (A1 & A2 & A3) & _) (R3 & G3 & (B1 & B2 & B3) & C3).
  unfold effect, same_counters. splits; try done; congruence.
Qed.

Lemma effect_ext s s' c1 c2 :
  effect s s' c1 -> (forall t, c1 t = c2 t) -> effect s s' c2.
Proof. intros (? & ? & ? & H) Hc. unfold effect. splits; try done. intros t. by rewrite H. Qed.

(** Two steps, the first of which leaves the disk contents alone. *)
Lemma effect_quiet s1 s2 s3 :
  effect s1 s2 (content s1) -> effect s2 s3 (content s2) -> effect s1 s3 (content s1).
Proof.
  intros H1 H2. eapply effect_ext; [by eapply effect_trans|].
  intros t. apply H1.
Qed.

Lemma reading_effect s :
  ready s -> good s ->
  exists s', reading s = Ok (clk s, s') /\ effect s s' (content s).
Proof.
  intros [W I S L RL R1 R2 R3 R4 R5] G. eexists. split; [reflexivity|].
  unfold effect. splits; try done. by eapply good_frame.
Qed.

Lemma read_sector_effect t s :
  ready s -> good s -> 0 <= t < NumSectors ->
  exists s', read_sector t s = Ok (content s t, s') /\ effect s s' (content s).
Proof.
  intros Hr Hg Ht. destruct (read_sector_law t s Hr Hg Ht) as (s' & ? & ? & ? & ? & ?).
  by exists s'.
Qed.

Lemma WriteSector_effect `{!SeesWrites R} t data s :
  ready s -> good s -> 0 <= t < NumSectors -> length data = 128%nat ->
  exists s', WriteSector t data s = Ok (tt, s') /\
    effect s s' (upd (content s) t data).
Proof.
  intros Hr Hg Ht Hd. destruct (WriteSector_spec t data s Hr Ht Hd)
    as (s' & Ew & R' & C' & _ & _ & S').
  exists s'. unfold effect. splits; try done. by apply (write_keeps_good t data s s').
Qed.

(** Nobody reads or writes the file with its header in sector [t]. *)
Definition free_at (t : Z) (s : SynchDisk) : Prop :=
  0 <= t < NumSectors /\ readerWtiterSemap s !! Z.to_nat t = Some 1 /\
  readerNum s !! Z.to_nat t = Some 0.

Lemma free_at_locks t s s' : same_locks s s' -> free_at t s -> free_at t s'.
Proof. intros (E1 & E2). unfold free_at. by rewrite E1, E2. Qed.

Lemma effect_locks s s' c : effect s s' c -> same_locks s s'.
Proof. by intros (_ & _ & (E1 & E2 & _) & _). Qed.

Lemma same_locks_trans s1 s2 s3 : same_locks s1 s2 -> same_locks s2 s3 -> same_locks s1 s3.
Proof. intros [? ?] [? ?]. split; congruence. Qed.

(** The counters of [s1] are those of [s] with one file taken. *)
Definition taken (t readers : Z) (s s1 : SynchDisk) : Prop :=
  ready s1 /\ good s1 /\ (forall t', content s1 t' = content s t') /\
  readerWtiterSemap s1 = <[Z.to_nat t := 0]> (readerWtiterSemap s) /\
  readerNum s1 = <[Z.to_nat t := readers]> (readerNum s) /\ visitorNum s1 = visitorNum s.

Lemma add_readerNum_spec t d v s :
  0 <= t -> readerNum s !! Z.to_nat t = Some v ->
  add_readerNum t d s = Ok (v + d, set_readerNum (<[Z.to_nat t := v + d]> (readerNum s)) s).
Proof.
  intros Ht H. pose proof (lookup_lt_Some _ _ _ H). unfold add_readerNum. mstep.
  mstep by (apply lift_Ok, arr_get_in; [lia|exact H]).
  mstep by (apply lift_Ok, arr_set_in; lia). mstep. reflexivity.
Qed.

Lemma readerWtiterSemap_P_spec t v s :
  0 <= t -> readerWtiterSemap s !! Z.to_nat t = Some v -> v <> 0 ->
  readerWtiterSemap_P t s =
    Ok (tt, set_readerWtiterSemap (<[Z.to_nat t := v - 1]> (readerWtiterSemap s)) s).
Proof.
  intros Ht H Hv. pose proof (lookup_lt_Some _ _ _ H). unfold readerWtiterSemap_P. mstep.
  mstep by (apply lift_Ok, arr_get_in; [lia|exact H]). destruct (Z.eqb_spec v 0); [done|].
  mstep by (apply lift_Ok, arr_set_in; lia). reflexivity.
Qed.

Lemma readerWtiterSemap_V_spec t v s :
  0 <= t -> readerWtiterSemap s !! Z.to_nat t = Some v ->
  readerWtiterSemap_V t s =
    Ok (tt, set_readerWtiterSemap (<[Z.to_nat t := v + 1]> (readerWtiterSemap s)) s).
Proof.
  intros Ht H. pose proof (lookup_lt_Some _ _ _ H). unfold readerWtiterSemap_V. mstep.
  mstep by (apply lift_Ok, arr_get_in; [lia|exact H]).
  mstep by (apply lift_Ok, arr_set_in; lia). reflexivity.
Qed.

(** A change of the counters alone. *)
Lemma counters_frame s sem num b :
  ready s -> good s -> length sem = length (readerWtiterSemap s) ->
  length num = length (readerNum s) -> b = false ->
  let s' := set_readerLock b (set_readerWtiterSemap sem (set_readerNum num s)) in
  ready s' /\ good s'.
Proof.
  intros [W I S L RL R1 R2 R3 R4 R5] G H1 H2 ->.
  split; [constructor; cbn; try done; congruence|by eapply good_frame].
Qed.

Lemma writer_enters t s :
  ready s -> good s -> free_at t s ->
  exists s1, SynchWriterStart t s = Ok (tt, s1) /\ taken t 0 s s1.
Proof.
  intros Hr Hg (Ht & H1 & H2). eexists. split; [by apply readerWtiterSemap_P_spec; [lia|..]|].
  destruct (counters_frame s (<[Z.to_nat t := 1 - 1]> (readerWtiterSemap s)) (readerNum s)
    (readerLock s) Hr Hg) as [R' G']; [by rewrite length_insert|done|apply Hr|].
  unfold taken. splits; try done. cbn. by rewrite list_insert_id.
Qed.

Lemma writer_leaves t s s1 s2 c :
  free_at t s -> taken t 0 s s1 -> effect s1 s2 c ->
  exists s3, SynchWriterExit t s2 = Ok (tt, s3) /\ effect s s3 c.
Proof.
  intros (Ht & H1 & H2) (_ & _ & _ & T1 & T2 & T3) (R2 & G2 & (E1 & E2 & E3) & C).
  pose proof (lookup_lt_Some _ _ _ H1) as Hl. rewrite list_insert_id in T2 by exact H2.
  assert (L : readerWtiterSemap s2 !! Z.to_nat t = Some 0)
    by (rewrite E1, T1; by apply list_lookup_insert_eq).
  eexists. split; [by apply readerWtiterSemap_V_spec; [lia|]|].
  destruct (counters_frame s2 (<[Z.to_nat t := 0 + 1]> (readerWtiterSemap s2)) (readerNum s2)
    (readerLock s2) R2 G2) as [R' G']; [by rewrite length_insert|done|apply R2|].
  unfold effect. splits; try done. unfold same_counters. cbn.
  by rewrite E1, E2, E3, T1, T2, T3, list_insert_insert_eq, list_insert_id.
Qed.

Lemma reader_enters t s :
  ready s -> good s -> free_at t s ->
  exists s1, SynchReaderStart t s = Ok (tt, s1) /\ taken t 1 s s1.
Proof.
  intros Hr Hg (Ht & H1 & H2). eexists. split.
  { unfold SynchReaderStart.
    mstep by (unfold readerLock_Acquire; mstep; rewrite (rd_rlock s Hr); reflexivity).
    mstep by (apply add_readerNum_spec; [lia|exact H2]).
    mstep by (apply readerWtiterSemap_P_spec; [lia|exact H1|done]).
    unfold readerLock_Release. mstep. reflexivity. }
  destruct (counters_frame s (<[Z.to_nat t := 1 - 1]> (readerWtiterSemap s))
    (<[Z.to_nat t := 0 + 1]> (readerNum s)) false Hr Hg) as [R' G'];
    [by rewrite length_insert|by rewrite length_insert|done|].
  unfold taken. splits; done.
Qed.

Lemma reader_leaves t s s1 s2 c :
  free_at t s -> taken t 1 s s1 -> effect s1 s2 c ->
  exists s3, SynchReaderExit t s2 = Ok (tt, s3) /\ effect s s3 c.
Proof.
  intros (Ht & H1 & H2) (_ & _ & _ & T1 & T2 & T3) (R2 & G2 & (E1 & E2 & E3) & C).
  assert (L1 : readerWtiterSemap s2 !! Z.to_nat t = Some 0)
    by (rewrite E1, T1; apply list_lookup_insert_eq; by eapply lookup_lt_Some).
  assert (L2 : readerNum s2 !! Z.to_nat t = Some 1)
    by (rewrite E2, T2; apply list_lookup_insert_eq; by eapply lookup_lt_Some).
  eexists. split.
  { unfold SynchReaderExit.
    mstep by (unfold readerLock_Acquire; mstep; rewrite (rd_rlock s2 R2); reflexivity).
    mstep by (apply add_readerNum_spec; [lia|exact L2]).
    mstep by (apply readerWtiterSemap_V_spec; [lia|exact L1]).
    unfold readerLock_Release. mstep. reflexivity. }
  destruct (counters_frame s2 (<[Z.to_nat t := 0 + 1]> (readerWtiterSemap s2))
    (<[Z.to_nat t := 1 + -1]> (readerNum s2)) false R2 G2) as [R' G'];
    [by rewrite length_insert|by rewrite length_insert|done|].
  unfold effect. splits; try done. unfold same_counters. cbn.
  by rewrite E1, E2, E3, T1, T2, T3, !list_insert_insert_eq, !list_insert_id.
Qed.

End Effects.

Definition zero_env : Env :=
  {| totalTicks := fun _ => 0; unix_time := fun _ => 0; junk := fun _ _ => 0 |}.

Lemma zero_env_ok : EnvOk zero_env.
Proof. constructor; intros; unfold is_int, is_byte; cbn; lia. Qed.

(** Four invalid cache slots. *)
Definition empty_cache : list Cache := replicate 4 (mkCache 0 0 []).

Lemma SynchDisk_SynchDisk_fresh cache0 :
  length cache0 = 4%nat ->
  exists s, SynchDisk_SynchDisk cache0 None = Ok s /\ ready s /\ cache s = cache0 /\
    forall t, 0 <= t < NumSectors -> content s t = replicate 128 0.
Proof.
  intros Hc. destruct Disk_Disk_fresh as (d & Ed & Wd & Ad & Sd).
  unfold SynchDisk_SynchDisk. rewrite Ed. eexists. split; [reflexivity|].
  splits; done.
Qed.

(** ** Properties *)

(** synchronous reads.  From a ready state, in any environment,
    [ReadSector] of a valid sector returns (no assertion fails, the caller is
    not left asleep), the state is ready again, no sector of the disk and no
    reader count changes; and if the cache agrees with the disk, the data
    returned is what the disk holds and the cache still agrees. *)
Theorem synchdisk_read_returns `{E : Env} `{!EnvOk E} t s :
  ready s -> 0 <= t < NumSectors ->
  exists data s', ReadSector t s = Ok (data, s') /\ ready s' /\ same_counters s s' /\
    (forall t', content s' t' = content s t') /\
    (coherent s -> data = content s t /\ coherent s').
Proof.
  intros Hr Ht. destruct (ReadSector_spec t s Hr Ht) as (s' & data & Er & R' & C' & S' & _).
  exists data, s'. splits; try done. intros Hc.
  destruct (coherent_read t s Hr Hc Ht) as (s2 & E2 & _ & Hc2 & _).
  rewrite E2 in Er. by injection Er as <- <-.
Qed.

Lemma synchdisk_read_returns_witness :
  exists s data s', SynchDisk_SynchDisk empty_cache None = Ok s /\
    @ReadSector zero_env 5 s = Ok (data, s') /\ data = replicate 128 0.
Proof.
  destruct (SynchDisk_SynchDisk_fresh empty_cache eq_refl) as (s & Es & Rs & Cs & Ss).
  assert (H5 : 0 <= 5 < NumSectors) by (split; reflexivity || discriminate).
  destruct (@synchdisk_read_returns zero_env zero_env_ok 5 s Rs H5)
    as (data & s' & Er & _ & _ & _ & Hc).
  exists s, data, s'. splits; [done|done|]. rewrite <- (Ss 5 H5). apply Hc.
  unfold coherent. rewrite Cs. repeat constructor; done.
Defined.

(** the read cache goes stale.  [WriteSector] stores the new data on the
    disk but leaves the cache alone: from any ready, coherent state, reading a
    sector, writing it and reading it again returns the contents from before
    the write, while the disk holds the new data. *)
Theorem synchdisk_write_leaves_stale_cache `{E : Env} `{!EnvOk E} t data s :
  ready s -> coherent s -> 0 <= t < NumSectors -> length data = 128%nat ->
  exists s', (_ ← ReadSector t; _ ← WriteSector t data; ReadSector t) s
    = Ok (content s t, s') /\ content s' t = data.
Proof.
  intros Hr Hc Ht Hd.
  destruct (ReadSector_spec t s Hr Ht) as (s1 & d1 & E1 & R1 & _ & C1 & Hcase).
  destruct (coherent_read t s Hr Hc Ht) as (s1' & E1' & _ & Hco1 & _).
  rewrite E1' in E1. injection E1 as <- <-.
  assert (exists k e, cache s1' !! k = Some e /\ valid e = 1 /\ csector e = t) as (k & e & Hk & Hv & He).
  { destruct Hcase as [(k & e & Hk & Hv & He & _ & -> & _)|(_ & _ & ->)]; [by exists k, e|].
    exists (Z.to_nat (FiFoPointer s)), (mkCache 1 t (content s t)). split; [|done].
    apply list_lookup_insert_eq. destruct Hr. lia. }
  destruct (WriteSector_spec t data s1' R1 Ht Hd) as (s2 & E2 & R2 & _ & Ca2 & _ & C2).
  destruct (ReadSector_spec t s2 R2 Ht) as (s3 & d3 & E3 & R3 & _ & C3 & Hcase3).
  exists s3. mstep by exact E1'. mstep by exact E2. rewrite E3. rewrite C3, C2, decide_True by done.
  split; [|done]. do 2 f_equal.
  destruct Hcase3 as [(k3 & e3 & Hk3 & Hv3 & He3 & -> & _)|(Hm & _)].
  - rewrite Ca2 in Hk3. unfold coherent in Hco1. rewrite Forall_lookup in Hco1.
    rewrite (Hco1 _ _ Hk3 Hv3), He3. apply C1.
  - apply find_cache_miss in Hm; [|lia]. rewrite Ca2, Forall_lookup in Hm.
    by destruct (Hm _ _ Hk).
Qed.

Lemma synchdisk_write_leaves_stale_cache_witness :
  exists s s', SynchDisk_SynchDisk empty_cache None = Ok s /\
    (_ ← @ReadSector zero_env 5; _ ← @WriteSector zero_env 5 (replicate 128 1);
     @ReadSector zero_env 5) s = Ok (replicate 128 0, s') /\
    content s' 5 = replicate 128 1.
Proof.
  destruct (SynchDisk_SynchDisk_fresh empty_cache eq_refl) as (s & Es & Rs & Cs & Ss).
  assert (H5 : 0 <= 5 < NumSectors) by (split; reflexivity || discriminate).
  assert (Hc : coherent s) by (unfold coherent; rewrite Cs; repeat constructor; done).
  destruct (@synchdisk_write_leaves_stale_cache zero_env zero_env_ok 5 (replicate 128 1) s
    Rs Hc H5 eq_refl) as (s' & Er & Hs).
  exists s, s'. rewrite <- (Ss 5 H5). done.
Defined.
