(* ===== verification/FileHeader.v ===== *)
(** * filesys/filehdr.h, filesys/filehdr.cc: file headers

    The header is the structure that is copied to and from one disk sector.
    [NumDirect] is a [size_t] expression, so the comparisons against it are
    unsigned.  The free map is passed and returned; the disk is the state.
    [printf] lines are left out, except in [Print], which returns what it
    prints. *)
From S2P Require Import Prelude CInt BitMap Disk SynchDisk.
From Stdlib Require Import ZArith Lia List Bool.
From stdpp Require Import base tactics list numbers gmap.
Local Open Scope Z_scope.

(** ** Data *)

Definition NumDirect : Z := (SectorSize - 6 * 4) / 4.

Record FileHeader := mkHeader {
  createTime : Z;
  lastVistTime : Z;
  lastModifyTime : Z;
  hdrSector : Z;
  numBytes : Z;
  numSectors : Z;
  dataSectors : list Z }.

Definition set_createTime v h := mkHeader v (lastVistTime h) (lastModifyTime h)
  (hdrSector h) (numBytes h) (numSectors h) (dataSectors h).
Definition set_lastVistTime v h := mkHeader (createTime h) v (lastModifyTime h)
  (hdrSector h) (numBytes h) (numSectors h) (dataSectors h).
Definition set_lastModifyTime v h := mkHeader (createTime h) (lastVistTime h) v
  (hdrSector h) (numBytes h) (numSectors h) (dataSectors h).
Definition set_hdrSector v h := mkHeader (createTime h) (lastVistTime h)
  (lastModifyTime h) v (numBytes h) (numSectors h) (dataSectors h).
Definition set_numBytes v h := mkHeader (createTime h) (lastVistTime h)
  (lastModifyTime h) (hdrSector h) v (numSectors h) (dataSectors h).
Definition set_numSectors v h := mkHeader (createTime h) (lastVistTime h)
  (lastModifyTime h) (hdrSector h) (numBytes h) v (dataSectors h).
Definition set_dataSectors v h := mkHeader (createTime h) (lastVistTime h)
  (lastModifyTime h) (hdrSector h) (numBytes h) (numSectors h) v.

(** [(char * )this]: the memory image of a header, and reading it back. *)
Definition header_bytes (h : FileHeader) : list Z :=
  ints_bytes ([createTime h; lastVistTime h; lastModifyTime h; hdrSector h;
               numBytes h; numSectors h] ++ dataSectors h).

Definition bytes_header (b : list Z) : FileHeader :=
  let w := bytes_ints b in
  mkHeader (nth 0 w 0) (nth 1 w 0) (nth 2 w 0) (nth 3 w 0) (nth 4 w 0) (nth 5 w 0)
    (drop 6 w).

(** ** Operations *)

(** Uninitialised memory of [n] bytes. *)
Definition fresh_bytes `{Env} (n : nat) : M SynchDisk (list Z) :=
  k ← reading; mret (map (junk k) (seq 0 n)).

Definition new_FileHeader `{Env} : M SynchDisk FileHeader :=
  b ← fresh_bytes 128; mret (bytes_header b).

(** [dataSectors[i] = v]. *)
Definition put_sector (h : FileHeader) (i v : Z) : outcome FileHeader :=
  l ← arr_set (dataSectors h) i v; Ok (set_dataSectors l h).

(** [dataSectors[i] = freeMap->Find()]. *)
Definition find_sector (i : Z) : M (FileHeader * BitMap) unit :=
  hf ← get;
  r ← lift (Find hf.2);
  h ← lift (put_sector hf.1 i r.1);
  put (h, r.2).

(** [secondIndex[i] = freeMap->Find()]. *)
Definition find_second (i : Z) : M (list Z * BitMap) unit :=
  lf ← get;
  r ← lift (Find lf.2);
  l ← lift (arr_set lf.1 i r.1);
  put (l, r.2).

(** [numSectors - NumDirect + 1], an unsigned expression. *)
Definition second_count (h : FileHeader) : Z := u32 (numSectors h - NumDirect + 1).

Section Operations.
Context `{E : Env} `{R : SectorReader}.

Definition time_NULL : M SynchDisk Z := n ← reading; mret (unix_time n).

Definition SetCreatTime (h : FileHeader) : M SynchDisk FileHeader :=
  t ← time_NULL; mret (set_createTime t h).
Definition SetLastVisitTime (h : FileHeader) : M SynchDisk FileHeader :=
  t ← time_NULL; mret (set_lastVistTime t h).
Definition SetLastModifyTime (h : FileHeader) : M SynchDisk FileHeader :=
  t ← time_NULL; mret (set_lastModifyTime t h).

(** The direct branch of [Allocate]: contiguous sectors if there are some. *)
Definition Allocate_direct (h : FileHeader) (freeMap : BitMap) :
    outcome (FileHeader * BitMap) :=
  r ← FirstFind (numSectors h) freeMap;
  let '(freeSpace, freeMap) := r in
  if negb (freeSpace =? -1) then
    x ← for_range 0 (numSectors h)
          (fun i h => h' ← put_sector h i (freeSpace + i); Ok (tt, h')) h;
    Ok (x.2, freeMap)
  else
    x ← for_range 0 (numSectors h) find_sector (h, freeMap);
    Ok x.2.

(** The indirect branch: 25 data sectors, the index sector, and the data
    sectors that are listed in the index sector. *)
Definition Allocate_indirect (h : FileHeader) (freeMap : BitMap) :
    M SynchDisk (FileHeader * BitMap) :=
  x ← lift (for_range 0 (NumDirect - 1) find_sector (h, freeMap));
  x ← lift (find_sector (NumDirect - 1) x.2);
  let '(h, freeMap) := x.2 in
  b ← fresh_bytes 128;
  y ← lift (for_range 0 (second_count h) find_second (bytes_ints b, freeMap));
  let '(secondIndex, freeMap) := y.2 in
  t ← lift (arr_get (dataSectors h) (NumDirect - 1));
  _ ← WriteSector t (ints_bytes secondIndex);
  mret (h, freeMap).

Definition Allocate (h : FileHeader) (freeMap : BitMap) (fileSize : Z) :
    M SynchDisk (bool * FileHeader * BitMap) :=
  h ← SetCreatTime h;
  h ← SetLastVisitTime h;
  h ← SetLastModifyTime h;
  let h := set_numBytes fileSize h in
  let h := set_numSectors (divRoundUp fileSize SectorSize) h in
  r ← lift (NumClear freeMap);
  let '(clear, freeMap) := r in
  if clear <? numSectors h then mret (false, h, freeMap)
  else if u32 (numSectors h) <=? NumDirect then
    x ← lift (Allocate_direct h freeMap);
    mret (true, x.1, x.2)
  else
    x ← Allocate_indirect h freeMap;
    mret (true, x.1, x.2).

Definition Deallocate (h : FileHeader) (freeMap : BitMap) : M SynchDisk BitMap :=
  if u32 (numSectors h) <=? NumDirect then
    x ← lift (for_range 0 (numSectors h) (fun i =>
                s ← lift (arr_get (dataSectors h) i);
                t ← Test s;
                _ ← ASSERT t;
                Clear s) freeMap);
    mret x.2
  else
    t ← lift (arr_get (dataSectors h) (NumDirect - 1));
    secondIndex ← read_sector t;
    x ← lift (for_range 0 (second_count h) (fun i =>
                b ← lift (arr_get secondIndex (i * 4)); Clear (schar b)) freeMap);
    y ← lift (for_range 0 NumDirect (fun i =>
                s ← lift (arr_get (dataSectors h) i); Clear s) x.2);
    mret y.2.

Definition FetchFrom (sector : Z) : M SynchDisk FileHeader :=
  b ← read_sector sector;
  SetLastVisitTime (bytes_header b).

Definition WriteBack (h : FileHeader) (sector : Z) : M SynchDisk FileHeader :=
  h ← SetLastModifyTime h;
  let h := set_hdrSector sector h in
  _ ← WriteSector sector (header_bytes h);
  mret h.

Definition ByteToSector (h : FileHeader) (offset : Z) : M SynchDisk Z :=
  if u32 offset <? SectorSize * (NumDirect - 1) then
    lift (arr_get (dataSectors h) (Z.quot offset SectorSize))
  else
    let secondIndexPosition :=
      wrap32 (u32 (offset - SectorSize * (NumDirect - 1)) / SectorSize) in
    t ← lift (arr_get (dataSectors h) (NumDirect - 1));
    secondIndex ← read_sector t;
    b ← lift (arr_get secondIndex (secondIndexPosition * 4));
    mret (schar b).

Definition FileLength (h : FileHeader) : Z := numBytes h.

(** The contents part of [Print]: the bytes shown of each of the sectors,
    [k] bytes of the file having been shown. *)
Fixpoint Print_sectors (h : FileHeader) (k : Z) (ss : list Z) :
    M SynchDisk (list (list Z)) :=
  match ss with
  | [] => mret []
  | s :: ss' =>
    data ← read_sector s;
    let shown := take (Z.to_nat (Z.min SectorSize (numBytes h - k))) data in
    rest ← Print_sectors h (k + Z.of_nat (length shown)) ss';
    mret (shown :: rest)
  end.

(** [int(secondIndex[i*4])] for [n] values of [i]. *)
Fixpoint index_entries (secondIndex : list Z) (n : nat) (i : Z) : outcome (list Z) :=
  match n with
  | O => Ok []
  | S n' =>
    b ← arr_get secondIndex (i * 4);
    l ← index_entries secondIndex n' (i + 1);
    Ok (schar b :: l)
  end.

(** [Print]: the sector numbers listed and the bytes shown of each. *)
Definition Print (h : FileHeader) : M SynchDisk (list Z * list (list Z)) :=
  if u32 (numSectors h) <=? NumDirect - 1 then
    let ss := take (Z.to_nat (numSectors h)) (dataSectors h) in
    c ← Print_sectors h 0 ss;
    mret (ss, c)
  else
    t ← lift (arr_get (dataSectors h) (NumDirect - 1));
    secondIndex ← read_sector t;
    listed ← lift (index_entries secondIndex (Z.to_nat (second_count h)) 0);
    let direct := take (Z.to_nat (NumDirect - 1)) (dataSectors h) in
    c1 ← Print_sectors h 0 direct;
    secondIndex ← read_sector t;
    second ← lift (index_entries secondIndex (Z.to_nat (second_count h)) 0);
    c2 ← Print_sectors h (Z.of_nat (length (concat c1))) second;
    mret (direct ++ listed, c1 ++ c2).

End Operations.

(** [ExtendFile]: the loop body returns in its first round. *)
Definition ExtendFile (h : FileHeader) (freeMap : BitMap) (bytes : Z) :
    outcome (bool * FileHeader * BitMap) :=
  let newFileLength := numBytes h + bytes in
  let preSectorNum := numSectors h in
  let newNumSectors := divRoundUp newFileLength SectorSize in
  if newNumSectors =? preSectorNum then Ok (true, set_numBytes newFileLength h, freeMap)
  else
    r ← NumClear freeMap;
    if r.1 <? newNumSectors - preSectorNum then Ok (false, h, r.2)
    else if preSectorNum <? newNumSectors then
      f ← Find r.2;
      h ← put_sector h preSectorNum f.1;
      Ok (true, set_numSectors newNumSectors (set_numBytes newFileLength h), f.2)
    else Fault BadAccess.

(** ** Well-formed headers *)

Record header_wf (h : FileHeader) : Prop := {
  hw_create : is_int (createTime h);
  hw_visit : is_int (lastVistTime h);
  hw_modify : is_int (lastModifyTime h);
  hw_hdr : is_int (hdrSector h);
  hw_bytes : is_int (numBytes h);
  hw_sectors : is_int (numSectors h);
  hw_len : length (dataSectors h) = 26%nat;
  hw_data : Forall is_int (dataSectors h) }.

(** Headers that agree up to the three time stamps. *)
Definition same_file (h h' : FileHeader) : Prop :=
  hdrSector h' = hdrSector h /\ numBytes h' = numBytes h /\
  numSectors h' = numSectors h /\ dataSectors h' = dataSectors h.

Lemma same_file_refl h : same_file h h.
Proof. done. Qed.

Lemma same_file_trans h1 h2 h3 : same_file h1 h2 -> same_file h2 h3 -> same_file h1 h3.
Proof. unfold same_file. intros (? & ? & ? & ?) (? & ? & ? & ?). splits; congruence. Qed.

Lemma header_roundtrip h : header_wf h -> bytes_header (header_bytes h) = h.
Proof.
  intros [? ? ? ? ? ? ? ?]. unfold bytes_header, header_bytes.
  rewrite ints_bytes_roundtrip; [by destruct h|].
  repeat (apply List.Forall_cons; [done|]). done.
Qed.

Lemma written_back_wf h t sec :
  header_wf h -> is_int t -> 0 <= sec < NumSectors ->
  header_wf (set_hdrSector sec (set_lastModifyTime t h)).
Proof.
  intros [? ? ? ? ? ? ? ?] ? Hs. constructor; try assumption. cbn.
  unfold is_int, NumSectors, SectorsPerTrack, NumTracks in *. lia.
Qed.

Lemma length_header_bytes h :
  length (dataSectors h) = 26%nat -> length (header_bytes h) = 128%nat.
Proof.
  intros H. unfold header_bytes. rewrite length_ints_bytes, length_app, H. done.
Qed.

Lemma length_bytes_ints b n : length b = (4 * n)%nat -> length (bytes_ints b) = n.
Proof.
  revert b. induction n as [|n IH]; intros b Hb.
  - by destruct b.
  - destruct b as [|? [|? [|? [|? b]]]]; cbn in Hb; try lia.
    cbn. rewrite IH; [done|lia].
Qed.

Lemma bytes_ints_is_int b n : length b = (4 * n)%nat -> Forall is_int (bytes_ints b).
Proof.
  revert b. induction n as [|n IH]; intros b Hb.
  - by destruct b.
  - destruct b as [|? [|? [|? [|? b]]]]; cbn in Hb; try lia.
    cbn. constructor; [apply wrap32_range|]. apply IH. lia.
Qed.

(** Whatever a sector holds, a header read from it is well-formed. *)
Lemma bytes_header_wf b : length b = 128%nat -> header_wf (bytes_header b).
Proof.
  intros Hb. pose proof (length_bytes_ints b 32 Hb) as L.
  pose proof (bytes_ints_is_int b 32 Hb) as F.
  assert (N : forall k, (k < 32)%nat -> is_int (nth k (bytes_ints b) 0)).
  { intros k Hk. rewrite List.Forall_forall in F. apply F, nth_In. lia. }
  constructor; cbn; try (apply N; lia).
  - rewrite length_drop. lia.
  - by apply Forall_drop.
Qed.

(** ** Filling an array from the front *)

Lemma fill_step {A} (pre ds : list A) v :
  (length pre < length ds)%nat ->
  <[length pre := v]> (pre ++ drop (length pre) ds) =
  (pre ++ [v]) ++ drop (S (length pre)) ds.
Proof.
  intros H. rewrite insert_app_r_alt, Nat.sub_diag by lia.
  destruct (drop (length pre) ds) as [|x r] eqn:Ed.
  - apply (f_equal length) in Ed. rewrite length_drop in Ed. cbn in Ed. lia.
  - cbn. rewrite <- app_assoc. cbn. do 2 f_equal.
    replace (S (length pre)) with (length pre + 1)%nat by lia.
    by rewrite <- drop_drop, Ed.
Qed.

Lemma set_dataSectors_set l l' h :
  set_dataSectors l (set_dataSectors l' h) = set_dataSectors l h.
Proof. done. Qed.

(** The loop that stores a contiguous run. *)
Lemma put_run_spec h j n :
  (n <= length (dataSectors h))%nat ->
  for_range 0 (Z.of_nat n)
    (fun i h => h' ← put_sector h i (j + i); Ok (tt, h')) h =
  Ok (tt, set_dataSectors (seqZ j (Z.of_nat n) ++ drop n (dataSectors h)) h).
Proof.
  intros Hn. destruct (for_range_inv
    (fun i h' => 0 <= i /\
       h' = set_dataSectors (seqZ j i ++ drop (Z.to_nat i) (dataSectors h)) h)
    0 (Z.of_nat n) (fun i h => h' ← put_sector h i (j + i); Ok (tt, h')) h)
    as (s' & Es & _ & ->).
  - lia.
  - split; [lia|]. cbn. by destruct h.
  - intros i s Hi [Hi0 ->]. eexists. split; [|split; [lia|reflexivity]].
    assert (Li : length (seqZ j i) = Z.to_nat i) by by rewrite length_seqZ.
    unfold put_sector. cbn [dataSectors set_dataSectors].
    rewrite arr_set_in by (rewrite length_app, length_drop, Li; lia).
    cbn. do 2 f_equal. rewrite set_dataSectors_set. f_equal.
    rewrite <- Li, fill_step by lia. rewrite Li.
    replace (i + 1) with (Z.of_nat (S (Z.to_nat i))) by lia.
    rewrite seqZ_S, Nat2Z.id, Z2Nat.id by lia. done.
  - rewrite Es. by rewrite Nat2Z.id.
Qed.

(** The loops that call [Find] once per round. *)
Lemma find_sector_loop h fm n :
  wf fm -> (n <= length (dataSectors h))%nat -> (n <= length (clear_list (bits fm)))%nat ->
  let cl := clear_list (bits fm) in
  exists fm', for_range 0 (Z.of_nat n) find_sector (h, fm) =
    Ok (tt, (set_dataSectors ((Z.of_nat <$> take n cl) ++ drop n (dataSectors h)) h, fm')) /\
    after fm fm' (mark_all (bits fm) (take n cl)) /\
    clear_list (bits fm') = drop n cl.
Proof.
  intros Hwf Hn Hc cl. destruct (for_range_inv
    (fun i (hf : FileHeader * BitMap) => 0 <= i /\
       hf.1 = set_dataSectors ((Z.of_nat <$> take (Z.to_nat i) cl) ++
                drop (Z.to_nat i) (dataSectors h)) h /\
       after fm hf.2 (mark_all (bits fm) (take (Z.to_nat i) cl)) /\
       clear_list (bits hf.2) = drop (Z.to_nat i) cl)
    0 (Z.of_nat n) find_sector (h, fm)) as ([h' fm'] & Es & _ & Hh & Ha & Hd).
  - lia.
  - splits; try done. by destruct h.
  - intros i [h1 f1] Hi (Hi0 & Hh & Ha & Hd). cbn [fst snd] in *. subst h1.
    assert (Hlt : (Z.to_nat i < length cl)%nat) by (unfold cl; lia).
    destruct (lookup_lt_is_Some_2 _ _ Hlt) as [k Hk].
    rewrite (drop_S _ _ _ Hk) in Hd. destruct Ha as (W1 & N1 & B1).
    destruct (Find_next f1 k _ W1 Hd) as (f2 & Ef & (W2 & N2 & B2) & Hd2).
    set (pre := Z.of_nat <$> take (Z.to_nat i) cl) in *.
    assert (Lp : length pre = Z.to_nat i) by (unfold pre; rewrite length_fmap, length_take; lia).
    eexists. split.
    + unfold find_sector. mstep. mstep by (apply lift_Ok; exact Ef).
      mstep by (apply lift_Ok; unfold put_sector; rewrite arr_set_in
                  by (cbn; rewrite length_app, length_drop, Lp; lia); reflexivity).
      reflexivity.
    + cbn [fst snd]. replace (Z.to_nat (i + 1)) with (S (Z.to_nat i)) by lia.
      rewrite (take_S_r _ _ _ Hk). splits; [lia| | |done].
      * rewrite set_dataSectors_set. f_equal. cbn [dataSectors set_dataSectors].
        rewrite fmap_app. fold pre. rewrite <- Lp, fill_step by lia. done.
      * split; [done|]. split; [congruence|]. rewrite B2, B1. by rewrite mark_all_app.
  - rewrite Nat2Z.id in *. cbn in Hh. subst h'. by exists fm'.
Qed.

Lemma find_second_loop l fm n :
  wf fm -> (n <= length l)%nat -> (n <= length (clear_list (bits fm)))%nat ->
  let cl := clear_list (bits fm) in
  exists fm', for_range 0 (Z.of_nat n) find_second (l, fm) =
    Ok (tt, ((Z.of_nat <$> take n cl) ++ drop n l, fm')) /\
    after fm fm' (mark_all (bits fm) (take n cl)).
Proof.
  intros Hwf Hn Hc cl. destruct (for_range_inv
    (fun i (lf : list Z * BitMap) => 0 <= i /\
       lf.1 = (Z.of_nat <$> take (Z.to_nat i) cl) ++ drop (Z.to_nat i) l /\
       after fm lf.2 (mark_all (bits fm) (take (Z.to_nat i) cl)) /\
       clear_list (bits lf.2) = drop (Z.to_nat i) cl)
    0 (Z.of_nat n) find_second (l, fm)) as ([l' fm'] & Es & _ & Hh & Ha & Hd).
  - lia.
  - splits; try done; lia.
  - intros i [l1 f1] Hi (Hi0 & Hh & Ha & Hd). cbn [fst snd] in *. subst l1.
    assert (Hlt : (Z.to_nat i < length cl)%nat) by (unfold cl; lia).
    destruct (lookup_lt_is_Some_2 _ _ Hlt) as [k Hk].
    rewrite (drop_S _ _ _ Hk) in Hd. destruct Ha as (W1 & N1 & B1).
    destruct (Find_next f1 k _ W1 Hd) as (f2 & Ef & (W2 & N2 & B2) & Hd2).
    set (pre := Z.of_nat <$> take (Z.to_nat i) cl) in *.
    assert (Lp : length pre = Z.to_nat i) by (unfold pre; rewrite length_fmap, length_take; lia).
    eexists. split.
    + unfold find_second. mstep. mstep by (apply lift_Ok; exact Ef).
      mstep by (apply lift_Ok, arr_set_in; cbn; rewrite length_app, length_drop, Lp; lia).
      reflexivity.
    + cbn [fst snd]. replace (Z.to_nat (i + 1)) with (S (Z.to_nat i)) by lia.
      rewrite (take_S_r _ _ _ Hk). splits; [lia| | |done].
      * rewrite fmap_app. fold pre. rewrite <- Lp, fill_step by lia. done.
      * split; [done|]. split; [congruence|]. rewrite B2, B1. by rewrite mark_all_app.
  - rewrite Nat2Z.id in *. cbn in Hh. subst l'. by exists fm'.
Qed.

Lemma FirstFind_zero b : 0 < numBits b -> FirstFind 0 b = Ok (0, b).
Proof.
  intros H. unfold FirstFind. mstep.
  destruct (Z.to_nat (numBits b)) as [|n] eqn:En; [lia|]. reflexivity.
Qed.

(** ** Operations against the disk interface *)

Section Specs.
Context `{E : Env} `{EO : !EnvOk E} `{R : SectorReader} `{RD : !ReadsDisk R}.

Lemma time_NULL_effect s :
  ready s -> good s ->
  exists t s', time_NULL s = Ok (t, s') /\ is_int t /\ effect s s' (content s).
Proof.
  intros Hr Hg. destruct (reading_effect s Hr Hg) as (s' & Es & Ef).
  exists (unix_time (clk s)), s'. unfold time_NULL. mstep by exact Es.
  splits; [done|apply time_is_int|done].
Qed.

Lemma SetLastVisitTime_effect h s :
  ready s -> good s ->
  exists t s', SetLastVisitTime h s = Ok (set_lastVistTime t h, s') /\ is_int t /\
    effect s s' (content s).
Proof.
  intros Hr Hg. destruct (time_NULL_effect s Hr Hg) as (t & s' & Et & Ht & Ef).
  exists t, s'. unfold SetLastVisitTime. by mstep by exact Et.
Qed.

Lemma SetLastModifyTime_effect h s :
  ready s -> good s ->
  exists t s', SetLastModifyTime h s = Ok (set_lastModifyTime t h, s') /\ is_int t /\
    effect s s' (content s).
Proof.
  intros Hr Hg. destruct (time_NULL_effect s Hr Hg) as (t & s' & Et & Ht & Ef).
  exists t, s'. unfold SetLastModifyTime. by mstep by exact Et.
Qed.

Lemma fresh_bytes_effect n s :
  ready s -> good s ->
  exists b s', fresh_bytes n s = Ok (b, s') /\ length b = n /\ Forall is_byte b /\
    effect s s' (content s).
Proof.
  intros Hr Hg. destruct (reading_effect s Hr Hg) as (s' & Es & Ef).
  eexists _, s'. unfold fresh_bytes. mstep by exact Es. split; [reflexivity|].
  splits; [by rewrite length_map, length_seq| |done].
  apply List.Forall_forall. intros x Hx. apply in_map_iff in Hx as (k & <- & _).
  apply junk_is_byte.
Qed.

Lemma new_FileHeader_effect s :
  ready s -> good s ->
  exists h s', new_FileHeader s = Ok (h, s') /\ header_wf h /\ effect s s' (content s).
Proof.
  intros Hr Hg. destruct (fresh_bytes_effect 128 s Hr Hg) as (b & s' & Eb & Hl & _ & Ef).
  exists (bytes_header b), s'. unfold new_FileHeader. mstep by exact Eb.
  splits; [done|by apply bytes_header_wf|done].
Qed.

Lemma FetchFrom_spec sec s :
  ready s -> good s -> 0 <= sec < NumSectors ->
  exists t s', FetchFrom sec s = Ok (set_lastVistTime t (bytes_header (content s sec)), s') /\
    is_int t /\ effect s s' (content s).
Proof.
  intros Hr Hg Hs. destruct (read_sector_effect sec s Hr Hg Hs) as (s1 & E1 & F1).
  destruct F1 as (R1 & G1 & ?) eqn:?.
  destruct (SetLastVisitTime_effect (bytes_header (content s sec)) s1) as (t & s2 & E2 & Ht & F2);
    [done..|].
  exists t, s2. unfold FetchFrom. mstep by exact E1. splits; [done..|].
  by eapply effect_quiet.
Qed.

Lemma WriteBack_spec `{!SeesWrites R} h sec s :
  ready s -> good s -> 0 <= sec < NumSectors -> length (dataSectors h) = 26%nat ->
  exists t s', let h' := set_hdrSector sec (set_lastModifyTime t h) in
    WriteBack h sec s = Ok (h', s') /\ is_int t /\
    effect s s' (upd (content s) sec (header_bytes h')).
Proof.
  intros Hr Hg Hs Hl.
  destruct (SetLastModifyTime_effect h s Hr Hg) as (t & s1 & E1 & Ht & F1).
  destruct (WriteSector_effect sec (header_bytes (set_hdrSector sec (set_lastModifyTime t h))) s1)
    as (s2 & E2 & F2); [apply F1..|done|by apply length_header_bytes|].
  exists t, s2. cbv zeta. unfold WriteBack. mstep by exact E1. mstep by exact E2.
  splits; [done..|]. eapply effect_ext; [by eapply effect_trans|].
  intros t'. unfold upd. case_decide; [done|]. apply F1.
Qed.

(** ** Translation of byte offsets *)

Lemma NumDirect_eq : NumDirect = 26.
Proof. reflexivity. Qed.

Lemma ByteToSector_direct h k x s :
  dataSectors h !! k = Some x -> (k < 25)%nat ->
  ByteToSector h (Z.of_nat k * SectorSize) s = Ok (x, s).
Proof.
  intros Hk Hlt. unfold ByteToSector. rewrite NumDirect_eq. unfold SectorSize.
  rewrite u32_small by (unfold is_uint; lia).
  destruct (Z.ltb_spec (Z.of_nat k * 128) (128 * (26 - 1))); [|lia].
  rewrite Z.quot_mul by lia. apply lift_Ok. by apply arr_get_nat.
Qed.

(** Past the 25 direct sectors the entry is fetched from the index sector, and
    only its low byte, as a [char], comes back. *)
Lemma ByteToSector_indirect h k t b s :
  ready s -> good s -> dataSectors h !! 25%nat = Some t -> 0 <= t < NumSectors ->
  (25 <= k < 57)%nat -> content s t !! (4 * (k - 25))%nat = Some b ->
  exists s', ByteToSector h (Z.of_nat k * SectorSize) s = Ok (schar b, s') /\
    effect s s' (content s).
Proof.
  intros Hr Hg Ht Hv Hk Hb. destruct (read_sector_effect t s Hr Hg Hv) as (s' & Es & Ef).
  exists s'. unfold ByteToSector. rewrite NumDirect_eq. unfold SectorSize.
  rewrite u32_small by (unfold is_uint; lia).
  destruct (Z.ltb_spec (Z.of_nat k * 128) (128 * (26 - 1))); [lia|].
  rewrite u32_small by (unfold is_uint; lia).
  replace (Z.of_nat k * 128 - 128 * (26 - 1)) with (Z.of_nat (k - 25) * 128) by lia.
  rewrite Z.div_mul, wrap32_small by (unfold is_int; lia).
  mstep by (apply lift_Ok; apply (arr_get_nat _ 25); exact Ht).
  mstep by exact Es.
  mstep by (apply lift_Ok; replace (Z.of_nat (k - 25) * 4) with (Z.of_nat (4 * (k - 25))) by lia;
            apply arr_get_nat; exact Hb).
  done.
Qed.

(** ** Allocation *)

Definition sectors_for (fileSize : Z) : nat := Z.to_nat (divRoundUp fileSize SectorSize).

Lemma sectors_for_Z fileSize :
  0 <= fileSize -> divRoundUp fileSize SectorSize = Z.of_nat (sectors_for fileSize).
Proof.
  intros H. unfold sectors_for. rewrite Z2Nat.id; [done|].
  apply divRoundUp_ge0; [done|unfold SectorSize; lia].
Qed.

(** What [Allocate] does to the header before it looks at the free map. *)
Definition stamped (h h' : FileHeader) (fileSize : Z) : Prop :=
  is_int (createTime h') /\ is_int (lastVistTime h') /\ is_int (lastModifyTime h') /\
  hdrSector h' = hdrSector h /\ numBytes h' = fileSize /\
  numSectors h' = divRoundUp fileSize SectorSize /\ dataSectors h' = dataSectors h.

(** [Allocate] up to the branch on the number of sectors. *)
Lemma Allocate_prefix h fm fileSize s :
  ready s -> good s -> wf fm ->
  exists h1 s1, stamped h h1 fileSize /\ effect s s1 (content s) /\
    Allocate h fm fileSize s =
    (if Z.of_nat (count_clear (bits fm)) <? numSectors h1 then mret (false, h1, fm)
     else if u32 (numSectors h1) <=? NumDirect then
       x ← lift (Allocate_direct h1 fm); mret (true, x.1, x.2)
     else x ← Allocate_indirect h1 fm; mret (true, x.1, x.2)) s1.
Proof.
  intros Hr Hg Hw.
  destruct (time_NULL_effect s Hr Hg) as (t1 & s1 & E1 & T1 & F1).
  destruct (time_NULL_effect s1) as (t2 & s2 & E2 & T2 & F2); [apply F1..|].
  destruct (time_NULL_effect s2) as (t3 & s3 & E3 & T3 & F3); [apply F2..|].
  eexists _, s3. split; [|split].
  3: { unfold Allocate. mstep by (unfold SetCreatTime; mstep by exact E1; reflexivity).
       mstep by (unfold SetLastVisitTime; mstep by exact E2; reflexivity).
       mstep by (unfold SetLastModifyTime; mstep by exact E3; reflexivity).
       mstep by (by apply lift_Ok, NumClear_spec). reflexivity. }
  - by unfold stamped.
  - eapply effect_quiet; [exact F1|]. by eapply effect_quiet.
Qed.

(** The direct branch. *)
Lemma Allocate_direct_spec h fm n :
  wf fm -> 0 < numBits fm -> numSectors h = Z.of_nat n ->
  (n <= length (dataSectors h))%nat -> (n <= count_clear (bits fm))%nat ->
  (exists j fm', clear_run (bits fm) j n = true /\
     (forall l, (l < j)%nat -> clear_run (bits fm) l n = false) /\
     Allocate_direct h fm = Ok (set_dataSectors
       (seqZ (Z.of_nat j) (Z.of_nat n) ++ drop n (dataSectors h)) h, fm') /\
     after fm fm' (mark_run (bits fm) j n)) \/
  ((forall j, clear_run (bits fm) j n = false) /\
   Allocate_direct h fm = Fault AssertFailure).
Proof.
  intros Hw Hb Hn Hl Hc. unfold Allocate_direct. rewrite Hn.
  destruct n as [|n].
  { left. exists 0%nat, fm. rewrite FirstFind_zero by done. splits; try done; [lia|].
    cbn. by destruct h. }
  destruct (FirstFind_spec fm (S n) Hw ltac:(lia))
    as [(j & fm' & Hr & Hmin & -> & Ha)|(Hno & ->)].
  - left. exists j, fm'. splits; try done. cbn [mbind outcome_bind].
    destruct (Z.eqb_spec (Z.of_nat j) (-1)); [lia|]. cbn [negb].
    by rewrite put_run_spec.
  - right. split; [done|]. rewrite decide_False; [done|].
    intros [H0|H1]; [rewrite length_bits in H0; lia|].
    injection H1 as ->.
    destruct (find_clear (bits fm)) as [k|] eqn:Ek.
    + apply find_clear_Some in Ek as [Ek _]. specialize (Hno k).
      unfold clear_run in Hno. cbn in Hno. by rewrite Ek in Hno.
    + apply find_clear_None in Ek. lia.
Qed.

(** The indirect branch, when there is a sector for the index too. *)
Lemma Allocate_indirect_spec `{!SeesWrites R} h fm n s :
  ready s -> good s -> wf fm -> numBits fm = NumSectors ->
  numSectors h = Z.of_nat n -> (26 < n <= 57)%nat ->
  length (dataSectors h) = 26%nat -> (n < count_clear (bits fm))%nat ->
  let cl := clear_list (bits fm) in
  exists fm' s' rest index, cl !! 25%nat = Some index /\
    Allocate_indirect h fm s = Ok ((set_dataSectors (Z.of_nat <$> take 26 cl) h, fm'), s') /\
    after fm fm' (mark_all (bits fm) (take (S n) cl)) /\ length rest = (57 - n)%nat /\
    effect s s' (upd (content s) (Z.of_nat index)
      (ints_bytes ((Z.of_nat <$> take (n - 25) (drop 26 cl)) ++ rest))).
Proof.
  intros Hr Hg Hw Hb Hn Hr57 Hl Hc cl.
  assert (Lc : length cl = count_clear (bits fm)) by apply length_clear_from.
  destruct (find_sector_loop h fm 25 Hw ltac:(lia) ltac:(fold cl; lia))
    as (fm1 & E1 & (W1 & N1 & B1) & D1). fold cl in E1, B1, D1.
  destruct (lookup_lt_is_Some_2 cl 25) as [idx Hidx]; [lia|].
  rewrite (drop_S _ _ _ Hidx) in D1.
  destruct (Find_next fm1 idx _ W1 D1) as (fm2 & E2 & (W2 & N2 & B2) & D2).
  destruct (fresh_bytes_effect 128 s Hr Hg) as (b & s1 & Eb & Lb & Fb & F1).
  pose proof (length_bytes_ints b 32 Lb) as Lj.
  destruct (find_second_loop (bytes_ints b) fm2 (n - 25) W2 ltac:(lia))
    as (fm3 & E3 & (W3 & N3 & B3)); [rewrite D2, length_drop; lia|].
  rewrite D2 in E3, B3.
  assert (Hv : 0 <= Z.of_nat idx < NumSectors).
  { assert (Hin : idx ∈ clear_list (bits fm)) by (by eapply list_elem_of_lookup_2).
    apply elem_of_clear_list, lookup_lt_Some in Hin. rewrite length_bits, Hb in Hin. lia. }
  destruct (WriteSector_effect (Z.of_nat idx) (ints_bytes
    ((Z.of_nat <$> take (n - 25) (drop 26 cl)) ++ drop (n - 25) (bytes_ints b))) s1)
    as (s2 & Ew & F2); [apply F1..|done| |].
  { rewrite length_ints_bytes, length_app, length_fmap, length_take, !length_drop, Lj. lia. }
  exists fm3, s2, (drop (n - 25) (bytes_ints b)), idx. split; [done|]. split.
  { unfold Allocate_indirect. rewrite NumDirect_eq.
    mstep by (apply lift_Ok; exact E1).
    erewrite bind_run; cycle 1.
    { apply lift_Ok. unfold find_sector. mstep. cbn [fst snd].
      mstep by (apply lift_Ok; exact E2).
      mstep by (apply lift_Ok; unfold put_sector; rewrite (arr_set_nat _ 25)
        by (cbn; rewrite length_app, length_fmap, length_take, length_drop; lia); reflexivity).
      reflexivity. }
    cbv beta iota. cbn [fst snd]. mstep by exact Eb.
    unfold second_count. cbn [numSectors set_dataSectors]. rewrite Hn, NumDirect_eq.
    replace (Z.of_nat n - 26 + 1) with (Z.of_nat (n - 25)) by lia.
    rewrite u32_small by (unfold is_uint; lia).
    mstep by (apply lift_Ok; exact E3). cbn [fst snd dataSectors set_dataSectors].
    assert (Ed : <[25%nat := Z.of_nat idx]> ((Z.of_nat <$> take 25 cl) ++ drop 25 (dataSectors h))
              = Z.of_nat <$> take 26 cl).
    { assert (Lp : length (Z.of_nat <$> take 25 cl) = 25%nat)
        by (rewrite length_fmap, length_take; lia).
      pose proof (fill_step (Z.of_nat <$> take 25 cl) (dataSectors h) (Z.of_nat idx)) as Hf.
      rewrite Lp in Hf. rewrite Hf by lia.
      rewrite (drop_ge _ 26) by lia. rewrite app_nil_r.
      rewrite (take_S_r _ _ _ Hidx), fmap_app. done. }
    rewrite Ed.
    mstep by (apply lift_Ok, (arr_get_nat _ 25); rewrite list_lookup_fmap, lookup_take_lt, Hidx by lia;
      reflexivity).
    mstep by exact Ew. reflexivity. }
  splits.
  - split; [done|]. split; [congruence|]. rewrite B3, B2, B1.
    replace (take (S n) cl) with (take 25 cl ++ [idx] ++ take (n - 25) (drop 26 cl)).
    { rewrite !mark_all_app. done. }
    replace (S n) with (26 + (n - 25))%nat by lia. rewrite <- take_take_drop.
    rewrite (take_S_r _ 25 _ Hidx), <- app_assoc. done.
  - rewrite length_drop. lia.
  - eapply effect_ext; [by eapply effect_trans|]. intros t. unfold upd.
    case_decide; [done|]. apply F1.
Qed.

End Specs.

(** ** Deallocation *)

Section Dealloc.
Context `{E : Env} `{EO : !EnvOk E} `{R : SectorReader}.

(** Clearing the sectors of a header one after the other. *)
Lemma dealloc_loop (ds : list Z) fm n :
  wf fm -> (n <= length ds)%nat -> NoDup (take n ds) ->
  Forall (fun t => 0 <= t /\ bits fm !! Z.to_nat t = Some true) (take n ds) ->
  exists fm', for_range 0 (Z.of_nat n) (fun i =>
      s ← lift (arr_get ds i); t ← Test s; _ ← ASSERT t; Clear s) fm = Ok (tt, fm') /\
    wf fm' /\ numBits fm' = numBits fm /\
    forall k, bits fm' !! k =
      if decide (Z.of_nat k ∈ take n ds) then Some false else bits fm !! k.
Proof.
  intros Hw Hn Hd Hb. destruct (for_range_inv (fun i fm' => 0 <= i /\ wf fm' /\
      numBits fm' = numBits fm /\ forall k, bits fm' !! k =
        if decide (Z.of_nat k ∈ take (Z.to_nat i) ds) then Some false else bits fm !! k)
    0 (Z.of_nat n) (fun i => s ← lift (arr_get ds i); t ← Test s; _ ← ASSERT t; Clear s) fm)
    as (fm' & Es & _ & W & N & B).
  - lia.
  - splits; done.
  - intros i f1 Hi (Hi0 & W1 & N1 & B1). set (k := Z.to_nat i) in *.
    destruct (lookup_lt_is_Some_2 ds k) as [t Ht]; [lia|].
    assert (Htn : take n ds !! k = Some t) by (rewrite lookup_take_lt by lia; done).
    destruct (proj1 (Forall_lookup _ _) Hb k t Htn) as [Ht0 Ht1].
    assert (Hni : t ∉ take k ds).
    { intros (j & Hj)%list_elem_of_lookup. pose proof (lookup_lt_Some _ _ _ Hj) as Hl.
      rewrite length_take in Hl. rewrite lookup_take_lt in Hj by lia.
      assert (j = k); [|lia]. eapply (NoDup_lookup _ _ _ _ Hd); [|exact Htn].
      by rewrite lookup_take_lt by lia. }
    assert (T1 : bits f1 !! Z.to_nat t = Some true).
    { rewrite B1, Z2Nat.id, decide_False by done. done. }
    destruct (Clear_spec f1 (Z.to_nat t) W1) as (f2 & E2 & W2 & N2 & B2);
      [by eapply lookup_lt_Some|].
    pose proof (Test_spec f1 _ _ W1 T1) as ET. rewrite Z2Nat.id in E2, ET by done.
    exists f2. split.
    + replace i with (Z.of_nat k) by lia. mstep by (apply lift_Ok, arr_get_nat; exact Ht).
      mstep by exact ET. mstep. exact E2.
    + splits; [lia|done|congruence|]. intros k'. rewrite B2.
      replace (Z.to_nat (i + 1)) with (S k) by lia. rewrite (take_S_r _ _ _ Ht).
      destruct (decide (k' = Z.to_nat t)) as [->|Hne].
      * rewrite list_lookup_insert_eq by (by eapply lookup_lt_Some). rewrite Z2Nat.id by done.
        by rewrite decide_True by set_solver.
      * rewrite list_lookup_insert_ne, B1 by done.
        assert (Z.of_nat k' <> t) by lia. repeat case_decide; set_solver.
  - rewrite Nat2Z.id in B. by exists fm'.
Qed.

(** De-allocation of a header whose sectors are listed in it. *)
Lemma Deallocate_listed h fm n s :
  wf fm -> numSectors h = Z.of_nat n -> (n <= 26)%nat -> length (dataSectors h) = 26%nat ->
  NoDup (take n (dataSectors h)) ->
  Forall (fun t => 0 <= t /\ bits fm !! Z.to_nat t = Some true) (take n (dataSectors h)) ->
  exists fm2, Deallocate h fm s = Ok (fm2, s) /\ wf fm2 /\ numBits fm2 = numBits fm /\
    forall k, bits fm2 !! k =
      if decide (Z.of_nat k ∈ take n (dataSectors h)) then Some false else bits fm !! k.
Proof.
  intros Hw Hn H26 Hl Hd Hb. unfold Deallocate. rewrite Hn, NumDirect_eq.
  rewrite u32_small by (unfold is_uint; lia).
  destruct (Z.leb_spec (Z.of_nat n) 26); [|lia].
  destruct (dealloc_loop (dataSectors h) fm n) as (fm2 & E2 & H2); [done|lia|done|done|].
  exists fm2. split; [by mstep by (apply lift_Ok; exact E2)|done].
Qed.

Lemma mark_run_undo bs bs' j n :
  clear_run bs j n = true -> (j + n <= length bs)%nat ->
  (forall k, bs' !! k =
     if decide (j <= k < j + n)%nat then Some false else mark_run bs j n !! k) ->
  bs' = bs.
Proof.
  intros Hc Hl H. apply list_eq. intros k. rewrite H, lookup_mark_run by done.
  case_decide as Hk; [|done]. symmetry. by eapply clear_run_lookup.
Qed.

Lemma Deallocate_run h fm fm' j n s :
  wf fm -> numSectors h = Z.of_nat n -> (n <= 26)%nat -> length (dataSectors h) = 26%nat ->
  (j + n <= length (bits fm))%nat ->
  clear_run (bits fm) j n = true -> after fm fm' (mark_run (bits fm) j n) ->
  take n (dataSectors h) = seqZ (Z.of_nat j) (Z.of_nat n) ->
  exists fm2, Deallocate h fm' s = Ok (fm2, s) /\ after fm fm2 (bits fm).
Proof.
  intros Hw Hn H26 Hl Hj Hc (W & N & B) Ht.
  assert (Hin : forall t, t ∈ seqZ (Z.of_nat j) (Z.of_nat n) <->
    Z.of_nat j <= t < Z.of_nat j + Z.of_nat n) by (intros; by rewrite elem_of_seqZ).
  destruct (Deallocate_listed h fm' n s) as (fm2 & E2 & W2 & N2 & B2); try done;
    rewrite ?Ht; [apply NoDup_seqZ| |].
  - apply Forall_forall. intros t Hti. apply Hin in Hti. split; [lia|].
    rewrite B, lookup_mark_run by done. by rewrite decide_True by lia.
  - exists fm2. split; [done|]. split; [done|]. split; [congruence|].
    eapply mark_run_undo; [done|done|]. intros k. rewrite B2, Ht, B.
    pose proof (Hin (Z.of_nat k)). repeat case_decide; done || (exfalso; lia || naive_solver lia).
Qed.

End Dealloc.

Lemma clear_run_fits bs j n :
  clear_run bs j n = true -> (forall l, (l < j)%nat -> clear_run bs l n = false) ->
  (j + n <= length bs)%nat.
Proof.
  intros H Hmin. destruct n as [|n]; [|by apply clear_run_bound].
  destruct j as [|j]; [lia|]. by specialize (Hmin 0%nat ltac:(lia)).
Qed.

(** All outcomes of [Allocate] for a file that fits the direct table. *)
Lemma Allocate_small_cases `{E : Env} `{EO : !EnvOk E} `{R : SectorReader} `{RD : !ReadsDisk R}
    h fm fileSize s (n := sectors_for fileSize) :
  ready s -> good s -> wf fm -> numBits fm = NumSectors -> length (dataSectors h) = 26%nat ->
  0 <= fileSize -> (n <= 26)%nat ->
  (exists h' s', (count_clear (bits fm) < n)%nat /\ stamped h h' fileSize /\
     Allocate h fm fileSize s = Ok ((false, h', fm), s') /\ effect s s' (content s)) \/
  (exists j h' fm' s', (n <= count_clear (bits fm))%nat /\
     clear_run (bits fm) j n = true /\
     (forall l, (l < j)%nat -> clear_run (bits fm) l n = false) /\
     Allocate h fm fileSize s = Ok ((true, h', fm'), s') /\
     stamped h (set_dataSectors (dataSectors h) h') fileSize /\
     dataSectors h' = seqZ (Z.of_nat j) (Z.of_nat n) ++ drop n (dataSectors h) /\
     after fm fm' (mark_run (bits fm) j n) /\ effect s s' (content s)) \/
  ((n <= count_clear (bits fm))%nat /\ (forall j, clear_run (bits fm) j n = false) /\
   Allocate h fm fileSize s = Fault AssertFailure).
Proof.
  intros Hr Hg Hw Hnb Hl Hf Hn.
  destruct (Allocate_prefix h fm fileSize s Hr Hg Hw) as (h1 & s1 & St & Fx & ->).
  assert (Hns : numSectors h1 = Z.of_nat n) by (unfold n; rewrite <- sectors_for_Z by done; apply St).
  assert (Hds : dataSectors h1 = dataSectors h) by apply St.
  rewrite Hns, NumDirect_eq. rewrite u32_small by (unfold is_uint; lia).
  destruct (Z.ltb_spec (Z.of_nat (count_clear (bits fm))) (Z.of_nat n)) as [Hlt|Hge].
  { left. exists h1, s1. splits; try done. lia. }
  right. destruct (Z.leb_spec (Z.of_nat n) 26); [|lia].
  destruct (Allocate_direct_spec h1 fm n) as [(j & fm' & Hc & Hmin & Ed & Ha)|(Hno & Ed)];
    try done; [rewrite Hnb; done|rewrite Hds, Hl; done|lia| |].
  - left. eexists j, _, fm', s1. split; [lia|]. split; [done|]. split; [done|].
    split; [mstep by (apply lift_Ok; exact Ed); reflexivity|]. cbn [dataSectors set_dataSectors].
    rewrite Hds. splits; try done.
    destruct St as (? & ? & ? & ? & ? & ? & ?). unfold stamped. cbn. splits; done.
  - right. split; [lia|]. split; [done|]. unfold mbind, M_bind, lift. by rewrite Ed.
Qed.

(** ** Properties *)

(** allocation of a file of at most [NumDirect] = 26 sectors.  [Allocate]
    returns FALSE and leaves the free map alone when there are fewer clear
    bits than sectors; otherwise it takes the lowest contiguous run that is
    large enough, marks exactly that run, lists it in the header, and returns
    TRUE; when the free sectors suffice but are not contiguous, it aborts the
    kernel on an assertion.  The disk contents do not change. *)
Theorem header_Allocate_direct `{E : Env} `{EO : !EnvOk E} `{R : SectorReader}
    `{RD : !ReadsDisk R} h fm fileSize s (n := sectors_for fileSize) :
  ready s -> good s -> wf fm -> numBits fm = NumSectors -> length (dataSectors h) = 26%nat ->
  0 <= fileSize -> (n <= 26)%nat ->
  (exists h' s', (count_clear (bits fm) < n)%nat /\ stamped h h' fileSize /\
     Allocate h fm fileSize s = Ok ((false, h', fm), s') /\ effect s s' (content s)) \/
  (exists j h' fm' s', (n <= count_clear (bits fm))%nat /\
     clear_run (bits fm) j n = true /\
     (forall l, (l < j)%nat -> clear_run (bits fm) l n = false) /\
     Allocate h fm fileSize s = Ok ((true, h', fm'), s') /\
     stamped h (set_dataSectors (dataSectors h) h') fileSize /\
     dataSectors h' = seqZ (Z.of_nat j) (Z.of_nat n) ++ drop n (dataSectors h) /\
     after fm fm' (mark_run (bits fm) j n) /\ effect s s' (content s)) \/
  ((n <= count_clear (bits fm))%nat /\ (forall j, clear_run (bits fm) j n = false) /\
   Allocate h fm fileSize s = Fault AssertFailure).
Proof. by apply Allocate_small_cases. Qed.

(** [Deallocate] undoes [Allocate]: after a successful allocation of at
    most 26 sectors, de-allocating the header returns (no assertion fails)
    with exactly the free map that [Allocate] was given. *)
Theorem header_Deallocate_undoes_Allocate `{E : Env} `{EO : !EnvOk E} `{R : SectorReader}
    `{RD : !ReadsDisk R} h fm fileSize s h' fm' s' :
  ready s -> good s -> wf fm -> numBits fm = NumSectors -> length (dataSectors h) = 26%nat ->
  0 <= fileSize <= 26 * SectorSize ->
  Allocate h fm fileSize s = Ok ((true, h', fm'), s') ->
  exists fm2, Deallocate h' fm' s' = Ok (fm2, s') /\ after fm fm2 (bits fm).
Proof.
  intros Hr Hg Hw Hnb Hl [Hf Hf26] Ea.
  assert (H26 : (sectors_for fileSize <= 26)%nat).
  { pose proof (proj2 (divRoundUp_spec fileSize SectorSize 26 Hf ltac:(unfold SectorSize; lia)) Hf26).
    unfold sectors_for. lia. }
  destruct (Allocate_small_cases h fm fileSize s Hr Hg Hw Hnb Hl Hf H26)
    as [(h1 & s1 & _ & _ & Ea' & _)|[(j & h1 & fm1 & s1 & Hn & Hc & Hmin & Ea' & St & Hd & Ha & _)
       |(_ & _ & Ea')]]; rewrite Ea in Ea'; try done.
  injection Ea' as <- <- <-.
  pose proof (clear_run_fits _ _ _ Hc Hmin) as Hfit.
  apply (Deallocate_run h' fm fm' j (sectors_for fileSize) s'); try done.
  - rewrite <- sectors_for_Z by done. apply St.
  - rewrite Hd, length_app, length_seqZ, length_drop. lia.
  - rewrite Hd, take_app_length'; [done|]. rewrite length_seqZ. lia.
Qed.

(** a header survives its trip to the disk: after [WriteBack] of a
    well-formed header to a valid sector, [FetchFrom] of that sector returns
    the same header up to the visit time, with the sector recorded in it. *)
Theorem header_WriteBack_FetchFrom `{E : Env} `{EO : !EnvOk E} `{R : SectorReader}
    `{RD : !ReadsDisk R} `{SW : !SeesWrites R} h sec s :
  ready s -> good s -> header_wf h -> 0 <= sec < NumSectors ->
  exists h' h2 s', (_ ← WriteBack h sec; FetchFrom sec) s = Ok (h', s') /\
    h' = set_lastVistTime (lastVistTime h') h2 /\
    h2 = set_hdrSector sec (set_lastModifyTime (lastModifyTime h') h) /\
    header_wf h' /\ content s' sec = header_bytes h2.
Proof.
  intros Hr Hg Hw Hs.
  destruct (WriteBack_spec h sec s Hr Hg Hs (hw_len h Hw)) as (t & s1 & E1 & T1 & F1).
  set (h2 := set_hdrSector sec (set_lastModifyTime t h)) in *.
  destruct (FetchFrom_spec sec s1) as (t2 & s2 & E2 & T2 & F2); [apply F1..|done|].
  assert (C1 : content s1 sec = header_bytes h2).
  { rewrite (proj2 (proj2 (proj2 F1))). unfold upd. by rewrite decide_True. }
  assert (W2 : header_wf h2) by (by apply written_back_wf).
  rewrite C1, header_roundtrip in E2 by done.
  exists (set_lastVistTime t2 h2), h2, s2. splits; try done.
  - by mstep by exact E1.
  - destruct W2. by constructor.
  - rewrite (proj2 (proj2 (proj2 F2))). done.
Qed.

(** files with an index sector lose high sector numbers.  [Allocate] of 27
    to 57 sectors, with one more clear bit for the index, takes the lowest
    clear sectors [cl]: blocks 0 to 24 directly, then the index sector, then
    the rest.  Asked for block [k] afterwards, [ByteToSector] is right for
    [k < 25]; for the others it returns the low byte of the sector number as a
    signed char: the right sector if its number is below 128, and a wrong one
    otherwise. *)
Theorem header_indirect_low_byte `{E : Env} `{EO : !EnvOk E} `{R : SectorReader}
    `{RD : !ReadsDisk R} `{SW : !SeesWrites R} h fm fileSize s (n := sectors_for fileSize) :
  ready s -> good s -> wf fm -> numBits fm = NumSectors -> length (dataSectors h) = 26%nat ->
  0 <= fileSize -> (26 < n <= 57)%nat -> (n < count_clear (bits fm))%nat ->
  let cl := clear_list (bits fm) in
  exists h' fm' s', Allocate h fm fileSize s = Ok ((true, h', fm'), s') /\
    after fm fm' (mark_all (bits fm) (take (S n) cl)) /\
    forall k x, (k < n)%nat -> cl !! (if decide (k < 25)%nat then k else S k) = Some x ->
      exists y s2, ByteToSector h' (Z.of_nat k * SectorSize) s' = Ok (y, s2) /\
        (y = Z.of_nat x <-> (k < 25 \/ x < 128)%nat).
Proof.
  intros Hr Hg Hw Hnb Hl Hf Hn Hc cl.
  destruct (Allocate_prefix h fm fileSize s Hr Hg Hw) as (h1 & s1 & St & Fx & ->).
  assert (Hns : numSectors h1 = Z.of_nat n) by (unfold n; rewrite <- sectors_for_Z by done; apply St).
  assert (Hds : length (dataSectors h1) = 26%nat)
    by (rewrite <- Hl; f_equal; apply St).
  destruct (Allocate_indirect_spec h1 fm n s1) as (fm' & s2 & rest & idx & Hidx & Ea & Ha & Hrest & F2);
    try done; try apply Fx. fold cl in Hidx, Ea, Ha, F2.
  rewrite Hns, NumDirect_eq. rewrite u32_small by (unfold is_uint; lia).
  destruct (Z.ltb_spec (Z.of_nat (count_clear (bits fm))) (Z.of_nat n)); [lia|].
  destruct (Z.leb_spec (Z.of_nat n) 26); [lia|].
  eexists _, fm', s2. split; [mstep by exact Ea; reflexivity|]. split; [done|].
  cbn [fst]. intros k x Hk Hx. case_decide as H25.
  - exists (Z.of_nat x), s2. split; [|naive_solver]. apply ByteToSector_direct; [|done].
    cbn. by rewrite list_lookup_fmap, lookup_take_lt, Hx by lia.
  - assert (Hv : forall y, y ∈ cl -> (y < 1024)%nat).
    { intros y Hy. apply elem_of_clear_list, lookup_lt_Some in Hy.
      rewrite length_bits, Hnb in Hy. exact Hy. }
    pose proof (Hv idx (list_elem_of_lookup_2 _ _ _ Hidx)).
    pose proof (Hv x (list_elem_of_lookup_2 _ _ _ Hx)) as Hx1024.
    destruct (ByteToSector_indirect (set_dataSectors (Z.of_nat <$> take 26 cl) h1) k
      (Z.of_nat idx) (u8 (Z.of_nat x)) s2) as (s3 & E3 & _).
    + apply F2.
    + apply F2.
    + cbn. by rewrite list_lookup_fmap, lookup_take_lt, Hidx by lia.
    + unfold NumSectors, SectorsPerTrack, NumTracks. lia.
    + lia.
    + rewrite (proj2 (proj2 (proj2 F2))). unfold upd. rewrite decide_True by done.
      apply ints_bytes_low. rewrite lookup_app_l
        by (rewrite length_fmap, length_take, length_drop; unfold cl, clear_list;
            rewrite length_clear_from; lia).
      rewrite list_lookup_fmap, lookup_take_lt, lookup_drop by lia.
      replace (26 + (k - 25))%nat with (S k) by lia. by rewrite Hx.
    + exists (schar (u8 (Z.of_nat x))), s3. split; [done|].
      assert (schar (u8 (Z.of_nat x)) = Z.of_nat x <-> (x < 128)%nat); [|naive_solver lia].
      unfold u8. pose proof (Z.mod_pos_bound (Z.of_nat x) 256 ltac:(lia)).
      destruct (decide (Z.of_nat x mod 256 < 128)).
      * rewrite schar_small by lia. split; [lia|]. intros. by rewrite Z.mod_small by lia.
      * rewrite schar_big by lia. split; [lia|]. intros.
        rewrite Z.mod_small in * by lia. lia.
Qed.

(** [ExtendFile] allocates one sector only.  When a file of [pre] sectors
    has to grow to [new > pre] sectors and enough are free, [ExtendFile]
    records the new length and sector count and returns TRUE, but has marked a
    single new sector; when the direct table is full already, it writes past
    the end of the table. *)
Theorem header_ExtendFile_one_sector h fm bytes :
  wf fm -> length (dataSectors h) = 26%nat -> 0 <= numSectors h ->
  let new := divRoundUp (numBytes h + bytes) SectorSize in
  numSectors h < new -> new - numSectors h <= Z.of_nat (count_clear (bits fm)) ->
  exists k, find_clear (bits fm) = Some k /\
    if decide (numSectors h < 26) then
      exists fm', ExtendFile h fm bytes = Ok (true,
          mkHeader (createTime h) (lastVistTime h) (lastModifyTime h) (hdrSector h)
            (numBytes h + bytes) new
            (<[Z.to_nat (numSectors h) := Z.of_nat k]> (dataSectors h)), fm') /\
        after fm fm' (<[k := true]> (bits fm))
    else ExtendFile h fm bytes = Fault BadAccess.
Proof.
  intros Hw Hl H0 new Hnew Hc.
  destruct (find_clear (bits fm)) as [k|] eqn:Ek; [|apply find_clear_None in Ek; lia].
  exists k. split; [done|]. pose proof (Find_spec fm Hw) as HF. rewrite Ek in HF.
  destruct HF as (fm' & EF & Ha). unfold ExtendFile. cbv zeta. fold new.
  destruct (Z.eqb_spec new (numSectors h)); [lia|].
  rewrite (NumClear_spec fm Hw). cbn [mbind outcome_bind fst snd].
  destruct (Z.ltb_spec (Z.of_nat (count_clear (bits fm))) (new - numSectors h)); [lia|].
  destruct (Z.ltb_spec (numSectors h) new); [|lia].
  rewrite EF. cbn [mbind outcome_bind fst snd]. unfold put_sector.
  case_decide as H26.
  - exists fm'. split; [|done]. rewrite arr_set_in by lia. done.
  - unfold arr_set. rewrite decide_False by lia. done.
Qed.

(** ** Concrete instances *)

Definition demo_free : BitMap := mkBitMap 1024 32 (replicate 32 0).
Definition demo_header : FileHeader := mkHeader 0 0 0 0 0 0 (replicate 26 0).

Lemma demo_free_wf : wf demo_free.
Proof.
  constructor; [done..|]. cbn [bm_map demo_free]. apply Forall_replicate.
  unfold is_uint. lia.
Qed.

Lemma demo_free_bits : bits demo_free = replicate 1024 false.
Proof. by vm_compute. Qed.

Lemma demo_free_count : (sectors_for 300 <= count_clear (bits demo_free))%nat.
Proof. vm_compute. lia. Qed.

Lemma demo_free_run : clear_run (bits demo_free) 0 (sectors_for 300) = true.
Proof. by vm_compute. Qed.

Lemma demo_header_wf : header_wf demo_header.
Proof.
  constructor; cbn [createTime lastVistTime lastModifyTime hdrSector numBytes numSectors
    dataSectors demo_header]; try (unfold is_int; lia); [done|].
  apply Forall_replicate. unfold is_int. lia.
Qed.

Lemma fresh_ready_coherent :
  exists s, SynchDisk_SynchDisk empty_cache None = Ok s /\ ready s /\ coherent s.
Proof.
  destruct (SynchDisk_SynchDisk_fresh empty_cache eq_refl) as (s & Es & Rs & Cs & _).
  exists s. splits; [done..|]. unfold coherent. rewrite Cs. repeat constructor; done.
Qed.

Lemma header_Allocate_direct_witness :
  exists s h' fm' s', SynchDisk_SynchDisk empty_cache None = Ok s /\
    @Allocate zero_env demo_header demo_free 300 s = Ok ((true, h', fm'), s') /\
    dataSectors h' = seqZ 0 3 ++ replicate 23 0.
Proof.
  destruct fresh_ready_coherent as (s & Es & Rs & Cs).
  destruct (@header_Allocate_direct zero_env zero_env_ok ReadSector
    (@cached_reads_disk zero_env zero_env_ok) demo_header demo_free 300 s Rs Cs demo_free_wf
    eq_refl eq_refl ltac:(lia) ltac:(vm_compute; lia))
    as [(? & ? & H & _)|[(j & h' & fm' & s' & _ & _ & Hmin & Ea & _ & Hd & _)|(_ & H & _)]].
  - exfalso. pose proof demo_free_count. lia.
  - exists s, h', fm', s'. splits; [done..|].
    assert (j = 0)%nat as ->; [|exact Hd].
    destruct j as [|j]; [done|]. specialize (Hmin 0%nat ltac:(lia)).
    rewrite demo_free_run in Hmin. discriminate Hmin.
  - specialize (H 0%nat). rewrite demo_free_run in H. discriminate H.
Defined.

Lemma demo_Allocate s :
  ready s -> exists h' fm' s',
    @Allocate zero_env demo_header demo_free 300 s = Ok ((true, h', fm'), s').
Proof.
  intros Rs. destruct (@Allocate_small_cases zero_env zero_env_ok ReadSector_uncached
    (@uncached_reads_disk zero_env zero_env_ok) demo_header demo_free 300 s Rs I demo_free_wf
    eq_refl eq_refl ltac:(lia) ltac:(vm_compute; lia))
    as [(? & ? & H & _)|[(j & h' & fm' & s' & _ & _ & _ & Ea & _)|(_ & H & _)]].
  - exfalso. pose proof demo_free_count. lia.
  - by exists h', fm', s'.
  - specialize (H 0%nat). rewrite demo_free_run in H. discriminate H.
Qed.

Lemma header_Deallocate_undoes_Allocate_witness :
  exists s h' fm' s' fm2, SynchDisk_SynchDisk empty_cache None = Ok s /\
    @Allocate zero_env demo_header demo_free 300 s = Ok ((true, h', fm'), s') /\
    @Deallocate (@ReadSector_uncached zero_env) h' fm' s' = Ok (fm2, s') /\
    bits fm2 = replicate 1024 false.
Proof.
  destruct fresh_ready_coherent as (s & Es & Rs & Cs).
  destruct (demo_Allocate s Rs) as (h' & fm' & s' & Ea).
  destruct (@header_Deallocate_undoes_Allocate zero_env zero_env_ok ReadSector_uncached
    (@uncached_reads_disk zero_env zero_env_ok) demo_header demo_free 300 s h' fm' s'
    Rs I demo_free_wf eq_refl eq_refl ltac:(unfold SectorSize; lia) Ea) as (fm2 & Ed & _ & _ & B).
  exists s, h', fm', s', fm2. splits; [done..|]. by rewrite B, demo_free_bits.
Defined.

Lemma header_WriteBack_FetchFrom_witness :
  exists s h' s', SynchDisk_SynchDisk empty_cache None = Ok s /\
    (_ ← @WriteBack zero_env demo_header 7; @FetchFrom zero_env (@ReadSector_uncached zero_env) 7) s
      = Ok (h', s') /\ hdrSector h' = 7.
Proof.
  destruct fresh_ready_coherent as (s & Es & Rs & Cs).
  destruct (@header_WriteBack_FetchFrom zero_env zero_env_ok ReadSector_uncached
    (@uncached_reads_disk zero_env zero_env_ok) (@uncached_sees_writes zero_env zero_env_ok)
    demo_header 7 s Rs I demo_header_wf) as (h' & h2 & s' & Er & H1 & H2 & _).
  { unfold NumSectors, SectorsPerTrack, NumTracks. lia. }
  exists s, h', s'. splits; try done. rewrite H1, H2. done.
Defined.

(** A disk whose first 100 sectors are in use. *)
Definition demo_used : BitMap :=
  mkBitMap 1024 32 (replicate 3 4294967295 ++ [15] ++ replicate 28 0).

Lemma demo_used_wf : wf demo_used.
Proof.
  constructor; [done..|]. cbn [bm_map demo_used]. apply Forall_app. split.
  - apply Forall_replicate. unfold is_uint. lia.
  - constructor; [unfold is_uint; lia|]. apply Forall_replicate. unfold is_uint. lia.
Qed.

(** Block 30 of a 30-sector file put on that disk is in sector 131, which
    [ByteToSector] reads back as something else. *)
Lemma header_indirect_low_byte_witness :
  exists s h' fm' s' y s2, SynchDisk_SynchDisk empty_cache None = Ok s /\
    @Allocate zero_env demo_header demo_used 5120 s = Ok ((true, h', fm'), s') /\
    @ByteToSector (@ReadSector_uncached zero_env) h' (30 * SectorSize) s' = Ok (y, s2) /\
    y <> 131.
Proof.
  destruct fresh_ready_coherent as (s & Es & Rs & Cs).
  destruct (@header_indirect_low_byte zero_env zero_env_ok ReadSector_uncached
    (@uncached_reads_disk zero_env zero_env_ok) (@uncached_sees_writes zero_env zero_env_ok)
    demo_header demo_used 5120 s Rs I demo_used_wf eq_refl eq_refl ltac:(lia)
    ltac:(vm_compute; lia) ltac:(vm_compute; lia)) as (h' & fm' & s' & Ea & _ & Hk).
  destruct (Hk 30%nat 131%nat) as (y & s2 & Eb & Hy); [vm_compute; lia|by vm_compute|].
  exists s, h', fm', s', y, s2. split; [exact Es|]. split; [exact Ea|]. split; [exact Eb|].
  intros Hy'. apply Hy in Hy' as [?|?]; lia.
Defined.

Lemma header_ExtendFile_one_sector_witness :
  exists fm', ExtendFile demo_header demo_used 500 = Ok (true,
    mkHeader 0 0 0 0 500 4 (100 :: replicate 25 0), fm').
Proof.
  destruct (header_ExtendFile_one_sector demo_header demo_used 500 demo_used_wf eq_refl)
    as (k & Hk & H); [done|done|vm_compute; discriminate|].
  assert (k = 100)%nat as -> by (vm_compute in Hk; congruence).
  cbn [numSectors demo_header] in H. rewrite decide_True in H by done.
  destruct H as (fm' & -> & _). by exists fm'.
Defined.
