(* ===== verification/Directory.v ===== *)
(** * filesys/directory.h, filesys/directory.cc: the directory table

    The table is an array of 20-byte entries, kept with their padding bytes
    because whole entries travel to the disk.  File names are byte lists; a
    name given by a caller ends at its first zero byte or at the end of the
    list.  [FetchFrom] and [WriteBack] are in OpenFile.v, [Print] in
    FileSystem.v. *)
From S2P Require Import Prelude CInt.
From Stdlib Require Import ZArith Lia List Bool.
From stdpp Require Import base tactics list numbers gmap.
Local Open Scope Z_scope.

Definition FileNameMaxLen : nat := 9.

Record DirectoryEntry := mkEntry {
  inUse : Z;
  pad1 : list Z;
  entry_sector : Z;
  name : list Z;
  type : Z;
  pad2 : Z }.

Definition set_inUse v e :=
  mkEntry v (pad1 e) (entry_sector e) (name e) (type e) (pad2 e).

Record Directory := mkDirectory { tableSize : Z; table : list DirectoryEntry }.

(** ** The memory image of the table *)

Definition entry_bytes (e : DirectoryEntry) : list Z :=
  [inUse e] ++ pad1 e ++ int_bytes (entry_sector e) ++ name e ++ [type e; pad2 e].

Definition bytes_entry (b : list Z) : DirectoryEntry :=
  mkEntry (nth 0 b 0) (take 3 (drop 1 b))
    (int_of_bytes (nth 4 b 0) (nth 5 b 0) (nth 6 b 0) (nth 7 b 0))
    (take 10 (drop 8 b)) (nth 18 b 0) (nth 19 b 0).

Definition table_bytes (t : list DirectoryEntry) : list Z := concat (map entry_bytes t).

Fixpoint bytes_table (n : nat) (b : list Z) : list DirectoryEntry :=
  match n with
  | O => []
  | S n' => bytes_entry (take 20 b) :: bytes_table n' (drop 20 b)
  end.

(** ** C strings *)

(** The characters before the first zero byte. *)
Fixpoint until_nul (l : list Z) : list Z :=
  match l with
  | [] => []
  | c :: l' => if c =? 0 then [] else c :: until_nul l'
  end.

(** [!strncmp(a, b, n)]; past its end a string reads as zero. *)
Fixpoint strneq (n : nat) (a b : list Z) : bool :=
  match n with
  | O => true
  | S n' =>
    let x := hd 0 a in let y := hd 0 b in
    if x =? y then (if x =? 0 then true else strneq n' (tl a) (tl b)) else false
  end.

(** [strncpy(dst, src, n)]: [n] bytes are written, zero-padded. *)
Definition strncpy (dst src : list Z) (n : nat) : list Z :=
  take n (until_nul src ++ replicate n 0) ++ drop n dst.

(** ** Operations *)

(** [Directory::Directory(size)]; [junk] is the uninitialised table. *)
Definition Directory_Directory (junk : list DirectoryEntry) (size : Z) : outcome Directory :=
  x ← for_range 0 size (fun i t =>
        e ← arr_get t i; t' ← arr_set t i (set_inUse 0 e); Ok (tt, t')) junk;
  Ok (mkDirectory size x.2).

(** The loop of [FindIndex]. *)
Fixpoint FindIndex_loop (t : list DirectoryEntry) (n : nat) (i : Z) (nm : list Z) :
    outcome Z :=
  match n with
  | O => Ok (-1)
  | S n' =>
    e ← arr_get t i;
    if negb (inUse e =? 0) && strneq FileNameMaxLen (name e) nm then Ok i
    else FindIndex_loop t n' (i + 1) nm
  end.

Definition FindIndex (d : Directory) (nm : list Z) : outcome Z :=
  FindIndex_loop (table d) (Z.to_nat (tableSize d)) 0 nm.

Definition Find (d : Directory) (nm : list Z) : outcome Z :=
  i ← FindIndex d nm;
  if negb (i =? -1) then e ← arr_get (table d) i; Ok (entry_sector e)
  else Ok (-1).

(** The loop of [Add]: the first entry that is not in use is taken. *)
Fixpoint Add_loop (t : list DirectoryEntry) (n : nat) (i : Z) (nm : list Z)
    (newSector : Z) : outcome (bool * list DirectoryEntry) :=
  match n with
  | O => Ok (false, t)
  | S n' =>
    e ← arr_get t i;
    if inUse e =? 0 then
      t' ← arr_set t i (mkEntry 1 (pad1 e) newSector
             (strncpy (name e) nm FileNameMaxLen) 0 (pad2 e));
      Ok (true, t')
    else Add_loop t n' (i + 1) nm newSector
  end.

Definition Add (nm : list Z) (newSector : Z) : M Directory bool := fun d =>
  i ← FindIndex d nm;
  if negb (i =? -1) then Ok (false, d)
  else
    r ← Add_loop (table d) (Z.to_nat (tableSize d)) 0 nm newSector;
    Ok (r.1, mkDirectory (tableSize d) r.2).

Definition Remove (nm : list Z) : M Directory bool := fun d =>
  i ← FindIndex d nm;
  if i =? -1 then Ok (false, d)
  else
    e ← arr_get (table d) i;
    t ← arr_set (table d) i (set_inUse 0 e);
    Ok (true, mkDirectory (tableSize d) t).

(** [List]: the strings printed.  [printf] reads from the start of the name to
    the next zero byte of the table's memory. *)
Fixpoint List_loop (t : list DirectoryEntry) (n : nat) (i : Z) : outcome (list (list Z)) :=
  match n with
  | O => Ok []
  | S n' =>
    e ← arr_get t i;
    r ← List_loop t n' (i + 1);
    Ok (if inUse e =? 0 then r
        else until_nul (drop (Z.to_nat (20 * i + 8)) (table_bytes t)) :: r)
  end.

Definition List (d : Directory) : outcome (list (list Z)) :=
  List_loop (table d) (Z.to_nat (tableSize d)) 0.

(** ** Names as keys *)

(** Two names are the same to the directory when their first nine characters
    are. *)
Definition key (nm : list Z) : list Z := take FileNameMaxLen (until_nul nm).

Lemma strneq_take n a b :
  strneq n a b = bool_decide (take n (until_nul a) = take n (until_nul b)).
Proof.
  revert a b. induction n as [|n IH]; intros a b; [done|].
  assert (T : forall (P : Prop) `{Decision P}, P -> true = bool_decide P)
    by (intros; by rewrite bool_decide_true).
  assert (F : forall (P : Prop) `{Decision P}, ~ P -> false = bool_decide P)
    by (intros; by rewrite bool_decide_false).
  destruct a as [|x a], b as [|y b]; cbn [strneq hd tl until_nul].
  - by apply T.
  - destruct (Z.eqb_spec 0 y) as [<-|H]; [by apply T|].
    destruct (Z.eqb_spec y 0); [lia|]. by apply F.
  - destruct (Z.eqb_spec x 0) as [->|H]; [by apply T|by apply F].
  - destruct (Z.eqb_spec x y) as [<-|Hxy].
    + destruct (Z.eqb_spec x 0); [by apply T|].
      rewrite IH. apply bool_decide_ext. cbn. split; [by intros ->|by intros [=]].
    + apply F. destruct (Z.eqb_spec x 0), (Z.eqb_spec y 0); cbn; try done; try lia. congruence.
Qed.

Lemma strneq_key a b : strneq FileNameMaxLen a b = bool_decide (key a = key b).
Proof. apply strneq_take. Qed.

Lemma until_nul_nonzero l : Forall (fun c => c <> 0) (until_nul l).
Proof.
  induction l as [|c l IH]; cbn; [constructor|].
  destruct (Z.eqb_spec c 0); by constructor.
Qed.

Lemma until_nul_id l r : Forall (fun c => c <> 0) l -> until_nul (l ++ 0 :: r) = l.
Proof.
  induction 1 as [|c l Hc _ IH]; [done|]. cbn. rewrite IH.
  by destruct (Z.eqb_spec c 0).
Qed.

Lemma until_nul_app l r :
  Forall (fun c => c <> 0) l -> until_nul (l ++ r) = l ++ until_nul r.
Proof.
  induction 1 as [|c l Hc _ IH]; [done|]. cbn. rewrite IH.
  by destruct (Z.eqb_spec c 0).
Qed.

(** A stored name has the key of the name it was copied from. *)
Lemma key_strncpy dst src : key (strncpy dst src FileNameMaxLen) = key src.
Proof.
  unfold key, strncpy, FileNameMaxLen. pose proof (until_nul_nonzero src) as Hz.
  set (u := until_nul src) in *. destruct (decide (9 <= length u)%nat) as [H|H].
  - rewrite take_app_le by done. rewrite until_nul_app by (by apply Forall_take).
    rewrite take_app_le by (rewrite length_take; lia). by rewrite take_take.
  - rewrite take_app_ge by lia. rewrite <- app_assoc.
    destruct (9 - length u)%nat as [|m] eqn:Em; [lia|].
    cbn [take replicate app]. rewrite until_nul_id by done. done.
Qed.

Lemma length_strncpy dst src :
  length dst = 10%nat -> length (strncpy dst src FileNameMaxLen) = 10%nat.
Proof.
  intros H. unfold strncpy, FileNameMaxLen.
  rewrite length_app, length_take, length_app, length_replicate, length_drop, H. lia.
Qed.

(** ** The directory as a finite map *)

Definition unused (e : DirectoryEntry) : Prop := inUse e = 0.
Definition holds (k : list Z) (e : DirectoryEntry) : Prop := inUse e <> 0 /\ key (name e) = k.

#[global] Instance unused_dec e : Decision (unused e).
Proof. unfold unused. apply _. Defined.
#[global] Instance holds_dec k e : Decision (holds k e).
Proof. unfold holds. apply _. Defined.

(** [t] represents the map [m], with [free] entries left: no two entries in
    use have the same key. *)
Record represents (t : list DirectoryEntry) (m : gmap (list Z) Z) (free : nat) : Prop := {
  rp_uniq : forall i j e e' k, t !! i = Some e -> t !! j = Some e' ->
    holds k e -> holds k e' -> i = j;
  rp_map : forall k v, m !! k = Some v <->
    exists i e, t !! i = Some e /\ holds k e /\ entry_sector e = v;
  rp_free : length (filter unused t) = free }.

Lemma FindIndex_loop_spec pre suf nm :
  FindIndex_loop (pre ++ suf) (length suf) (Z.of_nat (length pre)) nm =
  Ok (match list_find (holds (key nm)) suf with
      | Some (i, _) => Z.of_nat (length pre + i)
      | None => -1
      end).
Proof.
  revert pre. induction suf as [|e suf IH]; intros pre; [done|].
  cbn [FindIndex_loop length].
  rewrite (arr_get_nat _ (length pre) e) by (by apply list_lookup_middle).
  cbn [mbind outcome_bind]. rewrite strneq_key. cbn [list_find].
  replace (negb (inUse e =? 0) && bool_decide (key (name e) = key nm))
    with (bool_decide (holds (key nm) e)).
  - case_bool_decide as H; [rewrite decide_True by done|rewrite decide_False by done].
    + f_equal. lia.
    + specialize (IH (pre ++ [e])). rewrite <- app_assoc, length_app in IH. cbn in IH.
      replace (Z.of_nat (length pre) + 1) with (Z.of_nat (length pre + 1)) by lia.
      rewrite IH. destruct (list_find _ suf) as [[i x]|]; cbn; f_equal. lia.
  - apply eq_true_iff_eq. rewrite bool_decide_eq_true, andb_true_iff, negb_true_iff, Z.eqb_neq,
      bool_decide_eq_true. done.
Qed.

Lemma FindIndex_spec d nm :
  tableSize d = Z.of_nat (length (table d)) ->
  FindIndex d nm =
  Ok (match list_find (holds (key nm)) (table d) with
      | Some (i, _) => Z.of_nat i
      | None => -1
      end).
Proof.
  intros H. unfold FindIndex. rewrite H, Nat2Z.id.
  by apply (FindIndex_loop_spec []).
Qed.

Lemma Add_loop_spec pre suf nm sec :
  Add_loop (pre ++ suf) (length suf) (Z.of_nat (length pre)) nm sec =
  Ok (match list_find unused suf with
      | Some (i, e) => (true, <[(length pre + i)%nat :=
            mkEntry 1 (pad1 e) sec (strncpy (name e) nm FileNameMaxLen) 0 (pad2 e)]> (pre ++ suf))
      | None => (false, pre ++ suf)
      end).
Proof.
  revert pre. induction suf as [|e suf IH]; intros pre; [done|].
  cbn [Add_loop length].
  rewrite (arr_get_nat _ (length pre) e) by (by apply list_lookup_middle).
  cbn [mbind outcome_bind list_find]. destruct (Z.eqb_spec (inUse e) 0) as [H|H].
  - rewrite decide_True by done.
    rewrite arr_set_nat by (rewrite length_app; cbn; lia). cbn. by rewrite Nat.add_0_r.
  - rewrite decide_False by done.
    specialize (IH (pre ++ [e])). rewrite <- app_assoc, length_app in IH. cbn in IH.
    replace (Z.of_nat (length pre) + 1) with (Z.of_nat (length pre + 1)) by lia.
    rewrite IH. destruct (list_find _ suf) as [[i x]|]; cbn; [|done].
    by replace (length pre + 1 + i)%nat with (length pre + S i)%nat by lia.
Qed.

Lemma filter_insert (P : DirectoryEntry -> Prop) `{!forall e, Decision (P e)}
    (t : list DirectoryEntry) i e e' :
  t !! i = Some e ->
  (length (filter P (<[i := e']> t)) + (if decide (P e) then 1 else 0) =
   length (filter P t) + (if decide (P e') then 1 else 0))%nat.
Proof.
  intros Hi. rewrite insert_take_drop by (by eapply lookup_lt_Some).
  rewrite <- (take_drop_middle t i e Hi) at 3.
  rewrite !filter_app, !length_app, !filter_cons.
  repeat case_decide; cbn; lia.
Qed.

Lemma no_unused t : list_find unused t = None <-> length (filter unused t) = 0%nat.
Proof.
  induction t as [|e t IH]; [done|]. cbn [list_find]. case_decide as H.
  - by rewrite filter_cons_True.
  - rewrite filter_cons_False by done. rewrite <- IH. by destruct (list_find unused t) as [[]|].
Qed.

(** ** Each operation against the map *)

Section Ops.
Context (d : Directory) (m : gmap (list Z) Z) (free : nat).
Hypothesis Hsize : tableSize d = Z.of_nat (length (table d)).
Hypothesis Hrep : represents (table d) m free.

Lemma find_none nm :
  list_find (holds (key nm)) (table d) = None <-> m !! key nm = None.
Proof.
  rewrite list_find_None, Forall_lookup. split.
  - intros H. destruct (m !! key nm) as [v|] eqn:E; [|done].
    apply (rp_map _ _ _ Hrep) in E as (i & e & Hi & Hh & _). by destruct (H i e Hi).
  - intros H i e Hi Hh.
    assert (m !! key nm = Some (entry_sector e)); [|congruence].
    apply (rp_map _ _ _ Hrep). by exists i, e.
Qed.

Lemma find_some nm i e :
  list_find (holds (key nm)) (table d) = Some (i, e) -> m !! key nm = Some (entry_sector e).
Proof.
  intros H. apply list_find_Some in H as (Hi & Hh & _).
  apply (rp_map _ _ _ Hrep). by exists i, e.
Qed.

Lemma Find_map nm : Find d nm = Ok (default (-1) (m !! key nm)).
Proof.
  unfold Find. rewrite (FindIndex_spec d nm Hsize). cbn [mbind outcome_bind].
  destruct (list_find _ _) as [[i e]|] eqn:E.
  - rewrite (find_some _ _ _ E). destruct (Z.eqb_spec (Z.of_nat i) (-1)); [lia|]. cbn [negb].
    apply list_find_Some in E as (Hi & _). by rewrite (arr_get_nat _ _ _ Hi).
  - apply find_none in E. by rewrite E.
Qed.

Lemma insert_represents i e e' nm sec :
  m !! key nm = None -> table d !! i = Some e -> unused e ->
  holds (key nm) e' -> entry_sector e' = sec ->
  represents (<[i := e']> (table d)) (<[key nm := sec]> m) (free - 1) /\ (0 < free)%nat.
Proof.
  intros Hm Hi Hu Hh <-. pose proof (lookup_lt_Some _ _ _ Hi) as Hlt.
  destruct Hrep as [Hq Hmap Hf].
  assert (Hno : forall j x, table d !! j = Some x -> ~ holds (key nm) x).
  { intros j x Hj Hx. assert (m !! key nm = Some (entry_sector x)); [|congruence].
    apply Hmap. by exists j, x. }
  pose proof (filter_insert unused (table d) i e e' Hi) as Hcnt.
  rewrite (decide_True (P := unused e)), decide_False in Hcnt by (done || by destruct Hh).
  split; [|lia]. constructor; [| |lia].
  - intros j1 j2 x1 x2 k H1 H2 K1 K2.
    apply list_lookup_insert_Some in H1 as [(<- & <- & _)|[N1 H1]];
      apply list_lookup_insert_Some in H2 as [(<- & <- & _)|[N2 H2]]; [done| | |].
    + destruct K1 as [_ <-], Hh as [_ Hk]. destruct (Hno j2 x2 H2). by rewrite <- Hk.
    + destruct K2 as [_ <-], Hh as [_ Hk]. destruct (Hno j1 x1 H1). by rewrite <- Hk.
    + by eapply Hq.
  - intros k v. rewrite lookup_insert_Some. split.
    + intros [[<- <-]|[Hk Hv]].
      * exists i, e'. split; [by apply list_lookup_insert_eq|done].
      * apply Hmap in Hv as (j & x & Hj & Hx & Hs). exists j, x.
        split; [|done]. rewrite list_lookup_insert_ne; [done|]. intros ->.
        rewrite Hi in Hj. injection Hj as ->. by destruct Hx.
    + intros (j & x & Hj & Hx & Hs).
      apply list_lookup_insert_Some in Hj as [(<- & <- & _)|[N Hj]].
      * left. destruct Hx as [_ <-], Hh as [_ <-]. done.
      * right. split; [|apply Hmap; by exists j, x].
        intros <-. by destruct (Hno j x Hj).
Qed.

Lemma delete_represents i e nm :
  table d !! i = Some e -> holds (key nm) e ->
  represents (<[i := set_inUse 0 e]> (table d)) (delete (key nm) m) (S free).
Proof.
  intros Hi Hh. pose proof (lookup_lt_Some _ _ _ Hi) as Hlt.
  destruct Hrep as [Hq Hmap Hf].
  assert (Hun : forall k, ~ holds k (set_inUse 0 e)) by (by intros k [? _]).
  pose proof (filter_insert unused (table d) i e (set_inUse 0 e) Hi) as Hcnt.
  rewrite (decide_False (P := unused e)), decide_True in Hcnt by (done || by destruct Hh).
  constructor; [| |lia].
  - intros j1 j2 x1 x2 k H1 H2 K1 K2.
    apply list_lookup_insert_Some in H1 as [(_ & <- & _)|[N1 H1]]; [by destruct (Hun k)|].
    apply list_lookup_insert_Some in H2 as [(_ & <- & _)|[N2 H2]]; [by destruct (Hun k)|].
    by eapply Hq.
  - intros k v. rewrite lookup_delete_Some, Hmap. split.
    + intros [Hk (j & x & Hj & Hx & Hs)]. exists j, x. split; [|done].
      rewrite list_lookup_insert_ne; [done|]. intros ->. rewrite Hi in Hj.
      injection Hj as ->. destruct Hx as [_ <-], Hh as [_ ?]. done.
    + intros (j & x & Hj & Hx & Hs).
      apply list_lookup_insert_Some in Hj as [(_ & <- & _)|[N Hj]]; [by destruct (Hun k)|].
      split; [|by exists j, x]. intros <-. destruct N. by eapply Hq.
Qed.

Lemma Add_map nm sec :
  exists d', tableSize d' = Z.of_nat (length (table d')) /\
    if decide (m !! key nm = None /\ (0 < free)%nat) then
      Add nm sec d = Ok (true, d') /\ represents (table d') (<[key nm := sec]> m) (free - 1)
    else Add nm sec d = Ok (false, d') /\ d' = d.
Proof.
  unfold Add. rewrite (FindIndex_spec d nm Hsize). cbn [mbind outcome_bind].
  destruct (list_find (holds (key nm)) (table d)) as [[i e]|] eqn:Ef.
  - exists d. split; [done|]. rewrite decide_False; [|intros [Hn _]; apply find_some in Ef; congruence].
    destruct (Z.eqb_spec (Z.of_nat i) (-1)); [lia|]. done.
  - apply find_none in Ef. cbn [negb Z.eqb].
    rewrite Hsize, Nat2Z.id. rewrite (Add_loop_spec [] (table d)). cbn [app length Nat.add].
    destruct (list_find unused (table d)) as [[i e]|] eqn:Eu; cbn [mbind outcome_bind fst snd].
    + apply list_find_Some in Eu as (Hi & Hu & _).
      destruct (insert_represents i e (mkEntry 1 (pad1 e) sec
        (strncpy (name e) nm FileNameMaxLen) 0 (pad2 e)) nm sec) as [Hr H0]; try done.
      { split; [done|]. apply key_strncpy. }
      eexists. split; [|rewrite decide_True by done; split; [reflexivity|exact Hr]].
      cbn. by rewrite length_insert.
    + exists d. split; [done|]. apply no_unused in Eu. rewrite (rp_free _ _ _ Hrep) in Eu.
      rewrite decide_False by lia. split; [|done]. rewrite <- Hsize. by destruct d.
Qed.

Lemma Remove_map nm :
  exists d', tableSize d' = Z.of_nat (length (table d')) /\
    if decide (m !! key nm = None) then Remove nm d = Ok (false, d') /\ d' = d
    else Remove nm d = Ok (true, d') /\
      represents (table d') (delete (key nm) m) (S free).
Proof.
  unfold Remove. rewrite (FindIndex_spec d nm Hsize). cbn [mbind outcome_bind].
  destruct (list_find (holds (key nm)) (table d)) as [[i e]|] eqn:Ef.
  - assert (Hsome : m !! key nm <> None) by (apply find_some in Ef; congruence).
    apply list_find_Some in Ef as (Hi & Hh & _).
    destruct (Z.eqb_spec (Z.of_nat i) (-1)); [lia|].
    rewrite (arr_get_nat _ _ _ Hi). cbn [mbind outcome_bind].
    rewrite arr_set_nat by (by eapply lookup_lt_Some). cbn [mbind outcome_bind].
    eexists. split; [|rewrite decide_False by done; split; [reflexivity|by apply delete_represents]].
    cbn. by rewrite length_insert.
  - apply find_none in Ef. exists d. split; [done|]. by rewrite decide_True.
Qed.

End Ops.

Lemma fresh_represents t : Forall unused t -> represents t ∅ (length t).
Proof.
  intros H. constructor.
  - intros i j e e' k Hi _ [Hu _]. rewrite Forall_lookup in H. by destruct Hu; apply (H i).
  - intros k v. rewrite lookup_empty. split; [done|].
    intros (i & e & Hi & [Hu _] & _). rewrite Forall_lookup in H. by destruct Hu; apply (H i).
  - induction H as [|e t He _ IH]; [done|]. rewrite filter_cons_True by done. cbn. by rewrite IH.
Qed.

Lemma Directory_Directory_spec junk :
  Directory_Directory junk (Z.of_nat (length junk)) =
  Ok (mkDirectory (Z.of_nat (length junk)) (set_inUse 0 <$> junk)).
Proof.
  unfold Directory_Directory. destruct (for_range_inv
    (fun i t => 0 <= i /\ forall j, t !! j =
       (fun e => if decide (j < Z.to_nat i)%nat then set_inUse 0 e else e) <$> junk !! j)
    0 (Z.of_nat (length junk)) (fun i t =>
        e ← arr_get t i; t' ← arr_set t i (set_inUse 0 e); Ok (tt, t')) junk)
    as (t & Et & _ & Ht).
  - lia.
  - split; [done|]. intros j. by destruct (junk !! j).
  - intros i t Hi (Hi0 & Ht).
    destruct (lookup_lt_is_Some_2 junk (Z.to_nat i)) as [e He]; [lia|].
    pose proof (Ht (Z.to_nat i)) as Hti. rewrite He in Hti. cbn in Hti.
    rewrite decide_False in Hti by lia.
    pose proof (lookup_lt_Some _ _ _ Hti) as Hlt. eexists. split.
    + rewrite (arr_get_in _ _ _ Hi0 Hti). cbn [mbind outcome_bind].
      rewrite arr_set_in by lia. reflexivity.
    + split; [lia|]. intros j. destruct (decide (j = Z.to_nat i)) as [->|Hne].
      * rewrite list_lookup_insert_eq, He by done. cbn. by rewrite decide_True by lia.
      * rewrite list_lookup_insert_ne, Ht by done. destruct (junk !! j); [|done]. cbn.
        f_equal. repeat case_decide; done || lia.
  - rewrite Et. cbn. do 2 f_equal. apply list_eq. intros j.
    rewrite Ht, list_lookup_fmap. destruct (junk !! j) eqn:Ej; [|done]. cbn.
    rewrite decide_True; [done|]. apply lookup_lt_Some in Ej. lia.
Qed.

Lemma clear_all_unused junk : Forall unused (set_inUse 0 <$> junk).
Proof. apply Forall_fmap. by apply Forall_true. Qed.

(** ** Sequences of operations *)

Inductive dir_op := OpFind (nm : list Z) | OpAdd (nm : list Z) (sec : Z) | OpRemove (nm : list Z).
Inductive dir_answer := ASector (z : Z) | ABool (b : bool).

Definition run_op (o : dir_op) : M Directory dir_answer :=
  match o with
  | OpFind nm => d ← get; z ← lift (Find d nm); mret (ASector z)
  | OpAdd nm sec => b ← Add nm sec; mret (ABool b)
  | OpRemove nm => b ← Remove nm; mret (ABool b)
  end.

Fixpoint run_ops (os : list dir_op) : M Directory (list dir_answer) :=
  match os with
  | [] => mret []
  | o :: os' => a ← run_op o; r ← run_ops os'; mret (a :: r)
  end.

(** The same on a map with a bounded number of keys. *)
Definition spec_op (o : dir_op) (mf : gmap (list Z) Z * nat) :
    dir_answer * (gmap (list Z) Z * nat) :=
  let '(m, free) := mf in
  match o with
  | OpFind nm => (ASector (default (-1) (m !! key nm)), mf)
  | OpAdd nm sec =>
      if decide (m !! key nm = None /\ (0 < free)%nat)
      then (ABool true, (<[key nm := sec]> m, (free - 1)%nat)) else (ABool false, mf)
  | OpRemove nm =>
      if decide (m !! key nm = None) then (ABool false, mf)
      else (ABool true, (delete (key nm) m, S free))
  end.

Fixpoint spec_ops (os : list dir_op) (mf : gmap (list Z) Z * nat) : list dir_answer :=
  match os with
  | [] => []
  | o :: os' => let '(a, mf') := spec_op o mf in a :: spec_ops os' mf'
  end.

Lemma dir_op_refines o d m free :
  tableSize d = Z.of_nat (length (table d)) -> represents (table d) m free ->
  exists d', run_op o d = Ok ((spec_op o (m, free)).1, d') /\
    tableSize d' = Z.of_nat (length (table d')) /\
    represents (table d') (spec_op o (m, free)).2.1 (spec_op o (m, free)).2.2.
Proof.
  intros Hs Hr. destruct o as [nm|nm sec|nm]; cbn [run_op spec_op].
  - exists d. mstep. mstep by (apply lift_Ok, (Find_map d m free); done). done.
  - destruct (Add_map d m free Hs Hr nm sec) as (d' & Hd' & H). exists d'.
    case_decide; destruct H as [H ?]; mstep by exact H; subst; done.
  - destruct (Remove_map d m free Hs Hr nm) as (d' & Hd' & H). exists d'.
    case_decide; destruct H as [H ?]; mstep by exact H; subst; done.
Qed.

(** ** Properties *)

(** C38: a directory is a finite map.  For every table of [n] entries left
    uninitialised by [new], every sequence of [Add], [Find] and [Remove] calls
    on the fresh directory answers exactly as a map from names (their first
    nine characters) to sectors that has room for [n] names; no call leaves
    the table. *)
Theorem directory_refines_map junk os :
  exists d0 d, Directory_Directory junk (Z.of_nat (length junk)) = Ok d0 /\
    run_ops os d0 = Ok (spec_ops os (∅, length junk), d).
Proof.
  set (t := set_inUse 0 <$> junk). exists (mkDirectory (Z.of_nat (length junk)) t).
  assert (Hl : length t = length junk) by apply length_fmap.
  assert (G : forall d m free, tableSize d = Z.of_nat (length (table d)) ->
    represents (table d) m free ->
    exists d', run_ops os d = Ok (spec_ops os (m, free), d')).
  { clear. induction os as [|o os IH]; intros d m free Hs Hr; [by eexists|].
    destruct (dir_op_refines o d m free Hs Hr) as (d1 & E1 & Hs1 & Hr1).
    cbn [run_ops spec_ops]. destruct (spec_op o (m, free)) as [a [m1 f1]] eqn:Eo.
    destruct (IH d1 m1 f1 Hs1 Hr1) as (d2 & E2). exists d2.
    mstep by exact E1. mstep by exact E2. done. }
  destruct (G (mkDirectory (Z.of_nat (length junk)) t) ∅ (length junk)) as (d & Ed).
  - cbn. by rewrite Hl.
  - cbn. rewrite <- Hl. by apply fresh_represents, clear_all_unused.
  - exists d. split; [apply Directory_Directory_spec|done].
Qed.

(** ** Round trip of the table image *)

Record entry_wf (e : DirectoryEntry) : Prop := {
  ew_pad : length (pad1 e) = 3%nat;
  ew_name : length (name e) = 10%nat;
  ew_sector : is_int (entry_sector e) }.

Lemma length_entry_bytes e : entry_wf e -> length (entry_bytes e) = 20%nat.
Proof.
  intros [H1 H2 _]. unfold entry_bytes.
  rewrite !length_app, length_int_bytes, H1, H2. done.
Qed.

Lemma bytes_entry_roundtrip e : entry_wf e -> bytes_entry (entry_bytes e) = e.
Proof.
  intros [H1 H2 H3]. destruct e as [u p s n t q]. cbn in *.
  destruct p as [|p0 [|p1 [|p2 [|]]]]; try done.
  do 10 (destruct n as [|? n]; [done|]). destruct n; [|done].
  pose proof (int_bytes_roundtrip s H3) as R. unfold int_bytes in R. cbn in R.
  injection R as R. unfold bytes_entry. cbn. by rewrite R.
Qed.

Lemma table_bytes_roundtrip t :
  Forall entry_wf t -> bytes_table (length t) (table_bytes t) = t.
Proof.
  induction 1 as [|e t He Ht IH]; [done|]. unfold table_bytes in *. cbn [map concat length bytes_table].
  rewrite take_app_length', drop_app_length' by (by rewrite length_entry_bytes).
  by rewrite bytes_entry_roundtrip, IH.
Qed.

Lemma length_table_bytes t :
  Forall entry_wf t -> length (table_bytes t) = (20 * length t)%nat.
Proof.
  induction 1 as [|e t He Ht IH]; [done|]. unfold table_bytes in *. cbn [map concat].
  rewrite length_app, length_entry_bytes, IH by done. cbn. lia.
Qed.

Lemma bytes_entry_wf b : length b = 20%nat -> entry_wf (bytes_entry b).
Proof.
  intros H. constructor; cbn.
  - rewrite length_take, length_drop. lia.
  - rewrite length_take, length_drop. lia.
  - apply wrap32_range.
Qed.

Lemma bytes_table_wf n b :
  length b = (20 * n)%nat -> Forall entry_wf (bytes_table n b) /\ length (bytes_table n b) = n.
Proof.
  revert b. induction n as [|n IH]; intros b Hb; [split; [constructor|done]|].
  cbn [bytes_table]. destruct (IH (drop 20 b)) as [H1 H2]; [rewrite length_drop; lia|].
  split; [|cbn; by rewrite H2]. constructor; [|done].
  apply bytes_entry_wf. rewrite length_take. lia.
Qed.

Lemma Add_wf nm sec d b d' :
  tableSize d = Z.of_nat (length (table d)) -> is_int sec -> Forall entry_wf (table d) ->
  Add nm sec d = Ok (b, d') ->
  tableSize d' = tableSize d /\ length (table d') = length (table d) /\
  Forall entry_wf (table d').
Proof.
  intros Hs Hi Hw. unfold Add. rewrite (FindIndex_spec d nm Hs). cbn [mbind outcome_bind].
  destruct (negb _); [by intros [= <- <-]|].
  rewrite Hs, Nat2Z.id, (Add_loop_spec [] (table d)). cbn [app length mbind outcome_bind].
  destruct (list_find unused (table d)) as [[i e]|] eqn:Eu; cbn [fst snd].
  - apply list_find_Some in Eu as (He & _). intros [= <- <-]. cbn.
    split; [done|]. split; [by rewrite length_insert|]. apply Forall_insert; [done|].
    rewrite Forall_lookup in Hw. destruct (Hw _ _ He).
    constructor; cbn; [done|by apply length_strncpy|done].
  - intros [= <- <-]. done.
Qed.

Lemma Remove_wf nm d b d' :
  tableSize d = Z.of_nat (length (table d)) -> Forall entry_wf (table d) ->
  Remove nm d = Ok (b, d') ->
  length (table d') = length (table d) /\ Forall entry_wf (table d').
Proof.
  intros Hs Hw. unfold Remove. rewrite (FindIndex_spec d nm Hs). cbn [mbind outcome_bind].
  destruct (list_find _ _) as [[i e]|] eqn:Ef; [|by intros [= <- <-]].
  apply list_find_Some in Ef as (Hi & _). destruct (Z.eqb_spec (Z.of_nat i) (-1)); [lia|].
  rewrite (arr_get_nat _ _ _ Hi). cbn [mbind outcome_bind].
  rewrite arr_set_nat by (by eapply lookup_lt_Some). intros [= <- <-]. cbn.
  split; [by rewrite length_insert|]. apply Forall_insert; [done|].
  rewrite Forall_lookup in Hw. destruct (Hw _ _ Hi). by constructor.
Qed.

(** ** The names printed *)

Lemma take_until_nul k n r : (k <= length n)%nat -> take k (until_nul (n ++ r)) = take k (until_nul n).
Proof.
  revert k. induction n as [|x n IH]; intros [|k] H; cbn in H |- *; try done; [lia|].
  destruct (x =? 0); [done|]. cbn. f_equal. apply IH. lia.
Qed.

Lemma until_nul_idem l : until_nul (until_nul l) = until_nul l.
Proof. rewrite <- (app_nil_r (until_nul l)) at 1. rewrite until_nul_app by apply until_nul_nonzero. by rewrite app_nil_r. Qed.

(** What [printf] reads at the name of an entry has the entry's key, even where
    no zero byte ends the name. *)
Lemma printed_key e r : entry_wf e -> key (until_nul (drop 8 (entry_bytes e ++ r))) = key (name e).
Proof.
  intros [H1 H2 _]. unfold key. rewrite until_nul_idem. unfold entry_bytes.
  destruct (pad1 e) as [|p0 [|p1 [|p2 [|]]]]; try done. cbn [app].
  unfold int_bytes. cbn [app drop]. rewrite <- !app_assoc. apply take_until_nul.
  unfold FileNameMaxLen. lia.
Qed.

Definition in_use (e : DirectoryEntry) : Prop := inUse e <> 0.
#[global] Instance in_use_dec e : Decision (in_use e).
Proof. unfold in_use. apply _. Defined.

Lemma List_loop_keys pre suf :
  Forall entry_wf (pre ++ suf) ->
  exists ns, List_loop (pre ++ suf) (length suf) (Z.of_nat (length pre)) = Ok ns /\
    map key ns = map (fun e => key (name e)) (filter in_use suf).
Proof.
  revert pre. induction suf as [|e suf IH]; intros pre Hw; [by exists []|].
  destruct (IH (pre ++ [e])) as (ns & En & Hk); [by rewrite <- app_assoc|].
  rewrite <- app_assoc, length_app, Nat2Z.inj_add in En. cbn [app length] in En. change (Z.of_nat 1) with 1 in En.
  cbn [List_loop length]. rewrite (arr_get_nat _ _ e) by (by rewrite list_lookup_middle).
  cbn [mbind outcome_bind]. rewrite En. cbn [mbind outcome_bind]. eexists. split; [reflexivity|].
  rewrite filter_cons. case_decide as H0; unfold in_use in H0; destruct (Z.eqb_spec (inUse e) 0); try tauto.
  cbn [map]. rewrite Hk. f_equal.
  apply Forall_app in Hw as [Hp Hs]. inversion_clear Hs.
  unfold table_bytes. rewrite map_app, concat_app, drop_app. cbn [map concat].
  pose proof (length_table_bytes _ Hp) as Lp. unfold table_bytes in Lp. rewrite Lp.
  replace (Z.to_nat (20 * Z.of_nat (length pre) + 8)) with (20 * length pre + 8)%nat by lia.
  rewrite drop_ge by lia. cbn [app].
  replace (20 * length pre + 8 - 20 * length pre)%nat with 8%nat by lia. by apply printed_key.
Qed.

Lemma List_map d m free :
  tableSize d = Z.of_nat (length (table d)) -> Forall entry_wf (table d) -> represents (table d) m free ->
  exists ns, List d = Ok ns /\ NoDup (map key ns) /\ forall k, k ∈ map key ns <-> is_Some (m !! k).
Proof.
  intros Hs Hw Hrep. destruct (List_loop_keys [] (table d) Hw) as (ns & En & Hk).
  exists ns. unfold List. rewrite Hs, Nat2Z.id. split; [exact En|]. rewrite Hk. split.
  - assert (Hu : forall i j e e', table d !! i = Some e -> table d !! j = Some e' ->
      in_use e -> in_use e' -> key (name e) = key (name e') -> i = j).
    { intros i j e e' Hi Hj Ue Ue' Hkk. by eapply (rp_uniq _ _ _ Hrep i j e e' (key (name e'))). }
    clear -Hu. induction (table d) as [|e t IH]; [constructor|]. rewrite filter_cons.
    assert (Ht : NoDup (map (fun e => key (name e)) (filter in_use t))).
    { apply IH. intros i j x y Hi Hj Ux Uy Hxy. injection (Hu (S i) (S j) x y Hi Hj Ux Uy Hxy). done. }
    case_decide as He; [|done]. cbn [map]. apply NoDup_cons. split; [|done].
    intros (x & Hx & [Ux Hin]%list_elem_of_filter)%list_elem_of_fmap.
    apply list_elem_of_lookup in Hin as (j & Hj).
    by specialize (Hu 0%nat (S j) e x eq_refl Hj He Ux Hx).
  - intros k. rewrite list_elem_of_fmap. split.
    + intros (e & -> & [Ue (i & Hi)%list_elem_of_lookup]%list_elem_of_filter). exists (entry_sector e).
      apply (rp_map _ _ _ Hrep). by exists i, e.
    + intros (v & (i & e & Hi & [Ue <-] & _)%(rp_map _ _ _ Hrep)). exists e. split; [done|].
      apply list_elem_of_filter. split; [done|]. by eapply list_elem_of_lookup_2.
Qed.
