(* ===== verification/OpenFile.v ===== *)
(** * filesys/openfile.h, filesys/openfile.cc: open files

    An open file owns its copy of the header.  A buffer given to [WriteAt] is
    the list of its [numBytes] bytes.  [WriteAt] calls itself through
    [BitMap::WriteBack] when it extends a file; its [fuel] bounds the depth of
    these calls.  The parts of bitmap.cc and directory.cc that go through an
    open file are here too. *)
From S2P Require Import Prelude CInt BitMap Disk SynchDisk FileHeader Directory.
From Stdlib Require Import ZArith Lia List Bool.
From stdpp Require Import base tactics list numbers gmap.
Local Open Scope Z_scope.

Record OpenFile := mkOpenFile { fileSector : Z; hdr : FileHeader; seekPosition : Z }.

Definition set_hdr h f := mkOpenFile (fileSector f) h (seekPosition f).

(** ** Memory *)

(** Signed addition; on overflow C++ gives no meaning to it. *)
Definition int_add (a b : Z) : outcome Z :=
  if decide (-2147483648 <= a + b < 2147483648) then Ok (a + b) else Fault BadAccess.

(** [n] bytes of [buf] from offset [off]. *)
Definition slice (buf : list Z) (off n : Z) : outcome (list Z) :=
  if decide (0 <= off /\ 0 <= n /\ off + n <= Z.of_nat (length buf))
  then Ok (take (Z.to_nat n) (drop (Z.to_nat off) buf)) else Fault BadAccess.

(** [bcopy] of [data] into [buf] at offset [off]. *)
Definition overlay (buf : list Z) (off : Z) (data : list Z) : outcome (list Z) :=
  if decide (0 <= off /\ off + Z.of_nat (length data) <= Z.of_nat (length buf))
  then Ok (take (Z.to_nat off) buf ++ data ++ drop (Z.to_nat off + length data) buf)
  else Fault BadAccess.

(** Memory images of [unsigned] arrays. *)
Fixpoint bytes_words (l : list Z) : list Z :=
  match l with
  | b0 :: b1 :: b2 :: b3 :: r => u32 (uint_of_bytes b0 b1 b2 b3) :: bytes_words r
  | _ => []
  end.

(** ** Operations *)

Section Operations.
Context `{E : Env} `{R : SectorReader}.

Definition OpenFile_OpenFile (sector : Z) : M SynchDisk OpenFile :=
  h ← FetchFrom sector;
  _ ← add_visitorNum sector 1;
  mret (mkOpenFile sector h 0).

(** [OpenFile::~OpenFile]. *)
Definition OpenFile_close (f : OpenFile) : M SynchDisk unit :=
  add_visitorNum (fileSector f) (-1).

Definition Seek (f : OpenFile) (position : Z) : OpenFile :=
  mkOpenFile (fileSector f) (hdr f) position.

Definition Length (f : OpenFile) : Z := FileLength (hdr f).

(** The loop of [ReadAt] that fills the buffer: [n] sectors from block [i]. *)
Fixpoint ReadAt_loop (h : FileHeader) (n : nat) (i : Z) : M SynchDisk (list Z) :=
  match n with
  | O => mret []
  | S n' =>
    t ← ByteToSector h (i * SectorSize);
    data ← read_sector t;
    rest ← ReadAt_loop h n' (i + 1);
    mret (data ++ rest)
  end.

(** Returns the bytes copied into the caller's buffer; their number is the
    result of the call. *)
Definition ReadAt (f : OpenFile) (numBytes position : Z) : M SynchDisk (list Z * OpenFile) :=
  let fileLength := FileLength (hdr f) in
  if (numBytes <=? 0) || (fileLength <=? position) then mret ([], f)
  else
    pn ← lift (int_add position numBytes);
    let numBytes := if fileLength <? pn then fileLength - position else numBytes in
    let firstSector := divRoundDown position SectorSize in
    let lastSector := divRoundDown (position + numBytes - 1) SectorSize in
    let numSectors := 1 + lastSector - firstSector in
    buf ← ReadAt_loop (hdr f) (Z.to_nat numSectors) firstSector;
    into ← lift (slice buf (position - firstSector * SectorSize) numBytes);
    h ← SetLastVisitTime (hdr f);
    mret (into, set_hdr h f).

(** [BitMap::FetchFrom]: the bytes read replace the front of the word array. *)
Definition BitMap_FetchFrom (b : BitMap) (f : OpenFile) : M SynchDisk (BitMap * OpenFile) :=
  r ← ReadAt f (numWords b * 4) 0;
  let old := ints_bytes (bm_map b) in
  mret (BitMap.set_map (bytes_words (r.1 ++ drop (length r.1) old)) b, r.2).

(** [Directory::FetchFrom]. *)
Definition Directory_FetchFrom (d : Directory) (f : OpenFile) :
    M SynchDisk (Directory * OpenFile) :=
  r ← ReadAt f (tableSize d * 20) 0;
  let old := table_bytes (table d) in
  mret (mkDirectory (tableSize d)
          (bytes_table (Z.to_nat (tableSize d)) (r.1 ++ drop (length r.1) old)), r.2).

(** [new BitMap(nitems)]. *)
Definition new_BitMap (nitems : Z) : M SynchDisk BitMap :=
  b ← fresh_bytes (4 * Z.to_nat (divRoundUp nitems BitsInWord));
  lift (BitMap_BitMap (bytes_words b) nitems).

(** [new Directory(size)]. *)
Definition new_Directory (size : Z) : M SynchDisk Directory :=
  b ← fresh_bytes (20 * Z.to_nat size);
  lift (Directory_Directory (bytes_table (Z.to_nat size) b) size).

(** The loop of [WriteAt] that writes the buffer back. *)
Fixpoint WriteAt_loop (h : FileHeader) (buf : list Z) (firstSector : Z) (n : nat) (i : Z) :
    M SynchDisk unit :=
  match n with
  | O => mret tt
  | S n' =>
    t ← ByteToSector h (i * SectorSize);
    data ← lift (slice buf ((i - firstSector) * SectorSize) SectorSize);
    _ ← WriteSector t data;
    WriteAt_loop h buf firstSector n' (i + 1)
  end.

(** The buffer that [WriteAt] writes back: the first and the last sector are
    read in when they are modified only in part, then the new bytes copied. *)
Definition WriteAt_buffer (f : OpenFile) (from : list Z) (position : Z) :
    M SynchDisk (list Z * OpenFile) :=
  let numBytes := Z.of_nat (length from) in
  let firstSector := divRoundDown position SectorSize in
  let lastSector := divRoundDown (position + numBytes - 1) SectorSize in
  let numSectors := 1 + lastSector - firstSector in
  let firstAligned := position =? firstSector * SectorSize in
  let lastAligned := (position + numBytes) =? (lastSector + 1) * SectorSize in
  buf ← fresh_bytes (Z.to_nat (numSectors * SectorSize));
  x ← (if negb firstAligned then
         r ← ReadAt f SectorSize (firstSector * SectorSize);
         buf ← lift (overlay buf 0 r.1); mret (buf, r.2)
       else mret (buf, f));
  let '(buf, f) := x in
  x ← (if negb lastAligned && (negb (firstSector =? lastSector) || firstAligned) then
         r ← ReadAt f SectorSize (lastSector * SectorSize);
         buf ← lift (overlay buf ((lastSector - firstSector) * SectorSize) r.1);
         mret (buf, r.2)
       else mret (buf, f));
  let '(buf, f) := x in
  buf ← lift (overlay buf (position - firstSector * SectorSize) from);
  mret (buf, f).

(** The part of [WriteAt] after the length check. *)
Definition WriteAt_body (f : OpenFile) (from : list Z) (position : Z) :
    M SynchDisk (Z * OpenFile) :=
  let numBytes := Z.of_nat (length from) in
  let firstSector := divRoundDown position SectorSize in
  let lastSector := divRoundDown (position + numBytes - 1) SectorSize in
  let numSectors := 1 + lastSector - firstSector in
  x ← WriteAt_buffer f from position;
  let '(buf, f) := x in
  _ ← WriteAt_loop (hdr f) buf firstSector (Z.to_nat numSectors) firstSector;
  h ← SetLastModifyTime (hdr f);
  mret (numBytes, set_hdr h f).

Fixpoint WriteAt (fuel : nat) (f : OpenFile) (from : list Z) (position : Z) :
    M SynchDisk (Z * OpenFile) :=
  match fuel with
  | O => fail Diverges
  | S fuel' =>
    let fileLength := FileLength (hdr f) in
    let numBytes := Z.of_nat (length from) in
    if numBytes <=? 0 then mret (0, f)
    else
      pn ← lift (int_add position numBytes);
      f ← (if fileLength <? pn then
             freeMap ← new_BitMap NumSectors;
             freeMapFile ← OpenFile_OpenFile 0;
             x ← BitMap_FetchFrom freeMap freeMapFile;
             let '(freeMap, freeMapFile) := x in
             e ← lift (ExtendFile (hdr f) freeMap (pn - fileLength));
             let '(_, h, freeMap) := e in
             h ← WriteBack h (hdrSector h);
             y ← WriteAt fuel' freeMapFile (ints_bytes (bm_map freeMap)) 0;
             _ ← OpenFile_close y.2;
             mret (set_hdr h f)
           else mret f);
      WriteAt_body f from position
  end.

(** [BitMap::WriteBack] and [Directory::WriteBack]. *)
Definition BitMap_WriteBack (fuel : nat) (b : BitMap) (f : OpenFile) :
    M SynchDisk OpenFile :=
  r ← WriteAt fuel f (ints_bytes (bm_map b)) 0; mret r.2.

Definition Directory_WriteBack (fuel : nat) (d : Directory) (f : OpenFile) :
    M SynchDisk OpenFile :=
  r ← WriteAt fuel f (table_bytes (table d)) 0; mret r.2.

Definition Read (f : OpenFile) (numBytes : Z) : M SynchDisk (list Z * OpenFile) :=
  _ ← SynchReaderStart (fileSector f);
  r ← ReadAt f numBytes (seekPosition f);
  let '(into, f) := r in
  let f := Seek f (seekPosition f + Z.of_nat (length into)) in
  _ ← SynchReaderExit (fileSector f);
  mret (into, f).

Definition Write (fuel : nat) (f : OpenFile) (from : list Z) : M SynchDisk (Z * OpenFile) :=
  _ ← SynchWriterStart (fileSector f);
  r ← WriteAt fuel f from (seekPosition f);
  let '(result, f) := r in
  let f := Seek f (seekPosition f + result) in
  _ ← SynchWriterExit (fileSector f);
  mret (result, f).

End Operations.

(** ** Contents of a file *)

(** A file without index sector: its blocks are distinct valid sectors that
    hold at least its bytes. *)
Definition blocks (h : FileHeader) : list Z := take (Z.to_nat (numSectors h)) (dataSectors h).

Record file_ok (h : FileHeader) : Prop := {
  fo_sectors : 0 <= numSectors h <= 25;
  fo_table : length (dataSectors h) = 26%nat;
  fo_bytes : 0 <= numBytes h <= numSectors h * 128;
  fo_valid : Forall (fun t => 0 <= t < NumSectors) (blocks h);
  fo_nodup : NoDup (blocks h) }.

(** All the bytes of the blocks, and the first [numBytes] of them: the file. *)
Definition block_bytes (c : Z -> list Z) (h : FileHeader) : list Z := concat (map c (blocks h)).
Definition file_bytes (c : Z -> list Z) (h : FileHeader) : list Z :=
  take (Z.to_nat (numBytes h)) (block_bytes c h).

Lemma concat_lookup (ls : list (list Z)) k :
  Forall (fun l => length l = 128%nat) ls ->
  concat ls !! k = (ls !! (k / 128)%nat) ≫= (fun l => l !! (k mod 128)%nat).
Proof.
  intros H. revert k. induction H as [|l ls Hl _ IH]; intros k; [done|].
  cbn [concat]. destruct (decide (k < 128)%nat) as [Hk|Hk].
  - rewrite lookup_app_l by lia. rewrite Nat.div_small, Nat.mod_small by done. done.
  - rewrite lookup_app_r, Hl by lia. rewrite IH.
    pose proof (Nat.div_add (k - 128) 1 128 ltac:(lia)) as D.
    pose proof (Nat.Div0.mod_add (k - 128) 1 128) as Q.
    replace (k - 128 + 1 * 128)%nat with k in D, Q by lia.
    rewrite D, Q. replace ((k - 128) / 128 + 1)%nat with (S ((k - 128) / 128)) by lia. done.
Qed.

Lemma length_concat128 (ls : list (list Z)) :
  Forall (fun l => length l = 128%nat) ls -> length (concat ls) = (128 * length ls)%nat.
Proof.
  induction 1 as [|l ls Hl _ IH]; [done|]. cbn. rewrite length_app, Hl, IH. lia.
Qed.

Lemma map_content_128 s l : Forall (fun x => length x = 128%nat) (map (content s) l).
Proof.
  apply Forall_fmap. apply Forall_true. intros t. apply length_sector.
Qed.

Lemma length_blocks h : file_ok h -> length (blocks h) = Z.to_nat (numSectors h).
Proof. intros [H1 H2 _ _ _]. unfold blocks. rewrite length_take. lia. Qed.

Lemma length_block_bytes s h :
  file_ok h -> length (block_bytes (content s) h) = (128 * Z.to_nat (numSectors h))%nat.
Proof.
  intros H. unfold block_bytes. rewrite length_concat128 by apply map_content_128.
  by rewrite length_map, length_blocks.
Qed.

Lemma length_file_bytes s h :
  file_ok h -> length (file_bytes (content s) h) = Z.to_nat (numBytes h).
Proof.
  intros H. unfold file_bytes. rewrite length_take, length_block_bytes by done.
  destruct H. lia.
Qed.

Lemma block_bytes_lookup s h k :
  block_bytes (content s) h !! k =
  (blocks h !! (k / 128)%nat) ≫= (fun t => content s t !! (k mod 128)%nat).
Proof.
  unfold block_bytes. rewrite concat_lookup by apply map_content_128.
  change (map (content s) (blocks h)) with (content s <$> blocks h).
  rewrite list_lookup_fmap. by destruct (blocks h !! (k / 128)%nat).
Qed.

Lemma file_bytes_lookup s h k :
  (k < Z.to_nat (numBytes h))%nat ->
  file_bytes (content s) h !! k = block_bytes (content s) h !! k.
Proof. intros H. unfold file_bytes. by rewrite lookup_take_lt. Qed.

Lemma file_ok_same h h' : same_file h h' -> file_ok h -> file_ok h'.
Proof.
  intros (_ & E2 & E3 & E4) [H1 H2 H3 H4 H5].
  assert (B : blocks h' = blocks h) by (unfold blocks; by rewrite E3, E4).
  constructor; rewrite ?B, ?E2, ?E3, ?E4; done.
Qed.

Lemma file_bytes_same c h h' : same_file h h' -> file_bytes c h' = file_bytes c h.
Proof.
  intros (_ & E2 & E3 & E4). unfold file_bytes, block_bytes, blocks. by rewrite E2, E3, E4.
Qed.

(** Reading [k] blocks. *)
Definition blocks_from (c : Z -> list Z) (h : FileHeader) (i k : nat) : list Z :=
  concat (map c (take k (drop i (blocks h)))).

Lemma blocks_from_lookup s h i k j :
  (i + k <= length (blocks h))%nat -> (j < 128 * k)%nat ->
  blocks_from (content s) h i k !! j = block_bytes (content s) h !! (128 * i + j)%nat.
Proof.
  intros Hik Hj. unfold blocks_from. rewrite concat_lookup by apply map_content_128.
  rewrite block_bytes_lookup.
  change (map (content s) ?l) with (content s <$> l).
  replace (128 * i + j)%nat with (j + i * 128)%nat by lia.
  rewrite Nat.div_add, Nat.Div0.mod_add by lia.
  assert (j / 128 < k)%nat by (apply Nat.Div0.div_lt_upper_bound; lia).
  rewrite list_lookup_fmap, lookup_take_lt, lookup_drop by done.
  replace (i + j / 128)%nat with (j / 128 + i)%nat by lia.
  by destruct (blocks h !! (j / 128 + i)%nat).
Qed.

Lemma length_blocks_from s h i k :
  (i + k <= length (blocks h))%nat -> length (blocks_from (content s) h i k) = (128 * k)%nat.
Proof.
  intros H. unfold blocks_from. rewrite length_concat128 by apply map_content_128.
  rewrite length_map, length_take, length_drop. lia.
Qed.

Lemma slice_in buf off n :
  0 <= off -> 0 <= n -> off + n <= Z.of_nat (length buf) ->
  slice buf off n = Ok (take (Z.to_nat n) (drop (Z.to_nat off) buf)).
Proof. intros. unfold slice. by rewrite decide_True. Qed.

Lemma overlay_in buf off data :
  0 <= off -> off + Z.of_nat (length data) <= Z.of_nat (length buf) ->
  exists b, overlay buf off data = Ok b /\ length b = length buf /\
    forall k, b !! k = if decide (Z.to_nat off <= k < Z.to_nat off + length data)%nat
                       then data !! (k - Z.to_nat off)%nat else buf !! k.
Proof.
  intros H1 H2. unfold overlay. rewrite decide_True by done. eexists.
  split; [reflexivity|].
  assert (L : length (take (Z.to_nat off) buf) = Z.to_nat off) by (rewrite length_take; lia).
  split; [rewrite !length_app, L, length_drop; lia|].
  intros k. case_decide as Hk.
  - rewrite lookup_app_r, L by lia. by rewrite lookup_app_l by lia.
  - destruct (decide (k < Z.to_nat off)%nat).
    + rewrite lookup_app_l by lia. by rewrite lookup_take_lt.
    + rewrite lookup_app_r, L, lookup_app_r, lookup_drop by lia. f_equal. lia.
Qed.

Lemma int_add_in a b : -2147483648 <= a + b < 2147483648 -> int_add a b = Ok (a + b).
Proof. intros. unfold int_add. by rewrite decide_True. Qed.

(** ** Reading *)

Section Reading.
Context `{E : Env} `{EO : !EnvOk E} `{R : SectorReader} `{RD : !ReadsDisk R}.

Lemma block_sector h i :
  file_ok h -> (i < Z.to_nat (numSectors h))%nat ->
  exists t, blocks h !! i = Some t /\ dataSectors h !! i = Some t /\ 0 <= t < NumSectors /\
    forall s, ByteToSector h (Z.of_nat i * SectorSize) s = Ok (t, s).
Proof.
  intros Hf Hi. destruct (lookup_lt_is_Some_2 (blocks h) i) as [t Ht];
    [by rewrite length_blocks|].
  assert (Hd : dataSectors h !! i = Some t).
  { unfold blocks in Ht. by rewrite lookup_take_lt in Ht. }
  exists t. split; [done|]. split; [done|]. split.
  - by apply (Forall_lookup_1 _ _ _ _ (fo_valid h Hf) Ht).
  - intros s. apply ByteToSector_direct; [done|]. destruct Hf. lia.
Qed.

Lemma ReadAt_loop_spec h k i s :
  ready s -> good s -> file_ok h -> (i + k <= Z.to_nat (numSectors h))%nat ->
  exists s', ReadAt_loop h k (Z.of_nat i) s = Ok (blocks_from (content s) h i k, s') /\
    effect s s' (content s).
Proof.
  intros Hr Hg Hf. revert i s Hr Hg. induction k as [|k IH]; intros i s Hr Hg Hik.
  { exists s. split; [|by apply effect_refl]. unfold blocks_from. by rewrite take_0. }
  destruct (block_sector h i Hf ltac:(lia)) as (t & Hb & _ & Hv & Et).
  destruct (read_sector_effect t s Hr Hg Hv) as (s1 & E1 & F1).
  destruct (IH (S i) s1) as (s2 & E2 & F2); [apply F1..|lia|].
  exists s2. cbn [ReadAt_loop]. mstep by apply Et. mstep by exact E1.
  replace (Z.of_nat i + 1) with (Z.of_nat (S i)) by lia. mstep by exact E2.
  split; [|by eapply effect_quiet]. unfold mret, M_ret. do 2 f_equal.
  unfold blocks_from. rewrite (drop_S _ _ _ Hb). cbn [take map concat]. f_equal.
  f_equal. apply map_ext. apply F1.
Qed.

(** [ReadAt] returns the bytes of the file from [position], as many as were
    asked for and are there. *)
Lemma ReadAt_spec f n position s :
  ready s -> good s -> file_ok (hdr f) -> 0 <= position -> position + n < 2147483648 ->
  exists h s', same_file (hdr f) h /\ effect s s' (content s) /\
    ReadAt f n position s = Ok ((take (Z.to_nat n) (drop (Z.to_nat position)
      (file_bytes (content s) (hdr f))), set_hdr h f), s').
Proof.
  intros Hr Hg Hf Hp Hov. unfold ReadAt, FileLength.
  pose proof (length_file_bytes s (hdr f) Hf) as Lf.
  pose proof (length_block_bytes s (hdr f) Hf) as Lb.
  destruct Hf as [F1 F2 F3 F4 F5] eqn:Ef. clear Ef.
  destruct (Z.leb_spec n 0) as [Hn|Hn]; cbn [orb].
  { exists (hdr f), s. splits; [done|by apply effect_refl|].
    replace (Z.to_nat n) with 0%nat by lia. rewrite take_0. by destruct f. }
  destruct (Z.leb_spec (numBytes (hdr f)) position) as [Hlen|Hlen].
  { exists (hdr f), s. splits; [done|by apply effect_refl|].
    rewrite drop_ge by lia. rewrite take_nil. by destruct f. }
  mstep by (apply lift_Ok, int_add_in; lia).
  set (m := if numBytes (hdr f) <? position + n then numBytes (hdr f) - position else n).
  assert (Hm : 0 < m /\ m = Z.min n (numBytes (hdr f) - position)).
  { unfold m. destruct (Z.ltb_spec (numBytes (hdr f)) (position + n)); lia. }
  unfold divRoundDown, SectorSize. rewrite !Z.quot_div_nonneg by lia.
  set (fst := position / 128). set (lst := (position + m - 1) / 128).
  pose proof (Z.div_mod position 128 ltac:(lia)) as D1.
  pose proof (Z.mod_pos_bound position 128 ltac:(lia)) as M1.
  pose proof (Z.div_mod (position + m - 1) 128 ltac:(lia)) as D2.
  pose proof (Z.mod_pos_bound (position + m - 1) 128 ltac:(lia)) as M2.
  fold fst in D1. fold lst in D2.
  set (i := Z.to_nat fst). set (k := Z.to_nat (1 + lst - fst)).
  assert (Hi : fst = Z.of_nat i) by (unfold i; nia).
  assert (Hik : (i + k <= Z.to_nat (numSectors (hdr f)))%nat) by (unfold i, k; nia).
  destruct (ReadAt_loop_spec (hdr f) k i s Hr Hg (Build_file_ok _ F1 F2 F3 F4 F5) Hik)
    as (s1 & E1 & X1).
  destruct (SetLastVisitTime_effect (hdr f) s1) as (t & s2 & E2 & _ & X2); [apply X1..|].
  exists (set_lastVistTime t (hdr f)), s2. splits; [done|by eapply effect_quiet|].
  rewrite Hi. mstep by exact E1. pose proof (length_blocks (hdr f) (Build_file_ok _ F1 F2 F3 F4 F5)).
  mstep by (apply lift_Ok, slice_in; rewrite ?length_blocks_from by lia; unfold k; nia).
  mstep by exact E2. unfold mret, M_ret. do 3 f_equal.
  assert (Hk : (Z.to_nat position + Z.to_nat m <= 128 * i + 128 * k)%nat) by (unfold i, k; nia).
  apply list_eq. intros j. destruct (decide (j < Z.to_nat m)%nat) as [Hj|Hj].
  - rewrite lookup_take_lt, lookup_drop by done.
    rewrite blocks_from_lookup by (unfold i in *; lia).
    rewrite lookup_take_lt, lookup_drop by lia. rewrite file_bytes_lookup by lia.
    f_equal. unfold i. lia.
  - rewrite !lookup_ge_None_2; [done| |]; rewrite length_take, length_drop; lia.
Qed.

End Reading.

(** ** Writing *)

Section Writing.
Context `{E : Env} `{EO : !EnvOk E} `{R : SectorReader} `{RD : !ReadsDisk R}.

(** One of the two read-modify-write reads of [WriteAt]: when [b], block [i]
    of the file is read into the buffer at [off], as far as the file goes. *)
Definition fill_from_file (b : bool) (f : OpenFile) (buf : list Z) (off pos : Z) :
    M SynchDisk (list Z * OpenFile) :=
  if b then
    r ← ReadAt f SectorSize pos;
    buf ← lift (overlay buf off r.1); mret (buf, r.2)
  else mret (buf, f).

Lemma fill_from_file_spec b f buf (i o : nat) s :
  ready s -> good s -> file_ok (hdr f) -> (o + 128 <= length buf)%nat ->
  exists buf' h s',
    fill_from_file b f buf (Z.of_nat o) (Z.of_nat i * SectorSize) s
      = Ok ((buf', set_hdr h f), s') /\
    same_file (hdr f) h /\ effect s s' (content s) /\ length buf' = length buf /\
    forall k, buf' !! k =
      if decide (b = true /\ (o <= k < o + 128)%nat /\
                 (128 * i + (k - o) < Z.to_nat (numBytes (hdr f)))%nat)
      then block_bytes (content s) (hdr f) !! (128 * i + (k - o))%nat else buf !! k.
Proof.
  intros Hr Hg Hf Ho. pose proof (length_file_bytes s (hdr f) Hf) as Lf.
  unfold fill_from_file. destruct b.
  2: { exists buf, (hdr f), s. split; [by destruct f|]. split; [done|].
       split; [by apply effect_refl|]. split; [done|].
       intros k. rewrite decide_False by naive_solver. done. }
  destruct (decide (i < 1000)%nat) as [Hi|Hi].
  - destruct (ReadAt_spec f SectorSize (Z.of_nat i * SectorSize) s) as (h & s1 & Hs & X & ER);
      try done; try (unfold SectorSize; lia).
    set (rd := take _ _) in ER.
    assert (Lr : length rd = (128 `min` (Z.to_nat (numBytes (hdr f)) - 128 * i))%nat).
    { unfold rd. rewrite length_take, length_drop, Lf. unfold SectorSize. lia. }
    destruct (overlay_in buf (Z.of_nat o) rd) as (buf' & Eo & Lo & Ho'); [lia|lia|].
    exists buf', h, s1. splits; try done.
    + mstep by exact ER. mstep by (apply lift_Ok; exact Eo). done.
    + intros k. rewrite Ho', Nat2Z.id, Lr. case_decide as H1; case_decide as H2; try done; try lia.
      unfold rd. rewrite lookup_take_lt, lookup_drop by (unfold SectorSize; lia).
      rewrite file_bytes_lookup by (unfold SectorSize; lia).
      f_equal. unfold SectorSize. lia.
  - assert (Hlen : numBytes (hdr f) <= 3200) by (destruct Hf; lia).
    exists buf, (hdr f), s. split; [|split; [done|split; [by apply effect_refl|split; [done|]]]].
    + unfold ReadAt, FileLength, SectorSize.
      destruct (Z.leb_spec (numBytes (hdr f)) (Z.of_nat i * 128)); [|lia].
      cbn [Z.leb Z.compare orb]. mstep. cbn [fst snd].
      mstep by (apply lift_Ok; unfold overlay; rewrite decide_True by (cbn; lia); reflexivity).
      rewrite Nat2Z.id. cbn [length app]. rewrite Nat.add_0_r, take_drop. by destruct f.
    + intros k. rewrite decide_False by lia. done.
Qed.

Definition chunk (buf : list Z) (m : nat) : list Z := take 128 (drop (128 * m) buf).

Lemma WriteAt_loop_spec `{!SeesWrites R} h buf (i0 K n i : nat) s :
  ready s -> good s -> file_ok h -> length buf = (128 * K)%nat ->
  (i0 <= i)%nat -> (i + n <= i0 + K)%nat -> (i0 + K <= Z.to_nat (numSectors h))%nat ->
  exists s', WriteAt_loop h buf (Z.of_nat i0) n (Z.of_nat i) s = Ok (tt, s') /\
    effect s s' (content s') /\
    (forall j t, blocks h !! j = Some t -> content s' t =
       if decide (i <= j < i + n)%nat then chunk buf (j - i0) else content s t) /\
    (forall t, t ∉ blocks h -> content s' t = content s t).
Proof.
  intros Hr Hg Hf Hl. revert i s Hr Hg. induction n as [|n IH]; intros i s Hr Hg Hi Hn HK.
  { exists s. splits; try done. intros j t _. rewrite decide_False by lia. done. }
  destruct (block_sector h i Hf ltac:(lia)) as (t & Hb & _ & Hv & Et).
  assert (Lc : length (chunk buf (i - i0)) = 128%nat).
  { unfold chunk. rewrite length_take, length_drop. lia. }
  destruct (WriteSector_effect t (chunk buf (i - i0)) s Hr Hg Hv Lc) as (s1 & E1 & F1).
  destruct (IH (S i) s1) as (s2 & E2 & F2 & B2 & O2); [apply F1..|lia|lia|lia|].
  assert (C1 : forall t', content s1 t' = upd (content s) t (chunk buf (i - i0)) t') by apply F1.
  exists s2. split; [|split; [by eapply effect_trans|split]].
  - cbn [WriteAt_loop]. mstep by apply Et.
    mstep by (apply lift_Ok, slice_in; unfold SectorSize; lia).
    erewrite bind_run; cycle 1.
    { replace (take _ _) with (chunk buf (i - i0)); [exact E1|].
      unfold chunk. f_equal. f_equal. unfold SectorSize. lia. }
    cbv beta iota. replace (Z.of_nat i + 1) with (Z.of_nat (S i)) by lia. exact E2.
  - intros j t' Hj. rewrite (B2 j t' Hj). rewrite C1. unfold upd.
    destruct (decide (j = i)) as [->|Hne].
    + rewrite Hb in Hj. injection Hj as <-. rewrite decide_False by lia.
      rewrite !decide_True by (lia || done). done.
    + assert (t' <> t).
      { intros ->. apply Hne. by apply (NoDup_lookup _ _ _ _ (fo_nodup h Hf) Hj Hb). }
      rewrite (decide_False (P := t' = t)) by done.
      repeat case_decide; done || lia.
  - intros t' Hn'. rewrite O2, C1 by done. unfold upd. rewrite decide_False; [done|].
    intros ->. apply Hn'. by eapply list_elem_of_lookup_2.
Qed.

Lemma chunk_lookup buf m k :
  (k < 128)%nat -> chunk buf m !! k = buf !! (128 * m + k)%nat.
Proof. intros H. unfold chunk. by rewrite lookup_take_lt, lookup_drop. Qed.

(** The sectors [i .. i + K - 1] that the bytes [p .. p + len - 1] touch. *)
Lemma sector_span h position (len : nat) :
  file_ok h -> 0 <= position -> (0 < len)%nat -> position + Z.of_nat len <= numBytes h ->
  exists i K p : nat, position = Z.of_nat p /\
    divRoundDown position SectorSize = Z.of_nat i /\
    divRoundDown (position + Z.of_nat len - 1) SectorSize = Z.of_nat (i + K - 1) /\
    (0 < K)%nat /\ (128 * i <= p < 128 * i + 128)%nat /\
    (128 * (i + K - 1) < p + len <= 128 * (i + K))%nat /\
    (i + K <= Z.to_nat (numSectors h))%nat.
Proof.
  intros Hf Hp Hlen Hend. unfold divRoundDown. rewrite !Z.quot_div_nonneg by (unfold SectorSize; lia).
  exists (Z.to_nat (position / 128)),
    (Z.to_nat (1 + (position + Z.of_nat len - 1) / 128 - position / 128)), (Z.to_nat position).
  pose proof (Z.div_mod position 128 ltac:(lia)).
  pose proof (Z.mod_pos_bound position 128 ltac:(lia)).
  pose proof (Z.div_mod (position + Z.of_nat len - 1) 128 ltac:(lia)).
  pose proof (Z.mod_pos_bound (position + Z.of_nat len - 1) 128 ltac:(lia)).
  destruct Hf. unfold SectorSize in *. nia.
Qed.

(** Bytes [p ..] of a list replaced by [from]. *)
Lemma splice_lookup (fb from : list Z) (p j : nat) :
  (p + length from <= length fb)%nat ->
  (take p fb ++ from ++ drop (p + length from) fb) !! j =
  if decide (p <= j < p + length from)%nat then from !! (j - p)%nat else fb !! j.
Proof.
  intros Hl. assert (Lt : length (take p fb) = p) by (rewrite length_take; lia).
  destruct (decide (p <= j < p + length from)%nat).
  - rewrite lookup_app_r, Lt, lookup_app_l by lia. done.
  - destruct (decide (j < p)%nat).
    + rewrite lookup_app_l, lookup_take_lt by lia. done.
    + rewrite lookup_app_r, Lt, lookup_app_r, lookup_drop by lia. f_equal. lia.
Qed.

Lemma same_file_blocks h h' : same_file h h' -> blocks h' = blocks h.
Proof. intros (_ & _ & E3 & E4). unfold blocks. by rewrite E3, E4. Qed.

Lemma block_bytes_same h h' c c' :
  same_file h h' -> (forall t, c' t = c t) -> block_bytes c' h' = block_bytes c h.
Proof.
  intros (_ & _ & E1 & E2) Hc. unfold block_bytes, blocks. rewrite E1, E2. f_equal.
  apply map_ext. done.
Qed.

(** The buffer that is written back: the new bytes, and around them those of
    the first and of the last sector. *)
Lemma WriteAt_buffer_spec f from (i K p : nat) s :
  let len := length from in
  ready s -> good s -> file_ok (hdr f) ->
  divRoundDown (Z.of_nat p) SectorSize = Z.of_nat i ->
  divRoundDown (Z.of_nat p + Z.of_nat len - 1) SectorSize = Z.of_nat (i + K - 1) ->
  (0 < K)%nat -> (128 * i <= p < 128 * i + 128)%nat ->
  (128 * (i + K - 1) < p + len <= 128 * (i + K))%nat ->
  exists buf h s', WriteAt_buffer f from (Z.of_nat p) s = Ok ((buf, set_hdr h f), s') /\
    same_file (hdr f) h /\ effect s s' (content s) /\ length buf = (128 * K)%nat /\
    forall j, (128 * i <= j < 128 * (i + K))%nat -> (j < Z.to_nat (numBytes (hdr f)))%nat ->
      buf !! (j - 128 * i)%nat =
        if decide (p <= j < p + len)%nat then from !! (j - p)%nat
        else block_bytes (content s) (hdr f) !! j.
Proof.
  intros len Hr Hg Hf Hfs Hls HK Hp1 Hp2. unfold WriteAt_buffer. fold len. rewrite Hfs, Hls.
  destruct (fresh_bytes_effect (Z.to_nat ((1 + Z.of_nat (i + K - 1) - Z.of_nat i) * SectorSize)) s Hr Hg)
    as (buf & s1 & E1 & L1 & _ & F1).
  assert (Lb : length buf = (128 * K)%nat) by (rewrite L1; unfold SectorSize; lia).
  mstep by exact E1.
  set (fa := Z.of_nat p =? Z.of_nat i * SectorSize).
  set (la := (Z.of_nat p + Z.of_nat len) =? (Z.of_nat (i + K - 1) + 1) * SectorSize).
  destruct (fill_from_file_spec (negb fa) f buf i 0 s1) as (buf1 & h1 & s2 & E2 & S1 & F2 & L2 & B1);
    [apply F1..|done|lia|].
  mstep by exact E2.
  set (c2 := negb la && (negb (Z.of_nat i =? Z.of_nat (i + K - 1)) || fa)).
  assert (Hf1 : file_ok (hdr (set_hdr h1 f))) by (by eapply file_ok_same).
  destruct (fill_from_file_spec c2 (set_hdr h1 f) buf1 (i + K - 1) (128 * (K - 1)) s2)
    as (buf2 & h2 & s3 & E3 & S2 & F3 & L3 & B2); [apply F2..|done|lia|].
  erewrite bind_run; cycle 1.
  { replace ((Z.of_nat (i + K - 1) - Z.of_nat i) * SectorSize) with (Z.of_nat (128 * (K - 1)))
      by (unfold SectorSize; lia). exact E3. }
  cbv beta iota.
  destruct (overlay_in buf2 (Z.of_nat p - Z.of_nat i * SectorSize) from) as (buf3 & E4 & L4 & B3);
    [unfold SectorSize; lia|rewrite L3, L2, Lb; unfold SectorSize; lia|].
  mstep by (apply lift_Ok; exact E4).
  exists buf3, h2, s3. splits; [reflexivity|by eapply same_file_trans| |congruence|].
  { eapply effect_ext; [eapply effect_trans; [exact F1|]; eapply effect_trans; [exact F2|exact F3]|].
    intros t. by rewrite (proj2 (proj2 (proj2 F2))), (proj2 (proj2 (proj2 F1))). }
  intros j Hj Hn. rewrite B3.
  replace (Z.to_nat (Z.of_nat p - Z.of_nat i * SectorSize)) with (p - 128 * i)%nat
    by (unfold SectorSize; lia).
  destruct (decide (p <= j < p + len)%nat) as [Hd|Hd];
    [rewrite decide_True by (unfold len in *; lia); f_equal; lia
    |rewrite decide_False by (unfold len in *; lia)].
  assert (Hn1 : numBytes h1 = numBytes (hdr f)) by apply S1.
  rewrite B2. match goal with |- context [decide ?P] => destruct (decide P) as [Hc2|Hc2] end.
  { rewrite <- (block_bytes_same (hdr f) h1 (content s) (content s2) S1).
    - cbn [hdr set_hdr]. f_equal. lia.
    - intros t. by rewrite (proj2 (proj2 (proj2 F2))), (proj2 (proj2 (proj2 F1))). }
  rewrite B1. match goal with |- context [decide ?P] => destruct (decide P) as [Hc1|Hc1] end.
  { rewrite (block_bytes_same (hdr f) (hdr f) (content s) (content s1)); [f_equal; lia|done|apply F1]. }
  exfalso. cbn [hdr set_hdr] in Hc2. rewrite Hn1 in Hc2. unfold c2, la, fa, SectorSize in *.
  destruct (decide (j < p)%nat); [apply Hc1; splits; lia|].
  destruct (Z.eqb_spec (Z.of_nat p) (Z.of_nat i * 128)); [apply Hc2; splits; lia|].
  destruct (decide (K = 1)%nat) as [->|]; [apply Hc1; splits; lia|].
  apply Hc2. rewrite orb_false_r, andb_true_iff, !negb_true_iff, !Z.eqb_neq. splits; lia.
Qed.

(** [WriteAt] within the file replaces exactly the bytes written, leaves every
    sector outside the file alone, and returns the number of bytes. *)
Lemma WriteAt_body_spec `{!SeesWrites R} f from position s :
  ready s -> good s -> file_ok (hdr f) -> 0 <= position -> (0 < length from)%nat ->
  position + Z.of_nat (length from) <= numBytes (hdr f) ->
  exists h s', WriteAt_body f from position s
      = Ok ((Z.of_nat (length from), set_hdr h f), s') /\
    same_file (hdr f) h /\ effect s s' (content s') /\
    file_bytes (content s') (hdr f) =
      take (Z.to_nat position) (file_bytes (content s) (hdr f)) ++ from ++
      drop (Z.to_nat position + length from) (file_bytes (content s) (hdr f)) /\
    forall t, t ∉ blocks (hdr f) -> content s' t = content s t.
Proof.
  intros Hr Hg Hf Hp Hlen Hend. unfold WriteAt_body.
  destruct (sector_span (hdr f) position (length from) Hf Hp Hlen Hend)
    as (i & K & p & -> & Hfs & Hls & HK & Hp1 & Hp2 & HiK).
  destruct (WriteAt_buffer_spec f from i K p s Hr Hg Hf Hfs Hls HK Hp1 Hp2)
    as (buf & h2 & s3 & E1 & S12 & F3 & Lb & B).
  rewrite Hfs, Hls. mstep by exact E1.
  assert (Hf2 : file_ok h2) by (by eapply file_ok_same).
  destruct (WriteAt_loop_spec h2 buf i K K i s3) as (s4 & E5 & F5 & W5 & O5);
    [apply F3..|done|lia|lia|lia| |].
  { destruct S12 as (_ & _ & -> & _). done. }
  mstep by (replace (Z.to_nat (1 + Z.of_nat (i + K - 1) - Z.of_nat i)) with K by lia; exact E5).
  destruct (SetLastModifyTime_effect h2 s4) as (t & s5 & E6 & _ & F6); [apply F5..|].
  mstep by exact E6.
  assert (C5 : forall t, content s5 t = content s4 t) by apply F6.
  assert (C3 : forall t, content s3 t = content s t) by apply F3.
  assert (Bl : blocks h2 = blocks (hdr f)) by (unfold blocks; destruct S12 as (_ & _ & -> & ->); done).
  exists (set_lastModifyTime t h2), s5. split; [reflexivity|]. split; [done|]. split; [|split].
  - eapply effect_trans; [exact F3|]. eapply effect_trans; [exact F5|].
    eapply effect_ext; [exact F6|]. done.
  - rewrite Nat2Z.id. pose proof (length_file_bytes s (hdr f) Hf) as La.
    pose proof (length_file_bytes s5 (hdr f) Hf) as La5.
    apply list_eq. intros j. rewrite splice_lookup by lia.
    destruct (decide (j < Z.to_nat (numBytes (hdr f)))%nat) as [Hj|Hj].
    2: { rewrite decide_False, !lookup_ge_None_2 by lia. done. }
    rewrite file_bytes_lookup, block_bytes_lookup by done. rewrite (file_bytes_lookup s) by done.
    pose proof (Nat.div_mod_eq j 128) as Dj. pose proof (Nat.mod_upper_bound j 128 ltac:(lia)) as Mj.
    destruct (lookup_lt_is_Some_2 (blocks (hdr f)) (j / 128)) as [tj Htj].
    { rewrite length_blocks by done. destruct Hf. apply Nat.Div0.div_lt_upper_bound. lia. }
    rewrite Htj. cbn [mbind option_bind]. rewrite C5, (W5 (j / 128)%nat) by (by rewrite Bl).
    destruct (decide (i <= j / 128 < i + K)%nat) as [Hin|Hin].
    + rewrite chunk_lookup by done.
      replace (128 * (j / 128 - i) + j mod 128)%nat with (j - 128 * i)%nat by lia. apply B; lia.
    + rewrite decide_False by lia. rewrite block_bytes_lookup, Htj. cbn. by rewrite C3.
  - intros t' Ht'. rewrite C5, O5 by (by rewrite Bl). apply C3.
Qed.

End Writing.

(** ** Whole calls *)

Section Calls.
Context `{E : Env} `{EO : !EnvOk E} `{R : SectorReader} `{RD : !ReadsDisk R}.

Lemma file_bytes_ext c c' h :
  (forall t, t ∈ blocks h -> c t = c' t) -> file_bytes c h = file_bytes c' h.
Proof.
  intros H. unfold file_bytes, block_bytes. do 2 f_equal. apply map_ext_in.
  intros t Ht. apply H. by apply list_elem_of_In.
Qed.

(** A write inside the file extends nothing: one level of fuel is enough. *)
Lemma WriteAt_inside `{!SeesWrites R} fuel f from position s :
  ready s -> good s -> file_ok (hdr f) -> 0 <= position -> (0 < length from)%nat ->
  position + Z.of_nat (length from) <= numBytes (hdr f) ->
  exists h s', WriteAt (S fuel) f from position s
      = Ok ((Z.of_nat (length from), set_hdr h f), s') /\
    same_file (hdr f) h /\ effect s s' (content s') /\
    file_bytes (content s') (hdr f) =
      take (Z.to_nat position) (file_bytes (content s) (hdr f)) ++ from ++
      drop (Z.to_nat position + length from) (file_bytes (content s) (hdr f)) /\
    forall t, t ∉ blocks (hdr f) -> content s' t = content s t.
Proof.
  intros Hr Hg Hf Hp Hlen Hend.
  destruct (WriteAt_body_spec f from position s Hr Hg Hf Hp Hlen Hend) as (h & s' & E1 & H).
  exists h, s'. split; [|done]. cbn [WriteAt].
  destruct (Z.leb_spec (Z.of_nat (length from)) 0); [lia|].
  mstep by (apply lift_Ok, int_add_in; destruct Hf; lia). unfold FileLength.
  destruct (Z.ltb_spec (numBytes (hdr f)) (position + Z.of_nat (length from))); [lia|].
  mstep. exact E1.
Qed.

Lemma add_visitorNum_spec t delta s :
  ready s -> good s -> 0 <= t < NumSectors ->
  exists s' v, add_visitorNum t delta s = Ok (tt, s') /\ ready s' /\ good s' /\
    (forall t', content s' t' = content s t') /\
    same_locks s s' /\ visitorNum s !! Z.to_nat t = Some v /\
    visitorNum s' = <[Z.to_nat t := v + delta]> (visitorNum s).
Proof.
  intros Hr Hg Ht. destruct Hr as [W I S L RL R1 R2 R3 R4 R5].
  destruct (lookup_lt_is_Some_2 (visitorNum s) (Z.to_nat t)) as [v Hv]; [rewrite R3; lia|].
  eexists _, v. split.
  { unfold add_visitorNum. mstep. mstep by (apply lift_Ok, arr_get_in; [lia|exact Hv]).
    mstep by (apply lift_Ok, arr_set_in; rewrite R3; lia). reflexivity. }
  split; [constructor; cbn; try done; by rewrite length_insert|].
  split; [by eapply good_frame|]. done.
Qed.

Lemma OpenFile_OpenFile_spec t s :
  ready s -> good s -> 0 <= t < NumSectors ->
  exists f s' v, OpenFile_OpenFile t s = Ok (f, s') /\ ready s' /\ good s' /\
    (forall t', content s' t' = content s t') /\
    fileSector f = t /\ seekPosition f = 0 /\
    same_file (bytes_header (content s t)) (hdr f) /\ same_locks s s' /\
    visitorNum s !! Z.to_nat t = Some v /\
    visitorNum s' = <[Z.to_nat t := v + 1]> (visitorNum s).
Proof.
  intros Hr Hg Ht. destruct (FetchFrom_spec t s Hr Hg Ht) as (vt & s1 & E1 & _ & F1).
  destruct (add_visitorNum_spec t 1 s1) as (s2 & v & E2 & R2 & G2 & C2 & L2 & V2 & V2');
    [apply F1..|done|].
  pose proof (same_locks_trans _ _ _ (effect_locks _ _ _ F1) L2) as L.
  destruct F1 as (_ & _ & (_ & _ & Hv) & C1). rewrite Hv in V2, V2'.
  eexists _, s2, v. split; [unfold OpenFile_OpenFile; mstep by exact E1; mstep by exact E2; reflexivity|].
  do 2 (split; [done|]). split; [intros t'; by rewrite C2, C1|]. done.
Qed.

(** ** The two system structures that live in files *)

Lemma bytes_table_app n l r : length l = (20 * n)%nat -> bytes_table n (l ++ r) = bytes_table n l.
Proof.
  revert l. induction n as [|n IH]; intros l Hl; [done|]. cbn [bytes_table].
  rewrite take_app_le, drop_app_le by lia. f_equal. apply IH. rewrite length_drop. lia.
Qed.

Lemma length_bytes_words b n : length b = (4 * n)%nat -> length (bytes_words b) = n.
Proof.
  revert b. induction n as [|n IH]; intros b Hb; [by destruct b|].
  destruct b as [|? [|? [|? [|? b]]]]; cbn in Hb; try lia. cbn. rewrite IH; [done|lia].
Qed.

Lemma bytes_words_uint b n : length b = (4 * n)%nat -> Forall is_uint (bytes_words b).
Proof.
  revert b. induction n as [|n IH]; intros b Hb; [by destruct b|].
  destruct b as [|? [|? [|? [|? b]]]]; cbn in Hb; try lia. cbn.
  constructor; [apply u32_range|]. apply IH. lia.
Qed.

Lemma bytes_words_roundtrip l : Forall is_uint l -> bytes_words (ints_bytes l) = l.
Proof.
  induction 1 as [|w l Hw _ IH]; [done|]. unfold ints_bytes in *. cbn [map concat].
  unfold int_bytes at 1. cbn [app bytes_words]. rewrite uint_of_int_bytes, IH.
  f_equal. rewrite (u32_small w) by done. by apply u32_small.
Qed.

Lemma new_BitMap_spec s :
  ready s -> good s ->
  exists b s', new_BitMap NumSectors s = Ok (b, s') /\ effect s s' (content s) /\
    wf b /\ numBits b = NumSectors /\ bits b = replicate 1024 false.
Proof.
  intros Hr Hg. unfold new_BitMap.
  destruct (fresh_bytes_effect (4 * Z.to_nat (divRoundUp NumSectors BitsInWord)) s Hr Hg)
    as (b & s1 & E1 & L1 & _ & F1).
  destruct (BitMap_BitMap_spec (bytes_words b) NumSectors) as (m & Em & Wm & Nm & Bm).
  - done.
  - by rewrite (length_bytes_words _ _ L1).
  - by eapply bytes_words_uint.
  - exists m, s1. mstep by exact E1. split; [by apply lift_Ok|]. done.
Qed.

Lemma new_Directory_spec n s :
  ready s -> good s ->
  exists d s', new_Directory (Z.of_nat n) s = Ok (d, s') /\ effect s s' (content s) /\
    tableSize d = Z.of_nat n /\ length (table d) = n /\ Forall unused (table d) /\
    Forall entry_wf (table d).
Proof.
  intros Hr Hg. unfold new_Directory. rewrite Nat2Z.id.
  destruct (fresh_bytes_effect (20 * n) s Hr Hg) as (b & s1 & E1 & L1 & _ & F1).
  destruct (bytes_table_wf n b L1) as [Wt Lt].
  pose proof (Directory_Directory_spec (bytes_table n b)) as Et. rewrite Lt in Et.
  eexists _, s1. mstep by exact E1. split; [by apply lift_Ok|].
  splits; try done; cbn [table].
  - by rewrite length_fmap.
  - apply clear_all_unused.
  - apply Forall_fmap. eapply Forall_impl; [exact Wt|]. intros e [? ? ?]. by constructor.
Qed.

(** [FetchFrom] of a file that holds the whole structure. *)
Lemma Directory_FetchFrom_spec d f n s :
  ready s -> good s -> file_ok (hdr f) -> tableSize d = Z.of_nat n ->
  numBytes (hdr f) = Z.of_nat (20 * n) ->
  exists h s', Directory_FetchFrom d f s =
      Ok ((mkDirectory (Z.of_nat n) (bytes_table n (file_bytes (content s) (hdr f))),
           set_hdr h f), s') /\
    same_file (hdr f) h /\ effect s s' (content s).
Proof.
  intros Hr Hg Hf Hn Hb. pose proof (length_file_bytes s (hdr f) Hf) as L.
  destruct (ReadAt_spec f (Z.of_nat n * 20) 0 s) as (h & s' & Hs & X & ER); try done;
    [destruct Hf; lia|].
  exists h, s'. split; [|done]. unfold Directory_FetchFrom. rewrite Hn.
  mstep by exact ER. unfold mret, M_ret. cbn [fst snd]. rewrite Nat2Z.id.
  rewrite drop_0, take_ge by lia. rewrite bytes_table_app by lia. done.
Qed.

Lemma BitMap_FetchFrom_spec b f s :
  ready s -> good s -> file_ok (hdr f) -> wf b -> numBits b = NumSectors ->
  numBytes (hdr f) = 128 ->
  exists h s', BitMap_FetchFrom b f s =
      Ok ((mkBitMap NumSectors 32 (bytes_words (file_bytes (content s) (hdr f))),
           set_hdr h f), s') /\
    same_file (hdr f) h /\ effect s s' (content s).
Proof.
  intros Hr Hg Hf Hw Hn Hb. pose proof (length_file_bytes s (hdr f) Hf) as L.
  destruct Hw as [_ W2 W3 _]. rewrite Hn in W2. change (divRoundUp NumSectors BitsInWord) with 32 in W2.
  destruct (ReadAt_spec f (32 * 4) 0 s) as (h & s' & Hs & X & ER); try done; try lia.
  exists h, s'. split; [|done]. unfold BitMap_FetchFrom. rewrite W2.
  mstep by exact ER. unfold mret, M_ret. cbn [fst snd].
  rewrite drop_0, take_ge by lia.
  rewrite (drop_ge (ints_bytes _)) by (rewrite length_ints_bytes; lia).
  rewrite app_nil_r. unfold BitMap.set_map. rewrite Hn, W2. done.
Qed.

Lemma fetched_map_wf c h :
  length (file_bytes c h) = 128%nat -> wf (mkBitMap NumSectors 32 (bytes_words (file_bytes c h))).
Proof.
  intros L. constructor; cbn [numBits numWords bm_map]; [done|done| |].
  - by rewrite (length_bytes_words _ 32 L).
  - by apply (bytes_words_uint _ 32).
Qed.

(** [WriteBack] of a structure that fills its file. *)
Lemma WriteBack_file_spec `{!SeesWrites R} fuel data f s :
  ready s -> good s -> file_ok (hdr f) -> (0 < length data)%nat ->
  numBytes (hdr f) = Z.of_nat (length data) ->
  exists h s', WriteAt (S fuel) f data 0 s = Ok ((Z.of_nat (length data), set_hdr h f), s') /\
    same_file (hdr f) h /\ effect s s' (content s') /\
    file_bytes (content s') (hdr f) = data /\
    forall t, t ∉ blocks (hdr f) -> content s' t = content s t.
Proof.
  intros Hr Hg Hf H0 Hb. pose proof (length_file_bytes s (hdr f) Hf) as L.
  destruct (WriteAt_inside fuel f data 0 s) as (h & s' & Ew & Hs & X & B & O);
    try done; try lia.
  exists h, s'. splits; try done. rewrite B, take_0, drop_ge by lia.
  cbn [app]. by rewrite app_nil_r.
Qed.

(** Sequential access: [Read] and [Write] at the seek position, by the only
    user of the file. *)
Lemma Read_spec f n s :
  ready s -> good s -> file_ok (hdr f) -> free_at (fileSector f) s ->
  0 <= seekPosition f -> seekPosition f + n < 2147483648 ->
  let r := take (Z.to_nat n) (drop (Z.to_nat (seekPosition f)) (file_bytes (content s) (hdr f))) in
  exists h s', Read f n s =
      Ok ((r, mkOpenFile (fileSector f) h (seekPosition f + Z.of_nat (length r))), s') /\
    same_file (hdr f) h /\ effect s s' (content s).
Proof.
  intros Hr Hg Hf Hfr Hp Hn r. destruct (reader_enters _ s Hr Hg Hfr) as (s1 & E1 & T1).
  pose proof T1 as (R1 & G1 & C1 & _).
  destruct (ReadAt_spec f n (seekPosition f) s1 R1 G1 Hf Hp Hn) as (h & s2 & Sh & X2 & E2).
  destruct (reader_leaves _ s s1 s2 _ Hfr T1 X2) as (s3 & E3 & X3).
  exists h, s3. split; [|split; [exact Sh|by eapply effect_ext]].
  unfold Read. mstep by exact E1. mstep by exact E2. mstep by exact E3.
  rewrite (file_bytes_ext (content s1) (content s)) by (intros; apply C1). reflexivity.
Qed.

Lemma Write_spec `{!SeesWrites R} fuel f from s :
  ready s -> good s -> file_ok (hdr f) -> free_at (fileSector f) s ->
  0 <= seekPosition f -> (0 < length from)%nat ->
  seekPosition f + Z.of_nat (length from) <= numBytes (hdr f) ->
  exists h s', Write (S fuel) f from s =
      Ok ((Z.of_nat (length from),
           mkOpenFile (fileSector f) h (seekPosition f + Z.of_nat (length from))), s') /\
    same_file (hdr f) h /\ effect s s' (content s') /\
    file_bytes (content s') (hdr f) =
      take (Z.to_nat (seekPosition f)) (file_bytes (content s) (hdr f)) ++ from ++
      drop (Z.to_nat (seekPosition f) + length from) (file_bytes (content s) (hdr f)) /\
    forall t, t ∉ blocks (hdr f) -> content s' t = content s t.
Proof.
  intros Hr Hg Hf Hfr Hp Hl Hn. destruct (writer_enters _ s Hr Hg Hfr) as (s1 & E1 & T1).
  pose proof T1 as (R1 & G1 & C1 & _).
  destruct (WriteAt_inside fuel f from (seekPosition f) s1 R1 G1 Hf Hp Hl Hn)
    as (h & s2 & E2 & Sh & X2 & B2 & O2).
  destruct (writer_leaves _ s s1 s2 _ Hfr T1 X2) as (s3 & E3 & X3).
  assert (C3 : forall t, content s3 t = content s2 t) by apply X3.
  exists h, s3. split; [unfold Write; mstep by exact E1; mstep by exact E2; mstep by exact E3; reflexivity|].
  split; [exact Sh|]. split; [eapply effect_ext; [exact X3|]; intros t; by rewrite C3|]. split.
  - rewrite (file_bytes_ext (content s3) (content s2)) by (intros; apply C3). rewrite B2.
    by rewrite (file_bytes_ext (content s1) (content s)) by (intros; apply C1).
  - intros t Ht. by rewrite C3, O2, C1.
Qed.

End Calls.

(** ** Properties *)

(** [ReadAt] reads the file.  For a file of at most 25 sectors, a position
    that is not negative and any byte count (the sum within an [int]),
    [ReadAt] returns exactly the bytes of the file from that position, cut at
    the end of the file; nothing on the disk changes, and of the header only
    the visit time.  It holds of every reader that reads the disk: of the
    source's cached [ReadSector] in coherent states. *)
Theorem openfile_ReadAt_file_bytes `{E : Env} `{EO : !EnvOk E} `{R : SectorReader}
    `{RD : !ReadsDisk R} f n position s :
  ready s -> good s -> file_ok (hdr f) -> 0 <= position -> position + n < 2147483648 ->
  exists h s', same_file (hdr f) h /\ effect s s' (content s) /\
    ReadAt f n position s = Ok ((take (Z.to_nat n) (drop (Z.to_nat position)
      (file_bytes (content s) (hdr f))), set_hdr h f), s').
Proof. apply ReadAt_spec. Qed.

Definition demo_file_header : FileHeader :=
  mkHeader 0 0 0 5 300 3 ([10; 11; 12] ++ replicate 23 0).
Definition demo_file : OpenFile := mkOpenFile 5 demo_file_header 0.

Lemma demo_file_ok : file_ok demo_file_header.
Proof.
  constructor; cbn; try lia.
  - repeat constructor; vm_compute; congruence.
  - apply (bool_decide_unpack _). by vm_compute.
Qed.

Lemma openfile_ReadAt_file_bytes_witness :
  exists s h s', SynchDisk_SynchDisk empty_cache None = Ok s /\
    @ReadAt zero_env (@ReadSector zero_env) demo_file 500 200 s
      = Ok ((replicate 100 0, set_hdr h demo_file), s').
Proof.
  destruct (SynchDisk_SynchDisk_fresh empty_cache eq_refl) as (s & Es & Rs & Cs & Ss).
  assert (Hc : coherent s) by (unfold coherent; rewrite Cs; repeat constructor; done).
  destruct (@openfile_ReadAt_file_bytes zero_env zero_env_ok ReadSector
    (@cached_reads_disk zero_env zero_env_ok) demo_file 500 200 s Rs Hc demo_file_ok
    ltac:(lia) ltac:(lia)) as (h & s' & _ & _ & Er).
  exists s, h, s'. split; [done|]. rewrite Er. do 3 f_equal.
  unfold file_bytes, block_bytes, blocks. cbn [hdr demo_file demo_file_header numSectors dataSectors].
  change (take (Z.to_nat 3) ([10; 11; 12] ++ replicate 23 0)) with [10; 11; 12].
  cbn [map concat]. rewrite !Ss by (vm_compute; split; congruence). reflexivity.
Defined.


