(* ===== verification/FileSystem.v ===== *)
(** * filesys/filesys.h, filesys/filesys.cc: the file system

    Directory, free map and headers composed the way filesys.cc composes them.
    The 'f' debugging flag is off.  A [char *] name is a byte list. *)
From S2P Require Import Prelude CInt BitMap Disk SynchDisk FileHeader Directory OpenFile.
From Stdlib Require Import ZArith Lia List Bool.
From stdpp Require Import base tactics list numbers gmap.
Local Open Scope Z_scope.

Definition FreeMapSector : Z := 0.
Definition DirectorySector : Z := 1.
Definition FreeMapFileSize : Z := NumSectors / BitsInByte.
Definition NumDirEntries : Z := 10.
Definition DirectoryFileSize : Z := 20 * NumDirEntries.
Definition MAXTHREADNUM : nat := 128.

Record FileSystem := mkFileSystem {
  OpenFileTable : list Z;
  freeMapFile : OpenFile;
  directoryFile : OpenFile }.

Definition set_freeMapFile f fs := mkFileSystem (OpenFileTable fs) f (directoryFile fs).
Definition set_directoryFile f fs := mkFileSystem (OpenFileTable fs) (freeMapFile fs) f.

(** The deepest nesting of [WriteAt] calls: a write that extends a file writes
    the free map back, and that write extends nothing. *)
Definition write_depth : nat := 2.

Section Operations.
Context `{E : Env} `{R : SectorReader}.

(** The formatting branch of the constructor: first the free map, the
    directory and the two headers in memory. *)
Definition format_allocate : M SynchDisk (Directory * FileHeader * FileHeader * BitMap) :=
  freeMap ← new_BitMap NumSectors;
  directory ← new_Directory NumDirEntries;
  mapHdr ← new_FileHeader;
  dirHdr ← new_FileHeader;
  x ← lift (Mark FreeMapSector freeMap);
  x ← lift (Mark DirectorySector x.2);
  r ← Allocate mapHdr x.2 FreeMapFileSize;
  let '(ok, mapHdr, freeMap) := r in
  _ ← ASSERT ok;
  r ← Allocate dirHdr freeMap DirectoryFileSize;
  let '(ok, dirHdr, freeMap) := r in
  _ ← ASSERT ok;
  mret (directory, mapHdr, dirHdr, freeMap).

(** ... then everything goes to the disk. *)
Definition FileSystem_format : M SynchDisk FileSystem :=
  x ← format_allocate;
  let '(directory, mapHdr, dirHdr, freeMap) := x in
  _ ← FileHeader.WriteBack mapHdr FreeMapSector;
  _ ← FileHeader.WriteBack dirHdr DirectorySector;
  freeMapFile ← OpenFile_OpenFile FreeMapSector;
  directoryFile ← OpenFile_OpenFile DirectorySector;
  freeMapFile ← BitMap_WriteBack write_depth freeMap freeMapFile;
  directoryFile ← Directory_WriteBack write_depth directory directoryFile;
  mret (mkFileSystem (replicate MAXTHREADNUM (-1)) freeMapFile directoryFile).

Definition FileSystem_FileSystem (format : bool) : M SynchDisk FileSystem :=
  if format then FileSystem_format
  else
    freeMapFile ← OpenFile_OpenFile FreeMapSector;
    directoryFile ← OpenFile_OpenFile DirectorySector;
    mret (mkFileSystem (replicate MAXTHREADNUM (-1)) freeMapFile directoryFile).

Definition Create (fs : FileSystem) (name : list Z) (initialSize : Z) :
    M SynchDisk (bool * FileSystem) :=
  directory ← new_Directory NumDirEntries;
  x ← Directory_FetchFrom directory (directoryFile fs);
  let '(directory, df) := x in
  let fs := set_directoryFile df fs in
  z ← lift (Directory.Find directory name);
  if negb (z =? -1) then mret (false, fs)
  else
    freeMap ← new_BitMap NumSectors;
    x ← BitMap_FetchFrom freeMap (freeMapFile fs);
    let '(freeMap, ff) := x in
    let fs := set_freeMapFile ff fs in
    x ← lift (BitMap.Find freeMap);
    let '(sector, freeMap) := x in
    if sector =? -1 then mret (false, fs)
    else
      x ← lift (Directory.Add name sector directory);
      let '(added, directory) := x in
      if negb added then mret (false, fs)
      else
        hdr ← new_FileHeader;
        x ← Allocate hdr freeMap initialSize;
        let '(ok, hdr, freeMap) := x in
        if negb ok then mret (false, fs)
        else
          _ ← FileHeader.WriteBack hdr sector;
          df ← Directory_WriteBack write_depth directory (directoryFile fs);
          ff ← BitMap_WriteBack write_depth freeMap (freeMapFile fs);
          mret (true, set_directoryFile df (set_freeMapFile ff fs)).

(** [Create(name, initialSize, type)]: the body does not use [type]. *)
Definition Create_typed (fs : FileSystem) (name : list Z) (initialSize : Z) (type : bool) :
    M SynchDisk (bool * FileSystem) := Create fs name initialSize.

(** [None] is the NULL that is returned when the name is not found. *)
Definition Open (fs : FileSystem) (name : list Z) :
    M SynchDisk (option OpenFile * FileSystem) :=
  directory ← new_Directory NumDirEntries;
  x ← Directory_FetchFrom directory (directoryFile fs);
  let '(directory, df) := x in
  let fs := set_directoryFile df fs in
  sector ← lift (Directory.Find directory name);
  if 0 <=? sector then
    openFile ← OpenFile_OpenFile sector;
    mret (Some openFile, fs)
  else mret (None, fs).

Definition Remove (fs : FileSystem) (name : list Z) : M SynchDisk (bool * FileSystem) :=
  directory ← new_Directory NumDirEntries;
  x ← Directory_FetchFrom directory (directoryFile fs);
  let '(directory, df) := x in
  let fs := set_directoryFile df fs in
  sector ← lift (Directory.Find directory name);
  if sector =? -1 then mret (false, fs)
  else
    fileHdr ← FileHeader.FetchFrom sector;
    freeMap ← new_BitMap NumSectors;
    x ← BitMap_FetchFrom freeMap (freeMapFile fs);
    let '(freeMap, ff) := x in
    let fs := set_freeMapFile ff fs in
    freeMap ← Deallocate fileHdr freeMap;
    x ← lift (Clear sector freeMap);
    y ← lift (Directory.Remove name directory);
    ff ← BitMap_WriteBack write_depth x.2 (freeMapFile fs);
    df ← Directory_WriteBack write_depth y.2 (directoryFile fs);
    mret (true, set_directoryFile df (set_freeMapFile ff fs)).

(** [List]: the names printed. *)
Definition List (fs : FileSystem) : M SynchDisk (list (list Z) * FileSystem) :=
  directory ← new_Directory NumDirEntries;
  x ← Directory_FetchFrom directory (directoryFile fs);
  names ← lift (Directory.List x.1);
  mret (names, set_directoryFile x.2 fs).

(** [Directory::Print]: of each entry in use, the sector of its header and
    what the header prints. *)
Fixpoint Directory_Print_loop (t : list DirectoryEntry) :
    M SynchDisk (list (Z * (list Z * list (list Z)))) :=
  match t with
  | [] => mret []
  | e :: t' =>
    if inUse e =? 0 then Directory_Print_loop t'
    else
      h ← FileHeader.FetchFrom (entry_sector e);
      p ← FileHeader.Print h;
      rest ← Directory_Print_loop t';
      mret ((entry_sector e, p) :: rest)
  end.

Definition Directory_Print (d : Directory) : M SynchDisk (list (Z * (list Z * list (list Z)))) :=
  Directory_Print_loop (take (Z.to_nat (tableSize d)) (table d)).

(** [Print]: what is printed of the two system files, the numbers of the
    sectors in use, and the directory. *)
Definition Print (fs : FileSystem) :
    M SynchDisk ((list Z * list (list Z)) * (list Z * list (list Z)) * list Z *
       list (Z * (list Z * list (list Z))) * FileSystem) :=
  freeMap ← new_BitMap NumSectors;
  directory ← new_Directory NumDirEntries;
  bitHdr ← FileHeader.FetchFrom FreeMapSector;
  p1 ← FileHeader.Print bitHdr;
  dirHdr ← FileHeader.FetchFrom DirectorySector;
  p2 ← FileHeader.Print dirHdr;
  x ← BitMap_FetchFrom freeMap (freeMapFile fs);
  used ← lift (BitMap.Print x.1);
  y ← Directory_FetchFrom directory (directoryFile fs);
  p3 ← Directory_Print y.1;
  mret (p1, p2, used.1, p3, set_directoryFile y.2 (set_freeMapFile x.2 fs)).

End Operations.

(** ** Concrete runs *)

Definition run_on_fresh {A} (m : M SynchDisk A) : outcome (A * SynchDisk) :=
  s ← SynchDisk_SynchDisk empty_cache None; m s.

(** Format a fresh disk, create a file of [size] bytes, open it: was it created,
    and was it found? *)
Definition create_open `{Env} `{SectorReader} (name : list Z) (size : Z) :
    M SynchDisk (bool * bool) :=
  fs ← FileSystem_FileSystem true;
  x ← Create fs name size;
  y ← Open x.2 name;
  mret (x.1, bool_decide (is_Some (fileSector <$> y.1))).

(** ** What is on the disk *)

Definition disk_map (c : Z -> list Z) (fs : FileSystem) : BitMap :=
  mkBitMap NumSectors 32 (bytes_words (file_bytes c (hdr (freeMapFile fs)))).

Definition disk_table (c : Z -> list Z) (fs : FileSystem) : list DirectoryEntry :=
  bytes_table 10 (file_bytes c (hdr (directoryFile fs))).

(** The two system files are in order, their sectors are marked in the free
    map, and the directory represents [m]. *)
Record fs_ok (c : Z -> list Z) (fs : FileSystem) (m : gmap (list Z) Z) (free : nat) : Prop := {
  fs_map_file : file_ok (hdr (freeMapFile fs));
  fs_map_bytes : numBytes (hdr (freeMapFile fs)) = 128;
  fs_dir_file : file_ok (hdr (directoryFile fs));
  fs_dir_bytes : numBytes (hdr (directoryFile fs)) = 200;
  fs_disjoint : forall t, t ∈ blocks (hdr (freeMapFile fs)) ->
    t ∉ blocks (hdr (directoryFile fs));
  fs_marked : forall t, t ∈ blocks (hdr (freeMapFile fs)) \/ t ∈ blocks (hdr (directoryFile fs)) ->
    bits (disk_map c fs) !! Z.to_nat t = Some true;
  fs_dir : represents (disk_table c fs) m free;
  fs_valid : forall k v, m !! k = Some v -> 0 <= v < NumSectors }.

(** Two handles on the same files. *)
Definition same_files (fs fs' : FileSystem) : Prop :=
  same_file (hdr (freeMapFile fs)) (hdr (freeMapFile fs')) /\
  same_file (hdr (directoryFile fs)) (hdr (directoryFile fs')).

Lemma disk_map_same c fs fs' : same_files fs fs' -> disk_map c fs' = disk_map c fs.
Proof. intros [H _]. unfold disk_map. by rewrite (file_bytes_same c _ _ H). Qed.

Lemma disk_table_same c fs fs' : same_files fs fs' -> disk_table c fs' = disk_table c fs.
Proof. intros [_ H]. unfold disk_table. by rewrite (file_bytes_same c _ _ H). Qed.

Lemma fs_ok_frame c c' fs m free :
  (forall t, t ∈ blocks (hdr (freeMapFile fs)) \/ t ∈ blocks (hdr (directoryFile fs)) -> c' t = c t) ->
  fs_ok c fs m free -> fs_ok c' fs m free.
Proof.
  intros H [F1 F2 F3 F4 F5 F6 F7 F8].
  assert (Hm : disk_map c' fs = disk_map c fs).
  { unfold disk_map. rewrite (file_bytes_ext c' c); [done|]. intros t Ht. apply H. by left. }
  assert (Ht : disk_table c' fs = disk_table c fs).
  { unfold disk_table. rewrite (file_bytes_ext c' c); [done|]. intros t Ht. apply H. by right. }
  constructor; rewrite ?Hm, ?Ht; done.
Qed.

Lemma fs_ok_ext c c' fs m free :
  (forall t, c' t = c t) -> fs_ok c fs m free -> fs_ok c' fs m free.
Proof. intros H. apply fs_ok_frame. intros t _. apply H. Qed.

Lemma disk_map_wf s fs m free : fs_ok (content s) fs m free -> wf (disk_map (content s) fs).
Proof.
  intros H. apply fetched_map_wf. rewrite length_file_bytes by apply H.
  by rewrite (fs_map_bytes _ _ _ _ H).
Qed.

Lemma disk_table_length s fs m free :
  fs_ok (content s) fs m free ->
  length (disk_table (content s) fs) = 10%nat /\ Forall entry_wf (disk_table (content s) fs).
Proof.
  intros H. destruct (bytes_table_wf 10 (file_bytes (content s) (hdr (directoryFile fs)))) as [? ?].
  - rewrite length_file_bytes by apply H. by rewrite (fs_dir_bytes _ _ _ _ H).
  - done.
Qed.

(** A map of all the sectors has 32 words. *)
Lemma sector_map_words b :
  wf b -> numBits b = NumSectors ->
  length (bm_map b) = 32%nat /\ mkBitMap NumSectors 32 (bm_map b) = b.
Proof.
  intros [_ W2 W3 _] Hn. rewrite Hn in W2. change (divRoundUp NumSectors BitsInWord) with 32 in W2.
  split; [lia|]. destruct b. cbn in Hn, W2 |- *. by subst.
Qed.

(** The two system files have their sizes and share no sector. *)
Record files_ok (fs : FileSystem) : Prop := {
  fl_map_file : file_ok (hdr (freeMapFile fs));
  fl_map_bytes : numBytes (hdr (freeMapFile fs)) = 128;
  fl_dir_file : file_ok (hdr (directoryFile fs));
  fl_dir_bytes : numBytes (hdr (directoryFile fs)) = 200;
  fl_disjoint : forall t, t ∈ blocks (hdr (freeMapFile fs)) ->
    t ∉ blocks (hdr (directoryFile fs)) }.

Lemma fs_ok_files c fs m free : fs_ok c fs m free -> files_ok fs.
Proof. intros [? ? ? ? ? ? ? ?]. by constructor. Qed.

Lemma files_ok_same fs fs' : same_files fs fs' -> files_ok fs -> files_ok fs'.
Proof.
  intros [S1 S2] [F1 F2 F3 F4 F5].
  constructor; rewrite ?(same_file_blocks _ _ S1), ?(same_file_blocks _ _ S2); try done.
  - by eapply file_ok_same.
  - by destruct S1 as (_ & -> & _).
  - by eapply file_ok_same.
  - by destruct S2 as (_ & -> & _).
Qed.

(** A file system is consistent if its files are in order and what they hold
    is. *)
Lemma fs_ok_intro c fs m free :
  files_ok fs ->
  (forall t, t ∈ blocks (hdr (freeMapFile fs)) \/ t ∈ blocks (hdr (directoryFile fs)) ->
     bits (disk_map c fs) !! Z.to_nat t = Some true) ->
  represents (disk_table c fs) m free ->
  (forall k v, m !! k = Some v -> 0 <= v < NumSectors) -> fs_ok c fs m free.
Proof. intros [? ? ? ? ?] ? ? ?. by constructor. Qed.

(** [fs_ok] depends on the handles up to their time stamps, and on the disk
    only at the sectors of the two files. *)
Lemma fs_ok_same c fs fs' m free : same_files fs fs' -> fs_ok c fs m free -> fs_ok c fs' m free.
Proof.
  intros HS Hok. pose proof HS as [S1 S2].
  apply fs_ok_intro; [by eapply files_ok_same, fs_ok_files| | |apply (fs_valid _ _ _ _ Hok)];
    rewrite ?(same_file_blocks _ _ S1), ?(same_file_blocks _ _ S2),
      ?(disk_map_same c _ _ HS), ?(disk_table_same c _ _ HS); apply Hok.
Qed.

Lemma same_files_refl fs : same_files fs fs.
Proof. split; apply same_file_refl. Qed.

Lemma same_files_trans fs1 fs2 fs3 :
  same_files fs1 fs2 -> same_files fs2 fs3 -> same_files fs1 fs3.
Proof. intros [? ?] [? ?]. split; by eapply same_file_trans. Qed.

Section Specs.
Context `{E : Env} `{EO : !EnvOk E} `{R : SectorReader} `{RD : !ReadsDisk R}.

(** The opening moves of every operation: a fresh directory filled from disk. *)
Lemma fetch_directory fs m free s :
  ready s -> good s -> fs_ok (content s) fs m free ->
  exists df s', same_files fs (set_directoryFile df fs) /\ effect s s' (content s) /\
    forall A (k : Directory * OpenFile -> M SynchDisk A),
      (directory ← new_Directory NumDirEntries;
       x ← Directory_FetchFrom directory (directoryFile fs); k x) s =
      k (mkDirectory 10 (disk_table (content s) fs), df) s'.
Proof.
  intros Hr Hg Hok. destruct (new_Directory_spec 10 s Hr Hg) as (d & s1 & E1 & X1 & T1 & _).
  destruct (Directory_FetchFrom_spec d (directoryFile fs) 10 s1) as (h & s2 & E2 & S2 & X2);
    [apply X1|apply X1|apply (fs_dir_file _ _ _ _ Hok)|exact T1
    |apply (fs_dir_bytes _ _ _ _ Hok)|].
  exists (set_hdr h (directoryFile fs)), s2.
  split; [split; [apply same_file_refl|exact S2]|]. split; [by eapply effect_quiet|].
  intros A k. mstep by exact E1. mstep by exact E2. unfold disk_table.
  rewrite (file_bytes_ext (content s1) (content s)); [done|].
  intros t _. apply X1.
Qed.

Lemma fetch_map fs m free s :
  ready s -> good s -> fs_ok (content s) fs m free ->
  exists ff s', same_files fs (set_freeMapFile ff fs) /\ effect s s' (content s) /\
    forall A (k : BitMap * OpenFile -> M SynchDisk A),
      (freeMap ← new_BitMap NumSectors;
       x ← BitMap_FetchFrom freeMap (freeMapFile fs); k x) s =
      k (disk_map (content s) fs, ff) s'.
Proof.
  intros Hr Hg Hok. destruct (new_BitMap_spec s Hr Hg) as (b & s1 & E1 & X1 & Wb & Nb & _).
  destruct (BitMap_FetchFrom_spec b (freeMapFile fs) s1) as (h & s2 & E2 & S2 & X2);
    [apply X1|apply X1|apply (fs_map_file _ _ _ _ Hok)|exact Wb|exact Nb
    |apply (fs_map_bytes _ _ _ _ Hok)|].
  exists (set_hdr h (freeMapFile fs)), s2.
  split; [split; [exact S2|apply same_file_refl]|]. split; [by eapply effect_quiet|].
  intros A k. mstep by exact E1. mstep by exact E2. unfold disk_map.
  rewrite (file_bytes_ext (content s1) (content s)); [done|].
  intros t _. apply X1.
Qed.

Lemma Find_on_disk fs m free s nm :
  fs_ok (content s) fs m free ->
  Directory.Find (mkDirectory 10 (disk_table (content s) fs)) nm
    = Ok (default (-1) (m !! key nm)).
Proof.
  intros H. apply (Directory.Find_map _ m free); [|apply (fs_dir _ _ _ _ H)].
  cbn [tableSize table]. by rewrite (proj1 (disk_table_length _ _ _ _ H)).
Qed.

(** [Open] looks the name up. *)
Lemma Open_spec fs m free s nm :
  ready s -> good s -> fs_ok (content s) fs m free ->
  exists fs' s' r, Open fs nm s = Ok ((r, fs'), s') /\ same_files fs fs' /\
    ready s' /\ good s' /\ (forall t, content s' t = content s t) /\
    match m !! key nm with
    | None => r = None /\ same_counters s s'
    | Some sec => exists f v, r = Some f /\ fileSector f = sec /\ seekPosition f = 0 /\
        same_file (bytes_header (content s sec)) (hdr f) /\ same_locks s s' /\
        visitorNum s !! Z.to_nat sec = Some v /\
        visitorNum s' = <[Z.to_nat sec := v + 1]> (visitorNum s)
    end.
Proof.
  intros Hr Hg Hok. destruct (fetch_directory fs m free s Hr Hg Hok) as (df & s1 & HS & X1 & K1).
  unfold Open. rewrite K1. mstep by (apply lift_Ok, (Find_on_disk fs m free); done).
  destruct (m !! key nm) as [sec|] eqn:Em; cbn [default from_option]; unfold id.
  - pose proof (fs_valid _ _ _ _ Hok _ _ Em) as Hv.
    destruct (Z.leb_spec 0 sec); [|lia].
    pose proof (effect_locks _ _ _ X1) as L1. destruct X1 as (R1 & G1 & (_ & _ & V1) & C1).
    destruct (OpenFile_OpenFile_spec sec s1 R1 G1 Hv)
      as (f & s2 & v & E2 & R2 & G2 & C2 & F1 & F2 & F3 & L2 & V2 & V2').
    eexists _, s2, (Some f). split; [mstep by exact E2; reflexivity|].
    split; [done|]. split; [done|]. split; [done|].
    split; [intros t; by rewrite C2, C1|].
    exists f, v. rewrite <- V1, <- (C1 sec). pose proof (same_locks_trans _ _ _ L1 L2). done.
  - eexists _, s1, None. split; [reflexivity|]. split; [done|]. destruct X1 as (? & ? & ? & ?). done.
Qed.

(** Writing one of the two structures back leaves the other one alone. *)
Lemma save_map_spec `{!SeesWrites R} fs fm s :
  ready s -> good s -> files_ok fs -> wf fm -> numBits fm = NumSectors ->
  exists ff s', BitMap_WriteBack write_depth fm (freeMapFile fs) s = Ok (ff, s') /\
    same_files fs (set_freeMapFile ff fs) /\ effect s s' (content s') /\
    disk_map (content s') fs = fm /\ disk_table (content s') fs = disk_table (content s) fs /\
    forall t, t ∉ blocks (hdr (freeMapFile fs)) -> content s' t = content s t.
Proof.
  intros Hr Hg HF Wm Nm. destruct (sector_map_words fm Wm Nm) as [Lw Em].
  destruct (WriteBack_file_spec 1 (ints_bytes (bm_map fm)) (freeMapFile fs) s)
    as (h & s' & E1 & S1 & X1 & B1 & O1); [done|done|apply HF| | |].
  { rewrite length_ints_bytes. lia. }
  { rewrite length_ints_bytes, Lw. apply HF. }
  exists (set_hdr h (freeMapFile fs)), s'. splits; try done.
  - unfold BitMap_WriteBack. by mstep by exact E1.
  - unfold disk_map. rewrite B1, bytes_words_roundtrip by apply Wm. exact Em.
  - unfold disk_table. f_equal. apply file_bytes_ext. intros t Ht. apply O1.
    intros Hin. by apply (fl_disjoint _ HF t).
Qed.

Lemma save_table_spec `{!SeesWrites R} fs dir s :
  ready s -> good s -> files_ok fs -> length (table dir) = 10%nat -> Forall entry_wf (table dir) ->
  exists df s', Directory_WriteBack write_depth dir (directoryFile fs) s = Ok (df, s') /\
    same_files fs (set_directoryFile df fs) /\ effect s s' (content s') /\
    disk_table (content s') fs = table dir /\ disk_map (content s') fs = disk_map (content s) fs /\
    forall t, t ∉ blocks (hdr (directoryFile fs)) -> content s' t = content s t.
Proof.
  intros Hr Hg HF Ld Wd. pose proof (length_table_bytes _ Wd) as Lt. rewrite Ld in Lt.
  destruct (WriteBack_file_spec 1 (table_bytes (table dir)) (directoryFile fs) s)
    as (h & s' & E1 & S1 & X1 & B1 & O1); [done|done|apply HF|lia|rewrite Lt; apply HF|].
  exists (set_hdr h (directoryFile fs)), s'. splits; try done.
  - unfold Directory_WriteBack. by mstep by exact E1.
  - unfold disk_table. rewrite B1, <- Ld. by apply table_bytes_roundtrip.
  - unfold disk_map. do 2 f_equal. apply file_bytes_ext. intros t Ht. apply O1.
    by apply (fl_disjoint _ HF t).
Qed.

(** Both, the map first. *)
Lemma save_both_spec `{!SeesWrites R} fs fm dir s :
  ready s -> good s -> files_ok fs -> wf fm -> numBits fm = NumSectors ->
  length (table dir) = 10%nat -> Forall entry_wf (table dir) ->
  exists ff df s', same_files fs (set_directoryFile df (set_freeMapFile ff fs)) /\
    effect s s' (content s') /\
    disk_map (content s') fs = fm /\ disk_table (content s') fs = table dir /\
    (forall t, t ∉ blocks (hdr (freeMapFile fs)) -> t ∉ blocks (hdr (directoryFile fs)) ->
       content s' t = content s t) /\
    forall A (k : OpenFile -> OpenFile -> M SynchDisk A),
      (ff ← BitMap_WriteBack write_depth fm (freeMapFile fs);
       df ← Directory_WriteBack write_depth dir (directoryFile fs); k ff df) s = k ff df s'.
Proof.
  intros Hr Hg HF Wm Nm Ld Wd.
  destruct (save_map_spec fs fm s) as (ff & s1 & E1 & S1 & X1 & M1 & _ & O1); [done..|].
  destruct (save_table_spec fs dir s1) as (df & s2 & E2 & S2 & X2 & T2 & M2 & O2); [apply X1..|done|done|done|].
  exists ff, df, s2. split; [split; [apply S1|apply S2]|]. split; [by eapply effect_trans|].
  split; [congruence|]. split; [done|]. split; [intros t H1 H2; by rewrite O2, O1|].
  intros A k. mstep by exact E1. mstep by exact E2. reflexivity.
Qed.

(** The last three writes of [Create] and what the disk holds after them. *)
Lemma flush_spec `{!SeesWrites R} fs s h k (dir : Directory) fm :
  ready s -> good s -> files_ok fs -> header_wf h -> 0 <= k < NumSectors ->
  k ∉ blocks (hdr (freeMapFile fs)) -> k ∉ blocks (hdr (directoryFile fs)) ->
  length (table dir) = 10%nat -> Forall entry_wf (table dir) ->
  wf fm -> numBits fm = NumSectors ->
  exists fs' s' t,
    (_ ← FileHeader.WriteBack h k;
     df ← Directory_WriteBack write_depth dir (directoryFile fs);
     ff ← BitMap_WriteBack write_depth fm (freeMapFile fs);
     mret (true, set_directoryFile df (set_freeMapFile ff fs))) s = Ok ((true, fs'), s') /\
    same_files fs fs' /\ effect s s' (content s') /\ is_int t /\
    disk_table (content s') fs' = table dir /\ disk_map (content s') fs' = fm /\
    content s' k = header_bytes (set_hdrSector k (set_lastModifyTime t h)) /\
    (forall t', t' <> k -> t' ∉ blocks (hdr (freeMapFile fs)) ->
       t' ∉ blocks (hdr (directoryFile fs)) -> content s' t' = content s t').
Proof.
  intros Hr Hg HF Hh Hk K1 K2 Ld Wd Wm Nm.
  destruct (FileHeader.WriteBack_spec h k s Hr Hg Hk (hw_len h Hh)) as (t & s1 & E1 & Ti & X1).
  destruct (save_table_spec fs dir s1) as (df & s2 & E2 & S2 & X2 & T2 & _ & O2); [apply X1..|done|done|done|].
  destruct (save_map_spec fs fm s2) as (ff & s3 & E3 & S3 & X3 & M3 & T3 & O3); [apply X2..|done|done|done|].
  set (fs' := set_directoryFile df (set_freeMapFile ff fs)).
  assert (HS : same_files fs fs') by (split; [apply S3|apply S2]).
  assert (C1 : forall t', content s1 t' = upd (content s) k
    (header_bytes (set_hdrSector k (set_lastModifyTime t h))) t') by apply X1.
  exists fs', s3, t. rewrite (disk_table_same _ _ _ HS), (disk_map_same _ _ _ HS).
  split; [mstep by exact E1; mstep by exact E2; mstep by exact E3; reflexivity|].
  split; [exact HS|]. split; [eapply effect_trans; [exact X1|]; eapply effect_trans; [exact X2|exact X3]|].
  split; [exact Ti|]. split; [by rewrite T3|]. split; [exact M3|]. split.
  - rewrite O3, O2, C1 by done. unfold upd. by rewrite decide_True.
  - intros t' Hne H1 H2. rewrite O3, O2, C1 by done. unfold upd. by rewrite decide_False.
Qed.

End Specs.

(** ** Outcomes of [Create] *)

Section CreateOutcomes.
Context `{E : Env} `{R : SectorReader} `{RD : !ReadsDisk R}.
Context (fs : FileSystem) (m : gmap (list Z) Z) (free : nat) (s : SynchDisk).
Context (nm : list Z) (size : Z).

(** FALSE is returned and the disk is as before. *)
Definition create_failed (r : outcome (bool * FileSystem * SynchDisk)) : Prop :=
  exists fs' s', r = Ok ((false, fs'), s') /\ same_files fs fs' /\ effect s s' (content s).

(** TRUE is returned; the name is in the directory with header sector [k]; the
    header describes a file of [size] bytes in the sectors from [j]; exactly
    these sectors have been marked; the other files' sectors are untouched. *)
Definition created (k j : nat) (r : outcome (bool * FileSystem * SynchDisk)) : Prop :=
  exists fs' s', r = Ok ((true, fs'), s') /\ same_files fs fs' /\ effect s s' (content s') /\
    fs_ok (content s') fs' (<[key nm := Z.of_nat k]> m) (free - 1) /\
    bits (disk_map (content s') fs') =
      mark_run (<[k := true]> (bits (disk_map (content s) fs))) j (sectors_for size) /\
    (let h := bytes_header (content s' (Z.of_nat k)) in
     header_wf h /\ hdrSector h = Z.of_nat k /\ numBytes h = size /\
     numSectors h = Z.of_nat (sectors_for size) /\
     take (sectors_for size) (dataSectors h) =
       seqZ (Z.of_nat j) (Z.of_nat (sectors_for size))) /\
    (forall t, t <> Z.of_nat k -> t ∉ blocks (hdr (freeMapFile fs)) ->
       t ∉ blocks (hdr (directoryFile fs)) -> content s' t = content s t).

End CreateOutcomes.

Section CreateSpec.
Context `{E : Env} `{EO : !EnvOk E} `{R : SectorReader} `{RD : !ReadsDisk R} `{SW : !SeesWrites R}.

Lemma fs_ok_step fs fs' m free s s' :
  same_files fs fs' -> effect s s' (content s) -> fs_ok (content s) fs m free ->
  fs_ok (content s') fs' m free.
Proof.
  intros HS X Hok. eapply fs_ok_same; [exact HS|].
  eapply fs_ok_ext; [|exact Hok]. apply X.
Qed.

Lemma disk_map_ext c c' fs : (forall t, c' t = c t) -> disk_map c' fs = disk_map c fs.
Proof. intros H. unfold disk_map. by rewrite (file_bytes_ext c' c). Qed.

(** A clear bit is not a sector of the system files. *)
Lemma clear_not_system c fs m free k :
  fs_ok c fs m free -> bits (disk_map c fs) !! k = Some false ->
  Z.of_nat k ∉ blocks (hdr (freeMapFile fs)) /\ Z.of_nat k ∉ blocks (hdr (directoryFile fs)).
Proof.
  intros H Hk. split; intros Hin;
    pose proof (fs_marked _ _ _ _ H (Z.of_nat k)) as Hm; rewrite Nat2Z.id in Hm;
    rewrite Hm in Hk by tauto; done.
Qed.

(** The header that [Allocate] fills in. *)
Lemma allocated_wf h h' size j (n := sectors_for size) :
  header_wf h -> stamped h (set_dataSectors (dataSectors h) h') size ->
  dataSectors h' = seqZ (Z.of_nat j) (Z.of_nat n) ++ drop n (dataSectors h) ->
  0 <= size -> (n <= 26)%nat -> (j + n <= 1024)%nat ->
  header_wf h' /\ numBytes h' = size /\ numSectors h' = Z.of_nat n /\
  blocks h' = seqZ (Z.of_nat j) (Z.of_nat n).
Proof.
  intros [w1 w2 w3 w4 w5 w6 w7 w8] (T1 & T2 & T3 & St4 & St5 & St6 & _) Hd H0 Hn Hj.
  cbn in T1, T2, T3, St4, St5, St6. pose proof (sectors_for_Z size H0) as Hz. fold n in Hz.
  assert (Hsz : size <= 26 * 128).
  { pose proof (proj1 (divRoundUp_spec size 128 26 H0 ltac:(lia))). unfold SectorSize in *. lia. }
  rewrite Hz in St6. split; [|split; [done|split; [done|]]].
  - constructor; try done.
    + by rewrite St4.
    + rewrite St5. unfold is_int. lia.
    + rewrite St6. unfold is_int. lia.
    + rewrite Hd, length_app, length_seqZ, length_drop. lia.
    + rewrite Hd. apply Forall_app. split; [|by apply Forall_drop].
      apply Forall_lookup. intros i x Hx. apply lookup_seqZ in Hx as [-> Hx]. unfold is_int. lia.
  - unfold blocks. rewrite St6, Hd, Nat2Z.id. rewrite take_app_length'; [done|]. rewrite length_seqZ. lia.
Qed.

(** The tail of [Create], from the point where the header is allocated. *)
Definition Create_tail (fs : FileSystem) (sector : Z) (directory : Directory)
    (freeMap : BitMap) (initialSize : Z) : M SynchDisk (bool * FileSystem) :=
  hdr ← new_FileHeader;
  x ← Allocate hdr freeMap initialSize;
  let '(ok, hdr, freeMap) := x in
  if negb ok then mret (false, fs)
  else
    _ ← FileHeader.WriteBack hdr sector;
    df ← Directory_WriteBack write_depth directory (directoryFile fs);
    ff ← BitMap_WriteBack write_depth freeMap (freeMapFile fs);
    mret (true, set_directoryFile df (set_freeMapFile ff fs)).

Lemma Create_tail_spec fs m free s nm size k dir fm1 :
  ready s -> good s -> fs_ok (content s) fs m free -> 0 <= size ->
  (sectors_for size <= 26)%nat -> bits (disk_map (content s) fs) !! k = Some false ->
  tableSize dir = 10 -> length (table dir) = 10%nat -> Forall entry_wf (table dir) ->
  represents (table dir) (<[key nm := Z.of_nat k]> m) (free - 1) ->
  wf fm1 -> numBits fm1 = NumSectors ->
  bits fm1 = <[k := true]> (bits (disk_map (content s) fs)) ->
  let bs := bits fm1 in let n := sectors_for size in
  let r := Create_tail fs (Z.of_nat k) dir fm1 size s in
  (create_failed fs s r /\ (count_clear bs < n)%nat) \/
  (exists j, (n <= count_clear bs)%nat /\ clear_run bs j n = true /\
     (forall l, (l < j)%nat -> clear_run bs l n = false) /\ created fs m free s nm size k j r) \/
  ((n <= count_clear bs)%nat /\ (forall j, clear_run bs j n = false) /\ r = Fault AssertFailure).
Proof.
  intros Hr Hg Hok H0 Hn Hk Dt Dl Dw Drep Wm Nm Bm bs n r.
  pose proof (lookup_lt_Some _ _ _ Hk) as Hlt. rewrite length_bits in Hlt.
  assert (Hv : 0 <= Z.of_nat k < NumSectors) by (cbn [numBits disk_map] in Hlt; lia).
  destruct (clear_not_system _ _ _ _ _ Hok Hk) as [K1 K2].
  destruct (new_FileHeader_effect s Hr Hg) as (h0 & s1 & E1 & W0 & X1).
  unfold r, Create_tail. rewrite (bind_run _ _ _ _ _ E1). cbv beta.
  destruct (Allocate_small_cases h0 fm1 size s1) as
    [(h' & s2 & Hc & _ & Ea & X2)|[(j & h' & fm2 & s2 & Hc & Hrun & Hmin & Ea & St & Hd & Ha & X2)
    |(Hc & Hno & Ea)]]; [apply X1|apply X1|done|done|apply W0|done|done| | |].
  - left. split; [|done]. eexists _, s2. split; [by mstep by exact Ea|].
    split; [split; apply same_file_refl|]. by eapply effect_quiet.
  - right; left. exists j. split; [done|]. split; [done|]. split; [done|].
    destruct Ha as (W2 & N2 & B2). pose proof (clear_run_fits _ _ _ Hrun Hmin) as Hfit.
    assert (Hj : (j + n <= 1024)%nat) by (rewrite length_bits, Nm in Hfit; exact Hfit).
    destruct (allocated_wf h0 h' size j) as (Wh & Hb & Hs & Hbl); [done..|].
    destruct (flush_spec fs s2 h' (Z.of_nat k) dir fm2)
      as (fs' & s3 & t & Ef & HS & X3 & Ti & Ht3 & Hm3 & C3 & O3);
      [apply X2|apply X2|by eapply fs_ok_files|exact Wh|exact Hv|exact K1|exact K2|exact Dl|exact Dw
      |exact W2|congruence|].
    pose proof (written_back_wf h' t (Z.of_nat k) Wh Ti Hv) as Wf.
    exists fs', s3. split; [mstep by exact Ea; exact Ef|]. split; [exact HS|].
    split; [eapply effect_trans; [exact X1|]; eapply effect_trans; [exact X2|exact X3]|].
    split; [|split; [|split]].
    + pose proof HS as [S1 S2]. apply fs_ok_intro; rewrite ?Hm3, ?Ht3.
      * eapply files_ok_same; [exact HS|by eapply fs_ok_files].
      * rewrite (same_file_blocks _ _ S1), (same_file_blocks _ _ S2).
        intros t' Ht'. rewrite B2, lookup_mark_run by done. case_decide; [done|]. rewrite Bm.
        destruct (decide (k = Z.to_nat t')) as [<-|Hne];
          [apply list_lookup_insert_eq; by eapply lookup_lt_Some|].
        rewrite list_lookup_insert_ne by done. by apply (fs_marked _ _ _ _ Hok).
      * exact Drep.
      * intros k' v Hv'. apply lookup_insert_Some in Hv' as [[_ <-]|[_ Hv']]; [done|].
        by eapply (fs_valid _ _ _ _ Hok).
    + rewrite Hm3, B2, Bm. done.
    + cbv zeta. rewrite C3, header_roundtrip by exact Wf. split; [exact Wf|].
      cbn [hdrSector numBytes numSectors dataSectors set_hdrSector set_lastModifyTime].
      splits; try done. unfold blocks in Hbl. rewrite Hs, Nat2Z.id in Hbl. exact Hbl.
    + intros t' H1 H2 H3. rewrite O3 by done. rewrite (proj2 (proj2 (proj2 X2))). apply X1.
  - right; right. split; [done|]. split; [done|].
    unfold mbind, M_bind. by rewrite Ea.
Qed.

(** All outcomes of [Create] for a file of at most 26 sectors. *)
Lemma Create_spec fs m free s nm size :
  ready s -> good s -> fs_ok (content s) fs m free -> 0 <= size ->
  (sectors_for size <= 26)%nat ->
  let r := Create fs nm size s in
  match m !! key nm, find_clear (bits (disk_map (content s) fs)) with
  | None, Some k =>
      let bs := <[k := true]> (bits (disk_map (content s) fs)) in
      let n := sectors_for size in
      if decide (free = 0 \/ count_clear bs < n)%nat then create_failed fs s r
      else (exists j, clear_run bs j n = true /\
              (forall l, (l < j)%nat -> clear_run bs l n = false) /\
              created fs m free s nm size k j r) \/
           ((forall j, clear_run bs j n = false) /\ r = Fault AssertFailure)
  | _, _ => create_failed fs s r
  end.
Proof.
  intros Hr Hg Hok H0 Hn r.
  destruct (fetch_directory fs m free s Hr Hg Hok) as (df & s1 & HS1 & X1 & K1).
  unfold r, Create. rewrite K1. mstep by (apply lift_Ok, (Find_on_disk fs m free); done).
  destruct (m !! key nm) as [sec|] eqn:Em; cbn [default from_option]; unfold id.
  { pose proof (fs_valid _ _ _ _ Hok _ _ Em). destruct (Z.eqb_spec sec (-1)); [lia|].
    eexists _, s1. split; [reflexivity|]. split; [exact HS1|exact X1]. }
  cbn [Z.eqb negb Pos.eqb]. set (fs1 := set_directoryFile df fs) in *.
  pose proof (fs_ok_step _ _ _ _ _ _ HS1 X1 Hok) as Hok1.
  destruct (fetch_map fs1 m free s1) as (ff & s2 & HS2 & X2 & K2); [apply X1..|done|].
  rewrite K2. set (fs2 := set_freeMapFile ff fs1) in *.
  pose proof (same_files_trans _ _ _ HS1 HS2) as HS.
  pose proof (effect_quiet _ _ _ X1 X2) as X.
  assert (Em1 : disk_map (content s1) fs1 = disk_map (content s) fs).
  { rewrite (disk_map_same _ _ _ HS1). apply disk_map_ext. apply X1. }
  rewrite Em1. pose proof (disk_map_wf _ _ _ _ Hok) as Wm.
  pose proof (Find_spec _ Wm) as HF.
  destruct (find_clear (bits (disk_map (content s) fs))) as [k|] eqn:Ek.
  2: { mstep by (apply lift_Ok; exact HF). eexists _, s2. split; [reflexivity|]. done. }
  destruct HF as (fm1 & EF & W1 & N1 & B1). mstep by (apply lift_Ok; exact EF).
  destruct (Z.eqb_spec (Z.of_nat k) (-1)); [lia|].
  apply find_clear_Some in Ek as [Ek _].
  destruct (disk_table_length _ _ _ _ Hok) as [Lt Wt].
  assert (Hts : tableSize (mkDirectory 10 (disk_table (content s) fs)) =
    Z.of_nat (length (table (mkDirectory 10 (disk_table (content s) fs))))) by (cbn [tableSize table]; lia).
  destruct (Add_map (mkDirectory 10 (disk_table (content s) fs)) m free Hts
    (fs_dir _ _ _ _ Hok) nm (Z.of_nat k)) as (d' & Hd' & HA).
  pose proof (lookup_lt_Some _ _ _ Ek) as Hlt. rewrite length_bits in Hlt.
  change (Z.to_nat (numBits (disk_map (content s) fs))) with 1024%nat in Hlt.
  destruct (decide (m !! key nm = None /\ (0 < free)%nat)) as [[_ Hf]|Hf].
  2: { destruct HA as [EA _]. assert (free = 0)%nat as -> by (destruct free; [done|destruct Hf; split; [done|lia]]).
       mstep by (apply lift_Ok; exact EA). rewrite decide_True by (by left).
       eexists _, s2. split; [reflexivity|]. done. }
  destruct HA as [EA Hrep]. mstep by (apply lift_Ok; exact EA). cbn [negb].
  assert (Hint : is_int (Z.of_nat k)) by (unfold is_int; lia).
  destruct (Add_wf _ _ _ _ _ Hts Hint Wt EA) as (T1 & T2 & T3).
  cbn [tableSize table] in T1, T2.
  pose proof (fs_ok_step _ _ _ _ _ _ HS X Hok) as Hok2.
  assert (Em2 : disk_map (content s2) fs2 = disk_map (content s) fs).
  { rewrite (disk_map_same _ _ _ HS). apply disk_map_ext. apply X. }
  destruct (Create_tail_spec fs2 m free s2 nm size k d' fm1) as [[HT Hc]|[HT|HT]];
    [apply X|apply X|exact Hok2|done|done|by rewrite Em2|done|congruence|exact T3|exact Hrep
    |exact W1|exact N1|by rewrite Em2| | |].
  - rewrite decide_True by (right; by rewrite <- B1). destruct HT as (fs' & s' & Er & HS' & X').
    exists fs', s'. split; [exact Er|]. split; [by eapply same_files_trans|by eapply effect_quiet].
  - destruct HT as (j & Hc & Hrun & Hmin & fs' & s' & Er & HS' & X' & O' & B' & H' & U').
    rewrite B1 in Hc, Hrun, Hmin.
    rewrite decide_False by lia. left. exists j. split; [done|]. split; [done|].
    exists fs', s'. split; [exact Er|]. split; [by eapply same_files_trans|].
    split; [by eapply effect_trans|]. split; [exact O'|]. split; [by rewrite B', Em2|].
    split; [exact H'|]. pose proof HS as [S1 S2].
    rewrite (same_file_blocks _ _ S1), (same_file_blocks _ _ S2) in U'.
    intros t A1 A2 A3. rewrite U' by done. apply X.
  - destruct HT as (Hc & Hno & Er). rewrite B1 in Hc, Hno. rewrite decide_False by lia.
    right. split; [done|exact Er].
Qed.

End CreateSpec.

(** ** Removal *)

Section RemoveSpec.
Context `{E : Env} `{EO : !EnvOk E} `{R : SectorReader} `{RD : !ReadsDisk R} `{SW : !SeesWrites R}.

(** What [Remove] needs of the file with its header in sector [sec]: its
    sectors are listed in the header, distinct and marked, and neither they
    nor the header belong to the two system files. *)
Record removable (c : Z -> list Z) (fs : FileSystem) (sec : Z) : Prop := {
  rm_sectors : 0 <= numSectors (bytes_header (c sec)) <= 26;
  rm_nodup : NoDup (blocks (bytes_header (c sec)));
  rm_marked : Forall (fun t => 0 <= t /\ bits (disk_map c fs) !! Z.to_nat t = Some true)
                (blocks (bytes_header (c sec)));
  rm_apart : forall t, t = sec \/ t ∈ blocks (bytes_header (c sec)) ->
    t ∉ blocks (hdr (freeMapFile fs)) /\ t ∉ blocks (hdr (directoryFile fs)) }.

(** TRUE is returned, the name is gone, exactly the sectors of the file and of
    its header have been cleared, no sector outside the system files is
    written. *)
Definition removed (fs : FileSystem) (m : gmap (list Z) Z) (free : nat) (s : SynchDisk)
    (nm : list Z) (sec : Z) (r : outcome (bool * FileSystem * SynchDisk)) : Prop :=
  exists fs' s', r = Ok ((true, fs'), s') /\ same_files fs fs' /\ effect s s' (content s') /\
    fs_ok (content s') fs' (delete (key nm) m) (S free) /\
    (forall k, (k < 1024)%nat -> bits (disk_map (content s') fs') !! k =
       if decide (Z.of_nat k = sec \/ Z.of_nat k ∈ blocks (bytes_header (content s sec)))
       then Some false else bits (disk_map (content s) fs) !! k) /\
    (forall t, t ∉ blocks (hdr (freeMapFile fs)) -> t ∉ blocks (hdr (directoryFile fs)) ->
       content s' t = content s t).

(** The map after the file's sectors and its header have been cleared. *)
Lemma clear_file_spec c fs sec h n s :
  wf (disk_map c fs) -> removable c fs sec -> 0 <= sec < NumSectors ->
  same_file (bytes_header (c sec)) h -> length (dataSectors h) = 26%nat ->
  numSectors h = Z.of_nat n ->
  exists fm1 fm2, Deallocate h (disk_map c fs) s = Ok (fm1, s) /\ Clear sec fm1 = Ok (tt, fm2) /\
    wf fm2 /\ numBits fm2 = NumSectors /\
    forall k, (k < 1024)%nat -> bits fm2 !! k =
      if decide (Z.of_nat k = sec \/ Z.of_nat k ∈ blocks (bytes_header (c sec)))
      then Some false else bits (disk_map c fs) !! k.
Proof.
  intros Hw [H1 H2 H3 _] Hs Sf Hl Hn. pose proof (same_file_blocks _ _ Sf) as Hb.
  assert (Hn26 : (n <= 26)%nat) by (destruct Sf as (_ & _ & E3 & _); lia).
  assert (Ht : take n (dataSectors h) = blocks (bytes_header (c sec))).
  { rewrite <- Hb. unfold blocks. by rewrite Hn, Nat2Z.id. }
  destruct (Deallocate_listed h (disk_map c fs) n s) as (fm1 & E1 & W1 & N1 & B1);
    rewrite ?Ht; [done..|].
  change (numBits (disk_map c fs)) with NumSectors in N1.
  assert (L1 : length (bits fm1) = 1024%nat) by (by rewrite length_bits, N1).
  destruct (Clear_spec fm1 (Z.to_nat sec) W1) as (fm2 & E2 & W2 & N2 & B2).
  { rewrite L1. unfold NumSectors, SectorsPerTrack, NumTracks in Hs. lia. }
  rewrite Z2Nat.id in E2 by lia. exists fm1, fm2. splits; try done; [congruence|].
  intros k Hk. rewrite B2. destruct (decide (Z.of_nat k = sec)) as [<-|Hne].
  - rewrite Nat2Z.id, list_lookup_insert_eq, decide_True by (by left || by rewrite L1). done.
  - rewrite list_lookup_insert_ne, B1, Ht by lia. repeat case_decide; tauto.
Qed.

Lemma Remove_spec fs m free s nm :
  ready s -> good s -> fs_ok (content s) fs m free ->
  match m !! key nm with
  | None => exists fs' s', Remove fs nm s = Ok ((false, fs'), s') /\ same_files fs fs' /\
      effect s s' (content s)
  | Some sec => removable (content s) fs sec -> removed fs m free s nm sec (Remove fs nm s)
  end.
Proof.
  intros Hr Hg Hok. destruct (fetch_directory fs m free s Hr Hg Hok) as (df & s1 & HS1 & X1 & K1).
  unfold Remove. rewrite K1. rewrite (bind_run _ _ _ _ _ (lift_Ok _ _ _ (Find_on_disk fs m free s nm Hok))).
  destruct (m !! key nm) as [sec|] eqn:Em; cbn [default from_option]; unfold id.
  2: { eexists _, s1. split; [reflexivity|]. done. }
  pose proof (fs_valid _ _ _ _ Hok _ _ Em) as Hv. intros Hrm.
  destruct (Z.eqb_spec sec (-1)); [lia|].
  destruct (FileHeader.FetchFrom_spec sec s1) as (t & s2 & E2 & _ & X2); [apply X1..|done|].
  mstep by exact E2. rewrite (proj2 (proj2 (proj2 X1))).
  set (h := set_lastVistTime t (bytes_header (content s sec))).
  set (fs1 := set_directoryFile df fs) in *. pose proof (effect_quiet _ _ _ X1 X2) as X.
  pose proof (fs_ok_step _ _ _ _ _ _ HS1 X Hok) as Hok1.
  destruct (fetch_map fs1 m free s2) as (ff & s3 & HS2 & X3 & K3); [apply X2..|done|].
  rewrite K3. assert (Em1 : disk_map (content s2) fs1 = disk_map (content s) fs).
  { rewrite (disk_map_same _ _ _ HS1). apply disk_map_ext. apply X. }
  rewrite Em1. pose proof (bytes_header_wf (content s sec) (length_sector _ _)) as Wh.
  destruct (clear_file_spec (content s) fs sec h (Z.to_nat (numSectors (bytes_header (content s sec)))) s3)
    as (fm1 & fm2 & Ed & Ec & W2 & N2 & B2);
    [by eapply disk_map_wf|done|done|by subst h|apply Wh
    |symmetry; apply Z2Nat.id, (rm_sectors _ _ _ Hrm)|].
  mstep by exact Ed. mstep by (apply lift_Ok; exact Ec).
  destruct (disk_table_length _ _ _ _ Hok) as [Lt Wt].
  assert (Hts : tableSize (mkDirectory 10 (disk_table (content s) fs)) =
    Z.of_nat (length (table (mkDirectory 10 (disk_table (content s) fs))))) by (cbn [tableSize table]; lia).
  destruct (Remove_map (mkDirectory 10 (disk_table (content s) fs)) m free Hts (fs_dir _ _ _ _ Hok) nm) as (d' & _ & HR).
  rewrite decide_False in HR by congruence. destruct HR as [ER Hrep].
  destruct (Remove_wf _ _ _ _ Hts Wt ER) as [Ld Wd]. cbn [table] in Ld.
  mstep by (apply lift_Ok; exact ER). set (fs2 := set_freeMapFile ff fs1) in *.
  pose proof (same_files_trans _ _ _ HS1 HS2) as HS.
  assert (HF : files_ok fs2) by (eapply files_ok_same; [exact HS|by eapply fs_ok_files]).
  destruct (save_both_spec fs2 fm2 d' s3) as (ff' & df' & s4 & HS' & X4 & M4 & T4 & O4 & K4);
    [apply X3|apply X3|exact HF|exact W2|exact N2|congruence|exact Wd|].
  rewrite K4. set (fs' := set_directoryFile df' (set_freeMapFile ff' fs2)) in *.
  pose proof HS as [B1 B1']. apply same_file_blocks in B1. apply same_file_blocks in B1'.
  exists fs', s4. split; [reflexivity|]. split; [by eapply same_files_trans|].
  split; [eapply effect_trans; [exact X|]; eapply effect_trans; [exact X3|exact X4]|].
  rewrite (disk_map_same _ _ _ HS'), M4. split; [|split; [exact B2|]].
  - eapply fs_ok_same; [exact HS'|]. apply fs_ok_intro; [exact HF| |by rewrite T4|].
    + rewrite M4, B1, B1'. intros t' Ht'.
      pose proof (fs_marked _ _ _ _ Hok t' Ht') as Hm. pose proof (lookup_lt_Some _ _ _ Hm) as Hlt.
      rewrite length_bits in Hlt. rewrite B2 by exact Hlt. rewrite decide_False; [done|].
      assert (0 <= t').
      { destruct Ht' as [Ht'|Ht']; revert t' Ht' Hm Hlt;
          [pose proof (fo_valid _ (fs_map_file _ _ _ _ Hok)) as HV
          |pose proof (fo_valid _ (fs_dir_file _ _ _ _ Hok)) as HV];
          rewrite Forall_forall in HV; intros t' Ht' _ _; by apply HV. }
      rewrite Z2Nat.id by done. intros Hbad. by destruct (rm_apart _ _ _ Hrm t' Hbad), Ht'.
    + intros k v [_ Hk]%lookup_delete_Some. by eapply (fs_valid _ _ _ _ Hok).
  - intros t' H1 H2. rewrite O4 by (rewrite ?B1, ?B1'; done).
    rewrite (proj2 (proj2 (proj2 X3))). apply X.
Qed.

End RemoveSpec.

(** ** Created files *)

Section Created.
Context `{E : Env} `{EO : !EnvOk E} `{R : SectorReader} `{RD : !ReadsDisk R} `{SW : !SeesWrites R}.
Context (fs : FileSystem) (m : gmap (list Z) Z) (free : nat) (s : SynchDisk).
Context (nm : list Z) (size : Z) (fs1 : FileSystem) (s1 : SynchDisk).
Hypothesis Hready : ready s.
Hypothesis Hgood : good s.
Hypothesis Hok : fs_ok (content s) fs m free.
Hypothesis Hsize : 0 <= size.
Hypothesis H26 : (sectors_for size <= 26)%nat.
Hypothesis Hcreate : Create fs nm size s = Ok ((true, fs1), s1).

Let old := bits (disk_map (content s) fs).
Let n := sectors_for size.

(** What a successful [Create] tells. *)
Lemma Create_true_inv :
  exists k j, m !! key nm = None /\ (0 < free)%nat /\ find_clear old = Some k /\
    old !! k = Some false /\ clear_run (<[k := true]> old) j n = true /\ (j + n <= 1024)%nat /\
    (forall l, (l < j)%nat -> clear_run (<[k := true]> old) l n = false) /\
    created fs m free s nm size k j (Ok ((true, fs1), s1)).
Proof.
  pose proof (Create_spec fs m free s nm size Hready Hgood Hok Hsize H26) as H.
  cbv zeta in H. rewrite Hcreate in H.
  assert (Hnf : ~ create_failed fs s (Ok ((true, fs1), s1))) by (by intros (? & ? & [=] & _)).
  destruct (m !! key nm) eqn:Em; [by destruct Hnf|].
  destruct (find_clear _) as [k|] eqn:Ek; [|by destruct Hnf].
  destruct (decide _) as [|Hd]; [by destruct Hnf|].
  destruct H as [(j & Hrun & Hmin & Hc)|(_ & [=])].
  pose proof (clear_run_fits _ _ _ Hrun Hmin) as Hf. rewrite length_insert, length_bits in Hf.
  exists k, j. splits; try done; [lia|by apply find_clear_Some in Ek as [? _]].
Qed.

Lemma old_length : length old = 1024%nat.
Proof. unfold old. by rewrite length_bits. Qed.

(** The sectors of the run were clear, and none of them is the header's. *)
Lemma run_was_clear k j t :
  old !! k = Some false -> clear_run (<[k := true]> old) j n = true ->
  t ∈ seqZ (Z.of_nat j) (Z.of_nat n) ->
  0 <= t /\ t <> Z.of_nat k /\ old !! Z.to_nat t = Some false.
Proof.
  intros Hk Hrun Ht. apply elem_of_seqZ in Ht.
  pose proof (clear_run_lookup _ _ _ (Z.to_nat t) Hrun ltac:(lia)) as Hc.
  destruct (decide (k = Z.to_nat t)) as [->|Hne].
  - rewrite list_lookup_insert_eq in Hc by (by eapply lookup_lt_Some). done.
  - rewrite list_lookup_insert_ne in Hc by done. splits; [lia|lia|done].
Qed.

(** The blocks of the created file. *)
Lemma created_blocks k j :
  created fs m free s nm size k j (Ok ((true, fs1), s1)) ->
  blocks (bytes_header (content s1 (Z.of_nat k))) = seqZ (Z.of_nat j) (Z.of_nat n).
Proof.
  intros (fs' & s' & [= <- <-] & _ & _ & _ & _ & (_ & _ & _ & Hn & Ht) & _).
  unfold blocks. by rewrite Hn, Nat2Z.id.
Qed.

Lemma created_removable k j :
  old !! k = Some false -> clear_run (<[k := true]> old) j n = true -> (j + n <= 1024)%nat ->
  created fs m free s nm size k j (Ok ((true, fs1), s1)) ->
  removable (content s1) fs1 (Z.of_nat k).
Proof.
  intros Hk Hrun Hj Hc. pose proof (created_blocks k j Hc) as Hb.
  destruct Hc as (fs' & s' & [= <- <-] & HS & _ & _ & Hbits & (_ & _ & _ & Hn & _) & _).
  assert (Hcl : forall t, t ∈ seqZ (Z.of_nat j) (Z.of_nat n) ->
    0 <= t /\ t <> Z.of_nat k /\ old !! Z.to_nat t = Some false) by (intros; by eapply run_was_clear).
  constructor; rewrite ?Hb.
  - rewrite Hn. lia.
  - apply NoDup_seqZ.
  - apply Forall_forall. intros t Ht. destruct (Hcl t Ht) as (H0 & _). split; [done|].
    apply elem_of_seqZ in Ht. rewrite Hbits, lookup_mark_run; [by rewrite decide_True by lia|].
    rewrite length_insert. fold old. by rewrite old_length.
  - destruct HS as [S1 S2]. rewrite (same_file_blocks _ _ S1), (same_file_blocks _ _ S2).
    intros t [->|Ht]; [by apply (clear_not_system (content s) fs m free)|].
    destruct (Hcl t Ht) as (H0 & _ & Ho). rewrite <- (Z2Nat.id t) by done.
    by apply (clear_not_system (content s) fs m free).
Qed.

(** Clearing them again restores the map. *)
Lemma run_undone k j bs :
  old !! k = Some false -> clear_run (<[k := true]> old) j n = true -> (j + n <= 1024)%nat ->
  length bs = 1024%nat ->
  (forall i, (i < 1024)%nat -> bs !! i =
     if decide (Z.of_nat i = Z.of_nat k \/ Z.of_nat i ∈ seqZ (Z.of_nat j) (Z.of_nat n))
     then Some false else mark_run (<[k := true]> old) j n !! i) ->
  bs = old.
Proof.
  intros Hk Hrun Hj Hl Hbs. apply list_eq. intros i.
  destruct (decide (i < 1024)%nat) as [Hi|Hi].
  2: { rewrite !lookup_ge_None_2; [done|rewrite old_length; lia|lia]. }
  rewrite Hbs by done. case_decide as Hd.
  - destruct Hd as [Hd|Hd]; [by assert (i = k) as -> by lia|].
    destruct (run_was_clear k j _ Hk Hrun Hd) as (_ & _ & Ho). by rewrite Nat2Z.id in Ho.
  - rewrite elem_of_seqZ in Hd. rewrite lookup_mark_run by (rewrite length_insert, old_length; done).
    rewrite decide_False, list_lookup_insert_ne by (intros ?; apply Hd; lia). done.
Qed.

End Created.

(** ** Formatting *)

Section Format.
Context `{E : Env} `{EO : !EnvOk E} `{R : SectorReader} `{RD : !ReadsDisk R} `{SW : !SeesWrites R}.

(** Allocation that is bound to succeed at a known place. *)
Lemma Allocate_at h fm size s j :
  ready s -> good s -> wf fm -> numBits fm = NumSectors -> header_wf h -> 0 <= size ->
  (1 <= sectors_for size <= 26)%nat -> (sectors_for size <= count_clear (bits fm))%nat ->
  clear_run (bits fm) j (sectors_for size) = true ->
  (forall l, (l < j)%nat -> bits fm !! l = Some true) ->
  exists h' fm' s', Allocate h fm size s = Ok ((true, h', fm'), s') /\ header_wf h' /\
    numBytes h' = size /\ numSectors h' = Z.of_nat (sectors_for size) /\
    blocks h' = seqZ (Z.of_nat j) (Z.of_nat (sectors_for size)) /\
    after fm fm' (mark_run (bits fm) j (sectors_for size)) /\ effect s s' (content s).
Proof.
  intros Hr Hg Wm Nm Wh H0 Hn Hc Hrun Hset. set (n := sectors_for size) in *.
  assert (Hl : forall l, (l < j)%nat -> clear_run (bits fm) l n = false).
  { intros l Hlt. destruct (clear_run (bits fm) l n) eqn:Ec; [|done].
    pose proof (clear_run_lookup _ _ _ l Ec ltac:(lia)) as H1. rewrite (Hset l Hlt) in H1. done. }
  destruct (Allocate_small_cases h fm size s Hr Hg Wm Nm (hw_len h Wh) H0 (proj2 Hn)) as
    [(h' & s2 & Hc' & _)|[(j' & h' & fm2 & s2 & Hc' & Hrun' & Hmin & Ea & St & Hd & Ha & X2)
    |(_ & Hno & _)]]; [unfold n in Hc; lia| |by rewrite Hno in Hrun].
  assert (j' = j) as ->.
  { destruct (lt_eq_lt_dec j' j) as [[H|H]|H]; [|done|].
    - fold n in Hrun'. by rewrite Hl in Hrun'.
    - fold n in Hmin. by rewrite Hmin in Hrun. }
  assert (Hfit : (j + n <= 1024)%nat).
  { destruct n as [|n'] eqn:En; [lia|]. apply clear_run_bound in Hrun.
    rewrite length_bits, Nm in Hrun. exact Hrun. }
  destruct (allocated_wf h h' size j) as (Wh' & Hb & Hs & Hbl); [done|done|done|done|lia|done|].
  by exists h', fm2, s2.
Qed.

Lemma seqZ_file_ok h j n :
  header_wf h -> numSectors h = Z.of_nat n -> (n <= 25)%nat -> (j + n <= 1024)%nat ->
  0 <= numBytes h <= 128 * Z.of_nat n ->
  blocks h = seqZ (Z.of_nat j) (Z.of_nat n) -> file_ok h.
Proof.
  intros Wh Hn H25 Hj Hb Hbl. constructor; try rewrite Hbl; try lia.
  - apply Wh.
  - apply Forall_lookup. intros i x Hx. apply lookup_seqZ in Hx as [-> Hx].
    unfold NumSectors, SectorsPerTrack, NumTracks. lia.
  - apply NoDup_seqZ.
Qed.

Definition format_bits : list bool := replicate 5 true ++ replicate 1019 false.

Lemma format_blocks_used t : t ∈ [2] \/ t ∈ [3; 4] -> format_bits !! Z.to_nat t = Some true.
Proof.
  rewrite !elem_of_cons. intros [[->|H]|[->|[->|H]]]; try reflexivity; by apply not_elem_of_nil in H.
Qed.

Lemma format_blocks_disjoint t : t ∈ [2] -> t ∉ [3; 4].
Proof.
  rewrite !elem_of_cons. intros [->|H] [H'|[H'|H']]; try discriminate;
    by apply not_elem_of_nil in H' || by apply not_elem_of_nil in H.
Qed.

Lemma format_allocate_spec s :
  ready s -> good s ->
  exists d mh dh fm s', format_allocate s = Ok ((d, mh, dh, fm), s') /\
    effect s s' (content s) /\ length (table d) = 10%nat /\ Forall unused (table d) /\
    Forall entry_wf (table d) /\
    (header_wf mh /\ numBytes mh = 128 /\ numSectors mh = 1 /\ blocks mh = [2]) /\
    (header_wf dh /\ numBytes dh = 200 /\ numSectors dh = 2 /\ blocks dh = [3; 4]) /\
    wf fm /\ numBits fm = NumSectors /\ bits fm = format_bits.
Proof.
  intros Hr Hg. unfold format_allocate.
  destruct (new_BitMap_spec s Hr Hg) as (b0 & s1 & E1 & X1 & W0 & N0 & B0). mstep by exact E1.
  destruct (new_Directory_spec 10 s1) as (d & s2 & E2 & X2 & Td & Ld & Ud & Wd); [apply X1..|].
  mstep by exact E2.
  destruct (new_FileHeader_effect s2) as (mh & s3 & E3 & Wmh & X3); [apply X2..|]. mstep by exact E3.
  destruct (new_FileHeader_effect s3) as (dh & s4 & E4 & Wdh & X4); [apply X3..|]. mstep by exact E4.
  destruct (Mark_spec b0 0 W0) as (b1 & M1 & W1 & N1 & B1); [rewrite B0; by vm_compute; lia|].
  mstep by (apply lift_Ok; exact M1).
  destruct (Mark_spec b1 1 W1) as (b2 & M2 & W2 & N2 & B2); [rewrite B1, B0; vm_compute; lia|].
  mstep by (apply lift_Ok; exact M2). rewrite B1, B0 in B2.
  destruct (Allocate_at mh b2 FreeMapFileSize s4 2) as (mh1 & b3 & s5 & A1 & Hm & Hm1 & Hm2 & Hm3 & (W3 & N3 & B3) & X5);
    [apply X4|apply X4|done|congruence|done|done|vm_compute; lia|rewrite B2; vm_compute; lia
    |rewrite B2; reflexivity|intros [|[|l]] Hl; [by rewrite B2|by rewrite B2|lia]|].
  mstep by exact A1. mstep. rewrite B2 in B3.
  destruct (Allocate_at dh b3 DirectoryFileSize s5 3) as (dh1 & b4 & s6 & A2 & Hd & Hd1 & Hd2 & Hd3 & (W4 & N4 & B4) & X6);
    [apply X5|apply X5|done|congruence|done|done|vm_compute; lia|rewrite B3; vm_compute; lia
    |rewrite B3; reflexivity|intros [|[|[|l]]] Hl; [by rewrite B3|by rewrite B3|by rewrite B3|lia]|].
  mstep by exact A2. mstep. rewrite B3 in B4.
  exists d, mh1, dh1, b4, s6. split; [reflexivity|].
  split; [do 5 (eapply effect_quiet; [eassumption|]); exact X6|].
  split; [exact Ld|]. split; [exact Ud|]. split; [exact Wd|].
  split; [exact (conj Hm (conj Hm1 (conj Hm2 Hm3)))|].
  split; [exact (conj Hd (conj Hd1 (conj Hd2 Hd3)))|].
  split; [exact W4|]. split; [congruence|]. rewrite B4. reflexivity.
Qed.

(** Opening a header that has just been written. *)
Lemma open_written h sec t j n s :
  ready s -> good s -> 0 <= sec < NumSectors -> header_wf h -> is_int t ->
  content s sec = header_bytes (set_hdrSector sec (set_lastModifyTime t h)) ->
  numSectors h = Z.of_nat n -> (n <= 25)%nat -> (j + n <= 1024)%nat ->
  0 <= numBytes h <= 128 * Z.of_nat n -> blocks h = seqZ (Z.of_nat j) (Z.of_nat n) ->
  exists f s', OpenFile_OpenFile sec s = Ok (f, s') /\ ready s' /\ good s' /\
    (forall t, content s' t = content s t) /\ file_ok (hdr f) /\
    numBytes (hdr f) = numBytes h /\ blocks (hdr f) = blocks h /\ same_locks s s' /\
    same_file (bytes_header (content s sec)) (hdr f).
Proof.
  intros Hr Hg Hs Wh Ht Hc Hn H25 Hj Hb Hbl.
  pose proof (written_back_wf h t sec Wh Ht Hs) as W2.
  destruct (OpenFile_OpenFile_spec sec s Hr Hg Hs) as (f & s' & v & E1 & R1 & G1 & C1 & _ & _ & Sf0 & L1 & _).
  pose proof Sf0 as Sf.
  rewrite Hc, header_roundtrip in Sf by done. exists f, s'. splits; try done.
  - eapply file_ok_same; [exact Sf|]. by eapply (seqZ_file_ok _ j n).
  - apply Sf.
  - by rewrite (same_file_blocks _ _ Sf).
Qed.

(** A formatted disk: an empty directory, and the five sectors of the two
    system files in use. *)
Lemma format_spec s :
  ready s -> good s ->
  exists fs s', FileSystem_format s = Ok (fs, s') /\ ready s' /\ good s' /\
    fs_ok (content s') fs ∅ 10 /\ bits (disk_map (content s') fs) = format_bits /\
    blocks (hdr (freeMapFile fs)) = [2] /\ blocks (hdr (directoryFile fs)) = [3; 4] /\
    same_locks s s' /\
    same_file (bytes_header (content s' FreeMapSector)) (hdr (freeMapFile fs)) /\
    same_file (bytes_header (content s' DirectorySector)) (hdr (directoryFile fs)).
Proof.
  intros Hr Hg. destruct (format_allocate_spec s Hr Hg) as
    (d & mh & dh & fm & s1 & E1 & X1 & Ld & Ud & Wd & (Wm & Nm & Sm & Bm) & (Wh & Nh & Sh & Bh) & Wf & Nf & Bf).
  unfold FileSystem_format. mstep by exact E1.
  destruct (FileHeader.WriteBack_spec mh FreeMapSector s1) as (t1 & s2 & E2 & T1 & X2);
    [apply X1|apply X1|vm_compute; split; congruence|apply Wm|]. mstep by exact E2.
  destruct (FileHeader.WriteBack_spec dh DirectorySector s2) as (t2 & s3 & E3 & T2 & X3);
    [apply X2|apply X2|vm_compute; split; congruence|apply Wh|]. mstep by exact E3.
  destruct (open_written mh FreeMapSector t1 2 1 s3) as (f & s4 & E4 & R4 & G4 & C4 & Ff & Nf' & Bf' & L4 & Sf);
    [apply X3|apply X3|vm_compute; split; congruence|done|done| |done|lia|lia|lia|done|].
  { rewrite (proj2 (proj2 (proj2 X3))). unfold upd. rewrite decide_False by done.
    rewrite (proj2 (proj2 (proj2 X2))). unfold upd. by rewrite decide_True. }
  mstep by exact E4.
  destruct (open_written dh DirectorySector t2 3 2 s4) as (g & s5 & E5 & R5 & G5 & C5 & Fg & Ng & Bg & L5 & Sg);
    [done|done|vm_compute; split; congruence|done|done| |done|lia|lia|lia|done|].
  { rewrite C4, (proj2 (proj2 (proj2 X3))). unfold upd. by rewrite decide_True. }
  mstep by exact E5. rewrite Bm in Bf'. rewrite Bh in Bg.
  set (fs := mkFileSystem (replicate MAXTHREADNUM (-1)) f g).
  assert (HF : files_ok fs).
  { constructor; cbn [freeMapFile directoryFile fs];
      [exact Ff|rewrite Nf'; exact Nm|exact Fg|rewrite Ng; exact Nh|].
    rewrite Bf', Bg. apply format_blocks_disjoint. }
  destruct (save_both_spec fs fm d s5) as (ff & df & s6 & HS & X6 & M6 & T6 & O6 & K6);
    [exact R5|exact G5|exact HF|exact Wf|exact Nf|exact Ld|exact Wd|].
  cbn [freeMapFile directoryFile fs] in K6, O6. rewrite K6.
  set (fs' := set_directoryFile df (set_freeMapFile ff fs)) in *.
  exists fs', s6. split; [reflexivity|]. split; [apply X6|]. split; [apply X6|].
  rewrite (disk_map_same _ _ _ HS), M6. split; [|split; [exact Bf|]].
  - eapply fs_ok_same; [exact HS|]. apply fs_ok_intro; [exact HF| | |].
    + rewrite M6, Bf. cbn [freeMapFile directoryFile fs]. rewrite Bf', Bg. apply format_blocks_used.
    + rewrite T6, <- Ld. by apply fresh_represents.
    + intros k v Hkv. by rewrite lookup_empty in Hkv.
  - destruct HS as [HS1 HS2]. rewrite (same_file_blocks _ _ HS1), (same_file_blocks _ _ HS2).
    split; [exact Bf'|]. split; [exact Bg|].
    split.
    { do 3 (eapply same_locks_trans; [eapply effect_locks; eassumption|]).
      eapply same_locks_trans; [exact L4|]. eapply same_locks_trans; [exact L5|].
      by eapply effect_locks. }
    rewrite !O6 by (rewrite ?Bf', ?Bg; apply (bool_decide_unpack (_ ∉ _)); reflexivity).
    rewrite !C5. split; [rewrite C4|]; (eapply same_file_trans; eassumption).
Qed.

End Format.

(** ** Properties *)

(** formatting.  From every ready disk, whatever uninitialised memory
    holds, and with reads that see writes, formatting succeeds and leaves a
    consistent file system: an empty directory with ten free entries, exactly
    sectors 0 to 4 in use (two headers, one sector of free map, two of
    directory). *)
Theorem fs_format_empty `{E : Env} `{EO : !EnvOk E} `{R : SectorReader} `{RD : !ReadsDisk R}
    `{SW : !SeesWrites R} s :
  ready s -> good s ->
  exists fs s', FileSystem_FileSystem true s = Ok (fs, s') /\ ready s' /\ good s' /\
    fs_ok (content s') fs ∅ 10 /\ bits (disk_map (content s') fs) = format_bits /\
    blocks (hdr (freeMapFile fs)) = [2] /\ blocks (hdr (directoryFile fs)) = [3; 4].
Proof.
  intros Hr Hg. destruct (format_spec s Hr Hg) as (fs & s' & E1 & R1 & G1 & O1 & B1 & M1 & D1 & _).
  exists fs, s'. exact (conj E1 (conj R1 (conj G1 (conj O1 (conj B1 (conj M1 D1)))))).
Qed.

(** A formatted disk, read without the cache. *)
Definition formatted_disk (fs : FileSystem) (s : SynchDisk) : Prop :=
  exists s0, SynchDisk_SynchDisk empty_cache None = Ok s0 /\
    @FileSystem_FileSystem zero_env (@ReadSector_uncached zero_env) true s0 = Ok (fs, s).

Lemma fs_format_empty_witness :
  exists fs s, formatted_disk fs s /\ bits (disk_map (content s) fs) = format_bits.
Proof.
  destruct fresh_ready_coherent as (s & Es & Rs & _).
  destruct (@fs_format_empty zero_env zero_env_ok ReadSector_uncached
    (@uncached_reads_disk zero_env zero_env_ok) (@uncached_sees_writes zero_env zero_env_ok) s Rs I)
    as (fs & s' & Ef & _ & _ & _ & Hb & _).
  exists fs, s'. split; [|exact Hb]. exists s. split; [exact Es|exact Ef].
Defined.

Lemma formatted_disk_ok :
  exists fs s, formatted_disk fs s /\ ready s /\ fs_ok (content s) fs ∅ 10 /\
    bits (disk_map (content s) fs) = format_bits.
Proof.
  destruct fresh_ready_coherent as (s & Es & Rs & _).
  destruct (@format_spec zero_env zero_env_ok ReadSector_uncached
    (@uncached_reads_disk zero_env zero_env_ok) (@uncached_sees_writes zero_env zero_env_ok) s Rs I)
    as (fs & s' & Ef & R' & _ & O' & Hb & _).
  exists fs, s'. split; [|split; [exact R'|split; [exact O'|exact Hb]]].
  exists s. split; [exact Es|exact Ef].
Qed.


Lemma format_bits_first : find_clear format_bits = Some 5%nat.
Proof. by vm_compute. Qed.

Lemma format_bits_room :
  ~ (10 = 0 \/ count_clear (<[5%nat := true]> format_bits) < sectors_for 300)%nat.
Proof. vm_compute. lia. Qed.

Lemma format_bits_run : clear_run (<[5%nat := true]> format_bits) 6 (sectors_for 300) = true.
Proof. by vm_compute. Qed.


(** [Open] finds what [Create] made.  Whenever [Create] returns TRUE on a
    consistent file system for a file of at most 26 sectors, [Open] of that
    name afterwards returns an open file at its start, whose header is the one
    created: its length is the size given. *)
Theorem fs_Create_then_Open `{E : Env} `{EO : !EnvOk E} `{R : SectorReader} `{RD : !ReadsDisk R}
    `{SW : !SeesWrites R} fs m free s nm size fs1 s1 :
  ready s -> good s -> fs_ok (content s) fs m free -> 0 <= size ->
  (sectors_for size <= 26)%nat ->
  Create fs nm size s = Ok ((true, fs1), s1) ->
  exists f fs2 s2 k, Open fs1 nm s1 = Ok ((Some f, fs2), s2) /\
    find_clear (bits (disk_map (content s) fs)) = Some k /\ fileSector f = Z.of_nat k /\
    seekPosition f = 0 /\ Length f = size /\ (forall t, content s2 t = content s1 t).
Proof.
  intros Hr Hg Hok H0 Hn Ec.
  destruct (Create_true_inv fs m free s nm size fs1 s1 Hr Hg Hok H0 Hn Ec)
    as (k & j & _ & _ & Ek & _ & _ & _ & _ & Hc).
  destruct Hc as (fs' & s' & [= <- <-] & _ & (R1 & G1 & _) & Ok1 & _ & (_ & _ & Hlen & _) & _).
  destruct (Open_spec fs1 (<[key nm := Z.of_nat k]> m) (free - 1) s1 nm R1 G1 Ok1)
    as (fs2 & s2 & r & Eo & _ & _ & _ & C2 & Hm).
  rewrite lookup_insert_eq in Hm. destruct Hm as (f & v & -> & F1 & F2 & F3 & _).
  exists f, fs2, s2, k. split; [exact Eo|]. split; [done|]. split; [exact F1|]. split; [exact F2|].
  split; [|exact C2]. unfold Length, FileLength. destruct F3 as (_ & -> & _). exact Hlen.
Qed.

(** A file of 300 bytes on a formatted disk. *)
Lemma demo_created :
  exists fs s fs1 s1, formatted_disk fs s /\ ready s /\ fs_ok (content s) fs ∅ 10 /\
    bits (disk_map (content s) fs) = format_bits /\
    @Create zero_env (@ReadSector_uncached zero_env) fs [97] 300 s = Ok ((true, fs1), s1).
Proof.
  destruct formatted_disk_ok as (fs & s & Hf & Rs & Hok & Hb).
  pose proof (@Create_spec zero_env zero_env_ok ReadSector_uncached
    (@uncached_reads_disk zero_env zero_env_ok) (@uncached_sees_writes zero_env zero_env_ok)
    fs ∅ 10 s [97] 300 Rs I Hok ltac:(lia) ltac:(vm_compute; lia)) as H.
  cbv zeta in H. rewrite Hb, format_bits_first, lookup_empty in H.
  rewrite decide_False in H by exact format_bits_room.
  destruct H as [(j & _ & _ & fs1 & s1 & Ec & _)|(Hno & _)].
  - exists fs, s, fs1, s1. split; [exact Hf|]. split; [exact Rs|]. split; [exact Hok|].
    split; [exact Hb|exact Ec].
  - specialize (Hno 6%nat). rewrite format_bits_run in Hno. discriminate Hno.
Qed.

Lemma fs_Create_then_Open_witness :
  exists fs s fs1 s1 f fs2 s2, formatted_disk fs s /\
    @Create zero_env (@ReadSector_uncached zero_env) fs [97] 300 s = Ok ((true, fs1), s1) /\
    @Open zero_env (@ReadSector_uncached zero_env) fs1 [97] s1 = Ok ((Some f, fs2), s2) /\
    Length f = 300.
Proof.
  destruct demo_created as (fs & s & fs1 & s1 & Hf & Rs & Hok & _ & Ec).
  destruct (@fs_Create_then_Open zero_env zero_env_ok ReadSector_uncached
    (@uncached_reads_disk zero_env zero_env_ok) (@uncached_sees_writes zero_env zero_env_ok)
    fs ∅ 10 s [97] 300 fs1 s1 Rs I Hok ltac:(lia) ltac:(vm_compute; lia) Ec)
    as (f & fs2 & s2 & k & Eo & _ & _ & _ & Hl & _).
  exists fs, s, fs1, s1, f, fs2, s2. split; [exact Hf|]. split; [exact Ec|]. split; [exact Eo|exact Hl].
Defined.



(** [Remove] undoes [Create].  Whenever [Create] returns TRUE on a
    consistent file system for a file of at most 26 sectors, [Remove] of that
    name then returns TRUE and leaves a consistent file system with the same
    names, the same number of free entries and the same free map as before;
    no sector other than the header's and those of the two system files has
    changed. *)
Theorem fs_Remove_undoes_Create `{E : Env} `{EO : !EnvOk E} `{R : SectorReader} `{RD : !ReadsDisk R}
    `{SW : !SeesWrites R} fs m free s nm size fs1 s1 :
  ready s -> good s -> fs_ok (content s) fs m free -> 0 <= size ->
  (sectors_for size <= 26)%nat ->
  Create fs nm size s = Ok ((true, fs1), s1) ->
  exists fs2 s2 k, Remove fs1 nm s1 = Ok ((true, fs2), s2) /\ ready s2 /\ good s2 /\
    fs_ok (content s2) fs2 m free /\
    bits (disk_map (content s2) fs2) = bits (disk_map (content s) fs) /\
    forall t, t <> k -> t ∉ blocks (hdr (freeMapFile fs)) -> t ∉ blocks (hdr (directoryFile fs)) ->
      content s2 t = content s t.
Proof.
  intros Hr Hg Hok H0 Hn Ec.
  destruct (Create_true_inv fs m free s nm size fs1 s1 Hr Hg Hok H0 Hn Ec)
    as (k & j & Hm & Hfree & _ & Hk & Hrun & Hj & _ & Hc).
  pose proof (created_removable fs m free s nm size fs1 s1 Hok Hn k j Hk Hrun Hj Hc) as Hrm.
  pose proof (created_blocks fs m free s nm size fs1 s1 k j Hc) as Hb.
  destruct Hc as (fs' & s' & [= <- <-] & HS & (R1 & G1 & _) & Ok1 & B1 & _ & O1).
  pose proof (Remove_spec fs1 _ _ s1 nm R1 G1 Ok1) as H. rewrite lookup_insert_eq in H.
  destruct (H Hrm) as (fs2 & s2 & Er & HS2 & (R2 & G2 & _) & Ok2 & B2 & O2).
  exists fs2, s2, (Z.of_nat k). split; [exact Er|]. split; [exact R2|]. split; [exact G2|]. split; [|split].
  - rewrite delete_insert_id in Ok2 by done. by replace (S (free - 1)) with free in Ok2 by lia.
  - eapply (run_undone fs s size Hn k j); [done|done|done|by rewrite length_bits|].
    intros i Hi. rewrite B2, B1, Hb by done. done.
  - intros t H1 H2 H3. destruct HS as [S1 S2].
    rewrite O2 by (rewrite ?(same_file_blocks _ _ S1), ?(same_file_blocks _ _ S2); done). by apply O1.
Qed.

Lemma fs_Remove_undoes_Create_witness :
  exists fs s fs1 s1 fs2 s2, formatted_disk fs s /\
    @Create zero_env (@ReadSector_uncached zero_env) fs [97] 300 s = Ok ((true, fs1), s1) /\
    @Remove zero_env (@ReadSector_uncached zero_env) fs1 [97] s1 = Ok ((true, fs2), s2) /\
    bits (disk_map (content s2) fs2) = format_bits.
Proof.
  destruct demo_created as (fs & s & fs1 & s1 & Hf & Rs & Hok & Hb & Ec).
  destruct (@fs_Remove_undoes_Create zero_env zero_env_ok ReadSector_uncached
    (@uncached_reads_disk zero_env zero_env_ok) (@uncached_sees_writes zero_env zero_env_ok)
    fs ∅ 10 s [97] 300 fs1 s1 Rs I Hok ltac:(lia) ltac:(vm_compute; lia) Ec)
    as (fs2 & s2 & k & Er & _ & _ & _ & Hbits & _).
  exists fs, s, fs1, s1, fs2, s2. split; [exact Hf|]. split; [exact Ec|]. split; [exact Er|].
  rewrite Hbits. exact Hb.
Defined.

(** the same program with the source's cached [ReadSector]: on a fresh,
    formatted disk, [Create("a", 300)] returns TRUE and [Open("a")] then
    returns NULL, because the directory sectors that [Create] read are still
    in the cache and [WriteSector] did not update them. *)
Theorem fs_cached_Open_misses_created :
  fst <$> run_on_fresh (@create_open zero_env (@ReadSector zero_env) [97] 300)
    = Ok (true, false) /\
  fst <$> run_on_fresh (@create_open zero_env (@ReadSector_uncached zero_env) [97] 300)
    = Ok (true, true).
Proof. split; vm_compute; reflexivity. Qed.
