(* ===== verification/FsTest.v ===== *)
(** * filesys/fstest.cc: copying a file into the file system and out again

    The commands "-cp", "-p" and "-t" of the kernel: [Copy], [Print] and
    [PerformanceTest], over FileSystem.v.  A UNIX file is the list of its
    bytes, [None] when it cannot be opened; what the routines print about
    errors is the [message] they return.  The loops end when a transfer of no
    bytes happens; every other round transfers at least one byte, which gives
    their fuel. *)
From S2P Require Import Prelude CInt BitMap Disk SynchDisk FileHeader Directory OpenFile FileSystem.
From Stdlib Require Import ZArith Lia List Bool.
From stdpp Require Import base tactics list numbers gmap.
Local Open Scope Z_scope.

Definition TransferSize : Z := 10.

Inductive message :=
| Done
| CannotOpenInput
| CannotCreate
| CannotOpen
| CannotWrite
| CannotRead
| CannotRemove.

#[global] Instance message_eq_dec : EqDecision message.
Proof. solve_decision. Defined.

Section Operations.
Context `{E : Env} `{R : SectorReader}.

(** [while ((amountRead = fread(buffer, 1, TransferSize, fp)) > 0) Write]:
    [rest] is what is left of the UNIX file. *)
Fixpoint Copy_loop (fuel : nat) (openFile : OpenFile) (rest : list Z) : M SynchDisk OpenFile :=
  match fuel with
  | O => fail Diverges
  | S fuel' =>
    let buffer := take (Z.to_nat TransferSize) rest in
    let amountRead := Z.of_nat (length buffer) in
    if 0 <? amountRead then
      r ← Write write_depth openFile buffer;
      Copy_loop fuel' r.2 (drop (Z.to_nat TransferSize) rest)
    else mret openFile
  end.

Definition Copy (from : option (list Z)) (to : list Z) (fs : FileSystem) :
    M SynchDisk (message * FileSystem) :=
  match from with
  | None => mret (CannotOpenInput, fs)
  | Some fp =>
    let fileLength := wrap32 (Z.of_nat (length fp)) in
    x ← Create fs to fileLength;
    let '(ok, fs) := x in
    if negb ok then mret (CannotCreate, fs)
    else
      y ← Open fs to;
      let '(openFile, fs) := y in
      match openFile with
      | None => fail AssertFailure
      | Some openFile =>
        openFile ← Copy_loop (S (length fp)) openFile fp;
        _ ← OpenFile_close openFile;
        mret (Done, fs)
      end
  end.

(** The loop of [Print]: the characters printed. *)
Fixpoint Print_loop (fuel : nat) (openFile : OpenFile) : M SynchDisk (list Z * OpenFile) :=
  match fuel with
  | O => fail Diverges
  | S fuel' =>
    r ← Read openFile TransferSize;
    let '(buffer, openFile) := r in
    if 0 <? Z.of_nat (length buffer) then
      rest ← Print_loop fuel' openFile;
      mret (buffer ++ rest.1, rest.2)
    else mret ([], openFile)
  end.

(** [None]: the file cannot be opened. *)
Definition Print (name : list Z) (fs : FileSystem) : M SynchDisk (option (list Z) * FileSystem) :=
  y ← Open fs name;
  let '(openFile, fs) := y in
  match openFile with
  | None => mret (None, fs)
  | Some openFile =>
    r ← Print_loop (S (Z.to_nat (Length openFile))) openFile;
    _ ← OpenFile_close r.2;
    mret (Some r.1, fs)
  end.

(** [FileName], [Contents], [ContentSize] and [FileSize] of the performance
    test: "TestFile" and "1234567890". *)
Definition FileName : list Z := [84; 101; 115; 116; 70; 105; 108; 101].
Definition Contents : list Z := [49; 50; 51; 52; 53; 54; 55; 56; 57; 48].
Definition ContentSize : Z := 10.
Definition FileSize : Z := ContentSize * 60.

(** [for (i = 0; i < FileSize; i += ContentSize)] has [FileSize / ContentSize]
    rounds. *)
Fixpoint FileWrite_loop (n : nat) (openFile : OpenFile) : M SynchDisk (message * OpenFile) :=
  match n with
  | O => mret (Done, openFile)
  | S n' =>
    r ← Write write_depth openFile Contents;
    let '(numBytes, openFile) := r in
    if numBytes <? 10 then mret (CannotWrite, openFile) else FileWrite_loop n' openFile
  end.

Definition FileWrite (fs : FileSystem) : M SynchDisk (message * FileSystem) :=
  x ← Create fs FileName FileSize;
  let '(ok, fs) := x in
  if negb ok then mret (CannotCreate, fs)
  else
    y ← Open fs FileName;
    let '(openFile, fs) := y in
    match openFile with
    | None => mret (CannotOpen, fs)
    | Some openFile =>
      r ← FileWrite_loop (Z.to_nat (FileSize / ContentSize)) openFile;
      _ ← OpenFile_close r.2;
      mret (r.1, fs)
    end.

(** The call of [Yield] at the end of a round returns when no other thread is
    ready; it does not touch the disk. *)
Fixpoint FileRead_loop (n : nat) (openFile : OpenFile) : M SynchDisk (message * OpenFile) :=
  match n with
  | O => mret (Done, openFile)
  | S n' =>
    r ← Read openFile ContentSize;
    let '(buffer, openFile) := r in
    if (Z.of_nat (length buffer) <? 10) || negb (bool_decide (buffer = Contents))
    then mret (CannotRead, openFile) else FileRead_loop n' openFile
  end.

Definition FileRead (fs : FileSystem) : M SynchDisk (message * FileSystem) :=
  y ← Open fs FileName;
  let '(openFile, fs) := y in
  match openFile with
  | None => mret (CannotOpen, fs)
  | Some openFile =>
    r ← FileRead_loop (Z.to_nat (FileSize / ContentSize)) openFile;
    _ ← OpenFile_close r.2;
    mret (r.1, fs)
  end.

(** The messages of [FileWrite] and of the test itself. *)
Definition PerformanceTest (fs : FileSystem) : M SynchDisk (message * message * FileSystem) :=
  x ← FileWrite fs;
  let '(written, fs) := x in
  p ← FileSystem.Print fs;
  let '(_, fs) := p in
  y ← FileSystem.Remove fs FileName;
  mret (written, if (y.1 : bool) then Done else CannotRemove, y.2).

End Operations.

(** ** Copying *)

Section Copying.
Context `{E : Env} `{EO : !EnvOk E} `{R : SectorReader} `{RD : !ReadsDisk R} `{SW : !SeesWrites R}.

Lemma splice_splice (fb a b : list Z) (p : nat) :
  (p + length a + length b <= length fb)%nat ->
  let mid := take p fb ++ a ++ drop (p + length a) fb in
  take (p + length a) mid ++ b ++ drop (p + length a + length b) mid =
  take p fb ++ (a ++ b) ++ drop (p + length (a ++ b)) fb.
Proof.
  intros Hl mid. assert (Lt : length (take p fb) = p) by (rewrite length_take; lia).
  assert (Hm : mid = (take p fb ++ a) ++ drop (p + length a) fb) by (unfold mid; by rewrite app_assoc).
  assert (La : length (take p fb ++ a) = (p + length a)%nat) by (rewrite length_app; lia).
  rewrite Hm, take_app_length' by lia.
  rewrite drop_app_ge, drop_drop, La, length_app by lia.
  rewrite <- !app_assoc. do 4 f_equal. lia.
Qed.

Lemma chunk_drop (n : nat) (l : list Z) : take n l ++ drop (length (take n l)) l = l.
Proof.
  rewrite length_take. destruct (decide (n <= length l)%nat).
  - rewrite Nat.min_l by done. apply take_drop.
  - rewrite Nat.min_r, (take_ge l), (drop_ge l), app_nil_r by lia. done.
Qed.

(** The loop writes all of [rest] at the seek position. *)
Lemma Copy_loop_spec fuel : forall f rest s,
  ready s -> good s -> file_ok (hdr f) -> free_at (fileSector f) s ->
  0 <= seekPosition f -> seekPosition f + Z.of_nat (length rest) <= numBytes (hdr f) ->
  (length rest < fuel)%nat ->
  exists f' s', Copy_loop fuel f rest s = Ok (f', s') /\ fileSector f' = fileSector f /\
    same_file (hdr f) (hdr f') /\ effect s s' (content s') /\
    file_bytes (content s') (hdr f) =
      take (Z.to_nat (seekPosition f)) (file_bytes (content s) (hdr f)) ++ rest ++
      drop (Z.to_nat (seekPosition f) + length rest) (file_bytes (content s) (hdr f)) /\
    forall t, t ∉ blocks (hdr f) -> content s' t = content s t.
Proof.
  induction fuel as [|fuel IH]; intros f rest s Hr Hg Hf Hfr Hp He Hl; [lia|]. cbn [Copy_loop].
  destruct rest as [|x rest0] eqn:Er.
  { exists f, s. cbn. rewrite Nat.add_0_r, take_drop. splits; try done. }
  rewrite <- Er in *. assert (Hpos : (0 < length rest)%nat) by (rewrite Er; cbn; lia). clear Er x rest0.
  set (buf := take (Z.to_nat TransferSize) rest).
  assert (Lb : (0 < length buf)%nat) by (unfold buf, TransferSize; rewrite length_take; lia).
  assert (Hsplit : rest = buf ++ drop (Z.to_nat TransferSize) rest) by (symmetry; apply take_drop).
  set (rest' := drop (Z.to_nat TransferSize) rest) in *.
  assert (Hlen : length rest = (length buf + length rest')%nat) by (rewrite Hsplit at 1; apply length_app).
  destruct (Z.ltb_spec 0 (Z.of_nat (length buf))); [|lia].
  destruct (Write_spec 1 f buf s Hr Hg Hf Hfr Hp Lb ltac:(lia)) as (h & s1 & E1 & Sh & X1 & B1 & O1).
  mstep by exact E1. cbn [snd].
  set (f1 := mkOpenFile (fileSector f) h (seekPosition f + Z.of_nat (length buf))).
  destruct (IH f1 rest' s1) as (f' & s' & E2 & F2 & S2 & X2 & B2 & O2);
    [apply X1|apply X1|by eapply file_ok_same|eapply free_at_locks; [by eapply effect_locks|done]|cbn; lia
    |cbn [f1 hdr seekPosition]; destruct Sh as (_ & -> & _); lia|lia|].
  exists f', s'. split; [exact E2|]. split; [exact F2|]. split; [by eapply same_file_trans|].
  split; [by eapply effect_trans|]. split.
  - cbn [f1 hdr seekPosition] in B2. rewrite !(file_bytes_same _ _ _ Sh), B1 in B2.
    rewrite B2, Hsplit.
    replace (Z.to_nat (seekPosition f + Z.of_nat (length buf)))
      with (Z.to_nat (seekPosition f) + length buf)%nat by lia.
    apply splice_splice. rewrite length_file_bytes by done. lia.
  - intros t Ht. rewrite O2, O1; [done|done|]. cbn. by rewrite (same_file_blocks _ _ Sh).
Qed.

(** The loop reads the file from the seek position to its end. *)
Lemma Print_loop_prints fuel : forall f s,
  ready s -> good s -> file_ok (hdr f) -> free_at (fileSector f) s ->
  0 <= seekPosition f <= numBytes (hdr f) ->
  (Z.to_nat (numBytes (hdr f) - seekPosition f) < fuel)%nat ->
  exists f' s', Print_loop fuel f s =
      Ok ((drop (Z.to_nat (seekPosition f)) (file_bytes (content s) (hdr f)), f'), s') /\
    fileSector f' = fileSector f /\ effect s s' (content s).
Proof.
  induction fuel as [|fuel IH]; intros f s Hr Hg Hf Hfr Hp Hl; [lia|]. cbn [Print_loop].
  pose proof (length_file_bytes s _ Hf) as Lf.
  destruct (Read_spec f TransferSize s Hr Hg Hf Hfr) as (h & s1 & E1 & Sh & X1);
    [lia|destruct Hf; unfold TransferSize; lia|].
  mstep by exact E1. set (fb := file_bytes (content s) (hdr f)) in *.
  set (buf := take (Z.to_nat TransferSize) (drop (Z.to_nat (seekPosition f)) fb)) in *.
  assert (Lb : length buf = Nat.min 10 (Z.to_nat (numBytes (hdr f) - seekPosition f))).
  { unfold buf, TransferSize. rewrite length_take, length_drop, Lf. lia. }
  destruct (Z.ltb_spec 0 (Z.of_nat (length buf))) as [Hb|Hb].
  - set (f1 := mkOpenFile (fileSector f) h (seekPosition f + Z.of_nat (length buf))).
    assert (Hn : numBytes h = numBytes (hdr f)) by apply Sh.
    destruct (IH f1 s1) as (f' & s' & E2 & F2 & X2);
      [apply X1|apply X1|by eapply file_ok_same|eapply free_at_locks; [by eapply effect_locks|done]
      |cbn [f1 hdr seekPosition]; lia|cbn [f1 hdr seekPosition]; lia|].
    exists f', s'. mstep by exact E2. split; [|split; [exact F2|by eapply effect_quiet]].
    cbn [f1 hdr seekPosition fst snd mret M_ret]. rewrite (file_bytes_same _ _ _ Sh).
    rewrite (file_bytes_ext (content s1) (content s)) by (intros; apply X1). fold fb.
    replace (Z.to_nat (seekPosition f + Z.of_nat (length buf)))
      with (Z.to_nat (seekPosition f) + length buf)%nat by lia.
    rewrite <- drop_drop. unfold buf. by rewrite chunk_drop.
  - exists (mkOpenFile (fileSector f) h (seekPosition f + Z.of_nat (length buf))), s1.
    split; [|split; [done|exact X1]]. rewrite (drop_ge fb) by lia. done.
Qed.

(** The file [nm] is in the directory [m] and holds [data]. *)
Definition stores (c : Z -> list Z) (m : gmap (list Z) Z) (nm data : list Z) : Prop :=
  exists sec, m !! key nm = Some sec /\ file_ok (bytes_header (c sec)) /\
    file_bytes c (bytes_header (c sec)) = data.

(** No thread reads or writes any file. *)
Definition unlocked (s : SynchDisk) : Prop := forall t, 0 <= t < NumSectors -> free_at t s.

Lemma unlocked_locks s s' : same_locks s s' -> unlocked s -> unlocked s'.
Proof. intros HL Hu t Ht. by eapply free_at_locks, Hu. Qed.

Lemma close_spec f s :
  ready s -> good s -> 0 <= fileSector f < NumSectors ->
  exists s', OpenFile_close f s = Ok (tt, s') /\ ready s' /\ good s' /\ same_locks s s' /\
    forall t, content s' t = content s t.
Proof.
  intros Hr Hg Ht. destruct (add_visitorNum_spec (fileSector f) (-1) s Hr Hg Ht)
    as (s' & v & E1 & R1 & G1 & C1 & L1 & _). by exists s'.
Qed.

Lemma Print_prints fs m free s nm data :
  ready s -> good s -> unlocked s -> fs_ok (content s) fs m free -> stores (content s) m nm data ->
  exists fs' s', Print nm fs s = Ok ((Some data, fs'), s') /\ same_files fs fs' /\
    ready s' /\ good s' /\ unlocked s' /\ forall t, content s' t = content s t.
Proof.
  intros Hr Hg Hu Hok (sec & Hm & Hf & Hd).
  destruct (Open_spec fs m free s nm Hr Hg Hok) as (fs1 & s1 & r & E1 & S1 & R1 & G1 & C1 & H1).
  rewrite Hm in H1. destruct H1 as (f & v & -> & F1 & F2 & F3 & L1 & _).
  pose proof (fs_valid _ _ _ _ Hok _ _ Hm) as Hv. unfold Print. mstep by exact E1.
  pose proof (file_ok_same _ _ F3 Hf) as Hf'. pose proof (unlocked_locks _ _ L1 Hu) as Hu1.
  destruct (Print_loop_prints (S (Z.to_nat (Length f))) f s1) as (f' & s2 & E2 & F4 & X2);
    [done|done|done|apply Hu1; by rewrite F1|rewrite F2; destruct Hf'; lia
    |rewrite F2; unfold Length, FileLength; lia|].
  mstep by exact E2. cbn [fst snd].
  destruct (close_spec f' s2) as (s3 & E3 & R3 & G3 & L3 & C3); [apply X2..|by rewrite F4, F1|].
  mstep by exact E3. exists fs1, s3. split.
  - rewrite F2, (file_bytes_same _ _ _ F3), (file_bytes_ext (content s1) (content s)), Hd
      by (intros; apply C1). done.
  - splits; try done; [|intros t; rewrite C3, (proj2 (proj2 (proj2 X2))); apply C1].
    eapply unlocked_locks; [exact L3|]. eapply unlocked_locks; [by eapply effect_locks|done].
Qed.

Lemma sectors_for_bound size : 0 <= size -> size <= 128 * Z.of_nat (sectors_for size).
Proof.
  intros H. rewrite <- sectors_for_Z by done.
  pose proof (proj1 (divRoundUp_spec size SectorSize (divRoundUp size SectorSize) H ltac:(done))).
  unfold SectorSize in *. lia.
Qed.

Lemma created_file_ok c k j size :
  (let h := bytes_header (c (Z.of_nat k)) in
   header_wf h /\ numBytes h = size /\ numSectors h = Z.of_nat (sectors_for size) /\
   blocks h = seqZ (Z.of_nat j) (Z.of_nat (sectors_for size))) ->
  0 <= size -> (sectors_for size <= 25)%nat -> (j + sectors_for size <= 1024)%nat ->
  file_ok (bytes_header (c (Z.of_nat k))).
Proof.
  cbv zeta. intros (Wh & Hnb & Hns & Hb) H0 Hn Hj. pose proof (sectors_for_bound size H0).
  eapply (seqZ_file_ok _ j); [exact Wh|exact Hns|exact Hn|exact Hj|lia|exact Hb].
Qed.

(** The file with header [k] has been put where [Create] puts it: the header in
    the first clear sector, the blocks in the first run behind. *)
Definition placed (c c1 : Z -> list Z) (fs fs1 : FileSystem) (n k j : nat) : Prop :=
  let old := bits (disk_map c fs) in
  find_clear old = Some k /\ clear_run (<[k := true]> old) j n = true /\ (j + n <= 1024)%nat /\
  (forall l, (l < j)%nat -> clear_run (<[k := true]> old) l n = false) /\
  bits (disk_map c1 fs1) = mark_run (<[k := true]> old) j n /\
  blocks (bytes_header (c1 (Z.of_nat k))) = seqZ (Z.of_nat j) (Z.of_nat n).

(** [Copy] once [Create] has succeeded. *)
Lemma Copy_created fs m free s nm data fs0 s0 (size := Z.of_nat (length data)) :
  ready s -> good s -> unlocked s -> fs_ok (content s) fs m free -> (sectors_for size <= 25)%nat ->
  Create fs nm size s = Ok ((true, fs0), s0) ->
  exists fs1 s1 k j, let sec := Z.of_nat k in Copy (Some data) nm fs s = Ok ((Done, fs1), s1) /\
    ready s1 /\ good s1 /\ unlocked s1 /\ same_files fs fs1 /\
    fs_ok (content s1) fs1 (<[key nm := sec]> m) (free - 1) /\
    stores (content s1) (<[key nm := sec]> m) nm data /\
    placed (content s) (content s1) fs fs1 (sectors_for size) k j /\
    forall t, 0 <= t -> bits (disk_map (content s) fs) !! Z.to_nat t = Some true ->
      t ∉ blocks (hdr (freeMapFile fs)) -> t ∉ blocks (hdr (directoryFile fs)) ->
      content s1 t = content s t.
Proof.
  intros Hr Hg Hu Hok Hn Ec.
  assert (H0 : 0 <= size) by lia.
  destruct (Create_true_inv fs m free s nm size fs0 s0 Hr Hg Hok H0 ltac:(lia) Ec)
    as (k & j & _ & _ & Hfk & Hk & Hrun & Hj & Hmin & Hc).
  pose proof (created_blocks fs m free s nm size fs0 s0 k j Hc) as Hb.
  destruct Hc as (fs' & s' & [= <- <-] & HS & X0 & Ok0 & Hbits & (Wh & _ & Hnb & Hns & _) & O0).
  assert (Hf : file_ok (bytes_header (content s0 (Z.of_nat k)))).
  { eapply (created_file_ok _ k j size); [split; [exact Wh|]; split; [exact Hnb|done]|done..]. }
  unfold Copy. pose proof (sectors_for_bound size H0) as Hsz.
  fold size. rewrite wrap32_small by (unfold is_int; lia). mstep by exact Ec. cbn [negb].
  destruct (Open_spec fs0 _ _ s0 nm (proj1 X0) (proj1 (proj2 X0)) Ok0)
    as (fs1 & s1 & r & E1 & S1 & R1 & G1 & C1 & H1).
  rewrite lookup_insert_eq in H1. destruct H1 as (f & v & -> & F1 & F2 & F3 & L1 & _).
  mstep by exact E1. pose proof (file_ok_same _ _ F3 Hf) as Hf'.
  assert (Hu1 : unlocked s1).
  { eapply unlocked_locks; [exact L1|]. eapply unlocked_locks; [by eapply effect_locks|done]. }
  assert (Hv : 0 <= Z.of_nat k < NumSectors)
    by (apply (fs_valid _ _ _ _ Ok0 (key nm)), lookup_insert_eq).
  assert (Hnf : numBytes (hdr f) = size) by (destruct F3 as (_ & -> & _); exact Hnb).
  destruct (Copy_loop_spec (S (length data)) f data s1) as (f' & s2 & E2 & F4 & _ & X2 & B2 & O2);
    [done|done|done|apply Hu1; by rewrite F1|by rewrite F2|rewrite F2, Hnf; lia|lia|].
  mstep by exact E2.
  destruct (close_spec f' s2) as (s3 & E3 & R3 & G3 & L3 & C3); [apply X2..|by rewrite F4, F1|].
  mstep by exact E3. exists fs1, s3, k, j. split; [reflexivity|].
  assert (Hbf : blocks (hdr f) = seqZ (Z.of_nat j) (Z.of_nat (sectors_for size)))
    by (by rewrite (same_file_blocks _ _ F3)).
  assert (Hclear : forall t, t ∈ blocks (hdr f) ->
    0 <= t /\ t <> Z.of_nat k /\ bits (disk_map (content s) fs) !! Z.to_nat t = Some false).
  { intros t Ht. rewrite Hbf in Ht. eapply (run_was_clear fs s size); [lia|done..]. }
  assert (C30 : forall t, t ∉ blocks (hdr f) -> content s3 t = content s0 t)
    by (intros t Ht; by rewrite C3, O2, C1).
  assert (Hk3 : content s3 (Z.of_nat k) = content s0 (Z.of_nat k))
    by (apply C30; intros Hin; by destruct (Hclear _ Hin) as (_ & ? & _)).
  split; [exact R3|]. split; [exact G3|].
  split; [eapply unlocked_locks; [exact L3|]; eapply unlocked_locks; [by eapply effect_locks|done]|].
  split; [by eapply same_files_trans|]. split; [|split; [|split]].
  - eapply fs_ok_same; [exact S1|]. eapply fs_ok_frame; [|exact Ok0]. intros t Ht. apply C30.
    intros Hin. destruct (Hclear t Hin) as (_ & _ & Hfalse). destruct HS as [HS1 HS2].
    rewrite (same_file_blocks _ _ HS1), (same_file_blocks _ _ HS2) in Ht.
    rewrite (fs_marked _ _ _ _ Hok t Ht) in Hfalse. done.
  - exists (Z.of_nat k). rewrite lookup_insert_eq, Hk3. split; [done|]. split; [exact Hf|].
    rewrite <- (file_bytes_same _ _ _ F3), (file_bytes_ext (content s3) (content s2)), B2, F2
      by (intros; apply C3).
    rewrite drop_ge by (rewrite length_file_bytes, Hnf by done; unfold size; lia).
    cbn. by rewrite app_nil_r.
  - split; [exact Hfk|]. split; [exact Hrun|]. split; [exact Hj|]. split; [exact Hmin|].
    rewrite (disk_map_same _ _ _ S1), <- Hbits, Hk3. split; [|exact Hb].
    f_equal. unfold disk_map. do 2 f_equal. apply file_bytes_ext. intros t Ht. apply C30.
    intros Hin. destruct (Hclear t Hin) as (_ & _ & Hfalse). destruct HS as [HS1 _].
    rewrite (same_file_blocks _ _ HS1) in Ht.
    rewrite (fs_marked _ _ _ _ Hok t (or_introl Ht)) in Hfalse. done.
  - intros t Ht0 Ht H2 H3. rewrite C30, O0; [done| |done|done|].
    + intros ->. rewrite Nat2Z.id in Ht. congruence.
    + intros Hin. destruct (Hclear t Hin) as (_ & _ & Hfalse). congruence.
Qed.

End Copying.

(** ** Properties *)


Lemma formatted_locks_free :
  (s0 ← SynchDisk_SynchDisk empty_cache None;
   x ← @FileSystem_FileSystem zero_env (@ReadSector_uncached zero_env) true s0;
   Ok (readerWtiterSemap x.2, readerNum x.2)) = Ok (replicate 1024 1, replicate 1024 0).
Proof. vm_compute. reflexivity. Qed.

Lemma Ok_pair_inj {A B} (a a' : A) (b b' : B) : Ok (a, b) = Ok (a', b') -> a = a' /\ b = b'.
Proof. by intros [= -> ->]. Qed.

Lemma formatted_disk_unlocked fs s : formatted_disk fs s -> unlocked s.
Proof.
  intros (s0 & E0 & E1). pose proof formatted_locks_free as H.
  apply obind_Ok in H as (s0' & E0' & H). apply obind_Ok in H as (x & E1' & H).
  assert (s0' = s0) as -> by congruence. rewrite E1 in E1'. injection E1' as <-.
  apply Ok_pair_inj in H as [H3 H4]. cbn [snd] in H3, H4. intros t Ht.
  unfold free_at. rewrite H3, H4. unfold NumSectors, SectorsPerTrack, NumTracks in Ht |- *.
  split; [lia|]. split; apply lookup_replicate_2; lia.
Qed.


(** Format, copy 100 bytes, print them. *)
Definition copy_print `{Env} `{SectorReader} : M SynchDisk (message * option (list Z)) :=
  fs ← FileSystem_FileSystem true;
  x ← Copy (Some (replicate 100 65)) [97] fs;
  y ← Print [97] x.2;
  mret (x.1, y.1).

Definition performance_test `{Env} `{SectorReader} : M SynchDisk (message * message) :=
  fs ← FileSystem_FileSystem true;
  x ← PerformanceTest fs;
  mret x.1.

(** The commands on a fresh, formatted disk.  Without the sector cache the
    copy is printed back and the performance test runs without error.  With the
    source's [ReadSector] the copy aborts the kernel (the directory read back
    from the cache lacks the new name, and [Copy] asserts that [Open] finds
    it), and the performance test cannot open the file it has created. *)
Theorem fstest_cache_breaks_Copy :
  fst <$> run_on_fresh (@copy_print zero_env (@ReadSector_uncached zero_env))
    = Ok (Done, Some (replicate 100 65)) /\
  fst <$> run_on_fresh (@performance_test zero_env (@ReadSector_uncached zero_env))
    = Ok (Done, Done) /\
  fst <$> run_on_fresh (@copy_print zero_env (@ReadSector zero_env)) = Fault AssertFailure /\
  fst <$> run_on_fresh (@performance_test zero_env (@ReadSector zero_env))
    = Ok (CannotOpen, Done).
Proof. splits; vm_compute; reflexivity. Qed.
