(* ===== verification/Startup.v ===== *)
(** * Start-up: the command line (threads/main.cc, system.cc, utility.cc)

    [Initialize] reads the flags that set up the kernel, [main] those that call
    it; both walk over the arguments with the same loop.  Which flags exist
    depends on the macros the kernel is compiled with, a [Build].  What the
    commands do is an argument of [main], the class [Commands], of
    which FileStore.v gives the kernel with the file system as an instance.
    The arguments are C strings. *)
From S2P Require Import Prelude CInt.
From Stdlib Require Import ZArith Lia List Bool String Ascii.
From stdpp Require Import base tactics list numbers gmap strings.
Local Open Scope string_scope.
Local Open Scope Z_scope.

(** The macros of the Makefiles. *)
Record Build := mkBuild {
  THREADS : bool;
  USER_PROGRAM : bool;
  FILESYS_NEEDED : bool;
  FILESYS : bool;
  NETWORK : bool }.

(** DEFINES of filesys/Makefile and of network/Makefile. *)
Definition filesys_build : Build := mkBuild false true true true false.
Definition network_build : Build := mkBuild false true true true true.

(** ** atoi of the C library, on a host with 32-bit [long] *)

Definition digit (c : ascii) : option Z :=
  let v := Z.of_nat (nat_of_ascii c) in if (48 <=? v) && (v <=? 57) then Some (v - 48) else None.

Fixpoint digits (s : string) (acc : Z) : Z :=
  match s with
  | String c r => match digit c with Some d => digits r (10 * acc + d) | None => acc end
  | EmptyString => acc
  end.

Fixpoint skip_spaces (s : string) : string :=
  match s with
  | String c r =>
    let v := Z.of_nat (nat_of_ascii c) in
    if (v =? 32) || (9 <=? v) && (v <=? 13) then skip_spaces r else s
  | EmptyString => s
  end.

Definition clamp (z : Z) : Z := Z.max (-2147483648) (Z.min 2147483647 z).

Definition atoi (s : string) : Z :=
  match skip_spaces s with
  | String "-"%char r => clamp (- digits r 0)
  | String "+"%char r => clamp (digits r 0)
  | r => clamp (digits r 0)
  end.

(** ** The loop over the arguments *)

(** [for (...; argc > 0; argc -= argCount, argv += argCount)]: [body] is given
    [*argv] and the arguments behind it, and returns [argCount]. *)
Fixpoint args_loop {S} (body : string -> list string -> M S nat) (fuel : nat) (argv : list string) :
    M S unit :=
  match argv with
  | [] => mret tt
  | a :: rest =>
    match fuel with
    | O => fail Diverges
    | Datatypes.S fuel' => argCount ← body a rest; args_loop body fuel' (drop argCount argv)
    end
  end.

(** As many rounds as there are arguments. *)
Definition each_arg {S} (body : string -> list string -> M S nat) (argv : list string) : M S unit :=
  args_loop body (List.length argv) argv.

(** [*(argv + n)], which the code reads after it has asserted that the argument
    is there; [argc] at this point is one more than the arguments behind. *)
Definition arg (rest : list string) (n : nat) : string := nth (n - 1) rest "".
Definition argc (rest : list string) : Z := 1 + Z.of_nat (List.length rest).

(** ** Initialize *)

(** The local variables of [Initialize], the seeds given to RandomInit, and
    for [rely] the text given to [atof], if any. *)
Record Settings := mkSettings {
  debugArgs : string;
  seeds : list Z;
  randomYield : bool;
  debugUserProg : bool;
  format : bool;
  rely : option string;
  netname : Z }.

Definition defaults : Settings := mkSettings "" [] false false false None 0.

Definition set_debugArgs v s := mkSettings v (seeds s) (randomYield s) (debugUserProg s) (format s) (rely s) (netname s).
Definition set_random v s := mkSettings (debugArgs s) (seeds s ++ [v]) true (debugUserProg s) (format s) (rely s) (netname s).
Definition set_debugUserProg s := mkSettings (debugArgs s) (seeds s) (randomYield s) true (format s) (rely s) (netname s).
Definition set_format s := mkSettings (debugArgs s) (seeds s) (randomYield s) (debugUserProg s) true (rely s) (netname s).
Definition set_rely v s := mkSettings (debugArgs s) (seeds s) (randomYield s) (debugUserProg s) (format s) (Some v) (netname s).
Definition set_netname v s := mkSettings (debugArgs s) (seeds s) (randomYield s) (debugUserProg s) (format s) (rely s) v.

Definition Initialize_arg (b : Build) (argv : string) (rest : list string) : M Settings nat :=
  argCount ←
    (if String.eqb argv "-d" then
       if argc rest =? 1 then _ ← modify (set_debugArgs "+"); mret 1%nat
       else _ ← modify (set_debugArgs (arg rest 1)); mret 2%nat
     else if String.eqb argv "-rs" then
       _ ← ASSERT (1 <? argc rest);
       _ ← modify (set_random (atoi (arg rest 1))); mret 2%nat
     else mret 1%nat);
  _ ← (if USER_PROGRAM b && String.eqb argv "-s" then modify set_debugUserProg else mret tt);
  _ ← (if FILESYS_NEEDED b && String.eqb argv "-f" then modify set_format else mret tt);
  if NETWORK b && String.eqb argv "-l" then
    _ ← ASSERT (1 <? argc rest); _ ← modify (set_rely (arg rest 1)); mret 2%nat
  else if NETWORK b && String.eqb argv "-m" then
    _ ← ASSERT (1 <? argc rest); _ ← modify (set_netname (atoi (arg rest 1))); mret 2%nat
  else mret argCount.

(** The flags, from [argv] without the name of the program. *)
Definition Initialize_flags (b : Build) (argv : list string) : outcome Settings :=
  x ← each_arg (Initialize_arg b) argv defaults; Ok x.2.

(** ** utility.cc: which DEBUG messages are printed *)

(** [strchr(s, c) != 0]: the terminating 0 counts as a character. *)
Fixpoint strchr (s : string) (c : ascii) : bool :=
  match s with
  | String x r => Ascii.eqb x c || strchr r c
  | EmptyString => Ascii.eqb c "000"%char
  end.

Definition DebugIsEnabled (enableFlags : option string) (flag : ascii) : bool :=
  match enableFlags with
  | Some flags => strchr flags flag || strchr flags "+"%char
  | None => false
  end.

(** ** The global objects *)

Inductive global :=
  GStats | GInterrupt | GScheduler | GTimer | GThreadManager | GMainThread | GMachine | GSynchDisk
  | GFileSystem | GPostOffice.

#[global] Instance global_eq_dec : EqDecision global.
Proof. solve_decision. Defined.

Definition when (c : bool) (g : global) : list global := if c then [g] else [].

(** What [Initialize] creates, in this order. *)
Definition created (b : Build) (s : Settings) : list global :=
  [GStats; GInterrupt; GScheduler] ++ when (randomYield s) GTimer ++ [GThreadManager; GMainThread] ++
  when (USER_PROGRAM b) GMachine ++ when (FILESYS b) GSynchDisk ++
  when (FILESYS_NEEDED b) GFileSystem ++ when (NETWORK b) GPostOffice.

(** What [Cleanup] deletes; the pointer to the timer is NULL without "-rs". *)
Definition Cleanup (b : Build) : list global :=
  when (NETWORK b) GPostOffice ++ when (USER_PROGRAM b) GMachine ++ when (FILESYS_NEEDED b) GFileSystem ++
  when (FILESYS b) GSynchDisk ++ [GTimer; GScheduler; GInterrupt].

(** ** main *)

Inductive command :=
| PrintCopyright
| RunProgram (file : string)
| TestConsole (files : option (string * string))
| CopyFile (unixFile nachosFile : string)
| PrintFile (file : string)
| RemoveFile (file : string)
| ListFiles
| PrintFileSystem
| TestPerformance
| Delay (seconds : Z)
| TestMail (networkID : Z).

Class Commands (K : Type) := run_command : command -> M K unit.

Section Main.
Context {K : Type} `{R : Commands K}.

Definition main_arg (b : Build) (argv : string) (rest : list string) : M K nat :=
  _ ← (if String.eqb argv "-z" then run_command PrintCopyright else mret tt);
  argCount ←
    (if USER_PROGRAM b then
       if String.eqb argv "-x" then
         _ ← ASSERT (1 <? argc rest); _ ← run_command (RunProgram (arg rest 1)); mret 2%nat
       else if String.eqb argv "-c" then
         _ ← (if argc rest =? 1 then run_command (TestConsole None)
              else _ ← ASSERT (2 <? argc rest); run_command (TestConsole (Some (arg rest 1, arg rest 2))));
         fail Halted
       else mret 1%nat
     else mret 1%nat);
  argCount ←
    (if FILESYS b then
       if String.eqb argv "-cp" then
         _ ← ASSERT (2 <? argc rest); _ ← run_command (CopyFile (arg rest 1) (arg rest 2)); mret 3%nat
       else if String.eqb argv "-p" then
         _ ← ASSERT (1 <? argc rest); _ ← run_command (PrintFile (arg rest 1)); mret 2%nat
       else if String.eqb argv "-r" then
         _ ← ASSERT (1 <? argc rest); _ ← run_command (RemoveFile (arg rest 1)); mret 2%nat
       else if String.eqb argv "-l" then _ ← run_command ListFiles; mret argCount
       else if String.eqb argv "-D" then _ ← run_command PrintFileSystem; mret argCount
       else if String.eqb argv "-t" then _ ← run_command TestPerformance; mret argCount
       else mret argCount
     else mret argCount);
  if NETWORK b && String.eqb argv "-o" then
    _ ← ASSERT (1 <? argc rest);
    _ ← run_command (Delay 2); _ ← run_command (TestMail (atoi (arg rest 1))); mret 2%nat
  else mret argCount.

(** The loop over the commands, and [main]: [boot] creates the global objects
    for the settings.  The main thread ends with Finish. *)
Definition main_commands (b : Build) (argv : list string) : M K unit := each_arg (main_arg b) argv.

Definition main (b : Build) (boot : Settings -> outcome K) (argv : list string) : outcome K :=
  s ← Initialize_flags b argv; k ← boot s; x ← main_commands b argv k; Ok x.2.

End Main.

(** With THREADS the first loop of [main] looks for "-q"; it uses up the
    arguments, so that the loop above does nothing.  [argv[0][1]] is read
    whatever the argument. *)
Definition testnum_arg (argv : string) (rest : list string) : M Z nat :=
  match argv with
  | EmptyString => fail BadAccess
  | String _ r =>
    if String.prefix "q" r then
      match rest with
      | [] => fail BadAccess
      | n :: _ => _ ← modify (fun _ => atoi n); mret 2%nat
      end
    else _ ← modify (fun _ => 1); mret 1%nat
  end.

Definition testnum_flags (argv : list string) (testnum : Z) : outcome Z :=
  x ← each_arg testnum_arg argv testnum; Ok x.2.

(** ** The loop *)

(** [m] returns only values with [P]. *)
Definition gives {S A} (P : A -> Prop) (m : M S A) : Prop :=
  forall s a s', m s = Ok (a, s') -> P a.

Lemma gives_ret {S A} (P : A -> Prop) (a : A) : P a -> gives (S := S) P (mret a).
Proof. intros H s x s' [= <- <-]. done. Qed.

Lemma gives_fail {S A} (P : A -> Prop) e : gives (S := S) P (fail e).
Proof. done. Qed.

Lemma gives_bind {S A B} (P : A -> Prop) (Q : B -> Prop) (m : M S A) (f : A -> M S B) :
  gives P m -> (forall a, P a -> gives Q (f a)) -> gives Q (m ≫= f).
Proof.
  intros Hm Hf s b s'. unfold mbind, M_bind. destruct (m s) as [[a s1]|e] eqn:E; [|done].
  apply Hf. by eapply Hm.
Qed.

Lemma gives_any {S A} (m : M S A) : gives (fun _ => True) m.
Proof. done. Qed.

(** Goals of the form [gives (le 1) m]: the number of arguments used. *)
Ltac gives :=
  repeat first
    [ apply gives_ret; (done || lia)
    | apply gives_fail
    | match goal with |- gives _ (if ?c then _ else _) => destruct c end
    | match goal with |- gives _ (match ?l with _ => _ end) => destruct l end
    | match goal with |- gives (le 1) ((if ?c then _ else mret tt) ≫= _) =>
        eapply gives_bind; [apply gives_any|intros ? _] end
    | match goal with |- gives (le 1) (?m ≫= _) =>
        match type of m with
        | M _ nat => apply (gives_bind (le 1)); [|intros ? ?]
        | _ => eapply gives_bind; [apply gives_any|intros ? _]
        end end ].

Lemma args_loop_fuel {S} (body : string -> list string -> M S nat) :
  (forall a rest, gives (le 1) (body a rest)) ->
  forall f1 f2 argv s, (List.length argv <= f1)%nat -> (List.length argv <= f2)%nat ->
  args_loop body f1 argv s = args_loop body f2 argv s.
Proof.
  intros Hb f1. induction f1 as [|f1 IH]; intros [|f2] [|a rest] s H1 H2; cbn [List.length] in *; try done; try lia.
  cbn [args_loop]. unfold mbind, M_bind. destruct (body a rest s) as [[n s']|e] eqn:E; [|done].
  apply Hb in E. apply IH; rewrite length_drop; cbn [List.length]; lia.
Qed.

(** A group of arguments that one round uses. *)
Lemma each_arg_group {S} (body : string -> list string -> M S nat) a ws rest (m : M S unit) s :
  (forall a rest, gives (le 1) (body a rest)) ->
  (forall s, body a (ws ++ rest)%list s = (_ ← m; mret (Datatypes.S (List.length ws))) s) ->
  each_arg body ((a :: ws) ++ rest)%list s = (_ ← m; each_arg body rest) s.
Proof.
  intros Hc Hb. unfold each_arg. cbn [app List.length args_loop]. unfold mbind at 1, M_bind at 1. rewrite Hb.
  unfold mbind, M_bind. destruct (m s) as [[[] s']|e]; [|done]. cbn.
  rewrite drop_app_length. apply args_loop_fuel; [done|rewrite length_app; lia|done].
Qed.

(** Arguments that every round passes over. *)
Lemma each_arg_skip {S} (body : string -> list string -> M S nat) ws rest s :
  (forall a rest, gives (le 1) (body a rest)) ->
  Forall (fun a => forall rest s, body a rest s = Ok (1%nat, s)) ws ->
  each_arg body (ws ++ rest)%list s = each_arg body rest s.
Proof.
  intros Hc. induction 1 as [|a ws Ha Hw IH]; [done|].
  rewrite <- IH. etrans; [apply (each_arg_group body a [] (ws ++ rest)%list (mret tt) s Hc)|done].
  intros s'. by rewrite Ha.
Qed.

Lemma Initialize_arg_counts b a rest : gives (le 1) (Initialize_arg b a rest).
Proof. unfold Initialize_arg. gives. Qed.

Lemma main_arg_counts {K} `{Commands K} b a rest : gives (le 1) (main_arg b a rest).
Proof. unfold main_arg. gives. Qed.

Lemma testnum_arg_counts a rest : gives (le 1) (testnum_arg a rest).
Proof. unfold testnum_arg. gives. Qed.

(** ** What is typed *)

(** The flags of [Initialize] and the commands of [main], and how each is
    typed. *)
Inductive flag :=
| Debug (flags : string)
| Random (text : string)
| SingleStep
| Format
| Reliability (text : string)
| MachineId (text : string).

Definition flag_words (f : flag) : string * list string :=
  match f with
  | Debug flags => ("-d", [flags])
  | Random text => ("-rs", [text])
  | SingleStep => ("-s", [])
  | Format => ("-f", [])
  | Reliability text => ("-l", [text])
  | MachineId text => ("-m", [text])
  end.

Definition flag_supported (b : Build) (f : flag) : bool :=
  match f with
  | SingleStep => USER_PROGRAM b
  | Format => FILESYS_NEEDED b
  | Reliability _ | MachineId _ => NETWORK b
  | _ => true
  end.

Definition apply_flag (f : flag) : Settings -> Settings :=
  match f with
  | Debug flags => set_debugArgs flags
  | Random text => set_random (atoi text)
  | SingleStep => set_debugUserProg
  | Format => set_format
  | Reliability text => set_rely text
  | MachineId text => set_netname (atoi text)
  end.

Inductive request :=
| Copyright
| Execute (file : string)
| CopyIn (unixFile nachosFile : string)
| Show (file : string)
| Delete (file : string)
| Listing
| Everything
| Performance
| Mail (text : string).

Definition request_words (r : request) : string * list string :=
  match r with
  | Copyright => ("-z", [])
  | Execute f => ("-x", [f])
  | CopyIn u n => ("-cp", [u; n])
  | Show f => ("-p", [f])
  | Delete f => ("-r", [f])
  | Listing => ("-l", [])
  | Everything => ("-D", [])
  | Performance => ("-t", [])
  | Mail text => ("-o", [text])
  end.

Definition request_supported (b : Build) (r : request) : bool :=
  match r with
  | Copyright => true
  | Execute _ => USER_PROGRAM b
  | Mail _ => NETWORK b
  | _ => FILESYS b
  end.

Definition perform {K} `{Commands K} (r : request) : M K unit :=
  match r with
  | Copyright => run_command PrintCopyright
  | Execute f => run_command (RunProgram f)
  | CopyIn u n => run_command (CopyFile u n)
  | Show f => run_command (PrintFile f)
  | Delete f => run_command (RemoveFile f)
  | Listing => run_command ListFiles
  | Everything => run_command PrintFileSystem
  | Performance => run_command TestPerformance
  | Mail text => _ ← run_command (Delay 2); run_command (TestMail (atoi text))
  end.

Fixpoint perform_all {K} `{Commands K} (rs : list request) : M K unit :=
  match rs with [] => mret tt | r :: rs' => _ ← perform r; perform_all rs' end.

Definition typed_words (ws : list (string * list string)) : list string :=
  concat (map (fun w => w.1 :: w.2) ws).

(** The words that mean something to [Initialize], to [main]. *)
Definition initialize_words (b : Build) : list string :=
  ["-d"; "-rs"] ++ (if USER_PROGRAM b then ["-s"] else []) ++ (if FILESYS_NEEDED b then ["-f"] else []) ++
  (if NETWORK b then ["-l"; "-m"] else []).
Definition main_words (b : Build) : list string :=
  ["-z"] ++ (if USER_PROGRAM b then ["-x"; "-c"] else []) ++
  (if FILESYS b then ["-cp"; "-p"; "-r"; "-l"; "-D"; "-t"] else []) ++ (if NETWORK b then ["-o"] else []).

Ltac words_ne H :=
  repeat match goal with
  | |- context [String.eqb ?a ?w] =>
      destruct (String.eqb_spec a w) as [->|_]; [exfalso; apply H; rewrite ?elem_of_app, ?elem_of_cons; tauto|]
  end.

Lemma Initialize_arg_skips b a : a ∉ initialize_words b ->
  forall rest s, Initialize_arg b a rest s = Ok (1%nat, s).
Proof.
  intros H rest s. unfold initialize_words in H. unfold Initialize_arg.
  destruct (USER_PROGRAM b), (FILESYS_NEEDED b), (NETWORK b); cbn [andb]; words_ne H; reflexivity.
Qed.

Lemma main_arg_skips {K} `{Commands K} b a : a ∉ main_words b ->
  forall rest s, main_arg b a rest s = Ok (1%nat, s).
Proof.
  intros Hn rest s. unfold main_words in Hn. unfold main_arg.
  destruct (USER_PROGRAM b), (FILESYS b), (NETWORK b); cbn [andb]; words_ne Hn; reflexivity.
Qed.

Lemma ASSERT_argc {S} k (rest : list string) (s : S) :
  (k < 1 + Z.of_nat (List.length rest)) -> ASSERT (k <? argc rest) s = Ok (tt, s).
Proof. intros H. unfold ASSERT, argc. by rewrite (proj2 (Z.ltb_lt _ _) H). Qed.

Lemma Initialize_arg_flag b f rest s :
  flag_supported b f = true ->
  Initialize_arg b (flag_words f).1 ((flag_words f).2 ++ rest)%list s =
    (_ ← modify (apply_flag f); mret (Datatypes.S (List.length (flag_words f).2))) s.
Proof.
  intros Hs. assert (A : forall x, (argc (x :: rest) =? 1) = false).
  { intros x. unfold argc. cbn [List.length]. apply Z.eqb_neq. lia. }
  destruct f; cbn [flag_words fst snd app flag_supported] in *; unfold Initialize_arg;
    rewrite ?Hs; cbn [String.eqb Ascii.eqb Bool.eqb]; cbn -[argc]; rewrite ?andb_false_r, ?A; cbn -[argc];
    unfold mbind, M_bind, mret, M_ret, modify; cbv beta iota;
    rewrite ?ASSERT_argc by (cbn [List.length]; lia); reflexivity.
Qed.

Lemma main_arg_request {K} `{Commands K} b r rest s :
  request_supported b r = true ->
  main_arg b (request_words r).1 ((request_words r).2 ++ rest)%list s =
    (_ ← perform r; mret (Datatypes.S (List.length (request_words r).2))) s.
Proof.
  intros Hs. destruct r; cbn [request_words fst snd app request_supported] in *; unfold main_arg;
    rewrite ?Hs; cbn [String.eqb Ascii.eqb Bool.eqb]; cbn -[argc];
    destruct (USER_PROGRAM b), (FILESYS b), (NETWORK b); try discriminate; cbn -[argc];
    unfold mbind, M_bind, mret, M_ret; rewrite ?ASSERT_argc by (cbn [List.length]; lia); cbn -[argc];
    try done; by repeat case_match.
Qed.

(** The flags and the requests, with what the other loop makes of their
    words. *)
Lemma Initialize_flags_words b fs rest s :
  Forall (fun f => flag_supported b f = true) fs -> Forall (fun w => w ∉ initialize_words b) rest ->
  each_arg (Initialize_arg b) (typed_words (map flag_words fs) ++ rest)%list s =
    Ok (tt, foldl (fun s f => apply_flag f s) s fs).
Proof.
  intros Hf Hr. revert s. induction Hf as [|f fs H _ IH]; intros s.
  - cbn [map typed_words concat app foldl]. rewrite <- (app_nil_r rest).
    rewrite each_arg_skip; [done|apply Initialize_arg_counts|].
    apply (Forall_impl _ _ _ Hr). intros a Ha. by apply Initialize_arg_skips.
  - unfold typed_words. cbn [map concat]. rewrite <- app_assoc.
    rewrite (each_arg_group _ _ _ _ (modify (apply_flag f))); [|apply Initialize_arg_counts|].
    + unfold mbind, M_bind. cbn. apply IH.
    + intros s'. by apply Initialize_arg_flag.
Qed.

Lemma main_commands_words {K} `{Commands K} b ws rs k :
  Forall (fun w => w ∉ main_words b) ws -> Forall (fun r => request_supported b r = true) rs ->
  main_commands b (ws ++ typed_words (map request_words rs))%list k = perform_all rs k.
Proof.
  intros Hw Hr. unfold main_commands. rewrite each_arg_skip; [|apply main_arg_counts|].
  2: { apply (Forall_impl _ _ _ Hw). intros a Ha. by apply main_arg_skips. }
  revert k. induction Hr as [|r rs Hs _ IH]; intros k; [done|].
  unfold typed_words. cbn [map concat perform_all].
  rewrite (each_arg_group _ _ _ _ (perform r)); [|apply main_arg_counts|intros k'; by apply main_arg_request].
  unfold mbind, M_bind. destruct (perform r k) as [[[] k']|e]; [|done]. apply IH.
Qed.

(** ** Properties *)

(** The command line means what it says.  For every sequence of flags and
    then requests that the kernel is built for, typed with their arguments,
    where no word of the one part is a flag or a command of the other, the
    kernel starts with exactly those settings and performs exactly those
    requests, in order, up to the first that does not return; file names of
    requests may even look like other requests. *)
Theorem startup_runs {K} `{Commands K} b boot fs rs :
  Forall (fun f => flag_supported b f = true) fs -> Forall (fun r => request_supported b r = true) rs ->
  Forall (fun w => w ∉ initialize_words b) (typed_words (map request_words rs)) ->
  Forall (fun w => w ∉ main_words b) (typed_words (map flag_words fs)) ->
  main b boot (typed_words (map flag_words fs) ++ typed_words (map request_words rs)) =
    (k ← boot (foldl (fun s f => apply_flag f s) defaults fs); x ← perform_all rs k; Ok x.2).
Proof.
  intros Hf Hr Hi Hm. unfold main, Initialize_flags. rewrite Initialize_flags_words by done. cbn.
  destruct (boot _) as [k|e]; [|done]. cbn. by rewrite main_commands_words.
Qed.

(** Every command notes itself. *)
#[local] Instance Noting : Commands (list command) := fun c k => Ok (tt, (k ++ [c])%list).

Definition demo_flags : list flag := [Debug "f"; Format].
Definition demo_requests : list request := [CopyIn "-p" "a"; Show "a"; Copyright].

Lemma startup_runs_witness :
  main filesys_build (fun s => Ok (if format s then [Delay 0] else []))
    ["-d"; "f"; "-f"; "-cp"; "-p"; "a"; "-p"; "a"; "-z"] =
    Ok [Delay 0; CopyFile "-p" "a"; PrintFile "a"; PrintCopyright].
Proof.
  etransitivity; [apply (startup_runs filesys_build (fun s => Ok (if format s then [Delay 0] else []))
    demo_flags demo_requests)|reflexivity].
  - repeat constructor.
  - repeat constructor.
  - apply (bool_decide_unpack (Forall _ _)). vm_compute. reflexivity.
  - apply (bool_decide_unpack (Forall _ _)). vm_compute. reflexivity.
Defined.

(** Where the two loops disagree.  With the file system, a file called "-f"
    makes [Initialize] format the disk; with the network as well, "-l", which
    is to list the directory, sets the network's reliability and aborts
    without an argument, and with one lists the directory as well; with
    THREADS, any argument behind "-q" and its number resets the number of the
    test to 1. *)
Theorem startup_clashes :
  (exists s, Initialize_flags filesys_build ["-p"; "-f"] = Ok s /\ format s = true) /\
  Initialize_flags network_build ["-l"] = Fault AssertFailure /\
  main network_build (fun s => Ok []) ["-l"; "0.5"] = Ok [ListFiles] /\
  testnum_flags ["-q"; "3"] 0 = Ok 3 /\ testnum_flags ["-q"; "3"; "-z"] 0 = Ok 1.
Proof. repeat split; try (eexists; split); vm_compute; reflexivity. Qed.
