(* ===== verification/FileStore.v ===== *)
(** * The kernel with the file system, from command line to command line

    main.cc, fstest.cc, filesys.cc and the disk put together: the instance of
    [Commands] (Startup.v) over FileSystem.v and FsTest.v, started on the UNIX
    file that is the disk.  [Store] is what it amounts to: a map from names to
    contents, which lasts from one run of the kernel to the next. *)
From S2P Require Import Prelude CInt BitMap Disk SynchDisk FileHeader Directory OpenFile FileSystem FsTest Startup.
From Stdlib Require Import ZArith Lia List Bool String Ascii.
From stdpp Require Import base tactics list numbers gmap fin_maps strings sorting.
Import Startup.
Local Open Scope string_scope.
Local Open Scope Z_scope.

(** ** The kernel *)

(** What the commands print. *)
Inductive output :=
| Notice
| Said (msg : message)
| Typed (data : list Z)
| Listed (names : list (list Z))
| Dumped (mapHdr dirHdr : list Z * list (list Z)) (used : list Z)
    (files : list (Z * (list Z * list (list Z))))
| Measured (write read : message).

Record Kernel := mkKernel {
  fileSystem : FileSystem;
  synchDisk : SynchDisk;
  screen : list output }.

(** The characters of a C string. *)
Definition chars (s : string) : list Z := map (fun c => Z.of_nat (nat_of_ascii c)) (list_ascii_of_string s).

(** A call of the file system, and what is printed of its result. *)
Definition calling {A} (op : FileSystem -> M SynchDisk (A * FileSystem)) (show : A -> list output) :
    M Kernel unit := fun k =>
  r ← op (fileSystem k) (synchDisk k);
  let '((a, fs), s) := r in Ok (tt, mkKernel fs s (screen k ++ show a)).

Arguments calling : simpl never.

Section Kernel.
Context `{E : Env} `{R : SectorReader}.
(** The UNIX files of the host, and the commands of other parts of the kernel. *)
Context (unix : string -> option (list Z)) (other : command -> M Kernel unit).

#[export] Instance filesys_commands : Commands Kernel := fun c =>
  match c with
  | PrintCopyright => modify (fun k => mkKernel (fileSystem k) (synchDisk k) (screen k ++ [Notice]))
  | CopyFile unixFile nachosFile =>
      calling (Copy (unix unixFile) (chars nachosFile))
        (fun m => match m with Done => [] | _ => [Said m] end)
  | PrintFile file =>
      calling (FsTest.Print (chars file))
        (fun r => match r with Some data => [Typed data] | None => [Said CannotOpen] end)
  | RemoveFile file => calling (fun fs => FileSystem.Remove fs (chars file)) (fun _ => [])
  | ListFiles => calling FileSystem.List (fun names => [Listed names])
  | PrintFileSystem => calling FileSystem.Print (fun '(p1, p2, used, p3) => [Dumped p1 p2 used p3])
  | TestPerformance => calling PerformanceTest (fun '(w, r) => [Measured w r])
  | c => other c
  end.

(** [Initialize] with FILESYS: the disk, then the file system; [cache0] is what
    the cache holds before anything is read. *)
Definition Initialize_devices (cache0 : list Cache) (DISK : option unix_file) (s : Settings) : outcome Kernel :=
  d ← SynchDisk_SynchDisk cache0 DISK;
  x ← FileSystem_FileSystem (format s) d;
  Ok (mkKernel x.1 x.2 []).

(** The UNIX file that is left when the kernel halts. *)
Definition halt (k : Kernel) : unix_file := dfile (disk (synchDisk k)).

(** One run after the other on the same disk, each with its command line: what
    they print. *)
Fixpoint runs (cache0 : nat -> list Cache) (DISK : option unix_file) (argvs : list (list string)) :
    outcome (list (list output)) :=
  match argvs with
  | [] => Ok []
  | argv :: argvs' =>
    k ← main filesys_build (Initialize_devices (cache0 0%nat) DISK) argv;
    rest ← runs (fun i => cache0 (S i)) (Some (halt k)) argvs';
    Ok (screen k :: rest)
  end.

End Kernel.

(** ** Specification: a map from names to contents *)

(** [compact]: nothing has been removed since the disk was formatted. *)
Record Store := mkStore { files : gmap (list Z) (list Z); compact : bool }.

Definition sectors_of (data : list Z) : nat := sectors_for (Z.of_nat (length data)).

(** The sectors in use: a header and the blocks for each file. *)
Definition sectors_used (fl : gmap (list Z) (list Z)) : nat :=
  map_fold (fun _ data n => (S (sectors_of data) + n)%nat) 0%nat fl.

(** No file [nm] of these contents can be created: the name is taken, the
    directory is full, or the rest of the disk (1024 sectors, less 5 of the
    file system) is too small. *)
Definition no_room (fl : gmap (list Z) (list Z)) (nm data : list Z) : Prop :=
  is_Some (fl !! key nm) \/ (10 <= size fl)%nat \/ (1019 < S (sectors_used fl + sectors_of data))%nat.

(** What a request prints and does; [None]: the kernel aborts, which only a copy
    can make it do, when there is room, but not in one piece. *)
Inductive does (unix : string -> option (list Z)) : request -> Store -> option (list output * Store) -> Prop :=
| does_copyright st : does unix Copyright st (Some ([Notice], st))
| does_no_input u n st : unix u = None ->
    does unix (CopyIn u n) st (Some ([Said CannotOpenInput], st))
| does_no_room u n data st : unix u = Some data -> no_room (files st) (chars n) data ->
    does unix (CopyIn u n) st (Some ([Said CannotCreate], st))
| does_copy u n data st : unix u = Some data -> ~ no_room (files st) (chars n) data ->
    does unix (CopyIn u n) st (Some ([], mkStore (<[key (chars n) := data]> (files st)) (compact st)))
| does_fragmented u n data st : unix u = Some data -> ~ no_room (files st) (chars n) data ->
    compact st = false -> does unix (CopyIn u n) st None
| does_show n data st : files st !! key (chars n) = Some data ->
    does unix (Show n) st (Some ([Typed data], st))
| does_show_none n st : files st !! key (chars n) = None ->
    does unix (Show n) st (Some ([Said CannotOpen], st))
| does_delete n st : is_Some (files st !! key (chars n)) ->
    does unix (Delete n) st (Some ([], mkStore (delete (key (chars n)) (files st)) false))
| does_delete_none n st : files st !! key (chars n) = None ->
    does unix (Delete n) st (Some ([], st))
| does_list names st : NoDup (map key names) ->
    (forall k, k ∈ map key names <-> is_Some (files st !! k)) ->
    does unix Listing st (Some ([Listed names], st)).

(** The requests one after the other: what is printed, and the store. *)
Inductive does_all (unix : string -> option (list Z)) :
    list request -> Store -> option (list output * Store) -> Prop :=
| does_nil st : does_all unix [] st (Some ([], st))
| does_abort r rs st : does unix r st None -> does_all unix (r :: rs) st None
| does_cons r rs st out st1 x : does unix r st (Some (out, st1)) -> does_all unix rs st1 x ->
    does_all unix (r :: rs) st
      (match x with Some (out', st2) => Some ((out ++ out')%list, st2) | None => None end).

(** Runs of the kernel on the same disk: what each prints. *)
Inductive sessions (unix : string -> option (list Z)) :
    list (list request) -> Store -> option (list (list output)) -> Prop :=
| sessions_nil st : sessions unix [] st (Some [])
| sessions_abort rs rss st : does_all unix rs st None -> sessions unix (rs :: rss) st None
| sessions_cons rs rss st out st1 x : does_all unix rs st (Some (out, st1)) -> sessions unix rss st1 x ->
    sessions unix (rs :: rss) st (match x with Some outs => Some (out :: outs) | None => None end).

(** A request of the file store: a UNIX file has at most 25 sectors. *)
Definition storable (unix : string -> option (list Z)) (r : request) : Prop :=
  match r with
  | CopyIn u _ => match unix u with Some data => (length data <= 25 * 128)%nat | None => True end
  | Copyright | Show _ | Delete _ | Listing => True
  | _ => False
  end.

(** ** Counting sectors *)

Lemma sectors_used_insert fl k data :
  fl !! k = None -> sectors_used (<[k := data]> fl) = (S (sectors_of data) + sectors_used fl)%nat.
Proof. intros H. unfold sectors_used. apply (map_fold_insert_L (fun _ data n => (S (sectors_of data) + n)%nat)); [lia|done]. Qed.

Lemma sectors_used_delete fl k data :
  fl !! k = Some data -> sectors_used fl = (S (sectors_of data) + sectors_used (delete k fl))%nat.
Proof. intros H. unfold sectors_used. apply (map_fold_delete_L (fun _ data n => (S (sectors_of data) + n)%nat)); [lia|done]. Qed.

Lemma count_clear_mark_run bs j n :
  clear_run bs j n = true -> (count_clear (mark_run bs j n) + n)%nat = count_clear bs.
Proof.
  revert bs j. induction n as [|n IH]; intros bs j H; [unfold mark_run; cbn; lia|].
  pose proof (clear_run_lookup _ _ _ j H ltac:(lia)) as Hj.
  rewrite <- (count_clear_set bs j Hj). unfold mark_run in *. cbn [seq foldl].
  rewrite clear_run_S, Hj in H. cbn [andb] in H.
  rewrite <- (IH (<[j := true]> bs) (S j)); [lia|]. unfold clear_run in *.
  rewrite forallb_forall in H |- *. intros i Hi. specialize (H i Hi). apply in_seq in Hi.
  by rewrite list_lookup_insert_ne by lia.
Qed.

(** Sectors cleared one by one. *)
Definition clear_all (l : list Z) (bs : list bool) : list bool :=
  foldl (fun bs t => <[Z.to_nat t := false]> bs) bs l.

Definition marked (bs : list bool) (t : Z) : Prop := 0 <= t /\ bs !! Z.to_nat t = Some true.

Lemma clear_all_spec l : forall bs, NoDup l -> Forall (marked bs) l ->
  count_clear (clear_all l bs) = (count_clear bs + length l)%nat /\
  forall i, clear_all l bs !! i = if decide (Z.of_nat i ∈ l) then Some false else bs !! i.
Proof.
  induction l as [|t l IH]; intros bs Hn Hm.
  { cbn. split; [lia|]. intros i. by rewrite decide_False by apply not_elem_of_nil. }
  apply NoDup_cons in Hn as [Ht Hn]. apply Forall_cons in Hm as [[H0 Hb] Hm].
  destruct (IH (<[Z.to_nat t := false]> bs) Hn) as [Hc Hl].
  { rewrite Forall_forall in Hm |- *. intros t' Ht'. destruct (Hm t' Ht') as [? ?]. split; [done|].
    rewrite list_lookup_insert_ne; [done|]. intros ?%Z2Nat.inj; try done. by subst. }
  cbn [clear_all foldl length] in *. fold (clear_all l (<[Z.to_nat t := false]> bs)).
  rewrite Hc, (count_clear_unset _ _ Hb). split; [lia|]. intros i. rewrite Hl.
  destruct (decide (Z.of_nat i = t)) as [<-|Hne].
  - rewrite Nat2Z.id, (decide_True (P := Z.of_nat i ∈ Z.of_nat i :: l)) by apply list_elem_of_here.
    rewrite list_lookup_insert_eq by (rewrite Nat2Z.id in Hb; by eapply lookup_lt_Some).
    by case_decide.
  - rewrite list_lookup_insert_ne by lia. destruct (decide (Z.of_nat i ∈ l)) as [Hi|Hi].
    + by rewrite decide_True by (by apply list_elem_of_further).
    + rewrite decide_False; [done|]. rewrite elem_of_cons. tauto.
Qed.

(** ** The disk that holds a store *)

(** A sector in use that is not of the free map's or the directory's file. *)
Definition kept (c : Z -> list Z) (fs : FileSystem) (t : Z) : Prop :=
  marked (bits (disk_map c fs)) t /\ t ∉ blocks (hdr (freeMapFile fs)) /\ t ∉ blocks (hdr (directoryFile fs)).

(** The sectors of a file: its header and its blocks. *)
Definition extent (c : Z -> list Z) (sec : Z) : list Z := sec :: blocks (bytes_header (c sec)).

Record file_at (c : Z -> list Z) (fs : FileSystem) (sec : Z) (data : list Z) : Prop := {
  fa_ok : file_ok (bytes_header (c sec));
  fa_bytes : file_bytes c (bytes_header (c sec)) = data;
  fa_size : length (blocks (bytes_header (c sec))) = sectors_of data;
  fa_nodup : NoDup (extent c sec);
  fa_kept : forall t, t ∈ extent c sec -> kept c fs t;
  fa_system : FreeMapSector ∉ extent c sec /\ DirectorySector ∉ extent c sec }.

(** In a compact map every bit behind a clear one is clear. *)
Definition packed (bs : list bool) : Prop :=
  forall i l, bs !! i = Some false -> (i <= l < length bs)%nat -> bs !! l = Some false.

Record stored (c : Z -> list Z) (fs : FileSystem) (m : gmap (list Z) Z) (free : nat) (st : Store) : Prop := {
  sd_fs : fs_ok c fs m free;
  sd_map_hdr : same_file (bytes_header (c FreeMapSector)) (hdr (freeMapFile fs));
  sd_dir_hdr : same_file (bytes_header (c DirectorySector)) (hdr (directoryFile fs));
  sd_hdrs : kept c fs FreeMapSector /\ kept c fs DirectorySector;
  sd_dom : forall k, is_Some (m !! k) <-> is_Some (files st !! k);
  sd_file : forall k sec data, m !! k = Some sec -> files st !! k = Some data -> file_at c fs sec data;
  sd_apart : forall k k' sec sec' t, k <> k' -> m !! k = Some sec -> m !! k' = Some sec' ->
    t ∈ extent c sec -> t ∉ extent c sec';
  sd_count : (count_clear (bits (disk_map c fs)) + sectors_used (files st))%nat = 1019%nat;
  sd_free : (free + size (files st))%nat = 10%nat;
  sd_compact : compact st = true -> packed (bits (disk_map c fs)) }.

Lemma extent_same c c' sec : c' sec = c sec -> extent c' sec = extent c sec.
Proof. intros H. unfold extent. by rewrite H. Qed.

Lemma file_at_frame c c' fs fs' sec data :
  file_at c fs sec data -> (forall t, t ∈ extent c sec -> c' t = c t) ->
  (forall t, t ∈ extent c sec -> kept c' fs' t) -> file_at c' fs' sec data.
Proof.
  intros [F1 F2 F3 F4 F5 F6] Hc Hk. assert (Hs : c' sec = c sec) by (apply Hc, list_elem_of_here).
  constructor; rewrite ?(extent_same c c') by done; rewrite ?Hs; try done.
  rewrite <- F2. apply file_bytes_ext. intros t Ht. apply Hc. by apply list_elem_of_further.
Qed.

Lemma kept_quiet c c' fs fs' t :
  same_files fs fs' -> (forall t, c' t = c t) -> kept c fs t -> kept c' fs' t.
Proof.
  intros [S1 S2] Hc. unfold kept. rewrite (same_file_blocks _ _ S1), (same_file_blocks _ _ S2).
  rewrite (disk_map_same c' fs fs') by done. by rewrite (disk_map_ext c c').
Qed.

(** What only reads keeps the store. *)
Lemma stored_quiet c c' fs fs' m free st :
  same_files fs fs' -> (forall t, c' t = c t) -> stored c fs m free st -> stored c' fs' m free st.
Proof.
  intros HS Hc [H1 H2 H3 H4 H5 H6 H7 H8 H9 H10]. pose proof HS as [S1 S2].
  assert (Hm : disk_map c' fs' = disk_map c fs)
    by (rewrite (disk_map_same c' fs fs') by done; by apply disk_map_ext).
  constructor; rewrite ?Hm, ?Hc; try done.
  - eapply fs_ok_same, fs_ok_ext; done.
  - by eapply same_file_trans.
  - by eapply same_file_trans.
  - destruct H4. split; (eapply kept_quiet; [exact HS|exact Hc|assumption]).
  - intros k sec data Hk Hf. eapply file_at_frame; [by eapply H6|by intros|].
    intros t Ht. eapply kept_quiet; [exact HS|exact Hc|]. by apply (fa_kept _ _ _ _ (H6 k sec data Hk Hf)).
  - intros k k' sec sec' t Hne Hk Hk'. rewrite !(extent_same c c') by done. by apply (H7 k k').
Qed.

Lemma sd_None c fs m free st k : stored c fs m free st -> m !! k = None <-> files st !! k = None.
Proof. intros H. rewrite !eq_None_not_Some. by rewrite (sd_dom _ _ _ _ _ H k). Qed.

(** ** Where a new file goes *)

Lemma count_clear_le bs : (count_clear bs <= length bs)%nat.
Proof. induction bs as [|[] bs IH]; cbn; lia. Qed.

Lemma find_clear_before bs k : find_clear bs = Some k -> (count_clear bs + k <= length bs)%nat.
Proof.
  revert k. induction bs as [|[] bs IH]; intros k; cbn; [done| |].
  - destruct (find_clear bs) as [i|]; [|done]. intros [= <-]. specialize (IH i eq_refl). lia.
  - intros [= <-]. pose proof (count_clear_le bs). lia.
Qed.

(** In a compact map there is a run behind the first clear bit, if any. *)
Lemma packed_run bs k n :
  packed bs -> find_clear bs = Some k -> (S n <= count_clear bs)%nat ->
  clear_run (<[k := true]> bs) (S k) n = true.
Proof.
  intros Hp Hk Hn. pose proof (find_clear_before bs k Hk). apply find_clear_Some in Hk as [Hk _].
  unfold clear_run. apply forallb_forall. intros i Hi. apply in_seq in Hi.
  rewrite list_lookup_insert_ne by lia. by rewrite (Hp k i) by (done || lia).
Qed.

Lemma packed_placed bs k j n :
  packed bs -> find_clear bs = Some k -> (S n <= count_clear bs)%nat -> (j + n <= length bs)%nat ->
  clear_run (<[k := true]> bs) j n = true ->
  (forall l, (l < j)%nat -> clear_run (<[k := true]> bs) l n = false) ->
  packed (mark_run (<[k := true]> bs) j n).
Proof.
  intros Hp Hk Hn Hj Hrun Hmin. pose proof (packed_run bs k n Hp Hk Hn) as Hrun'.
  apply find_clear_Some in Hk as [Hk Hbefore].
  assert (Hl : forall i, mark_run (<[k := true]> bs) j n !! i =
    if decide (j <= i < j + n)%nat then Some true else (<[k := true]> bs) !! i)
    by (intros i; by rewrite lookup_mark_run by (by rewrite length_insert)).
  assert (Hjk : n = 0%nat \/ j = S k).
  { destruct n as [|n']; [by left|]. right.
    assert (~ (S k < j)%nat) by (intros Hlt; by rewrite Hmin in Hrun').
    pose proof (clear_run_lookup _ _ _ j Hrun ltac:(lia)) as Hjc.
    destruct (decide (j = k)) as [->|Hne].
    { rewrite list_lookup_insert_eq in Hjc by (by eapply lookup_lt_Some). done. }
    rewrite list_lookup_insert_ne in Hjc by done.
    destruct (decide (j < k)%nat); [|lia]. rewrite Hbefore in Hjc by done. done. }
  intros i l Hi Hil. rewrite length_mark_run, length_insert in Hil. rewrite Hl in Hi |- *. case_decide as Hd; [done|].
  destruct (decide (i = k)) as [->|Hik].
  { rewrite list_lookup_insert_eq in Hi by (by eapply lookup_lt_Some). done. }
  rewrite list_lookup_insert_ne in Hi by done.
  assert (k < i)%nat.
  { destruct (decide (i < k)%nat) as [Hlt|]; [|lia]. by rewrite Hbefore in Hi by done. }
  rewrite decide_False by lia. rewrite list_lookup_insert_ne by lia. by apply (Hp i l).
Qed.

(** ** Create and Remove on the store *)

Section Placing.
Context (c c1 : Z -> list Z) (fs fs1 : FileSystem) (n k j : nat).
Hypothesis HP : placed c c1 fs fs1 n k j.

Let old := bits (disk_map c fs).

Lemma placed_old : old !! k = Some false.
Proof. destruct HP as (Hk & _). by apply find_clear_Some in Hk as [? _]. Qed.

Lemma placed_length : length old = 1024%nat.
Proof. unfold old. by rewrite length_bits. Qed.

Lemma placed_lookup i : bits (disk_map c1 fs1) !! i =
  if decide (Z.of_nat i ∈ Z.of_nat k :: seqZ (Z.of_nat j) (Z.of_nat n)) then Some true else old !! i.
Proof.
  pose proof placed_old as Hk. destruct HP as (_ & _ & Hj & _ & -> & _).
  pose proof placed_length as Hl. pose proof (lookup_lt_Some _ _ _ Hk) as Hlt.
  rewrite lookup_mark_run by (rewrite length_insert; fold old; lia).
  case_decide as Hd.
  - rewrite decide_True; [done|]. apply list_elem_of_further, elem_of_seqZ. lia.
  - destruct (decide (i = k)) as [->|Hne].
    + rewrite decide_True by apply list_elem_of_here. by apply list_lookup_insert_eq.
    + rewrite decide_False; [by apply list_lookup_insert_ne|].
      rewrite elem_of_cons, elem_of_seqZ. lia.
Qed.

(** The sectors taken were clear, and differ. *)
Lemma placed_clear t :
  t ∈ Z.of_nat k :: seqZ (Z.of_nat j) (Z.of_nat n) -> 0 <= t /\ old !! Z.to_nat t = Some false.
Proof.
  pose proof placed_old as Hk. destruct HP as (_ & Hrun & _).
  intros [->|Ht%elem_of_seqZ]%elem_of_cons; [by rewrite Nat2Z.id; split; [lia|]|].
  pose proof (clear_run_lookup _ _ _ (Z.to_nat t) Hrun ltac:(lia)) as Hc. split; [lia|].
  destruct (decide (k = Z.to_nat t)) as [<-|Hne]; [done|].
  by rewrite list_lookup_insert_ne in Hc.
Qed.

Lemma placed_nodup : NoDup (Z.of_nat k :: seqZ (Z.of_nat j) (Z.of_nat n)).
Proof.
  pose proof placed_old as Hk. destruct HP as (_ & Hrun & _).
  apply NoDup_cons. split; [|apply NoDup_seqZ]. intros Ht%elem_of_seqZ.
  pose proof (clear_run_lookup _ _ _ k Hrun ltac:(lia)) as Hc.
  rewrite list_lookup_insert_eq in Hc by (by eapply lookup_lt_Some). done.
Qed.

Lemma placed_count : (count_clear (bits (disk_map c1 fs1)) + S n)%nat = count_clear old.
Proof.
  pose proof placed_old as Hk. destruct HP as (_ & Hrun & _ & _ & -> & _).
  pose proof (count_clear_mark_run _ _ _ Hrun). pose proof (count_clear_set _ _ Hk) as Hc.
  unfold old in *. lia.
Qed.

Lemma placed_extent : extent c1 (Z.of_nat k) = Z.of_nat k :: seqZ (Z.of_nat j) (Z.of_nat n).
Proof. destruct HP as (_ & _ & _ & _ & _ & Hb). unfold extent. by rewrite Hb. Qed.

Lemma placed_kept t : same_files fs fs1 -> kept c fs t ->
  kept c1 fs1 t /\ t ∉ extent c1 (Z.of_nat k).
Proof.
  intros [S1 S2] [[H0 Hb] Hs]. rewrite placed_extent.
  assert (Hn : t ∉ Z.of_nat k :: seqZ (Z.of_nat j) (Z.of_nat n)).
  { intros Hin. destruct (placed_clear t Hin) as [_ Hc]. unfold old in Hc. congruence. }
  split; [|exact Hn]. unfold kept, marked.
  rewrite (same_file_blocks _ _ S1), (same_file_blocks _ _ S2), placed_lookup.
  rewrite decide_False by (by rewrite Z2Nat.id). done.
Qed.

(** The new file's sectors are its own. *)
Lemma placed_own m free t : fs_ok c fs m free -> same_files fs fs1 -> t ∈ extent c1 (Z.of_nat k) ->
  kept c1 fs1 t /\ ~ kept c fs t.
Proof.
  intros Hok [S1 S2]. rewrite placed_extent. intros Ht. destruct (placed_clear t Ht) as [H0 Hc].
  unfold kept, marked. rewrite (same_file_blocks _ _ S1), (same_file_blocks _ _ S2), placed_lookup.
  rewrite decide_True by (by rewrite Z2Nat.id). split; [|intros [[_ Hb] _]; unfold old in Hc; congruence].
  split; [done|]. rewrite <- (Z2Nat.id t) by done. by apply (clear_not_system c fs m free).
Qed.

End Placing.

(** After a copy that succeeds. *)
Lemma stored_copy c c' fs fs' m free st nm data k j :
  stored c fs m free st -> m !! key nm = None -> (0 < free)%nat -> same_files fs fs' ->
  (S (sectors_of data) <= count_clear (bits (disk_map c fs)))%nat ->
  placed c c' fs fs' (sectors_of data) k j ->
  fs_ok c' fs' (<[key nm := Z.of_nat k]> m) (free - 1) ->
  stores c' (<[key nm := Z.of_nat k]> m) nm data ->
  (forall t, kept c fs t -> c' t = c t) ->
  stored c' fs' (<[key nm := Z.of_nat k]> m) (free - 1) (mkStore (<[key nm := data]> (files st)) (compact st)).
Proof.
  intros ST Hm Hfree HS Hroom HP Hok' Hst Hc. pose proof HS as [S1 S2].
  assert (Hf : files st !! key nm = None) by (by eapply sd_None).
  pose proof (sd_fs _ _ _ _ _ ST) as Hok. destruct (sd_hdrs _ _ _ _ _ ST) as [K0 K1].
  pose proof (fun t => placed_kept c c' fs fs' _ k j HP t HS) as Hkept.
  pose proof (fun t => placed_own c c' fs fs' _ k j HP m free t Hok HS) as Hown.
  assert (Hold : forall nm' sec t, m !! nm' = Some sec -> t ∈ extent c sec -> kept c fs t).
  { intros nm' sec t Hsec Ht. destruct (proj1 (sd_dom _ _ _ _ _ ST nm') ltac:(by eexists)) as [d Hd].
    by apply (fa_kept _ _ _ _ (sd_file _ _ _ _ _ ST _ _ _ Hsec Hd)). }
  assert (Hext : forall nm' sec, m !! nm' = Some sec -> extent c' sec = extent c sec).
  { intros nm' sec Hsec. apply extent_same, Hc. by eapply Hold, list_elem_of_here. }
  pose proof (sd_count _ _ _ _ _ ST) as Hcount. pose proof (placed_count _ _ _ _ _ _ _ HP) as Hcount'.
  constructor; cbn [files compact].
  - exact Hok'.
  - rewrite Hc by done. eapply same_file_trans; [apply ST|done].
  - rewrite Hc by done. eapply same_file_trans; [apply ST|done].
  - split; by apply Hkept.
  - intros k'. destruct (decide (key nm = k')) as [<-|Hne].
    + rewrite !lookup_insert_eq. split; by eexists.
    + rewrite !lookup_insert_ne by done. apply ST.
  - intros k' sec d. destruct (decide (key nm = k')) as [<-|Hne].
    + rewrite !lookup_insert_eq. intros [= <-] [= <-].
      destruct Hst as (sec & Hs & Hf1 & Hf2). rewrite lookup_insert_eq in Hs. injection Hs as <-.
      pose proof (placed_extent _ _ _ _ _ _ _ HP) as Hx. constructor; try done.
      * unfold extent in Hx. injection Hx as ->. rewrite length_seqZ. lia.
      * rewrite Hx. by eapply placed_nodup.
      * intros t Ht. by apply Hown.
      * split; [by apply (Hkept FreeMapSector)|by apply (Hkept DirectorySector)].
    + rewrite !lookup_insert_ne by done. intros Hs Hd.
      pose proof (sd_file _ _ _ _ _ ST _ _ _ Hs Hd) as HF. eapply file_at_frame; [exact HF| |].
      * intros t Ht. apply Hc. by eapply Hold.
      * intros t Ht. apply Hkept. by eapply Hold.
  - intros k1 k2 sec1 sec2 t Hne H1 H2.
    destruct (decide (key nm = k1)) as [<-|N1], (decide (key nm = k2)) as [<-|N2]; [done| | |].
    + rewrite lookup_insert_eq in H1. rewrite lookup_insert_ne in H2 by done. injection H1 as <-.
      rewrite (Hext _ _ H2). intros Ht Ht2. destruct (Hown t Ht) as [_ Hnot]. by eapply Hnot, Hold.
    + rewrite lookup_insert_eq in H2. rewrite lookup_insert_ne in H1 by done. injection H2 as <-.
      rewrite (Hext _ _ H1). intros Ht. apply Hkept. by eapply Hold.
    + rewrite lookup_insert_ne in H1, H2 by done. rewrite (Hext _ _ H1), (Hext _ _ H2).
      by apply (sd_apart _ _ _ _ _ ST k1 k2).
  - rewrite sectors_used_insert by done. lia.
  - rewrite map_size_insert_None by done. pose proof (sd_free _ _ _ _ _ ST). lia.
  - intros Hcp. pose proof (sd_compact _ _ _ _ _ ST Hcp) as Hpk. pose proof (placed_length c fs) as Hl.
    destruct HP as (Hk & Hrun & Hj & Hmin & -> & _). by apply packed_placed.
Qed.

(** After a removal. *)
Lemma stored_remove c c' fs fs' m free st nm sec :
  stored c fs m free st -> m !! key nm = Some sec -> same_files fs fs' ->
  fs_ok c' fs' (delete (key nm) m) (S free) ->
  (forall k, (k < 1024)%nat -> bits (disk_map c' fs') !! k =
     if decide (Z.of_nat k ∈ extent c sec) then Some false else bits (disk_map c fs) !! k) ->
  (forall t, kept c fs t -> c' t = c t) ->
  stored c' fs' (delete (key nm) m) (S free) (mkStore (delete (key nm) (files st)) false).
Proof.
  intros ST Hm HS Hok' Hbits Hc. pose proof HS as [S1 S2].
  destruct (proj1 (sd_dom _ _ _ _ _ ST (key nm)) ltac:(by eexists)) as [data Hd].
  pose proof (sd_file _ _ _ _ _ ST _ _ _ Hm Hd) as HF. destruct (fa_system _ _ _ _ HF) as [F0 F1].
  destruct (sd_hdrs _ _ _ _ _ ST) as [K0 K1].
  assert (Hl : forall c fs, length (bits (disk_map c fs)) = 1024%nat) by (intros; by rewrite length_bits).
  assert (Hkept : forall t, kept c fs t -> t ∉ extent c sec -> kept c' fs' t).
  { intros t [[H0 Hb] Hs] Hn. unfold kept, marked.
    rewrite (same_file_blocks _ _ S1), (same_file_blocks _ _ S2). split; [|exact Hs]. split; [done|].
    pose proof (lookup_lt_Some _ _ _ Hb) as Hlt. rewrite Hl in Hlt.
    rewrite Hbits by done. by rewrite Z2Nat.id, decide_False by done. }
  assert (Hother : forall nm' sec' d, delete (key nm) m !! nm' = Some sec' ->
    delete (key nm) (files st) !! nm' = Some d -> file_at c fs sec' d /\ m !! nm' = Some sec' /\
    forall t, t ∈ extent c sec' -> t ∉ extent c sec).
  { intros nm' sec' d [Hne Hs]%lookup_delete_Some [_ Hf]%lookup_delete_Some.
    split; [by eapply sd_file|]. split; [done|]. intros t Ht. by eapply (sd_apart _ _ _ _ _ ST nm' (key nm)). }
  assert (Hext : forall nm' sec', m !! nm' = Some sec' -> extent c' sec' = extent c sec').
  { intros nm' sec' Hs. apply extent_same, Hc.
    destruct (proj1 (sd_dom _ _ _ _ _ ST nm') ltac:(by eexists)) as [d' Hd'].
    apply (fa_kept _ _ _ _ (sd_file _ _ _ _ _ ST _ _ _ Hs Hd')), list_elem_of_here. }
  destruct (clear_all_spec (extent c sec) (bits (disk_map c fs))) as [Hcc Hcl];
    [apply HF|apply Forall_forall; intros t Ht; by apply (fa_kept _ _ _ _ HF)|].
  assert (Hnew : bits (disk_map c' fs') = clear_all (extent c sec) (bits (disk_map c fs))).
  { apply list_eq. intros i. destruct (decide (i < 1024)%nat) as [Hi|Hi].
    - by rewrite Hbits, Hcl.
    - rewrite Hcl. rewrite (lookup_ge_None_2 (bits (disk_map c' fs'))) by (rewrite Hl; lia).
      case_decide as Hin; [|by rewrite lookup_ge_None_2 by (rewrite Hl; lia)].
      destruct (fa_kept _ _ _ _ HF _ Hin) as [[_ Hb] _]. rewrite Nat2Z.id in Hb.
      apply lookup_lt_Some in Hb. rewrite Hl in Hb. lia. }
  constructor; cbn [files compact]; [exact Hok'|..]; rewrite ?Hc by done.
  - eapply same_file_trans; [apply ST|done].
  - eapply same_file_trans; [apply ST|done].
  - split; by apply Hkept.
  - intros k'. destruct (decide (key nm = k')) as [<-|Hne].
    + rewrite !lookup_delete_eq. done.
    + rewrite !lookup_delete_ne by done. apply ST.
  - intros k' sec' d Hs Hf. destruct (Hother _ _ _ Hs Hf) as (HF' & _ & Hap).
    eapply file_at_frame; [exact HF'| |]; intros t Ht; pose proof (fa_kept _ _ _ _ HF' t Ht).
    + by apply Hc.
    + apply Hkept; [done|by apply Hap].
  - intros k1 k2 sec1 sec2 t Hne [_ H1]%lookup_delete_Some [_ H2]%lookup_delete_Some.
    rewrite (Hext _ _ H1), (Hext _ _ H2). by apply (sd_apart _ _ _ _ _ ST k1 k2).
  - rewrite Hnew, Hcc. cbn [length extent]. rewrite (fa_size _ _ _ _ HF).
    pose proof (sd_count _ _ _ _ _ ST). pose proof (sectors_used_delete _ _ _ Hd). lia.
  - rewrite map_size_delete_Some by (by eexists). pose proof (sd_free _ _ _ _ _ ST).
    pose proof (map_size_ne_0_lookup_2 (files st) (key nm) ltac:(by eexists)). lia.
  - done.
Qed.

(** ** The requests *)

Lemma calling_run {A} (op : FileSystem -> M SynchDisk (A * FileSystem)) show k a fs s :
  op (fileSystem k) (synchDisk k) = Ok ((a, fs), s) ->
  calling op show k = Ok (tt, mkKernel fs s (screen k ++ show a)).
Proof. intros H. unfold calling. by rewrite H. Qed.

Lemma calling_fault {A} (op : FileSystem -> M SynchDisk (A * FileSystem)) show k e :
  op (fileSystem k) (synchDisk k) = Fault e -> calling op show k = Fault e.
Proof. intros H. unfold calling. by rewrite H. Qed.

Section Requests.
Context `{E : Env} `{EO : !EnvOk E} `{R : SectorReader} `{RD : !ReadsDisk R} `{SW : !SeesWrites R}.
Context (unix : string -> option (list Z)) (other : command -> M Kernel unit).

#[local] Hint Extern 0 (Commands Kernel) => exact (filesys_commands unix other) : typeclass_instances.

(** The kernel is idle and its disk holds the store. *)
Definition kernel_ok (k : Kernel) (st : Store) : Prop :=
  exists m free, ready (synchDisk k) /\ good (synchDisk k) /\ unlocked (synchDisk k) /\
    stored (content (synchDisk k)) (fileSystem k) m free st.

Definition carried_out (r : outcome (unit * Kernel)) (k : Kernel) (x : option (list output * Store)) : Prop :=
  match x with
  | Some (out, st') => exists k', r = Ok (tt, k') /\ screen k' = (screen k ++ out)%list /\ kernel_ok k' st'
  | None => r = Fault AssertFailure
  end.

(** A request that leaves the contents of the disk alone. *)
Lemma quiet_ok fs s fs' s' m free st sc :
  ready s -> good s -> unlocked s -> stored (content s) fs m free st ->
  same_files fs fs' -> effect s s' (content s) -> kernel_ok (mkKernel fs' s' sc) st.
Proof.
  intros Hr Hg Hu ST HS X. exists m, free. cbn. split; [apply X|]. split; [apply X|].
  split; [by eapply unlocked_locks; [eapply effect_locks|]|].
  eapply stored_quiet; [exact HS|apply X|done].
Qed.

Lemma sectors_of_bound data : (length data <= 25 * 128)%nat -> (sectors_of data <= 25)%nat.
Proof.
  intros Hl. unfold sectors_of, sectors_for.
  pose proof (proj2 (divRoundUp_spec (Z.of_nat (length data)) SectorSize 25 ltac:(lia) ltac:(done))).
  unfold SectorSize in *. lia.
Qed.

Lemma Copy_refused data nm fs s r :
  (length data <= 25 * 128)%nat -> Create fs nm (Z.of_nat (length data)) s = r ->
  match r with
  | Ok ((true, _), _) => True
  | Ok ((false, fs'), s') => Copy (Some data) nm fs s = Ok ((CannotCreate, fs'), s')
  | Fault e => Copy (Some data) nm fs s = Fault e
  end.
Proof.
  intros Hl <-. destruct (Create fs nm _ s) as [[[[|] fs0] s0]|e] eqn:Ec; [done| |]; unfold Copy;
    rewrite wrap32_small by (unfold is_int; lia); unfold mbind, M_bind; by rewrite Ec.
Qed.

Lemma perform_copy k st u n data :
  kernel_ok k st -> unix u = Some data -> (length data <= 25 * 128)%nat ->
  exists x, does unix (CopyIn u n) st x /\ carried_out (perform (CopyIn u n) k) k x.
Proof.
  intros (m & free & Hr & Hg & Hu & ST) Hun Hl. set (s := synchDisk k) in *. set (fs := fileSystem k) in *.
  pose proof (sectors_of_bound data Hl) as H25. pose proof (sd_fs _ _ _ _ _ ST) as Hok.
  pose proof (sd_count _ _ _ _ _ ST) as Hcount. pose proof (sd_free _ _ _ _ _ ST) as Hfr.
  pose proof (Create_spec fs m free s (chars n) (Z.of_nat (length data)) Hr Hg Hok ltac:(lia)
    ltac:(unfold sectors_of in H25; lia)) as HC. cbv zeta in HC. fold (sectors_of data) in HC.
  assert (Hfail : create_failed fs s (Create fs (chars n) (Z.of_nat (length data)) s) ->
    no_room (files st) (chars n) data ->
    exists x, does unix (CopyIn u n) st x /\ carried_out (perform (CopyIn u n) k) k x).
  { intros (fs' & s' & Ec & HS & X) Hno. pose proof (Copy_refused data _ _ _ _ Hl Ec) as E1. cbn in E1.
    eexists. split; [by eapply does_no_room|]. eexists. split.
    - cbn. rewrite Hun. by apply calling_run.
    - split; [done|]. by eapply quiet_ok. }
  destruct (m !! key (chars n)) as [sec|] eqn:Em.
  { apply Hfail; [exact HC|]. left. apply (sd_dom _ _ _ _ _ ST). by eexists. }
  assert (Hf : files st !! key (chars n) = None) by (by eapply sd_None).
  destruct (find_clear _) as [kb|] eqn:Ek.
  2: { apply Hfail; [exact HC|]. right. right. apply find_clear_None in Ek. lia. }
  assert (Hc1 : S (count_clear (<[kb := true]> (bits (disk_map (content s) fs)))) =
    count_clear (bits (disk_map (content s) fs))).
  { apply count_clear_set. by apply find_clear_Some in Ek as [? _]. }
  destruct (decide _) as [Hd|Hd]; [apply Hfail; [exact HC|]; right; lia|].
  assert (Hroom : ~ no_room (files st) (chars n) data).
  { intros [[? ?]|[?|?]]; [congruence|lia|lia]. }
  destruct HC as [(j & Hrun & Hmin & Hcr)|[Hno Hab]].
  - destruct Hcr as (fs0 & s0 & Ec & _).
    destruct (Copy_created fs m free s (chars n) data fs0 s0 Hr Hg Hu Hok H25 Ec) as
      (fs1 & s1 & kb' & j' & E1 & R1 & G1 & U1 & S1 & Ok1 & St & HP & O1).
    eexists. split; [by apply does_copy|]. eexists. split; [cbn; rewrite Hun; by apply calling_run|].
    cbn [screen]. split; [done|]. exists (<[key (chars n) := Z.of_nat kb']> m), (free - 1)%nat.
    split; [done|]. split; [done|]. split; [done|].
    eapply stored_copy; try done; [lia|lia|]. intros t [[H0 Hb] [Hs1 Hs2]]. by apply O1.
  - pose proof (Copy_refused data _ _ _ _ Hl Hab) as E1. cbn in E1. exists None.
    destruct (compact st) eqn:Ecp.
    + exfalso. pose proof (packed_run _ kb (sectors_of data) (sd_compact _ _ _ _ _ ST Ecp) Ek ltac:(lia)).
      rewrite Hno in H. done.
    + split; [by eapply does_fragmented|]. cbn. rewrite Hun. by apply calling_fault.
Qed.

Lemma perform_show k st n :
  kernel_ok k st -> exists x, does unix (Show n) st x /\ carried_out (perform (Show n) k) k x.
Proof.
  intros (m & free & Hr & Hg & Hu & ST). pose proof (sd_fs _ _ _ _ _ ST) as Hok.
  destruct (files st !! key (chars n)) as [data|] eqn:Ef.
  - destruct (proj2 (sd_dom _ _ _ _ _ ST (key (chars n))) ltac:(by eexists)) as [sec Hs].
    pose proof (sd_file _ _ _ _ _ ST _ _ _ Hs Ef) as [F1 F2 _ _ _ _].
    destruct (Print_prints _ m free _ (chars n) data Hr Hg Hu Hok) as (fs' & s' & Ep & HS & R1 & G1 & U1 & C1);
      [by exists sec|].
    eexists. split; [by apply does_show|]. eexists. split; [cbn; by apply calling_run|].
    split; [done|]. exists m, free. split; [done|]. split; [done|]. split; [done|]. by eapply stored_quiet.
  - assert (Hm : m !! key (chars n) = None) by (by eapply sd_None).
    destruct (Open_spec _ m free _ (chars n) Hr Hg Hok) as (fs' & s' & r & Eo & HS & R1 & G1 & C1 & H1).
    rewrite Hm in H1. destruct H1 as [-> HL].
    eexists. split; [by apply does_show_none|]. eexists. split.
    { cbn. apply calling_run. unfold FsTest.Print. by mstep by exact Eo. }
    split; [done|]. exists m, free. split; [done|]. split; [done|].
    split; [by eapply unlocked_locks; [split; apply HL|]|]. by eapply stored_quiet.
Qed.

Lemma file_removable c fs m free st k sec data :
  stored c fs m free st -> file_at c fs sec data -> m !! k = Some sec -> removable c fs sec.
Proof.
  intros ST [F1 _ _ F4 F5 _] Hk. constructor.
  - destruct F1. lia.
  - by apply NoDup_cons in F4 as [_ ?].
  - apply Forall_forall. intros t Ht. apply F5. by apply list_elem_of_further.
  - intros t Ht. apply F5. by apply elem_of_cons.
Qed.

Lemma perform_delete k st n :
  kernel_ok k st -> exists x, does unix (Startup.Delete n) st x /\ carried_out (perform (Startup.Delete n) k) k x.
Proof.
  intros (m & free & Hr & Hg & Hu & ST). pose proof (sd_fs _ _ _ _ _ ST) as Hok.
  pose proof (Remove_spec _ m free _ (chars n) Hr Hg Hok) as HR.
  destruct (m !! key (chars n)) as [sec|] eqn:Em.
  - destruct (proj1 (sd_dom _ _ _ _ _ ST (key (chars n))) ltac:(by eexists)) as [data Ef].
    pose proof (sd_file _ _ _ _ _ ST _ _ _ Em Ef) as HF.
    destruct (HR ltac:(by eapply file_removable)) as (fs' & s' & Er & HS & X & Ok' & Hb & Hc).
    eexists. split; [apply does_delete; by eexists|]. eexists. split; [cbn; by apply calling_run|].
    split; [done|]. exists (delete (key (chars n)) m), (S free). split; [apply X|]. split; [apply X|].
    split; [by eapply unlocked_locks; [eapply effect_locks|]|].
    cbn [synchDisk fileSystem]. eapply stored_remove; try done.
    + intros i Hi. rewrite (Hb i Hi). unfold extent.
      destruct (decide (_ \/ _)) as [Hd|Hd], (decide (_ ∈ _)) as [Hd'|Hd']; try done;
        [destruct Hd'|destruct Hd]; by apply elem_of_cons.
    + intros t [_ [Hs1 Hs2]]. by apply Hc.
  - destruct HR as (fs' & s' & Er & HS & X).
    eexists. split; [apply does_delete_none; by eapply sd_None|].
    eexists. split; [cbn; by apply calling_run|]. split; [done|]. by eapply quiet_ok.
Qed.

Lemma perform_list k st :
  kernel_ok k st -> exists x, does unix Listing st x /\ carried_out (perform Listing k) k x.
Proof.
  intros (m & free & Hr & Hg & Hu & ST). pose proof (sd_fs _ _ _ _ _ ST) as Hok.
  destruct (fetch_directory _ m free _ Hr Hg Hok) as (df & s1 & HS & X & K).
  destruct (disk_table_length _ _ _ _ Hok) as [Lt Wt].
  destruct (List_map (mkDirectory 10 (disk_table (content (synchDisk k)) (fileSystem k))) m free)
    as (ns & En & Hn & Hk); [cbn; lia|exact Wt|apply Hok|].
  eexists. split; [apply (does_list _ ns); [exact Hn|]|].
  - intros k'. rewrite Hk. apply ST.
  - eexists. split.
    { cbn. apply calling_run. unfold FileSystem.List. rewrite K. by mstep by (by apply lift_Ok). }
    split; [done|]. by eapply quiet_ok.
Qed.

(** One request, then all of them. *)
Lemma perform_does r k st :
  storable unix r -> kernel_ok k st ->
  exists x, does unix r st x /\ carried_out (perform r k) k x.
Proof.
  intros Hs Hk. destruct r; try done.
  - eexists. split; [apply does_copyright|]. eexists. split; [reflexivity|]. split; [done|].
    destruct Hk as (m & free & ?). by exists m, free.
  - cbn in Hs. destruct (unix unixFile) as [data|] eqn:Eu; [by eapply perform_copy|].
    eexists. split; [by apply does_no_input|]. eexists. split; [cbn; rewrite Eu; by apply calling_run|].
    split; [done|]. by destruct k.
  - by apply perform_show.
  - by apply perform_delete.
  - by apply perform_list.
Qed.

Lemma perform_all_does rs : forall k st, Forall (storable unix) rs -> kernel_ok k st ->
  exists x, does_all unix rs st x /\ carried_out (perform_all rs k) k x.
Proof.
  induction rs as [|r rs IH]; intros k st Hs Hk.
  { exists (Some ([], st)). split; [constructor|]. exists k. by rewrite app_nil_r. }
  apply Forall_cons in Hs as [H1 Hs]. destruct (perform_does r k st H1 Hk) as (x & Hx & Hr).
  cbn [perform_all]. unfold mbind, M_bind. destruct x as [[out st1]|]; cbn in Hr.
  2: { exists None. split; [by apply does_abort|]. cbn. by rewrite Hr. }
  destruct Hr as (k1 & -> & Hsc & Hk1). destruct (IH k1 st1 Hs Hk1) as (x & Hx' & Hr).
  eexists. split; [by eapply does_cons|]. destruct x as [[out' st2]|]; [|exact Hr].
  destruct Hr as (k2 & -> & Hsc' & Hk2). exists k2. by rewrite Hsc', Hsc, app_assoc.
Qed.

(** ** Starting the kernel *)

(** The initial contents of the cache, which nothing initialises. *)
Definition cache_ok (cache0 : list Cache) : Prop :=
  length cache0 = 4%nat /\ forall DISK s, SynchDisk_SynchDisk cache0 DISK = Ok s -> good s.

Lemma same_file_sym h h' : same_file h h' -> same_file h' h.
Proof. intros (? & ? & ? & ?). done. Qed.

Lemma Ok_equal {A} (a b : A) : Ok a = Ok b -> a = b.
Proof. by intros [=]. Qed.

Lemma fresh_unlocked cache0 DISK s : SynchDisk_SynchDisk cache0 DISK = Ok s -> unlocked s.
Proof.
  unfold SynchDisk_SynchDisk. intros H. apply obind_Ok in H as (d & _ & <-%Ok_equal).
  intros t Ht. unfold free_at. cbn [readerWtiterSemap readerNum].
  split; [done|]. split; apply lookup_replicate_2; unfold NumSectors in *; lia.
Qed.

(** The disk of a kernel that has halted can be used again. *)
Lemma power_on cache0 s : length cache0 = 4%nat -> ready s ->
  exists s', SynchDisk_SynchDisk cache0 (Some (dfile (disk s))) = Ok s' /\ ready s' /\
    forall t, content s' t = content s t.
Proof.
  intros Hc Hr. pose proof (rd_wf s Hr) as [W1 W2 W3 W4].
  unfold SynchDisk_SynchDisk, Disk_Disk. rewrite ReadAtOff_ok by (rewrite ?W1; by vm_compute).
  change (map _ (seq 0 4)) with (magic (disk s)). rewrite W2. cbn -[NumSectors].
  eexists. split; [reflexivity|]. split; [|done]. constructor; cbn [disk]; try done.
Qed.

(** The settings "-f" and none. *)
Definition formatting (b : bool) : Settings := if b then set_format defaults else defaults.

Lemma packed_format : packed format_bits.
Proof.
  unfold format_bits. intros i l Hi Hl. rewrite length_app, !length_replicate in Hl.
  destruct (decide (i < 5)%nat) as [H5|H5].
  { rewrite lookup_app_l, lookup_replicate_2 in Hi by (rewrite ?length_replicate; lia). done. }
  rewrite lookup_app_r, length_replicate by (rewrite length_replicate; lia).
  apply lookup_replicate_2. lia.
Qed.

Lemma formatted_stored s fs :
  fs_ok (content s) fs ∅ 10 -> bits (disk_map (content s) fs) = format_bits ->
  blocks (hdr (freeMapFile fs)) = [2] -> blocks (hdr (directoryFile fs)) = [3; 4] ->
  same_file (bytes_header (content s FreeMapSector)) (hdr (freeMapFile fs)) ->
  same_file (bytes_header (content s DirectorySector)) (hdr (directoryFile fs)) ->
  stored (content s) fs ∅ 10 (mkStore ∅ true).
Proof.
  intros Hok Hb B1 B2 H1 H2. constructor; cbn [files compact]; rewrite ?Hb.
  - exact Hok.
  - exact H1.
  - exact H2.
  - unfold kept, marked. rewrite B1, B2, Hb.
    repeat split; try (vm_compute; congruence); by apply (bool_decide_unpack (_ ∉ _)).
  - intros k. split; intros [x H]; by rewrite lookup_empty in H.
  - intros k sec data H. by rewrite lookup_empty in H.
  - intros k k' sec sec' t _ H. by rewrite lookup_empty in H.
  - reflexivity.
  - reflexivity.
  - intros _. apply packed_format.
Qed.

Lemma boot_eq cache0 DISK f s fs s' :
  SynchDisk_SynchDisk cache0 DISK = Ok s -> FileSystem_FileSystem f s = Ok (fs, s') ->
  Initialize_devices cache0 DISK (formatting f) = Ok (mkKernel fs s' []).
Proof.
  intros Es Ef. unfold Initialize_devices. rewrite Es. cbn [mbind outcome_bind].
  replace (format (formatting f)) with f by (by destruct f). rewrite Ef. reflexivity.
Qed.

Lemma boot_format cache0 : cache_ok cache0 ->
  exists k, Initialize_devices cache0 None (formatting true) = Ok k /\ screen k = [] /\ kernel_ok k (mkStore ∅ true).
Proof.
  intros [Hc Hgood]. destruct (SynchDisk_SynchDisk_fresh cache0 Hc) as (s & Es & Rs & _).
  destruct (format_spec s Rs (Hgood _ _ Es)) as (fs & s' & Ef & R1 & G1 & Ok1 & Hb & B1 & B2 & HL & H1 & H2).
  exists (mkKernel fs s' []). split; [exact (boot_eq _ _ true _ _ _ Es Ef)|]. split; [reflexivity|].
  exists ∅, 10%nat. cbn [synchDisk fileSystem]. split; [exact R1|]. split; [exact G1|].
  split; [exact (unlocked_locks _ _ HL (fresh_unlocked _ _ _ Es))|].
  exact (formatted_stored _ _ Ok1 Hb B1 B2 H1 H2).
Qed.

(** Starting again finds the files again. *)
Lemma boot_again cache0 k st : cache_ok cache0 -> kernel_ok k st ->
  exists k', Initialize_devices cache0 (Some (halt k)) (formatting false) = Ok k' /\ screen k' = [] /\ kernel_ok k' st.
Proof.
  intros [Hc Hgood] (m & free & Hr & Hg & _ & ST).
  destruct (power_on cache0 _ Hc Hr) as (s & Es & Rs & Cs). pose proof (Hgood _ _ Es) as Gs.
  destruct (OpenFile_OpenFile_spec FreeMapSector s Rs Gs ltac:(by vm_compute))
    as (f & s1 & v & E1 & R1 & G1 & C1 & _ & _ & F1 & L1 & _).
  destruct (OpenFile_OpenFile_spec DirectorySector s1 R1 G1 ltac:(by vm_compute))
    as (g & s2 & w & E2 & R2 & G2 & C2 & _ & _ & F2 & L2 & _).
  set (fs := mkFileSystem (replicate MAXTHREADNUM (-1)) f g). exists (mkKernel fs s2 []).
  split.
  { apply (boot_eq _ _ false s); [exact Es|]. unfold FileSystem_FileSystem.
    by rewrite (bind_run _ _ _ _ _ E1), (bind_run _ _ _ _ _ E2). }
  split; [done|]. exists m, free. cbn [fileSystem synchDisk].
  split; [done|]. split; [done|].
  split; [eapply unlocked_locks; [exact L2|]; by eapply unlocked_locks, fresh_unlocked|].
  eapply stored_quiet; [| |exact ST].
  - rewrite C1, Cs in F2. rewrite Cs in F1.
    split; (eapply same_file_trans; [apply same_file_sym|]); [apply ST|exact F1|apply ST|exact F2].
  - intros t. by rewrite C2, C1, Cs.
Qed.

(** ** Command lines *)

Definition request_line (rs : list request) : list string := typed_words (map request_words rs).

(** No word of the requests is a flag: no file is called "-f". *)
Definition no_flags (rs : list request) : Prop :=
  Forall (fun w => w ∉ initialize_words filesys_build) (request_line rs).

Lemma storable_supported rs :
  Forall (storable unix) rs -> Forall (fun r => request_supported filesys_build r = true) rs.
Proof. intros H. apply (Forall_impl _ _ _ H). by intros []. Qed.

Lemma main_requests (start : Settings -> outcome Kernel) (f : bool) rs :
  Forall (storable unix) rs -> no_flags rs ->
  main filesys_build start ((if f then ["-f"] else []) ++ request_line rs)%list =
    (k ← start (formatting f); x ← perform_all rs k; Ok x.2).
Proof.
  unfold request_line. intros Hs Hn. set (fl := if f then [Format] else []).
  assert (Hf : (if f then ["-f"] else []) = typed_words (map flag_words fl)) by (by destruct f).
  unfold main, Initialize_flags. rewrite Hf, Initialize_flags_words by (by destruct f; repeat constructor || done).
  cbn [mbind outcome_bind snd].
  replace (foldl _ defaults fl) with (formatting f) by (by destruct f).
  destruct (start _) as [k|e]; [|done]. cbn [mbind outcome_bind].
  rewrite main_commands_words; [done| |by apply storable_supported].
  destruct f; apply (bool_decide_unpack (Forall _ _)); vm_compute; reflexivity.
Qed.

(** One run: from the booted kernel to its halt. *)
Lemma run_requests (start : Settings -> outcome Kernel) f rs k st :
  start (formatting f) = Ok k -> kernel_ok k st -> screen k = [] ->
  Forall (storable unix) rs -> no_flags rs ->
  exists x, does_all unix rs st x /\
    let r := main filesys_build start ((if f then ["-f"] else []) ++ request_line rs)%list in
    match x with
    | Some (out, st') => exists k', r = Ok k' /\ screen k' = out /\ kernel_ok k' st'
    | None => r = Fault AssertFailure
    end.
Proof.
  intros Hb Hk Hsc Hs Hn. destruct (perform_all_does rs k st Hs Hk) as (x & Hx & Hr).
  exists x. split; [exact Hx|]. cbv zeta. rewrite main_requests, Hb by done. cbn [mbind outcome_bind].
  destruct x as [[out st']|]; cbn in Hr; [|by rewrite Hr].
  destruct Hr as (k' & -> & Hsc' & Hk'). exists k'. by rewrite Hsc', Hsc.
Qed.

(** Further runs on the disk of a kernel that has halted. *)
Lemma runs_again rss : forall cache0 k st,
  (forall i, cache_ok (cache0 i)) -> kernel_ok k st ->
  Forall (fun rs => Forall (storable unix) rs /\ no_flags rs) rss ->
  exists x, sessions unix rss st x /\
    runs unix other cache0 (Some (halt k)) (map request_line rss) =
      match x with Some outs => Ok outs | None => Fault AssertFailure end.
Proof.
  induction rss as [|rs rss IH]; intros cache0 k st Hc Hk Hs.
  { exists (Some []). split; [constructor|done]. }
  apply Forall_cons in Hs as [[Hs Hn] Hss].
  destruct (boot_again (cache0 0%nat) k st (Hc 0%nat) Hk) as (k1 & Eb & Sc & K1).
  destruct (run_requests _ false rs k1 st Eb K1 Sc Hs Hn) as (x & Hx & Hr). cbn [app] in Hr.
  cbn [runs map]. destruct x as [[out st']|].
  2: { exists None. split; [by apply sessions_abort|]. cbv zeta in Hr. by rewrite Hr. }
  destruct Hr as (k2 & Er & <- & K2). rewrite Er. cbn [mbind outcome_bind].
  destruct (IH (fun i => cache0 (S i)) k2 st' (fun i => Hc (S i)) K2 Hss) as (x & Hx' & ->).
  eexists. split; [by eapply sessions_cons|]. by destruct x.
Qed.

End Requests.

(** ** Properties *)


(** Two UNIX files; three runs. *)
Definition demo_unix (name : string) : option (list Z) :=
  if String.eqb name "u" then Some (replicate 300 7) else if String.eqb name "v" then Some [1; 2] else None.
Definition demo_line : list request := [CopyIn "u" "a"; CopyIn "w" "c"].
Definition demo_lines : list (list request) := [[Show "a"; CopyIn "v" "a"; Startup.Delete "a"]; [Show "a"]].
Definition demo_outputs : list (list output) :=
  [[Said CannotOpenInput]; [Typed (replicate 300 7); Said CannotCreate]; [Said CannotOpen]].

Lemma demo_runs :
  @runs zero_env (@ReadSector_uncached zero_env) demo_unix (fun _ k => Ok (tt, k)) (fun _ => empty_cache) None
    [["-f"; "-cp"; "u"; "a"; "-cp"; "w"; "c"]; ["-p"; "a"; "-cp"; "v"; "a"; "-r"; "a"]; ["-p"; "a"]]
  = Ok demo_outputs.
Proof. vm_compute. reflexivity. Qed.

