(* ===== verification/Machine.v ===== *)
(** * machine/machine.h, machine.cc, translate.h, translate.cc

    The simulated workstation: registers, main memory, the inverted page table
    and address translation.  [K] is the rest of the kernel's state;
    [getPid] reads the current thread's pid from it, and [ExceptionHandler] is
    the kernel's entry point (UserProg.v has the one of exception.cc).  Which
    of [tlb] and [pageTable] exists depends on the build flag USE_TLB: the one
    that does not is NULL.  The status of the interrupt simulation that
    [RaiseException] switches is kept in the machine here. *)
From S2P Require Import Prelude CInt BitMap.
From Stdlib Require Import ZArith Lia List Bool Sorting.Sorted.
From stdpp Require Import base tactics list numbers.
Local Open Scope Z_scope.

(** ** Constants *)

Definition PageSize : Z := 128.
Definition NumPhysPages : Z := 32.
Definition MemorySize : Z := NumPhysPages * PageSize.
Definition TLBSize : Z := 4.

Definition StackReg : Z := 29.
Definition RetAddrReg : Z := 31.
Definition NumGPRegs : Z := 32.
Definition HiReg : Z := 32.
Definition LoReg : Z := 33.
Definition PCReg : Z := 34.
Definition NextPCReg : Z := 35.
Definition PrevPCReg : Z := 36.
Definition LoadReg : Z := 37.
Definition LoadValueReg : Z := 38.
Definition BadVAddrReg : Z := 39.
Definition NumTotalRegs : Z := 40.

Inductive ExceptionType :=
| NoException
| SyscallException
| PageFaultException
| ReadOnlyException
| BusErrorException
| AddressErrorException
| OverflowException
| IllegalInstrException.

#[global] Instance ExceptionType_eq_dec : EqDecision ExceptionType.
Proof. solve_decision. Defined.

Inductive MachineStatus := IdleMode | SystemMode | UserMode.

(** ** State *)

Record TranslationEntry := mkTE {
  virtualPage : Z;
  physicalPage : Z;
  valid : bool;
  readOnly : bool;
  use : bool;
  dirty : bool;
  thread : Z }.

Record Machine := mkMachine {
  mainMemory : list Z;
  registers : list Z;
  tlb : option (list TranslationEntry);
  pageTable : option (list TranslationEntry);
  queuePointer : Z;
  tlbflag : list Z;
  findtimes : Z;
  misstimes : Z;
  MemoryMap : BitMap;
  MapPointer : Z;
  singleStep : bool;
  status : MachineStatus }.

Definition set_mainMemory v m := mkMachine v (registers m) (tlb m) (pageTable m)
  (queuePointer m) (tlbflag m) (findtimes m) (misstimes m) (MemoryMap m) (MapPointer m)
  (singleStep m) (status m).
Definition set_registers v m := mkMachine (mainMemory m) v (tlb m) (pageTable m)
  (queuePointer m) (tlbflag m) (findtimes m) (misstimes m) (MemoryMap m) (MapPointer m)
  (singleStep m) (status m).
Definition set_tlb v m := mkMachine (mainMemory m) (registers m) v (pageTable m)
  (queuePointer m) (tlbflag m) (findtimes m) (misstimes m) (MemoryMap m) (MapPointer m)
  (singleStep m) (status m).
Definition set_pageTable v m := mkMachine (mainMemory m) (registers m) (tlb m) v
  (queuePointer m) (tlbflag m) (findtimes m) (misstimes m) (MemoryMap m) (MapPointer m)
  (singleStep m) (status m).
Definition set_tlbflag v m := mkMachine (mainMemory m) (registers m) (tlb m) (pageTable m)
  (queuePointer m) v (findtimes m) (misstimes m) (MemoryMap m) (MapPointer m)
  (singleStep m) (status m).
Definition set_MemoryMap v m := mkMachine (mainMemory m) (registers m) (tlb m) (pageTable m)
  (queuePointer m) (tlbflag m) (findtimes m) (misstimes m) v (MapPointer m)
  (singleStep m) (status m).
Definition set_status v m := mkMachine (mainMemory m) (registers m) (tlb m) (pageTable m)
  (queuePointer m) (tlbflag m) (findtimes m) (misstimes m) (MemoryMap m) (MapPointer m)
  (singleStep m) v.

(** ** Construction *)

(** [Machine::Machine]; [junkmap] and [junktlb] are the uninitialised memory of
    the frame map and of the TLB. *)
Definition Machine_Machine (use_tlb debug : bool) (junkmap : list Z)
    (junktlb : list TranslationEntry) : outcome Machine :=
  b ← BitMap_BitMap junkmap NumPhysPages;
  let frames := map (fun i => mkTE (-1) (Z.of_nat i) false false false false (-1))
                  (seq 0 (Z.to_nat NumPhysPages)) in
  let empty := map (fun e => mkTE (virtualPage e) (physicalPage e) false (readOnly e)
                       (use e) (dirty e) (thread e)) junktlb in
  Ok (mkMachine (replicate (Z.to_nat MemorySize) 0) (replicate (Z.to_nat NumTotalRegs) 0)
        (if use_tlb then Some empty else None)
        (if use_tlb then None else Some frames)
        0 (map Z.of_nat (seq 0 (Z.to_nat TLBSize))) 0 0 b 0 debug SystemMode).

(** ** The aging counters of the TLB *)

(** The loop of [Swaptlb]: every counter is incremented, the first largest one
    is remembered.  The comparison is with counters already incremented, or
    not yet. *)
Fixpoint Swaptlb_loop (flags : list Z) (n : nat) (i max : Z) : outcome (list Z * Z) :=
  match n with
  | O => Ok (flags, max)
  | S n' =>
    v ← arr_get flags i;
    flags ← arr_set flags i (wrap32 (v + 1));
    x ← arr_get flags i;
    y ← arr_get flags max;
    Swaptlb_loop flags n' (i + 1) (if y <? x then i else max)
  end.

Definition Swaptlb : M Machine Z := fun m =>
  r ← Swaptlb_loop (tlbflag m) (Z.to_nat TLBSize) 0 0;
  flags ← arr_set r.1 r.2 0;
  Ok (r.2, set_tlbflag flags m).

Definition Hittlb (hiti : Z) : M Machine unit := fun m =>
  flags ← arr_set (map (fun v => wrap32 (v + 1)) (tlbflag m)) hiti 0;
  Ok (tt, set_tlbflag flags m).

(** [SetpageTable]. *)
Definition SetpageTable (i vp pp : Z) (u ro d v : bool) (t : Z) : M Machine unit := fun m =>
  match pageTable m with
  | None => Fault BadAccess
  | Some pt => pt' ← arr_set pt i (mkTE vp pp v ro u d t); Ok (tt, set_pageTable (Some pt') m)
  end.

(** ** Byte order: NOPs on a little-endian host *)

Definition WordToHost (word : Z) : Z := word.
Definition ShortToHost (shortword : Z) : Z := shortword.
Definition WordToMachine (word : Z) : Z := WordToHost word.
Definition ShortToMachine (shortword : Z) : Z := ShortToHost shortword.

Section Ops.
Context {K : Type} (getPid : K -> Z).
Context (ExceptionHandler : ExceptionType -> M (Machine * K) unit).

(** The machine inside the kernel's state. *)
Definition on_machine {A} (op : M Machine A) : M (Machine * K) A := fun s =>
  match op s.1 with
  | Ok (a, m) => Ok (a, (m, s.2))
  | Fault e => Fault e
  end.

(** [registers[i]] read and written by the simulator itself. *)
Definition getR (i : Z) : M (Machine * K) Z :=
  s ← get; lift (arr_get (registers s.1) i).

Definition setR (i v : Z) : M (Machine * K) unit :=
  s ← get;
  r ← lift (arr_set (registers s.1) i v);
  on_machine (modify (set_registers r)).

Definition ReadRegister (num : Z) : M (Machine * K) Z :=
  _ ← ASSERT ((0 <=? num) && (num <? NumTotalRegs));
  getR num.

Definition WriteRegister (num value : Z) : M (Machine * K) unit :=
  _ ← ASSERT ((0 <=? num) && (num <? NumTotalRegs));
  setR num value.

(** mipssim.cc: [Machine::DelayedLoad]. *)
Definition DelayedLoad (nextReg nextValue : Z) : M (Machine * K) unit :=
  r ← getR LoadReg;
  v ← getR LoadValueReg;
  _ ← setR r v;
  _ ← setR LoadReg nextReg;
  _ ← setR LoadValueReg nextValue;
  setR 0 0.

Definition RaiseException (which : ExceptionType) (badVAddr : Z) : M (Machine * K) unit :=
  _ ← setR BadVAddrReg badVAddr;
  _ ← DelayedLoad 0 0;
  _ ← on_machine (modify (set_status SystemMode));
  _ ← ExceptionHandler which;
  on_machine (modify (set_status UserMode)).

(** The search of [Translate]: there is no [break], the last match counts. *)
Fixpoint find_entry (pt : list TranslationEntry) (pid vpn : Z) (j : nat) (found : option nat) :
    option nat :=
  match pt with
  | [] => found
  | e :: pt' =>
    find_entry pt' pid vpn (S j)
      (if (u32 (virtualPage e) =? vpn) && valid e && (thread e =? pid) then Some j else found)
  end.

(** The exception code, and the physical address when there is none. *)
Definition Translate (virtAddr size : Z) (writing : bool) :
    M (Machine * K) (ExceptionType * Z) :=
  if ((size =? 4) && negb (Z.land virtAddr 3 =? 0)) ||
     ((size =? 2) && negb (Z.land virtAddr 1 =? 0)) then mret (AddressErrorException, 0)
  else
    s ← get;
    let m := s.1 in
    _ ← ASSERT (negb (bool_decide (is_Some (tlb m))) || negb (bool_decide (is_Some (pageTable m))));
    _ ← ASSERT (bool_decide (is_Some (tlb m)) || bool_decide (is_Some (pageTable m)));
    let vpn := u32 virtAddr / PageSize in
    let offset := u32 virtAddr mod PageSize in
    match pageTable m with
    | None => fail BadAccess
    | Some pt =>
      match find_entry (take (Z.to_nat NumPhysPages) pt) (getPid s.2) vpn 0 None with
      | None => mret (PageFaultException, 0)
      | Some j =>
        entry ← lift (arr_get pt (Z.of_nat j));
        if readOnly entry && writing then mret (ReadOnlyException, 0)
        else
          let pageFrame := u32 (physicalPage entry) in
          if NumPhysPages <=? pageFrame then mret (BusErrorException, 0)
          else
            pt' ← lift (arr_set pt (Z.of_nat j)
                    (mkTE (virtualPage entry) (physicalPage entry) (valid entry)
                       (readOnly entry) true (dirty entry || writing) (thread entry)));
            _ ← on_machine (modify (set_pageTable (Some pt')));
            let physAddr := pageFrame * PageSize + offset in
            _ ← ASSERT ((0 <=? physAddr) && (physAddr + size <=? MemorySize));
            mret (NoException, physAddr)
      end
    end.

(** [Translate], a second try after the kernel has seen the exception, and the
    physical address if one of them succeeds. *)
Definition translate_twice (addr size : Z) (writing : bool) : M (Machine * K) (option Z) :=
  r ← Translate addr size writing;
  if negb (bool_decide (r.1 = NoException)) then
    _ ← RaiseException r.1 addr;
    r ← Translate addr size writing;
    if negb (bool_decide (r.1 = NoException)) then mret None else mret (Some r.2)
  else mret (Some r.2).

(** The bytes of memory as the three access sizes see them. *)
Definition load_bytes (mem : list Z) (pa size : Z) : outcome Z :=
  if size =? 1 then b ← arr_get mem pa; Ok (schar b)
  else if size =? 2 then
    b0 ← arr_get mem pa; b1 ← arr_get mem (pa + 1);
    Ok (ShortToHost (b0 + 256 * b1))
  else if size =? 4 then
    b0 ← arr_get mem pa; b1 ← arr_get mem (pa + 1);
    b2 ← arr_get mem (pa + 2); b3 ← arr_get mem (pa + 3);
    Ok (wrap32 (WordToHost (uint_of_bytes b0 b1 b2 b3)))
  else Fault AssertFailure.

Definition store_bytes (mem : list Z) (pa size value : Z) : outcome (list Z) :=
  let v := u32 value in
  if size =? 1 then arr_set mem pa (v mod 256)
  else if size =? 2 then
    let w := ShortToMachine (v mod 65536) in
    mem ← arr_set mem pa (w mod 256);
    arr_set mem (pa + 1) (w / 256)
  else if size =? 4 then
    let w := WordToMachine v in
    mem ← arr_set mem pa (w mod 256);
    mem ← arr_set mem (pa + 1) (w / 256 mod 256);
    mem ← arr_set mem (pa + 2) (w / 65536 mod 256);
    arr_set mem (pa + 3) (w / 16777216)
  else Fault AssertFailure.

(** [ReadMem]: [None] is the FALSE returned when translation failed. *)
Definition ReadMem (addr size : Z) : M (Machine * K) (option Z) :=
  pa ← translate_twice addr size false;
  match pa with
  | None => mret None
  | Some pa =>
    s ← get;
    v ← lift (load_bytes (mainMemory s.1) pa size);
    mret (Some v)
  end.

Definition WriteMem (addr size value : Z) : M (Machine * K) bool :=
  pa ← translate_twice addr size true;
  match pa with
  | None => mret false
  | Some pa =>
    s ← get;
    mem ← lift (store_bytes (mainMemory s.1) pa size value);
    _ ← on_machine (modify (set_mainMemory mem));
    mret true
  end.

End Ops.

(** ** Well-formed machines *)

(** Of a machine with a page table (the build of code/userprog): 40 [int]
    registers, the pending load names a general register, 4096 bytes of
    memory, 32 page table entries, a frame map of 32 bits.  [mach_ok] adds that R0 is 0, which holds
    between instructions. *)
Record mach_wf (m : Machine) : Prop := {
  mw_regs : length (registers m) = 40%nat;
  mw_ints : Forall is_int (registers m);
  mw_load : exists v, registers m !! 37%nat = Some v /\ 0 <= v < 32;
  mw_mem : length (mainMemory m) = 4096%nat;
  mw_bytes : Forall is_byte (mainMemory m);
  mw_tlb : tlb m = None;
  mw_pt : exists pt, pageTable m = Some pt /\ length pt = 32%nat;
  mw_map : BitMap.wf (MemoryMap m) /\ numBits (MemoryMap m) = 32 }.

Definition mach_ok (m : Machine) : Prop := mach_wf m /\ registers m !! 0%nat = Some 0.

Lemma mach_ok_wf m : mach_ok m -> mach_wf m.
Proof. by intros []. Qed.
#[export] Hint Resolve mach_ok_wf : nachos.

(** How the setters keep the invariant. *)
Lemma mach_wf_status st m : mach_wf m -> mach_wf (set_status st m).
Proof. intros []. by constructor. Qed.

Lemma mach_ok_status st m : mach_ok m -> mach_ok (set_status st m).
Proof. intros [H ?]. split; [by apply mach_wf_status|done]. Qed.

Lemma mach_wf_registers i v m :
  mach_wf m -> 0 <= i < 40 -> is_int v -> (i = LoadReg -> 0 <= v < 32) ->
  mach_wf (set_registers (<[Z.to_nat i := v]> (registers m)) m).
Proof.
  intros [] Hi Hv Hl. constructor; cbn; try done.
  - by rewrite length_insert.
  - by apply Forall_insert.
  - destruct mw_load0 as (w & Hw & Hr). destruct (decide (i = 37)) as [->|].
    + exists v. rewrite list_lookup_insert_eq by (rewrite mw_regs0; lia).
      split; [done|]. by apply Hl.
    + exists w. rewrite list_lookup_insert_ne by lia. done.
Qed.

Lemma mach_wf_pageTable pt m :
  mach_wf m -> length pt = 32%nat -> mach_wf (set_pageTable (Some pt) m).
Proof. intros []. constructor; cbn; try done. eauto. Qed.

Lemma mach_wf_memory mem m :
  mach_wf m -> length mem = 4096%nat -> Forall is_byte mem -> mach_wf (set_mainMemory mem m).
Proof. intros []. by constructor. Qed.

Lemma mach_wf_load m : mach_wf m -> exists v,
  arr_get (registers m) LoadReg = Ok v /\ 0 <= v < 32.
Proof.
  intros []. destruct mw_load0 as (v & E & ?). exists v. split; [|done].
  apply arr_get_in; [by vm_compute|exact E].
Qed.

(** ** Registers *)

(** Bounds of named and decoded register numbers. *)
Ltac regs := unfold HiReg, LoReg, PCReg, NextPCReg, PrevPCReg, LoadReg, LoadValueReg,
  BadVAddrReg, is_int in *; lia.

Section Wp.
Context {K : Type} (getPid : K -> Z).
Context (ExceptionHandler : ExceptionType -> M (Machine * K) unit).

Lemma getR_run i (s : Machine * K) : mach_wf s.1 -> 0 <= i < 40 ->
  exists v, registers s.1 !! Z.to_nat i = Some v /\ is_int v /\ getR i s = Ok (v, s).
Proof.
  intros [] Hi. destruct (lookup_lt_is_Some_2 (registers s.1) (Z.to_nat i)) as [v Hv]; [lia|].
  exists v. split; [done|]. split; [by eapply Forall_lookup_1|].
  unfold getR. mstep. apply lift_Ok. apply arr_get_in; [lia|exact Hv].
Qed.

Lemma setR_run i v (s : Machine * K) : mach_wf s.1 -> 0 <= i < 40 ->
  setR i v s = Ok (tt, (set_registers (<[Z.to_nat i := v]> (registers s.1)) s.1, s.2)).
Proof.
  intros [] Hi. unfold setR. mstep.
  mstep by (apply lift_Ok, arr_set_in; rewrite mw_regs0; lia). done.
Qed.

Lemma wp_getR i F Q (s : Machine * K) :
  mach_wf s.1 -> 0 <= i < 40 ->
  (forall v, registers s.1 !! Z.to_nat i = Some v -> is_int v -> Q v s) -> wp (getR i) F Q s.
Proof.
  intros Hs Hi HQ. destruct (getR_run i s Hs Hi) as (v & E & Hv & E1).
  unfold wp. rewrite E1. auto.
Qed.

Lemma wp_setR i v F Q (s : Machine * K) :
  mach_wf s.1 -> 0 <= i < 40 -> is_int v -> (i = LoadReg -> 0 <= v < 32) ->
  (forall m', m' = set_registers (<[Z.to_nat i := v]> (registers s.1)) s.1 -> mach_wf m' ->
     Q tt (m', s.2)) ->
  wp (setR i v) F Q s.
Proof.
  intros Hs Hi Hv Hl HQ. unfold wp. rewrite setR_run by done.
  apply HQ; [done|]. by apply mach_wf_registers.
Qed.

(** [DelayedLoad]: afterwards R0 is 0 again; only registers below 39 change. *)
Lemma wp_DelayedLoad r v F Q (s : Machine * K) :
  mach_wf s.1 -> 0 <= r < 32 -> is_int v ->
  (forall r', mach_ok (set_registers r' s.1) -> r' !! 39%nat = registers s.1 !! 39%nat ->
     Q tt (set_registers r' s.1, s.2)) ->
  wp (DelayedLoad r v) F Q s.
Proof.
  intros Hs Hr Hv HQ. destruct (mach_wf_load _ Hs) as (l & El & Hl).
  unfold DelayedLoad. apply wp_bind, wp_getR; [done|regs|]. intros l' El' _.
  apply arr_get_Ok in El as [_ El]. rewrite El in El'. injection El' as <-.
  apply wp_bind, wp_getR; [done|regs|]. intros lv _ Hlv.
  apply wp_bind, wp_setR; [done|regs|done|regs|]. intros m1 -> Hm1.
  apply wp_bind, wp_setR; [done|regs|regs|done|]. intros m2 -> Hm2.
  apply wp_bind, wp_setR; [done|regs|done|regs|]. intros m3 -> Hm3.
  apply wp_setR; [done|regs|regs|regs|]. intros m4 -> Hm4.
  apply (HQ (<[0%nat := 0]> (<[38%nat := v]> (<[37%nat := r]>
    (<[Z.to_nat l := lv]> (registers s.1)))))).
  - split; [exact Hm4|]. apply list_lookup_insert_eq. rewrite !length_insert, (mw_regs _ Hs). lia.
  - by rewrite !list_lookup_insert_ne by lia.
Qed.

End Wp.

(** ** What the kernel owes the machine

    The promise of an exception handler: from a well-formed machine and a
    kernel state in [I] it comes back with both, or stops with a fault in [F]. *)
Class HandlerOk {K} (h : ExceptionType -> M (Machine * K) unit) (I : K -> Prop)
    (F : fault -> Prop) : Prop :=
  handler_ok : forall which m k, mach_ok m -> I k ->
    wp (h which) F (fun _ s => mach_ok s.1 /\ I s.2) (m, k).

(** ** Address translation *)

(** The entry that [Translate] looks for. *)
Definition matches (pid vpn : Z) (e : TranslationEntry) : bool :=
  (u32 (virtualPage e) =? vpn) && valid e && (thread e =? pid).

Lemma load_bytes_ext mem mem' p p' size :
  (forall i, 0 <= i < size -> arr_get mem (p + i) = arr_get mem' (p' + i)) ->
  load_bytes mem p size = load_bytes mem' p' size.
Proof.
  intros H. unfold load_bytes.
  assert (H0 : 0 < size -> arr_get mem p = arr_get mem' p').
  { intros. specialize (H 0). rewrite !Z.add_0_r in H. apply H. lia. }
  destruct (Z.eqb_spec size 1) as [->|]; [by rewrite H0 by lia|].
  destruct (Z.eqb_spec size 2) as [->|]; [by rewrite H0, H by lia|].
  destruct (Z.eqb_spec size 4) as [->|]; [by rewrite H0, !H by lia|done].
Qed.

Lemma find_entry_sound pt pid vpn j0 found r :
  find_entry pt pid vpn j0 found = Some r ->
  found = Some r \/ exists i e, r = (j0 + i)%nat /\ pt !! i = Some e /\ matches pid vpn e = true.
Proof.
  revert j0 found. induction pt as [|e pt IH]; intros j0 found; cbn [find_entry]; [by left|].
  intros H. apply IH in H as [H|(i & e' & -> & H1 & H2)].
  - fold (matches pid vpn e) in H. destruct (matches pid vpn e) eqn:E; [|by left].
    right. exists 0%nat, e. injection H as <-. split; [lia|done].
  - right. exists (S i), e'. split; [lia|done].
Qed.

(** The search reads three fields of the entries only. *)
Lemma find_entry_ext pt pt' pid vpn j0 found :
  Forall2 (fun e e' => matches pid vpn e = matches pid vpn e') pt pt' ->
  find_entry pt pid vpn j0 found = find_entry pt' pid vpn j0 found.
Proof.
  intros H. revert j0 found. induction H as [|e e' pt pt' E _ IH]; intros j0 found; [done|].
  cbn [find_entry]. fold (matches pid vpn e) (matches pid vpn e'). rewrite E. apply IH.
Qed.

Lemma align_fits a size :
  (size = 1 \/ size = 2 /\ Z.land a 1 = 0 \/ size = 4 /\ Z.land a 3 = 0) ->
  u32 a mod 128 + size <= 128.
Proof.
  assert (E : forall k, 0 <= k -> k <= 5 -> Z.land a (Z.ones k) = 0 ->
            (u32 a mod 128) mod 2 ^ k = 0).
  { intros k H0 H1 H. rewrite Z.land_ones in H by done. rewrite <- H. unfold u32.
    assert (exists q, 128 = 2 ^ k * q /\ 0 < q) as (q & E & ?).
    { exists (2 ^ (7 - k)). rewrite <- Z.pow_add_r by lia. split; [|apply Z.pow_pos_nonneg; lia].
      by replace (k + (7 - k)) with 7 by lia. }
    assert (0 < 2 ^ k) by (apply Z.pow_pos_nonneg; lia).
    rewrite <- (Znumtheory.Zmod_div_mod (2 ^ k) 128); [|lia..|exists q; lia].
    rewrite <- (Znumtheory.Zmod_div_mod (2 ^ k) 4294967296); [done|lia..|].
    exists (33554432 * q). lia. }
  pose proof (Z.mod_pos_bound (u32 a) 128 ltac:(lia)).
  intros [->|[[-> H1]|[-> H1]]]; [lia| |].
  - specialize (E 1 ltac:(lia) ltac:(lia) H1). Z.div_mod_to_equations. lia.
  - specialize (E 2 ltac:(lia) ltac:(lia) H1). Z.div_mod_to_equations. lia.
Qed.

Definition touch (writing : bool) (e : TranslationEntry) : TranslationEntry :=
  mkTE (virtualPage e) (physicalPage e) (valid e) (readOnly e) true (dirty e || writing) (thread e).

Definition access_size (size : Z) : Prop := size = 1 \/ size = 2 \/ size = 4.

(** A successful translation: entry [j] of page table [pt] maps address [a] of
    thread [pid] to [pa]. *)
Record translates (pt : list TranslationEntry) (pid a size : Z) (writing : bool)
    (j : nat) (pa : Z) : Prop := {
  tr_entry : exists e, pt !! j = Some e /\ matches pid (u32 a / PageSize) e = true /\
    (writing = true -> readOnly e = false) /\ 0 <= u32 (physicalPage e) < NumPhysPages /\
    pa = u32 (physicalPage e) * PageSize + u32 a mod PageSize;
  tr_find : find_entry pt pid (u32 a / PageSize) 0 None = Some j;
  tr_bounds : 0 <= pa /\ pa + size <= MemorySize;
  tr_page : u32 a mod PageSize + size <= PageSize;
  tr_align : (size = 4 -> Z.land a 3 = 0) /\ (size = 2 -> Z.land a 1 = 0) }.

Section Translation.
Context {K : Type} (getPid : K -> Z).

Lemma Translate_run a size writing (s : Machine * K) pt :
  mach_wf s.1 -> access_size size -> pageTable s.1 = Some pt ->
  (exists e, e <> NoException /\ Translate getPid a size writing s = Ok ((e, 0), s)) \/
  (exists j pa, translates pt (getPid s.2) a size writing j pa /\
     Translate getPid a size writing s =
       Ok ((NoException, pa), (set_pageTable (Some (alter (touch writing) j pt)) s.1, s.2))).
Proof.
  intros Hs Hsize Hpt. unfold Translate.
  destruct (((size =? 4) && negb (Z.land a 3 =? 0)) || ((size =? 2) && negb (Z.land a 1 =? 0)))
    eqn:Al.
  { left. exists AddressErrorException. done. }
  assert (Hal : (size = 4 -> Z.land a 3 = 0) /\ (size = 2 -> Z.land a 1 = 0)).
  { apply orb_false_iff in Al as [Al1 Al2]. split; intros ->.
    - by apply negb_false_iff, Z.eqb_eq in Al1.
    - by apply negb_false_iff, Z.eqb_eq in Al2. }
  assert (Hfit : u32 a mod 128 + size <= 128)
    by (apply align_fits; destruct Hsize as [->|[->| ->]]; naive_solver).
  pose proof (mw_tlb _ Hs) as Htlb. destruct (mw_pt _ Hs) as (pt' & E & Hlen).
  rewrite Hpt in E. injection E as <-.
  mstep. rewrite Htlb, Hpt. do 2 (mstep by (apply ASSERT_true; reflexivity)).
  rewrite take_ge by (rewrite Hlen; done).
  destruct (find_entry pt (getPid s.2) (u32 a / PageSize) 0 None) as [j|] eqn:Hf.
  2:{ left. exists PageFaultException. done. }
  apply find_entry_sound in Hf as Hf'. destruct Hf' as [Hf'|(j' & e & -> & Hj & Hm)]; [done|].
  cbn [Nat.add] in *. mstep by (apply lift_Ok, arr_get_nat; exact Hj).
  destruct (readOnly e && writing) eqn:Hro.
  { left. exists ReadOnlyException. done. }
  pose proof (u32_range (physicalPage e)) as Rp. unfold is_uint in Rp.
  destruct (Z.leb_spec NumPhysPages (u32 (physicalPage e))) as [Hpf|Hpf].
  { left. exists BusErrorException. done. }
  mstep by (apply lift_Ok, arr_set_nat; apply lookup_lt_Some in Hj; exact Hj). mstep.
  unfold NumPhysPages, PageSize, MemorySize in *.
  pose proof (Z.mod_pos_bound (u32 a) 128 ltac:(lia)).
  mstep by (apply ASSERT_true; apply andb_true_iff; split; apply Z.leb_le; unfold NumPhysPages, PageSize; lia).
  right. exists j', (u32 (physicalPage e) * 128 + u32 a mod 128). split.
  - constructor; [|done|split; [lia|]; change MemorySize with 4096; lia|done|done].
    exists e. split; [done|]. split; [done|]. split; [|split; [unfold NumPhysPages; lia|done]].
    intros ->. by rewrite andb_true_r in Hro.
  - rewrite list_insert_alter.
    rewrite (list_alter_ext _ (touch writing) pt pt); [done| |done].
    intros e' He'. rewrite Hj in He'. by injection He' as <-.
Qed.

End Translation.

(** ** Memory *)

(** What is left of [value] after a store of [size] bytes and a load. *)
Definition stored_value (size value : Z) : Z :=
  if size =? 1 then schar (u32 value mod 256)
  else if size =? 2 then u32 value mod 65536
  else wrap32 value.

Lemma arr_get_byte mem pa :
  Forall is_byte mem -> 0 <= pa < Z.of_nat (length mem) ->
  exists b, arr_get mem pa = Ok b /\ is_byte b.
Proof.
  intros Hb Hpa. destruct (lookup_lt_is_Some_2 mem (Z.to_nat pa)) as [b E]; [lia|].
  exists b. split; [apply arr_get_in; [lia|done]|by eapply Forall_lookup_1].
Qed.

Lemma load_bytes_run mem pa size :
  Forall is_byte mem -> access_size size -> 0 <= pa -> pa + size <= Z.of_nat (length mem) ->
  exists v, load_bytes mem pa size = Ok v /\ is_int v.
Proof.
  intros Hb Hs H0 H1. unfold load_bytes.
  destruct (arr_get_byte mem pa) as (b0 & E0 & B0); [done|unfold access_size in Hs; lia|].
  rewrite E0. cbn [mbind outcome_bind]. unfold is_byte, is_int in *.
  destruct Hs as [->|[->| ->]]; cbn [Z.eqb Pos.eqb].
  - eexists. split; [reflexivity|]. unfold schar.
    pose proof (Z.mod_pos_bound (b0 + 128) 256). lia.
  - destruct (arr_get_byte mem (pa + 1)) as (b1 & -> & B1); [done|lia|].
    eexists. split; [reflexivity|]. unfold is_byte, ShortToHost in *. lia.
  - destruct (arr_get_byte mem (pa + 1)) as (b1 & -> & B1); [done|lia|].
    destruct (arr_get_byte mem (pa + 2)) as (b2 & -> & B2); [done|lia|].
    destruct (arr_get_byte mem (pa + 3)) as (b3 & -> & B3); [done|lia|].
    eexists. split; [reflexivity|]. apply wrap32_range.
Qed.

Lemma arr_get_set_eq {A} (l : list A) i v :
  0 <= i < Z.of_nat (length l) -> arr_get (<[Z.to_nat i := v]> l) i = Ok v.
Proof. intros. apply arr_get_in; [lia|]. apply list_lookup_insert_eq. lia. Qed.

Lemma arr_get_set_ne {A} (l : list A) i j v :
  i <> j -> 0 <= i -> arr_get (<[Z.to_nat i := v]> l) j = arr_get l j.
Proof.
  intros. unfold arr_get. destruct (decide (0 <= j)); [|done].
  rewrite list_lookup_insert_ne by lia. done.
Qed.

Lemma set_byte mem i v :
  0 <= i < Z.of_nat (length mem) -> Forall is_byte mem -> is_byte v ->
  arr_set mem i v = Ok (<[Z.to_nat i := v]> mem) /\ Forall is_byte (<[Z.to_nat i := v]> mem).
Proof. intros. split; [by apply arr_set_in|by apply Forall_insert]. Qed.

(** Resolve reads of a memory that has just been written. *)
Ltac mem_lookup :=
  repeat first [rewrite arr_get_set_eq by (rewrite ?length_insert; lia); cbn [mbind outcome_bind]
               |rewrite arr_get_set_ne by lia].

Lemma store_bytes_run mem pa size value :
  Forall is_byte mem -> access_size size -> 0 <= pa -> pa + size <= Z.of_nat (length mem) ->
  exists mem', store_bytes mem pa size value = Ok mem' /\
    length mem' = length mem /\ Forall is_byte mem' /\
    (forall k, k < pa \/ pa + size <= k -> arr_get mem' k = arr_get mem k) /\
    load_bytes mem' pa size = Ok (stored_value size value).
Proof.
  intros Hb Hs H0 H1. unfold store_bytes, load_bytes, stored_value.
  unfold ShortToMachine, WordToMachine, ShortToHost, WordToHost.
  pose proof (u32_range value) as R. unfold is_uint in R.
  destruct Hs as [->|[->| ->]]; cbn [Z.eqb Pos.eqb]; cbv zeta.
  - rewrite arr_set_in by lia. eexists. split; [reflexivity|].
    splits; [by rewrite length_insert|apply Forall_insert; [done|by apply Z.mod_pos_bound]| |].
    + intros k Hk. apply arr_get_set_ne; lia.
    + rewrite arr_get_set_eq by lia. done.
  - set (w := u32 value mod 65536).
    assert (0 <= w < 65536) by (unfold w; apply Z.mod_pos_bound; lia).
    rewrite arr_set_in by lia. cbn [mbind outcome_bind].
    rewrite arr_set_in by (rewrite length_insert; lia). eexists. split; [reflexivity|].
    splits; [by rewrite !length_insert| | |].
    + repeat apply Forall_insert; [done|by apply Z.mod_pos_bound|].
      split; [apply Z.div_pos; lia|apply Z.div_lt_upper_bound; lia].
    + intros k Hk. rewrite !arr_get_set_ne by lia. done.
    + mem_lookup. f_equal. pose proof (Z.div_mod w 256 ltac:(lia)). lia.
  - set (w := u32 value) in *.
    rewrite arr_set_in by lia. cbn [mbind outcome_bind].
    rewrite arr_set_in by (rewrite length_insert; lia). cbn [mbind outcome_bind].
    rewrite arr_set_in by (rewrite !length_insert; lia). cbn [mbind outcome_bind].
    rewrite arr_set_in by (rewrite !length_insert; lia). eexists. split; [reflexivity|].
    splits; [by rewrite !length_insert| | |].
    + repeat apply Forall_insert; [done|by apply Z.mod_pos_bound..|].
      split; [apply Z.div_pos; lia|apply Z.div_lt_upper_bound; lia].
    + intros k Hk. rewrite !arr_get_set_ne by lia. done.
    + mem_lookup. f_equal. pose proof (uint_of_int_bytes value) as U. cbv zeta in U. fold w in U.
      rewrite (Z.mod_small (w / 16777216)) in U; [rewrite U|].
      * unfold w. apply wrap32_u32.
      * split; [apply Z.div_pos; lia|apply Z.div_lt_upper_bound; lia].
Qed.

Section MemOps.
Context {K : Type} (getPid : K -> Z).
Context (ExceptionHandler : ExceptionType -> M (Machine * K) unit).
Notation Translate := (Translate getPid).
Notation ReadMem := (ReadMem getPid ExceptionHandler).
Notation WriteMem := (WriteMem getPid ExceptionHandler).

Lemma alter_touch_length writing j pt : length (alter (touch writing) j pt) = length pt.
Proof. apply length_alter. Qed.

(** When the translation is in the page table, no exception is raised. *)
Lemma ReadMem_mapped a size (s : Machine * K) s1 pa :
  Translate a size false s = Ok ((NoException, pa), s1) ->
  ReadMem a size s = match load_bytes (mainMemory s1.1) pa size with
                     | Ok v => Ok (Some v, s1) | Fault e => Fault e end.
Proof.
  intros E. unfold Machine.ReadMem, translate_twice.
  unfold mbind, M_bind, get, lift, on_machine, modify, mret, M_ret. rewrite E.
  cbn [fst snd negb bool_decide]. rewrite bool_decide_eq_true_2 by reflexivity. cbn [negb].
  by destruct (load_bytes _ _ _).
Qed.

Lemma WriteMem_mapped a size value (s : Machine * K) s1 pa :
  Translate a size true s = Ok ((NoException, pa), s1) ->
  WriteMem a size value s = match store_bytes (mainMemory s1.1) pa size value with
                     | Ok mem => Ok (true, (set_mainMemory mem s1.1, s1.2))
                     | Fault e => Fault e end.
Proof.
  intros E. unfold Machine.WriteMem, translate_twice.
  unfold mbind, M_bind, get, lift, on_machine, modify, mret, M_ret. rewrite E.
  cbn [fst snd negb bool_decide]. rewrite bool_decide_eq_true_2 by reflexivity. cbn [negb].
  by destruct (store_bytes _ _ _ _).
Qed.

(** A successful translation, read backwards. *)
Lemma Translate_inv a size writing (s : Machine * K) s1 pa pt :
  mach_wf s.1 -> access_size size -> pageTable s.1 = Some pt ->
  Translate a size writing s = Ok ((NoException, pa), s1) ->
  exists j, translates pt (getPid s.2) a size writing j pa /\
    s1 = (set_pageTable (Some (alter (touch writing) j pt)) s.1, s.2).
Proof.
  intros Hs Hz Hpt E.
  destruct (Translate_run getPid a size writing s pt Hs Hz Hpt)
    as [(e & He & E')|(j & pa' & Ht & E')]; rewrite E in E'; [by injection E'|].
  injection E' as <- ->. by exists j.
Qed.

Lemma touch_matches pid vpn writing j pt :
  find_entry (alter (touch writing) j pt) pid vpn 0 None = find_entry pt pid vpn 0 None.
Proof.
  symmetry. apply find_entry_ext. apply Forall2_same_length_lookup_2.
  { by rewrite alter_touch_length. }
  intros i e e' H1 H2. destruct (decide (i = j)) as [->|Hne].
  - rewrite list_lookup_alter_eq, H1 in H2. injection H2 as <-. done.
  - rewrite list_lookup_alter_ne, H1 in H2 by done. by injection H2 as <-.
Qed.

(** Reading does not change what is mapped, and a page that can be written can
    be read at the same place. *)
Lemma translates_touch pt pid a size w w' j j' pa :
  translates pt pid a size w j' pa -> (w' = true -> w = true) ->
  translates (alter (touch true) j pt) pid a size w' j' pa.
Proof.
  intros [(e & H1 & H2 & H3 & H4 & H5) Hf Hb Hp Ha] Hw. constructor; [|by rewrite touch_matches|done..].
  destruct (decide (j = j')) as [->|].
  - exists (touch true e). rewrite list_lookup_alter_eq, H1.
    split; [done|]. split; [done|]. split; [auto|done].
  - exists e. rewrite list_lookup_alter_ne by done.
    split; [done|]. split; [done|]. split; [auto|done].
Qed.

Lemma translates_fun pt pid a size w j pa size' w' j' pa' :
  translates pt pid a size w j pa -> translates pt pid a size' w' j' pa' -> pa' = pa /\ j' = j.
Proof.
  intros [(e & H1 & _ & _ & _ & ->) Hf _ _ _] [(e' & H1' & _ & _ & _ & ->) Hf' _ _ _].
  rewrite Hf in Hf'. injection Hf' as <-. rewrite H1 in H1'. by injection H1' as <-.
Qed.

Lemma translates_Translate pt a size w j pa (s : Machine * K) :
  mach_wf s.1 -> access_size size -> pageTable s.1 = Some pt ->
  translates pt (getPid s.2) a size w j pa ->
  Translate a size w s =
    Ok ((NoException, pa), (set_pageTable (Some (alter (touch w) j pt)) s.1, s.2)).
Proof.
  intros Hs Hz Hpt Ht.
  destruct (Translate_run getPid a size w s pt Hs Hz Hpt)
    as [(e & He & E')|(j' & pa' & Ht' & E')].
  - exfalso. destruct Ht as [(e0 & H1 & H2 & H3 & H4 & H5) Hf Hb _ [A4 A2]].
    revert E'. unfold Machine.Translate.
    destruct (((size =? 4) && _) || _) eqn:Al.
    { apply orb_true_iff in Al as [Al|Al]; apply andb_true_iff in Al as [Al1 Al2];
        apply Z.eqb_eq in Al1; [rewrite A4 in Al2|rewrite A2 in Al2]; done. }
    destruct (mw_pt _ Hs) as (pt' & E & Hlen). rewrite Hpt in E. injection E as <-.
    mstep. rewrite (mw_tlb _ Hs), Hpt. do 2 (mstep by (apply ASSERT_true; reflexivity)).
    rewrite take_ge by (rewrite Hlen; done). rewrite Hf.
    mstep by (apply lift_Ok, arr_get_nat; exact H1).
    replace (readOnly e0 && w) with false by (destruct w; [by rewrite H3|by rewrite andb_false_r]).
    rewrite (proj2 (Z.leb_gt _ _)) by lia.
    mstep by (apply lift_Ok, arr_set_nat; apply lookup_lt_Some in H1; exact H1). mstep.
    rewrite <- H5. mstep by (apply ASSERT_true; apply andb_true_iff; split; apply Z.leb_le; lia).
    intros E'. injection E'. intros. by subst.
  - destruct (translates_fun _ _ _ _ _ _ _ _ _ _ _ Ht Ht') as [-> ->]. done.
Qed.

(** Two translations that land on the same byte are of the same byte. *)
Lemma translates_inj pt pid a size w j pa pid' b size' w' j' pb :
  NoDup (map (fun e => u32 (physicalPage e)) pt) ->
  translates pt pid a size w j pa -> translates pt pid' b size' w' j' pb ->
  pa <= pb < pa + size -> pid' = pid /\ u32 a <= u32 b < u32 a + size.
Proof.
  intros Hnd [(e & H1 & H2 & _ & H4 & ->) _ _ Hp _] [(e' & H1' & H2' & _ & H4' & ->) _ _ _ _] Hin.
  unfold PageSize, NumPhysPages in *.
  pose proof (Z.mod_pos_bound (u32 a) 128 ltac:(lia)).
  pose proof (Z.mod_pos_bound (u32 b) 128 ltac:(lia)).
  assert (u32 (physicalPage e) = u32 (physicalPage e')) as Hf by lia.
  assert (j' = j) as ->.
  { eapply NoDup_lookup; [exact Hnd|..]; rewrite list_lookup_fmap.
    - by rewrite H1'.
    - rewrite H1. cbn. by rewrite Hf. }
  rewrite H1 in H1'. injection H1' as <-. unfold matches in *.
  apply andb_true_iff in H2 as [H2 T2]. apply andb_true_iff in H2 as [V2 _].
  apply andb_true_iff in H2' as [H2' T2']. apply andb_true_iff in H2' as [V2' _].
  apply Z.eqb_eq in T2, V2, T2', V2'.
  pose proof (Z.div_mod (u32 a) 128 ltac:(lia)). pose proof (Z.div_mod (u32 b) 128 ltac:(lia)).
  split; [congruence|]. lia.
Qed.

(** Virtual memory behaves like memory.  On a well-formed machine whose page
    table maps no frame twice, a store to a translated address succeeds; a load
    of the same size from the same address then returns the stored value cut
    to its width; and every byte, of any thread, that is mapped and is not one
    of the bytes stored to reads as before. *)
Theorem machine_store_load a size value (s : Machine * K) pt pa s1 :
  mach_wf s.1 -> access_size size -> pageTable s.1 = Some pt ->
  NoDup (map (fun e => u32 (physicalPage e)) pt) ->
  Translate a size true s = Ok ((NoException, pa), s1) ->
  exists m', WriteMem a size value s = Ok (true, (m', s.2)) /\
    (exists m'', ReadMem a size (m', s.2) = Ok (Some (stored_value size value), (m'', s.2))) /\
    (forall k b pb sb, Translate b 1 false (s.1, k) = Ok ((NoException, pb), sb) ->
       ~ (getPid k = getPid s.2 /\ u32 a <= u32 b < u32 a + size) ->
       exists v s2 s3, ReadMem b 1 (s.1, k) = Ok (Some v, s2) /\
                       ReadMem b 1 (m', k) = Ok (Some v, s3)).
Proof.
  intros Hs Hz Hpt Hnd E. rewrite (WriteMem_mapped _ _ value _ _ _ E).
  destruct (Translate_inv _ _ _ _ _ _ _ Hs Hz Hpt E) as (j & Ht & ->). cbn [fst snd].
  pose proof (tr_bounds _ _ _ _ _ _ _ Ht) as Hb. change MemorySize with 4096 in Hb.
  destruct (store_bytes_run (mainMemory s.1) pa size value) as (mem & Em & Hl & Hbs & Ho & Hload);
    [apply Hs|done|lia|rewrite (mw_mem _ Hs); lia|].
  cbn [mainMemory set_pageTable]. rewrite Em. eexists. split; [reflexivity|].
  set (pt1 := alter (touch true) j pt). set (m' := set_mainMemory mem _).
  assert (Hm' : mach_wf m').
  { apply mach_wf_memory; [|by rewrite Hl; apply Hs|done]. apply mach_wf_pageTable; [done|].
    unfold pt1. rewrite alter_touch_length. destruct (mw_pt _ Hs) as (? & ? & ?). congruence. }
  split.
  - assert (T : Translate a size false (m', s.2) = Ok (NoException, pa,
      (set_pageTable (Some (alter (touch false) j pt1)) m', s.2))).
    { apply (translates_Translate pt1 a size false j pa (m', s.2)); [done..|].
      by apply (translates_touch pt _ a size true). }
    rewrite (ReadMem_mapped _ _ _ _ _ T). cbn. rewrite Hload. by eexists.
  - intros k b pb sb Eb Hout. pose proof (ReadMem_mapped _ _ _ _ _ Eb) as Rb.
    destruct (Translate_inv b 1 false (s.1, k) sb pb pt Hs (or_introl eq_refl) Hpt Eb) as (jb & Htb & ->).
    pose proof (tr_bounds _ _ _ _ _ _ _ Htb) as Hbb. change MemorySize with 4096 in Hbb.
    destruct (load_bytes_run (mainMemory s.1) pb 1) as (v & Ev & _);
      [apply Hs|by left|lia|rewrite (mw_mem _ Hs); lia|].
    cbn [mainMemory set_pageTable fst] in Rb. rewrite Ev in Rb.
    assert (T : Translate b 1 false (m', k) = Ok (NoException, pb,
      (set_pageTable (Some (alter (touch false) jb pt1)) m', k))).
    { apply (translates_Translate pt1 b 1 false jb pb (m', k)); [done|by left|done|].
      by apply (translates_touch pt _ b 1 false). }
    rewrite Rb, (ReadMem_mapped _ _ _ _ _ T). cbn [fst snd].
    cbn [mainMemory set_pageTable set_mainMemory m'].
    assert (load_bytes mem pb 1 = Ok v) as ->.
    { rewrite <- Ev. unfold load_bytes. cbn [Z.eqb Pos.eqb]. rewrite Ho; [done|].
      destruct (Z.lt_ge_cases pb pa); [by left|]. right.
      destruct (Z.lt_ge_cases pb (pa + size)); [|lia]. exfalso. apply Hout.
      eapply translates_inj; [done..|lia]. }
    eauto.
Qed.

End MemOps.

(** A machine in which frame 3 holds page 0 of thread 7. *)
Definition demo_machine : Machine :=
  mkMachine (replicate 4096 0) (replicate 40 0) None
    (Some (map (fun i => if Nat.eqb i 3 then mkTE 0 3 true false false false 7
                         else mkTE (-1) (Z.of_nat i) false false false false (-1)) (seq 0 32)))
    0 [0; 1; 2; 3] 0 0 (mkBitMap 32 1 [8]) 0 false UserMode.

Lemma demo_machine_ok : mach_ok demo_machine.
Proof.
  split; [|done]. constructor; try reflexivity.
  - by apply Forall_replicate.
  - by exists 0.
  - by apply Forall_replicate.
  - eexists. split; reflexivity.
  - split; [|done]. constructor; cbn; try done. by repeat constructor.
Qed.

Lemma machine_store_load_witness :
  exists m', WriteMem (fun k : Z => k) (fun _ => mret tt) 4 2 305419896 (demo_machine, 7)
               = Ok (true, (m', 7)) /\
    exists m'', ReadMem (fun k : Z => k) (fun _ => mret tt) 4 2 (m', 7)
               = Ok (Some 22136, (m'', 7)).
Proof.
  edestruct (machine_store_load (fun k : Z => k) (fun _ => mret tt) 4 2 305419896
    (demo_machine, 7)) as (m' & E & R & _).
  - apply mach_ok_wf, demo_machine_ok.
  - right. by left.
  - reflexivity.
  - by apply (bool_decide_unpack _); vm_compute.
  - vm_compute. reflexivity.
  - exists m'. split; [exact E|exact R].
Defined.

(** ** The machine's promises on top of the handler's *)

Section MemWp.
Context {K : Type} (getPid : K -> Z).
Context (ExceptionHandler : ExceptionType -> M (Machine * K) unit).
Context (I : K -> Prop) (F : fault -> Prop) `{!HandlerOk ExceptionHandler I F}.

Lemma wp_RaiseException which a Q (s : Machine * K) :
  mach_wf s.1 -> I s.2 -> is_int a ->
  (forall s', mach_ok s'.1 -> I s'.2 -> Q tt s') ->
  wp (RaiseException ExceptionHandler which a) F Q s.
Proof.
  intros Hs Hk Ha HQ. unfold RaiseException.
  apply wp_bind, wp_setR; [done|regs|done|regs|]. intros m1 _ H1.
  apply wp_bind, wp_DelayedLoad; [done|lia|regs|]. intros r2 H2 _.
  apply wp_bind. cbn. apply wp_bind.
  eapply wp_mono; [apply handler_ok; [by apply mach_ok_status|done]|].
  intros _ s' [H3 H4]. cbn. apply HQ; [by apply mach_ok_status|done].
Qed.

Lemma wp_translate_twice a size writing Q (s : Machine * K) :
  mach_wf s.1 -> I s.2 -> is_int a -> access_size size ->
  (forall s', mach_ok s'.1 -> I s'.2 -> Q None s') ->
  (forall pa s', mach_wf s'.1 -> I s'.2 -> 0 <= pa -> pa + size <= 4096 -> Q (Some pa) s') ->
  wp (translate_twice getPid ExceptionHandler a size writing) F Q s.
Proof.
  intros Hs Hk Ha Hz HQ0 HQ1.
  assert (T : forall s (Q : ExceptionType * Z -> Machine * K -> Prop), mach_wf s.1 -> I s.2 ->
    (forall e pa, e <> NoException -> Q (e, pa) s) ->
    (forall pa s', mach_wf s'.1 -> I s'.2 -> 0 <= pa -> pa + size <= 4096 ->
       Q (NoException, pa) s') -> wp (Translate getPid a size writing) F Q s).
  { clear s Hs Hk. intros s Q' Hs Hk HF HN. destruct (mw_pt _ Hs) as (pt & Hpt & Hlen). unfold wp.
    destruct (Translate_run getPid a size writing s pt Hs Hz Hpt)
      as [(e & He & ->)|(j & pa' & Ht & ->)]; [by apply HF|].
    pose proof (tr_bounds _ _ _ _ _ _ _ Ht) as Hb. change MemorySize with 4096 in Hb.
    apply HN; [|done|lia..]. apply mach_wf_pageTable; [done|]. by rewrite alter_touch_length. }
  unfold translate_twice. apply wp_bind, T; [done|done| |].
  - intros e pa He. cbn. rewrite bool_decide_eq_false_2 by done. cbn.
    apply wp_bind, wp_RaiseException; [done..|]. intros s1 H1 K1.
    apply wp_bind, T; [auto with nachos|done| |].
    + intros e1 pa1 He1. cbn. rewrite bool_decide_eq_false_2 by done. by apply wp_ret, HQ0.
    + intros pa1 s2 H2 K2 B1 B2. cbn. by apply wp_ret, HQ1.
  - intros pa1 s2 H2 K2 B1 B2. cbn. by apply wp_ret, HQ1.
Qed.

Lemma wp_ReadMem a size Q (s : Machine * K) :
  mach_wf s.1 -> I s.2 -> is_int a -> access_size size ->
  (forall s', mach_ok s'.1 -> I s'.2 -> Q None s') ->
  (forall v s', mach_wf s'.1 -> I s'.2 -> is_int v -> Q (Some v) s') ->
  wp (ReadMem getPid ExceptionHandler a size) F Q s.
Proof.
  intros Hs Hk Ha Hz HQ0 HQ1. unfold ReadMem.
  apply wp_bind, wp_translate_twice; [done..| |].
  - intros s' H1 K1. by apply wp_ret, HQ0.
  - intros pa s' H1 K1 B1 B2. apply wp_bind, wp_get.
    destruct (load_bytes_run (mainMemory s'.1) pa size) as (v & E & Hv);
      [apply H1|done|lia|rewrite (mw_mem _ H1); lia|].
    apply wp_bind. eapply wp_lift; [exact E|]. apply wp_ret. by apply HQ1.
Qed.

Lemma wp_WriteMem a size value Q (s : Machine * K) :
  mach_wf s.1 -> I s.2 -> is_int a -> access_size size ->
  (forall s', mach_ok s'.1 -> I s'.2 -> Q false s') ->
  (forall s', mach_wf s'.1 -> I s'.2 -> Q true s') ->
  wp (WriteMem getPid ExceptionHandler a size value) F Q s.
Proof.
  intros Hs Hk Ha Hz HQ0 HQ1. unfold WriteMem.
  apply wp_bind, wp_translate_twice; [done..| |].
  - intros s' H1 K1. by apply wp_ret, HQ0.
  - intros pa s' H1 K1 B1 B2. apply wp_bind, wp_get.
    destruct (store_bytes_run (mainMemory s'.1) pa size value) as (mem & E & Hl & Hbs & _);
      [apply H1|done|lia|rewrite (mw_mem _ H1); lia|].
    apply wp_bind. eapply wp_lift; [exact E|]. apply wp_bind. cbn. apply HQ1; [|done].
    apply mach_wf_memory; [done| |done]. rewrite Hl. apply H1.
Qed.

End MemWp.

(** ** The TLB counters implement least-recently-used replacement *)

Inductive tlb_op := TlbHit (i : Z) | TlbSwap.

(** The specification keeps the entries in the order of their last use, the
    most recent one first; a replacement takes the last one. *)
Definition most_recent (i : Z) (order : list Z) : list Z := i :: filter (fun j => j <> i) order.

Definition lru_step (order : list Z) (op : tlb_op) : list Z * Z :=
  let i := match op with TlbHit i => i | TlbSwap => List.last order 0 end in
  (most_recent i order, i).

Fixpoint lru_run (order : list Z) (ops : list tlb_op) : list Z :=
  match ops with
  | [] => []
  | op :: ops' => let r := lru_step order op in r.2 :: lru_run r.1 ops'
  end.

(** The entries the machine hits or replaces. *)
Fixpoint tlb_run (m : Machine) (ops : list tlb_op) : outcome (list Z) :=
  match ops with
  | [] => Ok []
  | TlbHit i :: ops' =>
    match Hittlb i m with
    | Ok (_, m') => l ← tlb_run m' ops'; Ok (i :: l)
    | Fault e => Fault e
    end
  | TlbSwap :: ops' =>
    match Swaptlb m with
    | Ok (i, m') => l ← tlb_run m' ops'; Ok (i :: l)
    | Fault e => Fault e
    end
  end.

Definition flag (flags : list Z) (i : Z) : Z := nth (Z.to_nat i) flags 0.

(** Along the recency order the counters increase. *)
Record lru_inv (flags order : list Z) (n : Z) : Prop := {
  li_len : length flags = 4%nat;
  li_perm : forall i, i ∈ order <-> 0 <= i < 4;
  li_sorted : StronglySorted (fun i j => flag flags i < flag flags j) order;
  li_range : forall i, 0 <= i < 4 -> 0 <= flag flags i <= n }.

Lemma flag_bump flags v i : length flags = 4%nat -> 0 <= v < 4 -> 0 <= i < 4 ->
  flag (<[Z.to_nat v := 0]> (map (fun x => wrap32 (x + 1)) flags)) i =
  if decide (i = v) then 0 else wrap32 (flag flags i + 1).
Proof.
  intros Hl Hv Hi. unfold flag. destruct flags as [|a [|b [|c [|d [|]]]]]; try done.
  assert (Ci : i = 0 \/ i = 1 \/ i = 2 \/ i = 3) by lia.
  assert (Cv : v = 0 \/ v = 1 \/ v = 2 \/ v = 3) by lia.
  destruct Ci as [->|[->|[->| ->]]], Cv as [->|[->|[->| ->]]]; reflexivity.
Qed.

(** One use of entry [v]: every counter is incremented, [v]'s is cleared. *)
Lemma lru_inv_use flags order n v :
  lru_inv flags order n -> 0 <= v < 4 -> n < 2147483647 ->
  lru_inv (<[Z.to_nat v := 0]> (map (fun x => wrap32 (x + 1)) flags)) (most_recent v order) (n + 1).
Proof.
  intros [Hl Hp Hs Hr] Hv Hn.
  assert (Hb : forall i, 0 <= i < 4 ->
    flag (<[Z.to_nat v := 0]> (map (fun x => wrap32 (x + 1)) flags)) i =
    if decide (i = v) then 0 else flag flags i + 1).
  { intros i Hi. rewrite flag_bump by done. destruct (decide (i = v)); [done|].
    specialize (Hr i Hi). apply wrap32_small. unfold is_int. lia. }
  constructor.
  - by rewrite length_insert, length_map.
  - intros i. unfold most_recent. rewrite elem_of_cons, list_elem_of_filter, Hp.
    destruct (decide (i = v)) as [->|]; [tauto|]. split; [tauto|]. intros; right; done.
  - unfold most_recent. constructor.
    + assert (Hi : forall i, i ∈ order -> 0 <= i < 4) by (intros; by apply Hp). clear Hp.
      induction Hs as [|x l Hs IH Hx]; [constructor|].
      assert (Hx4 : 0 <= x < 4) by (apply Hi; left).
      rewrite filter_cons. destruct (decide (x <> v)) as [Hxv|Hxv].
      * constructor; [apply IH; intros; apply Hi; by right|].
        apply List.Forall_forall. intros y [Hyv Hy]%list_elem_of_In%list_elem_of_filter.
        rewrite List.Forall_forall in Hx. specialize (Hx y (proj1 (list_elem_of_In _ _) Hy)).
        assert (0 <= y < 4) by (apply Hi; by right). rewrite !Hb by done.
        rewrite !decide_False by done. lia.
      * apply IH. intros; apply Hi; by right.
    + apply List.Forall_forall. intros y [Hyv Hy]%list_elem_of_In%list_elem_of_filter. apply Hp in Hy.
      rewrite !Hb by done. rewrite decide_True, decide_False by done.
      specialize (Hr y Hy). lia.
  - intros i Hi. rewrite Hb by done. specialize (Hr i Hi). destruct (decide (i = v)); lia.
Qed.

Lemma last_max flags order n v :
  lru_inv flags order n -> 0 <= v < 4 ->
  (forall i, 0 <= i < 4 -> flag flags i <= flag flags v) -> List.last order 0 = v.
Proof.
  intros [Hl Hp Hs Hr] Hv Hmax.
  assert (Hne : order <> []) by (intros ->; by apply not_elem_of_nil with (x := v), Hp).
  destruct (exists_last Hne) as (l & x & ->). rewrite last_last.
  destruct (decide (v = x)) as [->|Hvx]; [done|]. exfalso.
  assert (v ∈ l ++ [x]) as Hin by (by apply Hp).
  apply elem_of_app in Hin as [Hin|Hin]; [|by apply list_elem_of_singleton in Hin].
  assert (0 <= x < 4) as Hx by (apply Hp; apply elem_of_app; right; by apply list_elem_of_singleton).
  assert (flag flags v < flag flags x).
  { clear -Hs Hin. induction l as [|y l IH]; [by apply not_elem_of_nil in Hin|].
    cbn in Hs. apply StronglySorted_inv in Hs as [Hs Hf].
    apply elem_of_cons in Hin as [->|Hin]; [|by apply IH].
    rewrite Forall_app in Hf. destruct Hf as [_ Hf]. by inversion Hf. }
  specialize (Hmax x Hx). lia.
Qed.

Lemma Swaptlb_round flags n i max :
  0 <= i < Z.of_nat (length flags) -> 0 <= max < Z.of_nat (length flags) ->
  let flags' := <[Z.to_nat i := wrap32 (flag flags i + 1)]> flags in
  Swaptlb_loop flags (S n) i max =
  Swaptlb_loop flags' n (i + 1) (if flag flags' max <? flag flags' i then i else max).
Proof.
  intros Hi Hm. cbv zeta. cbn [Swaptlb_loop].
  assert (G : forall (l : list Z) j, 0 <= j < Z.of_nat (length l) -> arr_get l j = Ok (flag l j)).
  { intros l j Hj. apply arr_get_in; [lia|]. unfold flag.
    destruct (lookup_lt_is_Some_2 l (Z.to_nat j)) as [v E]; [lia|]. rewrite E. f_equal.
    symmetry. by apply nth_lookup_Some. }
  rewrite G by done. cbn [mbind outcome_bind]. rewrite arr_set_in by done.
  cbn [mbind outcome_bind]. by rewrite !G by (rewrite length_insert; done).
Qed.

Lemma flag4_0 a b c d : flag [a; b; c; d] 0 = a.
Proof. done. Qed.
Lemma flag4_1 a b c d : flag [a; b; c; d] 1 = b.
Proof. done. Qed.
Lemma flag4_2 a b c d : flag [a; b; c; d] 2 = c.
Proof. done. Qed.
Lemma flag4_3 a b c d : flag [a; b; c; d] 3 = d.
Proof. done. Qed.
Ltac flags4 H := rewrite ?flag4_0, ?flag4_1, ?flag4_2, ?flag4_3 in H.

(** The loop of [Swaptlb] increments all counters and finds the first largest. *)
Lemma Swaptlb_run m order n :
  lru_inv (tlbflag m) order n -> n < 2147483647 ->
  Swaptlb m = Ok (List.last order 0, set_tlbflag
    (<[Z.to_nat (List.last order 0) := 0]> (map (fun x => wrap32 (x + 1)) (tlbflag m))) m).
Proof.
  intros Hinv Hn. pose proof (last_max (tlbflag m) order n) as HL.
  pose proof (li_range _ _ _ Hinv) as Hr. pose proof (li_len _ _ _ Hinv) as Hlen.
  unfold Swaptlb. change (Z.to_nat TLBSize) with 4%nat.
  destruct (tlbflag m) as [|a [|b [|c [|d [|]]]]] eqn:E; try done. clear Hlen.
  assert (Hmax : forall v, 0 <= v < 4 -> a <= flag [a; b; c; d] v -> b <= flag [a; b; c; d] v ->
    c <= flag [a; b; c; d] v -> d <= flag [a; b; c; d] v -> List.last order 0 = v).
  { intros v Hv M0 M1 M2 M3. apply (HL v Hinv Hv). intros i Hi.
    assert (i = 0 \/ i = 1 \/ i = 2 \/ i = 3) as [->|[->|[->| ->]]] by lia; done. }
  assert (W : forall x, 0 <= x <= n -> wrap32 (x + 1) = x + 1)
    by (intros; apply wrap32_small; unfold is_int; lia).
  assert (Wa := W a (Hr 0 ltac:(lia))). assert (Wb := W b (Hr 1 ltac:(lia))).
  assert (Wc := W c (Hr 2 ltac:(lia))). assert (Wd := W d (Hr 3 ltac:(lia))).
  rewrite Swaptlb_round by (cbn; lia). rewrite Z.ltb_irrefl.
  change (flag [a; b; c; d] 0) with a. rewrite Wa.
  change (<[Z.to_nat 0 := a + 1]> [a; b; c; d]) with [a + 1; b; c; d].
  rewrite Swaptlb_round by (cbn; lia). change (flag [a + 1; b; c; d] (0 + 1)) with b. rewrite Wb.
  change (<[Z.to_nat (0 + 1) := b + 1]> [a + 1; b; c; d]) with [a + 1; b + 1; c; d].
  rewrite Swaptlb_round by (repeat case_match; cbn; lia).
  change (flag [a + 1; b + 1; c; d] (0 + 1 + 1)) with c. rewrite Wc.
  change (<[Z.to_nat (0 + 1 + 1) := c + 1]> [a + 1; b + 1; c; d]) with [a + 1; b + 1; c + 1; d].
  rewrite Swaptlb_round by (repeat case_match; cbn; lia).
  change (flag [a + 1; b + 1; c + 1; d] (0 + 1 + 1 + 1)) with d. rewrite Wd.
  change (<[Z.to_nat (0 + 1 + 1 + 1) := d + 1]> [a + 1; b + 1; c + 1; d])
    with [a + 1; b + 1; c + 1; d + 1].
  cbn [map]. rewrite Wa, Wb, Wc, Wd. cbn [Swaptlb_loop mbind outcome_bind fst snd].
  assert (F : forall v, List.last order 0 = v -> 0 <= v < 4 ->
    (flags ← arr_set [a + 1; b + 1; c + 1; d + 1] v 0; Ok (v, set_tlbflag flags m)) =
    Ok (List.last order 0, set_tlbflag
      (<[Z.to_nat (List.last order 0) := 0]> [a + 1; b + 1; c + 1; d + 1]) m)).
  { intros v -> Hv. by rewrite arr_set_in by (cbn; lia). }
  change (0 + 1 + 1 + 1) with 3. change (0 + 1 + 1) with 2. change (0 + 1) with 1.
  repeat match goal with |- context [?x <? ?y] =>
    lazymatch x with context [_ <? _] => fail | _ => idtac end;
    lazymatch y with context [_ <? _] => fail | _ => idtac end;
    let Hc := fresh in destruct (Z.ltb_spec x y) as [Hc|Hc]; flags4 Hc end;
    apply F; try lia; apply Hmax; try lia; rewrite ?flag4_0, ?flag4_1, ?flag4_2, ?flag4_3; lia.
Qed.

Lemma lru_inv_last flags order n : lru_inv flags order n -> 0 <= List.last order 0 < 4.
Proof.
  intros Hinv. apply (li_perm _ _ _ Hinv).
  assert (Hne : order <> []).
  { intros ->. assert (0 ∈ []) as Hx by (apply (li_perm _ _ _ Hinv); lia).
    by apply not_elem_of_nil in Hx. }
  destruct (exists_last Hne) as (l' & y & ->).
  rewrite last_last. apply elem_of_app. right. by apply list_elem_of_singleton.
Qed.

Lemma tlb_run_lru ops : forall m order n,
  lru_inv (tlbflag m) order n -> n + Z.of_nat (length ops) < 2147483647 ->
  Forall (fun op => match op with TlbHit i => 0 <= i < TLBSize | TlbSwap => True end) ops ->
  tlb_run m ops = Ok (lru_run order ops).
Proof.
  induction ops as [|op ops IH]; intros m order n Hinv Hn Hops; [done|].
  apply List.Forall_cons_iff in Hops as [Hop Hops].
  cbn [length] in Hn. destruct op as [i|]; cbn [tlb_run lru_run lru_step fst snd].
  - unfold TLBSize in Hop. unfold Hittlb. rewrite arr_set_in
      by (rewrite length_map, (li_len _ _ _ Hinv); lia).
    cbn [mbind outcome_bind]. rewrite (IH _ (most_recent i order) (n + 1)); [done| |lia|done].
    apply lru_inv_use; [done|done|lia].
  - rewrite (Swaptlb_run m order n) by (done || lia).
    rewrite (IH _ (most_recent (List.last order 0) order) (n + 1)); [done| |lia|done].
    apply lru_inv_use; [done| |lia]. by eapply lru_inv_last.
Qed.

(** The counters of [Hittlb] and [Swaptlb] implement LRU replacement.  From the
    counters that the constructor sets, every sequence of hits and
    replacements (of fewer than 2^31 - 4 operations, so that no counter
    overflows) replaces the entries that the recency list of the
    specification replaces. *)
Theorem tlb_counters_are_LRU m ops :
  tlbflag m = [0; 1; 2; 3] -> Z.of_nat (length ops) < 2147483644 ->
  Forall (fun op => match op with TlbHit i => 0 <= i < TLBSize | TlbSwap => True end) ops ->
  tlb_run m ops = Ok (lru_run [0; 1; 2; 3] ops).
Proof.
  intros E Hlen Hops. apply tlb_run_lru with 3; [|lia|done]. rewrite E. constructor; [done| | |].
  - intros i. rewrite !elem_of_cons, elem_of_nil. lia.
  - repeat constructor.
  - intros i Hi. assert (i = 0 \/ i = 1 \/ i = 2 \/ i = 3) as [->|[->|[->| ->]]] by lia;
      rewrite ?flag4_0, ?flag4_1, ?flag4_2, ?flag4_3; lia.
Qed.

Lemma tlb_counters_are_LRU_witness :
  tlb_run demo_machine [TlbHit 2; TlbSwap; TlbSwap; TlbHit 2; TlbSwap; TlbSwap]
  = Ok [2; 3; 1; 2; 0; 3].
Proof.
  apply (tlb_counters_are_LRU demo_machine [TlbHit 2; TlbSwap; TlbSwap; TlbHit 2; TlbSwap; TlbSwap]).
  - reflexivity.
  - cbn. lia.
  - repeat (apply List.Forall_cons; [first [exact Logic.I|unfold TLBSize; lia]|]). constructor.
Defined.
