(* ===== verification/MipsSim.v ===== *)
(** * machine/mipssim.h, machine/mipssim.cc: the MIPS simulator

    [Decode], [Mult] and [OneInstruction], one definition per group of cases
    of its switch.  Signed arithmetic wraps to 32 bits, as the overflow checks
    of the source rely on. *)
From S2P Require Import Prelude CInt Machine.
From Stdlib Require Import ZArith Lia List Bool.
From stdpp Require Import base tactics list numbers.
Local Open Scope Z_scope.

(** ** Opcodes: mipssim.h *)

Inductive Op :=
| OP_ADD | OP_ADDI | OP_ADDIU | OP_ADDU | OP_AND | OP_ANDI
| OP_BEQ | OP_BGEZ | OP_BGEZAL | OP_BGTZ | OP_BLEZ | OP_BLTZ | OP_BLTZAL | OP_BNE
| OP_DIV | OP_DIVU | OP_J | OP_JAL | OP_JALR | OP_JR
| OP_LB | OP_LBU | OP_LH | OP_LHU | OP_LUI | OP_LW | OP_LWL | OP_LWR
| OP_MFHI | OP_MFLO | OP_MTHI | OP_MTLO | OP_MULT | OP_MULTU
| OP_NOR | OP_OR | OP_ORI | OP_RFE | OP_SB | OP_SH | OP_SLL | OP_SLLV
| OP_SLT | OP_SLTI | OP_SLTIU | OP_SLTU | OP_SRA | OP_SRAV | OP_SRL | OP_SRLV
| OP_SUB | OP_SUBU | OP_SW | OP_SWL | OP_SWR | OP_XOR | OP_XORI
| OP_SYSCALL | OP_UNIMP | OP_RES
| SPECIAL | BCOND.

#[global] Instance Op_eq_dec : EqDecision Op.
Proof. solve_decision. Defined.

Inductive Format := IFMT | JFMT | RFMT.

#[global] Instance Format_eq_dec : EqDecision Format.
Proof. solve_decision. Defined.

Definition IndexToAddr (x : Z) : Z := wrap32 (Z.shiftl x 2).
Definition SIGN_BIT : Z := 2147483648.
Definition R31 : Z := 31.

Definition opTable : list (Op * Format) :=
  [(SPECIAL, RFMT); (BCOND, IFMT); (OP_J, JFMT); (OP_JAL, JFMT);
   (OP_BEQ, IFMT); (OP_BNE, IFMT); (OP_BLEZ, IFMT); (OP_BGTZ, IFMT);
   (OP_ADDI, IFMT); (OP_ADDIU, IFMT); (OP_SLTI, IFMT); (OP_SLTIU, IFMT);
   (OP_ANDI, IFMT); (OP_ORI, IFMT); (OP_XORI, IFMT); (OP_LUI, IFMT);
   (OP_UNIMP, IFMT); (OP_UNIMP, IFMT); (OP_UNIMP, IFMT); (OP_UNIMP, IFMT);
   (OP_RES, IFMT); (OP_RES, IFMT); (OP_RES, IFMT); (OP_RES, IFMT);
   (OP_RES, IFMT); (OP_RES, IFMT); (OP_RES, IFMT); (OP_RES, IFMT);
   (OP_RES, IFMT); (OP_RES, IFMT); (OP_RES, IFMT); (OP_RES, IFMT);
   (OP_LB, IFMT); (OP_LH, IFMT); (OP_LWL, IFMT); (OP_LW, IFMT);
   (OP_LBU, IFMT); (OP_LHU, IFMT); (OP_LWR, IFMT); (OP_RES, IFMT);
   (OP_SB, IFMT); (OP_SH, IFMT); (OP_SWL, IFMT); (OP_SW, IFMT);
   (OP_RES, IFMT); (OP_RES, IFMT); (OP_SWR, IFMT); (OP_RES, IFMT);
   (OP_UNIMP, IFMT); (OP_UNIMP, IFMT); (OP_UNIMP, IFMT); (OP_UNIMP, IFMT);
   (OP_RES, IFMT); (OP_RES, IFMT); (OP_RES, IFMT); (OP_RES, IFMT);
   (OP_UNIMP, IFMT); (OP_UNIMP, IFMT); (OP_UNIMP, IFMT); (OP_UNIMP, IFMT);
   (OP_RES, IFMT); (OP_RES, IFMT); (OP_RES, IFMT); (OP_RES, IFMT)].

Definition specialTable : list Op :=
  [OP_SLL; OP_RES; OP_SRL; OP_SRA; OP_SLLV; OP_RES; OP_SRLV; OP_SRAV;
   OP_JR; OP_JALR; OP_RES; OP_RES; OP_SYSCALL; OP_UNIMP; OP_RES; OP_RES;
   OP_MFHI; OP_MTHI; OP_MFLO; OP_MTLO; OP_RES; OP_RES; OP_RES; OP_RES;
   OP_MULT; OP_MULTU; OP_DIV; OP_DIVU; OP_RES; OP_RES; OP_RES; OP_RES;
   OP_ADD; OP_ADDU; OP_SUB; OP_SUBU; OP_AND; OP_OR; OP_XOR; OP_NOR;
   OP_RES; OP_RES; OP_SLT; OP_SLTU; OP_RES; OP_RES; OP_RES; OP_RES;
   OP_RES; OP_RES; OP_RES; OP_RES; OP_RES; OP_RES; OP_RES; OP_RES;
   OP_RES; OP_RES; OP_RES; OP_RES; OP_RES; OP_RES; OP_RES; OP_RES].

(** ** [Instruction::Decode] *)

Record Instruction := mkInstruction {
  opCode : Op;
  rs : Z;
  rt : Z;
  rd : Z;
  extra : Z }.

Definition decode_extra (value : Z) (format : Format) : Z :=
  match format with
  | IFMT =>
    let extra := Z.land value 65535 in
    if negb (Z.land extra 32768 =? 0) then wrap32 (Z.lor extra 4294901760) else extra
  | RFMT => Z.land (Z.shiftr value 6) 31
  | JFMT => Z.land value 67108863
  end.

Definition decode_bcond (value : Z) : Op :=
  let i := Z.land value 2031616 in
  if i =? 0 then OP_BLTZ
  else if i =? 65536 then OP_BGEZ
  else if i =? 1048576 then OP_BLTZAL
  else if i =? 1114112 then OP_BGEZAL
  else OP_UNIMP.

(** [value] is the unsigned instruction word. *)
Definition Decode (value : Z) : outcome Instruction :=
  opPtr ← arr_get opTable (Z.land (Z.shiftr value 26) 63);
  opc ← (if bool_decide (opPtr.1 = SPECIAL) then arr_get specialTable (Z.land value 63)
         else if bool_decide (opPtr.1 = BCOND) then Ok (decode_bcond value)
         else Ok opPtr.1);
  Ok (mkInstruction opc (Z.land (Z.shiftr value 21) 31) (Z.land (Z.shiftr value 16) 31)
        (Z.land (Z.shiftr value 11) 31) (decode_extra value opPtr.2)).

(** ** [Mult] *)

(** The shift-and-add loop: [n] rounds left.  [a] is a signed [int], the rest
    is unsigned. *)
Fixpoint Mult_loop (n : nat) (a bLo bHi lo hi : Z) : Z * Z :=
  match n with
  | O => (lo, hi)
  | S n' =>
    let '(lo, hi, stop) :=
      if negb (Z.land a 1 =? 0) then
        let lo := u32 (lo + bLo) in
        let hi := if lo <? bLo then u32 (hi + 1) else hi in
        let hi := u32 (hi + bHi) in
        (lo, hi, Z.land (u32 a) 4294967294 =? 0)
      else (lo, hi, false) in
    if (stop : bool) then (lo, hi)
    else
      let bHi := u32 (Z.shiftl bHi 1) in
      let bHi := if negb (Z.land bLo 2147483648 =? 0) then Z.lor bHi 1 else bHi in
      let bLo := u32 (Z.shiftl bLo 1) in
      Mult_loop n' (Z.shiftr a 1) bLo bHi lo hi
  end.

(** Returns what is stored at [hiPtr] and [loPtr]. *)
Definition Mult (a b : Z) (signedArith : bool) : Z * Z :=
  if (a =? 0) || (b =? 0) then (0, 0)
  else
    let negative := signedArith && xorb (a <? 0) (b <? 0) in
    let a := if signedArith && (a <? 0) then wrap32 (- a) else a in
    let b := if signedArith && (b <? 0) then wrap32 (- b) else b in
    let '(lo, hi) := Mult_loop 32 a (u32 b) 0 0 0 in
    let '(lo, hi) :=
      if negative then
        let hi := u32 (Z.lnot hi) in
        let lo := u32 (u32 (Z.lnot lo) + 1) in
        (lo, if lo =? 0 then u32 (hi + 1) else hi)
      else (lo, hi) in
    (wrap32 hi, wrap32 lo).

(** ** [Machine::OneInstruction] *)

(** How a case of the switch ends: [Stop] is an early return after an
    exception, [Next] a [break] with the load to delay and the next pc. *)
Inductive exec_result :=
| Stop
| Next (nextLoadReg nextLoadValue pcAfter : Z).

Definition sign_set (z : Z) : bool := negb (Z.land (u32 z) SIGN_BIT =? 0).

Section Exec.
Context {K : Type} (getPid : K -> Z).
Context (ExceptionHandler : ExceptionType -> M (Machine * K) unit).

Notation R := (@getR K).
Notation W := (@setR K).

Definition break (pcAfter : Z) : M (Machine * K) exec_result := mret (Next 0 0 pcAfter).

Definition raise (which : ExceptionType) (a : Z) : M (Machine * K) exec_result :=
  _ ← RaiseException ExceptionHandler which a; mret Stop.

(** Addition and subtraction. *)
Definition exec_add (i : Instruction) (pcAfter : Z) : M (Machine * K) exec_result :=
  match opCode i with
  | OP_ADD =>
    a ← R (rs i); b ← R (rt i);
    let sum := wrap32 (a + b) in
    if negb (sign_set (Z.lxor a b)) && sign_set (Z.lxor a sum) then raise OverflowException 0
    else _ ← W (rd i) sum; break pcAfter
  | OP_ADDI =>
    a ← R (rs i);
    let sum := wrap32 (a + extra i) in
    if negb (sign_set (Z.lxor a (extra i))) && sign_set (Z.lxor (extra i) sum)
    then raise OverflowException 0
    else _ ← W (rt i) sum; break pcAfter
  | OP_ADDIU => a ← R (rs i); _ ← W (rt i) (wrap32 (a + extra i)); break pcAfter
  | OP_ADDU => a ← R (rs i); b ← R (rt i); _ ← W (rd i) (wrap32 (a + b)); break pcAfter
  | OP_SUB =>
    a ← R (rs i); b ← R (rt i);
    let diff := wrap32 (a - b) in
    if sign_set (Z.lxor a b) && sign_set (Z.lxor a diff) then raise OverflowException 0
    else _ ← W (rd i) diff; break pcAfter
  | _ => a ← R (rs i); b ← R (rt i); _ ← W (rd i) (wrap32 (a - b)); break pcAfter
  end.

(** Bitwise operations ([OP_OR] as in the source: both operands are [rs]). *)
Definition exec_logic (i : Instruction) (pcAfter : Z) : M (Machine * K) exec_result :=
  a ← R (rs i); b ← R (rt i);
  let imm := Z.land (extra i) 65535 in
  _ ← match opCode i with
      | OP_AND => W (rd i) (Z.land a b)
      | OP_ANDI => W (rt i) (Z.land a imm)
      | OP_NOR => W (rd i) (Z.lnot (Z.lor a b))
      | OP_OR => W (rd i) (Z.lor a a)
      | OP_ORI => W (rt i) (Z.lor a imm)
      | OP_XOR => W (rd i) (Z.lxor a b)
      | _ => W (rt i) (Z.lxor a imm)
      end;
  break pcAfter.

(** Branches; the linking ones fall through to the plain ones. *)
Definition branch_taken (op : Op) (a b : Z) : bool :=
  match op with
  | OP_BEQ => a =? b
  | OP_BGEZ | OP_BGEZAL => negb (sign_set a)
  | OP_BGTZ => 0 <? a
  | OP_BLEZ => a <=? 0
  | OP_BLTZ | OP_BLTZAL => sign_set a
  | _ => negb (a =? b)
  end.

Definition exec_branch (i : Instruction) (pcAfter : Z) : M (Machine * K) exec_result :=
  n ← R NextPCReg;
  _ ← match opCode i with
      | OP_BGEZAL | OP_BLTZAL => W R31 (wrap32 (n + 4))
      | _ => mret tt
      end;
  a ← R (rs i); b ← R (rt i); n ← R NextPCReg;
  if branch_taken (opCode i) a b then break (wrap32 (n + IndexToAddr (extra i)))
  else break pcAfter.

(** Jumps. *)
Definition exec_jump (i : Instruction) (pcAfter : Z) : M (Machine * K) exec_result :=
  n ← R NextPCReg;
  let target := wrap32 (Z.lor (Z.land (u32 pcAfter) 4026531840) (u32 (IndexToAddr (extra i)))) in
  match opCode i with
  | OP_JAL => _ ← W R31 (wrap32 (n + 4)); break target
  | OP_J => break target
  | OP_JALR => _ ← W (rd i) (wrap32 (n + 4)); a ← R (rs i); break a
  | _ => a ← R (rs i); break a
  end.

(** Multiplication, division and the registers Hi and Lo.  The quotient of the
    least [int] by -1 does not fit: the host traps. *)
Definition exec_muldiv (i : Instruction) (pcAfter : Z) : M (Machine * K) exec_result :=
  match opCode i with
  | OP_DIV =>
    a ← R (rs i); b ← R (rt i);
    if b =? 0 then _ ← W LoReg 0; _ ← W HiReg 0; break pcAfter
    else if (a =? -2147483648) && (b =? -1) then fail BadAccess
    else _ ← W LoReg (Z.quot a b); _ ← W HiReg (Z.rem a b); break pcAfter
  | OP_DIVU =>
    a ← R (rs i); b ← R (rt i);
    if u32 b =? 0 then _ ← W LoReg 0; _ ← W HiReg 0; break pcAfter
    else _ ← W LoReg (wrap32 (u32 a / u32 b)); _ ← W HiReg (wrap32 (u32 a mod u32 b));
         break pcAfter
  | OP_MFHI => a ← R HiReg; _ ← W (rd i) a; break pcAfter
  | OP_MFLO => a ← R LoReg; _ ← W (rd i) a; break pcAfter
  | OP_MTHI => a ← R (rs i); _ ← W HiReg a; break pcAfter
  | OP_MTLO => a ← R (rs i); _ ← W LoReg a; break pcAfter
  | op =>
    a ← R (rs i); b ← R (rt i);
    let '(hi, lo) := Mult a b (bool_decide (op = OP_MULT)) in
    _ ← W HiReg hi; _ ← W LoReg lo; break pcAfter
  end.

(** Shifts ([OP_SRL] and [OP_SRLV] shift a signed [tmp], as in the source). *)
Definition exec_shift (i : Instruction) (pcAfter : Z) : M (Machine * K) exec_result :=
  a ← R (rs i); b ← R (rt i);
  let v := Z.land a 31 in
  _ ← match opCode i with
      | OP_LUI => W (rt i) (wrap32 (Z.shiftl (extra i) 16))
      | OP_SLL => W (rd i) (wrap32 (Z.shiftl b (extra i)))
      | OP_SLLV => W (rd i) (wrap32 (Z.shiftl b v))
      | OP_SRA => W (rd i) (Z.shiftr b (extra i))
      | OP_SRAV => W (rd i) (Z.shiftr b v)
      | OP_SRL => W (rd i) (Z.shiftr b (extra i))
      | _ => W (rd i) (Z.shiftr b v)
      end;
  break pcAfter.

(** Comparisons. *)
Definition exec_slt (i : Instruction) (pcAfter : Z) : M (Machine * K) exec_result :=
  a ← R (rs i); b ← R (rt i);
  let b2z (x : bool) := if x then 1 else 0 in
  _ ← match opCode i with
      | OP_SLT => W (rd i) (b2z (a <? b))
      | OP_SLTI => W (rt i) (b2z (a <? extra i))
      | OP_SLTIU => W (rt i) (b2z (u32 a <? u32 (extra i)))
      | _ => W (rd i) (b2z (u32 a <? u32 b))
      end;
  break pcAfter.

(** Loads of bytes, half words and words. *)
Definition exec_load (i : Instruction) (pcAfter : Z) : M (Machine * K) exec_result :=
  a ← R (rs i);
  let tmp := wrap32 (a + extra i) in
  match opCode i with
  | OP_LB | OP_LBU =>
    r ← ReadMem getPid ExceptionHandler tmp 1;
    match r with
    | None => mret Stop
    | Some value =>
      mret (Next (rt i)
        (if negb (Z.land value 128 =? 0) && bool_decide (opCode i = OP_LB)
         then wrap32 (Z.lor (u32 value) 4294967040) else Z.land value 255) pcAfter)
    end
  | OP_LH | OP_LHU =>
    if negb (Z.land tmp 1 =? 0) then raise AddressErrorException tmp
    else
      r ← ReadMem getPid ExceptionHandler tmp 2;
      match r with
      | None => mret Stop
      | Some value =>
        mret (Next (rt i)
          (if negb (Z.land value 32768 =? 0) && bool_decide (opCode i = OP_LH)
           then wrap32 (Z.lor (u32 value) 4294901760) else Z.land value 65535) pcAfter)
      end
  | _ =>
    if negb (Z.land tmp 3 =? 0) then raise AddressErrorException tmp
    else
      r ← ReadMem getPid ExceptionHandler tmp 4;
      match r with
      | None => mret Stop
      | Some value => mret (Next (rt i) value pcAfter)
      end
  end.

(** What [OP_LWL] and [OP_LWR] combine, by the low bits of the address. *)
Definition lwl_value (low old value : Z) : Z :=
  if low =? 0 then value
  else if low =? 1 then wrap32 (Z.lor (Z.land old 255) (Z.shiftl value 8))
  else if low =? 2 then wrap32 (Z.lor (Z.land old 65535) (Z.shiftl value 16))
  else wrap32 (Z.lor (Z.land old 16777215) (Z.shiftl value 24)).

Definition lwr_value (low old value : Z) : Z :=
  if low =? 0 then wrap32 (Z.lor (Z.land (u32 old) 4294967040) (Z.land (Z.shiftr value 24) 255))
  else if low =? 1 then
    wrap32 (Z.lor (Z.land (u32 old) 4294901760) (Z.land (Z.shiftr value 16) 65535))
  else if low =? 2 then
    wrap32 (Z.lor (Z.land (u32 old) 4278190080) (Z.land (Z.shiftr value 8) 16777215))
  else value.

Definition exec_load_partial (i : Instruction) (pcAfter : Z) : M (Machine * K) exec_result :=
  a ← R (rs i);
  let tmp := wrap32 (a + extra i) in
  let low := Z.land tmp 3 in
  _ ← ASSERT (low =? 0);
  r ← ReadMem getPid ExceptionHandler tmp 4;
  match r with
  | None => mret Stop
  | Some value =>
    l ← R LoadReg;
    old ← (if l =? rt i then R LoadValueReg else R (rt i));
    mret (Next (rt i)
      (if bool_decide (opCode i = OP_LWL) then lwl_value low old value
       else lwr_value low old value) pcAfter)
  end.

(** Stores. *)
Definition exec_store (i : Instruction) (pcAfter : Z) : M (Machine * K) exec_result :=
  a ← R (rs i); b ← R (rt i);
  ok ← WriteMem getPid ExceptionHandler (wrap32 (a + extra i))
         match opCode i with OP_SB => 1 | OP_SH => 2 | _ => 4 end b;
  if (ok : bool) then break pcAfter else mret Stop.

Definition swl_value (low value b : Z) : Z :=
  if low =? 0 then b
  else if low =? 1 then
    wrap32 (Z.lor (Z.land (u32 value) 4278190080) (Z.land (Z.shiftr b 8) 16777215))
  else if low =? 2 then
    wrap32 (Z.lor (Z.land (u32 value) 4294901760) (Z.land (Z.shiftr b 16) 65535))
  else wrap32 (Z.lor (Z.land (u32 value) 4294967040) (Z.land (Z.shiftr b 24) 255)).

Definition swr_value (low value b : Z) : Z :=
  if low =? 0 then wrap32 (Z.lor (Z.land value 16777215) (Z.shiftl b 24))
  else if low =? 1 then wrap32 (Z.lor (Z.land value 65535) (Z.shiftl b 16))
  else if low =? 2 then wrap32 (Z.lor (Z.land value 255) (Z.shiftl b 8))
  else b.

Definition exec_store_partial (i : Instruction) (pcAfter : Z) : M (Machine * K) exec_result :=
  a ← R (rs i);
  let tmp := wrap32 (a + extra i) in
  let low := Z.land tmp 3 in
  let word := Z.land tmp (Z.lnot 3) in
  _ ← ASSERT (low =? 0);
  r ← ReadMem getPid ExceptionHandler word 4;
  match r with
  | None => mret Stop
  | Some value =>
    b ← R (rt i);
    ok ← WriteMem getPid ExceptionHandler word 4
           (if bool_decide (opCode i = OP_SWL) then swl_value low value b
            else swr_value low value b);
    if (ok : bool) then break pcAfter else mret Stop
  end.

(** The switch. *)
Definition execute (i : Instruction) (pcAfter : Z) : M (Machine * K) exec_result :=
  match opCode i with
  | OP_ADD | OP_ADDI | OP_ADDIU | OP_ADDU | OP_SUB | OP_SUBU => exec_add i pcAfter
  | OP_AND | OP_ANDI | OP_NOR | OP_OR | OP_ORI | OP_XOR | OP_XORI => exec_logic i pcAfter
  | OP_BEQ | OP_BGEZ | OP_BGEZAL | OP_BGTZ | OP_BLEZ | OP_BLTZ | OP_BLTZAL | OP_BNE =>
      exec_branch i pcAfter
  | OP_J | OP_JAL | OP_JALR | OP_JR => exec_jump i pcAfter
  | OP_DIV | OP_DIVU | OP_MFHI | OP_MFLO | OP_MTHI | OP_MTLO | OP_MULT | OP_MULTU =>
      exec_muldiv i pcAfter
  | OP_LUI | OP_SLL | OP_SLLV | OP_SRA | OP_SRAV | OP_SRL | OP_SRLV => exec_shift i pcAfter
  | OP_SLT | OP_SLTI | OP_SLTIU | OP_SLTU => exec_slt i pcAfter
  | OP_LB | OP_LBU | OP_LH | OP_LHU | OP_LW => exec_load i pcAfter
  | OP_LWL | OP_LWR => exec_load_partial i pcAfter
  | OP_SB | OP_SH | OP_SW => exec_store i pcAfter
  | OP_SWL | OP_SWR => exec_store_partial i pcAfter
  | OP_SYSCALL => raise SyscallException 0
  | OP_RES | OP_UNIMP => raise IllegalInstrException 0
  | OP_RFE | SPECIAL | BCOND => fail AssertFailure
  end.

Definition OneInstruction : M (Machine * K) unit :=
  pc ← R PCReg;
  raw ← ReadMem getPid ExceptionHandler pc 4;
  match raw with
  | None => mret tt
  | Some raw =>
    i ← lift (Decode (u32 raw));
    n ← R NextPCReg;
    r ← execute i (wrap32 (n + 4));
    match r with
    | Stop => mret tt
    | Next nextLoadReg nextLoadValue pcAfter =>
      _ ← DelayedLoad nextLoadReg nextLoadValue;
      pc ← R PCReg; _ ← W PrevPCReg pc;
      n ← R NextPCReg; _ ← W PCReg n;
      W NextPCReg pcAfter
    end
  end.

(** [Machine::Run] for [n] instructions; [OneTick] is the clock tick of the
    interrupt simulation.  The debugger is not modelled. *)
Fixpoint Run_loop (OneTick : M (Machine * K) unit) (n : nat) : M (Machine * K) unit :=
  match n with
  | O => mret tt
  | S n' => _ ← OneInstruction; _ ← OneTick; Run_loop OneTick n'
  end.

Definition Run (OneTick : M (Machine * K) unit) (n : nat) : M (Machine * K) unit :=
  _ ← on_machine (modify (set_status UserMode));
  Run_loop OneTick n.

End Exec.

(** ** Decoding *)

(** What the rest of the simulator relies on. *)
Record instr_ok (i : Instruction) : Prop := {
  io_rs : 0 <= rs i < 32;
  io_rt : 0 <= rt i < 32;
  io_rd : 0 <= rd i < 32;
  io_extra : is_int (extra i);
  io_op : opCode i <> OP_RFE /\ opCode i <> SPECIAL /\ opCode i <> BCOND;
  io_shamt : opCode i ∈ [OP_SLL; OP_SRL; OP_SRA] -> 0 <= extra i < 32 }.

Lemma land_ones_range v k : 0 <= k -> 0 <= Z.land v (Z.ones k) < 2 ^ k.
Proof. intros Hk. rewrite Z.land_ones by done. apply Z.mod_pos_bound. lia. Qed.

Lemma decode_extra_range v f :
  is_int (decode_extra v f) /\ (f = RFMT -> 0 <= decode_extra v f < 32).
Proof.
  assert (R1 := land_ones_range v 16 ltac:(lia)).
  assert (R2 := land_ones_range (Z.shiftr v 6) 5 ltac:(lia)).
  assert (R3 := land_ones_range v 26 ltac:(lia)).
  change (Z.ones 16) with 65535 in R1. change (Z.ones 5) with 31 in R2.
  change (Z.ones 26) with 67108863 in R3.
  destruct f; cbn [decode_extra]; (split; [|try done]).
  - case_match; [apply wrap32_range|]. unfold is_int. lia.
  - unfold is_int. lia.
  - unfold is_int. lia.
Qed.

Definition plain_op (o : Op) : bool :=
  bool_decide (o <> OP_RFE /\ o <> SPECIAL /\ o <> BCOND).
Definition shift_op (o : Op) : bool := bool_decide (o ∈ [OP_SLL; OP_SRL; OP_SRA]).

(** The tables: only entry 0 leads to the second table and only entry 1 to
    the branch decoder; shifts by an amount are in the second table only. *)
Lemma opTable_ok :
  forallb (fun e => bool_decide (e.1 = SPECIAL) && bool_decide (e.2 = RFMT) ||
                    bool_decide (e.1 = BCOND) || plain_op e.1 && negb (shift_op e.1)) opTable
  && forallb plain_op specialTable = true.
Proof. by vm_compute. Qed.

Lemma Decode_ok value : exists i, Decode value = Ok i /\ instr_ok i.
Proof.
  pose proof opTable_ok as T. apply andb_true_iff in T as [T1 T2].
  rewrite forallb_forall in T1. rewrite forallb_forall in T2.
  assert (N : forall (A : Type) (l : list A) v k, length l = Z.to_nat (2 ^ k) -> 0 <= k ->
    exists x, arr_get l (Z.land v (Z.ones k)) = Ok x /\ In x l).
  { intros A l v k Hl Hk. pose proof (land_ones_range v k Hk).
    destruct (lookup_lt_is_Some_2 l (Z.to_nat (Z.land v (Z.ones k)))) as [x Hx]; [lia|].
    exists x. split; [apply arr_get_in; [lia|done]|]. apply list_elem_of_In.
    by eapply list_elem_of_lookup_2. }
  destruct (N _ opTable (Z.shiftr value 26) 6 eq_refl ltac:(lia)) as ([o f] & E1 & I1).
  destruct (N _ specialTable value 6 eq_refl ltac:(lia)) as (o2 & E2 & I2).
  change (Z.ones 6) with 63 in E1, E2. unfold Decode. rewrite E1. cbn [mbind outcome_bind fst snd].
  specialize (T1 _ I1). specialize (T2 _ I2). cbn [fst snd] in T1.
  destruct (decode_extra_range value f) as [X1 X2].
  assert (F1 := land_ones_range (Z.shiftr value 21) 5 ltac:(lia)).
  assert (F2 := land_ones_range (Z.shiftr value 16) 5 ltac:(lia)).
  assert (F3 := land_ones_range (Z.shiftr value 11) 5 ltac:(lia)).
  change (Z.ones 5) with 31 in F1, F2, F3. change (2 ^ 5) with 32 in F1, F2, F3.
  unfold plain_op, shift_op in *. destruct (bool_decide_reflect (o = SPECIAL)) as [C1|C1].
  - rewrite E2. cbn. eexists. split; [reflexivity|]. constructor; cbn; try done.
    + by apply bool_decide_eq_true in T2.
    + intros _. apply X2. subst o. destruct f; [by vm_compute in T1..|done].
  - destruct (bool_decide_reflect (o = BCOND)) as [C2|C2]; cbn [mbind outcome_bind].
    + eexists. split; [reflexivity|]. constructor; cbn; try done.
      * unfold decode_bcond. repeat case_match; done.
      * unfold decode_bcond. repeat case_match; intros Hs;
          apply list_elem_of_In in Hs; cbn in Hs; intuition done.
    + eexists. split; [reflexivity|].
      cbn [andb orb] in T1.
      rewrite andb_true_iff, negb_true_iff, bool_decide_eq_true, bool_decide_eq_false in T1.
      constructor; cbn; try done; [apply T1|]. intros H. by destruct T1.
Qed.

(** ** Multiplication *)

Lemma land1_mod a : Z.land a 1 = a mod 2.
Proof. change 1 with (Z.ones 1). by rewrite Z.land_ones. Qed.

Lemma testbit31 x : is_uint x -> negb (Z.land x 2147483648 =? 0) = (2147483648 <=? x).
Proof.
  intros Hx. change 2147483648 with (Z.shiftl 1 31) at 1.
  rewrite land_mask_nonzero by lia. unfold is_uint in Hx.
  rewrite Z.testbit_odd, Z.shiftr_div_pow2 by lia.
  destruct (Z.leb_spec 2147483648 x).
  - replace (x / 2 ^ 31) with 1; [done|]. apply Z.div_unique with (x - 2 ^ 31); lia.
  - by rewrite Z.div_small by lia.
Qed.

Lemma u32_split a : exists k, u32 a = a + 4294967296 * k.
Proof.
  exists (- (a / 4294967296)). unfold u32. rewrite Z.mod_eq by lia. lia.
Qed.

(** Bit [i] of an [int] is bit [i] of its unsigned reading. *)
Lemma shiftr_bit a0 i :
  0 <= i < 32 -> (Z.shiftr a0 i) mod 2 = (u32 a0 / 2 ^ i) mod 2.
Proof.
  intros Hi. rewrite Z.shiftr_div_pow2 by lia. destruct (u32_split a0) as [k ->].
  replace 4294967296 with (2 ^ i * (2 * 2 ^ (31 - i))).
  - rewrite <- (Z.mul_assoc (2 ^ i)), (Z.mul_comm (2 ^ i)).
    rewrite Z.div_add by (apply Z.pow_nonzero; lia).
    replace (2 * 2 ^ (31 - i) * k) with (2 ^ (31 - i) * k * 2) by lia.
    by rewrite Z.mod_add by lia.
  - rewrite <- Z.pow_succ_r, <- Z.pow_add_r by lia.
    replace (i + Z.succ (31 - i)) with 32 by lia. done.
Qed.

Lemma mod_pow_succ A i :
  0 <= i -> A mod 2 ^ (i + 1) = A mod 2 ^ i + 2 ^ i * ((A / 2 ^ i) mod 2).
Proof.
  intros Hi. rewrite Z.pow_add_r by lia. change (2 ^ 1) with 2.
  apply Z.rem_mul_r; [apply Z.pow_nonzero; lia|lia].
Qed.

(** One addition of the double word. *)
Lemma add_double lo hi bLo bHi :
  is_uint lo -> is_uint hi -> is_uint bLo -> is_uint bHi ->
  hi * 4294967296 + lo + (bHi * 4294967296 + bLo) < 18446744073709551616 ->
  let lo1 := u32 (lo + bLo) in
  let hi1 := u32 ((if lo1 <? bLo then u32 (hi + 1) else hi) + bHi) in
  is_uint lo1 /\ is_uint hi1 /\
  hi1 * 4294967296 + lo1 = hi * 4294967296 + lo + (bHi * 4294967296 + bLo).
Proof.
  unfold is_uint. intros H1 H2 H3 H4 H5. cbv zeta.
  assert (C : (lo + bLo < 4294967296 /\ u32 (lo + bLo) = lo + bLo) \/
              (4294967296 <= lo + bLo /\ u32 (lo + bLo) = lo + bLo - 4294967296)).
  { unfold u32. destruct (Z.lt_ge_cases (lo + bLo) 4294967296).
    - left. split; [done|]. apply Z.mod_small. lia.
    - right. split; [done|]. symmetry. apply Z.mod_unique with 1; lia. }
  destruct C as [[C1 ->]|[C1 ->]].
  - destruct (Z.ltb_spec (lo + bLo) bLo); [lia|].
    rewrite u32_small by (unfold is_uint; lia). lia.
  - destruct (Z.ltb_spec (lo + bLo - 4294967296) bLo); [|lia].
    rewrite (u32_small (hi + 1)) by (unfold is_uint; lia).
    rewrite u32_small by (unfold is_uint; lia). lia.
Qed.

(** One doubling of the double word. *)
Lemma double_double bLo bHi :
  is_uint bLo -> is_uint bHi -> bHi * 4294967296 + bLo < 9223372036854775808 ->
  let bHi1 := u32 (Z.shiftl bHi 1) in
  let bHi2 := if negb (Z.land bLo 2147483648 =? 0) then Z.lor bHi1 1 else bHi1 in
  let bLo2 := u32 (Z.shiftl bLo 1) in
  is_uint bLo2 /\ is_uint bHi2 /\
  bHi2 * 4294967296 + bLo2 = 2 * (bHi * 4294967296 + bLo).
Proof.
  intros H1 H2 H3. cbv zeta. rewrite testbit31 by done. unfold is_uint in *.
  rewrite !Z.shiftl_mul_pow2 by lia. change (2 ^ 1) with 2.
  rewrite (u32_small (bHi * 2)) by (unfold is_uint; lia).
  assert (L : Z.lor (bHi * 2) 1 = bHi * 2 + 1).
  { rewrite Z.mul_comm. symmetry.
    apply Z.bits_inj'. intros n Hn. rewrite Z.lor_spec.
    destruct (Z.eq_dec n 0) as [->|Hn0].
    - rewrite Z.testbit_odd_0, Z.testbit_even_0. done.
    - replace n with (Z.succ (n - 1)) by lia.
      rewrite Z.testbit_odd_succ, Z.testbit_even_succ by lia.
      replace 1 with (2 * 0 + 1) at 3 by lia. rewrite Z.testbit_odd_succ by lia.
      by rewrite Z.bits_0, orb_false_r. }
  destruct (Z.leb_spec 2147483648 bLo).
  - rewrite L. assert (u32 (bLo * 2) = bLo * 2 - 4294967296) as ->.
    { unfold u32. symmetry. apply Z.mod_unique with 1; lia. }
    lia.
  - rewrite u32_small by (unfold is_uint; lia). lia.
Qed.

Lemma land_fffffffe x : is_uint x -> (Z.land x 4294967294 =? 0) = (x <? 2).
Proof.
  intros Hx. unfold is_uint in Hx.
  assert (E : Z.shiftr (Z.land x 4294967294) 1 = x / 2).
  { rewrite Z.shiftr_land. change (Z.shiftr 4294967294 1) with (Z.ones 31).
    rewrite Z.shiftr_div_pow2, Z.land_ones by lia. change (2 ^ 1) with 2.
    apply Z.mod_small. split; [apply Z.div_pos; lia|].
    apply Z.div_lt_upper_bound; lia. }
  assert (B0 : Z.land x 4294967294 mod 2 = 0).
  { rewrite <- land1_mod, <- Z.land_assoc. change (Z.land 4294967294 1) with 0.
    apply Z.land_0_r. }
  rewrite Z.shiftr_div_pow2 in E by lia. change (2 ^ 1) with 2 in E.
  assert (Z.land x 4294967294 = 2 * (x / 2)) by (rewrite <- E; Z.div_mod_to_equations; lia).
  destruct (Z.eqb_spec (Z.land x 4294967294) 0), (Z.ltb_spec x 2); try done;
    Z.div_mod_to_equations; lia.
Qed.

(** Early exit: the rest of the multiplier is its lowest bit. *)
Lemma shiftr_last a0 i :
  is_int a0 -> 0 <= i < 32 -> u32 (Z.shiftr a0 i) < 2 -> u32 a0 < 2 ^ (i + 1).
Proof.
  intros Ha Hi. rewrite Z.shiftr_div_pow2 by lia. unfold is_int in Ha.
  assert (0 < 2 ^ i) by (apply Z.pow_pos_nonneg; lia).
  assert (2 ^ (i + 1) = 2 * 2 ^ i) as -> by (rewrite Z.pow_add_r; lia).
  destruct (Z.lt_ge_cases a0 0).
  - assert (a0 / 2 ^ i < 0) by (apply Z.div_lt_upper_bound; lia).
    assert (-2147483648 <= a0 / 2 ^ i) by (apply Z.div_le_lower_bound; nia).
    unfold u32.
    rewrite <- (Z.mod_unique (a0 / 2 ^ i) 4294967296 (-1) (a0 / 2 ^ i + 4294967296)) by lia.
    lia.
  - assert (0 <= a0 / 2 ^ i) by (apply Z.div_pos; lia).
    assert (a0 / 2 ^ i <= a0) by (apply Z.div_le_upper_bound; nia).
    rewrite !u32_small by (unfold is_uint; lia). intros.
    pose proof (Z.div_mod a0 (2 ^ i) ltac:(lia)).
    pose proof (Z.mod_pos_bound a0 (2 ^ i) ltac:(lia)). nia.
Qed.

(** The loop invariant: in round [i], [bHi:bLo] is [b * 2^i] and [hi:lo] the
    product of [b] with the low [i] bits of [a]. *)
Lemma Mult_loop_spec n : forall i a0 B bLo bHi lo hi,
  is_int a0 -> is_uint B -> 0 <= i -> i + Z.of_nat n = 32 ->
  is_uint bLo -> is_uint bHi -> is_uint lo -> is_uint hi ->
  bHi * 4294967296 + bLo = B * 2 ^ i ->
  hi * 4294967296 + lo = B * (u32 a0 mod 2 ^ i) ->
  let r := Mult_loop n (Z.shiftr a0 i) bLo bHi lo hi in
  is_uint r.1 /\ is_uint r.2 /\ r.2 * 4294967296 + r.1 = B * u32 a0.
Proof.
  induction n as [|n IH]; intros i a0 B bLo bHi lo hi Ha HB Hi Hn H1 H2 H3 H4 E1 E2; cbv zeta.
  - replace i with 32 in * by lia. change (2 ^ 32) with 4294967296 in *. cbn [Mult_loop fst snd].
    pose proof (u32_range a0). rewrite Z.mod_small in E2 by done. done.
  - cbn [Mult_loop]. rewrite land1_mod, shiftr_bit by lia.
    pose proof (u32_range a0) as Ra. pose proof (mod_pow_succ (u32 a0) i Hi) as Hm.
    assert (P0 : 0 < 2 ^ i) by (apply Z.pow_pos_nonneg; lia).
    assert (P1 : 2 ^ i <= 2 ^ 31) by (apply Z.pow_le_mono_r; lia).
    assert (P2 : 2 ^ (i + 1) = 2 * 2 ^ i) by (rewrite Z.pow_add_r; lia).
    assert (Hb := Z.mod_pos_bound (u32 a0 / 2 ^ i) 2 ltac:(lia)).
    assert (Hq := Z.mod_pos_bound (u32 a0) (2 ^ i) P0).
    change (2 ^ 31) with 2147483648 in P1. unfold is_uint in HB.
    destruct (double_double bLo bHi H1 H2 ltac:(nia)) as (D1 & D2 & D3).
    rewrite land_fffffffe by apply u32_range.
    assert (Hsh : Z.shiftr (Z.shiftr a0 i) 1 = Z.shiftr a0 (i + 1))
      by (rewrite Z.shiftr_shiftr; [done|lia]).
    set (bit := (u32 a0 / 2 ^ i) mod 2) in *.
    destruct (Z.eqb_spec bit 0) as [Hz|Hz]; cbn [negb].
    + rewrite Hsh. apply (IH (i + 1) a0 B); try done; try lia.
    + assert (bit = 1) as Hb1 by lia. rewrite Hb1 in Hm.
      destruct (add_double lo hi bLo bHi) as (A1 & A2 & A3); try done.
      { rewrite E1, E2. nia. }
      assert (A4 : u32 ((if u32 (lo + bLo) <? bLo then u32 (hi + 1) else hi) + bHi) * 4294967296
        + u32 (lo + bLo) = B * (u32 a0 mod 2 ^ (i + 1))) by (rewrite A3, E1, E2, Hm; lia).
      destruct (Z.ltb_spec (u32 (Z.shiftr a0 i)) 2) as [Hs|Hs].
      * cbn [fst snd]. split; [done|]. split; [done|]. rewrite A4.
        rewrite Z.mod_small; [done|]. split; [apply Ra|].
        apply shiftr_last; [done|lia|done].
      * rewrite Hsh. apply (IH (i + 1) a0 B); try done; try lia.
Qed.

(** Two's complement of a double word. *)
Lemma negate_double lo hi :
  is_uint lo -> is_uint hi ->
  let lo1 := u32 (u32 (Z.lnot lo) + 1) in
  let hi1 := if lo1 =? 0 then u32 (u32 (Z.lnot hi) + 1) else u32 (Z.lnot hi) in
  is_uint lo1 /\ is_uint hi1 /\
  (hi1 * 4294967296 + lo1 + (hi * 4294967296 + lo)) mod 18446744073709551616 = 0.
Proof.
  unfold is_uint. intros H1 H2. cbv zeta. split; [apply u32_range|].
  assert (N : forall x, 0 <= x < 4294967296 -> u32 (Z.lnot x) = 4294967295 - x).
  { intros x Hx. unfold u32, Z.lnot. symmetry. apply Z.mod_unique with (-1); lia. }
  rewrite !N by done. destruct (Z.eq_dec lo 0) as [->|].
  - change (u32 (4294967295 - 0 + 1)) with 0. cbn [Z.eqb]. split; [apply u32_range|].
    destruct (Z.eq_dec hi 0) as [->|]; [by vm_compute|].
    rewrite u32_small by (unfold is_uint; lia).
    symmetry. apply Z.mod_unique with 1; lia.
  - rewrite (u32_small (4294967295 - lo + 1)) by (unfold is_uint; lia).
    destruct (Z.eqb_spec (4294967295 - lo + 1) 0); [lia|]. split; [lia|].
    symmetry. apply Z.mod_unique with 1; lia.
Qed.

(** The unsigned product of the absolute values, negated when asked to. *)
Lemma Mult_core a b :
  is_int a -> is_int b ->
  let r := Mult_loop 32 a (u32 b) 0 0 0 in
  is_uint r.1 /\ is_uint r.2 /\ r.2 * 4294967296 + r.1 = u32 b * u32 a.
Proof.
  intros Ha Hb. pose proof (u32_range b) as Rb.
  apply (Mult_loop_spec 32 0 a (u32 b)); try done;
    change (2 ^ 0) with 1; rewrite ?Z.mod_1_r; lia.
Qed.

(** The signed reading of a double word is the one value of its range with
    the right residue. *)
Lemma signed_double hi lo v :
  is_uint hi -> is_uint lo -> -9223372036854775808 <= v < 9223372036854775808 ->
  (hi * 4294967296 + lo - v) mod 18446744073709551616 = 0 ->
  wrap32 hi * 4294967296 + u32 (wrap32 lo) = v.
Proof.
  intros Hh Hl Hv E. rewrite u32_wrap32, (u32_small lo) by done. unfold is_uint in *.
  apply Z.mod_divide in E as [k E]; [|lia].
  assert (C : hi < 2147483648 /\ wrap32 hi = hi \/
              2147483648 <= hi /\ wrap32 hi = hi - 4294967296).
  { destruct (Z.lt_ge_cases hi 2147483648).
    - left. split; [done|]. apply wrap32_small. unfold is_int. lia.
    - right. split; [done|]. unfold wrap32.
      rewrite <- (Z.mod_unique (hi + 2147483648) 4294967296 1 (hi - 2147483648)); lia. }
  destruct C as [[? ->]|[? ->]]; lia.
Qed.

Lemma u32_abs a : is_int a -> u32 (if a <? 0 then wrap32 (- a) else a) = Z.abs a.
Proof.
  unfold is_int. intros Ha. destruct (Z.ltb_spec a 0).
  - rewrite u32_wrap32, u32_small; unfold is_uint; lia.
  - rewrite u32_small; unfold is_uint; lia.
Qed.

Lemma Mult_signed a b : is_int a -> is_int b ->
  let '(hi, lo) := Mult a b true in
  is_int hi /\ is_int lo /\ hi * 4294967296 + u32 lo = a * b.
Proof.
  intros Ha Hb. unfold Mult.
  destruct (Z.eqb_spec a 0) as [->|Ha0]; [by vm_compute; repeat split|].
  destruct (Z.eqb_spec b 0) as [->|Hb0].
  { cbn [orb]. unfold is_int. change (u32 0) with 0. rewrite !Z.mul_0_r. lia. }
  cbn [orb andb]. set (a' := if a <? 0 then _ else _). set (b' := if b <? 0 then _ else _).
  assert (is_int a') by (unfold a'; case_match; [apply wrap32_range|done]).
  assert (is_int b') by (unfold b'; case_match; [apply wrap32_range|done]).
  destruct (Mult_core a' b') as (L1 & L2 & L3); [done..|].
  destruct (Mult_loop 32 a' (u32 b') 0 0 0) as [lo hi]. cbn [fst snd] in L1, L2, L3.
  replace (u32 a') with (Z.abs a) in L3 by (symmetry; by apply u32_abs).
  replace (u32 b') with (Z.abs b) in L3 by (symmetry; by apply u32_abs).
  assert (HP : 0 <= Z.abs a * Z.abs b <= 4611686018427387904)
    by (unfold is_int in Ha, Hb; nia).
  destruct (negate_double lo hi) as (N1 & N2 & N3); [done..|].
  destruct (xorb (a <? 0) (b <? 0)) eqn:X; (splits; [apply wrap32_range..|]);
    apply signed_double; try done; try (unfold is_int in Ha, Hb; nia).
  - assert (a * b = - (Z.abs b * Z.abs a)) as ->
      by (destruct (Z.ltb_spec a 0), (Z.ltb_spec b 0); try done; nia).
    rewrite <- L3, Z.sub_opp_r. exact N3.
  - assert (a * b = Z.abs b * Z.abs a) as ->
      by (destruct (Z.ltb_spec a 0), (Z.ltb_spec b 0); try done; nia).
    by rewrite <- L3, Z.sub_diag.
Qed.

Lemma Mult_unsigned a b : is_int a -> is_int b ->
  let '(hi, lo) := Mult a b false in
  is_int hi /\ is_int lo /\ u32 hi * 4294967296 + u32 lo = u32 a * u32 b.
Proof.
  intros Ha Hb. unfold Mult.
  destruct (Z.eqb_spec a 0) as [->|Ha0]; [by vm_compute; repeat split|].
  destruct (Z.eqb_spec b 0) as [->|Hb0].
  { cbn [orb]. unfold is_int. change (u32 0) with 0. rewrite !Z.mul_0_r. lia. }
  cbn [orb andb]. destruct (Mult_core a b) as (L1 & L2 & L3); [done..|].
  destruct (Mult_loop 32 a (u32 b) 0 0 0) as [lo hi]. cbn [fst snd] in L1, L2, L3.
  splits; [apply wrap32_range..|]. rewrite !u32_wrap32, (u32_small hi), (u32_small lo) by done. lia.
Qed.

(** C24: [Mult] is multiplication: the signed reading of [hi:lo] is the exact
    64-bit product of the two registers, and without [signedArith] the unsigned
    reading of [hi:lo] is the product of their unsigned readings; both words
    are [int]s. *)
Theorem mips_Mult_correct a b :
  is_int a -> is_int b ->
  (let '(hi, lo) := Mult a b true in
   is_int hi /\ is_int lo /\ hi * 4294967296 + u32 lo = a * b) /\
  (let '(hi, lo) := Mult a b false in
   is_int hi /\ is_int lo /\ u32 hi * 4294967296 + u32 lo = u32 a * u32 b).
Proof. intros Ha Hb. split; [by apply Mult_signed|by apply Mult_unsigned]. Qed.

Lemma mips_Mult_correct_witness :
  (let '(hi, lo) := Mult (-2147483648) (-5) true in
   is_int hi /\ is_int lo /\ hi * 4294967296 + u32 lo = 10737418240) /\
  (let '(hi, lo) := Mult (-2147483648) (-5) false in
   is_int hi /\ is_int lo /\ u32 hi * 4294967296 + u32 lo = 2147483648 * 4294967291).
Proof. apply (mips_Mult_correct (-2147483648) (-5)); unfold is_int; lia. Defined.

(** ** Running one instruction *)

(** The instructions that bring the simulator itself down: partial-word
    accesses that are not aligned, and the one signed division whose quotient
    is out of range. *)
Definition instr_traps (i : Instruction) (regs : list Z) : option fault :=
  let a := nth (Z.to_nat (rs i)) regs 0 in
  let b := nth (Z.to_nat (rt i)) regs 0 in
  match opCode i with
  | OP_LWL | OP_LWR | OP_SWL | OP_SWR =>
    if Z.land (wrap32 (a + extra i)) 3 =? 0 then None else Some AssertFailure
  | OP_DIV => if (a =? -2147483648) && (b =? -1) then Some BadAccess else None
  | _ => None
  end.

Section ExecWp.
Context {K : Type} (getPid : K -> Z).
Context (ExceptionHandler : ExceptionType -> M (Machine * K) unit) (I : K -> Prop).

Definition exec_post (r : exec_result) (s : Machine * K) : Prop :=
  match r with
  | Stop => mach_ok s.1 /\ I s.2
  | Next l v pc => mach_wf s.1 /\ I s.2 /\ 0 <= l < 32 /\ is_int v /\ is_int pc
  end.

Ltac ints := auto with ints.

(** Walk through straight-line register code. *)
Ltac wp_run :=
  repeat match goal with
  | |- wp (_ ≫= _) _ _ _ => apply wp_bind
  | |- wp (getR _) _ _ _ => apply wp_getR; [assumption|regs|intros ? ? ?]
  | |- wp (setR _ _) _ _ _ => apply wp_setR; [assumption|regs|ints|regs|intros ? _ ?; cbn [fst snd]]
  | |- wp (mret _) _ _ _ => apply wp_ret
  | |- wp (break _) _ _ _ => unfold break
  | |- wp (if _ then _ else _) _ _ _ => apply wp_if; intros ?
  | |- exec_post (Next _ _ _) _ => refine (conj _ (conj _ (conj _ (conj _ _)))); [assumption|assumption|regs|ints|ints]
  end.

Context (F : fault -> Prop) `{!HandlerOk ExceptionHandler I F}.
Variables (i : Instruction) (pc : Z) (s : Machine * K).
Hypotheses (Hi : instr_ok i) (Hpc : is_int pc) (Hs : mach_wf s.1) (Hk : I s.2).

Let Hrs := io_rs i Hi.
Let Hrt := io_rt i Hi.
Let Hrd := io_rd i Hi.
Let Hex := io_extra i Hi.

Lemma wp_raise which a (s' : Machine * K) :
  mach_wf s'.1 -> I s'.2 -> is_int a -> wp (raise ExceptionHandler which a) F exec_post s'.
Proof.
  intros H1 H2 H3. unfold raise. eapply wp_bind, wp_RaiseException; [done..|].
  intros s1 H4 H5. apply wp_ret. done.
Qed.

Lemma wp_exec_add : wp (exec_add ExceptionHandler i pc) F exec_post s.
Proof.
  unfold exec_add. destruct (opCode i); wp_run; apply wp_raise; ints.
Qed.

Lemma wp_exec_logic : wp (exec_logic i pc) F exec_post s.
Proof. unfold exec_logic. wp_run. destruct (opCode i); wp_run. Qed.

Lemma wp_exec_branch : wp (exec_branch i pc) F exec_post s.
Proof. unfold exec_branch, IndexToAddr, R31. destruct (opCode i); wp_run. Qed.

Lemma wp_exec_jump : wp (exec_jump i pc) F exec_post s.
Proof. unfold exec_jump, R31. destruct (opCode i); wp_run. Qed.

Lemma wp_exec_slt : wp (exec_slt i pc) F exec_post s.
Proof. unfold exec_slt. wp_run. destruct (opCode i); wp_run; case_match; ints. Qed.

Lemma wp_exec_shift : (opCode i ∈ [OP_SLL; OP_SRL; OP_SRA] -> 0 <= extra i < 32) ->
  wp (exec_shift i pc) F exec_post s.
Proof.
  intros Hsh. unfold exec_shift. wp_run. 
  assert (0 <= Z.land v 31) by (apply Z.land_nonneg; right; lia).
  revert Hsh. destruct (opCode i); intros Hsh; wp_run; apply is_int_shr; try done;
    apply Hsh; apply list_elem_of_In; cbn; auto.
Qed.

(** Quotient and remainder of [int]s, and what they need to be so. *)
Lemma Mult_range a b signed : is_int (Mult a b signed).1 /\ is_int (Mult a b signed).2.
Proof.
  unfold Mult. case_match; [unfold is_int; cbn; lia|].
  destruct (Mult_loop _ _ _ _ _ _) as [lo hi]. case_match; split; apply wrap32_range.
Qed.

Lemma nth_register j v : registers s.1 !! j = Some v -> nth j (registers s.1) 0 = v.
Proof. intros H. apply nth_lookup_Some with (d := 0) in H. exact H. Qed.

Lemma wp_exec_muldiv :
  (forall e, instr_traps i (registers s.1) = Some e -> F e) ->
  wp (exec_muldiv i pc) F exec_post s.
Proof.
  assert (Hm : forall signed, wp (a ← getR (rs i); b ← getR (rt i);
    let '(hi, lo) := Mult a b signed in _ ← setR HiReg hi; _ ← setR LoReg lo; break pc)
    F exec_post s).
  { intros signed. wp_run. destruct (Mult_range v v0 signed) as [R1 R2].
    destruct (Mult v v0 signed) as [hi lo]. cbn in R1, R2. wp_run. }
  unfold exec_muldiv, instr_traps. destruct (opCode i); intros Htr; try apply Hm; try solve [wp_run].
  wp_run.
  - rewrite (nth_register _ _ H), (nth_register _ _ H1) in Htr. apply wp_fail, Htr.
    by rewrite H4.
  - apply Z.eqb_neq in H3. apply is_int_quot; [done..|]. by intros [-> ->].
  - apply Z.eqb_neq in H3. apply is_int_quot; [done..|]. by intros [-> ->].
Qed.

(** A load or a store, with what follows it. *)
Ltac wp_mem l :=
  eapply l; [eassumption|cbn; assumption|cbn; assumption|ints|unfold access_size; auto
    |intros ? ? ?; apply wp_ret; done|].

Lemma wp_exec_load : wp (exec_load getPid ExceptionHandler i pc) F exec_post s.
Proof.
  unfold exec_load. wp_run.
  destruct (opCode i); wp_run; try (apply wp_raise; ints); wp_mem @wp_ReadMem;
    intros w s' H' HI' Hw; wp_run; try case_match; ints.
Qed.

Lemma partial_values low old value : is_int old -> is_int value ->
  is_int (lwl_value low old value) /\ is_int (lwr_value low old value) /\
  is_int (swl_value low value old) /\ is_int (swr_value low value old).
Proof.
  intros. unfold lwl_value, lwr_value, swl_value, swr_value.
  splits; repeat case_match; ints.
Qed.

Lemma wp_exec_load_partial :
  (Z.land (wrap32 (nth (Z.to_nat (rs i)) (registers s.1) 0 + extra i)) 3 <> 0 -> F AssertFailure) ->
  wp (exec_load_partial getPid ExceptionHandler i pc) F exec_post s.
Proof.
  intros Htr. unfold exec_load_partial. wp_run. rewrite (nth_register _ _ H) in Htr.
  apply wp_assert; intros Hal; [|apply Htr; by apply Z.eqb_neq].
  wp_run. wp_mem @wp_ReadMem. intros w s' H' HI' Hw. wp_run.
  all: edestruct (partial_values) as (? & ? & _); [..|case_match; eassumption]; done.
Qed.

Lemma wp_exec_store : wp (exec_store getPid ExceptionHandler i pc) F exec_post s.
Proof.
  unfold exec_store. wp_run.
  eapply wp_WriteMem; [eassumption|done|done|ints|unfold access_size; destruct (opCode i); auto|..].
  - intros s' H' HI'. by apply wp_ret.
  - intros s' H' HI'. wp_run.
Qed.

Lemma wp_exec_store_partial :
  (Z.land (wrap32 (nth (Z.to_nat (rs i)) (registers s.1) 0 + extra i)) 3 <> 0 -> F AssertFailure) ->
  wp (exec_store_partial getPid ExceptionHandler i pc) F exec_post s.
Proof.
  intros Htr. unfold exec_store_partial. wp_run. rewrite (nth_register _ _ H) in Htr.
  apply wp_assert; intros Hal; [|apply Htr; by apply Z.eqb_neq].
  wp_run. wp_mem @wp_ReadMem. intros w s' H' HI' Hw. wp_run.
  wp_mem @wp_WriteMem. intros s'' H'' HI''. wp_run.
Qed.
End ExecWp.

Lemma HandlerOk_mono {K} (h : ExceptionType -> M (Machine * K) unit) I (F F' : fault -> Prop) :
  HandlerOk h I F -> (forall e, F e -> F' e) -> HandlerOk h I F'.
Proof.
  intros H HF which m k Hm Hk. specialize (H which m k Hm Hk). revert H. unfold wp.
  destruct (h which (m, k)) as [[]|]; auto.
Qed.

Lemma wp_execute {K} (getPid : K -> Z) h (I : K -> Prop) F `{!HandlerOk h I F} i pc s :
  instr_ok i -> is_int pc -> mach_wf s.1 -> I s.2 ->
  wp (execute getPid h i pc) (fun e => F e \/ instr_traps i (registers s.1) = Some e)
    (exec_post I) s.
Proof.
  intros Hi Hpc Hs Hk. set (F' e := F e \/ _).
  assert (HandlerOk h I F') by (eapply HandlerOk_mono; [done|by left]).
  pose proof (io_op i Hi) as (O1 & O2 & O3).
  assert (Htr : forall e, instr_traps i (registers s.1) = Some e -> F' e) by (by right).
  assert (Hsh := io_shamt i Hi).
  assert (Hpt : opCode i ∈ [OP_LWL; OP_LWR; OP_SWL; OP_SWR] ->
    Z.land (wrap32 (nth (Z.to_nat (rs i)) (registers s.1) 0 + extra i)) 3 <> 0 ->
    F' AssertFailure).
  { intros Ho Hne. apply Htr. unfold instr_traps. apply Z.eqb_neq in Hne. rewrite Hne.
    apply list_elem_of_In in Ho. cbn in Ho. by destruct Ho as [<-|[<-|[<-|[<-|[]]]]]. }
  unfold execute. destruct (opCode i) eqn:Op; try done;
    lazymatch goal with
    | |- wp (exec_add _ _ _) _ _ _ => apply wp_exec_add; assumption
    | |- wp (exec_logic _ _) _ _ _ => apply wp_exec_logic; assumption
    | |- wp (exec_branch _ _) _ _ _ => apply wp_exec_branch; assumption
    | |- wp (exec_jump _ _) _ _ _ => apply wp_exec_jump; assumption
    | |- wp (exec_muldiv _ _) _ _ _ => apply wp_exec_muldiv; assumption
    | |- wp (exec_shift _ _) _ _ _ => apply wp_exec_shift; rewrite ?Op; assumption
    | |- wp (exec_slt _ _) _ _ _ => apply wp_exec_slt; assumption
    | |- wp (exec_load _ _ _ _) _ _ _ => apply wp_exec_load; assumption
    | |- wp (exec_load_partial _ _ _ _) _ _ _ =>
        apply wp_exec_load_partial; try assumption; apply Hpt, list_elem_of_In; cbn; auto
    | |- wp (exec_store _ _ _ _) _ _ _ => apply wp_exec_store; assumption
    | |- wp (exec_store_partial _ _ _ _) _ _ _ =>
        apply wp_exec_store_partial; try assumption; apply Hpt, list_elem_of_In; cbn; auto
    | |- wp (raise _ _ _) _ _ _ => apply wp_raise; [assumption..|regs]
    end.
Qed.

(** One step of the simulator, for the proofs that build on it. *)
Lemma wp_OneInstruction {K} (getPid : K -> Z) h (I : K -> Prop) F
    `{!HandlerOk h I F} (s : Machine * K) :
  mach_ok s.1 -> I s.2 ->
  wp (OneInstruction getPid h)
    (fun e => F e \/ exists pc raw s1 i,
       registers s.1 !! Z.to_nat PCReg = Some pc /\
       ReadMem getPid h pc 4 s = Ok (Some raw, s1) /\
       Decode (u32 raw) = Ok i /\ instr_traps i (registers s1.1) = Some e)
    (fun _ s' => mach_ok s'.1 /\ I s'.2) s.
Proof.
  intros [Hs H0] Hk. unfold OneInstruction. set (F' e := F e \/ _).
  apply wp_bind, wp_getR; [done|regs|]. intros pc Epc Hpc. apply wp_bind.
  pose proof (wp_ReadMem getPid h I F pc 4 (fun o s' => match o with
    | None => mach_ok s'.1 /\ I s'.2 | Some v => mach_wf s'.1 /\ I s'.2 /\ is_int v end) s
    Hs Hk Hpc) as W.
  unfold wp in W |- * at 1. destruct (ReadMem getPid h pc 4 s) as [[[raw|] s1]|e] eqn:E.
  - destruct W as (W1 & W2 & W3); [unfold access_size; auto..|].
    destruct (Decode_ok (u32 raw)) as (i & Ei & Hi).
    eapply wp_bind, wp_lift; [exact Ei|].
    apply wp_bind, wp_getR; [done|regs|]. intros n _ Hn. apply wp_bind.
    pose proof (wp_execute getPid h I F i (wrap32 (n + 4)) s1 Hi (wrap32_range _) W1 W2) as X.
    unfold wp in X |- * at 1.
    destruct (execute getPid h i (wrap32 (n + 4)) s1) as [[r s2]|e].
    + destruct r as [|l v pc']; [done|]. destruct X as (X1 & X2 & X3 & X4 & X5).
      apply wp_bind, wp_DelayedLoad; [done..|]. intros r3 [H3 R3] _. cbn [snd].
      apply wp_bind, wp_getR; [done|regs|]. intros pc3 _ Hpc3.
      apply wp_bind, wp_setR; [done|regs|done|regs|]. intros m4 -> H4.
      apply wp_bind, wp_getR; [done|regs|]. intros n4 _ Hn4.
      apply wp_bind, wp_setR; [done|regs|done|regs|]. intros m5 -> H5.
      apply wp_setR; [done|regs|done|regs|]. intros m6 -> H6.
      split; [|done]. split; [done|]. cbn. by rewrite !list_lookup_insert_ne by done.
    + destruct X as [X|X]; [by left|]. right. exists pc, raw, s1, i. done.
  - apply W; unfold access_size; auto.
  - left. apply W; unfold access_size; auto.
Qed.

(** C23: One step of the simulator is safe.  From a well-formed machine with R0 = 0
    and a kernel whose handler keeps its promise, [OneInstruction] ends in a
    well-formed machine with R0 = 0: no register, page table or memory index
    is out of range, the decoder covers every instruction word and the
    default case is not reached.  The only faults are those of the handler
    and the ones [instr_traps] lists for the instruction at the program
    counter. *)
Theorem mips_OneInstruction_safe {K} (getPid : K -> Z) h (I : K -> Prop) F
    `{!HandlerOk h I F} (s : Machine * K) :
  mach_ok s.1 -> I s.2 ->
  wp (OneInstruction getPid h)
    (fun e => F e \/ exists pc raw s1 i,
       registers s.1 !! Z.to_nat PCReg = Some pc /\
       ReadMem getPid h pc 4 s = Ok (Some raw, s1) /\
       Decode (u32 raw) = Ok i /\ instr_traps i (registers s1.1) = Some e)
    (fun _ s' => mach_ok s'.1 /\ I s'.2) s.
Proof. apply wp_OneInstruction; done. Qed.

#[global] Instance idle_handler_ok {K} :
  HandlerOk (fun _ => mret tt : M (Machine * K) unit) (fun _ => True) (fun _ => False).
Proof. intros which m k Hm _. by apply wp_ret. Qed.

Lemma mips_OneInstruction_safe_witness :
  mach_ok demo_machine /\
  wp (OneInstruction (fun k : Z => k) (fun _ => mret tt))
    (fun e => False \/ exists pc raw s1 i,
       registers demo_machine !! Z.to_nat PCReg = Some pc /\
       ReadMem (fun k : Z => k) (fun _ => mret tt) pc 4 (demo_machine, 7) = Ok (Some raw, s1) /\
       Decode (u32 raw) = Ok i /\ instr_traps i (registers s1.1) = Some e)
    (fun _ s' => mach_ok s'.1 /\ True) (demo_machine, 7).
Proof.
  split; [apply demo_machine_ok|].
  apply (mips_OneInstruction_safe (fun k : Z => k) (fun _ => mret tt) (fun _ => True)
    (fun _ => False) (demo_machine, 7)); [apply demo_machine_ok|exact Logic.I].
Defined.

(** The decoder is total: every 32-bit word (and every other integer) decodes to
    an instruction whose register fields are below 32 and whose immediate is
    an [int], a shift amount below 32; it is never [OP_RFE] or one of the two
    escape codes, so that the [default: ASSERT(FALSE)] of the simulator is not
    reached. *)
Theorem mips_Decode_total value : exists i, Decode value = Ok i /\ instr_ok i.
Proof. apply Decode_ok. Qed.

(** ** Arithmetic *)

Lemma sign_set_neg z : is_int z -> sign_set z = (z <? 0).
Proof.
  intros Hz. unfold sign_set, SIGN_BIT. rewrite testbit31 by apply u32_range.
  unfold is_int in Hz. destruct (Z.ltb_spec z 0).
  - replace (u32 z) with (z + 4294967296).
    + apply Z.leb_le. lia.
    + unfold u32. apply Z.mod_unique with (-1); lia.
  - rewrite u32_small by (unfold is_uint; lia). apply Z.leb_gt. lia.
Qed.

Lemma sign_set_lxor a b : is_int a -> is_int b ->
  sign_set (Z.lxor a b) = xorb (a <? 0) (b <? 0).
Proof.
  intros Ha Hb. rewrite sign_set_neg by auto with ints.
  pose proof (Z.lxor_nonneg a b).
  destruct (Z.ltb_spec (Z.lxor a b) 0), (Z.ltb_spec a 0), (Z.ltb_spec b 0); try done; lia.
Qed.

Lemma wrap32_cases z : -4294967296 <= z < 4294967296 ->
  is_int z /\ wrap32 z = z \/
  z < -2147483648 /\ wrap32 z = z + 4294967296 \/
  2147483648 <= z /\ wrap32 z = z - 4294967296.
Proof.
  intros Hz. unfold is_int.
  destruct (Z.lt_ge_cases z (-2147483648)); [right; left|destruct (Z.lt_ge_cases z 2147483648)].
  - split; [done|]. unfold wrap32.
    rewrite <- (Z.mod_unique (z + 2147483648) 4294967296 (-1) (z + 2147483648 + 4294967296)); lia.
  - left. split; [lia|]. apply wrap32_small. unfold is_int. lia.
  - right; right. split; [done|]. unfold wrap32.
    rewrite <- (Z.mod_unique (z + 2147483648) 4294967296 1 (z + 2147483648 - 4294967296)); lia.
Qed.

(** The two sign tests of the source detect exactly the overflows. *)
Lemma add_overflow a b : is_int a -> is_int b ->
  (is_int (a + b) /\ wrap32 (a + b) = a + b /\
   negb (sign_set (Z.lxor a b)) && sign_set (Z.lxor a (wrap32 (a + b))) = false /\
   negb (sign_set (Z.lxor a b)) && sign_set (Z.lxor b (wrap32 (a + b))) = false) \/
  (~ is_int (a + b) /\
   negb (sign_set (Z.lxor a b)) && sign_set (Z.lxor a (wrap32 (a + b))) = true /\
   negb (sign_set (Z.lxor a b)) && sign_set (Z.lxor b (wrap32 (a + b))) = true).
Proof.
  intros Ha Hb. rewrite !sign_set_lxor by auto with ints.
  pose proof (wrap32_cases (a + b)) as C. unfold is_int in *.
  destruct C as [[C ->]|[[C ->]|[C ->]]]; [lia|left|right..];
    repeat match goal with |- context [?x <? ?y] => destruct (Z.ltb_spec x y) end;
    cbn; try lia; splits; try done; lia.
Qed.

Lemma sub_overflow a b : is_int a -> is_int b ->
  (is_int (a - b) /\ wrap32 (a - b) = a - b /\
   sign_set (Z.lxor a b) && sign_set (Z.lxor a (wrap32 (a - b))) = false) \/
  (~ is_int (a - b) /\
   sign_set (Z.lxor a b) && sign_set (Z.lxor a (wrap32 (a - b))) = true).
Proof.
  intros Ha Hb. rewrite !sign_set_lxor by auto with ints.
  pose proof (wrap32_cases (a - b)) as C. unfold is_int in *.
  destruct C as [[C ->]|[[C ->]|[C ->]]]; [lia|left|right..];
    repeat match goal with |- context [?x <? ?y] => destruct (Z.ltb_spec x y) end;
    cbn; try lia; splits; try done; lia.
Qed.

Definition write_reg {K} (r v : Z) (s : Machine * K) : Machine * K :=
  (set_registers (<[Z.to_nat r := v]> (registers s.1)) s.1, s.2).

Section Instr.
Context {K : Type} (getPid : K -> Z) (h : ExceptionType -> M (Machine * K) unit).
Variables (i : Instruction) (pc a b : Z) (s : Machine * K).
Hypotheses (Hs : mach_wf s.1) (Hi : instr_ok i).
Hypotheses (Ha : registers s.1 !! Z.to_nat (rs i) = Some a).
Hypotheses (Hb : registers s.1 !! Z.to_nat (rt i) = Some b).

Lemma reg_rs : getR (rs i) s = Ok (a, s) /\ is_int a.
Proof.
  destruct (getR_run (rs i) s Hs) as (v & E & Hv & Er); [pose proof (io_rs _ Hi); lia|].
  rewrite Ha in E. by injection E as <-.
Qed.

Lemma reg_rt : getR (rt i) s = Ok (b, s) /\ is_int b.
Proof.
  destruct (getR_run (rt i) s Hs) as (v & E & Hv & Er); [pose proof (io_rt _ Hi); lia|].
  rewrite Hb in E. by injection E as <-.
Qed.

Lemma reg_write r v : r = rd i \/ r = rt i -> setR r v s = Ok (tt, write_reg r v s).
Proof.
  intros Hr. apply setR_run; [done|]. pose proof (io_rd _ Hi). pose proof (io_rt _ Hi).
  destruct Hr as [-> | ->]; lia.
Qed.

(** Step through an instruction that reads [rs] and [rt] and writes one register. *)
Ltac instr_run :=
  repeat match goal with
  | |- (getR (rs i) ≫= _) s = _ => rewrite (bind_run _ _ _ _ _ (proj1 reg_rs))
  | |- (getR (rt i) ≫= _) s = _ => rewrite (bind_run _ _ _ _ _ (proj1 reg_rt))
  | |- (setR ?r ?v ≫= _) s = _ =>
      rewrite (bind_run _ _ _ _ _ (reg_write r v ltac:(auto))); reflexivity
  end.

(** ADD, ADDI and SUB trap exactly on signed overflow.  When the mathematical
    result is an [int] it is what the destination register receives and
    nothing else changes; otherwise the instruction is the overflow exception
    and nothing is written. *)
Theorem mips_overflow_exact :
  let checked op exact r :=
    opCode i = op ->
    (is_int exact -> execute getPid h i pc s = Ok (Next 0 0 pc, write_reg r exact s)) /\
    (~ is_int exact -> execute getPid h i pc s = raise h OverflowException 0 s) in
  checked OP_ADD (a + b) (rd i) /\ checked OP_ADDI (a + extra i) (rt i) /\
  checked OP_SUB (a - b) (rd i).
Proof.
  cbv zeta. pose proof (proj2 reg_rs) as Ia. pose proof (proj2 reg_rt) as Ib.
  pose proof (io_extra i Hi) as Ie. unfold execute, exec_add.
  split; [|split]; intros ->; (split; intros Hx; instr_run).
  1,2: destruct (add_overflow a b) as [(H1 & W & E & _)|(H1 & E & _)]; try done; rewrite E.
  3,4: destruct (add_overflow a (extra i)) as [(H1 & W & _ & E)|(H1 & _ & E)]; try done; rewrite E.
  5,6: destruct (sub_overflow a b) as [(H1 & W & E)|(H1 & E)]; try done; rewrite E.
  all: try done; rewrite W; instr_run.
Qed.

(** OR does not compute the disjunction and SRL does not shift logically.  OR
    stores [rs] whatever [rt] holds, which is the disjunction only when [rt]
    adds no bit; SRL stores the arithmetic shift, which is the logical one of
    the 32-bit word exactly for a non-negative operand or no shift at all. *)
Theorem mips_OR_SRL_wrong :
  (opCode i = OP_OR ->
     execute getPid h i pc s = Ok (Next 0 0 pc, write_reg (rd i) a s) /\
     (a = Z.lor a b <-> forall k, 0 <= k -> Z.testbit b k = true -> Z.testbit a k = true)) /\
  (opCode i = OP_SRL ->
     execute getPid h i pc s =
       Ok (Next 0 0 pc, write_reg (rd i) (Z.shiftr b (extra i)) s) /\
     (Z.shiftr b (extra i) = wrap32 (Z.shiftr (u32 b) (extra i)) <->
        0 <= b \/ extra i = 0)).
Proof.
  pose proof (proj2 reg_rt) as Ib. split; intros E.
  - split.
    + unfold execute, exec_logic. rewrite E. instr_run. rewrite Z.lor_diag. instr_run.
    + split; [intros H k Hk Hbk; rewrite H, Z.lor_spec, Hbk; apply orb_true_r|].
      intros H. apply Z.bits_inj'. intros k Hk. rewrite Z.lor_spec. specialize (H k Hk).
      destruct (Z.testbit a k), (Z.testbit b k); naive_solver.
  - split; [unfold execute, exec_shift; rewrite E; instr_run|].
    assert (0 <= extra i < 32) as Hx.
    { apply (io_shamt i Hi). rewrite E. apply list_elem_of_In; cbn; auto. }
    destruct (Z.eq_dec (extra i) 0) as [->|Hne].
    { rewrite !Z.shiftr_0_r, wrap32_u32, wrap32_small by done. tauto. }
    rewrite !Z.shiftr_div_pow2 by lia. unfold is_int in Ib.
    assert (2 <= 2 ^ extra i) by (change 2 with (2 ^ 1) at 1; apply Z.pow_le_mono_r; lia).
    destruct (Z.lt_ge_cases b 0).
    + split; [|lia]. intros Heq. exfalso.
      assert (b / 2 ^ extra i < 0) by (apply Z.div_lt_upper_bound; lia).
      pose proof (u32_range b) as Ru. unfold is_uint in Ru.
      assert (0 <= u32 b / 2 ^ extra i < 2147483648).
      { split; [apply Z.div_pos; lia|]. apply Z.div_lt_upper_bound; nia. }
      rewrite wrap32_small in Heq by (unfold is_int; lia). lia.
    + split; [lia|]. intros _. rewrite u32_small by (unfold is_uint; lia).
      assert (0 <= b / 2 ^ extra i <= b) by (split; [apply Z.div_pos|apply Z.div_le_upper_bound]; nia).
      rewrite wrap32_small by (unfold is_int; lia). done.
Qed.

End Instr.

(** The machine above with R8 the largest [int] and R9 = -8. *)
Definition demo_regs : Machine :=
  set_registers (<[9%nat := -8]> (<[8%nat := 2147483647]> (registers demo_machine))) demo_machine.

Lemma demo_regs_wf : mach_wf demo_regs.
Proof.
  apply (mach_wf_registers 9 (-8) (set_registers (<[8%nat := 2147483647]> _) demo_machine));
    try regs.
  apply (mach_wf_registers 8); [apply demo_machine_ok|regs..].
Qed.

Lemma demo_instr_ok op x : op ∈ [OP_ADD; OP_OR; OP_SRL] -> 0 <= x < 32 ->
  instr_ok (mkInstruction op 8 9 10 x).
Proof.
  intros Ho Hx. apply list_elem_of_In in Ho. cbn in Ho.
  constructor; cbn; [lia..|unfold is_int; lia| |done]. naive_solver.
Qed.

Lemma mips_overflow_exact_witness :
  execute (fun k : Z => k) (fun _ => mret tt) (mkInstruction OP_ADD 8 9 10 0) 104 (demo_regs, 7)
    = Ok (Next 0 0 104, write_reg 10 2147483639 (demo_regs, 7)) /\
  execute (fun k : Z => k) (fun _ => mret tt) (mkInstruction OP_ADD 8 8 10 0) 104 (demo_regs, 7)
    = raise (fun _ => mret tt) OverflowException 0 (demo_regs, 7).
Proof.
  split.
  - destruct (mips_overflow_exact (fun k : Z => k) (fun _ => mret tt) (mkInstruction OP_ADD 8 9 10 0)
      104 2147483647 (-8) (demo_regs, 7)) as [H _];
      [exact demo_regs_wf| |reflexivity|reflexivity|].
    + apply demo_instr_ok; [apply list_elem_of_In; cbn; auto|lia].
    + apply H; [reflexivity|]. unfold is_int. lia.
  - destruct (mips_overflow_exact (fun k : Z => k) (fun _ => mret tt) (mkInstruction OP_ADD 8 8 10 0)
      104 2147483647 2147483647 (demo_regs, 7)) as [H _];
      [exact demo_regs_wf| |reflexivity|reflexivity|].
    + constructor; cbn; [lia..|unfold is_int; lia|done|]. intros Ho.
      apply list_elem_of_In in Ho. cbn in Ho. naive_solver.
    + apply H; [reflexivity|]. unfold is_int. lia.
Defined.

Lemma mips_OR_SRL_wrong_witness :
  execute (fun k : Z => k) (fun _ => mret tt) (mkInstruction OP_OR 8 9 10 0) 104 (demo_regs, 7)
    = Ok (Next 0 0 104, write_reg 10 2147483647 (demo_regs, 7)) /\
  execute (fun k : Z => k) (fun _ => mret tt) (mkInstruction OP_SRL 8 9 10 2) 104 (demo_regs, 7)
    = Ok (Next 0 0 104, write_reg 10 (-2) (demo_regs, 7)).
Proof.
  split.
  - apply (mips_OR_SRL_wrong (fun k : Z => k) (fun _ => mret tt) (mkInstruction OP_OR 8 9 10 0)
      104 2147483647 (-8) (demo_regs, 7));
      first [exact demo_regs_wf|apply demo_instr_ok; [apply list_elem_of_In; cbn; auto|lia]
            |reflexivity].
  - apply (mips_OR_SRL_wrong (fun k : Z => k) (fun _ => mret tt) (mkInstruction OP_SRL 8 9 10 2)
      104 2147483647 (-8) (demo_regs, 7));
      first [exact demo_regs_wf|apply demo_instr_ok; [apply list_elem_of_In; cbn; auto|lia]
            |reflexivity].
Defined.
