(* ===== verification/MipsTrace.v ===== *)
(** * machine/mipssim.h, mipssim.cc: the simulator's trace

    With debugging on, [OneInstruction] prints each instruction from the table
    [opStrings], indexed by the number of its opcode, with the fields that
    [TypeToReg] picks as the arguments of [printf]. *)
From S2P Require Import Prelude CInt MipsSim.
From Stdlib Require Import ZArith Lia List Bool String Ascii.
From stdpp Require Import base tactics list numbers strings pretty.
Local Open Scope string_scope.
Local Open Scope Z_scope.

(** ** mipssim.h: the numbers of the opcodes *)

Definition op_number (op : Op) : Z :=
  match op with
  | OP_ADD => 1 | OP_ADDI => 2 | OP_ADDIU => 3 | OP_ADDU => 4 | OP_AND => 5 | OP_ANDI => 6
  | OP_BEQ => 7 | OP_BGEZ => 8 | OP_BGEZAL => 9 | OP_BGTZ => 10 | OP_BLEZ => 11
  | OP_BLTZ => 12 | OP_BLTZAL => 13 | OP_BNE => 14 | OP_DIV => 16 | OP_DIVU => 17 | OP_J => 18
  | OP_JAL => 19 | OP_JALR => 20 | OP_JR => 21 | OP_LB => 22 | OP_LBU => 23 | OP_LH => 24
  | OP_LHU => 25 | OP_LUI => 26 | OP_LW => 27 | OP_LWL => 28 | OP_LWR => 29 | OP_MFHI => 31
  | OP_MFLO => 32 | OP_MTHI => 34 | OP_MTLO => 35 | OP_MULT => 36 | OP_MULTU => 37
  | OP_NOR => 38 | OP_OR => 39 | OP_ORI => 40 | OP_RFE => 41 | OP_SB => 42 | OP_SH => 43
  | OP_SLL => 44 | OP_SLLV => 45 | OP_SLT => 46 | OP_SLTI => 47 | OP_SLTIU => 48
  | OP_SLTU => 49 | OP_SRA => 50 | OP_SRAV => 51 | OP_SRL => 52 | OP_SRLV => 53 | OP_SUB => 54
  | OP_SUBU => 55 | OP_SW => 56 | OP_SWL => 57 | OP_SWR => 58 | OP_XOR => 59 | OP_XORI => 60
  | OP_SYSCALL => 61 | OP_UNIMP => 62 | OP_RES => 63
  | SPECIAL => 100 | BCOND => 101
  end.

Definition MaxOpcode : Z := 63.

Inductive RegType := NONE | RS | RT | RD | EXTRA.

#[global] Instance RegType_eq_dec : EqDecision RegType.
Proof. solve_decision. Defined.

(** An entry: the format, and the three arguments. *)
Definition opStrings : list (string * (RegType * RegType * RegType)) :=
  [("Shouldn't happen", (NONE, NONE, NONE));
   ("ADD r%d,r%d,r%d", (RD, RS, RT));
   ("ADDI r%d,r%d,%d", (RT, RS, EXTRA));
   ("ADDIU r%d,r%d,%d", (RT, RS, EXTRA));
   ("ADDU r%d,r%d,r%d", (RD, RS, RT));
   ("AND r%d,r%d,r%d", (RD, RS, RT));
   ("ANDI r%d,r%d,%d", (RT, RS, EXTRA));
   ("BEQ r%d,r%d,%d", (RS, RT, EXTRA));
   ("BGEZ r%d,%d", (RS, EXTRA, NONE));
   ("BGEZAL r%d,%d", (RS, EXTRA, NONE));
   ("BGTZ r%d,%d", (RS, EXTRA, NONE));
   ("BLEZ r%d,%d", (RS, EXTRA, NONE));
   ("BLTZ r%d,%d", (RS, EXTRA, NONE));
   ("BLTZAL r%d,%d", (RS, EXTRA, NONE));
   ("BNE r%d,r%d,%d", (RS, RT, EXTRA));
   ("Shouldn't happen", (NONE, NONE, NONE));
   ("DIV r%d,r%d", (RS, RT, NONE));
   ("DIVU r%d,r%d", (RS, RT, NONE));
   ("J %d", (EXTRA, NONE, NONE));
   ("JAL %d", (EXTRA, NONE, NONE));
   ("JALR r%d,r%d", (RD, RS, NONE));
   ("JR r%d,r%d", (RD, RS, NONE));
   ("LB r%d,%d(r%d)", (RT, EXTRA, RS));
   ("LBU r%d,%d(r%d)", (RT, EXTRA, RS));
   ("LH r%d,%d(r%d)", (RT, EXTRA, RS));
   ("LHU r%d,%d(r%d)", (RT, EXTRA, RS));
   ("LUI r%d,%d", (RT, EXTRA, NONE));
   ("LW r%d,%d(r%d)", (RT, EXTRA, RS));
   ("LWL r%d,%d(r%d)", (RT, EXTRA, RS));
   ("LWR r%d,%d(r%d)", (RT, EXTRA, RS));
   ("Shouldn't happen", (NONE, NONE, NONE));
   ("MFHI r%d", (RD, NONE, NONE));
   ("MFLO r%d", (RD, NONE, NONE));
   ("Shouldn't happen", (NONE, NONE, NONE));
   ("MTHI r%d", (RS, NONE, NONE));
   ("MTLO r%d", (RS, NONE, NONE));
   ("MULT r%d,r%d", (RS, RT, NONE));
   ("MULTU r%d,r%d", (RS, RT, NONE));
   ("NOR r%d,r%d,r%d", (RD, RS, RT));
   ("OR r%d,r%d,r%d", (RD, RS, RT));
   ("ORI r%d,r%d,%d", (RT, RS, EXTRA));
   ("RFE", (NONE, NONE, NONE));
   ("SB r%d,%d(r%d)", (RT, EXTRA, RS));
   ("SH r%d,%d(r%d)", (RT, EXTRA, RS));
   ("SLL r%d,r%d,%d", (RD, RT, EXTRA));
   ("SLLV r%d,r%d,r%d", (RD, RT, RS));
   ("SLT r%d,r%d,r%d", (RD, RS, RT));
   ("SLTI r%d,r%d,%d", (RT, RS, EXTRA));
   ("SLTIU r%d,r%d,%d", (RT, RS, EXTRA));
   ("SLTU r%d,r%d,r%d", (RD, RS, RT));
   ("SRA r%d,r%d,%d", (RD, RT, EXTRA));
   ("SRAV r%d,r%d,r%d", (RD, RT, RS));
   ("SRL r%d,r%d,%d", (RD, RT, EXTRA));
   ("SRLV r%d,r%d,r%d", (RD, RT, RS));
   ("SUB r%d,r%d,r%d", (RD, RS, RT));
   ("SUBU r%d,r%d,r%d", (RD, RS, RT));
   ("SW r%d,%d(r%d)", (RT, EXTRA, RS));
   ("SWL r%d,%d(r%d)", (RT, EXTRA, RS));
   ("SWR r%d,%d(r%d)", (RT, EXTRA, RS));
   ("XOR r%d,r%d,r%d", (RD, RS, RT));
   ("XORI r%d,r%d,%d", (RT, RS, EXTRA));
   ("SYSCALL", (NONE, NONE, NONE));
   ("Unimplemented", (NONE, NONE, NONE));
   ("Reserved", (NONE, NONE, NONE))].

(** ** mipssim.cc *)

Definition TypeToReg (reg : RegType) (instr : Instruction) : Z :=
  match reg with
  | RS => rs instr
  | RT => rt instr
  | RD => rd instr
  | EXTRA => extra instr
  | NONE => -1
  end.

(** [printf] with a format whose only conversion is %d. *)
Fixpoint printf (format : string) (args : list Z) : string :=
  match format with
  | String a (String b rest as r) =>
    if Ascii.eqb a "%" && Ascii.eqb b "d" then
      match args with
      | v :: args' => pretty v +:+ printf rest args'
      | [] => String a (printf r args)
      end
    else String a (printf r args)
  | s => s
  end.

(** The line for [instr]; the address before it is left out. *)
Definition trace (instr : Instruction) : outcome string :=
  str ← arr_get opStrings (op_number (opCode instr));
  _ ← ASSERT_ (op_number (opCode instr) <=? MaxOpcode);
  let '(a0, a1, a2) := str.2 in
  Ok (printf str.1 [TypeToReg a0 instr; TypeToReg a1 instr; TypeToReg a2 instr]).

(** ** The table *)

(** The name of an opcode, from [OP_] on. *)
Definition op_name (op : Op) : string :=
  match op with
  | OP_ADD => "ADD" | OP_ADDI => "ADDI" | OP_ADDIU => "ADDIU" | OP_ADDU => "ADDU"
  | OP_AND => "AND" | OP_ANDI => "ANDI" | OP_BEQ => "BEQ" | OP_BGEZ => "BGEZ"
  | OP_BGEZAL => "BGEZAL" | OP_BGTZ => "BGTZ" | OP_BLEZ => "BLEZ" | OP_BLTZ => "BLTZ"
  | OP_BLTZAL => "BLTZAL" | OP_BNE => "BNE" | OP_DIV => "DIV" | OP_DIVU => "DIVU"
  | OP_J => "J" | OP_JAL => "JAL" | OP_JALR => "JALR" | OP_JR => "JR" | OP_LB => "LB"
  | OP_LBU => "LBU" | OP_LH => "LH" | OP_LHU => "LHU" | OP_LUI => "LUI" | OP_LW => "LW"
  | OP_LWL => "LWL" | OP_LWR => "LWR" | OP_MFHI => "MFHI" | OP_MFLO => "MFLO"
  | OP_MTHI => "MTHI" | OP_MTLO => "MTLO" | OP_MULT => "MULT" | OP_MULTU => "MULTU"
  | OP_NOR => "NOR" | OP_OR => "OR" | OP_ORI => "ORI" | OP_RFE => "RFE" | OP_SB => "SB"
  | OP_SH => "SH" | OP_SLL => "SLL" | OP_SLLV => "SLLV" | OP_SLT => "SLT" | OP_SLTI => "SLTI"
  | OP_SLTIU => "SLTIU" | OP_SLTU => "SLTU" | OP_SRA => "SRA" | OP_SRAV => "SRAV"
  | OP_SRL => "SRL" | OP_SRLV => "SRLV" | OP_SUB => "SUB" | OP_SUBU => "SUBU" | OP_SW => "SW"
  | OP_SWL => "SWL" | OP_SWR => "SWR" | OP_XOR => "XOR" | OP_XORI => "XORI"
  | OP_SYSCALL => "SYSCALL" | OP_UNIMP => "Unimplemented" | OP_RES => "Reserved"
  | SPECIAL | BCOND => ""
  end.

Fixpoint first_word (s : string) : string :=
  match s with
  | String c r => if Ascii.eqb c " " then "" else String c (first_word r)
  | EmptyString => ""
  end.

(** The number of conversions in a format. *)
Fixpoint conversions (s : string) : nat :=
  match s with
  | String a (String b r as t) => (if Ascii.eqb a "%" && Ascii.eqb b "d" then 1 else 0) + conversions t
  | _ => 0%nat
  end.

Definition argument_list (a : RegType * RegType * RegType) : list RegType :=
  let '(a0, a1, a2) := a in List.filter (fun r => negb (bool_decide (r = NONE))) [a0; a1; a2].

(** An opcode that [Decode] can produce. *)
Definition decodable (op : Op) : Prop := op <> SPECIAL /\ op <> BCOND.

(** The entry of every opcode is its own: it has its name, one conversion for
    each argument, and the arguments come first. *)
Lemma opStrings_entry op : decodable op ->
  exists f a0 a1 a2, arr_get opStrings (op_number op) = Ok (f, (a0, a1, a2)) /\
    op_number op <= MaxOpcode /\ first_word f = op_name op /\
    conversions f = length (argument_list (a0, a1, a2)) /\
    firstn (conversions f) [a0; a1; a2] = argument_list (a0, a1, a2).
Proof. intros [H1 H2]. destruct op; try done; repeat eexists; done. Qed.
