(* ===== verification/Execute.v ===== *)
(** * bin/execute.c, system.c, int.h: the host's MIPS interpreter

    The interpreter that the repository keeps beside its tools.  [runprogram]
    of execute.c runs the instructions in a memory of 2^24 bytes at
    [memoffset], one definition per switch of its loop; system calls go to the
    UNIX host, a parameter.  [exit] ends a run, and so does what C gives no
    meaning to.  What is printed is left out. *)
From S2P Require Import Prelude CInt Instr.
From Stdlib Require Import ZArith Lia List Bool.
From stdpp Require Import base tactics list numbers gmap.
Local Open Scope Z_scope.

(** ** State and ways to end *)

(** [Undef]: the host gives no meaning to what the interpreter does, and why. *)
Inductive trap := OutsideMem | Division | ShiftCount | HostCall.
Inductive stop := Exit (status : Z) | Undef (why : trap).

#[global] Instance trap_eq_dec : EqDecision trap.
Proof. solve_decision. Defined.
#[global] Instance stop_eq_dec : EqDecision stop.
Proof. solve_decision. Defined.

Inductive result (A : Type) := Ret (a : A) | Stop (e : stop).
Arguments Ret {A} _.
Arguments Stop {A} _.

(** The globals, and the [pc] and [npc] of [runprogram].  [mem] holds the bytes
    that have been stored; the others are 0.  [world]: the state of the host. *)
Record CPU (W : Type) := mkCPU {
  Reg : list Z;
  HI : Z;
  LO : Z;
  mem : gmap Z Z;
  pc : Z;
  npc : Z;
  world : W }.
Arguments mkCPU {W}.
Arguments Reg {W}.
Arguments HI {W}.
Arguments LO {W}.
Arguments mem {W}.
Arguments pc {W}.
Arguments npc {W}.
Arguments world {W}.

Definition set_Reg {W} r (c : CPU W) := mkCPU r (HI c) (LO c) (mem c) (pc c) (npc c) (world c).
Definition set_HI {W} v (c : CPU W) := mkCPU (Reg c) v (LO c) (mem c) (pc c) (npc c) (world c).
Definition set_LO {W} v (c : CPU W) := mkCPU (Reg c) (HI c) v (mem c) (pc c) (npc c) (world c).
Definition set_mem {W} m (c : CPU W) := mkCPU (Reg c) (HI c) (LO c) m (pc c) (npc c) (world c).
Definition set_pc {W} v (c : CPU W) := mkCPU (Reg c) (HI c) (LO c) (mem c) v (npc c) (world c).
Definition set_npc {W} v (c : CPU W) := mkCPU (Reg c) (HI c) (LO c) (mem c) (pc c) v (world c).
Definition set_world {W} (w : W) (c : CPU W) := mkCPU (Reg c) (HI c) (LO c) (mem c) (pc c) (npc c) w.

Definition X (W A : Type) : Type := CPU W -> result (A * CPU W).

#[global] Instance X_ret {W} : MRet (X W) := fun A a c => Ret (a, c).
#[global] Instance X_bind {W} : MBind (X W) := fun A B f m c =>
  match m c with Ret (a, c') => f a c' | Stop e => Stop e end.

Definition ask {W A} (f : CPU W -> A) : X W A := fun c => Ret (f c, c).
Definition upd {W} (f : CPU W -> CPU W) : X W unit := fun c => Ret (tt, f c).
Definition stop_with {W A} (e : stop) : X W A := fun _ => Stop e.

(** [Reg[i]]: [i] is a field of five bits. *)
Definition R {W} (i : Z) : X W Z := ask (fun c => nth (Z.to_nat i) (Reg c) 0).
Definition W_ {W} (i v : Z) : X W unit := upd (fun c => set_Reg (<[Z.to_nat i := v]> (Reg c)) c).
Definition goto {W} (v : Z) : X W unit := upd (set_npc v).

(** ** int.h: memory *)

Definition MEMSIZE : Z := 16777216.
Definition memoffset : Z := 268435456.

Definition inside (addr n : Z) : bool :=
  (0 <=? addr - memoffset) && (addr - memoffset + n <=? MEMSIZE).

Definition byte_at (m : gmap Z Z) (j : Z) : Z := default 0 (m !! j).

Fixpoint put_bytes (l : list Z) (j : Z) (m : gmap Z Z) : gmap Z Z :=
  match l with [] => m | b :: r => put_bytes r (j + 1) (<[j := b]> m) end.

(** The [n] bytes that an access to [(mem-memoffset)[addr]] touches. *)
Definition access {W A} (addr n : Z) (k : gmap Z Z -> Z -> X W A) : X W A := fun c =>
  if inside addr n then k (mem c) (addr - memoffset) c else Stop (Undef OutsideMem).

Definition sshort (z : Z) : Z := (z + 32768) mod 65536 - 32768.

Definition fetch {W} (addr : Z) : X W Z := access addr 4 (fun m j =>
  mret (int_of_bytes (byte_at m j) (byte_at m (j + 1)) (byte_at m (j + 2)) (byte_at m (j + 3)))).
Definition ifetch {W} (addr : Z) : X W Z := fetch addr.
Definition usfetch {W} (addr : Z) : X W Z := access addr 2 (fun m j =>
  mret (byte_at m j + 256 * byte_at m (j + 1))).
Definition sfetch {W} (addr : Z) : X W Z := v ← usfetch addr; mret (sshort v).
Definition ucfetch {W} (addr : Z) : X W Z := access addr 1 (fun m j => mret (byte_at m j)).
Definition cfetch {W} (addr : Z) : X W Z := v ← ucfetch addr; mret (schar v).

Definition put {W} (addr : Z) (l : list Z) : X W unit :=
  access addr (Z.of_nat (length l)) (fun m j => upd (set_mem (put_bytes l j m))).
Definition store {W} (addr i : Z) : X W unit := put addr (int_bytes i).
Definition sstore {W} (addr i : Z) : X W unit := put addr (take 2 (int_bytes i)).
Definition cstore {W} (addr i : Z) : X W unit := put addr (take 1 (int_bytes i)).

(** ** system.c: system calls *)

Definition SYS_exit : Z := 1.
Definition SYS_read : Z := 3.
Definition SYS_write : Z := 4.
Definition SYS_open : Z := 5.
Definition SYS_close : Z := 6.
Definition SYS_lseek : Z := 19.
Definition SYS_ioctl : Z := 54.
Definition SYS_fstat : Z := 62.
Definition SYS_getpagesize : Z := 64.
Definition IOCPARM_MASK : Z := 127.

(** The host's calls; [addr] is an index into [mem], as [u_to_int_addr]
    converts a user pointer, except in [u_fstat], which gets a pointer of the
    host. *)
Inductive unix_call :=
| u_read (fd addr n : Z)
| u_write (fd addr n : Z)
| u_open (addr flags mode : Z)
| u_lseek (fd offset whence : Z)
| u_ioctl (fd request addr : Z)
| u_fstat (fd buf : Z)
| u_getpagesize.

Definition u_to_int_addr (ptr : Z) : Z := ptr - memoffset.
Definition u_to_int_fd (fd : Z) : Z := fd.

Section Interpreter.
Context {W : Type}.
(** The host: what a call returns and does to [mem], or [None] when the process
    dies in it. *)
Context (unix : unix_call -> gmap Z Z -> W -> option (Z * gmap Z Z * W)).

Definition host (k : unix_call) : X W Z := fun c =>
  match unix k (mem c) (world c) with
  | Some (r, m, w) => Ret (r, set_world w (set_mem m c))
  | None => Stop (Undef HostCall)
  end.

(** The adjusted request of [SYS_ioctl]. *)
Definition ioctl_request (o1 : Z) : Z :=
  let size := Z.land (Z.shiftr o1 16) IOCPARM_MASK in
  let ioctl_group := schar (Z.land (Z.shiftr o1 8) 255) in
  if (ioctl_group =? 116) && (size =? 8) then
    Z.lor (Z.land o1 (Z.lnot (Z.shiftl IOCPARM_MASK 16))) (Z.shiftl 6 16)
  else o1.

Definition system_trap : X W unit :=
  syscallno ← R 2; o0 ← R 4; o1 ← R 5; o2 ← R 6;
  if syscallno =? SYS_exit then stop_with (Exit 0)
  else if syscallno =? SYS_read then
    r ← host (u_read (u_to_int_fd o0) (u_to_int_addr o1) o2); W_ 1 r
  else if syscallno =? SYS_write then
    r ← host (u_write (u_to_int_fd o0) (u_to_int_addr o1) o2); W_ 1 r
  else if syscallno =? SYS_open then r ← host (u_open (u_to_int_addr o0) o1 o2); W_ 1 r
  else if syscallno =? SYS_close then W_ 1 0
  else if syscallno =? 17 then W_ 1 (wrap32 ((Z.quot o0 8192 + 1) * 8192))
  else if syscallno =? SYS_lseek then r ← host (u_lseek (u_to_int_fd o0) o1 o2); W_ 1 r
  else if syscallno =? SYS_ioctl then
    r ← host (u_ioctl (u_to_int_fd o0) (ioctl_request o1) (u_to_int_addr o2)); _ ← W_ 1 r; W_ 1 0
  else if syscallno =? SYS_fstat then r ← host (u_fstat o1 o2); W_ 1 r
  else if syscallno =? SYS_getpagesize then r ← host u_getpagesize; W_ 1 r
  else stop_with (Exit 2).

Definition system_break : X W unit := system_trap.

(** ** execute.c: the loop of [runprogram] *)

(** An instruction that is not implemented. *)
Definition u : X W unit := stop_with (Exit 2).

(** [LO] and [HI] of the product, before the sign is put right. *)
Definition multiply (t1 t2 : Z) : Z * Z :=
  let t1l := Z.land t1 65535 in
  let t1h := Z.land (Z.shiftr t1 16) 65535 in
  let t2l := Z.land t2 65535 in
  let t2h := Z.land (Z.shiftr t2 16) 65535 in
  (wrap32 (t1 * t2),
   wrap32 (wrap32 (wrap32 (t1h * t2h) + Z.shiftr (wrap32 (t1h * t2l)) 16) +
           Z.shiftr (wrap32 (t2h * t1l)) 16)).

(** case I_MULT. *)
Definition do_mult (a b : Z) : Z * Z :=
  let neg := xorb (a <? 0) (b <? 0) in
  let t1 := if a <? 0 then wrap32 (- a) else a in
  let t2 := if b <? 0 then wrap32 (- b) else b in
  let '(lo, hi) := multiply t1 t2 in
  if neg then
    let lo := wrap32 (Z.lnot lo + 1) in
    (lo, if lo =? 0 then wrap32 (Z.lnot hi + 1) else Z.lnot hi)
  else (lo, hi).

Definition set_hilo (r : Z * Z) : X W unit := upd (fun c => set_HI r.2 (set_LO r.1 c)).

(** cases I_DIV and I_DIVU: the host traps on 0 and on a quotient that does
    not fit. *)
Definition do_div (a b : Z) : X W unit :=
  if (b =? 0) || (a =? -2147483648) && (b =? -1) then stop_with (Undef Division)
  else set_hilo (Z.quot a b, Z.rem a b).

Definition do_divu (a b : Z) : X W unit :=
  if u32 b =? 0 then stop_with (Undef Division)
  else set_hilo (wrap32 (u32 a / u32 b), wrap32 (u32 a mod u32 b)).

(** A shift by a register. *)
Definition shifted (n : Z) (v : Z) : X W Z :=
  if (0 <=? n) && (n <? 32) then mret v else stop_with (Undef ShiftCount).

(** The switch of case I_SPECIAL. *)
Definition special (instr xpc : Z) : X W unit :=
  let op := funct instr in
  let d := rd instr in
  a ← R (rs instr); b ← R (rt instr);
  if op =? I_SLL then W_ d (wrap32 (Z.shiftl b (shamt instr)))
  else if op =? I_SRL then W_ d (wrap32 (Z.shiftr (u32 b) (shamt instr)))
  else if op =? I_SRA then W_ d (Z.shiftr b (shamt instr))
  else if op =? I_SLLV then v ← shifted a (wrap32 (Z.shiftl b a)); W_ d v
  else if op =? I_SRLV then v ← shifted a (wrap32 (Z.shiftr (u32 b) a)); W_ d v
  else if op =? I_SRAV then v ← shifted a (Z.shiftr b a); W_ d v
  else if op =? I_JR then goto a
  else if op =? I_JALR then _ ← goto a; W_ d (wrap32 (xpc + 8))
  else if op =? I_SYSCALL then system_trap
  else if op =? I_BREAK then system_break
  else if op =? I_MFHI then v ← ask HI; W_ d v
  else if op =? I_MTHI then upd (set_HI a)
  else if op =? I_MFLO then v ← ask LO; W_ d v
  else if op =? I_MTLO then upd (set_LO a)
  else if op =? I_MULT then set_hilo (do_mult a b)
  else if op =? I_MULTU then set_hilo (multiply a b)
  else if op =? I_DIV then do_div a b
  else if op =? I_DIVU then do_divu a b
  else if (op =? I_ADD) || (op =? I_ADDU) then W_ d (wrap32 (a + b))
  else if (op =? I_SUB) || (op =? I_SUBU) then W_ d (wrap32 (a - b))
  else if op =? I_AND then W_ d (Z.land a b)
  else if op =? I_OR then W_ d (Z.lor a b)
  else if op =? I_XOR then W_ d (Z.lxor a b)
  else if op =? I_NOR then W_ d (Z.lnot (Z.lor a b))
  else if op =? I_SLT then W_ d (Z.b2z (a <? b))
  else if op =? I_SLTU then W_ d (Z.b2z (u32 a <? u32 b))
  else u.

(** A branch that is taken. *)
Definition branch (instr xpc : Z) (taken : bool) : X W unit :=
  if taken then goto (wrap32 (wrap32 (xpc + 4) + off16 instr)) else mret tt.

(** The switch of case I_BCOND. *)
Definition bcond (instr xpc : Z) : X W unit :=
  let op := rt instr in
  if op =? I_BLTZ then a ← R (rs instr); branch instr xpc (a <? 0)
  else if op =? I_BGEZ then a ← R (rs instr); branch instr xpc (0 <=? a)
  else if op =? I_BLTZAL then
    _ ← W_ 31 (wrap32 (xpc + 8)); a ← R (rs instr); branch instr xpc (a <? 0)
  else if op =? I_BGEZAL then
    _ ← W_ 31 (wrap32 (xpc + 8)); a ← R (rs instr); branch instr xpc (0 <=? a)
  else u.

(** The target of I_J and I_JAL. *)
Definition jump_target (instr xpc : Z) : Z := Z.lor (top4 xpc) (off26 instr).

(** The cases that load and store. *)
Definition load_store (instr : Z) : X W unit :=
  let op := opcode instr in
  let t := rt instr in
  a ← R (rs instr); b ← R t;
  let i := wrap32 (a + immed instr) in
  if op =? I_LB then v ← cfetch i; W_ t v
  else if op =? I_LH then v ← sfetch i; W_ t v
  else if op =? I_LWL then
    let b := Z.land b (Z.shiftr (-1) (8 * Z.land (wrap32 (- i)) 3)) in
    v ← fetch (Z.land i (-4)); W_ t (Z.lor b (wrap32 (Z.shiftl v (8 * Z.land i 3))))
  else if op =? I_LW then v ← fetch i; W_ t v
  else if op =? I_LBU then v ← ucfetch i; W_ t v
  else if op =? I_LHU then v ← usfetch i; W_ t v
  else if op =? I_LWR then
    let b := Z.land b (wrap32 (Z.shiftl (-1) (8 * Z.land i 3))) in
    let b := if Z.land i 3 =? 0 then 0 else b in
    v ← fetch (Z.land i (-4)); W_ t (Z.lor b (Z.shiftr v (8 * Z.land (wrap32 (- i)) 3)))
  else if op =? I_SB then cstore i b
  else if op =? I_SH then sstore i b
  else if op =? I_SWL then u
  else if op =? I_SW then store i b
  else if op =? I_SWR then u
  else u.

(** The outer switch.  The coprocessor opcodes exit with the same status as
    the unknown ones. *)
Definition execute (instr xpc : Z) : X W unit :=
  let op := opcode instr in
  let t := rt instr in
  a ← R (rs instr); b ← R t;
  if op =? I_SPECIAL then special instr xpc
  else if op =? I_BCOND then bcond instr xpc
  else if op =? I_J then goto (jump_target instr xpc)
  else if op =? I_JAL then _ ← W_ 31 (wrap32 (xpc + 8)); goto (jump_target instr xpc)
  else if op =? I_BEQ then branch instr xpc (a =? b)
  else if op =? I_BNE then branch instr xpc (negb (a =? b))
  else if op =? I_BLEZ then branch instr xpc (a <=? 0)
  else if op =? I_BGTZ then branch instr xpc (0 <? a)
  else if (op =? I_ADDI) || (op =? I_ADDIU) then W_ t (wrap32 (a + immed instr))
  else if op =? I_SLTI then W_ t (Z.b2z (a <? immed instr))
  else if op =? I_SLTIU then W_ t (Z.b2z (u32 a <? u32 (immed instr)))
  else if op =? I_ANDI then W_ t (Z.land a (immed instr))
  else if op =? I_ORI then W_ t (Z.lor a (immed instr))
  else if op =? I_XORI then W_ t (Z.lxor a (immed instr))
  else if op =? I_LUI then W_ t (wrap32 (Z.shiftl instr 16))
  else load_store instr.

(** One round of the loop. *)
Definition step : X W unit :=
  xpc ← ask pc;
  _ ← upd (fun c => set_npc (wrap32 (npc c + 4)) (set_pc (npc c) c));
  instr ← ifetch xpc;
  _ ← W_ 0 0;
  if negb (instr =? 0) then execute instr xpc else mret tt.

Fixpoint steps (n : nat) : X W unit :=
  match n with O => mret tt | S n' => _ ← step; steps n' end.

(** What [runprogram] does before its loop: the stack pointer, [argc], and
    the arguments, each with its terminating 0, and their addresses. *)
Fixpoint setup_args (argv : list (list Z)) (aci ai : Z) : X W unit :=
  match argv with
  | [] => mret tt
  | s :: rest =>
    _ ← put ai (s ++ [0]);
    _ ← store aci ai;
    setup_args rest (aci + 4) (ai + Z.of_nat (length s) + 1)
  end.

Definition setup (startpc : Z) (argv : list (list Z)) : X W unit :=
  _ ← upd (fun c => set_npc (wrap32 (startpc + 4)) (set_pc startpc c));
  let i := MEMSIZE - 1024 + memoffset in
  _ ← W_ 29 i;
  _ ← store i (Z.of_nat (length argv));
  setup_args argv (i + 4) (i + 4 + 32).

(** [runprogram], up to [n] rounds of its endless loop. *)
Definition runprogram (startpc : Z) (argv : list (list Z)) (n : nat) : X W unit :=
  _ ← setup startpc argv; steps n.

End Interpreter.

(** The static memory of the interpreter when it starts. *)
Definition cpu0 {W} (w : W) : CPU W := mkCPU (replicate 32 0) 0 0 ∅ 0 0 w.

(** ** Multiplication *)

Lemma halves x : is_uint x ->
  Z.land (wrap32 x) 65535 = x mod 65536 /\
  Z.land (Z.shiftr (wrap32 x) 16) 65535 = x / 65536.
Proof.
  intros Hx. change 65535 with (Z.ones 16). rewrite !Z.land_ones, Z.shiftr_div_pow2 by lia.
  change (2 ^ 16) with 65536. unfold is_uint, wrap32 in *. Z.div_mod_to_equations. lia.
Qed.

(** The partial products, without the carries between them. *)
Lemma high_word a b : 0 <= a -> 0 <= b ->
  let h := a / 65536 * (b / 65536) + (a / 65536 * (b mod 65536)) / 65536 +
           (b / 65536 * (a mod 65536)) / 65536 in
  h <= a * b / 4294967296 <= h + 2.
Proof.
  intros Ha Hb. pose proof (Z.div_mod a 65536 ltac:(lia)) as Ea. pose proof (Z.div_mod b 65536 ltac:(lia)) as Eb.
  pose proof (Z.mod_pos_bound a 65536 ltac:(lia)) as La. pose proof (Z.mod_pos_bound b 65536 ltac:(lia)) as Lb.
  assert (0 <= a / 65536 /\ 0 <= b / 65536) as [Ka Kb] by (split; apply Z.div_pos; lia).
  set (ah := a / 65536) in *. set (bh := b / 65536) in *.
  set (al := a mod 65536) in *. set (bl := b mod 65536) in *. cbv zeta.
  pose proof (Z.div_mod (ah * bl) 65536 ltac:(lia)) as E1.
  pose proof (Z.mod_pos_bound (ah * bl) 65536 ltac:(lia)) as M1.
  pose proof (Z.div_mod (bh * al) 65536 ltac:(lia)) as E2.
  pose proof (Z.mod_pos_bound (bh * al) 65536 ltac:(lia)) as M2.
  set (q1 := ah * bl / 65536) in *. set (q2 := bh * al / 65536) in *.
  set (r1 := (ah * bl) mod 65536) in *. set (r2 := (bh * al) mod 65536) in *.
  assert (0 <= al * bl <= 65535 * 65535) as P by (split; [nia|apply Z.mul_le_mono_nonneg; lia]).
  assert (a * b = (ah * bh + q1 + q2) * 4294967296 + ((r1 + r2) * 65536 + al * bl)) as E by nia.
  rewrite E, Z.div_add_l by lia.
  assert (0 <= ((r1 + r2) * 65536 + al * bl) / 4294967296 <= 2); [|lia].
  split; [apply Z.div_pos; lia|]. apply Z.lt_succ_r, Z.div_lt_upper_bound; lia.
Qed.

Lemma wrap32_ext a b : u32 a = u32 b -> wrap32 a = wrap32 b.
Proof. intros H. by rewrite <- (wrap32_u32 a), <- (wrap32_u32 b), H. Qed.

Lemma u32_mul a b : u32 (u32 a * u32 b) = u32 (a * b).
Proof. unfold u32. by rewrite <- Z.mul_mod. Qed.

Lemma wrap32_mul a b : wrap32 (wrap32 a * wrap32 b) = wrap32 (a * b).
Proof. apply wrap32_ext. by rewrite <- u32_mul, !u32_wrap32, u32_mul. Qed.

Lemma multiply_spec x y : 0 <= x <= 2147483648 -> 0 <= y <= 2147483648 ->
  exists h, multiply (wrap32 x) (wrap32 y) = (wrap32 (x * y), h) /\
    0 <= h <= 1073807360 /\ h <= x * y / 4294967296 <= h + 2.
Proof.
  intros Hx Hy. unfold multiply.
  destruct (halves x) as [-> ->]; [unfold is_uint; lia|].
  destruct (halves y) as [-> ->]; [unfold is_uint; lia|].
  pose proof (high_word x y ltac:(lia) ltac:(lia)) as Hh. cbv zeta in Hh.
  assert (0 <= x / 65536 <= 32768 /\ 0 <= y / 65536 <= 32768) as [Bx By].
  { Z.div_mod_to_equations. lia. }
  pose proof (Z.mod_pos_bound x 65536 ltac:(lia)) as Lx.
  pose proof (Z.mod_pos_bound y 65536 ltac:(lia)) as Ly.
  assert (S : forall p q, 0 <= p <= 32768 -> 0 <= q <= 65535 ->
    0 <= p * q <= 2147450880 /\ 0 <= p * q / 65536 <= 32768).
  { intros p q Hp Hq. assert (0 <= p * q <= 32768 * 65535) by nia.
    split; [lia|]. split; [apply Z.div_pos; lia|]. apply Z.div_le_upper_bound; lia. }
  destruct (S (x / 65536) (y mod 65536)) as [P1 Q1]; [lia..|].
  destruct (S (y / 65536) (x mod 65536)) as [P2 Q2]; [lia..|].
  assert (0 <= x / 65536 * (y / 65536) <= 1073741824) as P0 by nia.
  rewrite (wrap32_small (x / 65536 * (y / 65536))), (wrap32_small (x / 65536 * (y mod 65536))),
    (wrap32_small (y / 65536 * (x mod 65536))), !Z.shiftr_div_pow2 by (unfold is_int; lia).
  change (2 ^ 16) with 65536. rewrite wrap32_mul.
  set (p1 := x / 65536 * (y mod 65536)) in *. set (p2 := y / 65536 * (x mod 65536)) in *.
  set (p0 := x / 65536 * (y / 65536)) in *.
  rewrite (wrap32_small (p0 + p1 / 65536)), (wrap32_small (p0 + p1 / 65536 + p2 / 65536)) by (unfold is_int; lia).
  eexists. split; [reflexivity|]. lia.
Qed.

(** case I_MULT: the low word is exact; the high word lacks the carries from
    the partial products, at most 2 and at most the high word of the absolute
    value. *)
Lemma do_mult_spec a b : is_int a -> is_int b ->
  (do_mult a b).1 = wrap32 (a * b) /\ is_int (do_mult a b).2 /\
  Z.abs ((do_mult a b).2 - a * b / 4294967296) <= Z.min 2 (Z.abs a * Z.abs b / 4294967296).
Proof.
  intros Ha Hb. unfold do_mult.
  assert (N : forall z, is_int z -> (if z <? 0 then wrap32 (- z) else z) = wrap32 (Z.abs z) /\
                          0 <= Z.abs z <= 2147483648).
  { intros z Hz. unfold is_int in Hz. split; [|lia].
    destruct (Z.ltb_spec z 0); [by rewrite Z.abs_neq by lia|].
    rewrite Z.abs_eq, wrap32_small by (unfold is_int; lia). done. }
  destruct (N a Ha) as [-> Ba], (N b Hb) as [-> Bb].
  destruct (multiply_spec (Z.abs a) (Z.abs b) Ba Bb) as (h & -> & Hh & Hq).
  assert (P : a * b = if xorb (a <? 0) (b <? 0) then - (Z.abs a * Z.abs b) else Z.abs a * Z.abs b).
  { destruct (Z.ltb_spec a 0), (Z.ltb_spec b 0); cbn; nia. }
  set (x := Z.abs a) in *. set (y := Z.abs b) in *. clearbody x y. clear N.
  destruct (xorb _ _).
  - set (lo := wrap32 (Z.lnot (wrap32 (x * y)) + 1)).
    assert (lo = wrap32 (a * b)) as E.
    { unfold lo. apply wrap32_ext. rewrite P.
      replace (Z.lnot (wrap32 (x * y)) + 1) with (-1 * wrap32 (x * y)) by (unfold Z.lnot; lia).
      rewrite <- u32_mul, u32_wrap32, u32_mul. f_equal; lia. }
    clearbody lo. subst lo. cbn [fst snd].
    pose proof (Z.div_mod (x * y) 4294967296 ltac:(lia)) as D.
    pose proof (Z.mod_pos_bound (x * y) 4294967296 ltac:(lia)) as L.
    set (q := x * y / 4294967296) in *. set (r := (x * y) mod 4294967296) in *.
    assert (a * b / 4294967296 = if wrap32 (a * b) =? 0 then - q else - q - 1) as ->.
    { destruct (Z.eqb_spec (wrap32 (a * b)) 0) as [Z0|Z0]; symmetry.
      - assert (u32 (a * b) = 0) as U by (by rewrite <- u32_wrap32, Z0).
        unfold u32 in U. apply Z.div_unique_exact; [lia|].
        pose proof (Z.div_mod (a * b) 4294967296 ltac:(lia)). nia.
      - assert (r <> 0) as Hr.
        { intros R0. apply Z0. rewrite P. replace (- (x * y)) with (- q * 4294967296) by lia.
          unfold wrap32. rewrite Z.add_comm, Z.mod_add by lia. done. }
        apply Z.div_unique with (4294967296 - r); lia. }
    splits; [done| |]; destruct (wrap32 (a * b) =? 0);
      rewrite ?wrap32_small by (unfold is_int, Z.lnot; lia); unfold is_int, Z.lnot; lia.
  - cbn [fst snd]. rewrite P. splits; [done| |]; unfold is_int; lia.
Qed.

(** ** Memory *)

Lemma byte_at_put l j m i :
  byte_at (put_bytes l j m) i =
  if (j <=? i) && (i <? j + Z.of_nat (length l)) then nth (Z.to_nat (i - j)) l 0 else byte_at m i.
Proof.
  revert j m. induction l as [|b l IH]; intros j m; cbn [put_bytes length].
  - destruct (Z.leb_spec j i), (Z.ltb_spec i (j + Z.of_nat 0)); try done; lia.
  - rewrite IH. destruct (Z.eq_dec i j) as [->|Hne].
    + assert (j + 1 <=? j = false) as -> by lia. rewrite Z.leb_refl. cbn [andb].
      assert (j <? j + Z.of_nat (S (length l)) = true) as -> by (apply Z.ltb_lt; lia).
      rewrite Z.sub_diag. unfold byte_at. by rewrite lookup_insert_eq.
    + destruct (Z.leb_spec (j + 1) i); cbn [andb].
      * assert (j <=? i = true) as -> by lia. cbn [andb].
        replace (j + Z.of_nat (S (length l))) with (j + 1 + Z.of_nat (length l)) by lia.
        destruct (i <? _).
        -- replace (Z.to_nat (i - j)) with (S (Z.to_nat (i - (j + 1)))) by lia. done.
        -- unfold byte_at. by rewrite lookup_insert_ne.
      * assert (j <=? i = false) as -> by lia. cbn [andb]. unfold byte_at.
        by rewrite lookup_insert_ne.
Qed.

(** [mem] holds the bytes [l] from index [j] on. *)
Definition holds (m : gmap Z Z) (j : Z) (l : list Z) : Prop :=
  forall i b, l !! i = Some b -> byte_at m (j + Z.of_nat i) = b.

Lemma holds_put l j m : holds (put_bytes l j m) j l.
Proof.
  intros i b Hb. rewrite byte_at_put. pose proof (lookup_lt_Some _ _ _ Hb).
  assert (j <=? j + Z.of_nat i = true) as -> by lia.
  assert (j + Z.of_nat i <? j + Z.of_nat (length l) = true) as -> by (apply Z.ltb_lt; lia). cbn [andb].
  replace (Z.to_nat (j + Z.of_nat i - j)) with i by lia. by apply nth_lookup_Some.
Qed.

(** [m'] is [m] but for the bytes of [p]. *)
Definition changes (p : Z -> Prop) (m m' : gmap Z Z) : Prop :=
  forall i, ~ p i -> byte_at m' i = byte_at m i.

Lemma changes_put l j m : changes (fun i => j <= i < j + Z.of_nat (length l)) m (put_bytes l j m).
Proof.
  intros i Hi. rewrite byte_at_put.
  destruct (Z.leb_spec j i), (Z.ltb_spec i (j + Z.of_nat (length l))); try done; lia.
Qed.

Lemma holds_changes p m m' j l : changes p m m' ->
  (forall i, j <= i < j + Z.of_nat (length l) -> ~ p i) -> holds m j l -> holds m' j l.
Proof.
  intros C D H i b Hb. rewrite C; [by apply H|]. apply D. pose proof (lookup_lt_Some _ _ _ Hb). lia.
Qed.

Lemma put_run {W} addr l (c : CPU W) : inside addr (Z.of_nat (length l)) = true ->
  put addr l c = Ret (tt, set_mem (put_bytes l (addr - memoffset) (mem c)) c).
Proof. intros H. unfold put, access. by rewrite H. Qed.

(** A word that has been stored is fetched unchanged. *)
Lemma fetch_run {W} addr v (c : CPU W) : is_int v -> inside addr 4 = true ->
  holds (mem c) (addr - memoffset) (int_bytes v) -> fetch addr c = Ret (v, c).
Proof.
  intros Hv Hin H. unfold fetch, access. rewrite Hin. cbv beta.
  pose proof (H 0%nat _ eq_refl) as H0. pose proof (H 1%nat _ eq_refl) as H1.
  pose proof (H 2%nat _ eq_refl) as H2. pose proof (H 3%nat _ eq_refl) as H3.
  rewrite Z.add_0_r in H0. change (Z.of_nat 1) with 1 in H1.
  change (Z.of_nat 2) with 2 in H2. change (Z.of_nat 3) with 3 in H3.
  rewrite H0, H1, H2, H3.
  pose proof (int_bytes_roundtrip v Hv) as E. unfold int_bytes in E. cbn [bytes_ints] in E.
  injection E as E. by rewrite E.
Qed.

(** ** Well-formed states

    Every register is an [int], and the memory holds bytes. *)

Definition mem_ok (m : gmap Z Z) : Prop := forall j, is_byte (byte_at m j).

Record cpu_ok {W} (c : CPU W) : Prop := {
  co_length : length (Reg c) = 32%nat;
  co_Reg : Forall is_int (Reg c);
  co_HI : is_int (HI c);
  co_LO : is_int (LO c);
  co_pc : is_int (pc c);
  co_npc : is_int (npc c);
  co_mem : mem_ok (mem c) }.

(** What the interpreter relies on of the host. *)
Class UnixOk {W} (unix : unix_call -> gmap Z Z -> W -> option (Z * gmap Z Z * W)) : Prop :=
  unix_ok : forall q m w r m' w', unix q m w = Some (r, m', w') -> mem_ok m -> is_int r /\ mem_ok m'.

(** [m] keeps the state well formed and returns something in [P], or stops. *)
Definition keeps_ok {W A} (m : X W A) (P : A -> Prop) : Prop :=
  forall c, cpu_ok c -> match m c with Ret (a, c') => P a /\ cpu_ok c' | Stop _ => True end.

Create HintDb cpu discriminated.

Lemma ok_bind {W A B} (m : X W A) (f : A -> X W B) P Q :
  keeps_ok m P -> (forall a, P a -> keeps_ok (f a) Q) -> keeps_ok (m ≫= f) Q.
Proof.
  intros Hm Hf c Hc. unfold mbind, X_bind. specialize (Hm c Hc).
  destruct (m c) as [[a c']|]; [|done]. destruct Hm as [Ha Hc']. exact (Hf a Ha c' Hc').
Qed.

Lemma ok_ret {W A} (a : A) (P : A -> Prop) : P a -> keeps_ok (W := W) (mret a) P.
Proof. by intros Ha c Hc. Qed.

Lemma ok_stop {W A} e (P : A -> Prop) : keeps_ok (W := W) (stop_with e) P.
Proof. by intros c Hc. Qed.

Lemma ok_if {W A} (b : bool) (m1 m2 : X W A) P :
  keeps_ok m1 P -> keeps_ok m2 P -> keeps_ok (if b then m1 else m2) P.
Proof. by destruct b. Qed.

Lemma nth_ints l j : Forall is_int l -> is_int (nth j l 0).
Proof.
  intros Hl. destruct (nth_lookup_or_length l j 0) as [E|E].
  - rewrite Forall_lookup in Hl. by eapply Hl.
  - rewrite nth_overflow by lia. unfold is_int. lia.
Qed.

Lemma ok_R {W} i : keeps_ok (W := W) (R i) is_int.
Proof. intros c Hc. split; [|done]. apply nth_ints, Hc. Qed.

Lemma ok_HI {W} : keeps_ok (W := W) (ask HI) is_int.
Proof. intros c Hc. split; [apply Hc|done]. Qed.

Lemma ok_LO {W} : keeps_ok (W := W) (ask LO) is_int.
Proof. intros c Hc. split; [apply Hc|done]. Qed.

Lemma ok_W {W} i v : is_int v -> keeps_ok (W := W) (W_ i v) (fun _ => True).
Proof.
  intros Hv c [H1 H2 H3 H4 H5 H6 H7]. split; [done|]. constructor; try done; cbn.
  - by rewrite length_insert.
  - by apply Forall_insert.
Qed.

Lemma ok_goto {W} v : is_int v -> keeps_ok (W := W) (goto v) (fun _ => True).
Proof. intros Hv c []. by split. Qed.

Lemma ok_set_HI {W} v : is_int v -> keeps_ok (W := W) (upd (set_HI v)) (fun _ => True).
Proof. intros Hv c []. by split. Qed.

Lemma ok_set_LO {W} v : is_int v -> keeps_ok (W := W) (upd (set_LO v)) (fun _ => True).
Proof. intros Hv c []. by split. Qed.

Lemma ok_set_hilo {W} v : is_int v.1 -> is_int v.2 -> keeps_ok (W := W) (set_hilo v) (fun _ => True).
Proof. intros H1 H2 c []. by split. Qed.

Lemma sshort_range z : is_int (sshort z).
Proof. unfold sshort, is_int. pose proof (Z.mod_pos_bound (z + 32768) 65536 ltac:(lia)). lia. Qed.

Lemma schar_range z : is_int (schar z).
Proof. unfold schar, is_int. pose proof (Z.mod_pos_bound (z + 128) 256 ltac:(lia)). lia. Qed.

Lemma ok_fetch {W} addr : keeps_ok (W := W) (fetch addr) is_int.
Proof.
  intros c Hc. unfold fetch, access. destruct (inside _ _); [|done].
  split; [apply wrap32_range|done].
Qed.

Lemma ok_usfetch {W} addr : keeps_ok (W := W) (usfetch addr) is_int.
Proof.
  intros c Hc. unfold usfetch, access. destruct (inside _ _); [|done]. split; [|done].
  pose proof (co_mem c Hc (addr - memoffset)). pose proof (co_mem c Hc (addr - memoffset + 1)).
  unfold is_byte, is_int in *. lia.
Qed.

Lemma ok_ucfetch {W} addr : keeps_ok (W := W) (ucfetch addr) is_int.
Proof.
  intros c Hc. unfold ucfetch, access. destruct (inside _ _); [|done]. split; [|done].
  pose proof (co_mem c Hc (addr - memoffset)). unfold is_byte, is_int in *. lia.
Qed.

Lemma mem_ok_put l j m : Forall is_byte l -> mem_ok m -> mem_ok (put_bytes l j m).
Proof.
  intros Hl Hm i. rewrite byte_at_put. case_match; [|apply Hm].
  destruct (nth_lookup_or_length l (Z.to_nat (i - j)) 0) as [E|E].
  - rewrite Forall_lookup in Hl. by eapply Hl.
  - rewrite nth_overflow by lia. unfold is_byte. lia.
Qed.

Lemma ok_put {W} addr l : Forall is_byte l -> keeps_ok (W := W) (put addr l) (fun _ => True).
Proof.
  intros Hl c Hc. unfold put, access. destruct (inside _ _); [|done].
  split; [done|]. destruct Hc. constructor; try done. by apply mem_ok_put.
Qed.

Lemma ok_cfetch {W} addr : keeps_ok (W := W) (cfetch addr) is_int.
Proof. eapply ok_bind; [apply ok_ucfetch|]. intros v _. apply ok_ret, schar_range. Qed.

Lemma ok_sfetch {W} addr : keeps_ok (W := W) (sfetch addr) is_int.
Proof. eapply ok_bind; [apply ok_usfetch|]. intros v _. apply ok_ret, sshort_range. Qed.

Lemma ok_store {W} addr i : keeps_ok (W := W) (store addr i) (fun _ => True).
Proof. apply ok_put, int_bytes_bytes. Qed.

Lemma ok_sstore {W} addr i : keeps_ok (W := W) (sstore addr i) (fun _ => True).
Proof. apply ok_put, Forall_take, int_bytes_bytes. Qed.

Lemma ok_cstore {W} addr i : keeps_ok (W := W) (cstore addr i) (fun _ => True).
Proof. apply ok_put, Forall_take, int_bytes_bytes. Qed.

Lemma ok_host {W} unix `{UnixOk W unix} q : keeps_ok (host unix q) is_int.
Proof.
  intros c Hc. unfold host. destruct (unix q (mem c) (world c)) as [[[r m'] w']|] eqn:E; [|done].
  destruct (unix_ok _ _ _ _ _ _ E (co_mem c Hc)) as [Hr Hm]. split; [done|]. by destruct Hc.
Qed.

Lemma ok_shifted {W} n v : (0 <= n -> is_int v) -> keeps_ok (W := W) (shifted n v) is_int.
Proof.
  intros Hv. unfold shifted. destruct (Z.leb_spec 0 n); [|apply ok_stop].
  destruct (n <? 32); [apply ok_ret; auto|apply ok_stop].
Qed.

Lemma ok_do_div {W} a b : is_int a -> is_int b -> keeps_ok (W := W) (do_div a b) (fun _ => True).
Proof.
  intros Ha Hb. unfold do_div. destruct (_ || _) eqn:E; [apply ok_stop|].
  apply orb_false_iff in E as [E1 E2]. destruct (is_int_quot a b Ha Hb) as [H1 H2].
  - by apply Z.eqb_neq.
  - intros [-> ->]. done.
  - by apply ok_set_hilo.
Qed.

Lemma b2z_int b : is_int (Z.b2z b).
Proof. destruct b; unfold is_int; cbn; lia. Qed.

Lemma off26_int i : is_int (off26 i).
Proof. apply wrap32_range. Qed.

#[export] Hint Resolve b2z_int off26_int sshort_range schar_range : ints.
#[export] Hint Resolve ok_R ok_HI ok_LO ok_W ok_goto ok_set_HI ok_set_LO ok_set_hilo ok_fetch ok_usfetch
  ok_ucfetch ok_cfetch ok_sfetch ok_put ok_store ok_sstore ok_cstore ok_host ok_shifted ok_do_div ok_stop ok_ret : cpu.

(** Step through a definition; what is left are the values it stores. *)
Ltac keep := repeat match goal with
  | |- keeps_ok (if _ then _ else _) _ => apply ok_if
  | |- keeps_ok (_ ≫= _) _ => eapply ok_bind; [solve [eauto 4 with cpu ints]|intros ? ?]
  | |- keeps_ok (W_ _ _) _ => apply ok_W; auto with ints
  | |- keeps_ok _ _ => solve [eauto 4 with cpu ints]
  end.

Lemma ok_weaken {W A} (m : X W A) (P Q : A -> Prop) :
  keeps_ok m P -> (forall a, P a -> Q a) -> keeps_ok m Q.
Proof. intros Hm H c Hc. specialize (Hm c Hc). destruct (m c) as [[a c']|]; naive_solver. Qed.

Section Keeps.
Context {W : Type} (unix : unix_call -> gmap Z Z -> W -> option (Z * gmap Z Z * W)) `{!UnixOk unix}.

Lemma ok_system_trap : keeps_ok (system_trap unix) (fun _ => True).
Proof.
  unfold system_trap. keep.
Qed.

Lemma ok_special instr xpc : keeps_ok (special unix instr xpc) (fun _ => True).
Proof.
  pose proof ok_system_trap. pose proof (shamt_range instr).
  unfold special, system_break, do_divu, u. keep.
  - destruct (do_mult_spec a a0) as (E1 & E2 & _); [done..|].
    apply ok_set_hilo; [rewrite E1; auto with ints|done].
  - apply ok_set_hilo; cbn; auto with ints.
Qed.

Lemma ok_branch instr xpc taken : keeps_ok (W := W) (branch instr xpc taken) (fun _ => True).
Proof. unfold branch. keep. Qed.

Lemma ok_bcond instr xpc : keeps_ok (W := W) (bcond instr xpc) (fun _ => True).
Proof. pose proof ok_branch. unfold bcond, u. keep. Qed.

Lemma ok_load_store instr : keeps_ok (W := W) (load_store instr) (fun _ => True).
Proof.
  assert (L : forall z, 0 <= 8 * Z.land z 3).
  { intros z. change 3 with (Z.ones 2). rewrite Z.land_ones by lia.
    pose proof (Z.mod_pos_bound z (2 ^ 2) ltac:(lia)). lia. }
  unfold load_store, u. keep.
  apply is_int_lor; [|by apply is_int_shr].
  destruct (_ =? 0); [unfold is_int; lia|]. auto with ints.
Qed.

Lemma jump_target_int instr xpc : is_int xpc -> is_int (jump_target instr xpc).
Proof.
  intros H. apply is_int_lor; [apply is_int_land; [done|unfold is_int; lia]|apply wrap32_range].
Qed.

Lemma ok_execute instr xpc : is_int xpc -> keeps_ok (execute unix instr xpc) (fun _ => True).
Proof.
  intros Hx. pose proof (immed_int instr). pose proof (jump_target_int instr xpc Hx).
  pose proof (ok_special instr xpc). pose proof (ok_bcond instr xpc).
  pose proof (ok_branch instr xpc). pose proof (ok_load_store instr).
  unfold execute. keep.
Qed.

Lemma ok_step : keeps_ok (step unix) (fun _ => True).
Proof.
  unfold step. eapply ok_bind with (P := is_int); [intros c Hc; split; [apply Hc|done]|].
  intros xpc Hx. eapply ok_bind with (P := fun _ => True); [|intros [] _].
  { intros c []. split; [exact I|]. constructor; try done. apply wrap32_range. }
  eapply ok_bind; [apply ok_fetch|]. intros instr _.
  eapply ok_bind; [apply ok_W; unfold is_int; lia|]. intros [] _.
  apply ok_if; [by apply ok_execute|by apply ok_ret].
Qed.

Lemma ok_steps n : keeps_ok (steps unix n) (fun _ => True).
Proof.
  induction n as [|n IH]; [by apply ok_ret|]. eapply ok_bind; [apply ok_step|]. by intros [] _.
Qed.
End Keeps.

(** ** The arguments *)

Definition args_size (argv : list (list Z)) : Z :=
  foldr (fun s n => Z.of_nat (length s) + 1 + n) 0 argv.

Lemma args_size_nonneg argv : 0 <= args_size argv.
Proof. induction argv; cbn [args_size foldr]; unfold args_size in *; lia. Qed.

Lemma inside_true addr n : memoffset <= addr -> addr + n <= memoffset + MEMSIZE -> inside addr n = true.
Proof. unfold inside. lia. Qed.

Lemma setup_args_run {W} argv : forall aci ai (c : CPU W),
  memoffset <= aci -> aci + 4 * Z.of_nat (length argv) <= ai ->
  ai + args_size argv <= memoffset + MEMSIZE ->
  exists m, setup_args argv aci ai c = Ret (tt, set_mem m c) /\
    changes (fun i => aci - memoffset <= i < aci - memoffset + 4 * Z.of_nat (length argv) \/
                      ai - memoffset <= i < ai - memoffset + args_size argv) (mem c) m /\
    forall k s, argv !! k = Some s ->
      let a := ai + args_size (take k argv) in
      holds m (aci - memoffset + 4 * Z.of_nat k) (int_bytes a) /\ holds m (a - memoffset) (s ++ [0]).
Proof.
  induction argv as [|s argv IH]; intros aci ai c H1 H2 H3; cbn [setup_args].
  - exists (mem c). split; [by destruct c|]. split; [by intros i _|]. intros k s. by rewrite lookup_nil.
  - cbn [args_size foldr length] in *. fold (args_size argv) in *.
    pose proof (args_size_nonneg argv) as Hn.
    unfold mbind, X_bind.
    rewrite put_run by (rewrite length_app; cbn [length]; apply inside_true; lia). cbv beta iota.
    unfold store. rewrite put_run by (rewrite length_int_bytes; apply inside_true; lia).
    cbv beta iota. cbn [mem set_mem].
    set (m1 := put_bytes (s ++ [0]) (ai - memoffset) (mem c)).
    set (m2 := put_bytes (int_bytes ai) (aci - memoffset) m1).
    destruct (IH (aci + 4) (ai + Z.of_nat (length s) + 1) (set_mem m2 (set_mem m1 c)))
      as (m & E & C & H); [lia..|].
    exists m. split; [rewrite E; by destruct c|]. cbn [mem set_mem] in C. unfold changes in C.
    assert (C1 := changes_put (s ++ [0]) (ai - memoffset) (mem c)).
    assert (C2 := changes_put (int_bytes ai) (aci - memoffset) m1).
    rewrite length_app in C1. rewrite length_int_bytes in C2. cbn [length] in C1.
    unfold changes in C1, C2. split.
    + intros i Hi. rewrite C by lia. fold m2 in C2. rewrite C2 by lia. apply C1. lia.
    + intros [|k] s' Hk; cbn [lookup list_lookup] in Hk.
      * injection Hk as <-. cbn [take args_size foldr]. rewrite !Z.add_0_r. split.
        -- eapply holds_changes; [exact C| |apply holds_put]. rewrite length_int_bytes. intros i; lia.
        -- eapply holds_changes; [exact C| |]; [rewrite length_app; cbn [length]; intros i; lia|].
           eapply holds_changes; [exact C2| |apply holds_put].
           rewrite length_app; cbn [length]; intros i; lia.
      * destruct (H k s' Hk) as [Ha Hb]. cbn [take args_size foldr].
        fold (args_size (take k argv)).
        replace (ai + (Z.of_nat (length s) + 1 + args_size (take k argv)))
          with (ai + Z.of_nat (length s) + 1 + args_size (take k argv)) by lia.
        replace (aci - memoffset + 4 * Z.of_nat (S k)) with (aci + 4 - memoffset + 4 * Z.of_nat k) by lia.
        done.
Qed.

Definition stack_top : Z := MEMSIZE - 1024 + memoffset.

(** The set-up of [runprogram] lays out the arguments.  With at most 8
    arguments of at most 988 bytes, terminators included, it returns: the stack
    pointer is 1024 bytes below the end of memory and points to [argc], the word
    after it and the following ones are the addresses of the arguments in
    order, at each of which the argument and its terminating 0 are found; the
    other registers are untouched and the first instruction is at [startpc]. *)
Theorem execute_setup {W} startpc argv (c : CPU W) :
  (length argv <= 8)%nat -> args_size argv <= 988 ->
  exists m, setup startpc argv c =
    Ret (tt, mkCPU (<[29%nat := stack_top]> (Reg c)) (HI c) (LO c) m startpc (wrap32 (startpc + 4))
               (world c)) /\
    holds m (stack_top - memoffset) (int_bytes (Z.of_nat (length argv))) /\
    forall k s, argv !! k = Some s ->
      let a := stack_top + 36 + args_size (take k argv) in
      (forall c' : CPU W, mem c' = m -> fetch (stack_top + 4 + 4 * Z.of_nat k) c' = Ret (a, c')) /\
      holds m (a - memoffset) (s ++ [0]).
Proof.
  intros Hl Hs. unfold setup, mbind, X_bind, W_, store, upd. cbv beta iota zeta.
  fold stack_top. rewrite put_run by done. cbv beta iota. cbn [mem set_mem set_Reg set_npc set_pc].
  set (m1 := put_bytes (int_bytes _) _ _).
  match goal with |- exists m, setup_args _ _ _ ?c1 = _ /\ _ => set (c2 := c1) end.
  destruct (setup_args_run argv (stack_top + 4) (stack_top + 4 + 32) c2) as (m & E & C & H);
    [done|lia|unfold stack_top in *; lia|].
  exists m. split; [rewrite E; by destruct c|].
  unfold changes in C. change (mem c2) with m1 in C.
  pose proof (args_size_nonneg argv) as Hn. split.
  - eapply holds_changes; [exact C| |apply holds_put]. rewrite length_int_bytes. intros i; lia.
  - intros k s Hk. destruct (H k s Hk) as [Ha Hb]. cbv zeta in *.
    replace (stack_top + 4 + 32 + args_size (take k argv))
      with (stack_top + 36 + args_size (take k argv)) in * by lia.
    split; [|done]. intros c' <-.
    assert (0 <= args_size (take k argv) <= 988).
    { split; [apply args_size_nonneg|]. etrans; [|exact Hs].
      rewrite <- (take_drop k argv) at 2. generalize (take k argv) (drop k argv).
      intros l1 l2. pose proof (args_size_nonneg l2). induction l1; cbn; unfold args_size in *; lia. }
    pose proof (lookup_lt_Some _ _ _ Hk).
    apply fetch_run; [unfold is_int, stack_top, MEMSIZE, memoffset; lia| |].
    + apply inside_true; unfold stack_top, MEMSIZE, memoffset; lia.
    + by replace (stack_top + 4 + 4 * Z.of_nat k - memoffset)
        with (stack_top + 4 - memoffset + 4 * Z.of_nat k) by lia.
Qed.

Lemma execute_setup_witness :
  exists m, setup memoffset [[97]; [98; 99]] (cpu0 tt) =
    Ret (tt, mkCPU (<[29%nat := stack_top]> (replicate 32 0)) 0 0 m memoffset (memoffset + 4) tt) /\
    holds m (stack_top - memoffset + 38) [98; 99; 0].
Proof.
  destruct (execute_setup memoffset [[97]; [98; 99]] (cpu0 tt)) as (m & E & _ & H); [cbn; lia..|].
  exists m. split; [exact E|]. exact (proj2 (H 1%nat [98; 99] eq_refl)).
Defined.

(** With a ninth argument its address overwrites the first string. *)
Lemma execute_setup_nine :
  exists c, setup memoffset (replicate 9 [97]) (cpu0 tt) = Ret (tt, c) /\
    ~ holds (mem c) (stack_top + 36 - memoffset) [97; 0].
Proof.
  destruct (setup memoffset (replicate 9 [97]) (cpu0 tt)) as [[[] c]|] eqn:E; [|by vm_compute in E].
  exists c. split; [done|]. intros H. specialize (H 0%nat 97 eq_refl).
  assert (byte_at (mem c) (stack_top + 36 - memoffset + 0) =? 97 = false) as F.
  { assert (match setup memoffset (replicate 9 [97]) (cpu0 tt) with
            | Ret (_, c) => byte_at (mem c) (stack_top + 36 - memoffset + 0) =? 97 | _ => true end = false)
      as T by (vm_compute; reflexivity).
    by rewrite E in T. }
  change (Z.of_nat 0) with 0 in H. by rewrite H in F.
Qed.

(** ** Debug aids of execute.c *)

Definition ilog2_round (mask d : Z) (p : Z * Z) : Z * Z :=
  let j := Z.land p.1 mask in if negb (j =? 0) then (j, p.2 + d) else p.

Definition ilog2 (i : Z) : Z :=
  if i =? 0 then 0
  else
    snd (ilog2_round 2863311530 1 (ilog2_round 3435973836 2 (ilog2_round 4042322160 4
        (ilog2_round 4278255360 8 (ilog2_round 4294901760 16 (i, 1)))))).

Definition NNNN : Z := 64.
Definition henter (n : Z) (hist : list Z) : outcome (list Z) :=
  if (0 <=? n) && (n <? NNNN) then v ← arr_get hist n; arr_set hist n (wrap32 (v + 1)) else Ok hist.

(** One round on a word [v] whose set bits agree with its highest one, [t],
    above bit [k] of their positions. *)
Lemma ilog2_round_spec k mask v l t : 0 <= k ->
  (forall p, 0 <= p < 32 -> Z.testbit mask p = Z.testbit p k) ->
  0 <= t < 32 -> 0 <= v -> Z.testbit v t = true ->
  (forall p, 0 <= p -> Z.testbit v p = true -> p <= t /\ p / 2 ^ (k + 1) = t / 2 ^ (k + 1)) ->
  let r := ilog2_round mask (2 ^ k) (v, l) in
  0 <= r.1 /\ Z.testbit r.1 t = true /\ r.2 = l + 2 ^ k * ((t / 2 ^ k) mod 2) /\
  forall p, 0 <= p -> Z.testbit r.1 p = true -> p <= t /\ p / 2 ^ k = t / 2 ^ k.
Proof.
  intros Hk Hm Ht Hv Hvt Hp. unfold ilog2_round. cbn [fst snd].
  assert (P : 0 < 2 ^ k) by (apply Z.pow_pos_nonneg; lia).
  assert (B : forall p, 0 <= p -> Z.b2z (Z.testbit p k) = (p / 2 ^ k) mod 2) by
    (intros; by apply Z.testbit_spec').
  assert (D : forall p, p / 2 ^ k = 2 * (p / 2 ^ (k + 1)) + (p / 2 ^ k) mod 2).
  { intros p. rewrite Z.pow_add_r by lia. change (2 ^ 1) with 2. rewrite <- Z.div_div by lia.
    apply Z.div_mod. lia. }
  assert (Hmask : forall p, 0 <= p < 32 -> Z.testbit (Z.land v mask) p = Z.testbit v p && Z.testbit p k).
  { intros p Hp'. by rewrite Z.land_spec, Hm. }
  assert (Hone : forall b, Z.b2z b = 0 \/ Z.b2z b = 1) by (intros []; cbn; auto).
  destruct (Z.testbit t k) eqn:Etk.
  - assert (Z.testbit (Z.land v mask) t = true) as Et by (by rewrite Hmask, Hvt, Etk).
    assert (Z.land v mask =? 0 = false) as ->.
    { apply Z.eqb_neq. intros E. by rewrite E, Z.testbit_0_l in Et. }
    cbn [negb fst snd]. rewrite <- B, Etk by lia. split; [apply Z.land_nonneg; auto|].
    split; [done|]. split; [cbn; lia|]. intros p Hp0 Hb.
    rewrite Z.land_spec in Hb. apply andb_true_iff in Hb as [Hb Hb'].
    destruct (Hp p Hp0 Hb) as [Hle Heq]. split; [done|].
    rewrite (D p), (D t), Heq, <- !B, Etk by lia. rewrite Hm in Hb' by lia. by rewrite Hb'.
  - assert (Hzero : forall p, 0 <= p -> Z.testbit v p = true -> Z.testbit p k = false).
    { intros p Hp0 Hb. destruct (Hp p Hp0 Hb) as [Hle Heq].
      destruct (Z.testbit p k) eqn:E; [|done]. exfalso.
      pose proof (Z.div_le_mono p t (2 ^ k) P Hle) as Hd.
      rewrite (D p), (D t), Heq, <- !B, E, Etk in Hd by lia. cbn in Hd. lia. }
    assert (Z.land v mask = 0) as ->.
    { apply Z.bits_inj'. intros p Hp0. rewrite Z.land_spec, Z.testbit_0_l.
      destruct (Z.testbit v p) eqn:E; [|done]. destruct (Hp p Hp0 E) as [Hle _].
      rewrite Hm by lia. by rewrite Hzero. }
    cbn [Z.eqb negb fst snd]. rewrite <- B, Etk by lia. split; [done|]. split; [done|].
    split; [cbn; lia|]. intros p Hp0 Hb. destruct (Hp p Hp0 Hb) as [Hle Heq]. split; [done|].
    rewrite (D p), (D t), Heq, <- !B, Etk, (Hzero p Hp0 Hb) by lia. done.
Qed.

Lemma mask_bits mask k :
  forallb (fun n => Bool.eqb (Z.testbit mask (Z.of_nat n)) (Z.testbit (Z.of_nat n) k)) (seq 0 32) = true ->
  forall p, 0 <= p < 32 -> Z.testbit mask p = Z.testbit p k.
Proof.
  intros H p Hp. rewrite forallb_forall in H. specialize (H (Z.to_nat p)).
  rewrite Z2Nat.id in H by lia. apply eqb_prop, H, in_seq. lia.
Qed.

(** [ilog2] is the number of bits of the word (the comment has 1 for 2 and 2
    for 4). *)
Lemma ilog2_spec i : is_int i -> ilog2 i = if i =? 0 then 0 else 1 + Z.log2 (u32 i).
Proof.
  intros Hi. unfold ilog2. destruct (Z.eqb_spec i 0) as [->|Hne]; [done|].
  pose proof (u32_range i) as Ru. unfold is_uint in Ru.
  assert (u32 i <> 0) as Hu by (unfold u32, is_int in *; Z.div_mod_to_equations; lia).
  set (t := Z.log2 (u32 i)).
  assert (0 <= t < 32) as Ht by (split; [apply Z.log2_nonneg|apply Z.log2_lt_pow2; lia]).
  assert (ilog2_round 4294901760 16 (i, 1) = ilog2_round 4294901760 16 (u32 i, 1)) as ->.
  { unfold ilog2_round. cbn [fst snd].
    assert (Z.land (u32 i) 4294901760 = Z.land i 4294901760) as ->.
    { rewrite u32_ones, <- Z.land_assoc. done. }
    destruct (Z.eqb_spec (Z.land i 4294901760) 0) as [E|]; [cbn|done].
    rewrite u32_small; [done|]. unfold is_uint, is_int in *. split; [|lia].
    destruct (Z.lt_ge_cases i 0); [exfalso|done].
    assert (Z.testbit (Z.land i 4294901760) 31 = true) as T.
    { rewrite Z.land_spec, Z.testbit_odd, Z.shiftr_div_pow2 by lia.
      replace (i / 2 ^ 31) with (-1); [done|]. apply Z.div_unique with (i + 2147483648); lia. }
    by rewrite E in T. }
  destruct (ilog2_round_spec 4 4294901760 (u32 i) 1 t) as (P1 & T1 & L1 & B1);
    [done|by apply mask_bits; vm_compute|done|lia|by apply Z.bit_log2; lia| |].
  { intros p Hp Hb. assert (p <= t) as Hle.
    { destruct (Z.le_gt_cases p t) as [|Hgt]; [done|]. by rewrite Z.bits_above_log2 in Hb by lia. }
    change (2 ^ (4 + 1)) with 32. by rewrite !Z.div_small by lia. }
  change (2 ^ 4) with 16 in *. destruct (ilog2_round _ 16 _) as [v1 l1]. cbn [fst snd] in *.
  destruct (ilog2_round_spec 3 4278255360 v1 l1 t) as (P2 & T2 & L2 & B2);
    [done|by apply mask_bits; vm_compute|done..|].
  change (2 ^ 3) with 8 in *. destruct (ilog2_round _ 8 _) as [v2 l2]. cbn [fst snd] in *.
  destruct (ilog2_round_spec 2 4042322160 v2 l2 t) as (P3 & T3 & L3 & B3);
    [done|by apply mask_bits; vm_compute|done..|].
  change (2 ^ 2) with 4 in *. destruct (ilog2_round _ 4 _) as [v3 l3]. cbn [fst snd] in *.
  destruct (ilog2_round_spec 1 3435973836 v3 l3 t) as (P4 & T4 & L4 & B4);
    [done|by apply mask_bits; vm_compute|done..|].
  change (2 ^ 1) with 2 in *. destruct (ilog2_round _ 2 _) as [v4 l4]. cbn [fst snd] in *.
  destruct (ilog2_round_spec 0 2863311530 v4 l4 t) as (P5 & T5 & L5 & _);
    [done|by apply mask_bits; vm_compute|done..|].
  change (2 ^ 0) with 1 in *. rewrite L5, L4, L3, L2, L1. Z.div_mod_to_equations. lia.
Qed.
