(* ===== verification/ExecuteSim.v ===== *)
(** * The two MIPS interpreters agree

    execute.c (Execute.v) and machine/mipssim.cc (MipsSim.v) interpret the same
    instruction set.  Here one step of the one is compared with
    [OneInstruction] of the other, for every instruction that does not use
    memory, from machines with the same registers. *)
From S2P Require Import Prelude CInt Instr Execute.
From S2P Require Machine MipsSim.
From Stdlib Require Import ZArith Lia List Bool.
From stdpp Require Import base tactics list numbers gmap.
Local Open Scope Z_scope.

(** ** The two decoders *)

Lemma field_u32 w k n : 0 <= k -> 0 <= n -> k + n <= 32 ->
  Z.land (Z.shiftr (u32 w) k) (Z.ones n) = Z.land (Z.shiftr w k) (Z.ones n).
Proof.
  intros Hk Hn Hkn. apply Z.bits_inj'. intros j Hj.
  rewrite !Z.land_spec, !Z.shiftr_spec, Z.testbit_ones by lia.
  destruct (Z.ltb_spec j n); [|by rewrite !andb_false_r].
  by rewrite testbit_u32 by lia.
Qed.

Lemma decode_extra_immed w : is_int w -> MipsSim.decode_extra (u32 w) MipsSim.IFMT = immed w.
Proof.
  intros Hw. assert (E : Z.land (u32 w) 65535 = Z.land w 65535).
  { pose proof (field_u32 w 0 16) as F. rewrite !Z.shiftr_0_r in F. by apply F. }
  unfold MipsSim.decode_extra. cbv zeta. rewrite E.
  assert (T : forall k, 0 <= k < 32 ->
    Z.testbit (Z.land w 65535) k = (k <? 16) && Z.testbit w k).
  { intros k Hk. change 65535 with (Z.ones 16). rewrite Z.land_spec, Z.testbit_ones by lia.
    assert (0 <=? k = true) as -> by lia. apply andb_comm. }
  change 32768 with (Z.shiftl 1 15). rewrite land_mask_nonzero, T by lia. change (15 <? 16) with true. cbn [andb].
  assert (R : 0 <= Z.land w 65535 < 65536) by (apply (MipsSim.land_ones_range w 16); lia).
  apply int_bits_ext; [|by apply immed_int|].
  { destruct (Z.testbit w 15); [apply wrap32_range|unfold is_int; lia]. }
  intros k Hk. rewrite testbit_immed by done. destruct (Z.testbit w 15) eqn:E15.
  - rewrite testbit_wrap32, Z.lor_spec, T by done. change 4294901760 with (Z.shiftl (Z.ones 16) 16).
    rewrite Z.shiftl_spec by lia. destruct (Z.ltb_spec k 15), (Z.ltb_spec k 16); try lia; cbn [andb].
    + rewrite (Z.testbit_neg_r (Z.ones 16)) by lia. apply orb_false_r.
    + replace k with 15 by lia. by rewrite E15.
    + rewrite Z.ones_spec_low by lia. by rewrite E15.
  - rewrite T by done. destruct (Z.ltb_spec k 15), (Z.ltb_spec k 16); try lia; cbn [andb]; try done.
    + replace k with 15 by lia. done.
Qed.

Lemma fields_u32 w :
  Z.land (Z.shiftr (u32 w) 26) 63 = opcode w /\ Z.land (u32 w) 63 = funct w /\
  Z.land (Z.shiftr (u32 w) 21) 31 = rs w /\ Z.land (Z.shiftr (u32 w) 16) 31 = rt w /\
  Z.land (Z.shiftr (u32 w) 11) 31 = rd w /\ Z.land (Z.shiftr (u32 w) 6) 31 = shamt w /\
  Z.land (u32 w) 67108863 = Z.land w 67108863.
Proof.
  pose proof (field_u32 w 0 6) as F0. pose proof (field_u32 w 0 26) as F1.
  rewrite !Z.shiftr_0_r in F0, F1.
  splits; [exact (field_u32 w 26 6 ltac:(lia) ltac:(lia) ltac:(lia))|apply F0; lia
    |exact (field_u32 w 21 5 ltac:(lia) ltac:(lia) ltac:(lia))
    |exact (field_u32 w 16 5 ltac:(lia) ltac:(lia) ltac:(lia))
    |exact (field_u32 w 11 5 ltac:(lia) ltac:(lia) ltac:(lia))
    |exact (field_u32 w 6 5 ltac:(lia) ltac:(lia) ltac:(lia))|apply F1; lia].
Qed.

(** The branch decoder looks at the field that execute.c calls [rt]. *)
Lemma decode_bcond_rt w : MipsSim.decode_bcond (u32 w) =
  if rt w =? I_BLTZ then MipsSim.OP_BLTZ
  else if rt w =? I_BGEZ then MipsSim.OP_BGEZ
  else if rt w =? I_BLTZAL then MipsSim.OP_BLTZAL
  else if rt w =? I_BGEZAL then MipsSim.OP_BGEZAL
  else MipsSim.OP_UNIMP.
Proof.
  assert (Z.land (u32 w) 2031616 = Z.shiftl (rt w) 16) as E.
  { destruct (fields_u32 w) as (_ & _ & _ & <- & _). change 2031616 with (Z.shiftl 31 16).
    apply Z.bits_inj'. intros k Hk. rewrite Z.land_spec. destruct (Z.lt_ge_cases k 16).
    - rewrite !Z.shiftl_spec_low by lia. apply andb_false_r.
    - rewrite !Z.shiftl_spec, Z.land_spec, Z.shiftr_spec by lia.
      by replace (k - 16 + 16) with k by lia. }
  unfold MipsSim.decode_bcond. rewrite E. rewrite Z.shiftl_mul_pow2 by lia. change (2 ^ 16) with 65536.
  unfold I_BLTZ, I_BGEZ, I_BLTZAL, I_BGEZAL.
  repeat match goal with |- context [?a =? ?b] => destruct (Z.eqb_spec a b) end; try done; lia.
Qed.

(** ** One instruction on both machines *)

(** What must hold of the operands [a] and [b], the registers [rs] and [rt],
    for the two interpreters to agree on [w] at address [xpc].  Each condition
    that is not [True] is a place where one of them does not do what the
    instruction means; loads, stores, system calls and undefined opcodes are
    left out. *)
Definition agrees_special (w a b : Z) : Prop :=
  let f := funct w in
  if f =? I_SLL then True
  else if f =? I_SRL then 0 <= b \/ shamt w = 0
  else if f =? I_SRA then True
  else if f =? I_SLLV then 0 <= a < 32
  else if f =? I_SRLV then 0 <= a < 32 /\ 0 <= b
  else if f =? I_SRAV then 0 <= a < 32
  else if f =? I_JR then True
  else if f =? I_JALR then rd w <> rs w
  else if f =? I_MFHI then True
  else if f =? I_MTHI then True
  else if f =? I_MFLO then True
  else if f =? I_MTLO then True
  else if f =? I_MULT then Z.abs a < 65536 /\ Z.abs b < 65536
  else if f =? I_MULTU then 0 <= a < 65536 /\ 0 <= b < 65536
  else if f =? I_DIV then b <> 0 /\ ~ (a = -2147483648 /\ b = -1)
  else if f =? I_DIVU then b <> 0
  else if f =? I_ADD then is_int (a + b)
  else if f =? I_ADDU then True
  else if f =? I_SUB then is_int (a - b)
  else if f =? I_SUBU then True
  else if f =? I_AND then True
  else if f =? I_OR then Z.lor a b = a
  else if f =? I_XOR then True
  else if f =? I_NOR then True
  else if f =? I_SLT then True
  else if f =? I_SLTU then True
  else False.

Definition agrees (w xpc a b : Z) : Prop :=
  let op := opcode w in
  if op =? I_SPECIAL then agrees_special w a b
  else if op =? I_BCOND then
    rt w = I_BLTZ \/ rt w = I_BGEZ \/ rt w = I_BLTZAL \/ rt w = I_BGEZAL
  else if (op =? I_J) || (op =? I_JAL) then top4 xpc = top4 (wrap32 (xpc + 8))
  else if (op =? I_BEQ) || (op =? I_BNE) || (op =? I_BLEZ) || (op =? I_BGTZ) then True
  else if op =? I_ADDI then is_int (a + immed w)
  else if (op =? I_ADDIU) || (op =? I_SLTI) || (op =? I_SLTIU) || (op =? I_LUI) then True
  else if (op =? I_ANDI) || (op =? I_ORI) || (op =? I_XORI) then 0 <= immed w
  else False.

Section Step.
Context {W K : Type} (unix : unix_call -> gmap Z Z -> W -> option (Z * gmap Z Z * W)).
Context (getPid : K -> Z) (h : Machine.ExceptionType -> M (Machine.Machine * K) unit).
Variables (m : Machine.Machine) (k : K) (w xpc prev lv bad : Z) (mm : gmap Z Z) (wd : W).

(** The machines while [w] is executed: [r] are the general registers, with a 0
    in the first, and the next instruction is the one after [w]. *)
Definition npc_ : Z := wrap32 (xpc + 4).
Definition cpu (r : list Z) (hi lo n : Z) : CPU W := mkCPU r hi lo mm npc_ n wd.
Definition mips (r : list Z) (hi lo : Z) : Machine.Machine * K :=
  (Machine.set_registers (r ++ [hi; lo; xpc; npc_; prev; 0; lv; bad]) m, k).

Lemma getR_low j r hi lo : length r = 32%nat -> 0 <= j < 32 ->
  Machine.getR j (mips r hi lo) = Ok (nth (Z.to_nat j) r 0, mips r hi lo).
Proof.
  intros Hr Hj. unfold Machine.getR, mips. mstep. cbn [fst Machine.registers Machine.set_registers].
  apply lift_Ok, arr_get_in; [lia|]. rewrite lookup_app_l by lia.
  destruct (nth_lookup_or_length r (Z.to_nat j) 0); [done|lia].
Qed.

Lemma setR_low j v r hi lo : length r = 32%nat -> 0 <= j < 32 ->
  Machine.setR j v (mips r hi lo) = Ok (tt, mips (<[Z.to_nat j := v]> r) hi lo).
Proof.
  intros Hr Hj. unfold Machine.setR, mips. mstep. cbn [fst Machine.registers Machine.set_registers].
  mstep by (apply lift_Ok, arr_set_in; rewrite length_app, Hr; cbn [length]; lia).
  rewrite insert_app_l by lia. by destruct m.
Qed.

(** The registers above the general ones. *)
Lemma getR_high j v r hi lo : length r = 32%nat ->
  [hi; lo; xpc; npc_; prev; 0; lv; bad] !! j = Some v ->
  Machine.getR (32 + Z.of_nat j) (mips r hi lo) = Ok (v, mips r hi lo).
Proof.
  intros Hr Hj. unfold Machine.getR, mips. mstep. cbn [fst Machine.registers Machine.set_registers].
  apply lift_Ok, arr_get_in; [lia|]. replace (Z.to_nat (32 + Z.of_nat j)) with (length r + j)%nat by lia.
  rewrite lookup_app_r by lia. by replace (length r + j - length r)%nat with j by lia.
Qed.

Lemma setR_hi v r hi lo : length r = 32%nat ->
  Machine.setR Machine.HiReg v (mips r hi lo) = Ok (tt, mips r v lo).
Proof.
  intros Hr. unfold Machine.setR, mips. mstep. cbn [fst Machine.registers Machine.set_registers].
  mstep by (apply lift_Ok, arr_set_in; rewrite length_app, Hr; cbn [length]; unfold Machine.HiReg; lia).
  change (Z.to_nat Machine.HiReg) with (32 + 0)%nat. rewrite <- Hr, insert_app_r. by destruct m.
Qed.

Lemma setR_lo v r hi lo : length r = 32%nat ->
  Machine.setR Machine.LoReg v (mips r hi lo) = Ok (tt, mips r hi v).
Proof.
  intros Hr. unfold Machine.setR, mips. mstep. cbn [fst Machine.registers Machine.set_registers].
  mstep by (apply lift_Ok, arr_set_in; rewrite length_app, Hr; cbn [length]; unfold Machine.LoReg; lia).
  change (Z.to_nat Machine.LoReg) with (32 + 1)%nat. rewrite <- Hr, insert_app_r. by destruct m.
Qed.

(** Both interpreters execute [w] with the same effect. *)
Variables (r : list Z) (hi lo : Z).
Hypotheses (Hr : length r = 32%nat) (Hints : Forall is_int r).
Hypotheses (Hw : is_int w).

Notation a := (nth (Z.to_nat (rs w)) r 0).
Notation b := (nth (Z.to_nat (rt w)) r 0).
Notation after := (wrap32 (npc_ + 4)).

Definition agree : Prop := exists r' hi' lo' n, length r' = 32%nat /\
  execute unix w xpc (cpu r hi lo after) = Ret (tt, cpu r' hi' lo' n) /\
  (i ← lift (MipsSim.Decode (u32 w)); MipsSim.execute getPid h i after) (mips r hi lo) =
    Ok (MipsSim.Next 0 0 n, mips r' hi' lo').

Lemma nth_int j : is_int (nth j r 0).
Proof. by apply nth_ints. Qed.

Lemma sign_nth l : Forall is_int l -> forall q,
  nth q l 0 <? 0 = MipsSim.sign_set (nth q l 0) /\
  0 <=? nth q l 0 = negb (MipsSim.sign_set (nth q l 0)).
Proof.
  intros Hl q. rewrite MipsSim.sign_set_neg by (by apply nth_ints).
  split; [done|]. by rewrite Z.leb_antisym.
Qed.

Lemma after_8 : after = wrap32 (xpc + 8).
Proof. unfold npc_. rewrite wrap32_add_l. f_equal. lia. Qed.

(** The decoder on an opcode outside the second tables. *)
Lemma Decode_op op f :
  arr_get MipsSim.opTable (opcode w) = Ok (op, f) -> op <> MipsSim.SPECIAL -> op <> MipsSim.BCOND ->
  MipsSim.Decode (u32 w) =
  Ok (MipsSim.mkInstruction op (rs w) (rt w) (rd w) (MipsSim.decode_extra (u32 w) f)).
Proof.
  intros E N1 N2. unfold MipsSim.Decode. destruct (fields_u32 w) as (-> & _ & -> & -> & -> & _).
  rewrite E. cbn [mbind outcome_bind fst snd].
  by rewrite !bool_decide_eq_false_2.
Qed.

Lemma Decode_special op : opcode w = I_SPECIAL ->
  arr_get MipsSim.specialTable (funct w) = Ok op ->
  MipsSim.Decode (u32 w) = Ok (MipsSim.mkInstruction op (rs w) (rt w) (rd w) (shamt w)).
Proof.
  intros E0 E. unfold MipsSim.Decode. destruct (fields_u32 w) as (-> & -> & -> & -> & -> & Es & _).
  rewrite E0. change (arr_get _ I_SPECIAL) with (Ok (MipsSim.SPECIAL, MipsSim.RFMT)).
  cbn [mbind outcome_bind fst snd]. rewrite bool_decide_eq_true_2, E by done.
  cbn [mbind outcome_bind]. unfold MipsSim.decode_extra. by rewrite Es.
Qed.

Lemma Decode_bcond : opcode w = I_BCOND ->
  MipsSim.Decode (u32 w) =
  Ok (MipsSim.mkInstruction (MipsSim.decode_bcond (u32 w)) (rs w) (rt w) (rd w) (immed w)).
Proof.
  intros E0. unfold MipsSim.Decode. destruct (fields_u32 w) as (-> & _ & -> & -> & -> & _).
  rewrite E0. change (arr_get _ I_BCOND) with (Ok (MipsSim.BCOND, MipsSim.IFMT)).
  cbn [mbind outcome_bind fst snd]. rewrite bool_decide_eq_false_2, bool_decide_eq_true_2 by done.
  cbn [mbind outcome_bind]. by rewrite decode_extra_immed.
Qed.

(** Reduce the conditionals that compare opcodes. *)
Ltac pick_one c :=
  let v := eval vm_compute in c in
  match v with
  | true => change c with true
  | false => change c with false
  end; cbv iota.

Ltac pick := repeat match goal with
  | |- context [if ?x =? ?y then _ else _] => is_const x; is_const y; pick_one (x =? y)
  | |- context [if (?x =? ?y) || (?x =? ?z) then _ else _] =>
    is_const x; is_const y; is_const z; pick_one ((x =? y) || (x =? z))
  end.

Ltac run_mips := repeat (erewrite bind_run;
  [|first [apply getR_low; [by rewrite ?length_insert|by auto with ints]
          |apply setR_low; [by rewrite ?length_insert|by auto with ints]
          |apply (getR_high 0); [by rewrite ?length_insert|done]
          |apply (getR_high 1); [by rewrite ?length_insert|done]
          |apply (getR_high 3); [by rewrite ?length_insert|done]
          |apply setR_hi; by rewrite ?length_insert|apply setR_lo; by rewrite ?length_insert
          |reflexivity]]; cbv beta iota).

(** [execute] on a known opcode. *)
Ltac run_exec Hop := unfold execute, mbind, X_bind, R, ask; cbv beta iota zeta; rewrite Hop; pick.

Ltac open_mips :=
  unfold MipsSim.execute, MipsSim.exec_add, MipsSim.exec_logic, MipsSim.exec_shift, MipsSim.exec_slt,
    MipsSim.exec_branch, MipsSim.exec_jump, MipsSim.exec_muldiv;
  cbn [MipsSim.opCode MipsSim.rs MipsSim.rt MipsSim.rd MipsSim.extra].

(** An opcode of the first table, up to the values that both sides compute. *)
Ltac op_case Hop :=
  do 4 eexists; split; [|split];
  [|run_exec Hop; reflexivity
   |mstep by (apply lift_Ok, Decode_op; [rewrite Hop; reflexivity|done..]); open_mips;
    rewrite ?decode_extra_immed by done; run_mips; unfold MipsSim.break];
  [cbn; by rewrite ?length_insert|].

Lemma immed_u16 : 0 <= immed w -> Z.land (immed w) 65535 = immed w.
Proof.
  intros H. pose proof (immed_range w). change 65535 with (Z.ones 16).
  rewrite Z.land_ones by lia. change (2 ^ 16) with 65536. apply Z.mod_small. lia.
Qed.

Lemma lui_shift : wrap32 (Z.shiftl (immed w) 16) = wrap32 (Z.shiftl w 16).
Proof.
  apply int_bits_ext; [apply wrap32_range..|]. intros j Hj.
  rewrite !testbit_wrap32 by done. destruct (Z.lt_ge_cases j 16).
  - by rewrite !Z.shiftl_spec_low by lia.
  - rewrite !Z.shiftl_spec, testbit_immed by lia.
    destruct (Z.ltb_spec (j - 16) 15); [done|]. by replace (j - 16) with 15 by lia.
Qed.

Lemma agree_immediate : agrees w xpc a b ->
  In (opcode w) [I_ADDI; I_ADDIU; I_SLTI; I_SLTIU; I_ANDI; I_ORI; I_XORI; I_LUI] -> agree.
Proof.
  intros Ha Hop. pose proof (immed_int w) as Hi. pose proof (nth_int (Z.to_nat (rs w))) as Hai.
  unfold agrees in Ha. 
  destruct Hop as [Hop|[Hop|[Hop|[Hop|[Hop|[Hop|[Hop|[Hop|[]]]]]]]]]; symmetry in Hop;
    rewrite Hop in Ha; cbn in Ha; op_case Hop; cbv [mret M_ret];
    rewrite ?lui_shift, ?immed_u16 by done; try done.
  - destruct (MipsSim.add_overflow a (immed w) Hai Hi) as [(_ & E & _ & O)|(N & _)]; [|done].
    rewrite O. run_mips. done.
Qed.

(** A branch that both take or both do not take. *)
Lemma mips_branch r0 n taken : n = wrap32 (npc_ + off16 w) ->
  (if (taken : bool) then MipsSim.break (wrap32 (npc_ + MipsSim.IndexToAddr (immed w)))
   else MipsSim.break after) (mips r0 hi lo) =
  Ok (MipsSim.Next 0 0 (if taken then n else after), mips r0 hi lo).
Proof. intros ->. by destruct taken. Qed.

Lemma exec_branch_run r0 taken n :
  branch w xpc taken (cpu r0 hi lo n) =
  Ret (tt, cpu r0 hi lo (if taken then wrap32 (npc_ + off16 w) else n)).
Proof. by destruct taken. Qed.

Lemma agree_branch :
  In (opcode w) [I_BEQ; I_BNE; I_BLEZ; I_BGTZ] -> agree.
Proof.
  intros [Hop|[Hop|[Hop|[Hop|[]]]]]; symmetry in Hop.
  all: do 4 eexists; split; [|split];
    [|run_exec Hop; apply exec_branch_run|
      mstep by (apply lift_Ok, Decode_op; [rewrite Hop; reflexivity|done..]); open_mips;
      rewrite decode_extra_immed by done; run_mips; by apply mips_branch]; done.
Qed.

Lemma top4_target p : is_int p ->
  wrap32 (Z.lor (Z.land (u32 p) 4026531840) (u32 (off26 w))) = Z.lor (top4 p) (off26 w).
Proof.
  intros Hp. assert (Ho : is_int (off26 w)) by apply wrap32_range.
  apply int_bits_ext; [apply wrap32_range| |].
  { apply is_int_lor; [apply is_int_land; [done|unfold is_int; lia]|done]. }
  intros j Hj. rewrite testbit_wrap32, !Z.lor_spec, testbit_u32 by done. f_equal.
  unfold top4. rewrite !Z.land_spec, testbit_u32 by done. f_equal.
  change 4026531840 with (Z.shiftl (Z.ones 4) 28). change (-268435456) with (Z.lnot (Z.ones 28)).
  rewrite Z.shiftl_spec, Z.lnot_spec by lia. destruct (Z.lt_ge_cases j 28).
  - rewrite Z.testbit_neg_r, Z.ones_spec_low by lia. done.
  - rewrite Z.ones_spec_low, Z.ones_spec_high by lia. done.
Qed.

Lemma agree_jump : agrees w xpc a b -> In (opcode w) [I_J; I_JAL] -> agree.
Proof.
  intros Ha Hop. unfold agrees in Ha.
  assert (E : MipsSim.IndexToAddr (Z.land (u32 w) 67108863) = off26 w).
  { unfold MipsSim.IndexToAddr, off26. by destruct (fields_u32 w) as (_ & _ & _ & _ & _ & _ & ->). }
  assert (T : top4 xpc = top4 after -> jump_target w xpc =
    wrap32 (Z.lor (Z.land (u32 after) 4026531840) (u32 (off26 w)))).
  { intros H. unfold jump_target. rewrite H, top4_target; [done|apply wrap32_range]. }
  destruct Hop as [Hop|[Hop|[]]]; symmetry in Hop; rewrite Hop in Ha; cbn in Ha;
    rewrite <- after_8 in Ha; op_case Hop; unfold MipsSim.decode_extra; rewrite E; run_mips;
    cbv [mret M_ret]; by rewrite T, ?after_8.
Qed.

Lemma agree_bcond : agrees w xpc a b -> opcode w = I_BCOND -> agree.
Proof.
  intros Ha Hop. unfold agrees in Ha. rewrite Hop in Ha. cbn in Ha.
  set (r1 := <[31%nat := after]> r).
  assert (H1 : Forall is_int r1) by (apply Forall_insert; [done|apply wrap32_range]).
  assert (L1 : length r1 = 32%nat) by (unfold r1; by rewrite length_insert).
  destruct (sign_nth _ Hints (Z.to_nat (rs w))) as [N0 N1].
  destruct (sign_nth _ H1 (Z.to_nat (rs w))) as [N2 N3].
  destruct Ha as [Ha|[Ha|[Ha|Ha]]].
  1,2: exists r, hi, lo. 3,4: exists r1, hi, lo.
  all: eexists; split; [done|split];
    [run_exec Hop; unfold bcond, mbind, X_bind, R, ask; rewrite Ha; pick; unfold W_, upd; cbv beta iota;
     rewrite <- ?after_8; apply exec_branch_run|
     mstep by (by apply lift_Ok, Decode_bcond); rewrite decode_bcond_rt, Ha; pick; open_mips].
  all: run_mips; unfold cpu; cbn [Reg set_Reg].
  - rewrite N0. by apply mips_branch.
  - rewrite N1. by apply mips_branch.
  - change (<[Z.to_nat 31 := after]> r) with r1. rewrite N2. by apply mips_branch.
  - change (<[Z.to_nat 31 := after]> r) with r1. rewrite N3. by apply mips_branch.
Qed.

(** An opcode of the second table. *)
Ltac run_special Hop Hf :=
  run_exec Hop; unfold special, mbind, X_bind, R, ask; rewrite Hf; pick.

Ltac special_case Hop Hf :=
  do 4 eexists; split; [|split];
  [|run_special Hop Hf; reflexivity
   |mstep by (apply lift_Ok; eapply Decode_special; [exact Hop|rewrite Hf; reflexivity]); open_mips;
    run_mips; unfold MipsSim.break];
  [cbn; by rewrite ?length_insert|].

Ltac in_cases H :=
  repeat (destruct H as [H|H]; [symmetry in H|]); [..|destruct H].

Lemma agree_alu : agrees_special w a b -> opcode w = I_SPECIAL ->
  In (funct w) [I_ADD; I_ADDU; I_SUB; I_SUBU; I_AND; I_OR; I_XOR; I_NOR; I_SLT; I_SLTU] -> agree.
Proof.
  intros Ha Hop Hf. pose proof (nth_int (Z.to_nat (rs w))) as Ia.
  pose proof (nth_int (Z.to_nat (rt w))) as Ib. unfold agrees_special in Ha.
  in_cases Hf; rewrite Hf in Ha; cbn in Ha; special_case Hop Hf; try done.
  - destruct (MipsSim.add_overflow a b Ia Ib) as [(_ & _ & O & _)|(N & _)]; [|done].
    rewrite O. run_mips. done.
  - destruct (MipsSim.sub_overflow a b Ia Ib) as [(_ & _ & O)|(N & _)]; [|done].
    rewrite O. run_mips. done.
  - unfold cpu. cbn [Reg]. by rewrite Ha, Z.lor_diag.
Qed.

Lemma agree_moves : agrees_special w a b -> opcode w = I_SPECIAL ->
  In (funct w) [I_JR; I_JALR; I_MFHI; I_MTHI; I_MFLO; I_MTLO] -> agree.
Proof.
  intros Ha Hop Hf. unfold agrees_special in Ha.
  in_cases Hf; rewrite Hf in Ha; cbn in Ha; special_case Hop Hf; try done.
  cbv [mret M_ret]. unfold cpu. cbn [Reg set_Reg]. pose proof (rd_range w). pose proof (rs_range w).
  rewrite after_8. rewrite !nth_lookup, list_lookup_insert_ne by lia. done.
Qed.

(** A logical shift of an [int] that is not negative is the arithmetic one. *)
Lemma shift_nonneg x j : is_int x -> 0 <= j -> 0 <= x \/ j = 0 ->
  wrap32 (Z.shiftr (u32 x) j) = Z.shiftr x j.
Proof.
  intros Hx' Hj [H| ->].
  - rewrite u32_small by (unfold is_int, is_uint in *; lia). apply wrap32_small. by apply is_int_shr.
  - rewrite !Z.shiftr_0_r, wrap32_u32. by apply wrap32_small.
Qed.

Lemma land_31 x : 0 <= x < 32 -> Z.land x 31 = x.
Proof. intros H. change 31 with (Z.ones 5). rewrite Z.land_ones by lia. by apply Z.mod_small. Qed.

Lemma shifted_run n v c : 0 <= n < 32 -> @shifted W n v c = Ret (v, c).
Proof. intros H. unfold shifted. assert ((0 <=? n) && (n <? 32) = true) as -> by lia. done. Qed.

Lemma agree_shift : agrees_special w a b -> opcode w = I_SPECIAL ->
  In (funct w) [I_SLL; I_SRL; I_SRA; I_SLLV; I_SRLV; I_SRAV] -> agree.
Proof.
  intros Ha Hop Hf. pose proof (nth_int (Z.to_nat (rt w))) as Ib. unfold agrees_special in Ha.
  pose proof (shamt_range w) as Hs.
  in_cases Hf; rewrite Hf in Ha; cbn in Ha.
  1,2,3: special_case Hop Hf; try done; unfold cpu; cbn [Reg]; by rewrite shift_nonneg by (lia || done).
  all: do 4 eexists; split; [|split];
    [|run_special Hop Hf; unfold cpu; cbn [Reg]; rewrite shifted_run by lia; reflexivity|
      mstep by (apply lift_Ok; eapply Decode_special; [exact Hop|rewrite Hf; reflexivity]); open_mips;
      rewrite ?land_31 by lia; run_mips; unfold MipsSim.break];
    [cbn; by rewrite ?length_insert|].
  1,3: by rewrite land_31 by lia.
  rewrite land_31 by lia. cbn [Reg]. rewrite shift_nonneg by (lia || done). done.
Qed.

Lemma small_product x y hi0 lo0 : is_int hi0 -> is_int lo0 -> hi0 * 4294967296 + u32 lo0 = x * y ->
  lo0 = wrap32 (x * y) /\ hi0 = x * y / 4294967296.
Proof.
  intros Hh Hl E. pose proof (u32_range lo0) as Ru. unfold is_uint in Ru. split.
  - rewrite <- E. rewrite <- (wrap32_small lo0) at 1 by done. apply wrap32_ext.
    unfold u32. rewrite (Z.add_comm (_ * _)), Z.mod_add, Zmod_mod by lia. done.
  - apply Z.div_unique with (u32 lo0); lia.
Qed.

Lemma mult_same x y : is_int x -> is_int y -> Z.abs x < 65536 /\ Z.abs y < 65536 ->
  MipsSim.Mult x y true = ((do_mult x y).2, (do_mult x y).1).
Proof.
  intros Hx' Hy' [Sx Sy]. pose proof (MipsSim.Mult_signed x y Hx' Hy') as P.
  destruct (do_mult_spec x y Hx' Hy') as (D1 & _ & D2).
  destruct (MipsSim.Mult x y true) as [hi0 lo0]. destruct P as (P1 & P2 & P3).
  destruct (small_product _ _ _ _ P1 P2 P3) as [-> ->]. rewrite D1. f_equal.
  rewrite (Z.div_small (Z.abs x * Z.abs y)) in D2 by nia. lia.
Qed.

Lemma multu_same x y : 0 <= x < 65536 /\ 0 <= y < 65536 ->
  MipsSim.Mult x y false = ((multiply x y).2, (multiply x y).1).
Proof.
  intros [Sx Sy]. assert (is_int x /\ is_int y) as [Hx' Hy'] by (unfold is_int; lia).
  pose proof (MipsSim.Mult_unsigned x y Hx' Hy') as P.
  destruct (multiply_spec x y) as (v & E & V1 & V2); [lia..|].
  rewrite !wrap32_small in E by done. rewrite E. cbn [fst snd].
  destruct (MipsSim.Mult x y false) as [hi0 lo0]. destruct P as (P1 & P2 & P3).
  rewrite !(u32_small x), !(u32_small y) in P3 by (unfold is_uint; lia).
  assert (x * y < 4294967296) by nia. rewrite Z.div_small in V2 by nia.
  pose proof (u32_range hi0) as R1. pose proof (u32_range lo0) as R2. unfold is_uint in *.
  assert (hi0 = 0) as ->.
  { rewrite <- (wrap32_small hi0), <- wrap32_u32 by done. replace (u32 hi0) with 0 by lia. done. }
  change (u32 0) with 0 in P3.
  destruct (small_product x y 0 lo0) as [-> _]; [unfold is_int; lia|done|lia|]. f_equal; lia.
Qed.

Lemma agree_mult : agrees_special w a b -> opcode w = I_SPECIAL ->
  In (funct w) [I_MULT; I_MULTU] -> agree.
Proof.
  intros Ha Hop Hf. pose proof (nth_int (Z.to_nat (rs w))) as Ia.
  pose proof (nth_int (Z.to_nat (rt w))) as Ib. unfold agrees_special in Ha.
  in_cases Hf; rewrite Hf in Ha; cbn in Ha.
  all: do 4 eexists; split; [|split];
    [|run_special Hop Hf; unfold cpu; cbn [Reg]; reflexivity|
      mstep by (apply lift_Ok; eapply Decode_special; [exact Hop|rewrite Hf; reflexivity]); open_mips;
      run_mips]; [done|].
  - change (bool_decide (MipsSim.OP_MULT = MipsSim.OP_MULT)) with true.
    rewrite (mult_same a b) by done. run_mips. done.
  - change (bool_decide (MipsSim.OP_MULTU = MipsSim.OP_MULT)) with false.
    rewrite (multu_same a b) by done. run_mips. done.
Qed.

Lemma agree_div : agrees_special w a b -> opcode w = I_SPECIAL ->
  In (funct w) [I_DIV; I_DIVU] -> agree.
Proof.
  intros Ha Hop Hf. pose proof (nth_int (Z.to_nat (rs w))) as Ia.
  pose proof (nth_int (Z.to_nat (rt w))) as Ib. unfold agrees_special in Ha.
  in_cases Hf; rewrite Hf in Ha; cbn in Ha.
  - assert (C : (b =? 0) || (a =? -2147483648) && (b =? -1) = false) by lia.
    do 4 eexists; split; [|split];
    [|run_special Hop Hf; unfold do_div, cpu; cbn [Reg]; rewrite C; reflexivity|
      mstep by (apply lift_Ok; eapply Decode_special; [exact Hop|rewrite Hf; reflexivity]); open_mips;
      run_mips]; [done|].
    apply orb_false_iff in C as [-> ->]. run_mips. done.
  - assert (C : u32 b =? 0 = false).
    { apply Z.eqb_neq. unfold u32, is_int in *. Z.div_mod_to_equations. lia. }
    do 4 eexists; split; [|split];
    [|run_special Hop Hf; unfold do_divu, cpu; cbn [Reg]; rewrite C; reflexivity|
      mstep by (apply lift_Ok; eapply Decode_special; [exact Hop|rewrite Hf; reflexivity]); open_mips;
      run_mips]; [done|].
    rewrite C. run_mips. done.
Qed.

Lemma special_groups : agrees_special w a b ->
  In (funct w) [I_ADD; I_ADDU; I_SUB; I_SUBU; I_AND; I_OR; I_XOR; I_NOR; I_SLT; I_SLTU] \/
  In (funct w) [I_JR; I_JALR; I_MFHI; I_MTHI; I_MFLO; I_MTLO] \/
  In (funct w) [I_SLL; I_SRL; I_SRA; I_SLLV; I_SRLV; I_SRAV] \/
  In (funct w) [I_MULT; I_MULTU] \/ In (funct w) [I_DIV; I_DIVU].
Proof.
  unfold agrees_special. cbv zeta. generalize (funct w). intros f.
  repeat match goal with
  | |- (if ?x =? ?y then _ else _) -> _ => destruct (Z.eqb_spec x y) as [->|_]; [cbn; tauto|]
  end. done.
Qed.

Lemma agree_all : agrees w xpc a b -> agree.
Proof.
  intros Ha. destruct (Z.eq_dec (opcode w) I_SPECIAL) as [E0|N0].
  { assert (Hs : agrees_special w a b) by (unfold agrees in Ha; by rewrite E0 in Ha).
    destruct (special_groups Hs) as [H|[H|[H|[H|H]]]];
      [by apply agree_alu|by apply agree_moves|by apply agree_shift|by apply agree_mult|by apply agree_div]. }
  destruct (Z.eq_dec (opcode w) I_BCOND) as [E1|N1]; [by apply agree_bcond|].
  assert (G : In (opcode w) [I_J; I_JAL] \/ In (opcode w) [I_BEQ; I_BNE; I_BLEZ; I_BGTZ] \/
    In (opcode w) [I_ADDI; I_ADDIU; I_SLTI; I_SLTIU; I_ANDI; I_ORI; I_XORI; I_LUI]).
  { revert Ha N0 N1. clear. unfold agrees. cbv zeta. generalize (opcode w). intros op Ha N0%Z.eqb_neq N1%Z.eqb_neq. cbn [In].
    rewrite N0, N1 in Ha.
    repeat match type of Ha with context [op =? ?y] =>
      destruct (Z.eqb_spec op y) as [E|E]; [clear -E; rewrite E; tauto|clear E; cbn [orb] in Ha]
    end. done. }
  destruct G as [H|[H|H]]; [by apply agree_jump|by apply agree_branch|by apply agree_immediate].
Qed.
End Step.

(** ** One step *)

(** The registers of the two machines are the same; [mipssim.cc] has nothing
    to load from an instruction before. *)
Definition same_registers {W} (c : CPU W) (m : Machine.Machine) : Prop :=
  exists prev lv bad, Machine.registers m =
    <[0%nat := 0]> (Reg c) ++ [HI c; LO c; pc c; npc c; prev; 0; lv; bad].

(** Register [j] as an instruction reads it. *)
Definition operand {W} (c : CPU W) (j : Z) : Z := nth (Z.to_nat j) (<[0%nat := 0]> (Reg c)) 0.

(** The end of [OneInstruction]. *)
Lemma finish {K} (m : Machine.Machine) (k : K) r hi lo p n prev lv bad next : length r = 32%nat ->
  (_ ← Machine.DelayedLoad 0 0;
   pc ← Machine.getR Machine.PCReg; _ ← Machine.setR Machine.PrevPCReg pc;
   n ← Machine.getR Machine.NextPCReg; _ ← Machine.setR Machine.PCReg n;
   Machine.setR Machine.NextPCReg next)
    (Machine.set_registers (r ++ [hi; lo; p; n; prev; 0; lv; bad]) m, k) =
  Ok (tt, (Machine.set_registers (<[0%nat := 0]> r ++ [hi; lo; n; next; p; 0; 0; bad]) m, k)).
Proof. intros Hr. do 32 (destruct r as [|? r]; [done|]). by destruct r; destruct m. Qed.

(** [step] when the word has been fetched; 0 is skipped. *)
Lemma step_run {W} unix (c : CPU W) w : ifetch (pc c) c = Ret (w, c) ->
  step unix c =
  (let c1 := mkCPU (<[0%nat := 0]> (Reg c)) (HI c) (LO c) (mem c) (npc c) (wrap32 (npc c + 4)) (world c) in
   if w =? 0 then Ret (tt, c1) else execute unix w (pc c) c1).
Proof.
  intros Hf. unfold step, mbind, X_bind, ask, upd, W_. cbv beta iota. unfold ifetch, fetch, access in *.
  destruct (inside (pc c) 4); [|done]. cbn in Hf |- *. injection Hf as ->.
  by destruct (w =? 0).
Qed.

(** [OneInstruction] when the word has been fetched and executed. *)
Lemma OneInstruction_run {K} getPid h m (k k1 : K) m1 w i r hi lo p n prev lv bad r' hi' lo' next :
  let s1 := (Machine.set_registers (r ++ [hi; lo; p; n; prev; 0; lv; bad]) m1, k1) in
  length r = 32%nat -> length r' = 32%nat ->
  Machine.registers m = r ++ [hi; lo; p; n; prev; 0; lv; bad] ->
  Machine.ReadMem getPid h p 4 (m, k) = Ok (Some w, s1) ->
  MipsSim.Decode (u32 w) = Ok i ->
  MipsSim.execute getPid h i (wrap32 (n + 4)) s1 =
    Ok (MipsSim.Next 0 0 next, (Machine.set_registers (r' ++ [hi'; lo'; p; n; prev; 0; lv; bad]) m1, k1)) ->
  MipsSim.OneInstruction getPid h (m, k) =
    Ok (tt, (Machine.set_registers (<[0%nat := 0]> r' ++ [hi'; lo'; n; next; p; 0; 0; bad]) m1, k1)).
Proof.
  intros s1 Hr Hr' Hm Hf Hd He. unfold MipsSim.OneInstruction.
  assert (G : forall j v (s : Machine.Machine * K) r0 hi0 lo0, length r0 = 32%nat ->
    Machine.registers s.1 = r0 ++ [hi0; lo0; p; n; prev; 0; lv; bad] ->
    [hi0; lo0; p; n; prev; 0; lv; bad] !! j = Some v ->
    Machine.getR (32 + Z.of_nat j) s = Ok (v, s)).
  { intros j v s r0 hi0 lo0 L0 Es Hj. unfold Machine.getR. mstep. rewrite Es.
    apply lift_Ok, arr_get_in; [lia|]. replace (Z.to_nat (32 + Z.of_nat j)) with (length r0 + j)%nat by lia.
    rewrite lookup_app_r by lia. by replace (length r0 + j - length r0)%nat with j by lia. }
  mstep by exact (G 2%nat p (m, k) r hi lo Hr Hm eq_refl). mstep by exact Hf. mstep by (by apply lift_Ok).
  mstep by exact (G 3%nat n s1 r hi lo Hr eq_refl eq_refl). mstep by exact He. by apply finish.
Qed.

Lemma lift_inv {S A} (o : outcome A) (s s' : S) a : lift o s = Ok (a, s') -> o = Ok a /\ s' = s.
Proof. unfold lift. destruct o; naive_solver. Qed.

(** C25: The two MIPS interpreters of the repository agree.  From machines with
    the same registers that fetch the same word outside a branch delay slot,
    one round of [runprogram] of execute.c and [OneInstruction] of mipssim.cc
    both return, in machines with the same registers again (general registers,
    HI, LO, the two program counters), with memory and kernel as the fetch left
    them: for every instruction that does not use memory and whose operands
    meet the condition [agrees]. *)
Theorem execute_agrees {W K} unix getPid h (c : CPU W) m (k k1 : K) m1 w :
  cpu_ok c -> same_registers c m -> npc c = wrap32 (pc c + 4) ->
  ifetch (pc c) c = Ret (w, c) ->
  Machine.ReadMem getPid h (pc c) 4 (m, k) = Ok (Some w, (m1, k1)) ->
  Machine.registers m1 = Machine.registers m ->
  agrees w (pc c) (operand c (rs w)) (operand c (rt w)) ->
  exists c' m', step unix c = Ret (tt, c') /\
    MipsSim.OneInstruction getPid h (m, k) = Ok (tt, (m', k1)) /\
    same_registers c' m' /\ mem c' = mem c /\ world c' = world c /\
    m' = Machine.set_registers (Machine.registers m') m1.
Proof.
  intros Hc (prev & lv & bad & Hm) Hn Hf Hr Hm1 Ha. unfold operand in Ha.
  set (r := <[0%nat := 0]> (Reg c)) in *.
  assert (Lr : length r = 32%nat) by (unfold r; rewrite length_insert; apply Hc).
  assert (Ir : Forall is_int r) by (apply Forall_insert; [apply Hc|unfold is_int; lia]).
  assert (Iw : is_int w) by (pose proof (ok_fetch (pc c) c Hc) as F; unfold ifetch in Hf; rewrite Hf in F; apply F).
  destruct (agree_all unix getPid h m1 k1 w (pc c) prev lv bad (mem c) (world c) r (HI c) (LO c)
              Lr Ir Iw Ha) as (r' & hi' & lo' & n & Lr' & E1 & E2).
  apply bind_Ok in E2 as (i & s2 & Ed & Ee).
  assert (Em1 : (m1, k1) = mips m1 k1 (pc c) prev lv bad r (HI c) (LO c)).
  { unfold mips, npc_. rewrite <- Hn, <- Hm, <- Hm1. f_equal. clear. by destruct m1. }
  apply lift_inv in Ed as [Ed' ->]. unfold mips, npc_ in Em1, Ee. rewrite <- Hn in Em1, Ee.
  rewrite step_run with (w := w) by done. cbv zeta. fold r.
  unfold cpu, npc_ in E1. rewrite <- Hn in E1.
  exists (mkCPU (if w =? 0 then r else r') hi' lo' (mem c) (npc c) n (world c)).
  eexists. split; [|split; [eapply OneInstruction_run; [exact Lr|exact Lr'|exact Hm|by rewrite Hr, Em1|exact Ed'|exact Ee]|]].
  - destruct (Z.eqb_spec w 0) as [->|]; [|exact E1]. cbn in E1. by injection E1 as _ <- <- <-.
  - split; [|split; [reflexivity|split; [reflexivity|clear; by destruct m1]]].
    exists (pc c), 0, bad. cbn [Machine.registers Machine.set_registers Reg HI LO pc npc].
    assert (<[0%nat := 0]> r' = <[0%nat := 0]> (if w =? 0 then r else r')) as ->; [|reflexivity].
    clear - E1. destruct (Z.eqb_spec w 0) as [->|]; [|reflexivity].
    cbn in E1. injection E1 as <- _ _ _. by rewrite list_insert_insert_eq.
Qed.

(** [subu r3,r1,r2] on both machines. *)
Definition demo_word : Z := 2234403.
Definition demo_regs : list Z := 0 :: 7 :: 9 :: replicate 29 0.

Definition demo_cpu : CPU unit :=
  mkCPU demo_regs 0 0 (put_bytes (int_bytes demo_word) 0 ∅) memoffset (memoffset + 4) tt.

Definition demo_mips (regs : list Z) (used : bool) : Machine.Machine :=
  Machine.mkMachine (int_bytes demo_word ++ replicate 4092 0) regs None
    (Some (map (fun i => if Nat.eqb i 0 then Machine.mkTE 2097152 0 true false used false 7
                         else Machine.mkTE (-1) (Z.of_nat i) false false false false (-1)) (seq 0 32)))
    0 [0; 1; 2; 3] 0 0 (BitMap.mkBitMap 32 1 [1]) 0 false Machine.UserMode.

Definition demo_mips_regs : list Z :=
  demo_regs ++ [0; 0; memoffset; memoffset + 4; 0; 0; 0; 0].

Lemma demo_cpu_ok : cpu_ok demo_cpu.
Proof.
  constructor; try done.
  - repeat constructor; unfold is_int; lia.
  - apply mem_ok_put; [apply int_bytes_bytes|]. intros j. unfold byte_at. rewrite lookup_empty. done.
Qed.

Lemma execute_agrees_witness :
  exists c' m', step (fun _ _ _ => None) demo_cpu = Ret (tt, c') /\
    MipsSim.OneInstruction (fun k : Z => k) (fun _ => mret tt) (demo_mips demo_mips_regs false, 7) =
      Ok (tt, (m', 7)) /\
    same_registers c' m'.
Proof.
  destruct (execute_agrees (fun _ _ _ => None) (fun k : Z => k) (fun _ => mret tt) demo_cpu
              (demo_mips demo_mips_regs false) 7 7 (demo_mips demo_mips_regs true) demo_word)
    as (c' & m' & E1 & E2 & E3 & _).
  - exact demo_cpu_ok.
  - exists 0, 0, 0. reflexivity.
  - reflexivity.
  - vm_compute. reflexivity.
  - vm_compute. reflexivity.
  - reflexivity.
  - vm_compute. exact I.
  - exists c', m'. exact (conj E1 (conj E2 E3)).
Defined.

(** ** Where they differ *)

(** One instruction on each, from the registers [x] in r1 and [y] in r2: what
    they leave in r3, and in HI. *)
Definition exec_result (w x y : Z) : option (Z * Z) :=
  match execute (W := unit) (fun _ _ _ => None) w memoffset
          (mkCPU (0 :: x :: y :: replicate 29 0) 0 0 ∅ (memoffset + 4) (memoffset + 8) tt) with
  | Ret (_, c) => Some (nth 3 (Reg c) 0, HI c)
  | Stop _ => None
  end.

Definition mips_result (w x y : Z) : option (Z * Z) :=
  match (i ← lift (MipsSim.Decode (u32 w));
         MipsSim.execute (fun k : Z => k) (fun _ => mret tt) i (memoffset + 8))
          (demo_mips ((0 :: x :: y :: replicate 29 0) ++
                      [0; 0; memoffset; memoffset + 4; 0; 0; 0; 0]) true, 7) with
  | Ok (MipsSim.Next _ _ _, (m, _)) =>
    Some (nth 3 (Machine.registers m) 0, nth 32 (Machine.registers m) 0)
  | _ => None
  end.

(** An I-type instruction with [rs] = r1 and [rt] = r3, and an R-type one with
    [rs] = r1, [rt] = r2, [rd] = r3. *)
Definition itype (op imm : Z) : Z := wrap32 (op * 67108864 + 1 * 2097152 + 3 * 65536 + imm).
Definition rtype (f sh : Z) : Z := 1 * 2097152 + 2 * 65536 + 3 * 2048 + sh * 64 + f.

(** The places where the interpreter of execute.c does not compute what the
    instruction means, each with an input: ANDI, ORI and XORI extend the sign of
    their immediate (mipssim.cc does not); SLLV has no meaning when the register
    is 32 or more, where mipssim.cc takes it modulo 32; the high word of MULT
    and MULTU lacks carries; and, the other way round, OR and SRL of mipssim.cc
    are wrong and those of execute.c are right. *)
Theorem execute_differs :
  exec_result (itype I_ANDI 32768) (-1) 0 = Some (-32768, 0) /\
  mips_result (itype I_ANDI 32768) (-1) 0 = Some (32768, 0) /\
  exec_result (itype I_ORI 32768) 0 0 = Some (-32768, 0) /\
  mips_result (itype I_ORI 32768) 0 0 = Some (32768, 0) /\
  exec_result (itype I_XORI 32768) 0 0 = Some (-32768, 0) /\
  mips_result (itype I_XORI 32768) 0 0 = Some (32768, 0) /\
  exec_result (rtype I_SLLV 0) 33 5 = None /\ mips_result (rtype I_SLLV 0) 33 5 = Some (10, 0) /\
  exec_result (rtype I_MULT 0 - 6144) 131071 131071 = Some (0, 1) /\
  mips_result (rtype I_MULT 0 - 6144) 131071 131071 = Some (0, 3) /\
  131071 * 131071 / 4294967296 = 3 /\
  exec_result (rtype I_MULTU 0 - 6144) (-1) (-1) = Some (0, -131075) /\
  mips_result (rtype I_MULTU 0 - 6144) (-1) (-1) = Some (0, -2) /\
  exec_result (rtype I_OR 0) 1 2 = Some (3, 0) /\ mips_result (rtype I_OR 0) 1 2 = Some (1, 0) /\
  exec_result (rtype I_SRL 1) 0 (-2) = Some (2147483647, 0) /\
  mips_result (rtype I_SRL 1) 0 (-2) = Some (-1, 0).
Proof. by vm_compute. Qed.
