(* ===== verification/Disasm.v ===== *)
(** * bin/d.c, opstrings.c, out.c: the disassembler

    [dump_ascii] prints an instruction, [out.c] the sections, relocations and
    external symbols of an object file.  Output goes through [myprintf], which
    formats into a buffer of 100 characters and keeps the column, so that
    [mytab] can align; both are modelled as a state.  How [main] of out.c fills
    its tables from the file is left out. *)
From S2P Require Import Prelude CInt Instr MipsTrace.
From S2P Require MipsSim ExecuteSim.
From Stdlib Require Import ZArith Lia List Bool String Ascii.
From stdpp Require Import base tactics list numbers strings pretty.
Local Open Scope string_scope.
Local Open Scope Z_scope.

(** ** Output *)

(** [column] of out.c, and what has been written. *)
Record Out := mkOut { column : Z; text : string }.

Definition TAB : ascii := "009"%char.
Definition NL : ascii := "010"%char.
Definition QUOTE : ascii := "034"%char.
Definition tab : string := String TAB "".
Definition nl : string := String NL "".

(** How a character moves the column. *)
Definition advance (col : Z) (c : ascii) : Z :=
  if Ascii.eqb c NL then 1
  else if Ascii.eqb c TAB then Z.land (col + 7) (Z.lnot 7) + 1
  else col + 1.

Fixpoint advances (col : Z) (s : string) : Z :=
  match s with EmptyString => col | String c s' => advances (advance col c) s' end.

(** [myprintf], given the formatted text: [buf] holds 99 characters and the
    terminating 0. *)
Definition myprintf (buf : string) : M Out unit := fun o =>
  if Nat.ltb (String.length buf) 100 then
    Ok (tt, mkOut (advances (column o) buf) (text o +:+ buf))
  else Fault BadAccess.

(** [mytab]: spaces up to column [n]. *)
Fixpoint spaces (n : nat) : string :=
  match n with O => "" | S n' => String " " (spaces n') end.

Definition mytab (n : Z) : M Out bool := fun o =>
  let k := Z.to_nat (n - column o) in
  let col := column o + Z.of_nat k in
  Ok (col =? n, mkOut col (text o +:+ spaces k)).

(** ** Conversions of printf *)

Definition hex_digit (z : Z) : ascii :=
  match nth_error (list_ascii_of_string "0123456789abcdef") (Z.to_nat z) with
  | Some c => c
  | None => "?"%char
  end.

(** "%0nx", and "%x" of a word of at most [n] digits. *)
Fixpoint hex_pad (n : nat) (z : Z) : string :=
  match n with
  | O => ""
  | S n' => hex_pad n' (z / 16) +:+ String (hex_digit (z mod 16)) ""
  end.

Fixpoint hex_min (n : nat) (z : Z) : string :=
  match n with
  | O => ""
  | S n' => (if z <? 16 then "" else hex_min n' (z / 16)) +:+ String (hex_digit (z mod 16)) ""
  end.

Definition x08 (z : Z) : string := hex_pad 8 (u32 z).
Definition x (z : Z) : string := hex_min 8 (u32 z).
Definition d (z : Z) : string := pretty z.

(** ** Tables *)

Definition regstrings : list string :=
  ["0"; "r1"; "r2"; "r3"; "r4"; "r5"; "r6"; "r7";
   "r8"; "r9"; "r10"; "r11"; "r12"; "r13"; "r14"; "r15";
   "r16"; "r17"; "r18"; "r19"; "r20"; "r21"; "r22"; "r23";
   "r24"; "r25"; "r26"; "r27"; "gp"; "sp"; "r30"; "r31"].

Definition normalops : list string :=
  ["special"; "bcond"; "j"; "jal"; "beq"; "bne"; "blez"; "bgtz";
   "addi"; "addiu"; "slti"; "sltiu"; "andi"; "ori"; "xori"; "lui";
   "cop0"; "cop1"; "cop2"; "cop3"; "024"; "025"; "026"; "027";
   "030"; "031"; "032"; "033"; "034"; "035"; "036"; "037";
   "lb"; "lh"; "lwl"; "lw"; "lbu"; "lhu"; "lwr"; "047";
   "sb"; "sh"; "swl"; "sw"; "054"; "055"; "swr"; "057";
   "lwc0"; "lwc1"; "lwc2"; "lwc3"; "064"; "065"; "066"; "067";
   "swc0"; "swc1"; "swc2"; "swc3"; "074"; "075"; "076"; "077"].

Definition specialops : list string :=
  ["sll"; "001"; "srl"; "sra"; "sllv"; "005"; "srlv"; "srav";
   "jr"; "jalr"; "012"; "013"; "syscall"; "break"; "016"; "017";
   "mfhi"; "mthi"; "mflo"; "mtlo"; "024"; "025"; "026"; "027";
   "mult"; "multu"; "div"; "divu"; "034"; "035"; "036"; "037";
   "add"; "addu"; "sub"; "subu"; "and"; "or"; "xor"; "nor";
   "050"; "051"; "slt"; "sltu"; "054"; "055"; "056"; "057";
   "060"; "061"; "062"; "063"; "064"; "065"; "066"; "067";
   "070"; "071"; "072"; "073"; "074"; "075"; "076"; "077"].

Definition symbol_type : list string :=
  ["Nil"; "Global"; "Static"; "Param"; "Local"; "Label"; "Proc"; "Block";
   "End"; "Member"; "Type"; "File"; "Register"; "Forward"; "StaticProc"; "Constant"].

Definition storage_class : list string :=
  ["Nil"; "Text"; "Data"; "Bss"; "Register"; "Abs"; "Undefined"; "CdbLocal";
   "Bits"; "CdbSystem"; "RegImage"; "Info"; "UserStruct"; "SData"; "SBss"; "RData";
   "Var"; "Common"; "SCommon"; "VarRegister"; "Variant"; "SUndefined"; "Init"].

Definition section_name : list string :=
  ["(null)"; ".text"; ".rdata"; ".data"; ".sdata"; ".sbss"; ".bss"; ".init";
   ".lit8"; ".lit4"].

Definition reloc_type : list string :=
  ["abs"; "16"; "32"; "26"; "hi16"; "lo16"; "gpdata"; "gplit"].

(** ** d.c *)

(** [R(i)], and the entries of opstrings.c: the fields index the tables. *)
Definition R (i : Z) : string := nth (Z.to_nat i) regstrings "".

(** The operands of an instruction of the second table. *)
Definition special_operands (instruction : Z) : M Out unit :=
  let op := funct instruction in
  let rd := R (rd instruction) in
  let rs := R (rs instruction) in
  let rt := R (rt instruction) in
  let one_of := fun l => existsb (Z.eqb op) l in
  if one_of [I_SLL; I_SRL; I_SRA] then myprintf (rd +:+ "," +:+ rt +:+ ",0x" +:+ x (shamt instruction))
  else if one_of [I_SLLV; I_SRLV; I_SRAV] then myprintf (rd +:+ "," +:+ rt +:+ "," +:+ rs)
  else if one_of [I_JR; I_JALR; I_MFLO; I_MTLO] then myprintf rs
  else if one_of [I_SYSCALL; I_BREAK] then mret tt
  else if one_of [I_MFHI; I_MTHI] then myprintf rd
  else if one_of [I_MULT; I_MULTU; I_DIV; I_DIVU] then myprintf (rs +:+ "," +:+ rt)
  else if one_of [I_ADD; I_ADDU; I_SUB; I_SUBU; I_AND; I_OR; I_XOR; I_NOR; I_SLT; I_SLTU] then
    myprintf (rd +:+ "," +:+ rs +:+ "," +:+ rt)
  else mret tt.

Definition bcond_name (instruction : Z) : string :=
  let op := rt instruction in
  if op =? I_BLTZ then "bltz" else if op =? I_BGEZ then "bgez"
  else if op =? I_BLTZAL then "bltzal" else if op =? I_BGEZAL then "bgezal" else "BCOND".

(** The operands of an instruction of the first table. *)
Definition normal_operands (instruction pc : Z) : M Out unit :=
  let op := opcode instruction in
  let rs := R (rs instruction) in
  let rt := R (rt instruction) in
  let one_of := fun l => existsb (Z.eqb op) l in
  if one_of [I_J; I_JAL] then myprintf (x08 (Z.lor (top4 pc) (off26 instruction)))
  else if one_of [I_BEQ; I_BNE] then
    myprintf (rt +:+ "," +:+ rs +:+ "," +:+ x08 (off16 instruction + pc + 4))
  else if one_of [I_ADDI; I_ADDIU; I_SLTI; I_SLTIU; I_ANDI; I_ORI; I_XORI] then
    myprintf (rt +:+ "," +:+ rs +:+ ",0x" +:+ x (immed instruction))
  else if one_of [I_LUI] then myprintf (rt +:+ ",0x" +:+ x (immed instruction))
  else if one_of [I_COP0; I_COP1; I_COP2; I_COP3] then mret tt
  else if one_of [I_LB; I_LH; I_LWL; I_LW; I_LBU; I_LHU; I_LWR; I_SB; I_SH; I_SWL; I_SW; I_SWR;
              I_LWC0; I_LWC1; I_LWC2; I_LWC3; I_SWC0; I_SWC1; I_SWC2; I_SWC3] then
    myprintf (rt +:+ ",0x" +:+ x (immed instruction) +:+ "(" +:+ rs +:+ ")")
  else mret tt.

(** [longdis] is 1 and is never changed. *)
Definition dump_ascii (instruction pc : Z) : M Out unit :=
  _ ← myprintf (x08 pc +:+ ": " +:+ x08 instruction +:+ "  ");
  _ ← myprintf tab;
  if instruction =? I_NOP then myprintf "nop"
  else if opcode instruction =? I_SPECIAL then
    name ← lift (arr_get specialops (funct instruction));
    _ ← myprintf (name +:+ tab);
    special_operands instruction
  else if opcode instruction =? I_BCOND then
    _ ← myprintf (bcond_name instruction);
    myprintf (tab +:+ R (rs instruction) +:+ "," +:+ x08 (off16 instruction + pc + 4))
  else
    name ← lift (arr_get normalops (opcode instruction));
    _ ← myprintf (name +:+ tab);
    normal_operands instruction pc.

(** ** out.c: sections, relocations, symbols *)

Record reloc := mkReloc {
  r_vaddr : Z;
  r_symndx : Z;
  r_type : Z;
  r_extern : bool }.

(** An entry of [scnhdr] with the [section] read for it; [s_name] up to its
    terminating 0. *)
Record section := mkSection {
  s_name : string;
  s_vaddr : Z;
  s_size : Z;
  data : list Z;
  relocs : list reloc }.

(** The fields of a symbol that are printed; [iss] is an index into [sspace].
    The array has [MAXSYMS] entries, 0 where none has been read. *)
Record sym := mkSym { value : Z; st : Z; sc : Z; iss : Z }.

Definition MAXSYMS : Z := 300.
Definition scUndefined : Z := 6.

(** [&sspace[i]] as a C string; there is no 0 after the end of the array. *)
Fixpoint c_string (l : list Z) : outcome string :=
  match l with
  | [] => Fault BadAccess
  | b :: r =>
    if b =? 0 then Ok "" else s ← c_string r; Ok (String (ascii_of_nat (Z.to_nat (u8 b))) s)
  end.

Definition sspace_at (sspace : list Z) (i : Z) : outcome string :=
  if 0 <=? i then c_string (drop (Z.to_nat i) sspace) else Fault BadAccess.

Definition print_one_reloc (symbols : list sym) (sspace : list Z) (rp : reloc) : M Out unit :=
  _ ← mytab 57;
  _ ← (if r_extern rp then
         if MAXSYMS <=? r_symndx rp then myprintf ("sym $" +:+ d (r_symndx rp))
         else
           y ← lift (arr_get symbols (r_symndx rp));
           s ← lift (sspace_at sspace (iss y));
           myprintf (String QUOTE (s +:+ String QUOTE ""))
       else s ← lift (arr_get section_name (r_symndx rp)); myprintf s);
  s ← lift (arr_get reloc_type (r_type rp));
  myprintf (" " +:+ s).

(** [print_reloc]: the first relocation at [vaddr], if any. *)
Definition print_reloc (symbols : list sym) (sspace : list Z) (vaddr : Z) (rs : list reloc) : M Out unit :=
  _ ← match List.find (fun rp => vaddr =? r_vaddr rp) rs with
      | Some rp => print_one_reloc symbols sspace rp
      | None => mret tt
      end;
  myprintf nl.

(** The bytes of a word of data, as characters where they can be printed. *)
Definition data_char (c : Z) : string :=
  if (32 <=? schar c) && (schar c <? 127) then String (ascii_of_nat (Z.to_nat c)) "" else ".".

Definition print_data (pc word : Z) : M Out unit :=
  _ ← myprintf (x08 pc +:+ ": " +:+ x08 word +:+ "  ");
  _ ← myprintf (data_char (nth 0 (int_bytes word) 0));
  _ ← myprintf (data_char (nth 1 (int_bytes word) 0));
  _ ← myprintf (data_char (nth 2 (int_bytes word) 0));
  _ ← myprintf (data_char (nth 3 (int_bytes word) 0));
  myprintf (tab +:+ d word).

(** The words of a section from [pc] on; [isText]: its name starts with .text. *)
Fixpoint print_words (symbols : list sym) (sspace : list Z) (isText : bool) (rs : list reloc) (pc : Z)
    (words : list Z) : M Out unit :=
  match words with
  | [] => mret tt
  | word :: rest =>
    _ ← (if isText then dump_ascii word pc else print_data pc word);
    _ ← print_reloc symbols sspace pc rs;
    print_words symbols sspace isText rs (wrap32 (pc + 4)) rest
  end.

Definition print_section (symbols : list sym) (sspace : list Z) (sec : section) : M Out unit :=
  _ ← myprintf ("Section: " +:+ s_name sec +:+ tab +:+ d (s_size sec) +:+ "/" +:+
                d (Z.of_nat (length (relocs sec))) +:+ nl);
  print_words symbols sspace (String.prefix ".text" (s_name sec)) (relocs sec) (s_vaddr sec) (data sec).

Definition print_symbol (sspace : list Z) (y : sym) : M Out unit :=
  _ ← (if sc y =? scUndefined then myprintf (tab +:+ " ") else myprintf (x08 (value y) +:+ " "));
  s ← lift (arr_get symbol_type (st y)); _ ← myprintf s;
  _ ← mytab 25;
  s ← lift (arr_get storage_class (sc y)); _ ← myprintf s;
  _ ← mytab 41;
  s ← lift (sspace_at sspace (iss y)); myprintf (s +:+ nl).

Fixpoint for_each {A} (f : A -> M Out unit) (l : list A) : M Out unit :=
  match l with [] => mret tt | a :: r => _ ← f a; for_each f r end.

(** [main] once the tables are filled: [n] external symbols. *)
Definition print_file (sections : list section) (symbols : list sym) (n : nat) (sspace : list Z) :
    M Out unit :=
  _ ← for_each (print_section symbols sspace) sections;
  _ ← myprintf ("External Symbols:" +:+ nl +:+ "Value" +:+ tab +:+ " Type" +:+ tab +:+ tab +:+
                "Storage Class" +:+ tab +:+ "Name" +:+ nl);
  for_each (print_symbol sspace) (take (Nat.min n (Z.to_nat MAXSYMS)) symbols).

(** ** The column *)

Lemma string_app_assoc (a b c : string) : (a +:+ b) +:+ c = a +:+ (b +:+ c).
Proof.
  induction a as [|y a IH]; [done|]. change (String y ((a +:+ b) +:+ c) = String y (a +:+ (b +:+ c))).
  by rewrite IH.
Qed.

Lemma string_app_nil (a : string) : a +:+ "" = a.
Proof. induction a as [|y a IH]; [done|]. change (String y (a +:+ "") = String y a). by rewrite IH. Qed.

Lemma advances_app a b col : advances col (a +:+ b) = advances (advances col a) b.
Proof.
  revert col. induction a as [|c a IH]; intros col; [done|].
  change (advances (advance col c) (a +:+ b) = advances (advances (advance col c) a) b). apply IH.
Qed.

Lemma advances_spaces n col : advances col (spaces n) = col + Z.of_nat n.
Proof.
  revert col. induction n as [|n IH]; intros col; [cbn; lia|]. cbn [spaces advances].
  rewrite IH. unfold advance. cbn. lia.
Qed.

(** [column] is the column of the text that has been written. *)
Definition in_step (o : Out) : Prop := column o = advances 1 (text o).

(** [m] only appends, and keeps [column] in step. *)
Definition tracks {A} (m : M Out A) : Prop :=
  forall o a o', m o = Ok (a, o') ->
    exists s, text o' = text o +:+ s /\ column o' = advances (column o) s.

Create HintDb out discriminated.

Lemma tracks_myprintf s : tracks (myprintf s).
Proof.
  intros o a o'. unfold myprintf. destruct (Nat.ltb _ _); [|done]. intros [= _ <-]. by exists s.
Qed.

Lemma tracks_mytab n : tracks (mytab n).
Proof.
  intros o a o' [= _ <-]. eexists. split; [reflexivity|]. cbn [column]. by rewrite advances_spaces.
Qed.

Lemma tracks_ret {A} (a : A) : tracks (mret a).
Proof. intros o b o' [= _ <-]. exists "". by rewrite string_app_nil. Qed.

Lemma tracks_lift {A} (x : outcome A) : tracks (lift x).
Proof.
  intros o b o'. unfold lift. destruct x; [|done]. intros [= _ <-]. exists "". by rewrite string_app_nil.
Qed.

Lemma tracks_bind {A B} (m : M Out A) (f : A -> M Out B) :
  tracks m -> (forall a, tracks (f a)) -> tracks (m ≫= f).
Proof.
  intros Hm Hf o b o' H. inv_bind H. destruct (Hm _ _ _ E) as (s1 & T1 & C1).
  destruct (Hf _ _ _ _ H) as (s2 & T2 & C2). exists (s1 +:+ s2).
  rewrite T2, T1, string_app_assoc, advances_app, <- C1. done.
Qed.

#[export] Hint Resolve tracks_myprintf tracks_mytab tracks_ret tracks_lift : out.

(** Step through a printing routine. *)
Ltac track := repeat match goal with
  | |- tracks (_ ≫= _) => apply tracks_bind; [|intros ?]
  | |- tracks (if ?c then _ else _) => destruct c
  | |- tracks (match ?y with Some _ => _ | None => _ end) => destruct y
  | |- tracks _ => solve [eauto with out]
  end.

Lemma tracks_dump_ascii w pc : tracks (dump_ascii w pc).
Proof. unfold dump_ascii, special_operands, normal_operands. track. Qed.

Lemma tracks_print_reloc symbols sspace v rs : tracks (print_reloc symbols sspace v rs).
Proof. unfold print_reloc, print_one_reloc. track. Qed.

#[export] Hint Resolve tracks_dump_ascii tracks_print_reloc : out.

Lemma tracks_for_each {A} (f : A -> M Out unit) l : (forall a, tracks (f a)) -> tracks (for_each f l).
Proof. intros Hf. induction l as [|a l IH]; cbn [for_each]; track; apply Hf. Qed.

Lemma tracks_words symbols sspace t rs words : forall pc,
  tracks (print_words symbols sspace t rs pc words).
Proof.
  induction words as [|w words IH]; intros pc; cbn [print_words]; [track|].
  unfold print_data. track; apply IH.
Qed.

#[export] Hint Resolve tracks_words : out.

(** The column that [mytab] aligns by is right: whatever [out.c] has
    printed, [column] is the column at which the text written so far ends (tabs
    to the next multiple of 8, a new line to column 1), and the output is only
    appended to. *)
Theorem disasm_column sections symbols n sspace o o' :
  in_step o -> print_file sections symbols n sspace o = Ok (tt, o') ->
  in_step o' /\ exists s, text o' = text o +:+ s.
Proof.
  intros Ho H. assert (T : tracks (print_file sections symbols n sspace)).
  { unfold print_file. track; apply tracks_for_each; intros;
      unfold print_section, print_symbol; track. }
  destruct (T _ _ _ H) as (s & E & C). split; [|eauto].
  unfold in_step in *. by rewrite C, E, advances_app, <- Ho.
Qed.

(** ** Against the simulator *)

(** [m] prints [s], whatever has been printed. *)
Definition says (m : M Out unit) (s : string) : Prop :=
  forall o, m o = Ok (tt, mkOut (advances (column o) s) (text o +:+ s)).

Lemma says_myprintf s : (String.length s < 100)%nat -> says (myprintf s) s.
Proof. intros H o. unfold myprintf. by rewrite (proj2 (Nat.ltb_lt _ _) H). Qed.

Lemma says_bind m (f : unit -> M Out unit) s1 s2 :
  says m s1 -> says (f tt) s2 -> says (m ≫= f) (s1 +:+ s2).
Proof.
  intros H1 H2 o. unfold mbind, M_bind. rewrite H1, H2. cbn [column text].
  by rewrite advances_app, string_app_assoc.
Qed.

Lemma says_lift (y : outcome string) a (f : string -> M Out unit) s :
  y = Ok a -> says (f a) s -> says (lift y ≫= f) s.
Proof. intros -> H o. unfold mbind, M_bind, lift. apply H. Qed.

Lemma says_ret : says (mret tt) "".
Proof. intros o. rewrite string_app_nil. by destruct o. Qed.

Lemma length_app_string a b : String.length (a +:+ b) = (String.length a + String.length b)%nat.
Proof. induction a as [|c a IH]; [done|]. change (S (String.length (a +:+ b)) = S (String.length a) + String.length b)%nat. lia. Qed.

Lemma R_length i : (String.length (R i) <= 3)%nat.
Proof.
  unfold R. destruct (nth_in_or_default (Z.to_nat i) regstrings "") as [H|H]; [|rewrite H; cbn; lia].
  assert (F : forallb (fun s => Nat.leb (String.length s) 3) regstrings = true) by by vm_compute.
  rewrite forallb_forall in F. by apply Nat.leb_le, F.
Qed.

Lemma hex_pad_length n z : String.length (hex_pad n z) = n.
Proof.
  revert z. induction n as [|n IH]; intros z; [done|]. cbn [hex_pad].
  rewrite length_app_string, IH. cbn. lia.
Qed.

Lemma hex_min_length n z : (String.length (hex_min n z) <= n)%nat.
Proof.
  revert z. induction n as [|n IH]; intros z; [done|]. cbn [hex_min].
  rewrite length_app_string. cbn [String.length]. destruct (z <? 16); [cbn; lia|].
  specialize (IH (z / 16)). lia.
Qed.

Lemma x08_length z : String.length (x08 z) = 8%nat.
Proof. apply hex_pad_length. Qed.

Lemma x_length z : (String.length (x z) <= 8)%nat.
Proof. apply hex_min_length. Qed.

(** The text of an operand that [opStrings] names: registers by [regstrings], the
    target of a branch or a jump, and other numbers in hexadecimal. *)
Definition field (i : MipsSim.Instruction) (pc : Z) (a : RegType) : string :=
  match a with
  | RS => R (MipsSim.rs i)
  | RT => R (MipsSim.rt i)
  | RD => R (MipsSim.rd i)
  | EXTRA =>
    match MipsSim.opCode i with
    | MipsSim.OP_J | MipsSim.OP_JAL => x08 (Z.lor (top4 pc) (MipsSim.IndexToAddr (MipsSim.extra i)))
    | MipsSim.OP_BGEZ | MipsSim.OP_BGEZAL | MipsSim.OP_BLTZ | MipsSim.OP_BLTZAL =>
        x08 (MipsSim.IndexToAddr (MipsSim.extra i) + pc + 4)
    | _ => "0x" +:+ x (MipsSim.extra i)
    end
  | NONE => ""
  end.

Fixpoint join (l : list string) : string :=
  match l with [] => "" | [s] => s | s :: r => s +:+ "," +:+ join r end.

(** An address is written offset(base). *)
Definition operands (i : MipsSim.Instruction) (pc : Z) (args : list RegType) : string :=
  match args with
  | [RT; EXTRA; RS] => R (MipsSim.rt i) +:+ ",0x" +:+ x (MipsSim.extra i) +:+ "(" +:+ R (MipsSim.rs i) +:+ ")"
  | l => join (field i pc <$> l)
  end.

Definition lower_char (c : ascii) : ascii :=
  let n := nat_of_ascii c in if Nat.leb 65 n && Nat.leb n 90 then ascii_of_nat (n + 32) else c.

Fixpoint lower (s : string) : string :=
  match s with String c r => String (lower_char c) (lower r) | EmptyString => "" end.

(** The opcodes whose operands the two disassemblers do not print alike. *)
Definition exceptions : list MipsSim.Op :=
  [MipsSim.OP_UNIMP; MipsSim.OP_RES; MipsSim.OP_BEQ; MipsSim.OP_BNE; MipsSim.OP_BLEZ; MipsSim.OP_BGTZ;
   MipsSim.OP_JR; MipsSim.OP_JALR; MipsSim.OP_MFLO; MipsSim.OP_MTHI].

(** The line that the table of the simulator gives for [i]. *)
Definition reference (w pc : Z) (i : MipsSim.Instruction) : outcome string :=
  e ← arr_get opStrings (op_number (MipsSim.opCode i));
  Ok (x08 pc +:+ ": " +:+ x08 w +:+ "  " +:+ tab +:+ lower (first_word e.1) +:+ tab +:+
      operands i pc (argument_list e.2)).

(** Stated for the pieces, after the address and the word. *)
Definition body_says (w pc : Z) (i : MipsSim.Instruction) : Prop :=
  exists e, arr_get opStrings (op_number (MipsSim.opCode i)) = Ok e /\
    says (if opcode w =? I_SPECIAL then
            name ← lift (arr_get specialops (funct w)); _ ← myprintf (name +:+ tab); special_operands w
          else if opcode w =? I_BCOND then
            _ ← myprintf (bcond_name w);
            myprintf (tab +:+ R (rs w) +:+ "," +:+ x08 (off16 w + pc + 4))
          else name ← lift (arr_get normalops (opcode w)); _ ← myprintf (name +:+ tab); normal_operands w pc)
      (lower (first_word e.1) +:+ tab +:+ operands i pc (argument_list e.2)).

Ltac short := apply says_myprintf; unfold tab; rewrite ?length_app_string; cbn [String.length];
  repeat match goal with
  | |- context [String.length (R ?i)] => pose proof (R_length i); generalize dependent (String.length (R i)); intros
  | |- context [String.length (x ?i)] => pose proof (x_length i); generalize dependent (String.length (x i)); intros
  end; rewrite ?x08_length; lia.

Lemma says_named name m s : (String.length name < 90)%nat -> says m s ->
  says (_ ← myprintf (name +:+ tab); m) (name +:+ tab +:+ s).
Proof.
  intros Hn Hm. rewrite <- string_app_assoc. apply says_bind; [|done].
  apply says_myprintf. rewrite length_app_string. cbn. lia.
Qed.

Ltac pick_closed := repeat match goal with
  | |- context [if existsb ?a ?l then _ else _] =>
    let v := eval vm_compute in (existsb a l) in change (existsb a l) with v; cbv iota
  end.

Ltac finish_text :=
  match goal with
  | |- says (myprintf ?s) ?t => change t with s; short
  | |- says (mret tt) _ => exact says_ret
  end.

(** All values below 64 of a field. *)
Lemma below_64 z : 0 <= z < 64 -> exists n, (n < 64)%nat /\ z = Z.of_nat n.
Proof. intros H. exists (Z.to_nat z). lia. Qed.

Definition listed (i : MipsSim.Instruction) : bool :=
  existsb (fun o => bool_decide (o = MipsSim.opCode i)) exceptions.

Lemma body_special w pc i : opcode w = I_SPECIAL -> MipsSim.Decode (u32 w) = Ok i -> listed i = false ->
  body_says w pc i.
Proof.
  intros H0 Hd Hl. destruct (below_64 (funct w) (funct_range w)) as (n & Hn & Hf).
  do 64 (destruct n as [|n];
    [cbn in Hf; erewrite ExecuteSim.Decode_special in Hd by (try exact H0; rewrite Hf; reflexivity);
     injection Hd as <-; first [discriminate Hl|
       eexists; split; [reflexivity|]; rewrite H0, Z.eqb_refl, Hf;
       eapply says_lift; [reflexivity|]; apply says_named; [cbn; lia|];
       unfold special_operands; rewrite Hf; cbv beta zeta; pick_closed; finish_text]|]).
  lia.
Qed.

Lemma off16_extra w : MipsSim.IndexToAddr (immed w) = off16 w.
Proof. done. Qed.

Lemma body_bcond w pc i : is_int w -> opcode w = I_BCOND -> MipsSim.Decode (u32 w) = Ok i ->
  listed i = false -> body_says w pc i.
Proof.
  intros Hw H0 Hd Hl. rewrite ExecuteSim.Decode_bcond in Hd by done. injection Hd as <-.
  unfold body_says. rewrite H0. change (I_BCOND =? I_SPECIAL) with false. rewrite Z.eqb_refl. cbv iota.
  unfold listed in Hl. cbn [MipsSim.opCode] in Hl |- *. rewrite ExecuteSim.decode_bcond_rt in Hl |- *.
  unfold bcond_name.
  repeat match goal with |- context [if rt w =? ?y then _ else _] =>
    destruct (rt w =? y);
    [eexists; split; [reflexivity|]; apply says_bind; [apply says_myprintf; cbn; lia|]; finish_text|]
  end. discriminate Hl.
Qed.

Lemma Ok_inj {A} (a b : A) : Ok a = Ok b -> b = a.
Proof. congruence. Qed.

Lemma body_normal w pc i : is_int w -> opcode w <> I_SPECIAL -> opcode w <> I_BCOND ->
  MipsSim.Decode (u32 w) = Ok i -> listed i = false -> body_says w pc i.
Proof.
  intros Hw N0 N1 Hd Hl. unfold body_says. rewrite (proj2 (Z.eqb_neq _ _) N0), (proj2 (Z.eqb_neq _ _) N1).
  assert (J : MipsSim.IndexToAddr (MipsSim.decode_extra (u32 w) MipsSim.JFMT) = off26 w).
  { unfold MipsSim.IndexToAddr, MipsSim.decode_extra, off26.
    by destruct (ExecuteSim.fields_u32 w) as (_ & _ & _ & _ & _ & _ & ->). }
  destruct (below_64 (opcode w) (opcode_range w)) as (n & Hn & Hf).
  do 64 (destruct n as [|n];
    [cbn in Hf; first [by destruct N0|by destruct N1|
     erewrite ExecuteSim.Decode_op in Hd by (first [rewrite Hf; reflexivity|done]);
     apply Ok_inj in Hd as ->; first [discriminate Hl|
       rewrite ?(ExecuteSim.decode_extra_immed w Hw); eexists; split; [reflexivity|]; rewrite Hf;
       eapply says_lift; [reflexivity|]; apply says_named; [cbn; lia|];
       unfold normal_operands; rewrite Hf; cbv beta zeta; pick_closed;
       cbn [operands argument_list join field fmap list_fmap MipsSim.rs MipsSim.rt MipsSim.rd MipsSim.extra MipsSim.opCode];
       rewrite <- ?J; finish_text]]|]).
  lia.
Qed.

(** C32: The disassembler and the simulator read the same instructions.  For
    every word that [Decode] of mipssim.cc maps to an opcode with operands that
    both print, d.c prints, after the address and the word in hexadecimal, the
    name of that opcode in the simulator's table [opStrings], in lower case,
    and the operands that [opStrings] lists for it, in that order; it always
    returns. *)
Theorem disasm_agrees w pc i o :
  is_int w -> w <> I_NOP -> MipsSim.Decode (u32 w) = Ok i -> listed i = false ->
  exists s, reference w pc i = Ok s /\
    dump_ascii w pc o = Ok (tt, mkOut (advances (column o) s) (text o +:+ s)).
Proof.
  intros Hw Hn Hd Hl. assert (B : body_says w pc i).
  { destruct (Z.eq_dec (opcode w) I_SPECIAL); [by apply body_special|].
    destruct (Z.eq_dec (opcode w) I_BCOND); [by apply body_bcond|by apply body_normal]. }
  destruct B as (e & He & Hs). unfold reference. rewrite He. eexists. split; [reflexivity|].
  assert (S1 : says (myprintf (x08 pc +:+ ": " +:+ x08 w +:+ "  ")) (x08 pc +:+ ": " +:+ x08 w +:+ "  "))
    by short.
  assert (S2 : says (myprintf tab) tab) by (apply says_myprintf; cbn; lia).
  unfold dump_ascii. rewrite (proj2 (Z.eqb_neq w I_NOP) Hn).
  pose proof (says_bind _ (fun _ => _ ← myprintf tab; _) _ _ S1 (says_bind _ (fun _ => _) _ _ S2 Hs) o) as H.
  rewrite !string_app_assoc in H. exact H.
Qed.

(** [subu r3,r1,r2]. *)
Lemma disasm_agrees_witness :
  dump_ascii 2234403 268435456 (mkOut 1 "") =
  Ok (tt, mkOut 41 ("10000000: 00221823  " +:+ tab +:+ "subu" +:+ tab +:+ "r3,r1,r2")).
Proof.
  destruct (disasm_agrees 2234403 268435456 (MipsSim.mkInstruction MipsSim.OP_SUBU 1 2 3 0) (mkOut 1 ""))
    as (s & E & ->).
  - unfold is_int. lia.
  - done.
  - reflexivity.
  - reflexivity.
  - vm_compute in E. injection E as <-. reflexivity.
Defined.

Lemma disasm_column_witness :
  exists o', print_file [mkSection ".text" 268435456 4 [2234403] []] (replicate 300 (mkSym 0 0 0 0)) 1 [109; 0]
    (mkOut 1 "") = Ok (tt, o') /\ in_step o' /\ exists s, text o' = "" +:+ s.
Proof.
  destruct (print_file [mkSection ".text" 268435456 4 [2234403] []] (replicate 300 (mkSym 0 0 0 0)) 1 [109; 0]
    (mkOut 1 "")) as [[[] o']|] eqn:E; [|by vm_compute in E].
  exists o'. split; [reflexivity|].
  exact (disasm_column [mkSection ".text" 268435456 4 [2234403] []] (replicate 300 (mkSym 0 0 0 0)) 1 [109; 0]
    (mkOut 1 "") o' eq_refl E).
Defined.

(** What d.c prints for the opcodes of [exceptions]: no operands for BLEZ and
    BGTZ, the field [rs] for the destination of MFLO, and the field [rd] for the
    source of MTHI. *)
Lemma disasm_exceptions :
  let line w := match dump_ascii w 0 (mkOut 1 "") with Ok (_, o) => text o | Fault _ => "" end in
  line 403701763 = "00000000: 18100003  " +:+ tab +:+ "blez" +:+ tab /\
  line (3 * 2048 + I_MFLO) = "00000000: 00001812  " +:+ tab +:+ "mflo" +:+ tab +:+ "0" /\
  line (5 * 2097152 + I_MTHI) = "00000000: 00a00011  " +:+ tab +:+ "mthi" +:+ tab +:+ "0".
Proof. by vm_compute. Qed.
