(* ===== verification/Loader.v ===== *)
(** * bin/main.c, disasm.c: the command lines and loaders of the host tools

    The interpreter and the disassembler read their options, open the object
    file, load its sections and start.  The library of object files (ldfcn) is
    a parameter: what it opens, the type of a file, its section headers.  Both
    programs read the sections with [getc] from the stream [fp], which they
    have closed before; C gives no meaning to that ([ClosedStream]).  The
    messages that are printed on the way are left out. *)
From Stdlib Require Import ZArith Lia List Bool Ascii String.
From stdpp Require Import base tactics list numbers gmap strings.
From S2P Require Import Prelude CInt.
From S2P Require Execute Disasm Startup.
Local Open Scope Z_scope.

(** [atoi] of the C library is that of Startup.v. *)
Notation atoi := Startup.atoi.

(** ** Ways to end *)

Inductive reason := NullArgument | NameTooLong | ClosedStream | OutsideMem.
Inductive message := CouldNotOpen | LoadReadError | BigEndianFile | MemTooSmall.

Inductive loading (A : Type) := Loaded (a : A) | Exits (status : Z) (m : message) | Undefined (r : reason).
Arguments Loaded {A} _.
Arguments Exits {A} _ _.
Arguments Undefined {A} _.

#[global] Instance loading_ret : MRet loading := fun A a => Loaded a.
#[global] Instance loading_bind : MBind loading := fun A B f m =>
  match m with Loaded a => f a | Exits s m => Exits s m | Undefined r => Undefined r end.

(** ** main.c: options *)

Record Options := mkOptions {
  TRACE : Z; Traptrace : Z; Regtrace : Z;
  NROWS : Z; ASSOC : Z; LINESIZE : Z; RAND : Z; LRD : Z }.

Definition options0 : Options := mkOptions 0 0 0 64 1 4 0 0.

Definition set_TRACE o := mkOptions 1 (Traptrace o) (Regtrace o) (NROWS o) (ASSOC o) (LINESIZE o) (RAND o) (LRD o).
Definition set_Traptrace o := mkOptions (TRACE o) 1 (Regtrace o) (NROWS o) (ASSOC o) (LINESIZE o) (RAND o) (LRD o).
Definition set_Regtrace o := mkOptions (TRACE o) (Traptrace o) 1 (NROWS o) (ASSOC o) (LINESIZE o) (RAND o) (LRD o).
Definition set_cache rows assoc line r l o :=
  mkOptions (TRACE o) (Traptrace o) (Regtrace o) rows assoc line r l.

Definition NUL : ascii := "000"%char.

(** The character [s[i]], 0 at the end. *)
Definition char_at (s : string) (i : nat) : ascii := default NUL (String.get i s).

(** [s+1]. *)
Definition behind (s : string) : string := match s with String _ r => r | EmptyString => s end.

Definition is_char (a b : ascii) : bool := Ascii.eqb a b.

Definition truth (b : bool) : Z := if b then 1 else 0.

(** The letters of one option; [argv] points at the argument that is its head,
    and the list ends where the null pointer is. *)
Fixpoint option_letters (s : string) (argv : list string) (o : Options) : loading (list string * Options) :=
  match s with
  | EmptyString => Loaded (argv, o)
  | String c s' =>
    if is_char c "t" then option_letters s' argv (set_TRACE o)
    else if is_char c "T" then option_letters s' argv (set_Traptrace o)
    else if is_char c "r" then option_letters s' argv (set_Regtrace o)
    else if is_char c "m" then
      match argv with
      | _ :: rows :: assoc :: line :: mode :: rest =>
        let r := truth (is_char (char_at mode 0) "r") in
        let l := truth (is_char (char_at mode 0) "l" && is_char (char_at mode 1) "r" &&
                        is_char (char_at mode 2) "d") in
        option_letters s' (mode :: rest) (set_cache (atoi rows) (atoi assoc) (atoi line) r l o)
      | _ => Undefined NullArgument
      end
    else option_letters s' argv o
  end.

(** The [while] loop over the arguments; every round drops one at least. *)
Fixpoint option_loop (letters : string -> list string -> Options -> loading (list string * Options))
    (fuel : nat) (argv : list string) (o : Options) : loading (list string * Options) :=
  match fuel, argv with
  | S fuel', _ :: arg :: rest =>
    if is_char (char_at arg 0) "-" then
      r ← letters (behind arg) (arg :: rest) o;
      option_loop letters fuel' r.1 r.2
    else Loaded (argv, o)
  | _, _ => Loaded (argv, o)
  end.

Definition main_options (argv : list string) : loading (list string * Options) :=
  option_loop option_letters (length argv) argv options0.

(** disasm.c knows no letters. *)
Definition disasm_options (argv : list string) : loading (list string * Options) :=
  option_loop (fun _ argv o => Loaded (argv, o)) (length argv) argv options0.

(** ** Object files *)

Record SCNHDR := mkSCNHDR { s_vaddr : Z; s_size : Z; s_scnptr : Z }.
Record LDFILE := mkLDFILE { TYPE : Z; ldnshread : string -> option SCNHDR }.

Definition sections : list string := [".text"; ".rdata"; ".data"; ".sdata"; ".sbss"; ".bss"].

Notation Mem := (gmap Z Z).

Section Tools.
(** What [fopen] finds, and the library. *)
Context (fopen : string -> bool) (ldopen : string -> option LDFILE).

(** [getc(fp)]. *)
Definition getc_fp : loading Z := Undefined ClosedStream.

Definition store_byte (pc b : Z) (m : Mem) : loading Mem :=
  if Execute.inside pc 1 then Loaded (<[pc - Execute.memoffset := b]> m) else Undefined OutsideMem.

(** LOADSECTION of main.c: the check follows the loop. *)
Fixpoint load_loop (n : nat) (pc : Z) (m : Mem) : loading (Z * Mem) :=
  match n with
  | O => Loaded (pc, m)
  | S n' => b ← getc_fp; m ← store_byte pc b m; load_loop n' (wrap32 (pc + 1)) m
  end.

Definition LOADSECTION (head : SCNHDR) (m : Mem) : loading Mem :=
  if negb (s_scnptr head =? 0) then
    r ← load_loop (Z.to_nat (s_size head)) (s_vaddr head) m;
    if Execute.MEMSIZE <=? wrap32 (r.1 - Execute.memoffset) then Exits 1 MemTooSmall else Loaded r.2
  else Loaded m.

(** load_section of disasm.c: every byte is checked. *)
Fixpoint check_loop (n : nat) (pc : Z) (m : Mem) : loading Mem :=
  match n with
  | O => Loaded m
  | S n' =>
    if Execute.MEMSIZE <=? wrap32 (pc - Execute.memoffset) then Exits 1 MemTooSmall
    else b ← getc_fp; m ← store_byte pc b m; check_loop n' (wrap32 (pc + 1)) m
  end.

Definition load_section (hd : SCNHDR) (m : Mem) : loading Mem :=
  if negb (s_scnptr hd =? 0) then check_loop (Z.to_nat (s_size hd)) (s_vaddr hd) m else Loaded m.

(** The sections in turn; a missing one is reported and skipped. *)
Fixpoint load_all (load : SCNHDR -> Mem -> loading Mem) (f : LDFILE) (names : list string) (m : Mem) :
    loading Mem :=
  match names with
  | [] => Loaded m
  | name :: names' =>
    m ← match ldnshread f name with Some head => load head m | None => Loaded m end;
    load_all load f names' m
  end.

Definition load_program (load : SCNHDR -> Mem -> loading Mem) (filename : string) : loading (LDFILE * Mem) :=
  match ldopen filename with
  | None => Exits 0 LoadReadError
  | Some f =>
    if negb (TYPE f =? 354) then Exits 0 BigEndianFile
    else m ← load_all load f sections ∅; Loaded (f, m)
  end.

(** ** main *)

(** [strcpy] into an array of [n] characters. *)
Definition strcpy (n : nat) (s : string) : loading string :=
  if (String.length s <? n)%nat then Loaded s else Undefined NameTooLong.

(** Behind the options: the file, and the arguments of the program. *)
Definition open_and_load (load : SCNHDR -> Mem -> loading Mem) (argv : list string) :
    loading (LDFILE * Mem * list string) :=
  filename ← match argv with _ :: arg :: _ => strcpy 1000 arg | _ => Loaded "a.out"%string end;
  if negb (fopen filename) then Exits 0 CouldNotOpen
  else
    r ← load_program load filename;
    let args := match argv with _ :: arg :: rest => arg :: rest | _ => ["a.out"%string] end in
    Loaded (r, args).

(** main.c, up to the call of [runprogram]: its memory and arguments, and the
    options. *)
Definition main_c (argv : list string) : loading (Mem * list string * Options) :=
  _ ← strcpy 256 (nth 0 argv ""%string);
  r ← main_options argv;
  x ← open_and_load LOADSECTION r.1;
  Loaded (x.1.2, x.2, r.2).

(** disasm.c, up to the call of [disasm]: the size of the text, and memory. *)
Definition disasm_c (argv : list string) : loading (Z * Mem) :=
  _ ← strcpy 256 (nth 0 argv ""%string);
  r ← disasm_options argv;
  x ← open_and_load load_section r.1;
  Loaded (match ldnshread x.1.1 ".text"%string with Some h => s_size h | None => 0 end, x.1.2).
End Tools.

(** ** disasm.c: the listing *)

Definition fetch (m : Mem) (addr : Z) : loading Z :=
  if Execute.inside addr 4 then
    let j := addr - Execute.memoffset in
    Loaded (int_of_bytes (Execute.byte_at m j) (Execute.byte_at m (j + 1)) (Execute.byte_at m (j + 2))
      (Execute.byte_at m (j + 3)))
  else Undefined OutsideMem.

(** dis1: d.c prints with the [printf] of the library, without columns; the
    column of [Out] is not used. *)
Definition dis1 (m : Mem) (pc : Z) : M Disasm.Out unit :=
  match fetch m pc with
  | Loaded instr => _ ← Disasm.dump_ascii instr pc; Disasm.myprintf Disasm.nl
  | _ => fail BadAccess
  end.

(** [n] rounds of the loop of [disasm]. *)
Fixpoint disasm_loop (n : nat) (m : Mem) (pc : Z) : M Disasm.Out unit :=
  match n with
  | O => mret tt
  | S n' => _ ← dis1 m pc; disasm_loop n' m (pc + 4)
  end.

Definition disasm (size : Z) (m : Mem) : M Disasm.Out unit :=
  disasm_loop (Z.to_nat ((size + 3) / 4)) m Execute.memoffset.

(** ** Options as they are typed *)

Inductive typed := Trace | Traps | Registers | Cache (rows assoc line mode : string).

Definition letter (t : typed) : ascii :=
  match t with Trace => "t" | Traps => "T" | Registers => "r" | Cache _ _ _ _ => "m" end%char.
Definition values (t : typed) : list string :=
  match t with Cache rows assoc line mode => [rows; assoc; line; mode] | _ => [] end.

(** One argument with its letters, and the values behind it. *)
Definition letters (ts : list typed) : string := foldr (fun t s => String (letter t) s) EmptyString ts.
Definition word (ts : list typed) : list string := String "-"%char (letters ts) :: concat (map values ts).

Fixpoint starts (p s : string) : bool :=
  match p, s with
  | EmptyString, _ => true
  | String a p', String b s' => Ascii.eqb b a && starts p' s'
  | _, _ => false
  end.

Definition applied (o : Options) (t : typed) : Options :=
  match t with
  | Trace => set_TRACE o
  | Traps => set_Traptrace o
  | Registers => set_Regtrace o
  | Cache rows assoc line mode =>
    set_cache (atoi rows) (atoi assoc) (atoi line)
      (if starts "r" mode then 1 else 0) (if starts "lrd" mode then 1 else 0) o
  end.

Lemma starts_r mode : truth (is_char (char_at mode 0) "r") = if starts "r" mode then 1 else 0.
Proof.
  destruct mode as [|c s]; [done|]. cbn -[Ascii.eqb]. unfold is_char. by destruct (Ascii.eqb c "r").
Qed.

Lemma starts_lrd mode :
  truth (is_char (char_at mode 0) "l" && is_char (char_at mode 1) "r" && is_char (char_at mode 2) "d") =
  if starts "lrd" mode then 1 else 0.
Proof.
  unfold is_char, truth, char_at.
  destruct mode as [|a [|b [|c s]]]; cbn -[Ascii.eqb]; [done|..];
    rewrite ?andb_false_r, ?andb_true_r, <- ?andb_assoc; repeat case_match; done.
Qed.

Lemma letters_read ts : forall head rest o, exists head',
  option_letters (letters ts) (head :: concat (map values ts) ++ rest) o =
  Loaded (head' :: rest, foldl applied o ts).
Proof.
  induction ts as [|t ts IH]; intros head rest o; [by exists head|].
  destruct t as [| | |rows assoc line mode]; cbn [letters foldr letter values map concat app option_letters].
  - apply IH.
  - apply IH.
  - apply IH.
  - destruct (IH mode rest (applied o (Cache rows assoc line mode))) as (h & E). exists h.
    cbn [foldl]. rewrite <- E. unfold applied. by rewrite <- starts_r, <- starts_lrd.
Qed.

(** No option follows. *)
Definition no_option (args : list string) : Prop :=
  match args with [] => True | a :: _ => char_at a 0 <> "-"%char end.

Lemma options_read tss : forall head args o fuel, no_option args ->
  (length tss < fuel)%nat ->
  exists head', option_loop option_letters fuel (head :: concat (map word tss) ++ args) o =
    Loaded (head' :: args, foldl (foldl applied) o tss).
Proof.
  induction tss as [|ts tss IH]; intros head args o fuel Ha Hf.
  - exists head. destruct fuel as [|fuel]; [lia|]. cbn. destruct args as [|a args]; [done|].
    unfold is_char. destruct (Ascii.eqb_spec (char_at a 0) "-"); [done|done].
  - destruct fuel as [|fuel]; [cbn in Hf; lia|]. cbn [map concat app word option_loop].
    destruct (letters_read ts (String "-" (letters ts)) (concat (map word tss) ++ args) o) as (h & E).
    change (is_char (char_at (String "-" (letters ts)) 0) "-") with true. cbv iota.
    unfold mbind at 1, loading_bind at 1. rewrite <- app_assoc. cbn [behind]. rewrite E. cbn [fst snd foldl].
    apply IH; [done|cbn in Hf; lia].
Qed.

(** ** Loading *)

(** Nothing of such a section is read. *)
Definition empty_section (h : SCNHDR) : Prop :=
  s_scnptr h = 0 \/ s_size h <= 0 /\ wrap32 (s_vaddr h - Execute.memoffset) < Execute.MEMSIZE.

Lemma LOADSECTION_empty h m : empty_section h -> LOADSECTION h m = Loaded m.
Proof.
  unfold LOADSECTION. intros [->|[Hs Hv]]; [done|]. destruct (s_scnptr h =? 0); [done|]. cbn [negb].
  replace (Z.to_nat (s_size h)) with 0%nat by lia. cbn. by rewrite (proj2 (Z.leb_gt _ _) Hv).
Qed.

Lemma LOADSECTION_full h m : s_scnptr h <> 0 -> 0 < s_size h -> LOADSECTION h m = Undefined ClosedStream.
Proof.
  intros Hp Hs. unfold LOADSECTION. rewrite (proj2 (Z.eqb_neq _ _) Hp). cbn [negb].
  by replace (Z.to_nat (s_size h)) with (S (Z.to_nat (s_size h) - 1)) by lia.
Qed.

(** A section that does not stop the load is one that nothing is read of. *)
Lemma LOADSECTION_loaded h m m' : LOADSECTION h m = Loaded m' -> empty_section h.
Proof.
  unfold LOADSECTION, empty_section. destruct (Z.eqb_spec (s_scnptr h) 0) as [E|E]; [by left|]. cbn [negb].
  destruct (Z.to_nat (s_size h)) as [|n] eqn:Es; [|done]. cbn.
  destruct (Z.leb_spec Execute.MEMSIZE (wrap32 (s_vaddr h - Execute.memoffset))); [done|]. right. lia.
Qed.

Lemma load_section_full h m : s_scnptr h <> 0 -> 0 < s_size h ->
  wrap32 (s_vaddr h - Execute.memoffset) < Execute.MEMSIZE -> load_section h m = Undefined ClosedStream.
Proof.
  intros Hp Hs Hv. unfold load_section. rewrite (proj2 (Z.eqb_neq _ _) Hp). cbn [negb].
  replace (Z.to_nat (s_size h)) with (S (Z.to_nat (s_size h) - 1)) by lia. cbn [check_loop].
  by rewrite (proj2 (Z.leb_gt _ _) Hv).
Qed.

Lemma load_all_empty load f names m :
  (forall name h, name ∈ names -> ldnshread f name = Some h -> load h m = Loaded m) ->
  load_all load f names m = Loaded m.
Proof.
  intros H. induction names as [|n names IH]; [done|]. cbn [load_all].
  destruct (ldnshread f n) as [h|] eqn:E.
  - rewrite (H n h) by (done || by left). apply IH. intros. eapply H; [by right|done].
  - apply IH. intros. eapply H; [by right|done].
Qed.

Lemma load_all_loaded f names : forall m m', load_all LOADSECTION f names m = Loaded m' ->
  forall name h, name ∈ names -> ldnshread f name = Some h -> empty_section h.
Proof.
  induction names as [|n names IH]; intros m m' E name h Hn Hh; [by apply not_elem_of_nil in Hn|].
  cbn [load_all] in E. destruct (match ldnshread f n with Some _ => _ | None => _ end) as [m1| |] eqn:E1 in E;
    try done. apply elem_of_cons in Hn as [->|Hn]; [|by apply (IH m1 m' E name h)].
  rewrite Hh in E1. by eapply LOADSECTION_loaded.
Qed.

Section Outcomes.
Context (fopen : string -> bool) (ldopen : string -> option LDFILE).

(** Behind the options. *)
Lemma opened load head args f : let file := hd "a.out"%string args in
  (String.length file < 1000)%nat -> fopen file = true -> ldopen file = Some f -> TYPE f = 354 ->
  open_and_load fopen ldopen load (head :: args) =
  (m ← load_all load f sections ∅; Loaded (f, m, if args is [] then ["a.out"%string] else args)).
Proof.
  intros file Hfile Hopen Hld Htype. unfold open_and_load.
  assert (Ef : match head :: args with _ :: arg :: _ => strcpy 1000 arg | _ => Loaded "a.out"%string end = Loaded file).
  { unfold file, strcpy in *. destruct args as [|a args]; [done|]. cbn [hd] in *.
    by rewrite (proj2 (Nat.ltb_lt _ _) Hfile). }
  rewrite Ef. unfold mbind at 1, loading_bind at 1. rewrite Hopen. cbn [negb].
  unfold load_program. rewrite Hld, Htype. cbn [Z.eqb negb Pos.eqb].
  destruct (load_all load f sections ∅); cbn; [by destruct args|done..].
Qed.

Lemma words_length tss : (length tss <= length (concat (map word tss)))%nat.
Proof. induction tss as [|ts tss IH]; [done|]. cbn [map concat word length app]. rewrite length_app. lia. Qed.

Lemma main_c_eq self tss args f : let file := hd "a.out"%string args in
  (String.length self < 256)%nat -> no_option args ->
  (String.length file < 1000)%nat -> fopen file = true -> ldopen file = Some f -> TYPE f = 354 ->
  main_c fopen ldopen (self :: concat (map word tss) ++ args) =
  (m ← load_all LOADSECTION f sections ∅;
   Loaded (m, if args is [] then ["a.out"%string] else args, foldl (foldl applied) options0 tss)).
Proof.
  intros file Hself Ha Hfile Hopen Hld Htype. unfold main_c, strcpy. cbn [nth].
  rewrite (proj2 (Nat.ltb_lt _ _) Hself). cbn [mbind loading_bind]. unfold main_options.
  destruct (options_read tss self args options0 (length (self :: concat (map word tss) ++ args)) Ha)
    as (head & ->); [cbn [length]; rewrite length_app; pose proof (words_length tss); lia|].
  cbn [fst snd mbind loading_bind]. rewrite (opened _ _ _ f) by done.
  by destruct (load_all LOADSECTION f sections ∅).
Qed.

Lemma disasm_c_full self args f h : let file := hd "a.out"%string args in
  (String.length self < 256)%nat -> no_option args ->
  (String.length file < 1000)%nat -> fopen file = true -> ldopen file = Some f -> TYPE f = 354 ->
  ldnshread f ".text" = Some h -> s_scnptr h <> 0 -> 0 < s_size h ->
  wrap32 (s_vaddr h - Execute.memoffset) < Execute.MEMSIZE ->
  disasm_c fopen ldopen (self :: args) = Undefined ClosedStream.
Proof.
  intros file Hself Ha Hfile Hopen Hld Htype Hh Hp Hs Hv. unfold disasm_c, strcpy. cbn [nth].
  rewrite (proj2 (Nat.ltb_lt _ _) Hself). cbn [mbind loading_bind].
  assert (E : disasm_options (self :: args) = Loaded (self :: args, options0)).
  { unfold disasm_options. destruct args as [|a args]; [done|]. cbn [length option_loop]. unfold is_char.
    cbn [no_option] in Ha. by destruct (Ascii.eqb_spec (char_at a 0) "-"). }
  rewrite E. cbn [fst snd mbind loading_bind]. rewrite (opened _ _ _ f) by done.
  cbn [load_all sections]. by rewrite Hh, load_section_full.
Qed.

(** C33: The interpreter of the host tools reads its options as they were
    typed, with the values that follow them, and the file and the arguments
    behind; with a little-endian object file it starts the program with these
    arguments exactly when no section has bytes to load, and then on an empty
    memory: a section with bytes is read from a stream that the program has
    closed, which the disassembler does too with the first one. *)
Theorem host_loader self tss args f :
  (String.length self < 256)%nat -> no_option args ->
  let file := hd "a.out"%string args in
  (String.length file < 1000)%nat -> fopen file = true -> ldopen file = Some f -> TYPE f = 354 ->
  let argv := self :: concat (map word tss) ++ args in
  (forall started, main_c fopen ldopen argv = Loaded started <->
    (forall name h, name ∈ sections -> ldnshread f name = Some h -> empty_section h) /\
    started = (∅, if args is [] then ["a.out"%string] else args, foldl (foldl applied) options0 tss)) /\
  (forall h, ldnshread f ".text" = Some h -> s_scnptr h <> 0 -> 0 < s_size h ->
    main_c fopen ldopen argv = Undefined ClosedStream /\
    (wrap32 (s_vaddr h - Execute.memoffset) < Execute.MEMSIZE ->
      disasm_c fopen ldopen (self :: args) = Undefined ClosedStream)).
Proof.
  intros Hself Ha file Hfile Hopen Hld Htype argv. unfold argv. rewrite (main_c_eq self tss args f) by done.
  assert (Empty : (forall name h, name ∈ sections -> ldnshread f name = Some h -> empty_section h) ->
    load_all LOADSECTION f sections ∅ = Loaded ∅).
  { intros He. apply load_all_empty. intros name h Hn Hh. by eapply LOADSECTION_empty, He. }
  split.
  - intros started. split.
    + destruct (load_all LOADSECTION f sections ∅) as [m| |] eqn:E; try done.
      pose proof (load_all_loaded _ _ _ _ E) as He.
      assert (Em : Loaded m = Loaded ∅) by apply Empty, He.
      injection Em as ->. cbn [mbind loading_bind]. intros [= <-]. done.
    + intros [He ->]. by rewrite (Empty He).
  - intros h Hh Hp Hs. split.
    + cbn [load_all sections]. by rewrite Hh, LOADSECTION_full.
    + intros Hv. by apply (disasm_c_full self args f h).
Qed.
End Outcomes.

(** ** The listing *)

(** The words of a text, one line for each. *)
Fixpoint lines (pc : Z) (ws : list Z) : M Disasm.Out unit :=
  match ws with
  | [] => mret tt
  | w :: ws' => _ ← (_ ← Disasm.dump_ascii w pc; Disasm.myprintf Disasm.nl); lines (pc + 4) ws'
  end.

(** The loop lists every word of the text, at its address. *)
Lemma disasm_lists m ws :
  (forall k w, ws !! k = Some w -> fetch m (Execute.memoffset + 4 * Z.of_nat k) = Loaded w) ->
  disasm (4 * Z.of_nat (length ws)) m = lines Execute.memoffset ws.
Proof.
  intros H. unfold disasm. replace (Z.to_nat ((4 * Z.of_nat (length ws) + 3) / 4)) with (length ws).
  2: { rewrite Z.add_comm, Z.mul_comm, Z.div_add by lia. change (3 / 4) with 0. lia. }
  assert (G : forall pc, (forall k w, ws !! k = Some w -> fetch m (pc + 4 * Z.of_nat k) = Loaded w) ->
    disasm_loop (length ws) m pc = lines pc ws); [|by apply G].
  clear H. induction ws as [|w ws IH]; intros pc H; [done|]. cbn [length disasm_loop lines].
  unfold dis1. pose proof (H 0%nat w eq_refl) as E. rewrite Z.add_0_r in E. rewrite E.
  rewrite IH; [done|]. intros k v Hk. rewrite <- (H (S k) v Hk). f_equal. lia.
Qed.

(** ** An object file *)

Definition demo_object : LDFILE :=
  mkLDFILE 354 (fun name => if String.eqb name ".text" then Some (mkSCNHDR 268435456 8 120) else None).

Lemma host_loader_witness :
  let argv := ["exec"; "-tm"; "64"; "1"; "4"; "lrd"; "prog"; "x"]%string in
  main_c (fun _ => true) (fun _ => Some demo_object) argv = Undefined ClosedStream /\
  main_c (fun _ => true) (fun _ => Some (mkLDFILE 354 (fun _ => None))) argv =
    Loaded (∅, ["prog"; "x"]%string, mkOptions 1 0 0 64 1 4 0 1).
Proof.
  set (tss := [[Trace; Cache "64" "1" "4" "lrd"]]%string). set (args := ["prog"; "x"]%string).
  assert (L1 : (String.length "exec" < 256)%nat) by (apply Nat.ltb_lt; reflexivity).
  assert (L2 : (String.length "prog" < 1000)%nat) by (apply Nat.ltb_lt; reflexivity).
  assert (N : no_option args) by done. split.
  - apply (proj2 (host_loader (fun _ => true) (fun _ => Some demo_object) "exec" tss args demo_object
      L1 N L2 eq_refl eq_refl eq_refl) (mkSCNHDR 268435456 8 120)); done.
  - apply (proj1 (host_loader (fun _ => true) (fun _ => Some (mkLDFILE 354 (fun _ => None))) "exec" tss args
      (mkLDFILE 354 (fun _ => None)) L1 N L2 eq_refl eq_refl eq_refl)). by split.
Defined.
