(* ===== verification/UserProg.v ===== *)
(** * userprog/: address spaces, exceptions and the start of a user program

    AddrSpace (addrspace.cc), ExceptionHandler (exception.cc) and StartProcess
    (progtest.cc), on the machine of Machine.v and MipsSim.v.  The directory is
    built with FILESYS_STUB: files are UNIX files, reached through the stubs of
    filesys/openfile.h and filesys/filesys.h and the wrappers of
    machine/sysdep.cc.  A UNIX file is a list of bytes; creating and opening
    succeeds on the host, a write past the end fills the gap with zeros. *)
From S2P Require Import Prelude CInt BitMap Machine MipsSim.
From Stdlib Require Import ZArith Lia List Bool.
From stdpp Require Import base tactics list numbers gmap strings.
Local Open Scope Z_scope.

(** ** bin/noff.h *)

Definition NOFFMAGIC : Z := 12246957.

Record Segment := mkSegment {
  virtualAddr : Z;
  inFileAddr : Z;
  size : Z }.

Record NoffHeader := mkNoffHeader {
  noffMagic : Z;
  code : Segment;
  initData : Segment;
  uninitData : Segment }.

(** ** The kernel's state *)

Definition UserStackSize : Z := 1024.

Record AddrSpace := mkAddrSpace { numPages : Z }.

(** The pid of the current thread, its address space, and the host's files. *)
Record Kernel := mkKernel {
  pid : Z;
  space : option AddrSpace;
  files : gmap string (list Z) }.

Definition set_files v k := mkKernel (pid k) (space k) v.
Definition set_space v k := mkKernel (pid k) v (files k).

(** ** machine/sysdep.cc and the file system stubs *)

Definition Lseek {S} (offset : Z) : M S unit := ASSERT (0 <=? offset).

Definition file_read (f : list Z) (nBytes position : Z) : list Z :=
  take (Z.to_nat nBytes) (drop (Z.to_nat position) f).

Definition file_write (f from : list Z) (position : Z) : list Z :=
  match from with
  | [] => f
  | _ => take (Z.to_nat position) (f ++ replicate (Z.to_nat position - length f) 0) ++ from ++
         drop (Z.to_nat position + length from) f
  end.

(** An open file is the name of the UNIX file. *)
Definition Stub_Create (name : string) (initialSize : Z) : M Kernel bool := fun k =>
  Ok (true, set_files (<[name := []]> (files k)) k).

Definition Stub_Open (name : string) : M Kernel (option string) := fun k =>
  Ok (match files k !! name with Some _ => Some name | None => None end, k).

Definition Stub_contents (file : string) : M Kernel (list Z) := fun k =>
  match files k !! file with Some f => Ok (f, k) | None => Fault BadAccess end.

(** The bytes read; the caller puts them into its buffer. *)
Definition Stub_ReadAt (file : string) (numBytes position : Z) : M Kernel (list Z) :=
  _ ← Lseek position;
  f ← Stub_contents file;
  mret (file_read f numBytes position).

Definition Stub_WriteAt (file : string) (from : list Z) (position : Z) : M Kernel unit :=
  _ ← Lseek position;
  f ← Stub_contents file;
  modify (fun k => set_files (<[file := file_write f from position]> (files k)) k).

(** ** Buffers *)

Definition buf_put (buf : list Z) (i : Z) (data : list Z) : outcome (list Z) :=
  if (0 <=? i) && (i + Z.of_nat (length data) <=? Z.of_nat (length buf)) then
    Ok (take (Z.to_nat i) buf ++ data ++ drop (Z.to_nat i + length data) buf)
  else Fault BadAccess.

Definition buf_get (buf : list Z) (i n : Z) : outcome (list Z) :=
  if (0 <=? i) && (i + n <=? Z.of_nat (length buf)) then
    Ok (take (Z.to_nat n) (drop (Z.to_nat i) buf))
  else Fault BadAccess.

(** ** AddrSpace *)

Definition SwapHeader (h : NoffHeader) : NoffHeader :=
  let swap s := mkSegment (WordToHost (virtualAddr s)) (WordToHost (inFileAddr s))
                  (WordToHost (size s)) in
  mkNoffHeader (WordToHost (noffMagic h)) (swap (code h)) (swap (initData h)) (swap (uninitData h)).

(** The ten [int]s of the structure. *)
Definition noff_of_bytes (l : list Z) : outcome NoffHeader :=
  match bytes_ints l with
  | [m; v1; f1; s1; v2; f2; s2; v3; f3; s3] =>
    Ok (mkNoffHeader m (mkSegment v1 f1 s1) (mkSegment v2 f2 s2) (mkSegment v3 f3 s3))
  | _ => Fault BadAccess
  end.

(** The copy of a segment: from the executable into the buffer, and from there
    to the file VirtualMemory. *)
Definition copy_segment (executable vm : string) (seg : Segment) (buf : list Z) :
    M Kernel (list Z) :=
  if 0 <? size seg then
    data ← Stub_ReadAt executable (size seg) (inFileAddr seg);
    buf ← lift (buf_put buf (virtualAddr seg) data);
    out ← lift (buf_get buf (virtualAddr seg) (size seg));
    _ ← Stub_WriteAt vm out (wrap32 (virtualAddr seg * PageSize));
    mret buf
  else mret buf.

(** The size of the address space, in unsigned arithmetic. *)
Definition space_pages (h : NoffHeader) : Z :=
  let sz := u32 (size (code h) + size (initData h) + size (uninitData h) + UserStackSize) in
  sz / PageSize + (if 0 <? sz mod PageSize then 1 else 0).

(** [junk] is what the header variable holds before it is read. *)
Definition AddrSpace_AddrSpace (junk : list Z) (executable : string) : M Kernel AddrSpace :=
  got ← Stub_ReadAt executable 40 0;
  noffH ← lift (noff_of_bytes (got ++ drop (length got) junk));
  let noffH := if negb (noffMagic noffH =? NOFFMAGIC) && (WordToHost (noffMagic noffH) =? NOFFMAGIC)
               then SwapHeader noffH else noffH in
  _ ← ASSERT (noffMagic noffH =? NOFFMAGIC);
  let pages := space_pages noffH in
  let sz := u32 (pages * PageSize) in
  _ ← Stub_Create "VirtualMemory" sz;
  vm ← Stub_Open "VirtualMemory";
  match vm with
  | None => fail BadAccess
  | Some vm =>
    buf ← copy_segment executable vm (code noffH) (replicate (Z.to_nat sz) 0);
    _ ← copy_segment executable vm (initData noffH) buf;
    mret (mkAddrSpace pages)
  end.

(** [AddrSpace::InitRegisters]. *)
Definition InitRegisters (sp : AddrSpace) : M (Machine * Kernel) unit :=
  _ ← for_range 0 NumTotalRegs (fun i => WriteRegister i 0);
  _ ← WriteRegister PCReg 0;
  _ ← WriteRegister NextPCReg 4;
  WriteRegister StackReg (wrap32 (u32 (numPages sp * PageSize - 16))).

(** [AddrSpace::RestoreState]: with USE_TLB the TLB is emptied. *)
Definition RestoreState {K} : M (Machine * K) unit :=
  on_machine (modify (fun m => set_tlb
    (map (fun e => mkTE (virtualPage e) (physicalPage e) false (readOnly e) (use e) (dirty e)
                     (thread e)) <$> tlb m) m)).

(** ** ExceptionHandler *)

Definition SC_Halt : Z := 0.
Definition SC_Exit : Z := 1.
Definition SWAPALG : Z := 2.

(** A kernel operation inside the machine-and-kernel state. *)
Definition on_kernel {A} (op : M Kernel A) : M (Machine * Kernel) A := fun s =>
  match op s.2 with
  | Ok (a, k) => Ok (a, (s.1, k))
  | Fault e => Fault e
  end.

(** The TLB branch of the page fault handler: entry [i] is loaded from the page
    table. *)
Definition load_tlb (i vpn : Z) : M (Machine * Kernel) unit :=
  s ← get;
  match pageTable s.1, tlb s.1 with
  | Some pt, Some tl =>
    p ← lift (arr_get pt vpn);
    e ← lift (arr_get tl i);
    tl' ← lift (arr_set tl i (mkTE (virtualPage p) (physicalPage p) true (readOnly e) (use e)
                                (dirty e) (thread e)));
    on_machine (modify (set_tlb (Some tl')))
  | _, _ => fail BadAccess
  end.

Definition set_queuePointer v m := mkMachine (mainMemory m) (registers m) (tlb m) (pageTable m)
  v (tlbflag m) (findtimes m) (misstimes m) (MemoryMap m) (MapPointer m) (singleStep m) (status m).

Definition tlb_fault (vpn : Z) : M (Machine * Kernel) unit :=
  if SWAPALG =? 1 then
    s ← get;
    _ ← load_tlb (queuePointer s.1) vpn;
    on_machine (modify (fun m => set_queuePointer (Z.rem (queuePointer m + 1) TLBSize) m))
  else if SWAPALG =? 2 then
    tmp ← on_machine Swaptlb;
    load_tlb tmp vpn
  else mret tt.

(** The page table branch: a free frame, its entry, and the page's bytes from
    the file VirtualMemory. *)
Definition page_fault (vpn : Z) : M (Machine * Kernel) unit :=
  s ← get;
  r ← lift (BitMap.Find (MemoryMap s.1));
  let NewPhysicPage := r.1 in
  _ ← on_machine (modify (set_MemoryMap r.2));
  _ ← ASSERT (negb (NewPhysicPage =? -1));
  s ← get;
  match pageTable s.1 with
  | None => fail BadAccess
  | Some pt =>
    e ← lift (arr_get pt NewPhysicPage);
    pt' ← lift (arr_set pt NewPhysicPage
            (mkTE vpn NewPhysicPage true (readOnly e) (use e) (dirty e) (pid s.2)));
    _ ← on_machine (modify (set_pageTable (Some pt')));
    executable ← on_kernel (Stub_Open "VirtualMemory");
    match executable with
    | None => fail BadAccess
    | Some file =>
      let code_pos := wrap32 (vpn * PageSize) in
      let paddr := NewPhysicPage * PageSize in
      data ← on_kernel (Stub_ReadAt file PageSize code_pos);
      s ← get;
      mem ← lift (buf_put (mainMemory s.1) paddr data);
      on_machine (modify (set_mainMemory mem))
    end
  end.

(** [Halt] does not come back, and neither does [Finish]. *)
Definition ExceptionHandler (which : ExceptionType) : M (Machine * Kernel) unit :=
  type ← ReadRegister 2;
  if bool_decide (which = SyscallException) && (type =? SC_Halt) then fail Halted
  else if bool_decide (which = SyscallException) && (type =? SC_Exit) then fail Finished
  else if bool_decide (which = PageFaultException) then
    virtAddr ← getR BadVAddrReg;
    let vpn := u32 virtAddr / PageSize in
    s ← get;
    match tlb s.1 with
    | Some _ => tlb_fault vpn
    | None => page_fault vpn
    end
  else ASSERT false.

(** ** StartProcess *)

(** The first [n] instructions of the program; [Run] does not return. *)
Definition StartProcess (OneTick : M (Machine * Kernel) unit) (junk : list Z) (filename : string)
    (n : nat) : M (Machine * Kernel) unit :=
  executable ← on_kernel (Stub_Open filename);
  match executable with
  | None => mret tt
  | Some executable =>
    sp ← on_kernel (AddrSpace_AddrSpace junk executable);
    _ ← on_kernel (modify (set_space (Some sp)));
    _ ← InitRegisters sp;
    _ ← RestoreState;
    Run pid ExceptionHandler OneTick n
  end.

(** ** Buffers and files *)

Lemma buf_put_Ok buf i data :
  0 <= i -> i + Z.of_nat (length data) <= Z.of_nat (length buf) ->
  exists buf', buf_put buf i data = Ok buf' /\ length buf' = length buf /\
    (forall j, (0 <= j < Z.of_nat (length data))%Z -> arr_get buf' (i + j) = arr_get data j) /\
    (forall j, j < i \/ i + Z.of_nat (length data) <= j -> arr_get buf' j = arr_get buf j) /\
    (Forall is_byte buf -> Forall is_byte data -> Forall is_byte buf').
Proof.
  intros Hi Hle. unfold buf_put.
  rewrite (proj2 (andb_true_iff _ _)) by (split; apply Z.leb_le; lia).
  eexists. split; [reflexivity|]. split; [|split; [|split]].
  - rewrite !length_app, length_take, length_drop. lia.
  - intros j Hj. unfold arr_get. rewrite !decide_True by lia.
    rewrite lookup_app_r by (rewrite length_take; lia). rewrite length_take.
    rewrite lookup_app_l by lia. replace (Z.to_nat (i + j) - _)%nat with (Z.to_nat j) by lia. done.
  - intros j Hj. unfold arr_get. destruct (decide (0 <= j)); [|done].
    destruct Hj as [Hj|Hj].
    + rewrite lookup_app_l by (rewrite length_take; lia). rewrite lookup_take_lt by lia. done.
    + rewrite lookup_app_r by (rewrite length_take; lia). rewrite length_take.
      rewrite lookup_app_r by lia. rewrite lookup_drop.
      replace (Z.to_nat i + length data + _)%nat with (Z.to_nat j) by lia. done.
  - intros H1 H2. rewrite !Forall_app. split; [by apply Forall_take|].
    split; [done|by apply Forall_drop].
Qed.

Lemma file_read_length f n pos :
  (length (file_read f n pos) <= Z.to_nat n)%nat.
Proof. unfold file_read. rewrite length_take. lia. Qed.

Lemma file_read_get f n pos j :
  0 <= pos -> 0 <= j < Z.of_nat (length (file_read f n pos)) ->
  arr_get (file_read f n pos) j = arr_get f (pos + j).
Proof.
  intros Hp Hj. unfold file_read in *. rewrite length_take, length_drop in Hj.
  unfold arr_get. rewrite !decide_True by lia. rewrite lookup_take_lt, lookup_drop by lia.
  by replace (Z.to_nat pos + Z.to_nat j)%nat with (Z.to_nat (pos + j)) by lia.
Qed.

Lemma file_read_bytes f n pos : Forall is_byte f -> Forall is_byte (file_read f n pos).
Proof. intros. by apply Forall_take, Forall_drop. Qed.

(** ** The kernel's invariant *)

(** The file VirtualMemory exists, and files are made of bytes. *)
Definition kernel_ok (k : Kernel) : Prop :=
  is_Some (files k !! "VirtualMemory"%string) /\
  map_Forall (fun _ f => Forall is_byte f) (files k).

Lemma arr_set_alter {A} (l : list A) i x v : l !! i = Some x -> arr_set l (Z.of_nat i) v = Ok (<[i := v]> l).
Proof. intros H. apply arr_set_nat. by eapply lookup_lt_Some. Qed.

Lemma mach_wf_MemoryMap b m :
  mach_wf m -> BitMap.wf b -> numBits b = 32 -> mach_wf (set_MemoryMap b m).
Proof. intros []. by constructor. Qed.

(** The whole effect of a page fault: it aborts when there is no free frame or
    the page lies beyond 2 GB; otherwise the lowest free frame [fr] is marked,
    mapped to the page for the current thread, and filled with the bytes the
    file has there. *)
Lemma page_fault_cases vpn m k pt :
  mach_wf m -> kernel_ok k -> pageTable m = Some pt -> 0 <= vpn < 33554432 ->
  (page_fault vpn (m, k) = Fault AssertFailure /\
     (find_clear (bits (MemoryMap m)) = None \/ 16777216 <= vpn)) \/
  (exists fr e f b' mem,
     find_clear (bits (MemoryMap m)) = Some fr /\ (fr < 32)%nat /\ vpn < 16777216 /\
     pt !! fr = Some e /\ files k !! "VirtualMemory"%string = Some f /\ 
     after (MemoryMap m) b' (<[fr := true]> (bits (MemoryMap m))) /\
     (forall j, 0 <= j < 128 -> vpn * 128 + j < Z.of_nat (length f) ->
        arr_get mem (Z.of_nat fr * 128 + j) = arr_get f (vpn * 128 + j)) /\
     (forall j, j < Z.of_nat fr * 128 \/ Z.of_nat fr * 128 + 128 <= j ->
        arr_get mem j = arr_get (mainMemory m) j) /\
     let m' := set_mainMemory mem (set_pageTable
       (Some (<[fr := mkTE vpn (Z.of_nat fr) true (readOnly e) (use e) (dirty e) (pid k)]> pt))
       (set_MemoryMap b' m)) in
     mach_wf m' /\ page_fault vpn (m, k) = Ok (tt, (m', k))).
Proof.
  intros Hm [[f Hf] Hb] Hpt Hv. destruct (mw_map _ Hm) as [Hw Hn].
  destruct (mw_pt _ Hm) as (pt' & E & Hlen). rewrite Hpt in E. injection E as <-.
  pose proof (Find_spec _ Hw) as F. unfold page_fault. mstep.
  destruct (find_clear (bits (MemoryMap m))) as [fr|] eqn:Efr.
  2:{ left. mstep by (apply lift_Ok; exact F). mstep. split; [reflexivity|by left]. }
  destruct F as (b' & F & Hafter).
  assert (fr < 32)%nat as Hfr.
  { apply find_clear_Some in Efr as [Efr _]. apply lookup_lt_Some in Efr.
    rewrite length_bits, Hn in Efr. exact Efr. }
  destruct (lookup_lt_is_Some_2 pt fr) as [e He]; [lia|].
  mstep by (apply lift_Ok; exact F). cbn [fst snd]. mstep.
  mstep by (apply ASSERT_true; apply negb_true_iff, Z.eqb_neq; lia). mstep.
  cbn [fst snd]. change (pageTable (set_MemoryMap b' m)) with (pageTable m). rewrite Hpt.
  mstep by (apply lift_Ok, arr_get_nat; exact He).
  mstep by (apply lift_Ok; eapply arr_set_alter; exact He). mstep.
  assert (on_kernel (Stub_Open "VirtualMemory") (set_pageTable (Some (<[fr:=
    mkTE vpn (Z.of_nat fr) true (readOnly e) (use e) (dirty e) (pid k)]> pt)) (set_MemoryMap b' m), k) =
    Ok (Some "VirtualMemory"%string, (set_pageTable (Some (<[fr:=
    mkTE vpn (Z.of_nat fr) true (readOnly e) (use e) (dirty e) (pid k)]> pt)) (set_MemoryMap b' m), k)))
    as EO by (unfold on_kernel, Stub_Open; cbn [snd fst]; by rewrite Hf).
  mstep by exact EO. clear EO. unfold PageSize.
  destruct (Z.lt_ge_cases vpn 16777216) as [Hlt|Hge].
  - right. rewrite (wrap32_small (vpn * 128)) by (unfold is_int; lia).
    destruct (buf_put_Ok (mainMemory m) (Z.of_nat fr * 128) (file_read f 128 (vpn * 128)))
      as (mem & Emem & Hl & Hin & Hout & Hbytes); [lia| |].
    { pose proof (file_read_length f 128 (vpn * 128)). rewrite (mw_mem _ Hm). lia. }
    exists fr, e, f, b', mem. cbv zeta. splits; try done.
    { intros j Hj1 Hj2. rewrite Hin.
      - apply file_read_get; [lia|]. unfold file_read. rewrite length_take, length_drop. lia.
      - unfold file_read. rewrite length_take, length_drop. lia. }
    { intros j Hj. apply Hout. pose proof (file_read_length f 128 (vpn * 128)). lia. }
    { apply mach_wf_memory; [|by rewrite Hl, (mw_mem _ Hm)|].
      - apply mach_wf_pageTable; [|by rewrite length_insert]. destruct Hafter as (A1 & A2 & _).
        apply mach_wf_MemoryMap; [done|done|congruence].
      - apply Hbytes; [apply Hm|]. apply file_read_bytes. by eapply Hb. }
    assert (forall m0, on_kernel (Stub_ReadAt "VirtualMemory" 128 (vpn * 128)) (m0, k) =
      Ok (file_read f 128 (vpn * 128), (m0, k))) as ER.
    { intros m0. unfold on_kernel, Stub_ReadAt. cbn [snd fst].
      erewrite bind_run by (apply ASSERT_true; apply Z.leb_le; lia).
      unfold Stub_contents. erewrite bind_run by (rewrite Hf; reflexivity). done. }
    mstep by apply ER. mstep. mstep by (apply lift_Ok; exact Emem). done.
  - left. split; [|by right]. unfold mbind at 1, M_bind at 1. unfold on_kernel, Stub_ReadAt.
    cbn [fst snd]. unfold mbind at 1, M_bind at 1. unfold Lseek, ASSERT.
    rewrite (proj2 (Z.leb_gt 0 _)); [done|]. unfold wrap32.
    rewrite <- (Z.mod_unique (vpn * 128 + 2147483648) 4294967296 1 (vpn * 128 - 2147483648)); lia.
Qed.

Lemma vpn_range a : 0 <= u32 a / PageSize < 33554432.
Proof.
  pose proof (u32_range a) as R. unfold is_uint, PageSize in *.
  split; [apply Z.div_pos; lia|apply Z.div_lt_upper_bound; lia].
Qed.

(** How the exception handler can end a program. *)
Definition user_fault (e : fault) : Prop := e = Halted \/ e = Finished \/ e = AssertFailure.

#[global] Instance user_handler_ok : HandlerOk ExceptionHandler kernel_ok user_fault.
Proof.
  intros which m k Hm Hk. unfold ExceptionHandler. pose proof (mach_ok_wf _ Hm) as Hw.
  unfold ReadRegister. apply wp_bind, wp_bind, wp_assert; [|done]. intros _.
  apply wp_getR; [done|lia|]. intros type _ _.
  apply wp_if; intros _; [apply wp_fail; by left|].
  apply wp_if; intros _; [apply wp_fail; right; by left|].
  apply wp_if; intros _; [|apply wp_assert; [done|]; intros _; right; by right].
  apply wp_bind, wp_getR; [done|regs|]. intros a _ _. apply wp_bind, wp_get.
  cbn [fst]. rewrite (mw_tlb _ Hw). destruct (mw_pt _ Hw) as (pt & Hpt & Hlen).
  unfold wp. destruct (page_fault_cases (u32 a / PageSize) m k pt Hw Hk Hpt (vpn_range a))
    as [[-> _]|(fr & e & f & b' & mem & _ & _ & _ & _ & _ & _ & _ & _ & W2 & ->)].
  { right; by right. }
  cbn [fst snd]. split; [|done]. split; [exact W2|apply Hm].
Qed.

(** ** Running a program *)

(** The instruction at the program counter brings the simulator down. *)
Definition traps_at (s : Machine * Kernel) (e : fault) : Prop :=
  exists pc raw s1 i,
    registers s.1 !! Z.to_nat PCReg = Some pc /\
    ReadMem pid ExceptionHandler pc 4 s = Ok (Some raw, s1) /\
    Decode (u32 raw) = Ok i /\ instr_traps i (registers s1.1) = Some e.

(** A clock tick that does not disturb the program. *)
Definition tick_ok (OneTick : M (Machine * Kernel) unit) : Prop :=
  forall s, mach_ok s.1 -> kernel_ok s.2 ->
    exists s', OneTick s = Ok (tt, s') /\ mach_ok s'.1 /\ kernel_ok s'.2.

Lemma Run_loop_safe OneTick n : tick_ok OneTick -> forall s,
  mach_ok s.1 -> kernel_ok s.2 ->
  wp (Run_loop pid ExceptionHandler OneTick n)
    (fun e => user_fault e \/ exists j s', (j < n)%nat /\
       Run_loop pid ExceptionHandler OneTick j s = Ok (tt, s') /\ traps_at s' e)
    (fun _ s' => mach_ok s'.1 /\ kernel_ok s'.2) s.
Proof.
  intros Ht. induction n as [|n IH]; intros s Hm Hk; [by apply wp_ret|].
  cbn [Run_loop]. pose proof (wp_OneInstruction pid ExceptionHandler kernel_ok user_fault s Hm Hk) as W.
  unfold wp in W |- *. destruct (OneInstruction pid ExceptionHandler s) as [[[] s1]|e] eqn:E1.
  - destruct W as [Hm1 Hk1]. destruct (Ht s1 Hm1 Hk1) as (s2 & E2 & Hm2 & Hk2).
    rewrite (bind_run _ _ _ _ _ E1), (bind_run _ _ _ _ _ E2).
    specialize (IH s2 Hm2 Hk2). unfold wp in IH.
    destruct (Run_loop pid ExceptionHandler OneTick n s2) as [[[] s3]|e]; [done|].
    destruct IH as [IH|(j & s' & Hj & Ej & Hx)]; [by left|]. right. exists (S j), s'.
    split; [lia|]. split; [|done]. cbn [Run_loop].
    by rewrite (bind_run _ _ _ _ _ E1), (bind_run _ _ _ _ _ E2).
  - unfold mbind, M_bind. rewrite E1. destruct W as [W|W]; [by left|]. right.
    exists 0%nat, s. split; [lia|]. done.
Qed.

(** C27: A user program cannot corrupt the simulated machine or the kernel.  From a
    well-formed machine, and a kernel whose file VirtualMemory exists, every
    number [n] of instructions runs and leaves both in that state, or ends
    because the program halts the machine, exits, causes an exception the
    kernel does not handle (an assertion), or, after some number of
    instructions, executes one of the instructions that bring the simulator
    itself down. *)
Theorem userprog_Run_safe OneTick n (s : Machine * Kernel) :
  tick_ok OneTick -> mach_ok s.1 -> kernel_ok s.2 ->
  wp (Run pid ExceptionHandler OneTick n)
    (fun e => user_fault e \/ exists j s', (j < n)%nat /\
       Run pid ExceptionHandler OneTick j s = Ok (tt, s') /\ traps_at s' e)
    (fun _ s' => mach_ok s'.1 /\ kernel_ok s'.2) s.
Proof.
  intros Ht Hm Hk. unfold Run. apply wp_bind. 
  apply (Run_loop_safe OneTick n Ht (set_status UserMode s.1, s.2)); [by apply mach_ok_status|done].
Qed.

(** ** Demand paging *)

Lemma find_entry_None pt p vpn j0 found :
  find_entry pt p vpn j0 found = None -> found = None /\ Forall (fun e => matches p vpn e = false) pt.
Proof.
  revert j0 found. induction pt as [|e pt IH]; intros j0 found; cbn [find_entry]; [by intros ->|].
  fold (matches p vpn e). intros H. apply IH in H as [H1 H2].
  destruct (matches p vpn e) eqn:E; [done|]. split; [done|by constructor].
Qed.

Lemma find_entry_skip pt p vpn j0 found :
  Forall (fun e => matches p vpn e = false) pt -> find_entry pt p vpn j0 found = found.
Proof.
  intros H. revert j0 found. induction H as [|e pt E _ IH]; intros j0 found; [done|].
  cbn [find_entry]. fold (matches p vpn e). by rewrite E.
Qed.

Lemma find_entry_app l1 l2 p vpn j0 found :
  find_entry (l1 ++ l2) p vpn j0 found =
  find_entry l2 p vpn (j0 + length l1) (find_entry l1 p vpn j0 found).
Proof.
  revert j0 found. induction l1 as [|e l1 IH]; intros j0 found; cbn [app find_entry length].
  - by rewrite Nat.add_0_r.
  - rewrite IH. by replace (S j0 + length l1)%nat with (j0 + S (length l1))%nat by lia.
Qed.

Lemma find_entry_new pt p vpn j e :
  find_entry pt p vpn 0 None = None -> (j < length pt)%nat -> matches p vpn e = true ->
  find_entry (<[j := e]> pt) p vpn 0 None = Some j.
Proof.
  intros H Hj He. apply find_entry_None in H as [_ H].
  rewrite insert_take_drop by done. rewrite find_entry_app, (find_entry_skip (take j pt)) by (by apply Forall_take).
  cbn [find_entry]. fold (matches p vpn e). rewrite He, length_take.
  rewrite find_entry_skip by (by apply Forall_drop). f_equal. lia.
Qed.

Definition aligned (a sz : Z) : Prop :=
  (sz = 4 -> Z.land a 3 = 0) /\ (sz = 2 -> Z.land a 1 = 0).

Lemma Translate_unmapped a sz w (s : Machine * Kernel) pt :
  mach_wf s.1 -> pageTable s.1 = Some pt -> aligned a sz ->
  find_entry pt (pid s.2) (u32 a / PageSize) 0 None = None ->
  Translate pid a sz w s = Ok ((PageFaultException, 0), s).
Proof.
  intros Hs Hpt [A4 A2] Hf. unfold Translate.
  replace (((sz =? 4) && _) || _) with false.
  2:{ symmetry. apply orb_false_iff. split; apply andb_false_iff.
      - destruct (Z.eqb_spec sz 4); [right; by rewrite A4|by left].
      - destruct (Z.eqb_spec sz 2); [right; by rewrite A2|by left]. }
  mstep. rewrite (mw_tlb _ Hs), Hpt. do 2 (mstep by (apply ASSERT_true; reflexivity)).
  destruct (mw_pt _ Hs) as (pt' & E & Hlen). rewrite Hpt in E. injection E as <-.
  rewrite take_ge by (rewrite Hlen; done). by rewrite Hf.
Qed.

(** A page fault through [RaiseException]: the registers apart, the state is the
    one [page_fault] leaves. *)
Lemma RaiseException_page_fault a (s : Machine * Kernel) :
  mach_wf s.1 -> is_int a ->
  exists r', mach_ok (set_registers r' s.1) /\
    RaiseException ExceptionHandler PageFaultException a s =
    match page_fault (u32 a / PageSize) (set_status SystemMode (set_registers r' s.1), s.2) with
    | Ok (_, s') => Ok (tt, (set_status UserMode s'.1, s'.2))
    | Fault e => Fault e
    end.
Proof.
  intros Hs Ha. unfold RaiseException.
  rewrite (bind_run _ _ _ _ _ (setR_run BadVAddrReg a s Hs ltac:(regs))).
  set (s1 := (set_registers _ _, _)).
  assert (H1 : mach_wf s1.1) by (apply mach_wf_registers; [done|regs|done|regs]).
  pose proof (wp_DelayedLoad 0 0 (fun _ => False) (fun _ s' => exists r',
    s' = (set_registers r' s1.1, s1.2) /\ mach_ok (set_registers r' s1.1) /\ r' !! 39%nat = Some a)
    s1 H1 ltac:(lia) ltac:(regs)) as W.
  unfold wp in W. destruct (DelayedLoad 0 0 s1) as [[[] s2]|e] eqn:E.
  2:{ exfalso. apply W. intros r' Hr E'. exists r'. splits; [done..|]. rewrite E'.
      apply list_lookup_insert_eq. rewrite (mw_regs _ Hs). unfold BadVAddrReg. lia. }
  destruct W as (r' & -> & Hok & Hr').
  { intros r' Hr E'. exists r'. splits; [done..|]. rewrite E'.
    apply list_lookup_insert_eq. rewrite (mw_regs _ Hs). unfold BadVAddrReg. lia. }
  exists r'. split; [exact Hok|]. mstep by exact E. mstep.
  set (s3 := (set_status SystemMode (set_registers r' s.1), s.2)).
  assert (W3 : mach_wf s3.1) by (apply mach_wf_status, Hok).
  assert (EH : ExceptionHandler PageFaultException s3 = page_fault (u32 a / PageSize) s3).
  { unfold ExceptionHandler, ReadRegister.
    destruct (getR_run 2 s3 W3 ltac:(lia)) as (t & _ & _ & Et).
    erewrite bind_run by (erewrite bind_run by (apply ASSERT_true; reflexivity); exact Et).
    cbn [andb bool_decide]. rewrite !bool_decide_eq_false_2, bool_decide_eq_true_2 by done.
    cbn [andb]. destruct (getR_run BadVAddrReg s3 W3 ltac:(regs)) as (v & Ev & _ & Ev').
    change (registers s3.1 !! Z.to_nat BadVAddrReg) with (r' !! 39%nat) in Ev.
    rewrite Hr' in Ev. injection Ev as <-. mstep by exact Ev'. mstep.
    by rewrite (mw_tlb _ W3). }
  change ((ExceptionHandler PageFaultException ≫= fun _ => on_machine (modify (set_status UserMode)))
    s3 = match page_fault (u32 a / PageSize) s3 with
         | Ok (_, s') => Ok (tt, (set_status UserMode s'.1, s'.2)) | Fault e => Fault e end).
  unfold mbind, M_bind. rewrite EH. by destruct (page_fault _ s3) as [[[] s4]|e].
Qed.

(** A load from a page that is not there. *)
Lemma ReadMem_paged a sz (m : Machine) (k : Kernel) pt f fr :
  mach_wf m -> kernel_ok k -> pageTable m = Some pt -> is_int a -> access_size sz -> aligned a sz ->
  find_entry pt (pid k) (u32 a / PageSize) 0 None = None ->
  find_clear (bits (MemoryMap m)) = Some fr ->
  files k !! "VirtualMemory"%string = Some f ->
  0 <= a -> a + sz <= Z.of_nat (length f) ->
  exists v m', load_bytes f a sz = Ok v /\
    ReadMem pid ExceptionHandler a sz (m, k) = Ok (Some v, (m', k)) /\
    bits (MemoryMap m') = <[fr := true]> (bits (MemoryMap m)) /\
    (exists pt', pageTable m' = Some pt' /\
       find_entry pt' (pid k) (a / PageSize) 0 None = Some fr) /\
    (forall j, j < Z.of_nat fr * PageSize \/ Z.of_nat fr * PageSize + PageSize <= j ->
       arr_get (mainMemory m') j = arr_get (mainMemory m) j).
Proof.
  intros Hm Hk Hpt Ha Hz Hal Hnone Hfr Hf H0 Hlen.
  assert (Hu : u32 a = a) by (apply u32_small; unfold is_uint, is_int in *; lia).
  destruct (RaiseException_page_fault a (m, k) Hm Ha) as (r' & Hok & ER). cbn [fst snd] in *.
  set (m1 := set_status SystemMode (set_registers r' m)) in *.
  assert (W1 : mach_wf m1) by (apply mach_wf_status, Hok).
  assert (Hv : 0 <= u32 a / PageSize < 16777216).
  { rewrite Hu. unfold is_int, PageSize in *. split; [apply Z.div_pos; lia|].
    apply Z.div_lt_upper_bound; lia. }
  destruct (page_fault_cases (u32 a / PageSize) m1 k pt W1 Hk Hpt ltac:(lia))
    as [[_ [X|X]]|(fr' & e & f' & b' & mem & Efr & Hfr32 & _ & He & Ef & (B1 & B2 & B3) &
         Hin & Hout & W2 & EP)].
  { change (MemoryMap m1) with (MemoryMap m) in X. congruence. }
  { lia. }
  change (MemoryMap m1) with (MemoryMap m) in *. change (mainMemory m1) with (mainMemory m) in *.
  rewrite Hfr in Efr. injection Efr as <-. rewrite Hf in Ef. injection Ef as <-.
  rewrite EP in ER. cbn [fst snd] in ER.
  set (pt1 := <[fr := _]> pt) in *. apply (mach_wf_status UserMode) in W2.
  set (m2 := set_status UserMode _) in ER, W2.
  assert (Hoff := Z.mod_pos_bound a 128 ltac:(lia)). assert (Hdm := Z.div_mod a 128 ltac:(lia)).
  assert (Hpg : u32 a mod 128 + sz <= 128).
  { apply align_fits. destruct Hal. destruct Hz as [->|[->| ->]]; naive_solver. }
  assert (Hfind : find_entry pt1 (pid k) (u32 a / PageSize) 0 None = Some fr).
  { apply find_entry_new; [done|by eapply lookup_lt_Some|]. unfold matches. cbn.
    rewrite u32_small by (unfold is_uint; lia). by rewrite !Z.eqb_refl. }
  assert (Tr : translates pt1 (pid k) a sz false fr (Z.of_nat fr * 128 + a mod 128)).
  { rewrite Hu in Hpg. assert (0 < sz) by (unfold access_size in Hz; lia).
    constructor; [|done|change MemorySize with 4096; lia|by rewrite Hu|done].
    exists (mkTE (u32 a / PageSize) (Z.of_nat fr) true (readOnly e) (use e) (dirty e) (pid k)).
    unfold pt1. rewrite list_lookup_insert_eq by (by eapply lookup_lt_Some).
    unfold matches. cbn [virtualPage physicalPage valid readOnly thread].
    rewrite (u32_small (u32 a / PageSize)) by (unfold is_uint; lia). rewrite !Z.eqb_refl.
    rewrite (u32_small (Z.of_nat fr)) by (unfold is_uint; lia). rewrite Hu.
    unfold NumPhysPages, PageSize. splits; try done; lia. }
  pose proof (translates_Translate pid pt1 a sz false fr _ (m2, k) W2 Hz eq_refl Tr) as ET.
  destruct (load_bytes_run f a sz) as (v & Ev & _); [eapply Hk; exact Hf|done|done|done|].
  exists v. eexists. split; [done|]. split.
  - unfold ReadMem, translate_twice.
    erewrite bind_run.
    2:{ erewrite bind_run by (by apply (Translate_unmapped a sz false (m, k) pt)). cbn [fst].
        rewrite bool_decide_eq_false_2 by done. cbn [negb].
        erewrite bind_run by exact ER. erewrite bind_run by exact ET. cbn [fst snd].
        rewrite bool_decide_eq_true_2 by done. reflexivity. }
    cbv beta iota. mstep. erewrite bind_run; [reflexivity|]. apply lift_Ok. rewrite <- Ev.
    apply load_bytes_ext. intros j Hj.
    replace (Z.of_nat fr * 128 + a mod 128 + j) with (Z.of_nat fr * 128 + (a mod 128 + j)) by lia.
    cbn [mainMemory set_pageTable fst]. change (mainMemory m2) with mem.
    rewrite Hu in Hpg. rewrite Hin; rewrite ?Hu; unfold PageSize; [f_equal; lia|lia|lia].
  - split; [exact B3|]. split.
    + eexists. split; [reflexivity|]. rewrite Hu in Hfind.
      by rewrite touch_matches.
    + intros j Hj. exact (Hout j Hj).
Qed.

(** C28: Demand paging.  A load from a page that is not mapped for the current
    thread, with a frame free and the file VirtualMemory reaching that far,
    returns the bytes the file holds at that very address.  The lowest free
    frame is marked, holds the page from now on, and no byte of memory outside
    this frame changes. *)
Theorem userprog_demand_paging a sz (m : Machine) (k : Kernel) pt f fr :
  mach_wf m -> kernel_ok k -> pageTable m = Some pt -> is_int a -> access_size sz -> aligned a sz ->
  find_entry pt (pid k) (u32 a / PageSize) 0 None = None ->
  find_clear (bits (MemoryMap m)) = Some fr ->
  files k !! "VirtualMemory"%string = Some f ->
  0 <= a -> a + sz <= Z.of_nat (length f) ->
  exists v m', load_bytes f a sz = Ok v /\
    ReadMem pid ExceptionHandler a sz (m, k) = Ok (Some v, (m', k)) /\
    bits (MemoryMap m') = <[fr := true]> (bits (MemoryMap m)) /\
    (exists pt', pageTable m' = Some pt' /\
       find_entry pt' (pid k) (a / PageSize) 0 None = Some fr) /\
    (forall j, j < Z.of_nat fr * PageSize \/ Z.of_nat fr * PageSize + PageSize <= j ->
       arr_get (mainMemory m') j = arr_get (mainMemory m) j).
Proof. intros. by apply ReadMem_paged with pt. Qed.

(** ** Loading a program *)

Lemma buf_get_put buf i data :
  0 <= i -> i + Z.of_nat (length data) <= Z.of_nat (length buf) ->
  exists buf', buf_put buf i data = Ok buf' /\ length buf' = length buf /\
    buf_get buf' i (Z.of_nat (length data)) = Ok data.
Proof.
  intros Hi Hle. destruct (buf_put_Ok buf i data Hi Hle) as (buf' & E & Hl & _).
  exists buf'. split; [done|]. split; [done|]. unfold buf_get. rewrite Hl.
  rewrite (proj2 (andb_true_iff _ _)) by (split; apply Z.leb_le; lia).
  unfold buf_put in E.
  rewrite (proj2 (andb_true_iff _ _)) in E by (split; apply Z.leb_le; lia). injection E as <-.
  f_equal. rewrite Nat2Z.id.
  rewrite drop_app_length' by (rewrite length_take; lia).
  by rewrite take_app_length.
Qed.

Lemma file_read_full f n pos : 0 <= pos -> 0 <= n -> pos + n <= Z.of_nat (length f) ->
  Z.of_nat (length (file_read f n pos)) = n.
Proof. intros. unfold file_read. rewrite length_take, length_drop. lia. Qed.

(** A segment that lies within the executable and within the address space. *)
Record seg_ok (x : list Z) (total : Z) (seg : Segment) : Prop := {
  so_size : 0 < size seg;
  so_file : 0 <= inFileAddr seg /\ inFileAddr seg + size seg <= Z.of_nat (length x);
  so_mem : 0 <= virtualAddr seg < 16777216 /\ virtualAddr seg + size seg <= total }.

Lemma copy_segment_run exe vm seg buf k x v :
  files k !! exe = Some x -> files k !! vm = Some v ->
  seg_ok x (Z.of_nat (length buf)) seg ->
  exists buf', copy_segment exe vm seg buf k = Ok (buf', set_files
      (<[vm := file_write v (file_read x (size seg) (inFileAddr seg)) (virtualAddr seg * 128)]>
         (files k)) k) /\ length buf' = length buf.
Proof.
  intros Hx Hv [H1 [H2 H3] [H4 H5]]. unfold copy_segment.
  rewrite (proj2 (Z.ltb_lt _ _)) by lia.
  pose proof (file_read_full x (size seg) (inFileAddr seg) H2 ltac:(lia) H3) as Hl.
  destruct (buf_get_put buf (virtualAddr seg) (file_read x (size seg) (inFileAddr seg)))
    as (buf' & E1 & E2 & E3); [lia|lia|].
  exists buf'. split; [|done]. rewrite Hl in E3.
  erewrite bind_run.
  2:{ unfold Stub_ReadAt. erewrite bind_run by (apply ASSERT_true; apply Z.leb_le; lia).
      unfold Stub_contents. erewrite bind_run by (rewrite Hx; reflexivity). reflexivity. }
  cbv beta iota. mstep by (apply lift_Ok; exact E1). mstep by (apply lift_Ok; exact E3).
  unfold PageSize. rewrite (wrap32_small (virtualAddr seg * 128)) by (unfold is_int; lia).
  erewrite bind_run.
  2:{ unfold Stub_WriteAt. erewrite bind_run by (apply ASSERT_true; apply Z.leb_le; lia).
      unfold Stub_contents. erewrite bind_run by (rewrite Hv; reflexivity). reflexivity. }
  done.
Qed.

(** What the loader asks of an executable [x] with header [h]: a code segment at
    address 0 and a data segment behind it. *)
Record loadable (x : list Z) (h : NoffHeader) : Prop := {
  ld_header : (40 <= length x)%nat /\ noff_of_bytes (take 40 x) = Ok h;
  ld_magic : noffMagic h = NOFFMAGIC;
  ld_sizes : 0 <= size (uninitData h) /\
    size (code h) + size (initData h) + size (uninitData h) + UserStackSize <= 2147483520;
  ld_code : virtualAddr (code h) = 0 /\ seg_ok x (space_pages h * 128) (code h);
  ld_data : size (code h) <= virtualAddr (initData h) /\
    seg_ok x (space_pages h * 128) (initData h) }.

(** The file VirtualMemory of a loaded program. *)
Definition vm_image (x : list Z) (h : NoffHeader) : list Z :=
  file_write (file_write [] (file_read x (size (code h)) (inFileAddr (code h)))
                (virtualAddr (code h) * 128))
    (file_read x (size (initData h)) (inFileAddr (initData h))) (virtualAddr (initData h) * 128).

Lemma space_pages_bounds x h :
  loadable x h -> 0 <= space_pages h * 128 < 2147483648.
Proof.
  intros [_ _ [L4 L5] [_ L7] [_ L9]]. pose proof (so_size _ _ _ L7). pose proof (so_size _ _ _ L9).
  unfold space_pages, UserStackSize, PageSize in *.
  rewrite u32_small by (unfold is_uint; lia).
  destruct (Z.ltb_spec 0 ((size (code h) + size (initData h) + size (uninitData h) + 1024) mod 128));
    Z.div_mod_to_equations; lia.
Qed.

Lemma AddrSpace_run junk exe k x h :
  length junk = 40%nat ->
  files k !! exe = Some x -> exe <> "VirtualMemory"%string -> loadable x h ->
  AddrSpace_AddrSpace junk exe k =
    Ok (mkAddrSpace (space_pages h), set_files (<["VirtualMemory"%string := vm_image x h]> (files k)) k).
Proof.
  intros Hj Hx Hne HL. pose proof (space_pages_bounds x h HL) as Hsp.
  destruct HL as [[L1 L2] L3 _ [L6 L7] [L8 L9]]. unfold AddrSpace_AddrSpace.
  erewrite bind_run.
  2:{ unfold Stub_ReadAt. erewrite bind_run by (apply ASSERT_true; reflexivity).
      unfold Stub_contents. erewrite bind_run by (rewrite Hx; reflexivity). reflexivity. }
  cbv beta iota. change (file_read x 40 0) with (take 40 x).
  rewrite (drop_ge junk) by (rewrite length_take; lia). rewrite app_nil_r.
  mstep by (apply lift_Ok; exact L2). rewrite L3. rewrite Z.eqb_refl. cbn [negb andb].
  rewrite L3, Z.eqb_refl. mstep. mstep.
  erewrite bind_run.
  2:{ unfold Stub_Open. cbn [files set_files]. rewrite lookup_insert_eq. reflexivity. }
  cbv beta iota. unfold PageSize. rewrite (u32_small (space_pages h * 128)) by (unfold is_uint; lia).
  set (k1 := set_files _ k). set (buf := replicate _ 0).
  assert (Hbuf : Z.of_nat (length buf) = space_pages h * 128)
    by (unfold buf; rewrite length_replicate; lia).
  destruct (copy_segment_run exe "VirtualMemory" (code h) buf k1 x []) as (buf1 & E1 & Hb1).
  { cbn. by rewrite lookup_insert_ne. }
  { cbn. by rewrite lookup_insert_eq. }
  { by rewrite Hbuf. }
  mstep by exact E1.
  set (k2 := set_files _ k1).
  edestruct (copy_segment_run exe "VirtualMemory" (initData h) buf1 k2 x) as (buf2 & E2 & Hb2).
  { cbn. by rewrite !lookup_insert_ne. }
  { cbn. by rewrite lookup_insert_eq. }
  { by rewrite Hb1, Hbuf. }
  mstep by exact E2. unfold mret, M_ret. do 2 f_equal. unfold k2, k1, set_files. cbn [files pid space].
  by rewrite !insert_insert_eq.
Qed.

Lemma file_write_length f from pos : 0 <= pos -> from <> [] ->
  length (file_write f from pos) = Nat.max (length f) (Z.to_nat pos + length from).
Proof.
  intros Hp Hne. unfold file_write. destruct from as [|b from]; [done|].
  rewrite !length_app, length_take, length_app, length_replicate, length_drop. cbn [length]. lia.
Qed.

Lemma file_write_in f from pos i : 0 <= pos <= i -> i < pos + Z.of_nat (length from) ->
  arr_get (file_write f from pos) i = arr_get from (i - pos).
Proof.
  intros Hp Hi. unfold file_write. destruct from as [|b from]; [cbn in Hi; lia|].
  unfold arr_get. rewrite !decide_True by lia.
  rewrite lookup_app_r by (rewrite length_take; lia).
  rewrite length_take, length_app, length_replicate.
  rewrite lookup_app_l by (cbn [length] in *; lia).
  by replace (Z.to_nat i - _)%nat with (Z.to_nat (i - pos)) by lia.
Qed.

Lemma file_write_before f from pos i : 0 <= i < pos -> from <> [] ->
  arr_get (file_write f from pos) i =
  if decide (i < Z.of_nat (length f)) then arr_get f i else Ok 0.
Proof.
  intros Hi Hne. unfold file_write. destruct from as [|b from]; [done|].
  unfold arr_get. rewrite decide_True by lia.
  rewrite lookup_app_l by (rewrite length_take, length_app, length_replicate; lia).
  rewrite lookup_take_lt by lia. destruct (decide (i < Z.of_nat (length f))).
  - rewrite lookup_app_l by lia. rewrite decide_True by lia. done.
  - rewrite lookup_app_r by lia. rewrite lookup_replicate_2 by lia. done.
Qed.

Section Image.
Variables (x : list Z) (h : NoffHeader).
Hypothesis HL : loadable x h.
Let code_bytes := file_read x (size (code h)) (inFileAddr (code h)).
Let data_bytes := file_read x (size (initData h)) (inFileAddr (initData h)).

Lemma image_facts :
  Z.of_nat (length code_bytes) = size (code h) /\ Z.of_nat (length data_bytes) = size (initData h) /\
  code_bytes <> [] /\ data_bytes <> [] /\
  vm_image x h = file_write (file_write [] code_bytes 0) data_bytes (virtualAddr (initData h) * 128) /\
  Z.of_nat (length (file_write [] code_bytes 0)) = size (code h) /\
  size (code h) <= virtualAddr (initData h) * 128.
Proof.
  destruct HL as [_ _ _ [L6 [S1 [S2 S3] _]] [L8 [T1 [T2 T3] _]]].
  assert (C : Z.of_nat (length code_bytes) = size (code h)) by (apply file_read_full; lia).
  assert (D : Z.of_nat (length data_bytes) = size (initData h)) by (apply file_read_full; lia).
  assert (Cn : code_bytes <> []) by (intros Hc; rewrite Hc in C; cbn in C; lia).
  assert (Dn : data_bytes <> []) by (intros Hc; rewrite Hc in D; cbn in D; lia).
  splits; try done.
  - unfold vm_image. by rewrite L6.
  - rewrite file_write_length by done. cbn [length]. lia.
  - lia.
Qed.

Lemma image_length :
  virtualAddr (initData h) * 128 < Z.of_nat (length (vm_image x h)).
Proof.
  destruct image_facts as (_ & D & _ & Dn & -> & _ & H).
  destruct HL as [_ _ _ _ [L8 [T1 _ [T5 _]]]].
  rewrite file_write_length; [|lia|done]. lia.
Qed.

Lemma image_code i : 0 <= i < size (code h) ->
  arr_get (vm_image x h) i = arr_get x (inFileAddr (code h) + i).
Proof.
  intros Hi. destruct image_facts as (C & _ & _ & Dn & -> & L & H).
  rewrite file_write_before by (done || lia). rewrite L, decide_True by lia.
  rewrite file_write_in by lia. rewrite Z.sub_0_r. apply file_read_get; [|fold code_bytes; lia].
  apply HL.
Qed.

Lemma image_gap i : size (code h) <= i < virtualAddr (initData h) * 128 ->
  arr_get (vm_image x h) i = Ok 0.
Proof.
  intros Hi. destruct image_facts as (_ & _ & _ & Dn & -> & L & H).
  assert (0 < size (code h)) by apply HL.
  rewrite file_write_before by (done || lia). by rewrite L, decide_False by lia.
Qed.

Lemma image_bytes : Forall is_byte x -> Forall is_byte (vm_image x h).
Proof.
  intros Hx. assert (W : forall f g p, Forall is_byte f -> Forall is_byte g ->
    Forall is_byte (file_write f g p)).
  { intros f g p Hf Hg. unfold file_write. destruct g; [done|]. rewrite !Forall_app. split.
    - apply Forall_take, Forall_app. split; [done|]. by apply Forall_replicate.
    - split; [done|by apply Forall_drop]. }
  unfold vm_image. apply W; [apply W|]; try apply file_read_bytes; done.
Qed.

End Image.

(** Everything a load from a freshly loaded program needs: the program is in
    the file system, the page has no frame yet, and one is free. *)
Record load_ready (junk : list Z) (exe : string) (k : Kernel) (x : list Z) (h : NoffHeader)
    (m : Machine) (a : Z) : Prop := {
  lr_junk : length junk = 40%nat;
  lr_exe : files k !! exe = Some x /\ exe <> "VirtualMemory"%string;
  lr_bytes : map_Forall (fun _ f => Forall is_byte f) (files k);
  lr_loadable : loadable x h;
  lr_mach : mach_wf m;
  lr_unmapped : exists pt, pageTable m = Some pt /\
    find_entry pt (pid k) (a / PageSize) 0 None = None;
  lr_frame : exists fr, find_clear (bits (MemoryMap m)) = Some fr }.

Lemma load_then_read junk exe k x h m a sz :
  load_ready junk exe k x h m a -> access_size sz -> aligned a sz -> 0 <= a ->
  a + sz <= Z.of_nat (length (vm_image x h)) -> is_int a ->
  exists k' v m', AddrSpace_AddrSpace junk exe k = Ok (mkAddrSpace (space_pages h), k') /\
    load_bytes (vm_image x h) a sz = Ok v /\
    ReadMem pid ExceptionHandler a sz (m, k') = Ok (Some v, (m', k')).
Proof.
  intros [H1 [H2 H3] H4 H5 H6 (pt & H7 & H8) (fr & H9)] Hz Hal H0 Hlen Hi.
  exists (set_files (<["VirtualMemory"%string := vm_image x h]> (files k)) k).
  assert (Hk : kernel_ok (set_files (<["VirtualMemory"%string := vm_image x h]> (files k)) k)).
  { split; cbn [files set_files].
    - rewrite lookup_insert_eq. eauto.
    - apply map_Forall_insert_2; [|done]. apply image_bytes. by eapply H4. }
  destruct (ReadMem_paged a sz m _ pt (vm_image x h) fr H6 Hk H7) as (v & m' & E1 & E2 & _);
    try done.
  - cbn [pid set_files]. rewrite (u32_small a) by (unfold is_uint, is_int in *; lia). exact H8.
  - cbn [files set_files]. apply lookup_insert_eq.
  - exists v, m'. split; [by apply AddrSpace_run|]. done.
Qed.

Lemma load_then_fetch junk exe k x h m a :
  load_ready junk exe k x h m a -> 0 <= a -> a + 4 <= size (code h) -> Z.land a 3 = 0 ->
  exists k' v m', AddrSpace_AddrSpace junk exe k = Ok (mkAddrSpace (space_pages h), k') /\
    load_bytes x (inFileAddr (code h) + a) 4 = Ok v /\
    ReadMem pid ExceptionHandler a 4 (m, k') = Ok (Some v, (m', k')).
Proof.
  intros Hr H0 Ha Hal. pose proof (lr_loadable _ _ _ _ _ _ _ Hr) as HL.
  pose proof (image_length x h HL) as Hlen. pose proof (ld_data _ _ HL) as [D1 [D2 _ [D3 _]]].
  destruct (load_then_read junk exe k x h m a 4 Hr) as (k' & v & m' & E1 & E2 & E3).
  - right; by right.
  - by split.
  - done.
  - lia.
  - unfold is_int. lia.
  - exists k', v, m'. split; [done|]. split; [|done]. rewrite <- E2.
    apply load_bytes_ext. intros i Hi. rewrite image_code by (done || lia). f_equal. lia.
Qed.

(** The loader and demand paging together: after [AddrSpace] has loaded an
    executable, the instruction fetch at a word of the code segment returns
    the word the executable holds there. *)
Theorem userprog_load_then_fetch junk exe k x h m a :
  load_ready junk exe k x h m a -> 0 <= a -> a + 4 <= size (code h) -> Z.land a 3 = 0 ->
  exists k' v m', AddrSpace_AddrSpace junk exe k = Ok (mkAddrSpace (space_pages h), k') /\
    load_bytes x (inFileAddr (code h) + a) 4 = Ok v /\
    ReadMem pid ExceptionHandler a 4 (m, k') = Ok (Some v, (m', k')).
Proof. apply load_then_fetch. Qed.

(** Initialised data never reaches the program.  The loader puts the data segment
    at 128 times its virtual address into the file VirtualMemory, and the page
    fault handler reads it at its virtual address: the program reads zeros. *)
Theorem userprog_initData_lost junk exe k x h m a :
  load_ready junk exe k x h m a ->
  virtualAddr (initData h) <= a < virtualAddr (initData h) + size (initData h) ->
  a < virtualAddr (initData h) * PageSize ->
  exists k' m', AddrSpace_AddrSpace junk exe k = Ok (mkAddrSpace (space_pages h), k') /\
    ReadMem pid ExceptionHandler a 1 (m, k') = Ok (Some 0, (m', k')).
Proof.
  intros Hr Ha Ha'. pose proof (lr_loadable _ _ _ _ _ _ _ Hr) as HL. unfold PageSize in Ha'.
  pose proof (image_length x h HL) as Hlen. pose proof (ld_data _ _ HL) as [D1 [D2 _ [D3 _]]].
  destruct (load_then_read junk exe k x h m a 1 Hr) as (k' & v & m' & E1 & E2 & E3);
    [by left|split; done|lia|lia|unfold is_int; lia|].
  exists k', m'. split; [done|]. rewrite E3. do 3 f_equal.
  unfold load_bytes in E2. cbn [Z.eqb Pos.eqb] in E2.
  rewrite image_gap in E2 by (done || lia). by injection E2 as <-.
Qed.

(** ** Frames are never given back *)

Fixpoint page_faults (vpns : list Z) : M (Machine * Kernel) unit :=
  match vpns with
  | [] => mret tt
  | vpn :: vpns' => _ ← page_fault vpn; page_faults vpns'
  end.

(** C40: A page fault takes one frame for good.  A sequence of page faults within
    the first 2 GB succeeds as long as there are frames left, and leaves that many
    fewer; the first one beyond that aborts the kernel. *)
Theorem userprog_frame_budget vpns : forall m k,
  mach_wf m -> kernel_ok k -> Forall (fun v => 0 <= v < 16777216) vpns ->
  let free := count_clear (bits (MemoryMap m)) in
  ((length vpns <= free)%nat -> exists m', page_faults vpns (m, k) = Ok (tt, (m', k)) /\
     mach_wf m' /\ count_clear (bits (MemoryMap m')) = (free - length vpns)%nat) /\
  ((free < length vpns)%nat -> page_faults vpns (m, k) = Fault AssertFailure).
Proof.
  induction vpns as [|vpn vpns IH]; intros m k Hm Hk Hv; cbv zeta; cbn [length page_faults].
  { split; [|lia]. intros _. exists m. split; [done|]. split; [done|]. lia. }
  apply List.Forall_cons_iff in Hv as [Hv0 Hv]. destruct (mw_pt _ Hm) as (pt & Hpt & _).
  destruct (page_fault_cases vpn m k pt Hm Hk Hpt ltac:(lia))
    as [[E [X|X]]|(fr & e & f & b' & mem & Efr & _ & _ & _ & _ & (_ & _ & B3) & _ & _ & W2 & E)].
  - apply find_clear_None in X. rewrite X. split; [lia|]. intros _.
    unfold mbind, M_bind. by rewrite E.
  - lia.
  - apply find_clear_Some in Efr as [Efr _].
    pose proof (count_clear_set _ _ Efr) as Hc. rewrite <- B3 in Hc.
    specialize (IH _ k W2 Hk Hv). cbv zeta in IH. destruct IH as [IH1 IH2].
    change (MemoryMap (set_mainMemory mem _)) with b' in IH1, IH2.
    rewrite (bind_run _ _ _ _ _ E). split; intros Hle.
    + destruct IH1 as (m' & E' & Hm' & Hc'); [lia|]. exists m'. split; [done|]. split; [done|]. lia.
    + apply IH2. lia.
Qed.

(** ** The TLB build *)

(** In the build with USE_TLB no memory access works: whatever the contents of the
    TLB, every aligned access of a machine that the constructor has set up
    dereferences the page table pointer, which is NULL. *)
Theorem userprog_tlb_build_crashes debug junkmap junktlb m k a sz w :
  Machine_Machine true debug junkmap junktlb = Ok m -> aligned a sz ->
  Translate pid a sz w (m, k) = Fault BadAccess.
Proof.
  unfold Machine_Machine. intros E [A4 A2].
  apply obind_Ok in E as (b & _ & E). injection E as <-. unfold Translate.
  replace (((sz =? 4) && _) || _) with false; [reflexivity|].
  symmetry. apply orb_false_iff. split; apply andb_false_iff.
  - destruct (Z.eqb_spec sz 4); [right; by rewrite A4|by left].
  - destruct (Z.eqb_spec sz 2); [right; by rewrite A2|by left].
Qed.

(** ** A program *)

(** Two instructions of code at address 0, four bytes of data at address 8. *)
Definition demo_exe : list Z :=
  ints_bytes [NOFFMAGIC; 0; 40; 8; 8; 48; 4; 12; 0; 0] ++
  [1; 0; 2; 36; 12; 0; 0; 0] ++ [9; 9; 9; 9].

Definition demo_header : NoffHeader :=
  mkNoffHeader NOFFMAGIC (mkSegment 0 40 8) (mkSegment 8 48 4) (mkSegment 12 0 0).

Definition demo_kernel : Kernel := mkKernel 1 None {["prog"%string := demo_exe]}.

Lemma demo_exe_bytes : Forall is_byte demo_exe.
Proof.
  unfold demo_exe. apply Forall_app. split; [apply ints_bytes_bytes|].
  repeat (apply List.Forall_cons; [unfold is_byte; lia|]). constructor.
Qed.

Lemma demo_loadable : loadable demo_exe demo_header.
Proof.
  assert (P : space_pages demo_header * 128 = 1152) by reflexivity.
  assert (L : Z.of_nat (length demo_exe) = 52) by reflexivity.
  constructor; try rewrite P; cbn -[demo_exe]; unfold UserStackSize.
  - split; [by apply (bool_decide_unpack _)|reflexivity].
  - done.
  - lia.
  - split; [done|]. constructor; cbn -[demo_exe]; lia.
  - split; [lia|]. constructor; cbn -[demo_exe]; lia.
Qed.

Lemma demo_load_ready a : 0 <= a < 128 ->
  load_ready (replicate 40 0) "prog" demo_kernel demo_exe demo_header demo_machine a.
Proof.
  intros Ha. constructor; try done.
  - intros n f. cbn. rewrite lookup_singleton_Some. intros [_ <-]. apply demo_exe_bytes.
  - apply demo_loadable.
  - apply demo_machine_ok.
  - eexists. split; [reflexivity|]. unfold PageSize. by rewrite Z.div_small by lia.
  - exists 0%nat. reflexivity.
Qed.

Lemma userprog_load_then_fetch_witness :
  exists k' m', AddrSpace_AddrSpace (replicate 40 0) "prog" demo_kernel = Ok (mkAddrSpace 9, k') /\
    ReadMem pid ExceptionHandler 4 4 (demo_machine, k') = Ok (Some 12, (m', k')).
Proof.
  destruct (userprog_load_then_fetch (replicate 40 0) "prog" demo_kernel demo_exe demo_header
    demo_machine 4) as (k' & v & m' & E1 & E2 & E3).
  - apply demo_load_ready. lia.
  - lia.
  - cbn. lia.
  - reflexivity.
  - vm_compute in E2. injection E2 as <-. exists k', m'. split; [exact E1|exact E3].
Defined.

Lemma userprog_initData_lost_witness :
  exists k' m', AddrSpace_AddrSpace (replicate 40 0) "prog" demo_kernel = Ok (mkAddrSpace 9, k') /\
    ReadMem pid ExceptionHandler 10 1 (demo_machine, k') = Ok (Some 0, (m', k')).
Proof.
  destruct (userprog_initData_lost (replicate 40 0) "prog" demo_kernel demo_exe demo_header
    demo_machine 10) as (k' & m' & E1 & E2).
  - apply demo_load_ready. lia.
  - cbn. lia.
  - by vm_compute.
  - exists k', m'. split; [exact E1|exact E2].
Defined.

(** A kernel in which VirtualMemory has three pages. *)
Definition demo_kernel_vm : Kernel :=
  mkKernel 7 None {["VirtualMemory"%string := map (fun i => Z.of_nat i mod 256) (seq 0 384)]}.

Lemma demo_kernel_vm_ok : kernel_ok demo_kernel_vm.
Proof.
  split; [by eexists|]. intros n f. cbn -[seq]. rewrite lookup_singleton_Some. intros [_ <-].
  apply List.Forall_forall. intros b Hb. apply in_map_iff in Hb as (i & <- & _).
  by apply Z.mod_pos_bound.
Qed.

Lemma userprog_Run_safe_witness :
  wp (Run pid ExceptionHandler (mret tt) 3)
    (fun e => user_fault e \/ exists j s', (j < 3)%nat /\
       Run pid ExceptionHandler (mret tt) j (demo_machine, demo_kernel_vm) = Ok (tt, s') /\
       traps_at s' e)
    (fun _ s' => mach_ok s'.1 /\ kernel_ok s'.2) (demo_machine, demo_kernel_vm).
Proof.
  apply (userprog_Run_safe (mret tt) 3 (demo_machine, demo_kernel_vm)).
  - intros s H1 H2. exists s. split; [reflexivity|]. split; [exact H1|exact H2].
  - apply demo_machine_ok.
  - apply demo_kernel_vm_ok.
Defined.

Lemma userprog_demand_paging_witness :
  exists m', ReadMem pid ExceptionHandler 130 2 (demo_machine, demo_kernel_vm)
    = Ok (Some 33666, (m', demo_kernel_vm)).
Proof.
  edestruct (userprog_demand_paging 130 2 demo_machine demo_kernel_vm) as (v & m' & E1 & E2 & _).
  - apply mach_ok_wf, demo_machine_ok.
  - apply demo_kernel_vm_ok.
  - reflexivity.
  - unfold is_int. lia.
  - right. by left.
  - by split.
  - vm_compute. reflexivity.
  - vm_compute. reflexivity.
  - reflexivity.
  - lia.
  - by vm_compute.
  - vm_compute in E1. injection E1 as <-. exists m'. exact E2.
Defined.

Lemma userprog_frame_budget_witness :
  page_faults (map Z.of_nat (seq 1 32)) (demo_machine, demo_kernel_vm) = Fault AssertFailure.
Proof.
  refine (proj2 (userprog_frame_budget (map Z.of_nat (seq 1 32)) demo_machine demo_kernel_vm
    (mach_ok_wf _ demo_machine_ok) demo_kernel_vm_ok _) _).
  - apply List.Forall_forall. intros v Hv. apply in_map_iff in Hv as (i & <- & Hi).
    apply in_seq in Hi. lia.
  - vm_compute. lia.
Defined.

Lemma userprog_tlb_build_crashes_witness :
  exists m, Machine_Machine true false [0] [] = Ok m /\
    Translate pid 4 4 false (m, demo_kernel) = Fault BadAccess.
Proof.
  eexists. split; [vm_compute; reflexivity|].
  apply (userprog_tlb_build_crashes false [0] []); [vm_compute; reflexivity|by split].
Defined.

(** The program above exits with its second instruction. *)
Example demo_exits :
  StartProcess (mret tt) (replicate 40 0) "prog" 2 (demo_machine, demo_kernel) = Fault Finished /\
  exists s, StartProcess (mret tt) (replicate 40 0) "prog" 1 (demo_machine, demo_kernel) = Ok (tt, s).
Proof. split; [by vm_compute|]. eexists. by vm_compute. Qed.
