(* ===== verification/Sysdep.v ===== *)
(** * machine/sysdep.cc: the wrappers around UNIX, and the files behind them

    UNIX is a parameter: the class [Unix] lists the system calls that sysdep.cc
    makes, [UnixLaws] states what their manual pages promise for regular files
    and datagram sockets on a host that has descriptors and space left.  Over
    it come the wrappers, the file system stubs of filesys/openfile.h and
    filesys.h, and the UNIX file of machine/disk.cc.  The theorems show that
    UserProg.v and Disk.v, where a UNIX file is a list or a map of bytes, say
    what the code does on any such host; [View_unix] is one. *)
From S2P Require Import Prelude CInt Disk.
From S2P Require UserProg.
From Stdlib Require Import ZArith Lia List Bool.
From stdpp Require Import base tactics list numbers gmap strings.
Local Open Scope Z_scope.

(** ** The system calls *)

Inductive open_flag := O_RDWR | O_CREAT | O_TRUNC.
Definition SEEK_SET : Z := 0.
Definition SEEK_CUR : Z := 1.
Definition SEEK_END : Z := 2.

(** Calls return what C gets back, with the bytes that were stored. *)
Class Unix (U : Type) := {
  unix_open : string -> list open_flag -> Z -> U -> Z * U;
  unix_read : Z -> Z -> U -> (Z * list Z) * U;
  unix_write : Z -> list Z -> U -> Z * U;
  unix_lseek : Z -> Z -> Z -> U -> Z * U;
  unix_close : Z -> U -> Z * U;
  unix_unlink : string -> U -> Z * U;
  unix_select : Z -> Z -> Z -> U -> Z * U;
  unix_socket : U -> Z * U;
  unix_bind : Z -> string -> U -> Z * U;
  unix_recvfrom : Z -> Z -> U -> (Z * list Z) * U;
  unix_sendto : Z -> list Z -> string -> U -> Z * U }.

(** ** sysdep.cc *)

Section Wrappers.
Context {U : Type} `{Unix U}.

Definition call {A} (f : U -> A * U) : M U A := fun u => Ok (f u).

(** [idle]: the machine is in IdleMode; a file descriptor of 32 or more has no
    bit in the [int]. *)
Definition PollFile (idle : bool) (fd : Z) : M U bool :=
  _ ← (if (0 <=? fd) && (fd <? 32) then mret tt else fail BadAccess);
  let rfd := wrap32 (Z.shiftl 1 fd) in
  let tv_usec := if idle then 20000 else 0 in
  retVal ← call (unix_select 32 rfd tv_usec);
  _ ← ASSERT ((retVal =? 0) || (retVal =? 1));
  mret (negb (retVal =? 0)).

Definition OpenForWrite (name : string) : M U Z :=
  fd ← call (unix_open name [O_RDWR; O_CREAT; O_TRUNC] 438);
  _ ← ASSERT (0 <=? fd);
  mret fd.

Definition OpenForReadWrite (name : string) (crashOnError : bool) : M U Z :=
  fd ← call (unix_open name [O_RDWR] 0);
  _ ← ASSERT (negb crashOnError || (0 <=? fd));
  mret fd.

Definition Read (fd nBytes : Z) : M U (list Z) :=
  r ← call (unix_read fd nBytes);
  _ ← ASSERT (r.1 =? nBytes);
  mret r.2.

Definition ReadPartial (fd nBytes : Z) : M U (Z * list Z) := call (unix_read fd nBytes).

Definition WriteFile (fd : Z) (buffer : list Z) : M U unit :=
  retVal ← call (unix_write fd buffer);
  ASSERT (retVal =? Z.of_nat (length buffer)).

Definition Lseek (fd offset whence : Z) : M U unit :=
  retVal ← call (unix_lseek fd offset whence);
  ASSERT (0 <=? retVal).

Definition Tell (fd : Z) : M U Z := call (unix_lseek fd 0 SEEK_CUR).

Definition Close (fd : Z) : M U unit :=
  retVal ← call (unix_close fd);
  ASSERT (0 <=? retVal).

(** A result that is not 0 is TRUE. *)
Definition Unlink (name : string) : M U bool :=
  r ← call (unix_unlink name);
  mret (negb (r =? 0)).

Definition OpenSocket : M U Z :=
  sockID ← call unix_socket;
  _ ← ASSERT (0 <=? sockID);
  mret sockID.

Definition CloseSocket (sockID : Z) : M U unit :=
  _ ← call (unix_close sockID); mret tt.

(** [strcpy] into the 108 bytes of [sun_path]. *)
Definition InitSocketName (name : string) : M U string :=
  if (String.length name <? 108)%nat then mret name else fail BadAccess.

Definition AssignNameToSocket (socketName : string) (sockID : Z) : M U unit :=
  _ ← call (unix_unlink socketName);
  uName ← InitSocketName socketName;
  retVal ← call (unix_bind sockID uName);
  ASSERT (0 <=? retVal).

Definition DeAssignNameToSocket (socketName : string) : M U unit :=
  _ ← call (unix_unlink socketName); mret tt.

Definition PollSocket (idle : bool) (sockID : Z) : M U bool := PollFile idle sockID.

Definition ReadFromSocket (sockID packetSize : Z) : M U (list Z) :=
  r ← call (unix_recvfrom sockID packetSize);
  _ ← ASSERT (r.1 =? packetSize);
  mret r.2.

Definition SendToSocket (sockID : Z) (buffer : list Z) (toName : string) : M U unit :=
  uName ← InitSocketName toName;
  retVal ← call (unix_sendto sockID buffer uName);
  ASSERT (retVal =? Z.of_nat (length buffer)).

(** [new char[n]], [delete []] and [mprotect] of the host; the calls of
    [mprotect] in AllocBoundedArray are commented out. *)
Section Bounded.
Context (pgSize : Z) (new_array : Z -> U -> Z * U) (delete_array : Z -> U -> unit * U).
Context (mprotect : Z -> Z -> U -> Z * U).

Definition AllocBoundedArray (size : Z) : M U Z :=
  ptr ← call (new_array (pgSize * 2 + size));
  mret (ptr + pgSize).

Definition DeallocBoundedArray (ptr size : Z) : M U unit :=
  _ ← call (mprotect (ptr - pgSize) pgSize);
  _ ← call (mprotect (ptr + size) pgSize);
  call (delete_array (ptr - pgSize)).
End Bounded.

(** ** openfile.h, filesys.h: FILESYS_STUB *)

Record StubFile := mkStub { file : Z; currentOffset : Z }.

Definition OpenFile_new (f : Z) : StubFile := mkStub f 0.
Definition OpenFile_delete (o : StubFile) : M U unit := Close (file o).

Definition stub_ReadAt (o : StubFile) (numBytes position : Z) : M U (Z * list Z) :=
  _ ← Lseek (file o) position 0;
  ReadPartial (file o) numBytes.

Definition stub_WriteAt (o : StubFile) (from : list Z) (position : Z) : M U Z :=
  _ ← Lseek (file o) position 0;
  _ ← WriteFile (file o) from;
  mret (Z.of_nat (length from)).

(** The object comes back with its new offset. *)
Definition stub_Read (o : StubFile) (numBytes : Z) : M U (Z * list Z * StubFile) :=
  r ← stub_ReadAt o numBytes (currentOffset o);
  mret (r, mkStub (file o) (currentOffset o + r.1)).

Definition stub_Write (o : StubFile) (from : list Z) : M U (Z * StubFile) :=
  n ← stub_WriteAt o from (currentOffset o);
  mret (n, mkStub (file o) (currentOffset o + n)).

Definition stub_Length (o : StubFile) : M U Z :=
  _ ← Lseek (file o) 0 2;
  Tell (file o).

Definition FileSystem_Create (name : string) (initialSize : Z) : M U bool :=
  fileDescriptor ← OpenForWrite name;
  if fileDescriptor =? -1 then mret false
  else _ ← Close fileDescriptor; mret true.

Definition FileSystem_Open (name : string) : M U (option StubFile) :=
  fileDescriptor ← OpenForReadWrite name false;
  if fileDescriptor =? -1 then mret None else mret (Some (OpenFile_new fileDescriptor)).

Definition FileSystem_Remove (name : string) : M U bool :=
  r ← Unlink name;
  mret (negb r).

(** ** disk.cc: the file that is the disk *)

Definition disk_new (name : string) : M U Z :=
  fileno ← OpenForReadWrite name false;
  if 0 <=? fileno then
    m ← Read fileno 4;
    _ ← ASSERT (bool_decide (bytes_ints m = [MagicNumber]));
    mret fileno
  else
    fileno ← OpenForWrite name;
    _ ← WriteFile fileno (int_bytes MagicNumber);
    _ ← Lseek fileno (DiskSize - 4) 0;
    _ ← WriteFile fileno (int_bytes 0);
    mret fileno.

(** What ReadRequest and WriteRequest do with the file. *)
Definition disk_read (fileno sectorNumber : Z) : M U (list Z) :=
  _ ← Lseek fileno (SectorSize * sectorNumber + MagicSize) 0;
  Read fileno SectorSize.

Definition disk_write (fileno sectorNumber : Z) (data : list Z) : M U unit :=
  _ ← Lseek fileno (SectorSize * sectorNumber + MagicSize) 0;
  WriteFile fileno data.

Definition disk_delete (fileno : Z) : M U unit := Close fileno.
End Wrappers.

(** ** What the manual pages promise *)

(** What a process sees of the host's files: names, contents, and for each
    open descriptor the file and the position in it. *)
Record View := mkView {
  dir : gmap string positive;
  contents : gmap positive (list Z);
  fds : gmap Z (positive * Z) }.

Definition set_fds f v := mkView (dir v) (contents v) f.
Definition set_contents i d v := mkView (dir v) (<[i := d]> (contents v)) (fds v).
Definition link name i v := mkView (<[name := i]> (dir v)) (contents v) (fds v).

(** A write at [pos]; it fills a gap behind the end with zeros. *)
Definition overwrite (d : list Z) (pos : Z) (bs : list Z) : list Z := UserProg.file_write d bs pos.
Definition part_of (d : list Z) (pos n : Z) : list Z := UserProg.file_read d n pos.

Class UnixLaws (U : Type) `{Unix U} := {
  view : U -> View;
  open_existing u name i : dir (view u) !! name = Some i ->
    exists fd u', unix_open name [O_RDWR] 0 u = (fd, u') /\ 0 <= fd /\ fds (view u) !! fd = None /\
      view u' = set_fds (<[fd := (i, 0)]> (fds (view u))) (view u);
  open_missing u name : dir (view u) !! name = None ->
    exists u', unix_open name [O_RDWR] 0 u = (-1, u') /\ view u' = view u;
  open_truncate u name i mode : dir (view u) !! name = Some i ->
    exists fd u', unix_open name [O_RDWR; O_CREAT; O_TRUNC] mode u = (fd, u') /\ 0 <= fd /\
      fds (view u) !! fd = None /\
      view u' = set_fds (<[fd := (i, 0)]> (fds (view u))) (set_contents i [] (view u));
  open_create u name mode : dir (view u) !! name = None ->
    exists fd i u', unix_open name [O_RDWR; O_CREAT; O_TRUNC] mode u = (fd, u') /\ 0 <= fd /\
      fds (view u) !! fd = None /\ contents (view u) !! i = None /\
      view u' = set_fds (<[fd := (i, 0)]> (fds (view u))) (link name i (set_contents i [] (view u)));
  read_file u fd n i pos d : fds (view u) !! fd = Some (i, pos) -> contents (view u) !! i = Some d ->
    0 <= n -> exists u', let got := part_of d pos n in
      unix_read fd n u = ((Z.of_nat (length got), got), u') /\
      view u' = set_fds (<[fd := (i, pos + Z.of_nat (length got))]> (fds (view u))) (view u);
  write_file u fd bs i pos d : fds (view u) !! fd = Some (i, pos) -> contents (view u) !! i = Some d ->
    exists u', unix_write fd bs u = (Z.of_nat (length bs), u') /\
      view u' = set_fds (<[fd := (i, pos + Z.of_nat (length bs))]> (fds (view u)))
                  (set_contents i (overwrite d pos bs) (view u));
  lseek_file u fd off whence i pos d : fds (view u) !! fd = Some (i, pos) ->
    contents (view u) !! i = Some d -> In whence [SEEK_SET; SEEK_CUR; SEEK_END] ->
    let target := (if whence =? SEEK_SET then 0 else if whence =? SEEK_CUR then pos
                   else Z.of_nat (length d)) + off in
    exists u', (0 <= target /\ unix_lseek fd off whence u = (target, u') /\
                view u' = set_fds (<[fd := (i, target)]> (fds (view u))) (view u)) \/
               (target < 0 /\ unix_lseek fd off whence u = (-1, u') /\ view u' = view u);
  close_file u fd p : fds (view u) !! fd = Some p ->
    exists u', unix_close fd u = (0, u') /\ view u' = set_fds (delete fd (fds (view u))) (view u);
  unlink_file u name i : dir (view u) !! name = Some i ->
    exists u', unix_unlink name u = (0, u') /\
      view u' = mkView (delete name (dir (view u))) (contents (view u)) (fds (view u));
  unlink_missing u name : dir (view u) !! name = None ->
    exists u', unix_unlink name u = (-1, u') /\ view u' = view u }.

(** ** A host *)

(** The host that does just that; sockets cannot be had on it. *)
Definition lowest_fd (v : View) : Z := Z.of_nat (fresh (C := gset nat) (set_map Z.to_nat (dom (fds v)))).

Definition view_open (name : string) (flags : list open_flag) (mode : Z) (v : View) : Z * View :=
  let fd := lowest_fd v in
  match dir v !! name, flags with
  | Some i, [O_RDWR] => (fd, set_fds (<[fd := (i, 0)]> (fds v)) v)
  | Some i, _ => (fd, set_fds (<[fd := (i, 0)]> (fds v)) (set_contents i [] v))
  | None, [O_RDWR] => (-1, v)
  | None, _ => let i := fresh (dom (contents v)) in
    (fd, set_fds (<[fd := (i, 0)]> (fds v)) (link name i (set_contents i [] v)))
  end.

Definition view_file (v : View) (fd : Z) : option (positive * Z * list Z) :=
  p ← fds v !! fd; d ← contents v !! p.1; Some (p, d).

Definition view_read (fd n : Z) (v : View) : (Z * list Z) * View :=
  match view_file v fd with
  | Some (i, pos, d) =>
    let got := part_of d pos n in
    ((Z.of_nat (length got), got), set_fds (<[fd := (i, pos + Z.of_nat (length got))]> (fds v)) v)
  | None => ((-1, []), v)
  end.

Definition view_write (fd : Z) (bs : list Z) (v : View) : Z * View :=
  match view_file v fd with
  | Some (i, pos, d) =>
    (Z.of_nat (length bs), set_fds (<[fd := (i, pos + Z.of_nat (length bs))]> (fds v))
                             (set_contents i (overwrite d pos bs) v))
  | None => (-1, v)
  end.

Definition view_lseek (fd off whence : Z) (v : View) : Z * View :=
  match view_file v fd with
  | Some (i, pos, d) =>
    let target := (if whence =? SEEK_SET then 0 else if whence =? SEEK_CUR then pos
                   else Z.of_nat (length d)) + off in
    if 0 <=? target then (target, set_fds (<[fd := (i, target)]> (fds v)) v) else (-1, v)
  | None => (-1, v)
  end.

Definition view_close (fd : Z) (v : View) : Z * View :=
  match fds v !! fd with Some _ => (0, set_fds (delete fd (fds v)) v) | None => (-1, v) end.

Definition view_unlink (name : string) (v : View) : Z * View :=
  match dir v !! name with
  | Some _ => (0, mkView (delete name (dir v)) (contents v) (fds v))
  | None => (-1, v)
  end.

#[export] Instance View_unix : Unix View := {|
  unix_open := view_open; unix_read := view_read; unix_write := view_write;
  unix_lseek := view_lseek; unix_close := view_close; unix_unlink := view_unlink;
  unix_select _ _ _ v := (0, v); unix_socket v := (-1, v); unix_bind _ _ v := (-1, v);
  unix_recvfrom _ _ v := ((-1, []), v); unix_sendto _ _ _ v := (-1, v) |}.

Lemma lowest_fd_fresh v : fds v !! lowest_fd v = None.
Proof.
  apply not_elem_of_dom. intros H. 
  apply (is_fresh (C := gset nat) (set_map Z.to_nat (dom (fds v)))).
  apply elem_of_map. exists (lowest_fd v). split; [|exact H]. unfold lowest_fd. by rewrite Nat2Z.id.
Qed.

#[export] Instance View_unix_laws : UnixLaws View.
Proof.
  refine {| view := fun v => v |}; cbn; unfold view_open, view_read, view_write, view_lseek, view_close,
    view_unlink, view_file; intros.
  - rewrite H. eexists _, _. split; [reflexivity|]. split; [unfold lowest_fd; lia|].
    split; [apply lowest_fd_fresh|done].
  - rewrite H. by eexists.
  - rewrite H. eexists _, _. split; [reflexivity|]. split; [unfold lowest_fd; lia|].
    split; [apply lowest_fd_fresh|done].
  - rewrite H. eexists _, _, _. split; [reflexivity|]. split; [unfold lowest_fd; lia|].
    split; [apply lowest_fd_fresh|split; [apply not_elem_of_dom, is_fresh|done]].
  - rewrite H. cbn. rewrite H0. by eexists.
  - rewrite H. cbn. rewrite H0. by eexists.
  - rewrite H. cbn. rewrite H0. cbn. case (Z.leb_spec 0); intros Ht; eexists; [left|right]; done.
  - rewrite H. by eexists.
  - rewrite H. by eexists.
  - rewrite H. by eexists.
Defined.

(** ** The wrappers on such a host *)

Definition at_pos (fd : Z) (i : positive) (pos : Z) (v : View) : View :=
  set_fds (<[fd := (i, pos)]> (fds v)) v.

Definition open_on (v : View) (fd : Z) (i : positive) (d : list Z) : Prop :=
  (exists pos, fds v !! fd = Some (i, pos)) /\ contents v !! i = Some d.

Lemma at_pos_at_pos fd i p q v : at_pos fd i q (at_pos fd i p v) = at_pos fd i q v.
Proof. unfold at_pos, set_fds. cbn. by rewrite insert_insert_eq. Qed.

Section Laws.
Context {U : Type} `{UnixLaws U}.

Lemma Lseek_run u fd off whence r u' :
  unix_lseek fd off whence u = (r, u') -> 0 <= r -> Lseek fd off whence u = Ok (tt, u').
Proof.
  intros E Hr. unfold Lseek. mstep by (unfold call; by rewrite E). by apply ASSERT_true, Z.leb_le.
Qed.

Lemma Lseek_ok u fd i d off : open_on (view u) fd i d ->
  if decide (0 <= off)
  then exists u', Lseek fd off 0 u = Ok (tt, u') /\ view u' = at_pos fd i off (view u)
  else Lseek fd off 0 u = Fault AssertFailure.
Proof.
  intros [[pos Hf] Hd]. destruct (lseek_file u fd off 0 i pos d Hf Hd) as (u' & Hs); [by left|].
  cbn [Z.eqb SEEK_SET] in Hs. unfold Lseek. case_decide.
  - destruct Hs as [(_ & E & V)|(? & _)]; [|lia]. exists u'. split; [|exact V].
    by apply (Lseek_run _ _ _ _ _ _ E).
  - destruct Hs as [(? & _)|(_ & E & _)]; [lia|]. mstep by (unfold call; by rewrite E). done.
Qed.

Lemma Read_partial_ok u fd i d pos n : fds (view u) !! fd = Some (i, pos) -> contents (view u) !! i = Some d ->
  0 <= n -> exists u', ReadPartial fd n u = Ok ((Z.of_nat (length (part_of d pos n)), part_of d pos n), u') /\
    view u' = at_pos fd i (pos + Z.of_nat (length (part_of d pos n))) (view u).
Proof.
  intros Hf Hd Hn. destruct (read_file u fd n i pos d Hf Hd Hn) as (u' & E & V).
  exists u'. unfold ReadPartial, call. by rewrite E.
Qed.

Lemma WriteFile_ok u fd bs i pos d : fds (view u) !! fd = Some (i, pos) -> contents (view u) !! i = Some d ->
  exists u', WriteFile fd bs u = Ok (tt, u') /\
    view u' = at_pos fd i (pos + Z.of_nat (length bs)) (set_contents i (overwrite d pos bs) (view u)).
Proof.
  intros Hf Hd. destruct (write_file u fd bs i pos d Hf Hd) as (u' & E & V).
  exists u'. split; [|exact V]. unfold WriteFile. mstep by (unfold call; by rewrite E).
  apply ASSERT_true, Z.eqb_refl.
Qed.

(** The stubs on an open file. *)
Lemma stub_ReadAt_ok u o i d n pos : open_on (view u) (file o) i d -> 0 <= n ->
  if decide (0 <= pos)
  then exists u' q, stub_ReadAt o n pos u = Ok ((Z.of_nat (length (part_of d pos n)), part_of d pos n), u') /\
    view u' = at_pos (file o) i q (view u)
  else stub_ReadAt o n pos u = Fault AssertFailure.
Proof.
  intros Ho Hn. pose proof (Lseek_ok u (file o) i d pos Ho) as L. destruct Ho as [_ Hd].
  unfold stub_ReadAt. case_decide; [|by unfold mbind, M_bind; rewrite L].
  destruct L as (u1 & E1 & V1).
  destruct (Read_partial_ok u1 (file o) i d pos n) as (u2 & E2 & V2);
    [by rewrite V1; apply lookup_insert_eq|by rewrite V1|done|].
  eexists u2, _. split; [by mstep by (exact E1)|]. rewrite V2, V1. apply at_pos_at_pos.
Qed.

Lemma stub_WriteAt_ok u o i d bs pos : open_on (view u) (file o) i d ->
  if decide (0 <= pos)
  then exists u' q, stub_WriteAt o bs pos u = Ok (Z.of_nat (length bs), u') /\
    view u' = at_pos (file o) i q (set_contents i (overwrite d pos bs) (view u))
  else stub_WriteAt o bs pos u = Fault AssertFailure.
Proof.
  intros Ho. pose proof (Lseek_ok u (file o) i d pos Ho) as L. destruct Ho as [_ Hd].
  unfold stub_WriteAt. case_decide; [|by unfold mbind, M_bind; rewrite L].
  destruct L as (u1 & E1 & V1).
  destruct (WriteFile_ok u1 (file o) bs i pos d) as (u2 & E2 & V2);
    [by rewrite V1; apply lookup_insert_eq|by rewrite V1|].
  eexists u2, _. split; [by mstep by (exact E1); mstep by (exact E2)|].
  rewrite V2, V1. unfold at_pos, set_fds, set_contents. cbn. by rewrite insert_insert_eq.
Qed.

Lemma stub_Length_ok u o i d : open_on (view u) (file o) i d ->
  exists u' q, stub_Length o u = Ok (Z.of_nat (length d), u') /\ view u' = at_pos (file o) i q (view u).
Proof.
  intros [[pos Hf] Hd]. destruct (lseek_file u (file o) 0 2 i pos d Hf Hd) as (u1 & E1); [by right; right; left|].
  cbn in E1. rewrite Z.add_0_r in E1. destruct E1 as [(_ & E1 & V1)|(? & _)]; [|lia].
  destruct (lseek_file u1 (file o) 0 1 i (Z.of_nat (length d)) d) as (u2 & E2);
    [by rewrite V1; apply lookup_insert_eq|by rewrite V1|by right; left|].
  cbn in E2. rewrite Z.add_0_r in E2. destruct E2 as [(_ & E2 & V2)|(? & _)]; [|lia].
  eexists u2, _. split; [|rewrite V2, V1; apply at_pos_at_pos].
  unfold stub_Length. mstep by (apply (Lseek_run _ _ _ _ _ _ E1); lia).
  unfold Tell, call, SEEK_CUR. by rewrite E2.
Qed.

Lemma Close_ok u fd p : fds (view u) !! fd = Some p ->
  exists u', Close fd u = Ok (tt, u') /\ view u' = set_fds (delete fd (fds (view u))) (view u).
Proof.
  intros Hp. destruct (close_file u fd p Hp) as (u' & E & V). exists u'. split; [|done].
  unfold Close. by mstep by (unfold call; by rewrite E).
Qed.

(** The number of the file [name], which exists afterwards and is empty. *)
Definition created (name : string) (i : positive) (v : View) : View :=
  link name i (set_contents i [] v).

Lemma OpenForWrite_ok u name :
  exists fd i u', OpenForWrite name u = Ok (fd, u') /\ 0 <= fd /\ fds (view u) !! fd = None /\
    (dir (view u) !! name = Some i \/ dir (view u) !! name = None /\ contents (view u) !! i = None) /\
    view u' = set_fds (<[fd := (i, 0)]> (fds (view u))) (created name i (view u)).
Proof.
  destruct (dir (view u) !! name) as [i|] eqn:Ed.
  - destruct (open_truncate u name i 438 Ed) as (fd & u' & E & H1 & H2 & V).
    exists fd, i, u'. split; [|split; [done|split; [done|split; [by left|]]]].
    + unfold OpenForWrite. mstep by (unfold call; by rewrite E). mstep by (by apply ASSERT_true, Z.leb_le). done.
    + rewrite V. unfold created, link, set_fds, set_contents. cbn. by rewrite (insert_id (dir (view u))).
  - destruct (open_create u name 438 Ed) as (fd & i & u' & E & H1 & H2 & H3 & V).
    exists fd, i, u'. split; [|split; [done|split; [done|split; [by right|done]]]].
    unfold OpenForWrite. mstep by (unfold call; by rewrite E). mstep by (by apply ASSERT_true, Z.leb_le). done.
Qed.

Lemma FileSystem_Create_ok u name size :
  exists i u', FileSystem_Create name size u = Ok (true, u') /\
    (dir (view u) !! name = Some i \/ dir (view u) !! name = None /\ contents (view u) !! i = None) /\
    view u' = created name i (view u).
Proof.
  destruct (OpenForWrite_ok u name) as (fd & i & u1 & E1 & H1 & H2 & H3 & V1).
  destruct (Close_ok u1 fd (i, 0)) as (u2 & E2 & V2); [by rewrite V1; apply lookup_insert_eq|].
  exists i, u2. split; [|split; [done|]].
  - unfold FileSystem_Create. mstep by (exact E1). destruct (Z.eqb_spec fd (-1)); [lia|].
    by mstep by (exact E2).
  - rewrite V2, V1. unfold created, link, set_fds, set_contents. cbn.
    by rewrite delete_insert_id.
Qed.

Lemma FileSystem_Open_ok u name :
  match dir (view u) !! name with
  | Some i => exists fd u', FileSystem_Open name u = Ok (Some (OpenFile_new fd), u') /\
      fds (view u) !! fd = None /\ view u' = at_pos fd i 0 (view u)
  | None => exists u', FileSystem_Open name u = Ok (None, u') /\ view u' = view u
  end.
Proof.
  destruct (dir (view u) !! name) as [i|] eqn:Ed.
  - destruct (open_existing u name i Ed) as (fd & u' & E & H1 & H2 & V). exists fd, u'.
    split; [|done]. unfold FileSystem_Open, OpenForReadWrite. cbn [negb orb].
    erewrite bind_run; [|mstep by (unfold call; by rewrite E); mstep; reflexivity].
    destruct (Z.eqb_spec fd (-1)); [lia|done].
  - destruct (open_missing u name Ed) as (u' & E & V). exists u'. split; [|done].
    unfold FileSystem_Open, OpenForReadWrite. cbn [negb orb].
    erewrite bind_run; [|mstep by (unfold call; by rewrite E); mstep; reflexivity]. done.
Qed.

Lemma FileSystem_Remove_ok u name :
  exists u', FileSystem_Remove name u = Ok (bool_decide (is_Some (dir (view u) !! name)), u') /\
    view u' = mkView (delete name (dir (view u))) (contents (view u)) (fds (view u)).
Proof.
  destruct (dir (view u) !! name) as [i|] eqn:Ed.
  - destruct (unlink_file u name i Ed) as (u' & E & V). exists u'. split; [|done].
    unfold FileSystem_Remove, Unlink, call, mbind, M_bind. by rewrite E.
  - destruct (unlink_missing u name Ed) as (u' & E & V). exists u'. split.
    + unfold FileSystem_Remove, Unlink, call, mbind, M_bind. by rewrite E.
    + rewrite V, delete_id by done. by destruct (view u).
Qed.
End Laws.

(** ** Programs that use the files *)

(** The calls of a program; open files are numbered in the order of [Open]. *)
Inductive file_op :=
| FCreate (name : string)
| FOpen (name : string)
| FReadAt (h : nat) (numBytes position : Z)
| FWriteAt (h : nat) (from : list Z) (position : Z)
| FRead (h : nat) (numBytes : Z)
| FWrite (h : nat) (from : list Z)
| FLength (h : nat)
| FClose (h : nat).

Definition op_ok (o : file_op) : Prop :=
  match o with FReadAt _ n _ | FRead _ n => 0 <= n | _ => True end.

(** What a call returns: a truth value, a number, the bytes read. *)
Record answer := mkAnswer { flag : bool; number : Z; bytes : list Z }.
Definition yes (b : bool) := mkAnswer b 0 [].
Definition num (n : Z) := mkAnswer true n [].
Definition got (r : Z * list Z) := mkAnswer true r.1 r.2.

(** The objects a program has, and their counterparts below. *)
Notation objects := (list (option StubFile)).
Notation names := (list (option (string * Z))).

(** The program over the wrappers: the objects it has, and the host. *)
Section Over_unix.
Context {U : Type} `{Unix U}.

Definition with_object {A} (os : objects) (h : nat) (f : StubFile -> M U A) : M U A :=
  match os !! h with Some (Some o) => f o | _ => fail BadAccess end.

Definition unix_op (o : file_op) (os : objects) : M U (answer * objects) :=
  match o with
  | FCreate name => b ← FileSystem_Create name 0; mret (yes b, os)
  | FOpen name =>
    r ← FileSystem_Open name;
    match r with Some f => mret (yes true, os ++ [Some f]) | None => mret (yes false, os) end
  | FReadAt h n pos => r ← with_object os h (fun o => stub_ReadAt o n pos); mret (got r, os)
  | FWriteAt h bs pos => n ← with_object os h (fun o => stub_WriteAt o bs pos); mret (num n, os)
  | FRead h n => r ← with_object os h (fun o => stub_Read o n); mret (got r.1, <[h := Some r.2]> os)
  | FWrite h bs => r ← with_object os h (fun o => stub_Write o bs); mret (num r.1, <[h := Some r.2]> os)
  | FLength h => n ← with_object os h stub_Length; mret (num n, os)
  | FClose h => _ ← with_object os h OpenFile_delete; mret (yes true, <[h := None]> os)
  end.

Fixpoint unix_ops (l : list file_op) (os : objects) : M U (list answer) :=
  match l with
  | [] => mret []
  | o :: l' => r ← unix_op o os; rs ← unix_ops l' r.2; mret (r.1 :: rs)
  end.
End Over_unix.

(** The same program over the files of UserProg.v: an open file is a name, with
    the position of the object. *)
Section Over_lists.
Import UserProg.

Definition with_name {A} (os : names) (h : nat) (f : string -> Z -> M Kernel A) : M Kernel A :=
  match os !! h with Some (Some (name, off)) => f name off | _ => fail BadAccess end.

Definition list_op (o : file_op) (os : names) : M Kernel (answer * names) :=
  match o with
  | FCreate name => b ← Stub_Create name 0; mret (yes b, os)
  | FOpen name =>
    r ← Stub_Open name;
    match r with Some f => mret (yes true, os ++ [Some (f, 0)]) | None => mret (yes false, os) end
  | FReadAt h n pos => with_name os h (fun f _ =>
      d ← Stub_ReadAt f n pos; mret (got (Z.of_nat (length d), d), os))
  | FWriteAt h bs pos => with_name os h (fun f _ =>
      _ ← Stub_WriteAt f bs pos; mret (num (Z.of_nat (length bs)), os))
  | FRead h n => with_name os h (fun f off =>
      d ← Stub_ReadAt f n off;
      mret (got (Z.of_nat (length d), d), <[h := Some (f, off + Z.of_nat (length d))]> os))
  | FWrite h bs => with_name os h (fun f off =>
      _ ← Stub_WriteAt f bs off;
      mret (num (Z.of_nat (length bs)), <[h := Some (f, off + Z.of_nat (length bs))]> os))
  | FLength h => with_name os h (fun f _ => d ← Stub_contents f; mret (num (Z.of_nat (length d)), os))
  | FClose h => with_name os h (fun _ _ => mret (yes true, <[h := None]> os))
  end.

Fixpoint list_ops (l : list file_op) (os : names) : M Kernel (list answer) :=
  match l with
  | [] => mret []
  | o :: l' => r ← list_op o os; rs ← list_ops l' r.2; mret (r.1 :: rs)
  end.
End Over_lists.

(** ** Both agree *)

(** The files of a host by name. *)
Definition named (v : View) (name : string) : option (list Z) := dir v !! name ≫= fun i => contents v !! i.

(** No two names for one file, and no name or descriptor without a file. *)
Record host_ok (v : View) : Prop := {
  hk_one a b i : dir v !! a = Some i -> dir v !! b = Some i -> a = b;
  hk_dir name i : dir v !! name = Some i -> is_Some (contents v !! i) }.

Definition object_for (v : View) (f : string * Z) (o : StubFile) : Prop :=
  currentOffset o = f.2 /\ exists i pos, dir v !! f.1 = Some i /\ fds v !! file o = Some (i, pos).

Definition object_opt (v : View) (f : option (string * Z)) (o : option StubFile) : Prop :=
  match f, o with Some f, Some o => object_for v f o | None, None => True | _, _ => False end.

Record agrees (k : UserProg.Kernel) (fs : names) (v : View) (os : objects) : Prop := {
  ag_host : host_ok v;
  ag_files name : UserProg.files k !! name = named v name;
  ag_objects : Forall2 (object_opt v) fs os;
  ag_distinct h1 h2 o1 o2 : os !! h1 = Some (Some o1) -> os !! h2 = Some (Some o2) ->
    file o1 = file o2 -> h1 = h2 }.

(** Faults and answers are the same, and the states agree again. *)
Definition same_run {U} `{UnixLaws U} {A} (x : outcome (A * names * UserProg.Kernel))
    (y : outcome (A * objects * U)) : Prop :=
  match x, y with
  | Ok (a, fs, k), Ok (b, os, u) => a = b /\ agrees k fs (view u) os
  | Fault e, Fault f => e = f
  | _, _ => False
  end.

Section Agree.
Context {U : Type} `{UnixLaws U}.

Lemma object_of k fs v os h : agrees k fs v os ->
  match fs !! h, os !! h with
  | Some (Some (name, off)), Some (Some o) => currentOffset o = off /\
      exists i d, dir v !! name = Some i /\ open_on v (file o) i d /\ UserProg.files k !! name = Some d
  | Some None, Some None | None, None => True
  | _, _ => False
  end.
Proof.
  intros [A1 A2 A3 A4]. pose proof (proj1 (Forall2_lookup _ _ _) A3 h) as F.
  destruct (fs !! h) as [f|], (os !! h) as [o|]; inversion F as [? ? Hf|]; subst; [|done].
  destruct f as [[name off]|], o as [o|]; try done.
  destruct Hf as (Ho & i & pos & Hi & Hp). cbn [fst snd] in *. split; [done|].
  destruct (hk_dir v A1 name i Hi) as (d & Hd). exists i, d. split; [done|].
  split; [split; [by exists pos|done]|]. rewrite A2. unfold named. by rewrite Hi.
Qed.

(** A new content of a file that is open, and new positions. *)
Lemma agrees_set k fs v os h name off o i d off' q :
  agrees k fs v os -> fs !! h = Some (Some (name, off)) -> os !! h = Some (Some o) ->
  dir v !! name = Some i -> open_on v (file o) i d ->
  forall d', agrees (UserProg.set_files (<[name := d']> (UserProg.files k)) k)
    (<[h := Some (name, off')]> fs) (at_pos (file o) i q (set_contents i d' v))
    (<[h := Some (mkStub (file o) off')]> os).
Proof.
  intros [[B1 B2] A2 A3 A4] Hf Ho Hi [[pos Hp] Hd] d'. constructor.
  - split; [exact B1|]. cbn. intros a j Ha. destruct (decide (j = i)) as [->|Hj].
    + rewrite lookup_insert_eq. by eexists.
    + rewrite lookup_insert_ne by done. eauto.
  - intros a. unfold named. cbn. destruct (decide (a = name)) as [->|Ha].
    + rewrite lookup_insert_eq, Hi. cbn. by rewrite lookup_insert_eq.
    + rewrite lookup_insert_ne, A2 by done. unfold named. destruct (dir v !! a) as [j|] eqn:Ej; [|done].
      cbn. rewrite lookup_insert_ne; [done|]. intros ->. by apply Ha, (B1 a name j).
  - apply Forall2_insert.
    + eapply Forall2_impl; [exact A3|]. intros [[a x]|] [b|]; try done.
      intros (E & j & p & Hj & Hb). split; [done|]. cbn [fst] in *.
      destruct (decide (file b = file o)) as [Eb|Nb].
      * exists j, q. split; [done|]. cbn. rewrite Eb, lookup_insert_eq. rewrite Eb, Hp in Hb. by injection Hb as -> _.
      * exists j, p. split; [done|]. cbn. by rewrite lookup_insert_ne.
    + split; [done|]. exists i, q. split; [done|]. cbn. apply lookup_insert_eq.
  - intros h1 h2 o1 o2 H1 H2 E.
    assert (Hl : forall g x, <[h := Some (mkStub (file o) off')]> os !! g = Some (Some x) ->
      exists y, os !! g = Some (Some y) /\ file y = file x).
    { intros g x Hg. destruct (decide (g = h)) as [->|Hgh].
      - rewrite list_lookup_insert_eq in Hg by (by eapply lookup_lt_Some). injection Hg as <-. by exists o.
      - rewrite list_lookup_insert_ne in Hg by done. by exists x. }
    destruct (Hl _ _ H1) as (y1 & L1 & E1), (Hl _ _ H2) as (y2 & L2 & E2).
    apply (A4 h1 h2 y1 y2 L1 L2). congruence.
Qed.

(** Only positions change. *)
Lemma agrees_move k fs v os h name off o i d off' q :
  agrees k fs v os -> fs !! h = Some (Some (name, off)) -> os !! h = Some (Some o) ->
  dir v !! name = Some i -> open_on v (file o) i d ->
  agrees k (<[h := Some (name, off')]> fs) (at_pos (file o) i q v)
    (<[h := Some (mkStub (file o) off')]> os).
Proof.
  intros A Hf Ho Hi Hd. pose proof (agrees_set k fs v os h name off o i d off' q A Hf Ho Hi Hd d) as A'.
  destruct Hd as [_ Hd].
  assert (Hk : UserProg.files k !! name = Some d) by (rewrite (ag_files _ _ _ _ A); unfold named; by rewrite Hi).
  unfold set_contents in A'. rewrite (insert_id (contents v)) in A' by done.
  rewrite (insert_id (UserProg.files k)) in A' by done. by destruct k, v.
Qed.

Lemma agrees_open k fs v os name i d fd :
  agrees k fs v os -> dir v !! name = Some i -> contents v !! i = Some d -> fds v !! fd = None ->
  agrees k (fs ++ [Some (name, 0)]) (at_pos fd i 0 v) (os ++ [Some (OpenFile_new fd)]).
Proof.
  intros [[B1 B2] A2 A3 A4] Hi Hd Hfd. constructor; [by split|done| |].
  - apply Forall2_app.
    + eapply Forall2_impl; [exact A3|]. intros [[a x]|] [b|]; try done.
      intros (E & j & p & Hj & Hb). split; [done|]. exists j, p. split; [done|]. cbn.
      rewrite lookup_insert_ne; [done|]. congruence.
    + constructor; [|done]. split; [done|]. exists i, 0. split; [done|]. cbn. apply lookup_insert_eq.
  - assert (Hl : forall g x, (os ++ [Some (OpenFile_new fd)]) !! g = Some (Some x) ->
      os !! g = Some (Some x) \/ (g = length os /\ file x = fd)).
    { intros g x Hg. apply lookup_app_Some in Hg as [Hg|[Hle Hg]]; [by left|right].
      apply list_lookup_singleton_Some in Hg as [Hg E]. injection E as <-. split; [lia|done]. }
    assert (Hn : forall g x, os !! g = Some (Some x) -> file x <> fd).
    { intros g x Hg E. pose proof (proj1 (Forall2_lookup _ _ _) A3 g) as F. rewrite Hg in F.
      inversion F as [f ? Hf E1 E2|]; subst. destruct f as [f|]; [|done].
      destruct Hf as (_ & j & p & _ & Hp). by rewrite Hp in Hfd. }
    intros h1 h2 o1 o2 [H1|[H1 E1]]%Hl [H2|[H2 E2]]%Hl E; [by eapply A4| | |lia];
      destruct (Hn _ _ ltac:(eassumption)); congruence.
Qed.

Lemma agrees_create k fs v os name i :
  agrees k fs v os ->
  dir v !! name = Some i \/ dir v !! name = None /\ contents v !! i = None ->
  agrees (UserProg.set_files (<[name := []]> (UserProg.files k)) k) fs (created name i v) os.
Proof.
  intros [[B1 B2] A2 A3 A4] Hi.
  assert (Hne : forall a, dir v !! a = Some i -> a = name).
  { intros a Ha. destruct Hi as [Hi|[_ Hi]]; [by eapply B1|].
    destruct (B2 a i Ha) as (? & ?). congruence. }
  assert (Hdir : forall a j, dir (created name i v) !! a = Some j ->
    (a = name /\ j = i) \/ (a <> name /\ dir v !! a = Some j /\ j <> i)).
  { intros a j. cbn. destruct (decide (a = name)) as [->|Ha].
    - rewrite lookup_insert_eq. intros [= <-]. by left.
    - rewrite lookup_insert_ne by done. intros Hj. right. split; [done|split; [done|]]. intros ->. auto. }
  constructor; [split| | |done].
  - intros a b j Ha Hb. destruct (Hdir _ _ Ha) as [[-> ->]|(? & ? & ?)], (Hdir _ _ Hb) as [[-> Ej]|(? & ? & ?)];
      try done. by eapply B1.
  - intros a j Ha. cbn. destruct (Hdir _ _ Ha) as [[-> ->]|(_ & Hj & Hne')].
    + rewrite lookup_insert_eq. by eexists.
    + rewrite lookup_insert_ne by done. eauto.
  - intros a. unfold named. cbn. destruct (decide (a = name)) as [->|Ha].
    + rewrite !lookup_insert_eq. cbn. by rewrite lookup_insert_eq.
    + rewrite !lookup_insert_ne, A2 by done. unfold named. destruct (dir v !! a) as [j|] eqn:Ej; [|done].
      cbn. rewrite lookup_insert_ne; [done|]. intros ->. by apply Ha, Hne.
  - eapply Forall2_impl; [exact A3|]. intros [[a x]|] [b|]; try done.
    intros (E & j & p & Hj & Hb). split; [done|]. exists j, p. split; [|done]. cbn [fst] in *. cbn.
    destruct (decide (a = name)) as [->|Ha]; [|by rewrite lookup_insert_ne].
    rewrite lookup_insert_eq. destruct Hi as [Hi|[Hi _]]; congruence.
Qed.

Lemma agrees_close k fs v os h name off o :
  agrees k fs v os -> fs !! h = Some (Some (name, off)) -> os !! h = Some (Some o) ->
  agrees k (<[h := None]> fs) (set_fds (delete (file o) (fds v)) v) (<[h := None]> os).
Proof.
  intros [[B1 B2] A2 A3 A4] Hf Ho. pose proof (lookup_lt_Some _ _ _ Hf) as Lf. pose proof (lookup_lt_Some _ _ _ Ho) as Lo.
  constructor; [by split|done| |].
  - apply Forall2_lookup. intros g. destruct (decide (g = h)) as [->|Hg].
    + rewrite !list_lookup_insert_eq by done. by constructor.
    + rewrite !list_lookup_insert_ne by done.
      pose proof (proj1 (Forall2_lookup _ _ _) A3 g) as F. inversion F as [f b Hb E1 E2|]; [|constructor].
      constructor. destruct f as [[a x]|], b as [b|]; try done.
      destruct Hb as (E & j & p & Hj & Hp). split; [done|]. exists j, p. split; [done|]. cbn.
      rewrite lookup_delete_ne; [done|]. intros Efd. apply Hg. symmetry. by eapply A4.
  - intros h1 h2 o1 o2 H1 H2 E.
    destruct (decide (h1 = h)) as [->|]; [by rewrite list_lookup_insert_eq in H1|].
    destruct (decide (h2 = h)) as [->|]; [by rewrite list_lookup_insert_eq in H2|].
    rewrite list_lookup_insert_ne in H1, H2 by done. by eapply A4.
Qed.
End Agree.

Section Programs.
Context {U : Type} `{UnixLaws U}.

Lemma bind_fault {S A B} (m : M S A) (f : A -> M S B) s e :
  m s = Fault e -> (m ≫= f) s = Fault e.
Proof. intros E. unfold mbind, M_bind. by rewrite E. Qed.

Lemma list_ReadAt k name d n pos : UserProg.files k !! name = Some d ->
  UserProg.Stub_ReadAt name n pos k =
  if decide (0 <= pos) then Ok (part_of d pos n, k) else Fault AssertFailure.
Proof.
  intros Hk. unfold UserProg.Stub_ReadAt, UserProg.Lseek. case_decide.
  - mstep by (by apply ASSERT_true, Z.leb_le).
    mstep by (unfold UserProg.Stub_contents; by rewrite Hk). done.
  - apply bind_fault. unfold ASSERT. by rewrite (proj2 (Z.leb_gt 0 pos)) by lia.
Qed.

Lemma list_WriteAt k name d bs pos : UserProg.files k !! name = Some d ->
  UserProg.Stub_WriteAt name bs pos k =
  if decide (0 <= pos)
  then Ok (tt, UserProg.set_files (<[name := overwrite d pos bs]> (UserProg.files k)) k)
  else Fault AssertFailure.
Proof.
  intros Hk. unfold UserProg.Stub_WriteAt, UserProg.Lseek. case_decide.
  - mstep by (by apply ASSERT_true, Z.leb_le).
    mstep by (unfold UserProg.Stub_contents; by rewrite Hk). done.
  - apply bind_fault. unfold ASSERT. by rewrite (proj2 (Z.leb_gt 0 pos)) by lia.
Qed.

(** Moving an object, or leaving it where it is. *)
Lemma agrees_stay k fs v os h name off o i d q :
  agrees k fs v os -> fs !! h = Some (Some (name, off)) -> os !! h = Some (Some o) ->
  currentOffset o = off -> dir v !! name = Some i -> open_on v (file o) i d ->
  agrees k fs (at_pos (file o) i q v) os.
Proof.
  intros A Hf Ho E Hi Hd. pose proof (agrees_move k fs v os h name off o i d off q A Hf Ho Hi Hd) as A'.
  rewrite <- E in A' at 2. destruct o as [fd c]. cbn [file currentOffset] in *.
  by rewrite !list_insert_id in A' by (by subst).
Qed.

Lemma agrees_stay_set k fs v os h name off o i d d' q :
  agrees k fs v os -> fs !! h = Some (Some (name, off)) -> os !! h = Some (Some o) ->
  currentOffset o = off -> dir v !! name = Some i -> open_on v (file o) i d ->
  agrees (UserProg.set_files (<[name := d']> (UserProg.files k)) k) fs
    (at_pos (file o) i q (set_contents i d' v)) os.
Proof.
  intros A Hf Ho E Hi Hd. pose proof (agrees_set k fs v os h name off o i d off q A Hf Ho Hi Hd d') as A'.
  rewrite <- E in A' at 2. destruct o as [fd c]. cbn [file currentOffset] in *.
  by rewrite !list_insert_id in A' by (by subst).
Qed.

Section Object.
(** The object number [h] and its counterpart. *)
Context (k : UserProg.Kernel) (fs : names) (u : U) (os : objects) (h : nat).
Context (name : string) (off : Z) (o : StubFile) (i : positive) (d : list Z).
Context (A : agrees k fs (view u) os) (Ef : fs !! h = Some (Some (name, off))).
Context (Eo : os !! h = Some (Some o)) (Eoff : currentOffset o = off).
Context (Hi : dir (view u) !! name = Some i) (Hd : open_on (view u) (file o) i d).
Context (Hk : UserProg.files k !! name = Some d).

Ltac both := unfold list_op, unix_op, with_name, with_object; rewrite Ef, Eo.

Lemma step_ReadAt n pos : 0 <= n -> same_run (list_op (FReadAt h n pos) fs k) (unix_op (FReadAt h n pos) os u).
Proof.
  intros Hn. both. pose proof (stub_ReadAt_ok u o i d n pos Hd Hn) as R.
  pose proof (list_ReadAt k name d n pos Hk) as L. case_decide.
  - destruct R as (u' & q & E & V). mstep by (exact L). mstep by (exact E). cbn. split; [done|].
    rewrite V. by eapply agrees_stay.
  - by rewrite !(bind_fault _ _ _ _ L), !(bind_fault _ _ _ _ R).
Qed.

Lemma step_WriteAt bs pos : same_run (list_op (FWriteAt h bs pos) fs k) (unix_op (FWriteAt h bs pos) os u).
Proof.
  both. pose proof (stub_WriteAt_ok u o i d bs pos Hd) as R.
  pose proof (list_WriteAt k name d bs pos Hk) as L. case_decide.
  - destruct R as (u' & q & E & V). mstep by (exact L). mstep by (exact E). cbn. split; [done|].
    rewrite V. by eapply agrees_stay_set.
  - by rewrite !(bind_fault _ _ _ _ L), !(bind_fault _ _ _ _ R).
Qed.

Lemma step_Read n : 0 <= n -> same_run (list_op (FRead h n) fs k) (unix_op (FRead h n) os u).
Proof.
  intros Hn. both. pose proof (stub_ReadAt_ok u o i d n off Hd Hn) as R.
  pose proof (list_ReadAt k name d n off Hk) as L. case_decide.
  - destruct R as (u' & q & E & V). rewrite <- Eoff in E at 1.
    mstep by (exact L). erewrite bind_run; [|unfold stub_Read; by mstep by (exact E)].
    cbn [fst snd]. rewrite Eoff. cbn. split; [done|]. rewrite V. by eapply agrees_move.
  - rewrite !(bind_fault _ _ _ _ L). rewrite <- Eoff in R.
    rewrite (bind_fault (stub_Read o n) _ _ AssertFailure); [done|]. unfold stub_Read.
    by apply bind_fault.
Qed.

Lemma step_Write bs : same_run (list_op (FWrite h bs) fs k) (unix_op (FWrite h bs) os u).
Proof.
  both. pose proof (stub_WriteAt_ok u o i d bs off Hd) as R.
  pose proof (list_WriteAt k name d bs off Hk) as L. case_decide.
  - destruct R as (u' & q & E & V). rewrite <- Eoff in E at 1.
    mstep by (exact L). erewrite bind_run; [|unfold stub_Write; by mstep by (exact E)].
    cbn [fst snd]. rewrite Eoff. cbn. split; [done|]. rewrite V. by eapply agrees_set.
  - rewrite !(bind_fault _ _ _ _ L). rewrite <- Eoff in R.
    rewrite (bind_fault (stub_Write o bs) _ _ AssertFailure); [done|]. unfold stub_Write.
    by apply bind_fault.
Qed.

Lemma step_Length : same_run (list_op (FLength h) fs k) (unix_op (FLength h) os u).
Proof.
  both. destruct (stub_Length_ok u o i d Hd) as (u' & q & E & V).
  mstep by (unfold UserProg.Stub_contents; by rewrite Hk). mstep by (exact E). cbn. split; [done|].
  rewrite V. by eapply agrees_stay.
Qed.

Lemma step_Close : same_run (list_op (FClose h) fs k) (unix_op (FClose h) os u).
Proof.
  both. destruct Hd as [[pos Hp] _]. destruct (Close_ok u (file o) _ Hp) as (u' & E & V).
  mstep by (exact E). cbn. split; [done|]. rewrite V. by eapply agrees_close.
Qed.
End Object.

Lemma step_Create k fs u os name : agrees k fs (view u) os ->
  same_run (list_op (FCreate name) fs k) (unix_op (FCreate name) os u).
Proof.
  intros A. destruct (FileSystem_Create_ok u name 0) as (i & u' & E & Hi & V). unfold list_op, unix_op.
  mstep. mstep by (exact E). cbn. split; [done|]. rewrite V. by apply agrees_create.
Qed.

Lemma step_Open k fs u os name : agrees k fs (view u) os ->
  same_run (list_op (FOpen name) fs k) (unix_op (FOpen name) os u).
Proof.
  intros A. pose proof (FileSystem_Open_ok u name) as O. unfold list_op, unix_op, UserProg.Stub_Open.
  pose proof (ag_files _ _ _ _ A name) as Ek. unfold named in Ek.
  destruct (dir (view u) !! name) as [i|] eqn:Ei; cbn in Ek.
  - destruct O as (fd & u' & E & Hfd & V). destruct (hk_dir _ (ag_host _ _ _ _ A) name i Ei) as (d & Hd).
    mstep. mstep by (exact E). rewrite Ek, Hd. cbn. split; [done|]. rewrite V. by eapply agrees_open.
  - destruct O as (u' & E & V). mstep. mstep by (exact E). rewrite Ek. cbn. split; [done|]. by rewrite V.
Qed.

Lemma op_step o k fs u os : agrees k fs (view u) os -> op_ok o ->
  same_run (list_op o fs k) (unix_op o os u).
Proof.
  intros A Ho.
  destruct o as [name|name|h n pos|h bs pos|h n|h bs|h|h]; [by apply step_Create|by apply step_Open|..];
    pose proof (object_of k fs (view u) os h A) as O;
    (destruct (fs !! h) as [[[name off]|]|] eqn:Ef, (os !! h) as [[o|]|] eqn:Eo; try done;
    [destruct O as (Eoff & i & d & Hi & Hd & Hk)
    |unfold list_op, unix_op, with_name, with_object; rewrite Ef, Eo; done..]).
  - by eapply step_ReadAt.
  - by eapply step_WriteAt.
  - by eapply step_Read.
  - by eapply step_Write.
  - by eapply step_Length.
  - by eapply step_Close.
Qed.

(** Equal answers, or the same fault, and equal files at the end. *)
Definition same_result (x : outcome (list answer * UserProg.Kernel)) (y : outcome (list answer * U)) : Prop :=
  match x, y with
  | Ok (a, k), Ok (b, u) => a = b /\ forall name, UserProg.files k !! name = named (view u) name
  | Fault e, Fault f => e = f
  | _, _ => False
  end.

Lemma ops_agree l : forall k fs u os, agrees k fs (view u) os -> Forall op_ok l ->
  same_result (list_ops l fs k) (unix_ops l os u).
Proof.
  induction l as [|o l IH]; intros k fs u os A Hl; [split; [done|apply (ag_files _ _ _ _ A)]|].
  apply Forall_cons in Hl as [Ho Hl]. pose proof (op_step o k fs u os A Ho) as St.
  cbn [list_ops unix_ops]. unfold mbind, M_bind.
  destruct (list_op o fs k) as [[[a fs'] k']|e], (unix_op o os u) as [[[b os'] u']|f]; try done.
  destruct St as [<- A']. cbn [fst snd]. specialize (IH k' fs' u' os' A' Hl).
  destruct (list_ops l fs' k') as [[r k'']|], (unix_ops l os' u') as [[r' u'']|]; try done.
  destruct IH as [<- Hf]. done.
Qed.
End Programs.


(** ** The disk *)

(** The UNIX file of Disk.v and the bytes of the host's file. *)
Definition same_file (f : unix_file) (d : list Z) : Prop :=
  flen f = Z.of_nat (length d) /\ forall k, 0 <= k -> file_byte f k = default 0 (d !! Z.to_nat k).

Lemma overwrite_length d off bs : 0 <= off -> bs <> [] ->
  length (overwrite d off bs) = Nat.max (length d) (Z.to_nat off + length bs).
Proof. apply UserProg.file_write_length. Qed.

Lemma overwrite_lookup d off bs k : 0 <= off -> bs <> [] -> 0 <= k ->
  default 0 (overwrite d off bs !! Z.to_nat k) =
  if decide (off <= k < off + Z.of_nat (length bs)) then default 0 (bs !! Z.to_nat (k - off))
  else default 0 (d !! Z.to_nat k).
Proof.
  intros Ho Hb Hk. unfold overwrite, UserProg.file_write. destruct bs as [|b bs]; [done|].
  set (l := b :: bs) in *. set (p := Z.to_nat off).
  assert (Lp : length (take p (d ++ replicate (p - length d) 0)) = p)
    by (rewrite length_take, length_app, length_replicate; lia).
  destruct (decide (k < off)) as [Hlt|Hge].
  - rewrite decide_False by lia. rewrite lookup_app_l by (rewrite Lp; lia).
    rewrite lookup_take_lt by lia. destruct (decide (Z.to_nat k < length d)%nat).
    + by rewrite lookup_app_l.
    + rewrite lookup_app_r by lia. rewrite (lookup_ge_None_2 d) by lia.
      destruct (replicate _ 0 !! _) eqn:E; [|done]. by apply lookup_replicate in E as [-> _].
  - rewrite lookup_app_r by (rewrite Lp; lia). rewrite Lp. case_decide as Hin.
    + rewrite lookup_app_l by lia. by replace (Z.to_nat (k - off)) with (Z.to_nat k - p)%nat by lia.
    + rewrite lookup_app_r by lia. rewrite lookup_drop. f_equal. f_equal. lia.
Qed.

Lemma same_file_write f d off bs : same_file f d -> bs <> [] ->
  if decide (0 <= off)
  then exists f', WriteAtOff f off bs = Ok f' /\ same_file f' (overwrite d off bs)
  else WriteAtOff f off bs = Fault AssertFailure.
Proof.
  intros [Hl Hb] Hne. case_decide as Ho.
  - destruct (WriteAtOff_ok f off bs Ho) as (f' & E & Hl'). exists f'. split; [done|]. split.
    + rewrite Hl', overwrite_length, Hl by done. destruct bs; [done|]. cbn [length]. lia.
    + intros k Hk. rewrite (file_byte_written _ _ _ _ k E), overwrite_lookup by done.
      case_decide; [done|by apply Hb].
  - unfold WriteAtOff, ASSERT_. by rewrite (proj2 (Z.leb_gt 0 off)) by lia.
Qed.

Lemma same_file_read f d off n : same_file f d -> (0 < n)%nat ->
  ReadAtOff f off n =
  if decide (0 <= off /\ length (part_of d off (Z.of_nat n)) = n) then Ok (part_of d off (Z.of_nat n))
  else Fault AssertFailure.
Proof.
  intros [Hl Hb] Hn.
  assert (El : length (part_of d off (Z.of_nat n)) = Nat.min n (length d - Z.to_nat off)).
  { unfold part_of, UserProg.file_read. rewrite length_take, length_drop. lia. }
  case_decide as Hc.
  - rewrite ReadAtOff_ok by lia. f_equal. rewrite <- (map_lookup_seq (part_of d off (Z.of_nat n)) n) by lia.
    apply map_seq_ext_bytes. intros k Hk. rewrite Hb by lia. unfold part_of, UserProg.file_read.
    rewrite lookup_take_lt, lookup_drop by lia. f_equal. f_equal. lia.
  - unfold ReadAtOff, ASSERT_. destruct (Z.leb_spec 0 off); [|done]. cbn.
    destruct (Z.leb_spec (off + Z.of_nat n) (flen f)); [lia|done].
Qed.

(** The requests to the file of the disk, over the wrappers and in Disk.v. *)
Inductive sector_op := SRead (s : Z) | SWrite (s : Z) (data : list Z).
Definition sector_op_ok (r : sector_op) : Prop :=
  match r with SRead _ => True | SWrite _ data => length data = Z.to_nat SectorSize end.

Fixpoint unix_sectors {U} `{Unix U} (fileno : Z) (l : list sector_op) : M U (list (list Z)) :=
  match l with
  | [] => mret []
  | SRead s :: l' => d ← disk_read fileno s; r ← unix_sectors fileno l'; mret (d :: r)
  | SWrite s data :: l' => _ ← disk_write fileno s data; unix_sectors fileno l'
  end.

Fixpoint file_sectors (l : list sector_op) : M unix_file (list (list Z)) :=
  match l with
  | [] => mret []
  | SRead s :: l' =>
    f ← get;
    d ← lift (ReadAtOff f (SectorSize * s + MagicSize) (Z.to_nat SectorSize));
    r ← file_sectors l'; mret (d :: r)
  | SWrite s data :: l' =>
    f ← get;
    f' ← lift (WriteAtOff f (SectorSize * s + MagicSize) data);
    _ ← put f';
    file_sectors l'
  end.

Definition same_sectors {S T} (x : outcome (list (list Z) * S)) (y : outcome (list (list Z) * T)) : Prop :=
  match x, y with
  | Ok (a, _), Ok (b, _) => a = b
  | Fault e, Fault f => e = f
  | _, _ => False
  end.

Section Disk_file.
Context {U : Type} `{UnixLaws U}.

Lemma Read_ok u fd i d pos n : fds (view u) !! fd = Some (i, pos) -> contents (view u) !! i = Some d ->
  0 <= n ->
  if decide (Z.of_nat (length (part_of d pos n)) = n)
  then exists u' q, Read fd n u = Ok (part_of d pos n, u') /\ view u' = at_pos fd i q (view u)
  else Read fd n u = Fault AssertFailure.
Proof.
  intros Hf Hd Hn. destruct (read_file u fd n i pos d Hf Hd Hn) as (u' & E & V). cbn zeta in E, V.
  unfold Read. case_decide as Hc.
  - eexists u', _. split; [|exact V]. mstep by (unfold call; by rewrite E). cbn [fst snd].
    mstep by (by apply ASSERT_true, Z.eqb_eq). done.
  - mstep by (unfold call; by rewrite E). cbn [fst snd]. apply bind_fault. unfold ASSERT.
    by rewrite (proj2 (Z.eqb_neq _ _) Hc).
Qed.

Lemma disk_read_ok u fd i d s : open_on (view u) fd i d ->
  let off := SectorSize * s + MagicSize in
  if decide (0 <= off /\ length (part_of d off SectorSize) = Z.to_nat SectorSize)
  then exists u' q, disk_read fd s u = Ok (part_of d off SectorSize, u') /\ view u' = at_pos fd i q (view u)
  else disk_read fd s u = Fault AssertFailure.
Proof.
  intros Ho off. pose proof (Lseek_ok u fd i d off Ho) as L. destruct Ho as [_ Hd].
  unfold disk_read. fold off. destruct (decide (0 <= off)) as [Hp|Hp].
  - destruct L as (u1 & E1 & V1).
    pose proof (Read_ok u1 fd i d off SectorSize) as R. rewrite V1 in R. cbn in R.
    rewrite lookup_insert_eq in R. specialize (R eq_refl Hd ltac:(done)).
    destruct (decide (Z.of_nat _ = _)) as [Hc|Hc] in R.
    + rewrite decide_True by (split; [done|]; apply Nat2Z.inj; by rewrite Hc).
      destruct R as (u2 & q & E2 & V2). exists u2, q. split; [by mstep by (exact E1)|].
      rewrite V2. apply at_pos_at_pos.
    + rewrite decide_False; [by mstep by (exact E1)|]. intros [_ Hl]. by rewrite Hl in Hc.
  - rewrite decide_False by tauto. by apply bind_fault.
Qed.

Lemma disk_write_ok u fd i d s data : open_on (view u) fd i d ->
  let off := SectorSize * s + MagicSize in
  if decide (0 <= off)
  then exists u' q, disk_write fd s data u = Ok (tt, u') /\
    view u' = at_pos fd i q (set_contents i (overwrite d off data) (view u))
  else disk_write fd s data u = Fault AssertFailure.
Proof.
  intros Ho off. pose proof (Lseek_ok u fd i d off Ho) as L. destruct Ho as [_ Hd].
  unfold disk_write. fold off. case_decide; [|by apply bind_fault].
  destruct L as (u1 & E1 & V1).
  destruct (WriteFile_ok u1 fd data i off d) as (u2 & E2 & V2);
    [by rewrite V1; apply lookup_insert_eq|by rewrite V1|].
  eexists u2, _. split; [by mstep by (exact E1)|].
  rewrite V2, V1. unfold at_pos, set_fds, set_contents. cbn. by rewrite insert_insert_eq.
Qed.

Lemma sectors_agree l : forall f d i fd u, same_file f d -> open_on (view u) fd i d ->
  Forall sector_op_ok l -> same_sectors (file_sectors l f) (unix_sectors fd l u).
Proof.
  induction l as [|[s|s data] l IH]; intros f d i fd u Hf Ho Hl; [done|..];
    apply Forall_cons in Hl as [Hd Hl]; cbn [file_sectors unix_sectors].
  - pose proof (same_file_read f d (SectorSize * s + MagicSize) 128 Hf ltac:(lia)) as R.
    pose proof (disk_read_ok u fd i d s Ho) as W. cbn zeta in W.
    change (Z.to_nat SectorSize) with 128%nat in *. change (Z.of_nat 128) with SectorSize in R.
    mstep. set (off := SectorSize * s + MagicSize) in *.
    destruct (decide (0 <= off /\ length (part_of d off SectorSize) = 128%nat)) as [Hc|Hc].
    + destruct W as (u' & q & E & V). rewrite (bind_run (lift _) _ _ _ _ (lift_Ok _ _ _ R)).
      rewrite (bind_run _ _ _ _ _ E). cbv beta.
      assert (Ho' : open_on (view u') fd i d).
      { rewrite V. destruct Ho as [_ Ho]. split; [eexists; apply lookup_insert_eq|done]. }
      specialize (IH f d i fd u' Hf Ho' Hl). unfold mbind, M_bind, same_sectors in *.
      destruct (file_sectors l f) as [[a f']|], (unix_sectors fd l u') as [[b u'']|]; try done.
      cbn. by rewrite IH.
    + rewrite !(bind_fault _ _ _ _ W).
      rewrite (bind_fault (lift _) _ _ AssertFailure); [done|]. unfold lift. by rewrite R.
  - assert (Hne : data <> []) by (intros ->; done).
    pose proof (same_file_write f d (SectorSize * s + MagicSize) data Hf Hne) as R.
    pose proof (disk_write_ok u fd i d s data Ho) as W. cbn zeta in W. mstep. case_decide.
    + destruct W as (u' & q & E & V), R as (f' & R & Hf'). rewrite (bind_run (lift _) _ _ _ _ (lift_Ok _ _ _ R)), (bind_run _ _ _ _ _ E). cbv beta.
      mstep. apply (IH f' _ i fd u' Hf'); [|done]. rewrite V.
      split; [eexists; apply lookup_insert_eq|apply lookup_insert_eq].
    + rewrite !(bind_fault _ _ _ _ W).
      rewrite (bind_fault (lift _) _ _ AssertFailure); [done|]. unfold lift. by rewrite R.
Qed.

(** The file of the disk, when there is one. *)
Definition same_existing (v : View) (name : string) (existing : option unix_file) : Prop :=
  match named v name, existing with
  | Some d, Some f => same_file f d
  | None, None => True
  | _, _ => False
  end.

Lemma same_file_new : same_file (mkFile ∅ 0) [].
Proof. done. Qed.

(** A new file with the magic number and the last word. *)
Lemma disk_new_created u name : dir (view u) !! name = None ->
  exists f fd i d u', Disk_Disk None = Ok (mkDisk f false 0 0 0 0) /\ disk_new name u = Ok (fd, u') /\
    same_file f d /\ open_on (view u') fd i d.
Proof.
  intros Hn. destruct (open_missing u name Hn) as (u0 & E0 & V0).
  destruct (OpenForWrite_ok u0 name) as (fd & i & u1 & E1 & _ & _ & _ & V1).
  assert (F1 : fds (view u1) !! fd = Some (i, 0)) by (rewrite V1; apply lookup_insert_eq).
  assert (C1 : contents (view u1) !! i = Some []) by (rewrite V1; apply lookup_insert_eq).
  destruct (WriteFile_ok u1 fd (int_bytes MagicNumber) i 0 [] F1 C1) as (u2 & E2 & V2).
  set (d2 := overwrite [] 0 (int_bytes MagicNumber)) in *.
  assert (O2 : open_on (view u2) fd i d2)
    by (rewrite V2; split; [eexists; apply lookup_insert_eq|apply lookup_insert_eq]).
  pose proof (Lseek_ok u2 fd i d2 (DiskSize - 4) O2) as L. rewrite decide_True in L by done.
  destruct L as (u3 & E3 & V3).
  destruct (WriteFile_ok u3 fd (int_bytes 0) i (DiskSize - 4) d2) as (u4 & E4 & V4);
    [rewrite V3; apply lookup_insert_eq|rewrite V3; apply O2|].
  pose proof (same_file_write _ _ 0 (int_bytes MagicNumber) same_file_new ltac:(done)) as W1.
  rewrite decide_True in W1 by done. destruct W1 as (f1 & W1 & S1).
  pose proof (same_file_write _ _ (DiskSize - 4) (int_bytes 0) S1 ltac:(done)) as W2.
  rewrite decide_True in W2 by done. destruct W2 as (f2 & W2 & S2).
  exists f2, fd, i, (overwrite d2 (DiskSize - 4) (int_bytes 0)), u4. split; [|split; [|split; [exact S2|]]].
  - unfold Disk_Disk. rewrite W1. cbn [mbind outcome_bind]. rewrite W2. done.
  - unfold disk_new, OpenForReadWrite. cbn [negb orb].
    erewrite bind_run; [|mstep by (unfold call; by rewrite E0); mstep; reflexivity]. cbn [Z.leb].
    change (0 <=? -1) with false. cbv iota.
    mstep by (exact E1). mstep by (exact E2). mstep by (exact E3). mstep by (exact E4). done.
  - rewrite V4. split; [eexists; apply lookup_insert_eq|apply lookup_insert_eq].
Qed.

Lemma disk_new_existing u name i d f : dir (view u) !! name = Some i -> contents (view u) !! i = Some d ->
  same_file f d ->
  (Disk_Disk (Some f) = Fault AssertFailure /\ disk_new name u = Fault AssertFailure) \/
  exists fd u', Disk_Disk (Some f) = Ok (mkDisk f false 0 0 0 0) /\ disk_new name u = Ok (fd, u') /\
    open_on (view u') fd i d.
Proof.
  intros Hi Hd Hf. destruct (open_existing u name i Hi) as (fd & u1 & E1 & H1 & _ & V1).
  pose proof (Read_ok u1 fd i d 0 4) as R. rewrite V1 in R. cbn in R. rewrite lookup_insert_eq in R.
  specialize (R eq_refl Hd ltac:(lia)).
  pose proof (same_file_read f d 0 4 Hf ltac:(lia)) as S. change (Z.of_nat 4) with 4 in S.
  assert (Ed : disk_new name u = (m ← Read fd 4; _ ← ASSERT (bool_decide (bytes_ints m = [MagicNumber]));
    mret fd) u1).
  { unfold disk_new, OpenForReadWrite. cbn [negb orb].
    erewrite bind_run; [|mstep by (unfold call; by rewrite E1); mstep; reflexivity].
    by rewrite (proj2 (Z.leb_le 0 fd)). }
  rewrite Ed. unfold Disk_Disk. rewrite S. destruct (decide (Z.of_nat _ = 4)) as [Hc|Hc] in R.
  - rewrite decide_True by lia. cbn [mbind outcome_bind]. destruct R as (u2 & q & E2 & V2).
    unfold ASSERT_. destruct (bool_decide _) eqn:Eb.
    + right. exists fd, u2. split; [done|]. split.
      * mstep by (exact E2). mstep by (by apply ASSERT_true). done.
      * rewrite V2. split; [eexists; apply lookup_insert_eq|done].
    + left. split; [done|]. mstep by (exact E2). apply bind_fault. unfold ASSERT. by rewrite Eb.
  - left. rewrite decide_False by lia. split; [done|]. by apply bind_fault.
Qed.
End Disk_file.

(** C19: The disk is a UNIX file.  On any host that keeps what the manual pages
    promise, the constructor of Disk and any sequence of sector requests, with
    the open file, seeks, reads and writes that disk.cc makes through
    sysdep.cc, return the bytes that the file of Disk.v gives, for a disk file
    that exists and for one that has to be created, and abort where Disk.v
    aborts: on a wrong magic number, a file that is too short, or a sector
    before the beginning of the file. *)
Theorem disk_is_a_unix_file {U} `{UnixLaws U} name existing l u :
  host_ok (view u) -> same_existing (view u) name existing -> Forall sector_op_ok l ->
  same_sectors (d ← Disk_Disk existing; file_sectors l (dfile d))
    ((fileno ← disk_new name; unix_sectors fileno l) u).
Proof.
  intros Hh He Hl. unfold same_existing, named in He. destruct (dir (view u) !! name) as [i|] eqn:Ei; cbn in He.
  - destruct (hk_dir _ Hh name i Ei) as (d & Hd). rewrite Hd in He. destruct existing as [f|]; [|done].
    destruct (disk_new_existing u name i d f Ei Hd He) as [[E1 E2]|(fd & u' & E1 & E2 & Ho)].
    + rewrite E1, (bind_fault _ _ _ _ E2). done.
    + rewrite E1. mstep by (exact E2). cbn [mbind outcome_bind dfile]. by eapply sectors_agree.
  - destruct existing; [done|].
    destruct (disk_new_created u name Ei) as (f & fd & i & d & u' & E1 & E2 & Hf & Ho).
    rewrite E1. mstep by (exact E2). cbn [mbind outcome_bind dfile]. by eapply sectors_agree.
Qed.

(** ** A host with one file *)

Definition demo_view : View := mkView {["a" := 1%positive]} {[1%positive := [65; 66; 67]]} ∅.
Definition demo_files : UserProg.Kernel := UserProg.mkKernel 0 None {["a" := [65; 66; 67]]}.

Lemma demo_host_ok : host_ok demo_view.
Proof.
  constructor; cbn.
  - intros a b i [<- _]%lookup_singleton_Some [<- _]%lookup_singleton_Some. done.
  - intros a i [_ <-]%lookup_singleton_Some. rewrite lookup_singleton_eq. by eexists.
Qed.

Lemma demo_files_named name : UserProg.files demo_files !! name = named demo_view name.
Proof.
  unfold named. cbn. destruct (decide (name = "a"%string)) as [->|Hn].
  - rewrite !lookup_singleton_eq. cbn. by rewrite lookup_singleton_eq.
  - by rewrite !lookup_singleton_ne.
Qed.

Definition demo_program : list file_op :=
  [FOpen "a"; FReadAt 0 2 1; FCreate "b"; FOpen "b"; FWrite 1 [7; 8]; FWriteAt 1 [9] 4; FRead 0 2;
   FRead 0 9; FReadAt 1 9 0; FLength 1; FClose 0; FOpen "c"].


Definition demo_sectors : list sector_op :=
  [SWrite 3 (replicate 128 9); SRead 3; SRead 4; SWrite 3 (replicate 128 8); SRead 3].

Lemma demo_sectors_run : exists f, (d ← Disk_Disk None; file_sectors demo_sectors (dfile d)) =
  Ok ([replicate 128 9; replicate 128 0; replicate 128 8], f).
Proof. vm_compute. by eexists. Qed.

Lemma same_sectors_Ok {S T} (x : outcome (list (list Z) * S)) (y : outcome (list (list Z) * T)) a :
  same_sectors x y -> (exists s, x = Ok (a, s)) -> exists t, y = Ok (a, t).
Proof. intros E (s & ->). destruct y as [[b t]|]; [|done]. exists t. by rewrite E. Qed.

Lemma disk_is_a_unix_file_witness :
  exists u, (fileno ← disk_new "DISK"; unix_sectors fileno demo_sectors) demo_view =
    Ok ([replicate 128 9; replicate 128 0; replicate 128 8], u).
Proof.
  refine (same_sectors_Ok _ _ _ (disk_is_a_unix_file "DISK" None demo_sectors demo_view demo_host_ok I _)
    demo_sectors_run). repeat constructor.
Defined.
