(* ===== verification/UserThread.v ===== *)
(** * User registers across a context switch

    A thread that runs a user program has a second set of registers, those of
    the simulated machine: SaveUserState and RestoreUserState of
    threads/thread.cc copy them when Scheduler::Run (threads/scheduler.cc)
    switches between threads.  The state is the machine and, for each thread,
    its array [userRegisters]; the processor's own registers are the subject of
    [Switch]. *)
From Stdlib Require Import ZArith Lia List Bool.
From stdpp Require Import base tactics list numbers gmap.
From S2P Require Import Prelude CInt BitMap Machine UserProg.
Local Open Scope Z_scope.

Notation Arrays := (gmap Z (list Z)).
Notation U := (M (Machine * Arrays)).

(** [userRegisters[i] = v] in thread [t]. *)
Definition set_userRegister (t i v : Z) : U unit :=
  s ← get;
  match (s.2 : Arrays) !! t with
  | Some l => l' ← lift (arr_set l i v); put (s.1, <[t := l']> s.2)
  | None => fail BadAccess
  end.

Definition userRegister (t i : Z) : U Z :=
  s ← get;
  match (s.2 : Arrays) !! t with
  | Some l => lift (arr_get l i)
  | None => fail BadAccess
  end.

Definition SaveUserState (t : Z) : U unit :=
  for_range 0 NumTotalRegs (fun i => v ← ReadRegister i; set_userRegister t i v).

Definition RestoreUserState (t : Z) : U unit :=
  for_range 0 NumTotalRegs (fun i => v ← userRegister t i; WriteRegister i v).

(** What Scheduler::Run does with the user state before and after [SWITCH]:
    [spaces t] says whether thread [t] has an address space. *)
Section Run.
Context (spaces : Z -> bool).

Definition before_SWITCH (oldThread : Z) : U unit :=
  if spaces oldThread then SaveUserState oldThread else mret tt.

Definition after_SWITCH (currentThread : Z) : U unit :=
  if spaces currentThread then _ ← RestoreUserState currentThread; RestoreState else mret tt.

Definition Run_user (oldThread nextThread : Z) : U unit :=
  _ ← before_SWITCH oldThread; after_SWITCH nextThread.

(** ** The loops copy every register *)

Lemma take_S_insert {A} (l : list A) (k : nat) v :
  (k < length l)%nat -> take (S k) (<[k := v]> l) = take k l ++ [v].
Proof.
  intros H. rewrite (take_S_r _ _ v) by (by apply list_lookup_insert_eq).
  by rewrite take_insert_ge.
Qed.

Lemma SaveUserState_run t (m : Machine) (a : Arrays) l :
  length (registers m) = 40%nat -> a !! t = Some l -> length l = 40%nat ->
  SaveUserState t (m, a) = Ok (tt, (m, <[t := registers m]> a)).
Proof.
  intros Hm Ha Hl. unfold SaveUserState.
  destruct (for_range_inv (fun i s => s.1 = m /\ exists l', s.2 = <[t := l']> a /\ length l' = 40%nat /\
      take (Z.to_nat i) l' = take (Z.to_nat i) (registers m)) 0 NumTotalRegs
      (fun i => v ← ReadRegister i; set_userRegister t i v) (m, a)) as (s' & E & E1 & l' & E2 & L & T).
  - done.
  - split; [done|]. exists l. split; [by rewrite insert_id|]. by split.
  - intros i [m1 a1] Hi (E1 & l' & E2 & L & T). cbn in E1, E2. subst m1 a1.
    destruct (lookup_lt_is_Some_2 (registers m) (Z.to_nat i)) as [v Hv]; [unfold NumTotalRegs in *; lia|].
    assert (E : ReadRegister i (m, <[t := l']> a) = Ok (v, (m, <[t := l']> a))).
    { unfold ReadRegister, getR. mstep by (unfold ASSERT; rewrite (proj2 (andb_true_iff _ _)) by
        (split; [apply Z.leb_le|apply Z.ltb_lt]; lia); reflexivity).
      mstep. apply lift_Ok, arr_get_in; [lia|done]. }
    eexists. split.
    { cbv beta. mstep by exact E. unfold set_userRegister. mstep. cbn [snd]. rewrite lookup_insert_eq.
      mstep by (apply lift_Ok, arr_set_in; unfold NumTotalRegs in *; lia). reflexivity. }
    cbn. split; [done|]. exists (<[Z.to_nat i := v]> l'). rewrite insert_insert_eq, length_insert.
    split; [done|]. split; [done|]. replace (Z.to_nat (i + 1)) with (S (Z.to_nat i)) by lia.
    rewrite take_S_insert by (unfold NumTotalRegs in *; lia). by rewrite T, (take_S_r _ _ v).
  - rewrite E. destruct s' as [m' a']. cbn in E1, E2. subst. do 4 f_equal.
    rewrite !take_ge in T by (unfold NumTotalRegs; lia). by rewrite T.
Qed.

Lemma RestoreUserState_run t (m : Machine) (a : Arrays) l :
  length (registers m) = 40%nat -> a !! t = Some l -> length l = 40%nat ->
  RestoreUserState t (m, a) = Ok (tt, (set_registers l m, a)).
Proof.
  intros Hm Ha Hl. unfold RestoreUserState.
  destruct (for_range_inv (fun i s => s.2 = a /\ exists r, s.1 = set_registers r m /\ length r = 40%nat /\
      take (Z.to_nat i) r = take (Z.to_nat i) l) 0 NumTotalRegs
      (fun i => v ← userRegister t i; WriteRegister i v) (m, a)) as (s' & E & E1 & r & E2 & L & T).
  - done.
  - split; [done|]. exists (registers m). split; [by destruct m|]. by split.
  - intros i [m1 a1] Hi (E1 & r & E2 & L & T). cbn in E1, E2. subst m1 a1.
    destruct (lookup_lt_is_Some_2 l (Z.to_nat i)) as [v Hv]; [unfold NumTotalRegs in *; lia|].
    eexists. split.
    { cbv beta. mstep by (unfold userRegister; mstep; cbn [snd]; rewrite Ha;
        apply lift_Ok, arr_get_in; [lia|exact Hv]).
      unfold WriteRegister, setR. mstep by (unfold ASSERT; rewrite (proj2 (andb_true_iff _ _)) by
        (split; [apply Z.leb_le|apply Z.ltb_lt]; lia); reflexivity).
      mstep. mstep by (apply lift_Ok, arr_set_in; unfold NumTotalRegs in *; cbn; lia). reflexivity. }
    cbn. split; [done|]. exists (<[Z.to_nat i := v]> r). rewrite length_insert.
    split; [done|]. split; [done|]. replace (Z.to_nat (i + 1)) with (S (Z.to_nat i)) by lia.
    rewrite take_S_insert by (unfold NumTotalRegs in *; lia). by rewrite T, (take_S_r _ _ v).
  - rewrite E. destruct s' as [m' a']. cbn in E1, E2. subst. do 3 f_equal.
    rewrite !take_ge in T by (unfold NumTotalRegs; lia). by rewrite T.
Qed.

Lemma Run_user_run old next (m : Machine) (a : Arrays) :
  length (registers m) = 40%nat -> tlb m = None ->
  (forall t, spaces t = true -> exists l, a !! t = Some l /\ length l = 40%nat) -> old <> next ->
  Run_user old next (m, a) =
    Ok (tt, (if spaces next then set_registers (default [] (a !! next)) m else m,
             if spaces old then <[old := registers m]> a else a)).
Proof.
  intros Hm Ht Ha Hne. unfold Run_user, before_SWITCH, after_SWITCH.
  erewrite bind_run.
  2: { instantiate (2 := tt). instantiate (1 := (m, if spaces old then <[old := registers m]> a else a)).
       destruct (spaces old) eqn:E; [|done]. destruct (Ha old E) as (l & Hl & L).
       by apply (SaveUserState_run old m a l). }
  destruct (spaces next) eqn:E; [|done]. destruct (Ha next E) as (l & Hl & L).
  mstep by (apply (RestoreUserState_run next m _ l); [done| |done];
    destruct (spaces old); [by rewrite lookup_insert_ne|done]).
  unfold RestoreState, on_machine, modify. cbn. rewrite Ht, Hl. by destruct m; cbn in *; subst.
Qed.

(** ** Any number of user programs

    [out t]: the registers that thread [t] had when it was switched out. *)
Record Users := mkUsers { current : Z; machine : Machine; arrays : Arrays; out : gmap Z (list Z) }.

(** The program that runs does anything to the machine; the scheduler switches
    between two threads that have run. *)
Inductive u_step : Users -> Users -> Prop :=
| Executes s m :
    length (registers m) = 40%nat -> tlb m = None ->
    u_step s (mkUsers (current s) m (arrays s) (out s))
| Schedules s next m a :
    next <> current s -> Run_user (current s) next (machine s, arrays s) = Ok (tt, (m, a)) ->
    u_step s (mkUsers next m a (<[current s := registers (machine s)]> (out s))).

Record u_inv (s : Users) : Prop := {
  ui_regs : length (registers (machine s)) = 40%nat;
  ui_tlb : tlb (machine s) = None;
  ui_arrays t : spaces t = true -> exists l, arrays s !! t = Some l /\ length l = 40%nat;
  ui_out t l : t <> current s -> spaces t = true -> out s !! t = Some l -> arrays s !! t = Some l }.

Lemma u_inv_step s s' : u_inv s -> u_step s s' -> u_inv s'.
Proof.
  intros [I1 I2 I3 I4] St. destruct St as [s m L T|s next m a Hne E]; [by constructor|].
  rewrite Run_user_run in E by (done || congruence). injection E as <- <-.
  constructor; cbn [machine arrays out current].
  - destruct (spaces next) eqn:En; [|done]. destruct (I3 next En) as (l & -> & L). done.
  - by destruct (spaces next).
  - intros t Ht. destruct (spaces (current s)); [|by apply I3].
    destruct (decide (t = current s)) as [->|]; [rewrite lookup_insert_eq; eauto|].
    rewrite lookup_insert_ne by done. by apply I3.
  - intros t l Ht Hs. destruct (decide (t = current s)) as [->|].
    + by rewrite Hs, !lookup_insert_eq.
    + rewrite lookup_insert_ne by done. intros Ho. destruct (spaces (current s)).
      * rewrite lookup_insert_ne by done. by apply I4.
      * by apply I4.
Qed.

End Run.

(** Threads 0 and 1 have address spaces; 0 runs first. *)
Definition demo_spaces (t : Z) : bool := (t =? 0) || (t =? 1).

Definition demo_users : Users :=
  mkUsers 0 (set_registers (replicate 40 7) Machine.demo_machine)
    {[0 := replicate 40 0; 1 := replicate 40 1]} ∅.

Definition demo_switched : Users :=
  mkUsers 1 (set_registers (replicate 40 1) Machine.demo_machine)
    {[0 := replicate 40 7; 1 := replicate 40 1]} {[0 := replicate 40 7]}.

Lemma demo_users_inv : u_inv demo_spaces demo_users.
Proof.
  constructor; [done..| |].
  - intros t. unfold demo_spaces. rewrite orb_true_iff, !Z.eqb_eq. intros [-> | ->]; eexists; by split.
  - intros t l _ _. cbn. by rewrite lookup_empty.
Qed.

