(* ===== verification/Executables.v ===== *)
(** * test/start.c, halt.c and shell.c as executables, on the whole machine

    start.c is assembly: the entry point and a stub for each system call of
    userprog/syscall.h.  Here it is the machine code that the assembler makes of
    it, in front of which the files test/halt and test/shell have their header
    and behind which their compiled [main].  These files run on the loader, the
    page fault handler and the exception handler of UserProg.v and on the
    simulator of MipsSim.v. *)
From S2P Require Import Prelude CInt Instr BitMap Machine MipsSim UserProg.
From Stdlib Require Import ZArith Lia List Bool String.
From stdpp Require Import base tactics list numbers gmap strings.
Local Open Scope Z_scope.

(** ** Assembly *)

Inductive asm :=
| Jal (target : Z)
| Move (rd rs : Z)
| Addiu (rt rs imm : Z)
| Syscall
| Jr (rs : Z)
| Nop.

Definition encode (i : asm) : Z :=
  wrap32 match i with
  | Jal target => Z.lor (Z.shiftl I_JAL 26) (Z.shiftr target 2)
  | Move rd rs => Z.lor (Z.shiftl rs 21) (Z.lor (Z.shiftl rd 11) I_ADDU)
  | Addiu rt rs imm => Z.lor (Z.shiftl I_ADDIU 26) (Z.lor (Z.shiftl rs 21) (Z.lor (Z.shiftl rt 16) imm))
  | Syscall => I_SYSCALL
  | Jr rs => Z.lor (Z.shiftl rs 21) I_JR
  | Nop => I_NOP
  end.

(** ** syscall.h *)

Definition SC_Exec : Z := 2.
Definition SC_Join : Z := 3.
Definition SC_Create : Z := 4.
Definition SC_Open : Z := 5.
Definition SC_Read : Z := 6.
Definition SC_Write : Z := 7.
Definition SC_Close : Z := 8.
Definition SC_Fork : Z := 9.
Definition SC_Yield : Z := 10.
Definition ConsoleInput : Z := 0.
Definition ConsoleOutput : Z := 1.

(** ** start.c *)

(** One stub; the assembler fills the delay slot of the jump. *)
Definition stub (code : Z) : list asm := [Addiu 2 0 code; Syscall; Jr 31; Nop].

Definition stubs : list asm :=
  stub SC_Halt ++ stub SC_Exit ++ stub SC_Exec ++ stub SC_Join ++ stub SC_Create ++ stub SC_Open ++
  stub SC_Read ++ stub SC_Write ++ stub SC_Close ++ stub SC_Fork ++ stub SC_Yield.

(** The addresses of the stubs and of the text behind start.c. *)
Definition stub_address (code : Z) : Z := 16 + 16 * code.
Definition text_end : Z := 208.

(** [__start]: the assembler puts [move $4,$0] into the delay slot of the jump
    to Exit. *)
Definition __start (main : Z) : list asm := [Jal main; Nop; Jal (stub_address SC_Exit); Move 4 0].

Definition __main : list asm := [Jr 31; Nop].

(** The text section, filled up to 16 bytes, when [main] follows. *)
Definition start_text : list asm := __start text_end ++ stubs ++ __main ++ [Nop; Nop].

(** ** The executables *)

(** A NOFF file with only a code segment; the compiler's [main] as words.  The
    fields that describe the empty segments hold what they hold in the file. *)
Definition executable (junk : list Z) (main : list Z) : list Z :=
  let text := map encode start_text ++ main in
  ints_bytes ([NOFFMAGIC; 0; 40; 4 * Z.of_nat (length text)] ++ junk ++ text).

Definition halt_main : list Z :=
  [666763240; -1346437100; -1346502640; 201326640; 60878881; 201326596; 0; 62973985; -1883308012;
   -1883373552; 65011720; 666697752].
Definition halt : list Z :=
  executable [-1081489212; 1074534139; 0; 47; -1081490308; 0] halt_main.

Definition shell_main : list Z :=
  [666763136; -1346436996; -1346502536; 201326640; 60878881; -1346371564; 604110849; -1346240488;
   604110893; -1547567072; 604110893; -1547567071; 134217796; 0; 134217848; 0; 667025440; 4202529;
   604307458; -1882849256; 201326624; 0; -1346371472; 667025456; -1883045776; 0; 4395041; 4202529;
   604307457; -1882849260; 201326620; 0; 667025520; -1941766144; 667156528; 6301729; 8728609;
   -2134638592; 610467841; -1404895232; 604110858; 344064003; 0; 134217827; 0; 134217803; 0;
   -1883111312; 0; 608436223; 6295585; -1346240400; 667090992; 6426657; -1606418432; -1883111312; 0;
   406847496; 0; 667025456; 201326604; 4202529; -1346240496; -1882980336; 201326608; 0; 134217792;
   0; 62973985; -1883307908; -1883373448; 65011720; 666697856; 0; 0; 0].
Definition shell : list Z :=
  executable [-1081653054; 1074534139; 0; 47; -1081653620; 0] shell_main.

(** A program whose [main] returns at once. *)
Definition returning : list Z := executable [0; 0; 0; 0; 0; 0] (map encode [Jr 31; Nop]).

(** ** Runs *)

(** A kernel of userprog/ just started, with the executable as a UNIX file. *)
Definition started (pid : Z) (file : list Z) : outcome (Machine * Kernel) :=
  m ← Machine_Machine false false [0] [];
  Ok (m, mkKernel pid None {["program"%string := file]}).

(** The state after [n] instructions. *)
Definition after (OneTick : M (Machine * Kernel) unit) (pid : Z) (file : list Z) (n : nat) :
    outcome (Machine * Kernel) :=
  s ← started pid file;
  x ← StartProcess OneTick (replicate 40 0) "program" n s;
  Ok x.2.

(** A program whose [main] makes one system call. *)
Definition calling (code : Z) : list Z :=
  executable [0; 0; 0; 0; 0; 0] (map encode [Jal (stub_address code); Nop]).

(** What the kernel does with a system call. *)
Definition answer (code : Z) : fault :=
  if code =? SC_Halt then Halted else if code =? SC_Exit then Finished else AssertFailure.

(** The program runs for [n] instructions and stops at the next one. *)
Definition stops (file : list Z) (n : nat) (e : fault) : Prop :=
  forall i, match after (mret tt) 1 file i with
            | Ok _ => (i <= n)%nat
            | Fault e' => (n < i)%nat /\ e' = e
            end.

(** Registers [rs] of the state after [n] instructions. *)
Definition regs_after (file : list Z) (n : nat) (rs : list nat) : option (list (option Z)) :=
  match after (mret tt) 1 file n with Ok s => Some (map (fun r => registers s.1 !! r) rs) | Fault _ => None end.

(** ** Counting instructions *)

Lemma Run_loop_add {K} getPid h (T : M (Machine * K) unit) n k s :
  Run_loop getPid h T (n + k) s =
    (x ← Run_loop getPid h T n s; Run_loop getPid h T k x.2).
Proof.
  revert s. induction n as [|n IH]; intros s; [done|]. cbn [Nat.add Run_loop].
  unfold mbind, M_bind, outcome_bind. destruct (OneInstruction getPid h s) as [[[] s1]|e]; [|done].
  destruct (T s1) as [[[] s2]|e]; [|done]. rewrite IH. done.
Qed.

(** Everything before the first instruction. *)
Definition entering (file : list Z) : outcome (Machine * Kernel) := after (mret tt) 1 file 0.

Definition prepare (s : Machine * Kernel) : outcome (Machine * Kernel) :=
  x ← AddrSpace_AddrSpace (replicate 40 0) "program" s.2;
  y ← (_ ← on_kernel (modify (set_space (Some x.1))); _ ← InitRegisters x.1; _ ← RestoreState;
       on_machine (modify (set_status UserMode))) (s.1, x.2);
  Ok y.2.

Lemma StartProcess_run m file n :
  StartProcess (mret tt) (replicate 40 0) "program" n (m, mkKernel 1 None {["program"%string := file]}) =
    (s ← prepare (m, mkKernel 1 None {["program"%string := file]}); Run_loop pid ExceptionHandler (mret tt) n s).
Proof.
  set (k0 := mkKernel 1 None _).
  assert (Ho : on_kernel (Stub_Open "program") (m, k0) = Ok (Some "program"%string, (m, k0))) by reflexivity.
  unfold StartProcess, prepare. rewrite (bind_run _ _ _ _ _ Ho). clearbody k0.
  unfold Run, on_kernel, mbind, M_bind, outcome_bind. cbn [fst snd].
  destruct (AddrSpace_AddrSpace _ _ _) as [[sp k]|e]; [|done]. cbn [fst snd].
  destruct (modify _ k) as [[[] k']|e]; [|done].
  destruct (InitRegisters sp _) as [[[] s1]|e]; [|done].
  destruct (RestoreState s1) as [[[] s2]|e]; [|done].
  by destruct (on_machine _ s2) as [[[] s3]|e].
Qed.

Lemma after_run file n :
  after (mret tt) 1 file n = (s ← entering file; x ← Run_loop pid ExceptionHandler (mret tt) n s; Ok x.2).
Proof.
  unfold entering, after, started. destruct (Machine_Machine false false [0] []) as [m|e]; [|done].
  cbn [mbind outcome_bind]. rewrite !StartProcess_run. unfold mbind, outcome_bind.
  destruct (prepare _) as [s|e]; done.
Qed.

Lemma stops_intro file n e :
  (match after (mret tt) 1 file n with Ok _ => true | Fault _ => false end) = true ->
  (match after (mret tt) 1 file (S n) with Ok _ => None | Fault e => Some e end) = Some e ->
  stops file n e.
Proof.
  intros H1 H2 i. rewrite after_run in *. destruct (entering file) as [s|e0]; [|done].
  cbn [mbind outcome_bind] in *. destruct (decide (i <= n)%nat) as [Hi|Hi].
  - replace n with (i + (n - i))%nat in H1 by lia. rewrite Run_loop_add in H1.
    destruct (Run_loop _ _ _ i s); [done|]. done.
  - replace i with (S n + (i - S n))%nat by lia. rewrite Run_loop_add.
    destruct (Run_loop _ _ _ (S n) s) as [x|e1]; [done|]. cbn in H2 |- *. injection H2 as ->. split; [lia|done].
Qed.

Ltac run_stops := apply stops_intro; vm_compute; reflexivity.

Lemma calling_stops : Forall (fun code => stops (calling code) 5 (answer code) /\
    regs_after (calling code) 5 [2%nat] = Some [Some code]) (seqZ 0 11).
Proof.
  repeat (apply Forall_cons; split; [split; [run_stops|vm_compute; reflexivity]|]). apply Forall_nil; exact I.
Qed.

(** ** Properties *)

