(* ===== verification/Coff.v ===== *)
(** * bin/coff2noff.c: from COFF to the executables the kernel loads

    The converter reads a COFF file, copies its segments behind the header of
    a NOFF file, and writes that header last.  Host files are byte lists; the
    structures of coff.h have the layout of the 32-bit host ([short] 2 bytes,
    [long] 4): a file header of 20 bytes, a system header of 56, section
    headers of 40, of which the fields that the program uses are modelled.
    [exit(1)] after a complaint, with the output file removed, is [Exit1];
    what the program does after it has asked [malloc] for a negative number of
    bytes is left open, as [Crash].  Writing to the output file succeeds. *)
From Stdlib Require Import ZArith Lia List Bool.
From stdpp Require Import base tactics list numbers gmap strings.
From S2P Require Import Prelude CInt BitMap Machine UserProg.
Local Open Scope Z_scope.

(** ** bin/coff.h *)

Definition MIPSELMAGIC : Z := 354.
Definition OMAGIC : Z := 263.
Definition filehdr_size : Z := 20.
Definition aouthdr_size : Z := 56.
Definition scnhdr_size : Z := 40.
Definition noffheader_size : Z := 40.

Record scnhdr := mkScnhdr {
  s_name : list Z;
  s_paddr : Z;
  s_size : Z;
  s_scnptr : Z }.

Definition ushort_at (b : list Z) (i : nat) : Z := nth i b 0 + 256 * nth (S i) b 0.
Definition long_at (b : list Z) (i : nat) : Z :=
  int_of_bytes (nth i b 0) (nth (S i) b 0) (nth (2 + i) b 0) (nth (3 + i) b 0).

Definition f_magic (fileh : list Z) : Z := ushort_at fileh 0.
Definition f_nscns (fileh : list Z) : Z := ushort_at fileh 2.

(** [short magic], from an [unsigned short]. *)
Definition magic (systemh : list Z) : Z := (ushort_at systemh 0 + 32768) mod 65536 - 32768.

Definition scnhdr_of_bytes (b : list Z) : scnhdr :=
  mkScnhdr (take 8 b) (long_at b 8) (long_at b 16) (long_at b 20).

Fixpoint scnhdrs_of_bytes (n : nat) (b : list Z) : list scnhdr :=
  match n with
  | O => []
  | S n' => scnhdr_of_bytes (take 40 b) :: scnhdrs_of_bytes n' (drop 40 b)
  end.

(** [!strcmp(s_name, lit)]: the literals are shorter than the field. *)
Definition named (lit : list Z) (s : scnhdr) : bool :=
  bool_decide (take (S (length lit)) (s_name s) = lit ++ [0]).

Definition text_name : list Z := [46; 116; 101; 120; 116].
Definition data_name : list Z := [46; 100; 97; 116; 97].
Definition rdata_name : list Z := [46; 114; 100; 97; 116; 97].
Definition bss_name : list Z := [46; 98; 115; 115].
Definition sbss_name : list Z := [46; 115; 98; 115; 115].

Definition is_text (s : scnhdr) : bool := named text_name s.
Definition is_data (s : scnhdr) : bool := named data_name s || named rdata_name s.
Definition is_bss (s : scnhdr) : bool := named bss_name s || named sbss_name s.

(** ** The converter's state and its ways to end *)

Inductive complaint := TooShort | NotMipsel | NotOmagic | BothData | BothBss | UnknownSegment.

Inductive result (A : Type) : Type :=
| Ret (a : A)
| Exit1 (c : complaint)
| Crash.

Arguments Ret {A} _.
Arguments Exit1 {A} _.
Arguments Crash {A}.

Record Conv := mkConv {
  coff : list Z;
  posIn : Z;
  noff : list Z;
  posOut : Z;
  inNoffFile : Z;
  noffH : NoffHeader }.

Definition C (A : Type) : Type := Conv -> result (A * Conv).

#[global] Instance C_ret : MRet C := fun A a s => Ret (a, s).
#[global] Instance C_bind : MBind C := fun A B (f : A -> C B) (m : C A) s =>
  match m s with Ret (a, s') => f a s' | Exit1 c => Exit1 c | Crash => Crash end.

Definition exit1 {A} (c : complaint) : C A := fun _ => Exit1 c.
Definition update (f : Conv -> Conv) : C unit := fun s => Ret (tt, f s).

Definition get_header : C NoffHeader := fun s => Ret (noffH s, s).

Definition set_noffH h s := mkConv (coff s) (posIn s) (noff s) (posOut s) (inNoffFile s) h.
Definition set_inNoffFile i s := mkConv (coff s) (posIn s) (noff s) (posOut s) i (noffH s).

(** [lseek(fdIn, offset, 0)]: a negative offset is refused by the host and
    leaves the position alone. *)
Definition lseekIn (offset : Z) : C unit := update (fun s =>
  mkConv (coff s) (if 0 <=? offset then offset else posIn s) (noff s) (posOut s) (inNoffFile s)
    (noffH s)).

Definition lseekOut (offset : Z) : C unit := update (fun s =>
  mkConv (coff s) (posIn s) (noff s) offset (inNoffFile s) (noffH s)).

(** [Read] into a buffer of [nBytes] bytes. *)
Definition Read (nBytes : Z) : C (list Z) := fun s =>
  if nBytes <? 0 then Crash
  else
    let data := file_read (coff s) nBytes (posIn s) in
    if Z.of_nat (length data) =? nBytes then
      Ret (data, mkConv (coff s) (posIn s + nBytes) (noff s) (posOut s) (inNoffFile s) (noffH s))
    else Exit1 TooShort.

Definition Write (buf : list Z) : C unit := update (fun s =>
  mkConv (coff s) (posIn s) (file_write (noff s) buf (posOut s))
    (posOut s + Z.of_nat (length buf)) (inNoffFile s) (noffH s)).

(** ** main *)

(** The lines that copy a segment to the output. *)
Definition copy_section (sec : scnhdr) : C unit :=
  _ ← lseekIn (s_scnptr sec);
  buffer ← Read (s_size sec);
  _ ← Write buffer;
  update (fun s => set_inNoffFile (wrap32 (inNoffFile s + s_size sec)) s).

Definition set_code seg h := mkNoffHeader (noffMagic h) seg (initData h) (uninitData h).
Definition set_initData seg h := mkNoffHeader (noffMagic h) (code h) seg (uninitData h).
Definition set_uninitData seg h := mkNoffHeader (noffMagic h) (code h) (initData h) seg.

(** One round of the loop over the sections. *)
Definition one_section (sec : scnhdr) : C unit := fun s =>
  let h := noffH s in
  if s_size sec =? 0 then Ret (tt, s)
  else if is_text sec then
    copy_section sec (set_noffH (set_code
      (mkSegment (s_paddr sec) (inNoffFile s) (s_size sec)) h) s)
  else if is_data sec then
    if negb (size (initData h) =? 0) then Exit1 BothData
    else copy_section sec (set_noffH (set_initData
      (mkSegment (s_paddr sec) (inNoffFile s) (s_size sec)) h) s)
  else if is_bss sec then
    let u := uninitData h in
    if negb (size u =? 0) then
      if s_paddr sec =? wrap32 (virtualAddr u + size u) then Exit1 BothBss
      else Ret (tt, set_noffH (set_uninitData
        (mkSegment (virtualAddr u) (inFileAddr u) (wrap32 (size u + s_size sec))) h) s)
    else Ret (tt, set_noffH (set_uninitData
        (mkSegment (s_paddr sec) (inFileAddr u) (s_size sec)) h) s)
  else Exit1 UnknownSegment.

Fixpoint sections_loop (secs : list scnhdr) : C unit :=
  match secs with
  | [] => mret tt
  | sec :: secs' => _ ← one_section sec; sections_loop secs'
  end.

(** The initialisation of the header variable, which held [junk]. *)
Definition init_header (junk : NoffHeader) : NoffHeader :=
  let empty seg := mkSegment (virtualAddr seg) (inFileAddr seg) 0 in
  mkNoffHeader NOFFMAGIC (empty (code junk)) (empty (initData junk)) (empty (uninitData junk)).

Definition seg_ints (seg : Segment) : list Z := [virtualAddr seg; inFileAddr seg; size seg].
Definition noff_ints (h : NoffHeader) : list Z :=
  noffMagic h :: seg_ints (code h) ++ seg_ints (initData h) ++ seg_ints (uninitData h).

(** The headers, up to and including the section headers. *)
Definition read_headers : C (list scnhdr) :=
  fileh ← Read filehdr_size;
  if negb (f_magic fileh =? MIPSELMAGIC) then exit1 NotMipsel
  else
    systemh ← Read aouthdr_size;
    if negb (magic systemh =? OMAGIC) then exit1 NotOmagic
    else
      let numsections := f_nscns fileh in
      b ← Read (numsections * scnhdr_size);
      mret (scnhdrs_of_bytes (Z.to_nat numsections) b).

Definition main (junk : NoffHeader) : C unit :=
  sections ← read_headers;
  _ ← update (set_noffH (init_header junk));
  _ ← update (set_inNoffFile noffheader_size);
  _ ← lseekOut noffheader_size;
  _ ← sections_loop sections;
  _ ← lseekOut 0;
  h ← get_header;
  Write (ints_bytes (noff_ints h)).

(** The NOFF file made from a COFF file. *)
Definition coff2noff (junk : NoffHeader) (x : list Z) : result (list Z) :=
  match main junk (mkConv x 0 [] 0 0 junk) with
  | Ret (_, s) => Ret (noff s)
  | Exit1 c => Exit1 c
  | Crash => Crash
  end.

(** ** Files *)

Lemma file_read_write_before f from pos n a :
  0 <= a -> 0 <= n -> a + n <= pos -> a + n <= Z.of_nat (length f) ->
  file_read (file_write f from pos) n a = file_read f n a.
Proof.
  intros Ha Hn Hp Hl. unfold file_write. destruct from as [|b from]; [done|]. unfold file_read.
  apply list_eq. intros i. destruct (decide (i < Z.to_nat n)%nat) as [Hi|Hi];
    [|by rewrite !lookup_take_ge by lia].
  rewrite !lookup_take_lt, !lookup_drop by lia.
  rewrite lookup_app_l by (rewrite length_take, length_app, length_replicate; lia).
  rewrite lookup_take_lt by lia. by rewrite lookup_app_l by lia.
Qed.

Lemma file_read_write_at f from pos :
  0 <= pos -> file_read (file_write f from pos) (Z.of_nat (length from)) pos = from.
Proof.
  intros Hp. unfold file_write, file_read. destruct from as [|b from]; [done|].
  rewrite drop_app_length' by (rewrite length_take, length_app, length_replicate; lia).
  by rewrite Nat2Z.id, take_app_length.
Qed.

Lemma file_read_write_after f from n a :
  Z.of_nat (length from) <= a -> 0 <= n ->
  file_read (file_write f from 0) n a = file_read f n a.
Proof.
  intros Ha Hn. unfold file_write, file_read. destruct from as [|b from]; [done|].
  change (Z.to_nat 0) with 0%nat. rewrite take_0. cbn [app Nat.add].
  change (b :: from ++ drop (length (b :: from)) f) with ((b :: from) ++ drop (length (b :: from)) f).
  rewrite drop_app_ge, drop_drop by lia. do 2 f_equal. lia.
Qed.

Lemma c_bind_Ret {A B} (m : C A) (f : A -> C B) s r :
  (m ≫= f) s = Ret r <-> exists a s', m s = Ret (a, s') /\ f a s' = Ret r.
Proof. unfold mbind, C_bind. destruct (m s) as [[a s']|c|]; naive_solver. Qed.

Lemma c_bind_run {A B} (m : C A) (f : A -> C B) s a s' :
  m s = Ret (a, s') -> (m ≫= f) s = f a s'.
Proof. intros H. unfold mbind, C_bind. by rewrite H. Qed.

(** ** What the loop maintains *)

(** The bytes of [sec] that go to the output. *)
Definition copied (sec : scnhdr) : Z :=
  if is_text sec || is_data sec then Z.max 0 (s_size sec) else 0.

Definition copied_total (secs : list scnhdr) : Z := foldr (fun s a => copied s + a) 0 secs.

Definition bss_total (secs : list scnhdr) : Z :=
  foldr (fun s a => (if is_bss s && negb (is_text s || is_data s) then s_size s else 0) + a) 0 secs.

(** Segment [seg] of [y] is empty or comes from a section of [secs] of kind
    [p]: its size and address, and byte for byte its contents in [x]. *)
Definition from_section (x y : list Z) (secs : list scnhdr) (p : scnhdr -> bool) (seg : Segment) :
    Prop :=
  size seg = 0 \/ exists sec off, sec ∈ secs /\ p sec = true /\
    0 < size seg /\ size seg = s_size sec /\ virtualAddr seg = s_paddr sec /\
    (0 <= s_scnptr sec -> off = s_scnptr sec) /\
    40 <= inFileAddr seg /\ inFileAddr seg + size seg <= Z.of_nat (length y) /\
    Z.of_nat (length (file_read x (size seg) off)) = size seg /\
    file_read y (size seg) (inFileAddr seg) = file_read x (size seg) off.

Definition header_ints (h : NoffHeader) : Prop := Forall is_int (noff_ints h).

(** Both files: the segments copied so far are behind the header. *)
Record files_inv (x : list Z) (secs : list scnhdr) (s : Conv) : Prop := {
  fi_coff : coff s = x;
  fi_pos : posOut s = inNoffFile s;
  fi_in : inNoffFile s = 40 + copied_total secs;
  fi_len : Z.of_nat (length (noff s)) <= inNoffFile s }.

Record conv_inv (x : list Z) (secs : list scnhdr) (s : Conv) : Prop := {
  cv_files : files_inv x secs s;
  cv_magic : noffMagic (noffH s) = NOFFMAGIC;
  cv_ints : header_ints (noffH s);
  cv_code : from_section x (noff s) secs is_text (code (noffH s));
  cv_data : from_section x (noff s) secs is_data (initData (noffH s));
  cv_bss : size (uninitData (noffH s)) = wrap32 (bss_total secs) }.

Lemma copied_nonneg sec : 0 <= copied sec.
Proof. unfold copied. destruct (_ || _); lia. Qed.

Lemma copied_total_nonneg secs : 0 <= copied_total secs.
Proof.
  induction secs as [|s secs IH]; [done|]. unfold copied_total in *. cbn.
  pose proof (copied_nonneg s). lia.
Qed.

Lemma copied_total_snoc secs s : copied_total (secs ++ [s]) = copied_total secs + copied s.
Proof.
  induction secs as [|s' secs IH]; [unfold copied_total; cbn; lia|].
  unfold copied_total in *. cbn. rewrite IH. lia.
Qed.

Lemma bss_total_snoc secs s :
  bss_total (secs ++ [s]) =
  bss_total secs + (if is_bss s && negb (is_text s || is_data s) then s_size s else 0).
Proof.
  induction secs as [|s' secs IH]; [unfold bss_total; cbn; lia|].
  unfold bss_total in *. cbn. rewrite IH. lia.
Qed.

(** Old segments survive what is written behind them. *)
Lemma from_section_later x y secs sec p seg from pos :
  from_section x y secs p seg -> Z.of_nat (length y) <= pos ->
  from_section x (file_write y from pos) (secs ++ [sec]) p seg.
Proof.
  intros [H|(s0 & off & H1 & H2 & H3 & H4 & H5 & H6 & H7 & H8 & H9 & H10)] Hp; [by left|right].
  exists s0, off. split; [apply elem_of_app; by left|]. splits; try done.
  - destruct from; [done|]. rewrite file_write_length by (done || lia). lia.
  - by rewrite file_read_write_before by lia.
Qed.

Lemma from_section_more x y secs sec p seg :
  from_section x y secs p seg -> from_section x y (secs ++ [sec]) p seg.
Proof.
  intros H. apply (from_section_later x y secs sec p seg [] (Z.of_nat (length y)) H). done.
Qed.

Lemma copy_section_inv sec s s' :
  copy_section sec s = Ret (tt, s') ->
  exists off, 0 <= s_size sec /\ (0 <= s_scnptr sec -> off = s_scnptr sec) /\
    let data := file_read (coff s) (s_size sec) off in
    Z.of_nat (length data) = s_size sec /\
    s' = mkConv (coff s) (off + s_size sec) (file_write (noff s) data (posOut s))
           (posOut s + s_size sec) (wrap32 (inNoffFile s + s_size sec)) (noffH s).
Proof.
  unfold copy_section, lseekIn, update. rewrite c_bind_Ret. intros ([] & s1 & [= <-] & H).
  apply c_bind_Ret in H as (data & s2 & H1 & H). unfold Read in H1. cbn [coff posIn] in H1.
  destruct (Z.ltb_spec (s_size sec) 0); [done|].
  destruct (Z.eqb_spec (Z.of_nat (length (file_read (coff s) (s_size sec)
    (if 0 <=? s_scnptr sec then s_scnptr sec else posIn s)))) (s_size sec)) as [Hl|]; [|done].
  injection H1 as <- <-. apply c_bind_Ret in H as ([] & s3 & H2 & H3).
  unfold Write, update in H2. injection H2 as <-. cbn in H3. injection H3 as <-.
  eexists. split; [done|]. split; [|split; [exact Hl|]].
  - intros Hs. by destruct (Z.leb_spec 0 (s_scnptr sec)); [|lia].
  - cbn. by rewrite Hl.
Qed.

(** A section that is copied: its segment, the other one, the counters. *)
Lemma copied_section_inv x secs sec s s' p :
  files_inv x secs s -> 40 + copied_total (secs ++ [sec]) < 2147483648 ->
  is_text sec || is_data sec = true -> s_size sec <> 0 -> p sec = true ->
  copy_section sec s = Ret (tt, s') ->
  files_inv x (secs ++ [sec]) s' /\ noffH s' = noffH s /\
  (forall q seg, from_section x (noff s) secs q seg -> from_section x (noff s') (secs ++ [sec]) q seg) /\
  from_section x (noff s') (secs ++ [sec]) p (mkSegment (s_paddr sec) (inNoffFile s) (s_size sec)).
Proof.
  intros [I1 I2 I3 I4] Hb Hk Hnz Hp Hc.
  destruct (copy_section_inv _ _ _ Hc) as (off & H0 & Hoff & Hl & ->). cbv zeta in *.
  rewrite I1 in Hl |- *. set (data := file_read x (s_size sec) off) in *.
  assert (Hcp : copied sec = s_size sec) by (unfold copied; rewrite Hk; lia).
  rewrite copied_total_snoc, Hcp in Hb. pose proof (copied_total_nonneg secs).
  cbn [inNoffFile noff noffH]. rewrite wrap32_small by (unfold is_int; lia).
  assert (Hw : length (file_write (noff s) data (posOut s)) =
    Nat.max (length (noff s)) (Z.to_nat (posOut s) + length data)).
  { apply file_write_length; [lia|]. intros Hd. rewrite Hd in Hl. cbn in Hl. lia. }
  split; [constructor; cbn [coff posOut inNoffFile noff]; rewrite ?copied_total_snoc; try done; lia|].
  split; [done|]. split.
  - intros q seg Hq. apply from_section_later; [exact Hq|lia].
  - right. exists sec, off. cbn [size virtualAddr inFileAddr].
    split; [apply elem_of_app; right; by apply list_elem_of_singleton|]. splits; try done; [lia|lia|lia|].
    rewrite <- I2. rewrite <- Hl at 1. apply file_read_write_at. lia.
Qed.

Definition sec_ints (sec : scnhdr) : Prop :=
  is_int (s_paddr sec) /\ is_int (s_size sec) /\ is_int (s_scnptr sec).

Lemma scnhdrs_ints n b : Forall sec_ints (scnhdrs_of_bytes n b).
Proof.
  revert b. induction n as [|n IH]; intros b; [constructor|]. cbn. constructor; [|apply IH].
  unfold sec_ints, scnhdr_of_bytes, long_at, int_of_bytes. cbn. splits; apply wrap32_range.
Qed.

Lemma header_ints_iff h :
  header_ints h <-> is_int (noffMagic h) /\ Forall is_int (seg_ints (code h)) /\
    Forall is_int (seg_ints (initData h)) /\ Forall is_int (seg_ints (uninitData h)).
Proof. unfold header_ints, noff_ints. by rewrite Forall_cons, !Forall_app. Qed.

Lemma seg_ints_iff seg :
  Forall is_int (seg_ints seg) <-> is_int (virtualAddr seg) /\ is_int (inFileAddr seg) /\ is_int (size seg).
Proof.
  unfold seg_ints. rewrite !Forall_cons. split; [tauto|]. intros (? & ? & ?). splits; try done.
Qed.

(** Sections that are not copied leave the files alone. *)
Lemma files_inv_skip x secs sec s h :
  files_inv x secs s -> copied sec = 0 -> files_inv x (secs ++ [sec]) (set_noffH h s).
Proof. intros [? ? ? ?] Hc. constructor; cbn; try done. rewrite copied_total_snoc. lia. Qed.

Lemma one_section_inv x secs sec s s' :
  conv_inv x secs s -> sec_ints sec -> 40 + copied_total (secs ++ [sec]) < 2147483648 ->
  one_section sec s = Ret (tt, s') -> conv_inv x (secs ++ [sec]) s'.
Proof.
  intros [IF I5 I6 I7 I8 I9] (Si1 & Si2 & _) Hb.
  assert (Hin : is_int (inNoffFile s)).
  { rewrite (fi_in _ _ _ IF). pose proof (copied_total_nonneg secs). pose proof (copied_nonneg sec).
    rewrite copied_total_snoc in Hb. unfold is_int. lia. }
  apply header_ints_iff in I6 as (M1 & M2 & M3 & M4).
  unfold one_section. destruct (Z.eqb_spec (s_size sec) 0) as [Hz|Hz].
  { intros [= <-]. assert (Hc0 : copied sec = 0) by (unfold copied; destruct (_ || _); lia).
    pose proof (files_inv_skip x secs sec s (noffH s) IF Hc0) as HF.
    constructor; try (by apply from_section_more); [by destruct s|done|by apply header_ints_iff|].
    rewrite bss_total_snoc, Hz, I9. by destruct (is_bss sec && _); rewrite Z.add_0_r. }
  assert (Hf0 : forall h, files_inv x secs (set_noffH h s)) by (intros h; by destruct IF).
  destruct (is_text sec) eqn:Et; [|destruct (is_data sec) eqn:Ed].
  - assert (Hk : is_text sec || is_data sec = true) by (by rewrite Et). intros Hc.
    destruct (copied_section_inv x secs sec _ s' is_text (Hf0 _) Hb Hk Hz Et Hc) as (F & Hh & Hold & Hnew).
    constructor; rewrite ?Hh; cbn [noffH set_noffH set_code noffMagic code initData uninitData]; try done.
    + apply header_ints_iff. splits; try done. by apply seg_ints_iff.
    + by apply Hold.
    + rewrite bss_total_snoc, Et, I9. cbn. by rewrite andb_false_r, Z.add_0_r.
  - destruct (negb _) eqn:Ez; [done|].
    assert (Hk : is_text sec || is_data sec = true) by (by rewrite Ed, orb_true_r). intros Hc.
    destruct (copied_section_inv x secs sec _ s' is_data (Hf0 _) Hb Hk Hz Ed Hc) as (F & Hh & Hold & Hnew).
    constructor; rewrite ?Hh; cbn [noffH set_noffH set_initData noffMagic code initData uninitData]; try done.
    + apply header_ints_iff. splits; try done. by apply seg_ints_iff.
    + by apply Hold.
    + rewrite bss_total_snoc, Et, Ed, I9. cbn. by rewrite andb_false_r, Z.add_0_r.
  - destruct (is_bss sec) eqn:Eb; [|done].
    assert (Hc0 : copied sec = 0) by (unfold copied; by rewrite Et, Ed).
    assert (HB : bss_total (secs ++ [sec]) = bss_total secs + s_size sec)
      by (by rewrite bss_total_snoc, Et, Ed, Eb).
    apply seg_ints_iff in M4 as (N1 & N2 & N3).
    assert (Hbss : forall u, is_int (virtualAddr u) -> is_int (inFileAddr u) ->
      size u = wrap32 (bss_total secs + s_size sec) ->
      conv_inv x (secs ++ [sec]) (set_noffH (set_uninitData u (noffH s)) s)).
    { intros u U1 U2 U3. constructor; cbn [noff noffH set_noffH set_uninitData noffMagic code initData uninitData];
        try (by apply from_section_more); [by apply files_inv_skip|done| |by rewrite HB].
      apply header_ints_iff. splits; try done. apply seg_ints_iff.
      split; [exact U1|]. split; [exact U2|]. cbn. rewrite U3. apply wrap32_range. }
    destruct (negb _) eqn:Ez.
    + destruct (s_paddr sec =? _); [done|]. intros [= <-]. apply Hbss; try done. cbn. rewrite I9.
      apply wrap32_add_l.
    + intros [= <-]. apply Hbss; try done. cbn. apply negb_false_iff, Z.eqb_eq in Ez.
      rewrite <- wrap32_add_l, <- I9, Ez. symmetry. by apply wrap32_small.
Qed.

Lemma sections_loop_inv x todo : forall secs s s',
  conv_inv x secs s -> Forall sec_ints todo -> 40 + copied_total (secs ++ todo) < 2147483648 ->
  sections_loop todo s = Ret (tt, s') -> conv_inv x (secs ++ todo) s'.
Proof.
  induction todo as [|sec todo IH]; intros secs s s' HI Hs Hb; cbn [sections_loop].
  - intros [= <-]. by rewrite app_nil_r.
  - apply Forall_cons in Hs as [Hs1 Hs2]. rewrite c_bind_Ret. intros ([] & s1 & E1 & E2).
    replace (secs ++ sec :: todo) with ((secs ++ [sec]) ++ todo) in * by (by rewrite <- app_assoc).
    eapply IH; [|done|done|exact E2]. eapply one_section_inv; [exact HI|done| |exact E1].
    revert Hb. clear. generalize (secs ++ [sec]) as l. intros l.
    induction todo as [|t todo IH] using rev_ind; [by rewrite app_nil_r|].
    rewrite app_assoc, copied_total_snoc. pose proof (copied_nonneg t). lia.
Qed.

(** ** The headers *)

(** The section headers of a COFF file. *)
Definition numsections (x : list Z) : Z := f_nscns (take 20 x).
Definition sections_of (x : list Z) : list scnhdr :=
  scnhdrs_of_bytes (Z.to_nat (numsections x)) (file_read x (numsections x * 40) 76).

(** The file starts with the headers of a MIPSEL OMAGIC file. *)
Record headers_ok (x : list Z) : Prop := {
  ho_bytes : Forall is_byte x;
  ho_mips : f_magic (take 20 x) = MIPSELMAGIC;
  ho_omagic : magic (take 56 (drop 20 x)) = OMAGIC;
  ho_length : 76 + numsections x * 40 <= Z.of_nat (length x) }.

Definition started (x : list Z) (junk : NoffHeader) (pos : Z) : Conv := mkConv x pos [] 0 0 junk.

Lemma ushort_nonneg b i : Forall is_byte b -> 0 <= ushort_at b i.
Proof.
  intros H. assert (Hn : forall j, 0 <= nth j b 0).
  { intros j. destruct (decide (j < length b)%nat).
    - rewrite Forall_forall in H. apply (H (nth j b 0)). apply list_elem_of_In, nth_In. done.
    - rewrite nth_overflow by lia. done. }
  unfold ushort_at. pose proof (Hn i). pose proof (Hn (S i)). lia.
Qed.

Lemma Read_at x n pos junk :
  0 <= n -> 0 <= pos -> pos + n <= Z.of_nat (length x) ->
  Read n (started x junk pos) = Ret (file_read x n pos, started x junk (pos + n)).
Proof.
  intros Hn Hp Hl. unfold Read, started. cbn [coff posIn noff posOut inNoffFile noffH].
  destruct (Z.ltb_spec n 0); [lia|].
  rewrite file_read_full, Z.eqb_refl by done. done.
Qed.

Lemma read_headers_run x junk :
  headers_ok x ->
  read_headers (started x junk 0) = Ret (sections_of x, started x junk (76 + numsections x * 40)).
Proof.
  intros [H1 H2 H3 H4].
  assert (Hn : 0 <= numsections x) by (by apply ushort_nonneg, Forall_take).
  unfold read_headers. rewrite (c_bind_run _ _ _ _ _ (Read_at x filehdr_size 0 junk ltac:(done) ltac:(done)
    ltac:(unfold filehdr_size; lia))).
  change (file_read x filehdr_size 0) with (take 20 x). rewrite H2, Z.eqb_refl. cbn [negb].
  rewrite (c_bind_run _ _ _ _ _ (Read_at x aouthdr_size (0 + filehdr_size) junk ltac:(done) ltac:(done)
    ltac:(unfold filehdr_size, aouthdr_size; lia))).
  change (file_read x aouthdr_size (0 + filehdr_size)) with (take 56 (drop 20 x)).
  rewrite H3, Z.eqb_refl. cbn [negb].
  fold (numsections x). change (0 + filehdr_size + aouthdr_size) with 76.
  rewrite (c_bind_run _ _ _ _ _ (Read_at x (numsections x * scnhdr_size) 76 junk
    ltac:(unfold scnhdr_size; lia) ltac:(lia) ltac:(unfold scnhdr_size; lia))). done.
Qed.

Lemma read_headers_inv x junk secs s :
  read_headers (started x junk 0) = Ret (secs, s) ->
  secs = sections_of x /\ s = started x junk (76 + numsections x * 40).
Proof.
  assert (HR : forall n pos d s', 0 <= pos -> Read n (started x junk pos) = Ret (d, s') ->
    d = file_read x n pos /\ s' = started x junk (pos + n)).
  { intros n pos d s' Hp. unfold Read, started. cbn. destruct (_ <? _); [done|].
    destruct (_ =? _); [|done]. by intros [= <- <-]. }
  unfold read_headers. rewrite c_bind_Ret. intros (fileh & s1 & E1 & H).
  apply HR in E1 as [-> ->]; [|done]. destruct (negb _); [done|].
  apply c_bind_Ret in H as (systemh & s2 & E2 & H). apply HR in E2 as [-> ->]; [|done].
  destruct (negb _); [done|]. apply c_bind_Ret in H as (b & s3 & E3 & H).
  apply HR in E3 as [-> ->]; [|done]. injection H as <- <-. done.
Qed.

(** The state in which the loop starts. *)
Definition loop_start (x : list Z) (junk : NoffHeader) : Conv :=
  mkConv x (76 + numsections x * 40) [] 40 40 (init_header junk).

Lemma loop_start_inv x junk : header_ints junk -> conv_inv x [] (loop_start x junk).
Proof.
  rewrite header_ints_iff, !seg_ints_iff. intros (H1 & (A1 & A2 & _) & (B1 & B2 & _) & (C1 & C2 & _)).
  constructor; [by constructor|done| |by left|by left|done].
  apply header_ints_iff. rewrite !seg_ints_iff. cbn. unfold NOFFMAGIC.
  splits; try done; unfold is_int; lia.
Qed.

(** [main] is the loop between the headers. *)
Lemma main_run x junk s :
  headers_ok x -> sections_loop (sections_of x) (loop_start x junk) = Ret (tt, s) ->
  coff2noff junk x = Ret (file_write (noff s) (ints_bytes (noff_ints (noffH s))) 0).
Proof.
  intros Hh Hl. unfold coff2noff, main.
  rewrite (c_bind_run _ _ _ _ _ (read_headers_run x junk Hh)).
  erewrite c_bind_run by reflexivity. erewrite c_bind_run by reflexivity.
  erewrite c_bind_run by reflexivity. erewrite c_bind_run by exact Hl. done.
Qed.

Lemma main_inv x junk y :
  coff2noff junk x = Ret y ->
  exists s, sections_loop (sections_of x) (loop_start x junk) = Ret (tt, s) /\
    y = file_write (noff s) (ints_bytes (noff_ints (noffH s))) 0.
Proof.
  unfold coff2noff. destruct (main junk _) as [[[] s]| |] eqn:E; [|done..]. intros [= <-].
  unfold main in E. apply c_bind_Ret in E as (secs & s1 & E1 & E).
  apply read_headers_inv in E1 as [-> ->].
  apply c_bind_Ret in E as ([] & s2 & [= <-] & E). apply c_bind_Ret in E as ([] & s3 & [= <-] & E).
  apply c_bind_Ret in E as ([] & s4 & [= <-] & E). apply c_bind_Ret in E as ([] & s5 & E5 & E).
  exists s5. split; [exact E5|]. by injection E as <-.
Qed.

Lemma noff_header_roundtrip h :
  header_ints h -> noff_of_bytes (ints_bytes (noff_ints h)) = Ok h.
Proof.
  intros Hh. unfold noff_of_bytes. rewrite ints_bytes_roundtrip by done. cbn.
  by destruct h as [? [] [] []].
Qed.

Lemma from_section_header x y secs p seg hdr :
  length hdr = 40%nat -> from_section x y secs p seg -> from_section x (file_write y hdr 0) secs p seg.
Proof.
  intros Hl [H|(s0 & off & H1 & H2 & H3 & H4 & H5 & H6 & H7 & H8 & H9 & H10)]; [by left|right].
  exists s0, off. splits; try done.
  - rewrite file_write_length; [lia|done|]. by destruct hdr.
  - by rewrite file_read_write_after by lia.
Qed.

(** ** Files that are converted *)

(** A section that can be handled: an empty one, code or data that lies in the
    file, or uninitialised data. *)
Definition fits (x : list Z) (sec : scnhdr) : Prop :=
  s_size sec = 0 \/
  (is_text sec || is_data sec = true /\ 0 < s_size sec /\ 0 <= s_scnptr sec /\
     s_scnptr sec + s_size sec <= Z.of_nat (length x)) \/
  is_bss sec = true.

(** The number of sections of kind [p] that are not empty. *)
Definition count (p : scnhdr -> bool) (secs : list scnhdr) : nat :=
  length (filter (fun s => p s = true /\ s_size s <> 0) secs).

Definition used (seg : Segment) : nat := if size seg =? 0 then 0 else 1.

Lemma named_second lit s c : named lit s = true -> lit !! 1%nat = Some c -> s_name s !! 1%nat = Some c.
Proof.
  unfold named. rewrite bool_decide_eq_true. intros H Hc.
  pose proof (lookup_lt_Some _ _ _ Hc). rewrite <- (lookup_take_lt _ (S (length lit))) by lia.
  rewrite H. by rewrite lookup_app_l.
Qed.

Lemma bss_not_copied s : is_bss s = true -> is_text s = false /\ is_data s = false.
Proof.
  intros H. assert (Hb : s_name s !! 1%nat = Some 98 \/ s_name s !! 1%nat = Some 115).
  { unfold is_bss in H. apply orb_true_iff in H as [H|H]; [left|right]; by eapply named_second. }
  split; apply not_true_iff_false; intros Hn.
  - apply (named_second _ _ 116) in Hn; [|done]. naive_solver.
  - unfold is_data in Hn. apply orb_true_iff in Hn as [Hn|Hn];
      [apply (named_second _ _ 100) in Hn|apply (named_second _ _ 114) in Hn]; naive_solver.
Qed.

Lemma copy_section_run sec s :
  0 < s_size sec -> 0 <= s_scnptr sec -> s_scnptr sec + s_size sec <= Z.of_nat (length (coff s)) ->
  exists s', copy_section sec s = Ret (tt, s') /\ coff s' = coff s /\ noffH s' = noffH s.
Proof.
  intros H1 H2 H3. unfold copy_section. erewrite c_bind_run by reflexivity.
  destruct (Z.leb_spec 0 (s_scnptr sec)); [|lia].
  erewrite c_bind_run.
  2: { unfold Read. cbn [coff posIn]. destruct (Z.ltb_spec (s_size sec) 0); [lia|].
       rewrite file_read_full, Z.eqb_refl by lia. reflexivity. }
  erewrite c_bind_run by reflexivity. eexists. split; [reflexivity|done].
Qed.

Lemma count_cons p s secs :
  count p (s :: secs) = ((if decide (p s = true /\ s_size s <> 0)%Z then 1 else 0) + count p secs)%nat.
Proof. unfold count. rewrite filter_cons. by case_decide. Qed.

(** One round succeeds, given room for the segment it fills. *)
Lemma one_section_total x sec n m s :
  coff s = x -> fits x sec ->
  ((if decide (is_data sec = true /\ s_size sec <> 0)%Z then 1 else 0) + n +
     used (initData (noffH s)) <= 1)%nat ->
  ((if decide (is_bss sec = true /\ s_size sec <> 0)%Z then 1 else 0) + m +
     used (uninitData (noffH s)) <= 1)%nat ->
  exists s1, one_section sec s = Ret (tt, s1) /\ coff s1 = x /\
    (n + used (initData (noffH s1)) <= 1)%nat /\ (m + used (uninitData (noffH s1)) <= 1)%nat.
Proof.
  intros Hx Hf Hd Hb. unfold one_section. destruct (Z.eqb_spec (s_size sec) 0) as [Hz|Hz].
  { exists s. splits; try done; lia. }
  destruct Hf as [?|[(Hk & H0 & Hp & Hl)|Hbs]]; [done| |].
  - rewrite <- Hx in Hl. destruct (is_text sec) eqn:Et.
    + destruct (copy_section_run sec (set_noffH (set_code (mkSegment (s_paddr sec) (inNoffFile s)
        (s_size sec)) (noffH s)) s) H0 Hp Hl) as (s1 & E1 & C1 & N1).
      exists s1. rewrite N1. cbn. splits; [done|by rewrite C1|lia|lia].
    + cbn [orb] in Hk. rewrite Hk. rewrite decide_True in Hd by done.
      assert (Hu : used (initData (noffH s)) = 0%nat) by lia.
      unfold used in Hu. destruct (size (initData (noffH s)) =? 0) eqn:Ez; [|done]. cbn [negb].
      destruct (copy_section_run sec (set_noffH (set_initData (mkSegment (s_paddr sec) (inNoffFile s)
        (s_size sec)) (noffH s)) s) H0 Hp Hl) as (s1 & E1 & C1 & N1).
      exists s1. rewrite N1. cbn. splits; [done|by rewrite C1| |lia].
      unfold used. cbn. destruct (s_size sec =? 0); lia.
  - destruct (bss_not_copied sec Hbs) as [-> ->]. rewrite Hbs. rewrite decide_True in Hb by done.
    assert (Hu : used (uninitData (noffH s)) = 0%nat) by lia.
    unfold used in Hu. destruct (size (uninitData (noffH s)) =? 0) eqn:Ez; [|done]. cbn [negb].
    eexists. split; [reflexivity|]. cbn. splits; [done|lia|].
    unfold used. cbn. destruct (s_size sec =? 0); lia.
Qed.

Lemma loop_total x secs : forall s,
  coff s = x -> Forall (fits x) secs ->
  (count is_data secs + used (initData (noffH s)) <= 1)%nat ->
  (count is_bss secs + used (uninitData (noffH s)) <= 1)%nat ->
  exists s', sections_loop secs s = Ret (tt, s').
Proof.
  induction secs as [|sec secs IH]; intros s Hx Hf Hd Hb; cbn [sections_loop]; [by eexists|].
  apply Forall_cons in Hf as [Hf Hfs]. rewrite count_cons in Hd, Hb.
  destruct (one_section_total x sec _ _ s Hx Hf Hd Hb) as (s1 & E1 & H1 & H2 & H3).
  rewrite (c_bind_run _ _ _ _ _ E1). by apply IH.
Qed.

(** What a normal end tells. *)
Lemma convert_inv junk x y :
  header_ints junk -> 40 + copied_total (sections_of x) < 2147483648 ->
  coff2noff junk x = Ret y ->
  exists h, (40 <= length y)%nat /\ noff_of_bytes (take 40 y) = Ok h /\ noffMagic h = NOFFMAGIC /\
    from_section x y (sections_of x) is_text (code h) /\
    from_section x y (sections_of x) is_data (initData h) /\
    size (uninitData h) = wrap32 (bss_total (sections_of x)).
Proof.
  intros Hj Hb Hc. destruct (main_inv x junk y Hc) as (s & Es & ->).
  destruct (sections_loop_inv x (sections_of x) [] (loop_start x junk) s (loop_start_inv x junk Hj)
    (scnhdrs_ints _ _) Hb Es) as [_ I5 I6 I7 I8 I9]. cbn [app] in *.
  set (hdr := ints_bytes (noff_ints (noffH s))).
  assert (Lh : length hdr = 40%nat) by (unfold hdr; by rewrite length_ints_bytes).
  exists (noffH s). splits; try done; try (by apply from_section_header).
  - rewrite file_write_length; [lia|done|]. by destruct hdr.
  - unfold file_write. destruct hdr as [|b hdr'] eqn:E; [done|]. rewrite <- E.
    rewrite take_0. cbn [app]. rewrite take_app_length' by (by rewrite E).
    by apply noff_header_roundtrip.
Qed.

(** ** Properties *)


(** Two instructions of code at address 0, four bytes of data at address 8. *)
Definition demo_section (nm : list Z) (paddr sz ptr : Z) : list Z :=
  nm ++ replicate (8 - length nm) 0 ++ ints_bytes [paddr; 0; sz; ptr; 0; 0; 0; 0].

Definition demo_coff : list Z :=
  [98; 1; 2; 0] ++ replicate 16 0 ++ [7; 1] ++ replicate 54 0 ++
  demo_section text_name 0 8 156 ++ demo_section data_name 8 4 164 ++
  [1; 0; 2; 36; 12; 0; 0; 0] ++ [9; 9; 9; 9].

Definition demo_junk : NoffHeader :=
  mkNoffHeader 7 (mkSegment 7 7 7) (mkSegment 7 7 7) (mkSegment 12 0 7).

Lemma demo_junk_ints : header_ints demo_junk.
Proof. apply header_ints_iff. rewrite !seg_ints_iff. unfold is_int. cbn. lia. Qed.

Lemma demo_converted : coff2noff demo_junk demo_coff = Ret demo_exe.
Proof. vm_compute. reflexivity. Qed.

Lemma demo_total : 40 + copied_total (sections_of demo_coff) < 2147483648.
Proof. by vm_compute. Qed.


(** The converter accepts what it should.  A MIPSEL OMAGIC file whose
    sections are empty, or code or data inside the file, or uninitialised data,
    with at most one non-empty data section and at most one non-empty
    uninitialised one, is converted: no complaint, no crash. *)
Theorem coff2noff_accepts junk x :
  headers_ok x -> Forall (fits x) (sections_of x) ->
  (count is_data (sections_of x) <= 1)%nat -> (count is_bss (sections_of x) <= 1)%nat ->
  exists y, coff2noff junk x = Ret y.
Proof.
  intros Hh Hf Hd Hb. destruct (loop_total x (sections_of x) (loop_start x junk)) as [s Es];
    [done|done|cbn; lia|cbn; lia|]. eexists. by apply main_run.
Qed.

Lemma demo_headers_ok : headers_ok demo_coff.
Proof.
  constructor; [|by vm_compute..].
  apply (bool_decide_unpack (Forall (fun z => (0 <= z < 256)%Z) demo_coff)). by vm_compute.
Qed.

Lemma coff2noff_accepts_witness : exists y, coff2noff demo_junk demo_coff = Ret y.
Proof.
  apply (coff2noff_accepts demo_junk demo_coff demo_headers_ok).
  - repeat (apply List.Forall_cons; [right; left; vm_compute; repeat split; congruence|]). constructor.
  - vm_compute. lia.
  - vm_compute. lia.
Defined.



(** The check on .bss and .sbss is the wrong way round.  Of two sections of
    uninitialised data, the second is refused exactly when it starts where the
    first ends; otherwise the two sizes are added, whatever lies between. *)
Theorem coff2noff_bss_inverted b sb s :
  is_bss b = true -> is_bss sb = true -> s_size b <> 0 -> s_size sb <> 0 ->
  size (uninitData (noffH s)) = 0 ->
  sections_loop [b; sb] s =
    if s_paddr sb =? wrap32 (s_paddr b + s_size b) then Exit1 BothBss
    else Ret (tt, set_noffH (set_uninitData (mkSegment (s_paddr b) (inFileAddr (uninitData (noffH s)))
                               (wrap32 (s_size b + s_size sb))) (noffH s)) s).
Proof.
  intros Hb Hsb Zb Zsb H0. destruct (bss_not_copied b Hb) as [T1 D1].
  destruct (bss_not_copied sb Hsb) as [T2 D2]. cbn [sections_loop].
  erewrite c_bind_run.
  2: { unfold one_section. rewrite (proj2 (Z.eqb_neq _ _) Zb), T1, D1, Hb, H0. reflexivity. }
  unfold mbind, C_bind, one_section. destruct (Z.eqb_spec (s_size sb) 0); [done|].
  rewrite T2, D2, Hsb. cbn [noffH set_noffH set_uninitData uninitData size virtualAddr inFileAddr].
  destruct (Z.eqb_spec (s_size b) 0); [done|]. cbn [negb].
  destruct (s_paddr sb =? wrap32 (s_paddr b + s_size b)); reflexivity.
Qed.

Lemma coff2noff_bss_inverted_witness :
  sections_loop [mkScnhdr (bss_name ++ [0; 0; 0; 0]) 100 8 0; mkScnhdr (sbss_name ++ [0; 0; 0]) 108 4 0]
    (loop_start demo_coff demo_junk) = Exit1 BothBss.
Proof. rewrite coff2noff_bss_inverted by (done || reflexivity). reflexivity. Defined.
