(* ===== verification/Flat.v ===== *)
(** * bin/coff2flat.c: from COFF to a flat memory image

    The sections of a COFF file are written one after the other to a file that
    is meant to be copied to memory as it is, followed by room for a stack,
    which is made by writing a zero word at its end.  Files, headers and the
    program's ways to end are those of [Coff]; the output file is [noff]. *)
From Stdlib Require Import ZArith Lia List Bool.
From stdpp Require Import base tactics list numbers.
From S2P Require Import Prelude CInt BitMap UserProg Coff.
Local Open Scope Z_scope.

Definition StackSize : Z := 1024.

(** [top], after a section. *)
Definition raise_top (top : Z) (sec : scnhdr) : Z :=
  let e := wrap32 (s_paddr sec + s_size sec) in if e >? top then e else top.

(** The lines that copy a section; nothing moves the output's position. *)
Definition copy_flat (sec : scnhdr) : C unit :=
  if negb (is_bss sec) then
    _ ← lseekIn (s_scnptr sec);
    buffer ← Read (s_size sec);
    Write buffer
  else mret tt.

Fixpoint flat_loop (top : Z) (secs : list scnhdr) : C Z :=
  match secs with
  | [] => mret top
  | sec :: secs' => _ ← copy_flat sec; flat_loop (raise_top top sec) secs'
  end.

(** [lseek(fdOut, offset, 0)], which the host refuses for a negative offset. *)
Definition lseek_flat (offset : Z) : C unit :=
  if 0 <=? offset then lseekOut offset else mret tt.

Definition flat_main : C unit :=
  sections ← read_headers;
  top ← flat_loop 0 sections;
  _ ← lseek_flat (wrap32 (wrap32 (top + StackSize) - 4));
  Write (int_bytes 0).

(** The flat file made from a COFF file.  The program has no header variable:
    the one of the state plays no part. *)
Definition coff2flat (x : list Z) : result (list Z) :=
  let none := mkSegment 0 0 0 in
  match flat_main (started x (mkNoffHeader 0 none none none) 0) with
  | Ret (_, s) => Ret (noff s)
  | Exit1 c => Exit1 c
  | Crash => Crash
  end.

(** ** What is expected of the sections *)

(** A section that can be copied. *)
Definition flat_fits (x : list Z) (sec : scnhdr) : Prop :=
  0 <= s_size sec /\ 0 <= s_scnptr sec /\ s_scnptr sec + s_size sec <= Z.of_nat (length x).

(** The bytes of a section that go to the output. *)
Definition contents (x : list Z) (sec : scnhdr) : list Z :=
  if is_bss sec then [] else file_read x (s_size sec) (s_scnptr sec).

Definition image (x : list Z) (secs : list scnhdr) : list Z := concat (map (contents x) secs).

(** The sections with contents follow each other in memory, from [pos] on. *)
Fixpoint packed (pos : Z) (secs : list scnhdr) : Prop :=
  match secs with
  | [] => True
  | sec :: secs' =>
      if is_bss sec then packed pos secs' else s_paddr sec = pos /\ packed (pos + s_size sec) secs'
  end.

(** The end of the last section. *)
Definition top_of (secs : list scnhdr) : Z := foldl raise_top 0 secs.

(** ** Lemmas *)

Lemma file_write_end f from : file_write f from (Z.of_nat (length f)) = f ++ from.
Proof.
  unfold file_write. destruct from as [|b from]; [by rewrite app_nil_r|].
  rewrite Nat2Z.id, Nat.sub_diag, app_nil_r, firstn_all, drop_ge by (cbn [length]; lia).
  by rewrite app_nil_r.
Qed.

(** Writing zeros beyond the end pads the file with zeros. *)
Lemma file_write_gap f n k :
  (0 < k)%nat -> (length f <= n)%nat ->
  file_write f (replicate k 0) (Z.of_nat n) = f ++ replicate (n + k - length f) 0.
Proof.
  intros Hk Hl. unfold file_write. destruct k as [|k]; [lia|]. cbn [replicate].
  change (0 :: replicate k 0) with (replicate (S k) 0).
  rewrite Nat2Z.id, (drop_ge f) by (cbn [length]; lia). rewrite app_nil_r.
  rewrite take_ge by (rewrite length_app, length_replicate; lia).
  rewrite <- app_assoc, <- replicate_add. do 2 f_equal. lia.
Qed.

Lemma contents_length x sec : flat_fits x sec ->
  Z.of_nat (length (contents x sec)) = if is_bss sec then 0 else s_size sec.
Proof.
  intros (H1 & H2 & H3). unfold contents. destruct (is_bss sec); [done|]. by apply file_read_full.
Qed.

Lemma copy_flat_run sec s :
  (is_bss sec = false -> flat_fits (coff s) sec) -> posOut s = Z.of_nat (length (noff s)) ->
  exists s', copy_flat sec s = Ret (tt, s') /\ coff s' = coff s /\
    noff s' = noff s ++ contents (coff s) sec /\ posOut s' = Z.of_nat (length (noff s')).
Proof.
  intros Hf Hp. unfold copy_flat, contents. destruct (is_bss sec); cbn [negb].
  { exists s. by rewrite app_nil_r. }
  destruct (Hf eq_refl) as (H1 & H2 & H3).
  erewrite c_bind_run by reflexivity. destruct (Z.leb_spec 0 (s_scnptr sec)); [|lia].
  erewrite c_bind_run.
  2: { unfold Read. cbn [coff posIn]. destruct (Z.ltb_spec (s_size sec) 0); [lia|].
       rewrite file_read_full, Z.eqb_refl by lia. reflexivity. }
  unfold Write, update. cbn. rewrite Hp, file_write_end.
  eexists. split; [reflexivity|]. cbn. rewrite length_app. splits; [done..|lia].
Qed.

Lemma flat_loop_run secs : forall top s,
  Forall (fun sec => is_bss sec = false -> flat_fits (coff s) sec) secs ->
  posOut s = Z.of_nat (length (noff s)) ->
  exists s', flat_loop top secs s = Ret (foldl raise_top top secs, s') /\ coff s' = coff s /\
    noff s' = noff s ++ image (coff s) secs /\ posOut s' = Z.of_nat (length (noff s')).
Proof.
  induction secs as [|sec secs IH]; intros top s Hf Hp; cbn [flat_loop foldl].
  { exists s. unfold image. cbn. by rewrite app_nil_r. }
  apply Forall_cons_1 in Hf as [Hf Hfs].
  destruct (copy_flat_run sec s Hf Hp) as (s1 & E1 & C1 & N1 & P1).
  rewrite (c_bind_run _ _ _ _ _ E1). rewrite <- C1 in Hfs.
  destruct (IH (raise_top top sec) s1 Hfs P1) as (s2 & E2 & C2 & N2 & P2).
  exists s2. unfold image in *. cbn [map concat]. rewrite app_assoc.
  splits; [done|congruence|congruence|done].
Qed.

Lemma raise_top_ge top sec : top <= raise_top top sec.
Proof. unfold raise_top. destruct (Z.gtb_spec (wrap32 (s_paddr sec + s_size sec)) top); lia. Qed.

Lemma foldl_top_ge secs : forall top, top <= foldl raise_top top secs.
Proof.
  induction secs as [|sec secs IH]; intros top; cbn [foldl]; [done|].
  pose proof (raise_top_ge top sec). specialize (IH (raise_top top sec)). lia.
Qed.

(** The image of packed sections ends at or below the top, and a section's
    bytes start at its address. *)
Lemma packed_image x secs : forall pos top,
  Forall (flat_fits x) secs -> packed pos secs -> 0 <= pos <= top ->
  pos + Z.of_nat (length (image x secs)) < 2147483648 ->
  pos + Z.of_nat (length (image x secs)) <= foldl raise_top top secs.
Proof.
  induction secs as [|sec secs IH]; intros pos top Hf Hk Hp Hb; unfold image in *; cbn [map concat foldl length] in *.
  { lia. }
  apply Forall_cons_1 in Hf as [Hf Hfs]. rewrite length_app in *.
  pose proof (contents_length x sec Hf) as Hl. cbn [packed] in Hk.
  pose proof (raise_top_ge top sec) as Hr. destruct Hf as [Hs _].
  destruct (is_bss sec).
  - specialize (IH pos (raise_top top sec) Hfs Hk). lia.
  - destruct Hk as [Ha Hk]. specialize (IH (pos + s_size sec) (raise_top top sec) Hfs Hk).
    assert (pos + s_size sec <= raise_top top sec).
    { unfold raise_top. rewrite wrap32_small by (unfold is_int; lia).
      destruct (Z.gtb_spec (s_paddr sec + s_size sec) top); lia. }
    lia.
Qed.

Lemma packed_found x secs sec : forall pos,
  Forall (flat_fits x) secs -> packed pos secs -> sec ∈ secs -> is_bss sec = false -> forall pre,
  Z.of_nat (length pre) = pos -> forall rest,
  file_read (pre ++ image x secs ++ rest) (s_size sec) (s_paddr sec) = contents x sec.
Proof.
  induction secs as [|s secs IH]; intros pos Hf Hk Hin Hb pre Hpre rest; [by apply elem_of_nil in Hin|].
  apply Forall_cons_1 in Hf as [Hf Hfs]. pose proof (contents_length x s Hf) as Hl.
  unfold image in *. cbn [map concat packed] in *. rewrite <- app_assoc.
  apply elem_of_cons in Hin as [->|Hin].
  - rewrite Hb in *. destruct Hk as [-> Hk]. unfold file_read.
    rewrite drop_app_length' by lia. by rewrite take_app_length' by lia.
  - rewrite app_assoc. destruct (is_bss s).
    + eapply IH; [done|exact Hk|done|done|]. rewrite length_app. lia.
    + destruct Hk as [_ Hk]. eapply IH; [done|exact Hk|done|done|]. rewrite length_app. lia.
Qed.

(** What the program writes, wherever the sections belong. *)
Lemma coff2flat_run x :
  headers_ok x ->
  Forall (fun sec => is_bss sec = false -> flat_fits x sec) (sections_of x) ->
  top_of (sections_of x) + StackSize < 2147483648 ->
  coff2flat x = Ret (file_write (image x (sections_of x)) (replicate 4 0)
                       (top_of (sections_of x) + StackSize - 4)).
Proof.
  intros Hh Hf Ht. unfold coff2flat, flat_main.
  rewrite (c_bind_run _ _ _ _ _ (read_headers_run x _ Hh)).
  destruct (flat_loop_run (sections_of x) 0 (started x (mkNoffHeader 0 (mkSegment 0 0 0)
    (mkSegment 0 0 0) (mkSegment 0 0 0)) (76 + numsections x * 40)) Hf ltac:(done))
    as (s & E & _ & N & _).
  rewrite (c_bind_run _ _ _ _ _ E). unfold top_of in *.
  pose proof (foldl_top_ge (sections_of x) 0) as H0. unfold StackSize in *.
  rewrite (wrap32_small (_ + 1024)) by (unfold is_int; lia).
  rewrite wrap32_small by (unfold is_int; lia).
  unfold lseek_flat. destruct (Z.leb_spec 0 (foldl raise_top 0 (sections_of x) + 1024 - 4)); [|lia].
  erewrite c_bind_run by reflexivity. unfold Write, update, lseekOut. cbn.
  rewrite N. done.
Qed.

(** ** Properties *)

(** The flat file is the memory image.  If the sections of a well-formed
    object file lie in the file and those with contents follow each other in
    memory from address 0, the converter ends normally; its output has room
    for the sections and the stack, holds every section with contents at the
    section's address, and is zero everywhere behind them: in the sections
    of uninitialised data and in the stack. *)
Theorem coff2flat_image x :
  headers_ok x -> Forall (flat_fits x) (sections_of x) -> packed 0 (sections_of x) ->
  top_of (sections_of x) + StackSize < 2147483648 ->
  Z.of_nat (length (image x (sections_of x))) < 2147483648 ->
  exists y, coff2flat x = Ret y /\
    Z.of_nat (length y) = top_of (sections_of x) + StackSize /\
    (forall sec, sec ∈ sections_of x -> is_bss sec = false ->
       file_read y (s_size sec) (s_paddr sec) = file_read x (s_size sec) (s_scnptr sec)) /\
    (forall i, Z.of_nat (length (image x (sections_of x))) <= i < Z.of_nat (length y) ->
       arr_get y i = Ok 0).
Proof.
  intros Hh Hf Hk Ht Hi.
  assert (Hle : 0 + Z.of_nat (length (image x (sections_of x))) <= top_of (sections_of x))
    by (apply packed_image; done || lia).
  rewrite coff2flat_run; [|done|by eapply Forall_impl|done].
  unfold StackSize in *. set (im := image x (sections_of x)) in *.
  rewrite <- (Z2Nat.id (top_of (sections_of x) + 1024 - 4)) by lia.
  rewrite file_write_gap by lia. eexists. split; [reflexivity|].
  assert (HL : Z.of_nat (length (im ++ replicate (Z.to_nat (top_of (sections_of x) + 1024 - 4) + 4 -
    length im) 0)) = top_of (sections_of x) + 1024) by (rewrite length_app, length_replicate; lia).
  split; [done|]. split.
  - intros sec Hin Hb.
    pose proof (packed_found x (sections_of x) sec 0 Hf Hk Hin Hb [] eq_refl) as Hfound.
    unfold contents in Hfound. rewrite Hb in Hfound. apply Hfound.
  - intros i Hr. rewrite HL in Hr. unfold arr_get. rewrite decide_True by lia.
    rewrite lookup_app_r by lia. by rewrite lookup_replicate_2 by lia.
Qed.

Lemma demo_flat_fits : Forall (flat_fits demo_coff) (sections_of demo_coff).
Proof. repeat (apply List.Forall_cons; [vm_compute; repeat split; congruence|]). constructor. Qed.

Lemma coff2flat_image_witness :
  exists y, coff2flat demo_coff = Ret y /\ length y = 1036%nat /\ file_read y 4 8 = [9; 9; 9; 9].
Proof.
  destruct (coff2flat_image demo_coff demo_headers_ok demo_flat_fits) as (y & E & L & F & _).
  - vm_compute. repeat split.
  - by vm_compute.
  - by vm_compute.
  - exists y. split; [exact E|]. vm_compute in E. injection E as <-. split; reflexivity.
Defined.

(** The file of [demo_coff] with its data at address 64 instead of 8. *)
Definition demo_gap : list Z :=
  [98; 1; 2; 0] ++ replicate 16 0 ++ [7; 1] ++ replicate 54 0 ++
  demo_section text_name 0 8 156 ++ demo_section data_name 64 4 164 ++
  [1; 0; 2; 36; 12; 0; 0; 0] ++ [9; 9; 9; 9].

(** Sections that do not follow each other are misplaced: the position in
    the output is never moved to the address of a section, so with a gap
    between code and data the data lies where the code ends, and its address
    holds zeros. *)
Theorem coff2flat_gap :
  exists y, coff2flat demo_gap = Ret y /\ length y = 1092%nat /\
    file_read y 4 8 = [9; 9; 9; 9] /\ file_read y 4 64 = [0; 0; 0; 0].
Proof. eexists. split; [vm_compute; reflexivity|]. repeat split. Qed.
