(* ===== verification/Switch.v ===== *)
(** * threads/switch.c, switch.h: the context switch

    The assembly routine [SWITCH] saves the registers of one thread in its
    [Thread] object and loads those of another.  The class [Switcher] is what
    the rest of the kernel relies on; against it the file proves that any
    number of threads, switched between in any order, behave as coroutines.
    The routine for the i386, the host the repository is built for, is an
    instance, as text of an assembly language with a small semantics; so is the
    stack that Thread::StackAllocate of threads/thread.cc prepares for a new
    thread, which [ThreadRoot] is proved to run.

    Memory is a map of words; an access that is not aligned has no meaning
    here. *)
From Stdlib Require Import ZArith Lia List Bool.
From stdpp Require Import base tactics list numbers gmap.
From S2P Require Import Prelude CInt.
Local Open Scope Z_scope.

(** ** Words *)

Notation Mem := (gmap Z Z).
Definition word (m : Mem) (a : Z) : Z := default 0 (m !! a).
Definition aligned (a : Z) : bool := (0 <=? a) && (a mod 4 =? 0).
Definition load_word (m : Mem) (a : Z) : option Z := if aligned a then Some (word m a) else None.
Definition store_word (m : Mem) (a v : Z) : option Mem := if aligned a then Some (<[a := v]> m) else None.

Lemma word_insert m a v : word (<[a := v]> m) a = v.
Proof. unfold word. by rewrite lookup_insert_eq. Qed.

Lemma word_insert_ne m a b v : b <> a -> word (<[a := v]> m) b = word m b.
Proof. intros. unfold word. by rewrite lookup_insert_ne. Qed.

(** ** What a context switch promises

    [S] is the state of the processor, [C] what a thread that is not running
    will find in the registers when it runs again.  [here ra s]: the context
    in which a call of the routine from [s], with return address [ra], is to
    return.  [holds own t c]: the words [own] include what the routine uses of
    the thread object [t] and of the stack of context [c]; [scratch] are words
    of the routine's own. *)
Class Switcher (S C : Type) := {
  memory : S -> Mem;
  set_memory : Mem -> S -> S;
  seen : S -> C;
  here : Z -> S -> C;
  switch : Z -> Z -> Z -> S -> option S;
  suspended : Mem -> Z -> C -> Prop;
  holds : (Z -> Prop) -> Z -> C -> Prop;
  scratch : Z -> Prop;
  prepare : Z -> Z -> Z -> Z -> Mem -> Mem;
  fresh : Mem -> Z -> Z -> Z -> Z -> C;
  room : (Z -> Prop) -> Z -> Z -> Prop }.

Class SwitcherLaws (S C : Type) `{Switcher S C} := {
  memory_set m s : memory (set_memory m s) = m;
  switch_ok own1 own2 ra t1 t2 s c2 :
    (forall a, own1 a -> ~ own2 a) -> (forall a, scratch a -> ~ own1 a /\ ~ own2 a) ->
    holds own1 t1 (here ra s) -> holds own2 t2 c2 -> suspended (memory s) t2 c2 ->
    exists s', switch ra t1 t2 s = Some s' /\ seen s' = c2 /\
      suspended (memory s') t1 (here ra s) /\
      forall a, ~ own1 a -> ~ own2 a -> ~ scratch a -> word (memory s') a = word (memory s) a;
  suspended_frame own m m' t c :
    holds own t c -> (forall a, own a -> word m' a = word m a) ->
    suspended m t c -> suspended m' t c;
  prepare_ok own t stack func arg m :
    room own t stack ->
    suspended (prepare t stack func arg m) t (fresh m t stack func arg) /\
    holds own t (fresh m t stack func arg) /\
    forall a, ~ own a -> word (prepare t stack func arg m) a = word m a }.

(** ** Any number of threads *)

Section Coroutines.
Context {S C : Type} `{SW : SwitcherLaws S C}.

(** The words of each thread: its object and its stack. *)
Context (own : Z -> Z -> Prop).

(** The thread that runs, the processor, and for each thread that does not
    run the context in which it will continue. *)
Record Sys := mkSys { cur : Z; cpu : S; saved : gmap Z C }.

(** The running thread computes, leaving the words of the others alone; it
    forks a thread; it switches to another one. *)
Inductive co_step : Sys -> Sys -> Prop :=
| Compute s s' :
    (forall t c a, saved s !! t = Some c -> own t a ->
       word (memory s') a = word (memory (cpu s)) a) ->
    co_step s (mkSys (cur s) s' (saved s))
| Forks s t stack func arg :
    t <> cur s -> saved s !! t = None -> room (own t) t stack ->
    co_step s (mkSys (cur s) (set_memory (prepare t stack func arg (memory (cpu s))) (cpu s))
                 (<[t := fresh (memory (cpu s)) t stack func arg]> (saved s)))
| Switches s ra t c s' :
    saved s !! t = Some c -> holds (own (cur s)) (cur s) (here ra (cpu s)) ->
    switch ra (cur s) t (cpu s) = Some s' ->
    co_step s (mkSys t s' (<[cur s := here ra (cpu s)]> (delete t (saved s)))).

Record co_inv (s : Sys) : Prop := {
  co_cur : saved s !! cur s = None;
  co_saved t c : saved s !! t = Some c -> suspended (memory (cpu s)) t c /\ holds (own t) t c }.

Context (own_disjoint : forall t1 t2 a, t1 <> t2 -> own t1 a -> ~ own t2 a).
Context (own_scratch : forall t a, scratch a -> ~ own t a).

Lemma switch_enabled s ra t c :
  co_inv s -> saved s !! t = Some c -> holds (own (cur s)) (cur s) (here ra (cpu s)) ->
  exists s', switch ra (cur s) t (cpu s) = Some s' /\ seen s' = c /\
    suspended (memory s') (cur s) (here ra (cpu s)) /\
    forall a, ~ own (cur s) a -> ~ own t a -> ~ scratch a ->
      word (memory s') a = word (memory (cpu s)) a.
Proof.
  intros [Hc Hs] Ht Hh. destruct (Hs _ _ Ht) as [Su Ho].
  assert (cur s <> t) by congruence. apply (switch_ok (own (cur s)) (own t)); eauto.
Qed.

Lemma co_inv_step s s' : co_inv s -> co_step s s' -> co_inv s'.
Proof.
  intros I St. pose proof I as [Hc Hs]. destruct St as [s n Hn|s t stack func arg Ht Hf Hr|s ra t c n Ht Hh E].
  - constructor; [done|]. cbn. intros t c E. destruct (Hs t c E) as [Su Ho]. split; [|done].
    eapply suspended_frame; [exact Ho| |exact Su]. intros a. by apply (Hn t c).
  - destruct (prepare_ok (own t) t stack func arg (memory (cpu s)) Hr) as (P1 & P2 & P3).
    constructor; cbn [cur saved cpu]; [by rewrite lookup_insert_ne|].
    intros u c. rewrite memory_set. destruct (decide (u = t)) as [->|Hne].
    + rewrite lookup_insert_eq. by intros [= <-].
    + rewrite lookup_insert_ne by done. intros E. destruct (Hs u c E) as [Su Ho]. split; [|done].
      eapply suspended_frame; [exact Ho| |exact Su]. intros a Ha. apply P3. eauto.
  - destruct (switch_enabled s ra t c I Ht Hh) as (n' & E' & _ & Su & Hm).
    assert (n' = n) as -> by congruence. constructor; cbn [cur saved cpu].
    + rewrite lookup_insert_ne by congruence. apply lookup_delete_eq.
    + intros u d. destruct (decide (u = cur s)) as [->|Hne].
      * rewrite lookup_insert_eq. by intros [= <-].
      * rewrite lookup_insert_ne by done. rewrite lookup_delete_Some. intros [Hut E2].
        destruct (Hs u d E2) as [Su2 Ho]. split; [|done].
        eapply suspended_frame; [exact Ho| |exact Su2]. intros a Ha.
        apply Hm; intros Hb; [by apply (own_disjoint u (cur s) a)|by apply (own_disjoint u t a)|].
        by apply (own_scratch u a).
Qed.

Lemma co_inv_start m n : co_inv (mkSys m n ∅).
Proof. by constructor; cbn; [apply lookup_empty|intros t c; rewrite lookup_empty]. Qed.

Lemma co_inv_reach s s' : co_inv s -> rtc co_step s s' -> co_inv s'.
Proof. intros I R. induction R; [done|]. eauto using co_inv_step. Qed.

(** Whatever the threads have done, the running one can switch to any other,
    which continues in its context. *)
Lemma coroutines main n0 s ra t c :
  rtc co_step (mkSys main n0 ∅) s -> saved s !! t = Some c ->
  holds (own (cur s)) (cur s) (here ra (cpu s)) ->
  exists s', switch ra (cur s) t (cpu s) = Some s' /\ seen s' = c /\
    co_step s (mkSys t s' (<[cur s := here ra (cpu s)]> (delete t (saved s)))).
Proof.
  intros R Ht Hh. destruct (switch_enabled s ra t c) as (s' & E & Hs & _);
    [eapply co_inv_reach; [apply co_inv_start|exact R]|done..|].
  exists s'. split; [done|]. split; [done|]. by eapply Switches.
Qed.

End Coroutines.

(** ** The i386 *)

Inductive reg := EAX | EBX | ECX | EDX | ESI | EDI | EBP | ESP.

Record Regs := mkRegs {
  eax : Z; ebx : Z; ecx : Z; edx : Z; esi : Z; edi : Z; ebp : Z; esp : Z }.

Definition get (r : reg) (g : Regs) : Z :=
  match r with
  | EAX => eax g | EBX => ebx g | ECX => ecx g | EDX => edx g
  | ESI => esi g | EDI => edi g | EBP => ebp g | ESP => esp g
  end.

Definition set (r : reg) (v : Z) (g : Regs) : Regs :=
  let '(mkRegs a b c d si di bp sp) := g in
  match r with
  | EAX => mkRegs v b c d si di bp sp
  | EBX => mkRegs a v c d si di bp sp
  | ECX => mkRegs a b v d si di bp sp
  | EDX => mkRegs a b c v si di bp sp
  | ESI => mkRegs a b c d v di bp sp
  | EDI => mkRegs a b c d si v bp sp
  | EBP => mkRegs a b c d si di v sp
  | ESP => mkRegs a b c d si di bp v
  end.

(** Operands: a register, [d(%r)], the variable [_eax_save]; and the
    instructions that switch.c uses. *)
Inductive operand := OReg (r : reg) | OMem (d : Z) (r : reg) | Eax_save.

Inductive instr :=
| Movl (src dst : operand)
| Pushl (r : reg)
| Popl (r : reg)
| Call (r : reg)
| Ret.

(** The processor; [calls] lists the calls that were made, latest first, each
    with the word where a function finds its first argument. *)
Record I386 := mkI386 { pc : Z; regs : Regs; mem : Mem; calls : list (Z * Z) }.

Definition put (r : reg) (v : Z) (s : I386) : I386 :=
  mkI386 (pc s) (set r v (regs s)) (mem s) (calls s).
Definition put_mem (m : Mem) (s : I386) : I386 := mkI386 (pc s) (regs s) m (calls s).
Definition jump (a : Z) (s : I386) : I386 := mkI386 a (regs s) (mem s) (calls s).

Section Processor.
(** Where the linker puts [_eax_save]; the return address of a call, given
    the instructions behind it; what a called function does. *)
Context (eax_save : Z) (after : list instr -> Z) (callee : Z -> I386 -> option I386).

Definition read (o : operand) (s : I386) : option Z :=
  match o with
  | OReg r => Some (get r (regs s))
  | OMem d r => load_word (mem s) (u32 (get r (regs s) + d))
  | Eax_save => load_word (mem s) eax_save
  end.

Definition write (o : operand) (v : Z) (s : I386) : option I386 :=
  match o with
  | OReg r => Some (put r v s)
  | OMem d r => m ← store_word (mem s) (u32 (get r (regs s) + d)) v; Some (put_mem m s)
  | Eax_save => m ← store_word (mem s) eax_save v; Some (put_mem m s)
  end.

Definition push (v : Z) (s : I386) : option I386 :=
  let a := u32 (esp (regs s) - 4) in
  m ← store_word (mem s) a v; Some (put ESP a (put_mem m s)).

Definition pop (s : I386) : option (Z * I386) :=
  let a := esp (regs s) in
  v ← load_word (mem s) a; Some (v, put ESP (u32 (a + 4)) s).

(** A call of the function at [target], with the return address pushed. *)
Definition call_to (target ra : Z) (s : I386) : option I386 :=
  s1 ← push ra s;
  arg ← load_word (mem s1) (u32 (esp (regs s1) + 4));
  s2 ← callee target (jump target s1);
  Some (mkI386 (pc s2) (regs s2) (mem s2) ((target, arg) :: calls s)).

(** Straight-line code, up to its [ret]. *)
Fixpoint run (code : list instr) (s : I386) : option I386 :=
  match code with
  | [] => None
  | Movl src dst :: rest => v ← read src s; s' ← write dst v s; run rest s'
  | Pushl r :: rest => s' ← push (get r (regs s)) s; run rest s'
  | Popl r :: rest => x ← pop s; run rest (put r x.1 x.2)
  | Call r :: rest => s' ← call_to (get r (regs s)) (after rest) s; run rest s'
  | Ret :: _ => x ← pop s; Some (jump x.1 x.2)
  end.

End Processor.

(** ** switch.h: offsets from the beginning of the thread object *)

Definition _ESP : Z := 0.
Definition _EAX : Z := 4.
Definition _EBX : Z := 8.
Definition _ECX : Z := 12.
Definition _EDX : Z := 16.
Definition _EBP : Z := 20.
Definition _ESI : Z := 24.
Definition _EDI : Z := 28.
Definition _PC : Z := 32.

Definition PCState : Z := _PC / 4 - 1.
Definition FPState : Z := _EBP / 4 - 1.
Definition InitialPCState : Z := _ESI / 4 - 1.
Definition InitialArgState : Z := _EDX / 4 - 1.
Definition WhenDonePCState : Z := _EDI / 4 - 1.
Definition StartupPCState : Z := _ECX / 4 - 1.

Definition InitialPC : reg := ESI.
Definition InitialArg : reg := EDX.
Definition WhenDonePC : reg := EDI.
Definition StartupPC : reg := ECX.

(** ** switch.c *)

Definition ThreadRoot : list instr :=
  [Pushl EBP;
   Movl (OReg ESP) (OReg EBP);
   Pushl InitialArg;
   Call StartupPC;
   Call InitialPC;
   Call WhenDonePC;
   Movl (OReg EBP) (OReg ESP);
   Popl EBP;
   Ret].

Definition SWITCH : list instr :=
  [Movl (OReg EAX) Eax_save;
   Movl (OMem 4 ESP) (OReg EAX);
   Movl (OReg EBX) (OMem _EBX EAX);
   Movl (OReg ECX) (OMem _ECX EAX);
   Movl (OReg EDX) (OMem _EDX EAX);
   Movl (OReg ESI) (OMem _ESI EAX);
   Movl (OReg EDI) (OMem _EDI EAX);
   Movl (OReg EBP) (OMem _EBP EAX);
   Movl (OReg ESP) (OMem _ESP EAX);
   Movl Eax_save (OReg EBX);
   Movl (OReg EBX) (OMem _EAX EAX);
   Movl (OMem 0 ESP) (OReg EBX);
   Movl (OReg EBX) (OMem _PC EAX);
   Movl (OMem 8 ESP) (OReg EAX);
   Movl (OMem _EAX EAX) (OReg EBX);
   Movl (OReg EBX) Eax_save;
   Movl (OMem _EBX EAX) (OReg EBX);
   Movl (OMem _ECX EAX) (OReg ECX);
   Movl (OMem _EDX EAX) (OReg EDX);
   Movl (OMem _ESI EAX) (OReg ESI);
   Movl (OMem _EDI EAX) (OReg EDI);
   Movl (OMem _EBP EAX) (OReg EBP);
   Movl (OMem _ESP EAX) (OReg ESP);
   Movl (OMem _PC EAX) (OReg EAX);
   Movl (OReg EAX) (OMem 4 ESP);
   Movl Eax_save (OReg EAX);
   Ret].

(** [SWITCH(t1, t2)], as a C function calls it. *)
Definition call_SWITCH (eax_save ra t1 t2 : Z) (s : I386) : option I386 :=
  s ← push t2 s; s ← push t1 s; s ← push ra s;
  run eax_save (fun _ => 0) (fun _ _ => None) SWITCH s.

(** The variable is a word of its own; the addresses of [ThreadRoot] and of the
    two functions whose addresses StackAllocate stores. *)
Record Image := mkImage {
  eax_save : Z;
  thread_root : Z;
  InterruptEnable : Z;
  ThreadFinish : Z }.

(** ** thread.h: the thread object; thread.cc: StackAllocate *)

Definition StackSize : Z := 4096.
Definition STACK_FENCEPOST : Z := 3735928559.

(** Offsets in the object: [stackTop], [machineState], five [int]s, [stack]. *)
Definition off_stackTop : Z := 0.
Definition MachineStateSize : Z := 18.
Definition off_machineState (i : Z) : Z := 4 + 4 * i.
Definition off_stack : Z := 4 + 4 * MachineStateSize + 20.

Definition set_machineState (t i v : Z) (m : Mem) : Mem := <[t + off_machineState i := v]> m.

(** [stack] is what AllocBoundedArray has returned. *)
Definition StackAllocate (im : Image) (t stack func arg : Z) (m : Mem) : Mem :=
  let m := <[t + off_stack := stack]> m in
  let m := <[t + off_stackTop := stack + 4 * (StackSize - 4)]> m in
  let stackTop := word m (t + off_stackTop) - 4 in
  let m := <[t + off_stackTop := stackTop]> m in
  let m := <[stackTop := thread_root im]> m in
  let m := <[stack := STACK_FENCEPOST]> m in
  let m := set_machineState t PCState (thread_root im) m in
  let m := set_machineState t StartupPCState (InterruptEnable im) m in
  let m := set_machineState t InitialPCState func m in
  let m := set_machineState t InitialArgState arg m in
  set_machineState t WhenDonePCState (ThreadFinish im) m.

Definition CheckOverflow (t : Z) (m : Mem) : outcome unit :=
  let stack := word m (t + off_stack) in
  if negb (stack =? 0) then
    if word m stack =? STACK_FENCEPOST then Ok tt else Fault AssertFailure
  else Ok tt.

(** ** The instance *)

Definition context : Type := Z * Regs.

Definition i386_suspended (m : Mem) (t : Z) (c : context) : Prop :=
  word m (t + _ESP) = esp c.2 - 4 /\ word m (esp c.2 - 4) = c.1 /\
  word m (t + _EAX) = eax c.2 /\ word m (t + _EBX) = ebx c.2 /\ word m (t + _ECX) = ecx c.2 /\
  word m (t + _EDX) = edx c.2 /\ word m (t + _EBP) = ebp c.2 /\ word m (t + _ESI) = esi c.2 /\
  word m (t + _EDI) = edi c.2.

(** The words that [SWITCH] uses: nine of the object, and on the stack the
    return address and the two arguments. *)
Record i386_holds (own : Z -> Prop) (t : Z) (c : context) : Prop := {
  ih_object : aligned t = true /\ t + 36 <= 4294967296;
  ih_esp : aligned (esp c.2 - 4) = true /\ esp c.2 + 8 <= 4294967296;
  ih_apart : esp c.2 + 8 <= t \/ t + 36 <= esp c.2 - 4;
  ih_stack : own (esp c.2 - 4) /\ own (esp c.2) /\ own (esp c.2 + 4);
  ih_own : own (t + _ESP) /\ own (t + _EAX) /\ own (t + _EBX) /\ own (t + _ECX) /\ own (t + _EDX) /\
    own (t + _EBP) /\ own (t + _ESI) /\ own (t + _EDI) /\ own (t + _PC) }.

Record i386_room (own : Z -> Prop) (t stack : Z) : Prop := {
  ir_object : aligned t = true /\ t + 100 <= 4294967296;
  ir_stack : aligned stack = true /\ stack + 4 * StackSize <= 4294967296;
  ir_apart : stack + 4 * StackSize <= t \/ t + 100 <= stack;
  ir_own k : 0 <= k < 25 -> own (t + 4 * k);
  ir_words k : 0 <= k < StackSize -> own (stack + 4 * k) }.

(** The context of a new thread: the registers that nothing was stored for
    are what the object held. *)
Definition i386_fresh (im : Image) (m : Mem) (t stack func arg : Z) : context :=
  (thread_root im,
   mkRegs (word m (t + _EAX)) (word m (t + _EBX)) (InterruptEnable im) arg func (ThreadFinish im)
     (word m (t + _EBP)) (stack + 4 * (StackSize - 4))).

Section I386.
Context (im : Image).

Lemma load_ok m a : aligned a = true -> load_word m a = Some (word m a).
Proof. unfold load_word. by intros ->. Qed.

Lemma store_ok m a v : aligned a = true -> store_word m a v = Some (<[a := v]> m).
Proof. unfold store_word. by intros ->. Qed.

Lemma aligned_add a k : aligned a = true -> 0 <= k -> k mod 4 = 0 -> aligned (a + k) = true.
Proof.
  unfold aligned. rewrite !andb_true_iff, !Z.leb_le, !Z.eqb_eq. intros [H0 H4] Hk Hm.
  split; [lia|]. rewrite Z.add_mod, H4, Hm by lia. done.
Qed.

Lemma aligned_pos a : aligned a = true -> 0 <= a.
Proof. unfold aligned. rewrite andb_true_iff, Z.leb_le. by intros []. Qed.

Lemma u32_id z : 0 <= z < 4294967296 -> u32 z = z.
Proof. apply Z.mod_small. Qed.

Lemma u32_sub z k : u32 (u32 z - k) = u32 (z - k).
Proof. unfold u32. apply Zminus_mod_idemp_l. Qed.

(** Words of the object and of the stack of one thread, and of [_eax_save]. *)
Ltac apart :=
  first
    [ lia
    | match goal with
      | D : forall x, ?o1 x -> ~ ?o2 x, H1 : ?o1 ?a, H2 : ?o2 ?b |- ?a <> ?b =>
          let E := fresh in intros E; apply (D a H1); rewrite E; exact H2
      | D : forall x, ?o1 x -> ~ ?o2 x, H1 : ?o2 ?a, H2 : ?o1 ?b |- ?a <> ?b =>
          let E := fresh in intros E; apply (D b H2); rewrite <- E; exact H1
      | D : ~ ?o ?e, H : ?o ?b |- ?e <> ?b => let E := fresh in intros E; apply D; rewrite E; exact H
      | D : ~ ?o ?e, H : ?o ?b |- ?b <> ?e => let E := fresh in intros E; apply D; rewrite <- E; exact H
      end ].

(** Reading words of a memory given by its updates. *)
Ltac words := repeat first [rewrite word_insert | rewrite word_insert_ne by apart].

Ltac cpu := cbv beta iota zeta delta [run read write push pop mbind option_bind get set put put_mem jump
  regs mem pc calls eax ebx ecx edx esi edi ebp esp fst snd].

(** The next access to memory, at an address that [lia] finds in range. *)
Ltac access :=
  cpu; rewrite ?u32_id by lia;
  first [rewrite store_ok by (done || apply aligned_add; (done || lia))
        |rewrite load_ok by (done || apply aligned_add; (done || lia)); words].

(** The same, at an address that is equal to [a]. *)
Ltac access_at a :=
  cpu;
  match goal with
  | |- context [load_word ?m ?x] => replace x with a by (rewrite ?u32_id by lia; lia)
  | |- context [store_word ?m ?x _] => replace x with a by (rewrite ?u32_id by lia; lia)
  end; access.

Lemma i386_switch own1 own2 ra t1 t2 s c2 :
  (forall a, own1 a -> ~ own2 a) -> ~ own1 (eax_save im) -> ~ own2 (eax_save im) ->
  aligned (eax_save im) = true ->
  i386_holds own1 t1 (ra, set ESP (u32 (esp (regs s) - 8)) (regs s)) ->
  i386_holds own2 t2 c2 -> i386_suspended (mem s) t2 c2 ->
  exists s', call_SWITCH (eax_save im) ra t1 t2 s = Some s' /\ (pc s', regs s') = c2 /\
    i386_suspended (mem s') t1 (ra, set ESP (u32 (esp (regs s) - 8)) (regs s)) /\
    forall a, ~ own1 a -> ~ own2 a -> a <> eax_save im -> word (mem s') a = word (mem s) a.
Proof.
  intros D N1 N2 As H1 H2 Su. destruct s as [pc0 [a b c d si di bp sp] m cs]. destruct c2 as [pc2 [a2 b2 c2 d2 si2 di2 bp2 sp2]].
  destruct H1 as [[A1 L1] [B1 M1] P1 (W1 & W2 & W3) (W4 & W5 & W6 & W7 & W8 & W9 & W10 & W11 & W12)].
  destruct H2 as [[A2 L2] [B2 M2] P2 (V1 & V2 & V3) (V4 & V5 & V6 & V7 & V8 & V9 & V10 & V11 & V12)].
  destruct Su as (S1 & S2 & S3 & S4 & S5 & S6 & S7 & S8 & S9).
  cbn [set regs mem esp fst snd eax ebx ecx edx esi edi ebp] in *.
  pose proof (aligned_pos _ A1). pose proof (aligned_pos _ A2). pose proof (aligned_pos _ B1). pose proof (aligned_pos _ B2).
  set (e := u32 (sp - 8)) in *.
  assert (E1 : u32 (sp - 4) = e + 4).
  { rewrite <- (u32_id (e + 4)) by lia. unfold e, u32. rewrite Zplus_mod_idemp_l. f_equal. lia. }
  unfold call_SWITCH.
  cpu. rewrite E1.
  assert (AE : aligned e = true) by (replace e with (e - 4 + 4) by lia; by apply aligned_add).
  unfold _ESP, _EAX, _EBX, _ECX, _EDX, _EBP, _ESI, _EDI, _PC in *.
  access. replace (e + 4 - 4) with e by lia. access. access.
  unfold SWITCH, _ESP, _EAX, _EBX, _ECX, _EDX, _EBP, _ESI, _EDI, _PC.
  access. access_at e. do 7 access. access. access. access_at (e - 4). access. access_at (e + 4).
  access. rewrite S3. access. access. rewrite S4. access. rewrite S5. access. rewrite S6.
  access. rewrite S8. access. rewrite S9. access. rewrite S7. access. rewrite S1. access.
  assert (aligned sp2 = true) by (replace sp2 with (sp2 - 4 + 4) by lia; by apply aligned_add).
  access_at sp2. access. access. rewrite S2. cpu.
  replace (sp2 - 4 + 4) with sp2 by lia.
  eexists. split; [reflexivity|]. cpu. split; [reflexivity|]. split.
  - unfold i386_suspended. cpu. unfold _ESP, _EAX, _EBX, _ECX, _EDX, _EBP, _ESI, _EDI.
    splits; words; done.
  - intros x Hx1 Hx2 Hx3. words. done.
Qed.

Lemma i386_frame own m m' t c :
  i386_holds own t c -> (forall a, own a -> word m' a = word m a) ->
  i386_suspended m t c -> i386_suspended m' t c.
Proof.
  intros [_ _ _ (W1 & _ & _) (W4 & W5 & W6 & W7 & W8 & W9 & W10 & W11 & W12)] H.
  unfold i386_suspended. by rewrite !H.
Qed.

(** The words that StackAllocate writes, and that they are words of the
    thread. *)
Lemma room_words own t stack :
  i386_room own t stack ->
  own (t + 0) /\ own (t + 4) /\ own (t + 8) /\ own (t + 12) /\ own (t + 16) /\ own (t + 20) /\
  own (t + 24) /\ own (t + 28) /\ own (t + 32) /\ own (t + 96) /\ own stack /\
  own (stack + 16364) /\ own (stack + 16368) /\ own (stack + 16372).
Proof.
  intros [_ _ _ Ho Hs]. pose proof (Hs 0) as S0. rewrite Z.add_0_r in S0. unfold StackSize in *.
  repeat split;
    solve [apply S0; lia
          |match goal with |- own (t + ?k) => apply (Ho (k / 4)); done end
          |match goal with |- own (stack + ?k) => apply (Hs (k / 4)); done end].
Qed.

(** The words that StackAllocate leaves behind, the last one written first. *)
Lemma StackAllocate_words t stack func arg m :
  StackAllocate im t stack func arg m =
  <[t + 28 := ThreadFinish im]> (<[t + 16 := arg]> (<[t + 24 := func]>
    (<[t + 12 := InterruptEnable im]> (<[t + 32 := thread_root im]> (<[stack := STACK_FENCEPOST]>
      (<[stack + 16364 := thread_root im]> (<[t + 0 := stack + 16364]> (<[t + 0 := stack + 16368]>
        (<[t + 96 := stack]> m))))))))).
Proof.
  unfold StackAllocate. cbv zeta. change off_stackTop with 0. rewrite word_insert.
  change (stack + 4 * (StackSize - 4)) with (stack + 16368).
  replace (stack + 16368 - 4) with (stack + 16364) by lia. reflexivity.
Qed.

Lemma i386_prepare own t stack func arg m :
  i386_room own t stack ->
  i386_suspended (StackAllocate im t stack func arg m) t (i386_fresh im m t stack func arg) /\
  i386_holds own t (i386_fresh im m t stack func arg) /\
  forall a, ~ own a -> word (StackAllocate im t stack func arg m) a = word m a.
Proof.
  intros R. pose proof (room_words own t stack R) as
    (W1 & W2 & W3 & W4 & W5 & W6 & W7 & W8 & W9 & W10 & W11 & W12 & W13 & W14).
  destruct R as [[A1 L1] [A2 L2] P _ _]. unfold StackSize in *.
  pose proof (aligned_pos _ A1). pose proof (aligned_pos _ A2). rewrite StackAllocate_words.
  unfold i386_suspended, i386_fresh, _ESP, _EAX, _EBX, _ECX, _EDX, _EBP, _ESI, _EDI. cpu.
  change (stack + 4 * (StackSize - 4)) with (stack + 16368).
  replace (stack + 16368 - 4) with (stack + 16364) by lia. split; [|split].
  - splits; words; done.
  - constructor; cpu; replace (stack + 16368 - 4) with (stack + 16364) by lia;
      replace (stack + 16368 + 4) with (stack + 16372) by lia.
    + split; [done|lia].
    + split; [by apply aligned_add|lia].
    + lia.
    + done.
    + unfold _ESP, _EAX, _EBX, _ECX, _EDX, _EBP, _ESI, _EDI, _PC. by splits.
  - intros a Ha. words. done.
Qed.

(** The fence post of a stack that StackAllocate has made. *)
Lemma CheckOverflow_spec own t stack func arg m m' :
  i386_room own t stack -> stack <> 0 ->
  (forall a, a = t + 96 -> word m' a = word (StackAllocate im t stack func arg m) a) ->
  CheckOverflow t m' = Ok tt <-> word m' stack = STACK_FENCEPOST.
Proof.
  intros R Hs Hm. destruct R as [[A1 L1] [A2 L2] P _ _]. unfold StackSize in *.
  pose proof (aligned_pos _ A1). pose proof (aligned_pos _ A2).
  assert (E : word m' (t + 96) = stack) by (rewrite Hm by done; rewrite StackAllocate_words; words; done).
  unfold CheckOverflow. change (t + off_stack) with (t + 96). rewrite E.
  destruct (Z.eqb_spec stack 0); [done|]. cbn [negb].
  destruct (Z.eqb_spec (word m' stack) STACK_FENCEPOST); split; done.
Qed.

(** A function that follows the calling convention and returns, called with
    the stack pointer [e]: the return address is popped, the registers that a
    function has to preserve are preserved, and so are the words of the
    caller, those from [e + 4 + args] on. *)
Definition returns (callee : Z -> I386 -> option I386) (f args e : Z) : Prop :=
  forall s, esp (regs s) = e ->
    exists s', callee f s = Some s' /\ esp (regs s') = e + 4 /\
      ebx (regs s') = ebx (regs s) /\ esi (regs s') = esi (regs s) /\
      edi (regs s') = edi (regs s) /\ ebp (regs s') = ebp (regs s) /\
      forall a, e + 4 + args <= a -> word (mem s') a = word (mem s) a.

(** What is left of [ThreadRoot] behind its last call. *)
Definition never_reached : list instr := drop 6 ThreadRoot.

Lemma push_ok v s e :
  esp (regs s) = e + 4 -> aligned e = true -> e < 4294967296 ->
  push v s = Some (put ESP e (put_mem (<[e := v]> (mem s)) s)).
Proof.
  intros E A L. pose proof (aligned_pos _ A). unfold push. rewrite E.
  replace (e + 4 - 4) with e by lia. rewrite u32_id, store_ok by (done || lia). done.
Qed.

Lemma call_to_ok callee f args ra s e :
  returns callee f args e -> esp (regs s) = e + 4 -> aligned e = true -> e + 4 < 4294967296 ->
  0 <= args ->
  exists s', call_to callee f ra s = Some s' /\ esp (regs s') = e + 4 /\
    esi (regs s') = esi (regs s) /\ edi (regs s') = edi (regs s) /\
    calls s' = (f, word (mem s) (e + 4)) :: calls s /\
    forall a, e + 4 + args <= a -> word (mem s') a = word (mem s) a.
Proof.
  intros R E A L Ha. pose proof (aligned_pos _ A). unfold call_to. rewrite (push_ok ra s e) by (done || lia).
  destruct s as [pc0 [a b c d si di bp sp] m cs]. cpu. cbn [regs esp] in E.
  rewrite u32_id, load_ok by (lia || by apply aligned_add). cpu.
  match goal with |- context [callee f ?x] => destruct (R x eq_refl) as (s' & -> & E1 & _ & E2 & E3 & _ & Hm) end.
  eexists. split; [reflexivity|]. cbn in *. splits; [done..| |].
  - by rewrite word_insert_ne by lia.
  - intros w Hw. rewrite Hm by done. apply word_insert_ne. lia.
Qed.

(** [ThreadRoot] on a new stack calls the start-up function, the forked
    function with its argument, and is then about to call the third. *)
Lemma ThreadRoot_run after callee stack func arg s :
  aligned stack = true -> stack + 16384 <= 4294967296 ->
  ecx (regs s) = InterruptEnable im -> edx (regs s) = arg -> esi (regs s) = func ->
  edi (regs s) = ThreadFinish im -> esp (regs s) = stack + 16368 ->
  returns callee (InterruptEnable im) 0 (stack + 16356) -> returns callee func 4 (stack + 16356) ->
  exists s1, run (eax_save im) after callee ThreadRoot s =
      (s2 ← call_to callee (ThreadFinish im) (after never_reached) s1;
       run (eax_save im) after callee never_reached s2) /\
    calls s1 = (func, arg) :: (InterruptEnable im, arg) :: calls s.
Proof.
  intros A L Hc Hd Hsi Hdi Hsp R1 R2. destruct s as [pc0 [a b c d si di bp sp] m cs].
  cbn [regs ecx edx esi edi esp calls] in *. subst c d si di sp. pose proof (aligned_pos _ A).
  assert (A4 : forall k, 0 <= k -> k mod 4 = 0 -> aligned (stack + k) = true) by (intros; by apply aligned_add).
  set (s0 := mkI386 pc0 (mkRegs a b (InterruptEnable im) arg func (ThreadFinish im) (stack + 16364)
    (stack + 16360)) (<[stack + 16360 := arg]> (<[stack + 16364 := bp]> m)) cs).
  assert (E0 : run (eax_save im) after callee ThreadRoot (mkI386 pc0 (mkRegs a b (InterruptEnable im) arg func
      (ThreadFinish im) bp (stack + 16368)) m cs) =
    (s1 ← call_to callee (InterruptEnable im) (after (drop 4 ThreadRoot)) s0;
     s2 ← call_to callee (esi (regs s1)) (after (drop 5 ThreadRoot)) s1;
     s3 ← call_to callee (edi (regs s2)) (after never_reached) s2;
     run (eax_save im) after callee never_reached s3)).
  { unfold ThreadRoot at 1. cbn [run]. rewrite (push_ok _ _ (stack + 16364)) by first [by apply A4|cbn; lia].
    cbn. rewrite (push_ok _ _ (stack + 16360)) by first [by apply A4|cbn; lia]. reflexivity. }
  destruct (call_to_ok callee (InterruptEnable im) 0 (after (drop 4 ThreadRoot)) s0 (stack + 16356) R1)
    as (s1 & E1 & P1 & S1 & D1 & C1 & M1); [cbn; lia|by apply A4|lia..|].
  destruct (call_to_ok callee func 4 (after (drop 5 ThreadRoot)) s1 (stack + 16356) R2)
    as (s2 & E2 & P2 & S2 & D2 & C2 & M2); [lia|by apply A4|lia..|].
  exists s2. rewrite E0, E1. cbn [mbind option_bind]. rewrite S1. cbn [s0 regs esi]. rewrite E2.
  cbn [mbind option_bind]. rewrite D2, D1. split; [done|].
  rewrite C2, C1, M1 by lia. unfold s0. cbn [mem calls]. 
  replace (stack + 16356 + 4) with (stack + 16360) by lia. by rewrite word_insert.
Qed.

(** ** The interface *)

Definition I386_switcher : Switcher I386 context := {|
  memory := mem;
  set_memory := put_mem;
  seen s := (pc s, regs s);
  here ra s := (ra, set ESP (u32 (esp (regs s) - 8)) (regs s));
  switch := call_SWITCH (eax_save im);
  suspended := i386_suspended;
  holds := i386_holds;
  scratch a := a = eax_save im;
  prepare := StackAllocate im;
  fresh := i386_fresh im;
  room := i386_room |}.

Lemma I386_laws : aligned (eax_save im) = true -> @SwitcherLaws I386 context I386_switcher.
Proof.
  intros A. constructor; cbn.
  - by intros m [].
  - intros own1 own2 ra t1 t2 s c2 D N. destruct (N _ eq_refl). by apply i386_switch.
  - apply i386_frame.
  - apply i386_prepare.
Qed.



End I386.

(** ** A kernel with two threads *)

Definition demo_image : Image := mkImage 64 100 104 108.
Definition demo_cpu : I386 := mkI386 0 (mkRegs 1 2 3 4 5 6 7 40100) ∅ [].

Definition demo_own (t a : Z) : Prop :=
  (t = 1000 /\ (1000 <= a < 1100 \/ 40000 <= a < 41000)) \/
  (t = 2000 /\ (2000 <= a < 2100 \/ 8192 <= a < 24576)).

Definition demo_forked : I386 :=
  put_mem (StackAllocate demo_image 2000 8192 112 9 (mem demo_cpu)) demo_cpu.

Lemma demo_room : i386_room (demo_own 2000) 2000 8192.
Proof. constructor; unfold StackSize, demo_own; intros; cbn; try split; lia || done. Qed.

Lemma demo_holds : i386_holds (demo_own 1000) 1000 (7, set ESP 40092 (regs demo_cpu)).
Proof.
  constructor; unfold demo_own, _ESP, _EAX, _EBX, _ECX, _EDX, _EBP, _ESI, _EDI, _PC; cbn; try done; lia.
Qed.


(** A calling convention: the return address is popped and nothing else
    happens. *)
Definition demo_callee (f : Z) (s : I386) : option I386 :=
  Some (put ESP (esp (regs s) + 4) s).

Lemma demo_returns f args e : returns demo_callee f args e.
Proof.
  intros s <-. eexists. split; [reflexivity|]. destruct s as [pc0 [] m cs]. by cbn.
Qed.

