(* ===== verification/SwitchRisc.v ===== *)
(** * threads/switch.c, switch.h: the context switch on MIPS and HP hosts

    The routines for the other hosts as text of a small load/store assembly
    language, and the stacks that StackAllocate prepares there.  Both are
    instances of the class [Switcher] of Switch.v: what a host has to satisfy
    is the record [HostOk], proved for [Mips.host] and for [Snake.host].  The
    assembler of the MIPS fills the delay slots itself; on the HP they are part
    of the text. *)
From Stdlib Require Import ZArith Lia List Bool.
From stdpp Require Import base tactics list numbers gmap functions sorting.
From S2P Require Import Prelude CInt Switch.
Local Open Scope Z_scope.

(** ** The processor *)

(** Registers are numbered; register 0 reads as 0. *)
Record Risc := mkRisc { r_pc : Z; r_regs : Z -> Z; r_mem : Mem; r_calls : list (Z * Z) }.

Definition greg (r : Z) (s : Risc) : Z := if r =? 0 then 0 else r_regs s r.
Definition preg (r v : Z) (s : Risc) : Risc :=
  mkRisc (r_pc s) (<[r := v]> (r_regs s)) (r_mem s) (r_calls s).
Definition pmem (m : Mem) (s : Risc) : Risc := mkRisc (r_pc s) (r_regs s) m (r_calls s).
Definition goto (a : Z) (s : Risc) : Risc := mkRisc a (r_regs s) (r_mem s) (r_calls s).

(** [Stw r d b] and [Ldw r d b] store and load at [d] bytes from register [b];
    [Move a r] is the instruction [or a,r,0]; [Jal r] calls and [Jr r] jumps
    to the address in [r], [Ble r] and [Bv r] do the same behind the
    instruction in their delay slot. *)
Inductive rinstr :=
| Stw (r d b : Z)
| Ldw (r d b : Z)
| Move (dst src : Z)
| Jal (r : Z)
| Jr (r : Z)
| Ble (r : Z)
| Bv (r : Z).

Section Processor.
(** The first argument register, the register where a call of the host leaves
    the return address; the return address of a call, given the instructions
    behind it; what a called function does. *)
Context (arg0 link : Z) (after : list rinstr -> Z) (callee : Z -> Risc -> option Risc).

Definition exec (i : rinstr) (s : Risc) : option Risc :=
  match i with
  | Stw r d b => m ← store_word (r_mem s) (u32 (greg b s + d)) (greg r s); Some (pmem m s)
  | Ldw r d b => v ← load_word (r_mem s) (u32 (greg b s + d)); Some (preg r v s)
  | Move a r => Some (preg a (greg r s) s)
  | _ => None
  end.

Definition rcall (target : Z) (s : Risc) : option Risc :=
  s' ← callee target (goto target s);
  Some (mkRisc (r_pc s') (r_regs s') (r_mem s') ((target, greg arg0 s) :: r_calls s)).

(** Straight-line code, up to a jump. *)
Fixpoint rrun (code : list rinstr) (s : Risc) : option Risc :=
  match code with
  | [] => None
  | Jr r :: _ => Some (goto (greg r s) s)
  | Bv r :: rest =>
    match rest with i :: _ => s' ← exec i s; Some (goto (greg r s) s') | [] => None end
  | Jal r :: rest => s' ← rcall (greg r s) (preg link (after rest) s); rrun rest s'
  | Ble r :: rest =>
    match rest with
    | i :: rest' =>
      s' ← exec i (preg 31 (after rest') s);
      s' ← rcall (greg r s) s';
      rrun rest' s'
    | [] => None
    end
  | i :: rest => s' ← exec i s; rrun rest s'
  end.
End Processor.

(** ** The hosts *)

(** What differs: the registers that a function preserves, each with the
    offset where SWITCH saves it; the registers of the first two arguments and
    of the return address; which way stacks grow; the registers and words of
    the initial values; the texts. *)
Record Host := mkHost {
  kept : list (Z * Z);
  arg0 : Z;
  arg1 : Z;
  link : Z;
  PC_offset : Z;
  grows_up : bool;
  initial_PC : Z; initial_Arg : Z; whenDone_PC : Z; startup_PC : Z;
  PC_state : Z; initial_PC_state : Z; initial_Arg_state : Z; whenDone_PC_state : Z; startup_PC_state : Z;
  root : list rinstr;
  switch_text : list rinstr }.

Module Mips.
Definition z : Z := 0.
Definition a0 : Z := 4.
Definition a1 : Z := 5.
Definition s0 : Z := 16.
Definition s1 : Z := 17.
Definition s2 : Z := 18.
Definition s3 : Z := 19.
Definition s4 : Z := 20.
Definition s5 : Z := 21.
Definition s6 : Z := 22.
Definition s7 : Z := 23.
Definition sp : Z := 29.
Definition fp : Z := 30.
Definition ra : Z := 31.

Definition SP : Z := 0.
Definition S0 : Z := 4.
Definition S1 : Z := 8.
Definition S2 : Z := 12.
Definition S3 : Z := 16.
Definition S4 : Z := 20.
Definition S5 : Z := 24.
Definition S6 : Z := 28.
Definition S7 : Z := 32.
Definition FP : Z := 36.
Definition PC : Z := 40.

Definition InitialPC : Z := s0.
Definition InitialArg : Z := s1.
Definition WhenDonePC : Z := s2.
Definition StartupPC : Z := s3.

Definition PCState : Z := PC / 4 - 1.
Definition FPState : Z := FP / 4 - 1.
Definition InitialPCState : Z := S0 / 4 - 1.
Definition InitialArgState : Z := S1 / 4 - 1.
Definition WhenDonePCState : Z := S2 / 4 - 1.
Definition StartupPCState : Z := S3 / 4 - 1.

Definition ThreadRoot : list rinstr :=
  [Move fp z;
   Jal StartupPC;
   Move a0 InitialArg;
   Jal InitialPC;
   Jal WhenDonePC].

Definition SWITCH : list rinstr :=
  [Stw sp SP a0;
   Stw s0 S0 a0;
   Stw s1 S1 a0;
   Stw s2 S2 a0;
   Stw s3 S3 a0;
   Stw s4 S4 a0;
   Stw s5 S5 a0;
   Stw s6 S6 a0;
   Stw s7 S7 a0;
   Stw fp FP a0;
   Stw ra PC a0;
   Ldw sp SP a1;
   Ldw s0 S0 a1;
   Ldw s1 S1 a1;
   Ldw s2 S2 a1;
   Ldw s3 S3 a1;
   Ldw s4 S4 a1;
   Ldw s5 S5 a1;
   Ldw s6 S6 a1;
   Ldw s7 S7 a1;
   Ldw fp FP a1;
   Ldw ra PC a1;
   Jr ra].

Definition host : Host := mkHost
  [(sp, SP); (s0, S0); (s1, S1); (s2, S2); (s3, S3); (s4, S4); (s5, S5); (s6, S6); (s7, S7); (fp, FP)]
  a0 a1 ra PC false
  InitialPC InitialArg WhenDonePC StartupPC
  PCState InitialPCState InitialArgState WhenDonePCState StartupPCState
  ThreadRoot SWITCH.
End Mips.

Module Snake.
Definition rp : Z := 2.
Definition sp : Z := 30.
Definition arg0 : Z := 26.
Definition arg1 : Z := 25.
Definition r3 : Z := 3.
Definition r4 : Z := 4.
Definition r5 : Z := 5.
Definition r6 : Z := 6.
Definition r7 : Z := 7.
Definition r8 : Z := 8.
Definition r9 : Z := 9.
Definition r10 : Z := 10.
Definition r11 : Z := 11.
Definition r12 : Z := 12.
Definition r13 : Z := 13.
Definition r14 : Z := 14.
Definition r15 : Z := 15.
Definition r16 : Z := 16.
Definition r17 : Z := 17.
Definition r18 : Z := 18.
Definition r31 : Z := 31.

Definition SP : Z := 0.
Definition S0 : Z := 4.
Definition S1 : Z := 8.
Definition S2 : Z := 12.
Definition S3 : Z := 16.
Definition S4 : Z := 20.
Definition S5 : Z := 24.
Definition S6 : Z := 28.
Definition S7 : Z := 32.
Definition S8 : Z := 36.
Definition S9 : Z := 40.
Definition S10 : Z := 44.
Definition S11 : Z := 48.
Definition S12 : Z := 52.
Definition S13 : Z := 56.
Definition S14 : Z := 60.
Definition S15 : Z := 64.
Definition PC : Z := 68.

Definition InitialPC : Z := r3.
Definition InitialArg : Z := r4.
Definition WhenDonePC : Z := r5.
Definition StartupPC : Z := r6.

Definition PCState : Z := PC / 4 - 1.
Definition InitialPCState : Z := S0 / 4 - 1.
Definition InitialArgState : Z := S1 / 4 - 1.
Definition WhenDonePCState : Z := S2 / 4 - 1.
Definition StartupPCState : Z := S3 / 4 - 1.

Definition ThreadRoot : list rinstr :=
  [Ble r6;
   Move rp r31;
   Move arg0 r4;
   Ble r3;
   Move rp r31;
   Ble r5;
   Move rp r31].

Definition SWITCH : list rinstr :=
  [Stw sp SP arg0;
   Stw r3 S0 arg0;
   Stw r4 S1 arg0;
   Stw r5 S2 arg0;
   Stw r6 S3 arg0;
   Stw r7 S4 arg0;
   Stw r8 S5 arg0;
   Stw r9 S6 arg0;
   Stw r10 S7 arg0;
   Stw r11 S8 arg0;
   Stw r12 S9 arg0;
   Stw r13 S10 arg0;
   Stw r14 S11 arg0;
   Stw r15 S12 arg0;
   Stw r16 S13 arg0;
   Stw r17 S14 arg0;
   Stw r18 S15 arg0;
   Stw rp PC arg0;
   Ldw sp SP arg1;
   Ldw r3 S0 arg1;
   Ldw r4 S1 arg1;
   Ldw r5 S2 arg1;
   Ldw r6 S3 arg1;
   Ldw r7 S4 arg1;
   Ldw r8 S5 arg1;
   Ldw r9 S6 arg1;
   Ldw r10 S7 arg1;
   Ldw r11 S8 arg1;
   Ldw r12 S9 arg1;
   Ldw r13 S10 arg1;
   Ldw r14 S11 arg1;
   Ldw r15 S12 arg1;
   Ldw r16 S13 arg1;
   Ldw r17 S14 arg1;
   Ldw rp PC arg1;
   Bv rp;
   Ldw r18 S15 arg1].

Definition host : Host := mkHost
  [(sp, SP); (r3, S0); (r4, S1); (r5, S2); (r6, S3); (r7, S4); (r8, S5); (r9, S6); (r10, S7); 
   (r11, S8); (r12, S9); (r13, S10); (r14, S11); (r15, S12); (r16, S13); (r17, S14); (r18, S15)]
  arg0 arg1 rp PC true
  InitialPC InitialArg WhenDonePC StartupPC
  PCState InitialPCState InitialArgState WhenDonePCState StartupPCState
  ThreadRoot SWITCH.
End Snake.

(** ** Calls of SWITCH, new stacks *)

(** [SWITCH(t1, t2)], as a C function of the host calls it. *)
Definition call_SWITCH_on (h : Host) (ra t1 t2 : Z) (s : Risc) : option Risc :=
  rrun (arg0 h) (link h) (fun _ => 0) (fun _ _ => None) (switch_text h)
    (preg (link h) ra (preg (arg1 h) t2 (preg (arg0 h) t1 s))).

(** [stack] is what AllocBoundedArray has returned. *)
Definition stack_top (h : Host) (stack : Z) : Z :=
  if grows_up h then stack + 4 * 16 else stack + 4 * (StackSize - 4).
Definition fence (h : Host) (stack : Z) : Z :=
  if grows_up h then stack + 4 * (StackSize - 1) else stack.

Definition StackAllocate_on (h : Host) (im : Image) (t stack func arg : Z) (m : Mem) : Mem :=
  let m := <[t + off_stack := stack]> m in
  let m := <[t + off_stackTop := stack_top h stack]> m in
  let m := <[fence h stack := STACK_FENCEPOST]> m in
  let m := set_machineState t (PC_state h) (thread_root im) m in
  let m := set_machineState t (startup_PC_state h) (InterruptEnable im) m in
  let m := set_machineState t (initial_PC_state h) func m in
  let m := set_machineState t (initial_Arg_state h) arg m in
  set_machineState t (whenDone_PC_state h) (ThreadFinish im) m.

Definition CheckOverflow_on (h : Host) (t : Z) (m : Mem) : outcome unit :=
  let stack := word m (t + off_stack) in
  if negb (stack =? 0) then
    if word m (fence h stack) =? STACK_FENCEPOST then Ok tt else Fault AssertFailure
  else Ok tt.

(** ** Saving and loading lists of registers *)

Definition stores (l : list (Z * Z)) (b : Z) : list rinstr := map (fun p => Stw p.1 p.2 b) l.
Definition loads (l : list (Z * Z)) (b : Z) : list rinstr := map (fun p => Ldw p.1 p.2 b) l.

Fixpoint save_words (t : Z) (g : Z -> Z) (l : list (Z * Z)) (m : Mem) : Mem :=
  match l with [] => m | p :: l' => save_words t g l' (<[t + p.2 := g p.1]> m) end.
Fixpoint load_regs (t : Z) (l : list (Z * Z)) (s : Risc) : Risc :=
  match l with [] => s | p :: l' => load_regs t l' (preg p.1 (word (r_mem s) (t + p.2)) s) end.

(** The object of a thread, as far as SWITCH uses it. *)
Definition object_ok (t : Z) : Prop := aligned t = true /\ t + 100 <= 4294967296.
Definition offset_ok (d : Z) : Prop := 0 <= d <= 72 /\ d mod 4 = 0.
#[global] Instance offset_ok_dec d : Decision (offset_ok d).
Proof. unfold offset_ok. apply _. Defined.

Lemma object_word t d : object_ok t -> offset_ok d ->
  u32 (t + d) = t + d /\ aligned (t + d) = true.
Proof.
  intros [A L] [D M]. pose proof (aligned_pos _ A). split; [|by apply aligned_add; [| lia |]].
  apply u32_id. lia.
Qed.

Lemma greg_pmem r m s : greg r (pmem m s) = greg r s.
Proof. done. Qed.

Lemma greg_preg r v s : r <> 0 -> greg r (preg r v s) = v.
Proof.
  intros H. unfold greg, preg. cbn [r_regs]. destruct (Z.eqb_spec r 0); [done|].
  apply fn_lookup_insert.
Qed.

Lemma greg_preg_ne r q v s : r <> q -> greg r (preg q v s) = greg r s.
Proof.
  intros H. unfold greg, preg. cbn [r_regs]. case_match; [done|]. by rewrite fn_lookup_insert_ne.
Qed.

Section Runs.
Context (a l : Z) (after : list rinstr -> Z) (callee : Z -> Risc -> option Risc).

Lemma run_stores b l' rest : forall s,
  object_ok (greg b s) -> Forall (fun p => offset_ok p.2) l' ->
  rrun a l after callee (stores l' b ++ rest) s =
  rrun a l after callee rest (pmem (save_words (greg b s) (fun r => greg r s) l' (r_mem s)) s).
Proof.
  induction l' as [|[r d] l' IH]; intros s Ho Hl; [by destruct s|].
  apply Forall_cons in Hl as [Hd Hl]. destruct (object_word _ _ Ho Hd) as [U A]. cbn [snd] in *.
  cbn [stores map app rrun exec fst snd]. rewrite U, store_ok by done. cbn [mbind option_bind].
  fold (stores l' b). rewrite IH by done. reflexivity.
Qed.

Lemma run_loads b l' rest : forall s,
  object_ok (greg b s) -> Forall (fun p => offset_ok p.2) l' -> b ∉ l'.*1 ->
  rrun a l after callee (loads l' b ++ rest) s =
  rrun a l after callee rest (load_regs (greg b s) l' s).
Proof.
  induction l' as [|[r d] l' IH]; intros s Ho Hl Hb; [done|].
  apply Forall_cons in Hl as [Hd Hl]. destruct (object_word _ _ Ho Hd) as [U A]. cbn [snd] in *.
  cbn in Hb. apply not_elem_of_cons in Hb as [Hne Hb].
  cbn [loads map app rrun exec fst snd]. rewrite U, load_ok by done. cbn [mbind option_bind].
  fold (loads l' b). pose proof (greg_preg_ne b r (word (r_mem s) (greg b s + d)) s Hne) as E.
  rewrite IH by (rewrite ?E; done). by rewrite E.
Qed.
End Runs.

Lemma save_words_out t g l a : forall m, (forall p, p ∈ l -> a <> t + p.2) ->
  word (save_words t g l m) a = word m a.
Proof.
  induction l as [|p l IH]; intros m H; [done|]. cbn [save_words].
  rewrite IH by set_solver. apply word_insert_ne. set_solver.
Qed.

Lemma save_words_in t g l r d : forall m, NoDup l.*2 -> (r, d) ∈ l ->
  word (save_words t g l m) (t + d) = g r.
Proof.
  induction l as [|[q e] l IH]; intros m Hn Hin; [by apply elem_of_nil in Hin|].
  cbn in Hn. apply NoDup_cons in Hn as [Hq Hn]. cbn [save_words fst snd].
  apply elem_of_cons in Hin as [E|Hin]; [|by apply IH].
  injection E as <- <-. rewrite save_words_out; [apply word_insert|].
  intros p Hp E. apply Hq. replace d with p.2 by lia. by apply list_elem_of_fmap_2.
Qed.

Lemma load_regs_mem t l : forall s, r_mem (load_regs t l s) = r_mem s.
Proof. induction l as [|p l IH]; intros s; [done|]. cbn [load_regs]. by rewrite IH. Qed.

Lemma load_regs_out t l r : forall s, r ∉ l.*1 -> greg r (load_regs t l s) = greg r s.
Proof.
  induction l as [|p l IH]; intros s H; [done|]. cbn in H. apply not_elem_of_cons in H as [Hne H].
  cbn [load_regs]. rewrite IH by done. by apply greg_preg_ne.
Qed.

Lemma load_regs_in t l r d : forall s, NoDup l.*1 -> r <> 0 -> (r, d) ∈ l ->
  greg r (load_regs t l s) = word (r_mem s) (t + d).
Proof.
  induction l as [|[q e] l IH]; intros s Hn Hr Hin; [by apply elem_of_nil in Hin|].
  cbn in Hn. apply NoDup_cons in Hn as [Hq Hn]. cbn [load_regs fst snd].
  apply elem_of_cons in Hin as [E|Hin]; [|by rewrite IH].
  injection E as <- <-. rewrite load_regs_out by done. by apply greg_preg.
Qed.

(** ** What SWITCH and ThreadRoot need of a host *)

Definition saved_regs (h : Host) : list (Z * Z) := kept h ++ [(link h, PC_offset h)].

(** A function that returns preserves the registers that functions preserve. *)
Definition preserves (h : Host) (callee : Z -> Risc -> option Risc) (f : Z) : Prop :=
  forall s, exists s', callee f s = Some s' /\ forall p, p ∈ kept h -> greg p.1 s' = greg p.1 s.

(** ThreadRoot, from the initial registers: the calls that it makes. *)
Definition runs_root (h : Host) : Prop := forall after callee s,
  preserves h callee (greg (startup_PC h) s) -> preserves h callee (greg (initial_PC h) s) ->
  exists s1 x, rrun (arg0 h) (link h) after callee (root h) s =
      (s2 ← rcall (arg0 h) callee (greg (whenDone_PC h) s) s1; None) /\
    r_calls s1 = (greg (initial_PC h) s, greg (initial_Arg h) s) :: (greg (startup_PC h) s, x) :: r_calls s.

Record HostOk (h : Host) : Prop := {
  ho_text : exists l, l ≡ₚ saved_regs h /\ forall after callee s,
    rrun (arg0 h) (link h) after callee (switch_text h) s =
    rrun (arg0 h) (link h) after callee
      (stores (saved_regs h) (arg0 h) ++ loads l (arg1 h) ++ [Jr (link h)]) s;
  ho_regs : NoDup (0 :: arg0 h :: arg1 h :: (saved_regs h).*1);
  ho_offsets : NoDup (saved_regs h).*2 /\ Forall (fun p => offset_ok p.2) (saved_regs h);
  ho_states : NoDup [0; off_machineState (PC_state h); off_machineState (startup_PC_state h);
    off_machineState (initial_PC_state h); off_machineState (initial_Arg_state h);
    off_machineState (whenDone_PC_state h)] /\ off_machineState (PC_state h) = PC_offset h;
  ho_initial : [(startup_PC h, off_machineState (startup_PC_state h));
    (initial_PC h, off_machineState (initial_PC_state h));
    (initial_Arg h, off_machineState (initial_Arg_state h));
    (whenDone_PC h, off_machineState (whenDone_PC_state h))] ⊆ kept h;
  ho_root : runs_root h }.

(** ** The instance *)

Definition regs_of (h : Host) (s : Risc) : list Z := map (fun p => greg p.1 s) (kept h).

Definition risc_context : Type := Z * list Z.

Definition risc_suspended (h : Host) (m : Mem) (t : Z) (c : risc_context) : Prop :=
  word m (t + PC_offset h) = c.1 /\ map (fun p => word m (t + p.2)) (kept h) = c.2.

Definition risc_holds (h : Host) (own : Z -> Prop) (t : Z) (c : risc_context) : Prop :=
  object_ok t /\ forall p, p ∈ saved_regs h -> own (t + p.2).

(** What StackAllocate leaves at offset [d] of the object. *)
Definition new_word (h : Host) (im : Image) (m : Mem) (t stack func arg d : Z) : Z :=
  if d =? off_stackTop then stack_top h stack
  else if d =? off_machineState (startup_PC_state h) then InterruptEnable im
  else if d =? off_machineState (initial_PC_state h) then func
  else if d =? off_machineState (initial_Arg_state h) then arg
  else if d =? off_machineState (whenDone_PC_state h) then ThreadFinish im
  else word m (t + d).

Definition risc_fresh (h : Host) (im : Image) (m : Mem) (t stack func arg : Z) : risc_context :=
  (thread_root im, map (fun p => new_word h im m t stack func arg p.2) (kept h)).

Section Instance.
Context (h : Host) (H : HostOk h) (im : Image).

Lemma kept_saved p : p ∈ kept h -> p ∈ saved_regs h.
Proof. unfold saved_regs. rewrite elem_of_app. by left. Qed.

Lemma link_saved : (link h, PC_offset h) ∈ saved_regs h.
Proof. unfold saved_regs. rewrite elem_of_app. right. by apply list_elem_of_singleton. Qed.

Lemma saved_offset p : p ∈ saved_regs h -> offset_ok p.2.
Proof. intros Hp. destruct (ho_offsets h H) as [_ Ho]. rewrite Forall_forall in Ho. by apply Ho. Qed.

Lemma saved_reg p : p ∈ saved_regs h -> p.1 <> 0 /\ p.1 <> arg0 h /\ p.1 <> arg1 h.
Proof.
  intros Hp%(list_elem_of_fmap_2 fst). pose proof (ho_regs h H) as Hn.
  apply NoDup_cons in Hn as [N0 Hn]. apply NoDup_cons in Hn as [N1 Hn]. apply NoDup_cons in Hn as [N2 _].
  rewrite !elem_of_cons in N0, N1. rewrite !elem_of_cons in N0. splits; intros E; rewrite E in Hp; tauto.
Qed.

Lemma arg_regs : arg0 h <> 0 /\ arg1 h <> 0 /\ arg0 h <> arg1 h /\ link h <> 0 /\ link h <> arg0 h /\ link h <> arg1 h.
Proof.
  pose proof (ho_regs h H) as Hn. destruct (saved_reg _ link_saved) as (L0 & L1 & L2). cbn [fst] in *.
  apply NoDup_cons in Hn as [N0 Hn]. apply NoDup_cons in Hn as [N1 _].
  rewrite !elem_of_cons in N0, N1. rewrite !elem_of_cons in N0. splits; try done; intros E; rewrite E in *; tauto.
Qed.

Lemma risc_switch own1 own2 ra t1 t2 s c2 :
  (forall a, own1 a -> ~ own2 a) ->
  risc_holds h own1 t1 (ra, regs_of h s) -> risc_holds h own2 t2 c2 -> risc_suspended h (r_mem s) t2 c2 ->
  exists s', call_SWITCH_on h ra t1 t2 s = Some s' /\ (r_pc s', regs_of h s') = c2 /\
    risc_suspended h (r_mem s') t1 (ra, regs_of h s) /\
    forall a, ~ own1 a -> ~ own2 a -> word (r_mem s') a = word (r_mem s) a.
Proof.
  intros D [O1 W1] [O2 W2] [S1 S2]. destruct arg_regs as (A0 & A1 & A01 & L0 & L1 & L2).
  destruct (ho_text h H) as (l & Hl & E). destruct (ho_offsets h H) as [No Fo].
  pose proof (ho_regs h H) as Nr. do 3 apply NoDup_cons in Nr as [_ Nr].
  set (s0 := preg (link h) ra (preg (arg1 h) t2 (preg (arg0 h) t1 s))).
  assert (E0 : greg (arg0 h) s0 = t1) by (unfold s0; rewrite !greg_preg_ne, greg_preg by done; done).
  assert (E1 : greg (arg1 h) s0 = t2) by (unfold s0; rewrite greg_preg_ne, greg_preg by done; done).
  assert (Ek : forall p, p ∈ saved_regs h -> p.1 <> link h -> greg p.1 s0 = greg p.1 s).
  { intros p Hp Hpl. destruct (saved_reg p Hp) as (_ & P1 & P2). unfold s0. by rewrite !greg_preg_ne. }
  assert (Kl : forall p, p ∈ kept h -> p.1 <> link h).
  { intros p Hp Epl. unfold saved_regs in Nr. rewrite fmap_app in Nr. apply NoDup_app in Nr as (_ & Nd & _).
    apply (Nd p.1); [by apply list_elem_of_fmap_2|]. rewrite Epl. cbn. by left. }
  set (s1 := pmem (save_words t1 (fun r => greg r s0) (saved_regs h) (r_mem s0)) s0).
  assert (Hin : forall p, p ∈ saved_regs h -> word (r_mem s1) (t1 + p.2) = greg p.1 s0).
  { intros [r d] Hp. unfold s1. cbn [r_mem pmem]. by apply (save_words_in t1 (fun r => greg r s0) (saved_regs h) r d). }
  assert (Hout : forall a, ~ own1 a -> word (r_mem s1) a = word (r_mem s) a).
  { intros a Ha. unfold s1. cbn [r_mem pmem]. rewrite save_words_out; [done|].
    intros p Hp ->. by apply Ha, W1. }
  assert (E2 : call_SWITCH_on h ra t1 t2 s =
    Some (goto (greg (link h) (load_regs t2 l s1)) (load_regs t2 l s1))).
  { unfold call_SWITCH_on. fold s0. rewrite E, run_stores by (rewrite ?E0; done).
    rewrite E0. fold s1. rewrite run_loads.
    - by rewrite (E1 : greg (arg1 h) s1 = t2).
    - by rewrite (E1 : greg (arg1 h) s1 = t2).
    - by rewrite Hl.
    - rewrite Hl. intros Ha%list_elem_of_fmap_1. destruct Ha as (p & Ep & Hp).
      destruct (saved_reg p Hp) as (_ & _ & P2). by apply P2. }
  assert (Hld : forall p, p ∈ saved_regs h -> greg p.1 (load_regs t2 l s1) = word (r_mem s) (t2 + p.2)).
  { intros [r d] Hp. rewrite (load_regs_in t2 l r d); [|by rewrite Hl| |by rewrite Hl].
    - apply Hout. intros Ho. apply (D _ Ho), (W2 _ Hp).
    - by apply (saved_reg (r, d)). }
  eexists. split; [exact E2|]. split; [|split].
  - destruct c2 as [p2 v2]. cbn [fst snd r_pc goto] in *. f_equal.
    + pose proof (Hld _ link_saved) as El. cbn [fst snd] in El. by rewrite El.
    + rewrite <- S2. unfold regs_of. apply map_ext_in. intros p Hp%list_elem_of_In.
      change (greg p.1 (load_regs t2 l s1) = word (r_mem s) (t2 + p.2)). by apply Hld, kept_saved.
  - unfold risc_suspended. cbn [r_mem goto fst snd]. rewrite load_regs_mem. split.
    + pose proof (Hin _ link_saved) as El. cbn [fst snd] in El. rewrite El. by apply greg_preg.
    + apply map_ext_in. intros p Hp%list_elem_of_In. rewrite Hin by by apply kept_saved.
      apply Ek; [by apply kept_saved|by apply Kl].
  - intros a Ha1 Ha2. cbn [r_mem goto]. rewrite load_regs_mem. by apply Hout.
Qed.

Lemma risc_frame own m m' t c :
  risc_holds h own t c -> (forall a, own a -> word m' a = word m a) ->
  risc_suspended h m t c -> risc_suspended h m' t c.
Proof.
  intros [_ W] Hm [S1 S2]. split.
  - by rewrite Hm by apply (W _ link_saved).
  - rewrite <- S2. apply map_ext_in. intros p Hp%list_elem_of_In. by apply Hm, W, kept_saved.
Qed.

(** The words of the object that StackAllocate sets. *)
Lemma state_offsets :
  offset_ok (off_machineState (PC_state h)) /\ offset_ok (off_machineState (startup_PC_state h)) /\
  offset_ok (off_machineState (initial_PC_state h)) /\ offset_ok (off_machineState (initial_Arg_state h)) /\
  offset_ok (off_machineState (whenDone_PC_state h)).
Proof.
  pose proof (ho_initial h H) as I. destruct (ho_states h H) as [_ E].
  split; [rewrite E; apply (saved_offset _ link_saved)|].
  splits; match goal with |- offset_ok ?d => 
    match type of I with context [(?r, d)] => apply (saved_offset (r, d)) end end;
    apply kept_saved, I; rewrite !elem_of_cons; tauto.
Qed.

Lemma room_object own t stack d : i386_room own t stack -> offset_ok d -> own (t + d).
Proof.
  intros R [D M]. replace d with (4 * (d / 4)) by (pose proof (Z.div_mod d 4); lia).
  apply (ir_own _ _ _ R). pose proof (Z.div_mod d 4). lia.
Qed.

Lemma room_fence own t stack : i386_room own t stack ->
  own (fence h stack) /\ (fence h stack < t \/ t + 100 <= fence h stack).
Proof.
  intros [O1 O2 O3 O4 O5]. unfold fence, StackSize in *. destruct (grows_up h).
  - split; [apply (O5 4095); lia|lia].
  - split; [|lia]. pose proof (O5 0) as O6. rewrite Z.add_0_r in O6. apply O6. lia.
Qed.

Lemma StackAllocate_word own t stack func arg m d :
  i386_room own t stack -> offset_ok d ->
  word (StackAllocate_on h im t stack func arg m) (t + d) =
  if d =? PC_offset h then thread_root im else new_word h im m t stack func arg d.
Proof.
  intros R [D _]. destruct (room_fence own t stack R) as [_ F].
  destruct (ho_states h H) as [N <-]. rewrite !NoDup_cons, !not_elem_of_cons in N.
  destruct N as ((N1 & N2 & N3 & N4 & N5 & _) & (N6 & N7 & N8 & N9 & _) & (N10 & N11 & N12 & _) &
    (N13 & N14 & _) & (N15 & _) & _).
  unfold StackAllocate_on, set_machineState, new_word. change off_stackTop with 0.
  change off_stack with 96.
  set (o1 := off_machineState (PC_state h)) in *. set (o2 := off_machineState (startup_PC_state h)) in *.
  set (o3 := off_machineState (initial_PC_state h)) in *. set (o4 := off_machineState (initial_Arg_state h)) in *.
  set (o5 := off_machineState (whenDone_PC_state h)) in *.
  clearbody o1 o2 o3 o4 o5. clear H R.
  repeat match goal with
  | |- context [?x =? ?x] => rewrite Z.eqb_refl
  | Hx : ?x <> ?y |- context [?x =? ?y] => rewrite (proj2 (Z.eqb_neq x y) Hx)
  | Hx : ?y <> ?x |- context [?x =? ?y] => rewrite (proj2 (Z.eqb_neq x y) (not_eq_sym Hx))
  | |- context [?x =? ?y] => destruct (decide (x = y)); [subst x|]
  end;
  repeat first [rewrite word_insert
    |rewrite word_insert_ne by first [intros E%Z.add_cancel_l; congruence|clear - D F; lia]]; reflexivity.
Qed.

Lemma risc_prepare own t stack func arg m :
  i386_room own t stack ->
  risc_suspended h (StackAllocate_on h im t stack func arg m) t (risc_fresh h im m t stack func arg) /\
  risc_holds h own t (risc_fresh h im m t stack func arg) /\
  forall a, ~ own a -> word (StackAllocate_on h im t stack func arg m) a = word m a.
Proof.
  intros R. pose proof (ho_offsets h H) as [No _].
  assert (Hpc : offset_ok (PC_offset h)) by apply (saved_offset _ link_saved).
  split; [|split].
  - split; cbn [fst snd risc_fresh].
    + rewrite (StackAllocate_word own) by done. by rewrite Z.eqb_refl.
    + apply map_ext_in. intros p Hp%list_elem_of_In.
      rewrite (StackAllocate_word own) by (done || by apply saved_offset, kept_saved).
      destruct (Z.eqb_spec p.2 (PC_offset h)) as [E|]; [|done].
      unfold saved_regs in No. rewrite fmap_app in No. apply NoDup_app in No as (_ & Nd & _).
      destruct (Nd p.2); [by apply list_elem_of_fmap_2|]. rewrite E. cbn. by left.
  - split; [|intros p Hp; apply (room_object _ _ stack); [done|by apply saved_offset]].
    split; apply (ir_object _ _ _ R).
  - intros a Ha. destruct (room_fence own t stack R) as [F _].
    destruct state_offsets as (F1 & F2 & F3 & F4 & F5).
    assert (Hs : own (t + off_stack)) by apply (ir_own _ _ _ R 24 ltac:(lia)).
    assert (Ht : own (t + off_stackTop)) by apply (ir_own _ _ _ R 0 ltac:(lia)).
    pose proof (fun d => room_object own t stack d R) as Ho.
    unfold StackAllocate_on, set_machineState.
    rewrite !word_insert_ne; [done|intros ->; apply Ha; auto ..].
Qed.

(** ** The interface *)

Definition Risc_switcher : Switcher Risc risc_context := {|
  memory := r_mem;
  set_memory := pmem;
  seen s := (r_pc s, regs_of h s);
  here ra s := (ra, regs_of h s);
  switch := call_SWITCH_on h;
  suspended := risc_suspended h;
  holds := risc_holds h;
  scratch _ := False;
  prepare := StackAllocate_on h im;
  fresh := risc_fresh h im;
  room := i386_room |}.

Lemma Risc_laws : @SwitcherLaws Risc risc_context Risc_switcher.
Proof.
  constructor; cbn.
  - by intros m [].
  - intros own1 own2 ra t1 t2 s c2 D _ H1 H2 Su.
    destruct (risc_switch own1 own2 ra t1 t2 s c2) as (s' & E & E2 & E3 & E4); try done.
    exists s'. splits; auto.
  - apply risc_frame.
  - apply risc_prepare.
Qed.
End Instance.

(** ** Both hosts satisfy it *)

(** A call of a function that returns. *)
Lemma rcall_run h callee f s :
  preserves h callee f -> exists s', rcall (arg0 h) callee f s = Some s' /\
    (forall p, p ∈ kept h -> greg p.1 s' = greg p.1 s) /\
    r_calls s' = (f, greg (arg0 h) s) :: r_calls s.
Proof.
  intros H. destruct (H (goto f s)) as (s' & E & K). unfold rcall. rewrite E.
  eexists. split; [reflexivity|]. split; [|done]. intros p Hp. exact (K p Hp).
Qed.

Lemma rrun_Jal a l after callee r rest s s' :
  rcall a callee (greg r s) (preg l (after rest) s) = Some s' ->
  rrun a l after callee (Jal r :: rest) s = rrun a l after callee rest s'.
Proof. intros E. cbn [rrun]. by rewrite E. Qed.

Lemma rrun_Ble a l after callee r i rest s s0 s' :
  exec i (preg 31 (after rest) s) = Some s0 -> rcall a callee (greg r s) s0 = Some s' ->
  rrun a l after callee (Ble r :: i :: rest) s = rrun a l after callee rest s'.
Proof. intros E0 E. cbn [rrun]. rewrite E0. cbn [mbind option_bind]. by rewrite E. Qed.

(** What [K] says of a kept register, through changes of other registers. *)
Ltac kept_reg K p :=
  let E := fresh "R" in
  pose proof (K p ltac:(apply (bool_decide_eq_true_1 (p ∈ _)); reflexivity)) as E; cbn [fst] in E;
  rewrite ?greg_preg_ne in E by done.

Lemma mips_root : runs_root Mips.host.
Proof.
  intros after callee s H1 H2.
  destruct (rcall_run Mips.host callee (greg Mips.s3 s)
    (preg Mips.ra (after (drop 2 Mips.ThreadRoot)) (preg Mips.fp (greg Mips.z s) s)) H1) as (s1 & E1 & K1 & C1).
  kept_reg K1 (Mips.s0, Mips.S0). kept_reg K1 (Mips.s1, Mips.S1). kept_reg K1 (Mips.s2, Mips.S2).
  destruct (rcall_run Mips.host callee (greg Mips.s0 s) (preg Mips.ra (after (drop 4 Mips.ThreadRoot))
    (preg Mips.a0 (greg Mips.s1 s1) s1)) H2) as (s3 & E3 & K3 & C3).
  kept_reg K3 (Mips.s2, Mips.S2).
  exists (preg Mips.ra (after []) s3). eexists. split.
  - etransitivity; [exact (rrun_Jal (arg0 Mips.host) (link Mips.host) after callee Mips.StartupPC
      (drop 2 Mips.ThreadRoot) (preg Mips.fp (greg Mips.z s) s) s1 E1)|].
    rewrite <- R in E3. etransitivity; [exact (rrun_Jal (arg0 Mips.host) (link Mips.host) after callee
      Mips.InitialPC (drop 4 Mips.ThreadRoot) (preg Mips.a0 (greg Mips.s1 s1) s1) s3 E3)|].
    change (greg (whenDone_PC Mips.host) s) with (greg Mips.s2 s). rewrite <- R1, <- R2. reflexivity.
  - cbn [r_calls preg] in C1, C3 |- *. rewrite C3, C1. 
    f_equal. f_equal. exact R0.
Qed.

(** The state behind the delay slots of ThreadRoot. *)
Definition in_slot (v : Z) (s : Risc) : Risc :=
  preg Snake.rp (greg Snake.r31 (preg 31 v s)) (preg 31 v s).

Lemma snake_root : runs_root Snake.host.
Proof.
  intros after callee s H1 H2. set (T := Snake.ThreadRoot).
  destruct (rcall_run Snake.host callee (greg Snake.r6 s) (in_slot (after (drop 2 T)) s) H1)
    as (s1 & E1 & K1 & C1). unfold in_slot in K1.
  kept_reg K1 (Snake.r3, Snake.S0). kept_reg K1 (Snake.r4, Snake.S1). kept_reg K1 (Snake.r5, Snake.S2).
  set (s2 := preg Snake.arg0 (greg Snake.r4 s1) s1).
  destruct (rcall_run Snake.host callee (greg Snake.r3 s) (in_slot (after (drop 5 T)) s2) H2)
    as (s3 & E3 & K3 & C3). unfold in_slot, s2 in K3. kept_reg K3 (Snake.r5, Snake.S2).
  exists (in_slot (after []) s3). eexists. split.
  - etransitivity; [exact (rrun_Ble (arg0 Snake.host) (link Snake.host) after callee Snake.r6
      (Move Snake.rp Snake.r31) (drop 2 T) s _ s1 eq_refl E1)|].
    rewrite <- R in E3. etransitivity; [exact (rrun_Ble (arg0 Snake.host) (link Snake.host) after callee
      Snake.r3 (Move Snake.rp Snake.r31) (drop 5 T) s2 _ s3 eq_refl E3)|].
    change (greg (whenDone_PC Snake.host) s) with (greg Snake.r5 s). rewrite <- R1, <- R2. reflexivity.
  - etransitivity; [exact C3|]. f_equal; [f_equal; exact R0|exact C1].
Qed.

(** Straight-line code in front of two texts that do the same. *)
Definition straight (i : rinstr) : bool :=
  match i with Stw _ _ _ | Ldw _ _ _ | Move _ _ => true | _ => false end.

Lemma rrun_app a l after callee code r1 r2 : Forall straight code ->
  (forall s, rrun a l after callee r1 s = rrun a l after callee r2 s) ->
  forall s, rrun a l after callee (code ++ r1) s = rrun a l after callee (code ++ r2) s.
Proof.
  intros Hc Hr. induction Hc as [|i code Hi _ IH]; intros s; [apply Hr|].
  destruct i; try done; cbn [app rrun]; destruct (exec _ s); cbn [mbind option_bind]; auto.
Qed.

(** The last register is loaded in the delay slot of the return. *)
Lemma snake_text after callee s :
  let l := take 16 (kept Snake.host) ++ [(Snake.rp, Snake.PC); (Snake.r18, Snake.S15)] in
  rrun (arg0 Snake.host) (link Snake.host) after callee Snake.SWITCH s =
  rrun (arg0 Snake.host) (link Snake.host) after callee
    (stores (saved_regs Snake.host) Snake.arg0 ++ loads l Snake.arg1 ++ [Jr Snake.rp]) s.
Proof.
  apply (rrun_app _ _ _ _ (take 35 Snake.SWITCH) (drop 35 Snake.SWITCH)
    [Ldw Snake.r18 Snake.S15 Snake.arg1; Jr Snake.rp]); [by repeat constructor|].
  clear s. intros s. cbn [drop Snake.SWITCH rrun exec]. destruct (load_word _ _); [|done]. 
  cbn [mbind option_bind]. by rewrite greg_preg_ne.
Qed.

(** The rest of [HostOk] is finite. *)
Ltac decided := match goal with |- ?P => apply (bool_decide_eq_true_1 P); reflexivity end.
Ltac host_facts :=
  first [decided | split; decided | apply Forall_forall; repeat constructor; decided].

Lemma mips_ok : HostOk Mips.host.
Proof.
  constructor; [|host_facts..|apply mips_root].
  by exists (saved_regs Mips.host).
Qed.

Lemma snake_ok : HostOk Snake.host.
Proof.
  constructor; [|host_facts..|apply snake_root].
  eexists. split; [|exact snake_text]. decided.
Qed.

(** The fence post of a stack that StackAllocate has made. *)
Lemma CheckOverflow_on_spec h im own t stack func arg m m' :
  HostOk h -> i386_room own t stack -> stack <> 0 ->
  (forall a, own a -> word m' a = word (StackAllocate_on h im t stack func arg m) a) ->
  CheckOverflow_on h t m' = Ok tt.
Proof.
  intros H R Hs Hm. destruct (room_fence h own t stack R) as [F1 F2].
  assert (Hst : own (t + 96)) by apply (ir_own _ _ _ R 24 ltac:(lia)).
  destruct (state_offsets h H) as (O1 & O2 & O3 & O4 & O5). unfold offset_ok in *.
  unfold CheckOverflow_on. change off_stack with 96. rewrite (Hm _ Hst).
  assert (E : word (StackAllocate_on h im t stack func arg m) (t + 96) = stack).
  { unfold StackAllocate_on, set_machineState. change off_stackTop with 0. change off_stack with 96.
    by repeat first [rewrite word_insert|rewrite word_insert_ne by lia]. }
  rewrite E, (Hm _ F1). destruct (Z.eqb_spec stack 0); [done|]. cbn [negb].
  assert (E2 : word (StackAllocate_on h im t stack func arg m) (fence h stack) = STACK_FENCEPOST).
  { unfold StackAllocate_on, set_machineState. change off_stackTop with 0. change off_stack with 96.
    by repeat first [rewrite word_insert|rewrite word_insert_ne by lia]. }
  by rewrite E2, Z.eqb_refl.
Qed.

(** The registers of a thread that has never run. *)
Lemma new_registers h im m t stack func arg s : HostOk h ->
  regs_of h s = (risc_fresh h im m t stack func arg).2 ->
  greg (startup_PC h) s = InterruptEnable im /\ greg (initial_PC h) s = func /\
  greg (initial_Arg h) s = arg /\ greg (whenDone_PC h) s = ThreadFinish im.
Proof.
  intros H E.
  assert (HI : forall p, p ∈ [(startup_PC h, off_machineState (startup_PC_state h));
      (initial_PC h, off_machineState (initial_PC_state h));
      (initial_Arg h, off_machineState (initial_Arg_state h));
      (whenDone_PC h, off_machineState (whenDone_PC_state h))] ->
    greg p.1 s = new_word h im m t stack func arg p.2).
  { intros p Hp%(ho_initial h H)%list_elem_of_In. exact (ext_in_map E p Hp). }
  apply Forall_forall in HI. rewrite !Forall_cons in HI. cbn [fst snd] in HI.
  destruct HI as (-> & -> & -> & -> & _).
  destruct (ho_states h H) as [N _]. rewrite !NoDup_cons, !not_elem_of_cons in N.
  unfold new_word. change off_stackTop with 0.
  destruct_and? N. splits; repeat case_match; rewrite ?Z.eqb_eq, ?Z.eqb_neq in *; congruence.
Qed.

(** C15: Threads are coroutines on the MIPS and on the HP, too.  Whatever any
    number of threads have computed, forked and switched, from a kernel with
    one thread on: the running thread can switch to any other one, which
    continues with exactly the program counter, stack pointer and registers
    that it had when it called [SWITCH]; one that has never run is in
    ThreadRoot, which calls InterruptEnable, then the forked function with the
    argument given to Fork, and then ThreadFinish, provided that the first two
    preserve the registers that functions preserve and return. *)
Theorem other_hosts_coroutines h im own main n0 s ra t c :
  h = Mips.host \/ h = Snake.host ->
  (forall t1 t2 a, t1 <> t2 -> own t1 a -> ~ own t2 a) ->
  rtc (co_step (H := Risc_switcher h im) own) (mkSys main n0 ∅) s -> saved s !! t = Some c ->
  risc_holds h (own (cur s)) (cur s) (ra, regs_of h (cpu s)) ->
  exists s', call_SWITCH_on h ra (cur s) t (cpu s) = Some s' /\ (r_pc s', regs_of h s') = c /\
    co_step (H := Risc_switcher h im) own s
      (mkSys t s' (<[cur s := (ra, regs_of h (cpu s))]> (delete t (saved s)))) /\
    forall m stack func arg after callee, c = risc_fresh h im m t stack func arg ->
      preserves h callee (InterruptEnable im) -> preserves h callee func ->
      exists s1 x, r_pc s' = thread_root im /\
        rrun (arg0 h) (link h) after callee (root h) s' =
          (s2 ← rcall (arg0 h) callee (ThreadFinish im) s1; None) /\
        r_calls s1 = (func, arg) :: (InterruptEnable im, x) :: r_calls s'.
Proof.
  intros Hh D R Ht Hc.
  assert (H : HostOk h) by (destruct Hh as [->| ->]; [apply mips_ok|apply snake_ok]).
  destruct (coroutines (SW := Risc_laws h H im) own D ltac:(done) main n0 s ra t c R Ht Hc)
    as (s' & E & Es & St).
  exists s'. split; [exact E|]. split; [exact Es|]. split; [exact St|].
  intros m stack func arg after callee -> P1 P2. cbn in Es. injection Es as Epc Er.
  assert (HR : forall p, p ∈ kept h -> greg p.1 s' = new_word h im m t stack func arg p.2).
  { intros p Hp%list_elem_of_In. exact (ext_in_map Er p Hp). }
  destruct (new_registers h im m t stack func arg s' H Er) as (B1 & B2 & B3 & B4).
  rewrite <- B1 in P1. rewrite <- B2 in P2.
  destruct (ho_root h H after callee s' P1 P2) as (s1 & x & E1 & E2).
  rewrite B1, B2, B3, B4 in *. by exists s1, x.
Qed.

(** ** Two threads on the HP *)

Definition demo_risc : Risc := mkRisc 0 (fun r => r) ∅ [].
Definition demo_new : Risc :=
  pmem (StackAllocate_on Snake.host demo_image 2000 8192 112 9 ∅) demo_risc.

Lemma demo_risc_holds : risc_holds Snake.host (demo_own 1000) 1000 (7, regs_of Snake.host demo_new).
Proof.
  split; [by split|]. intros p Hp. left. split; [done|].
  assert (0 <= p.2 <= 72) by (apply (saved_offset Snake.host snake_ok), Hp). lia.
Qed.

Lemma demo_preserves f : preserves Snake.host (fun _ => Some) f.
Proof. intros s. by exists s. Qed.

Lemma other_hosts_coroutines_witness :
  exists s' s1 x, call_SWITCH_on Snake.host 7 1000 2000 demo_new = Some s' /\
    r_pc s' = 100 /\ greg Snake.sp s' = 8256 /\
    rrun Snake.arg0 Snake.rp (fun _ => 0) (fun _ => Some) Snake.ThreadRoot s' =
      (s2 ← rcall Snake.arg0 (fun _ => Some) 108 s1; None) /\
    r_calls s1 = (112, 9) :: (104, x) :: r_calls s'.
Proof.
  set (c := risc_fresh Snake.host demo_image ∅ 2000 8192 112 9).
  destruct (other_hosts_coroutines Snake.host demo_image demo_own 1000 demo_risc
    (mkSys 1000 demo_new (<[2000 := c]> ∅)) 7 2000 c) as (s' & E & Hs & _ & HR).
  - by right.
  - unfold demo_own. lia.
  - apply rtc_once. apply (@Forks Risc risc_context (Risc_switcher Snake.host demo_image) demo_own
      (mkSys 1000 demo_risc ∅) 2000 8192 112 9); [done|apply lookup_empty|exact demo_room].
  - apply lookup_insert_eq.
  - exact demo_risc_holds.
  - destruct (HR ∅ 8192 112 9 (fun _ => 0) (fun _ => Some)) as (s1 & x & E1 & E2 & E3);
      [reflexivity|apply demo_preserves..|].
    exists s', s1, x. split; [exact E|]. split; [exact E1|]. split; [|split; [exact E2|exact E3]].
    apply (f_equal (fun c => hd 0 c.2)) in Hs. exact Hs.
Defined.
