(* ===== verification/Threads.v ===== *)
(** * threads/: threads, the scheduler and the synchronisation primitives

    thread.cc, scheduler.cc and synch.cc as a transition system.  The kernel
    runs on one processor and a routine that has disabled interrupts runs to
    its end or to its own call of Sleep, so that the atomic steps are: one
    routine of the current thread up to the point where it gives up the
    processor or enables interrupts again; a time slice ([Yield] out of a timer
    interrupt) and a device interrupt whose handler calls [V], both only with
    interrupts enabled; and, with nothing to run, the return of the idle loop
    when an interrupt has made a thread ready.  What a thread still has to do is
    the list [prog] of calls.  Stacks, SWITCH and the saved registers are the
    subject of Switch.v and UserThread.v; the lists behave as LinkedList.v shows. *)
From S2P Require Import Prelude.
From Stdlib Require Import ZArith Lia List Bool.
From stdpp Require Import base tactics list numbers functions gmap.
Local Open Scope Z_scope.

(** ** Data *)

Inductive ThreadStatus := JUST_CREATED | RUNNING | READY | BLOCKED.

#[global] Instance ThreadStatus_eq_dec : EqDecision ThreadStatus.
Proof. solve_decision. Defined.

(** Semaphores: those of the program and of the devices, and the one inside
    each lock. *)
Inductive sid := SUser (n : nat) | SLock (l : nat).

#[global] Instance sid_eq_dec : EqDecision sid.
Proof. solve_decision. Defined.

(** Queues of sleeping threads. *)
Inductive qid := QSem (s : sid) | QCond (c : nat).

#[global] Instance qid_eq_dec : EqDecision qid.
Proof. solve_decision. Defined.

(** The calls a thread makes.  The flag of [CP] and [CHold] says that
    interrupts are off when the thread gets there.  [CHold] is the second half
    of [Lock::Acquire], the assignment to [heldthread]. *)
Inductive cmd :=
| CP (s : sid) (off : bool)
| CV (s : sid)
| CHold (l : nat) (off : bool)
| CRelease (l : nat)
| CWait (c l : nat)
| CSignal (c : nat)
| CBroadcast (c : nat)
| CYield
| CFork (body : list cmd).

(** [Lock::Acquire]. *)
Definition Acquire (l : nat) : list cmd := [CP (SLock l) false; CHold l false].

(** Threads are numbered in the order of their creation.  [idle]: the current
    thread is in the loop of [Sleep] that waits for an interrupt.  [started]:
    the thread has run before, so that it continues inside [Scheduler::Run]. *)
Record Kern := mkKern {
  current : nat;
  idle : bool;
  readyList : list nat;
  status : nat -> ThreadStatus;
  prog : nat -> list cmd;
  started : nat -> bool;
  GlobalThreadList : list (option nat);
  threadToBeDestroyed : option nat;
  created : nat;
  value : sid -> Z;
  queue : qid -> list nat;
  heldthread : nat -> option nat }.

Definition MAXTHREADNUM : nat := 128.

Definition set_current v k := mkKern v (idle k) (readyList k) (status k) (prog k) (started k)
  (GlobalThreadList k) (threadToBeDestroyed k) (created k) (value k) (queue k) (heldthread k).
Definition set_idle v k := mkKern (current k) v (readyList k) (status k) (prog k) (started k)
  (GlobalThreadList k) (threadToBeDestroyed k) (created k) (value k) (queue k) (heldthread k).
Definition set_readyList v k := mkKern (current k) (idle k) v (status k) (prog k) (started k)
  (GlobalThreadList k) (threadToBeDestroyed k) (created k) (value k) (queue k) (heldthread k).
Definition setStatus t v k := mkKern (current k) (idle k) (readyList k) (<[t := v]> (status k))
  (prog k) (started k) (GlobalThreadList k) (threadToBeDestroyed k) (created k) (value k) (queue k)
  (heldthread k).
Definition set_prog t v k := mkKern (current k) (idle k) (readyList k) (status k)
  (<[t := v]> (prog k)) (started k) (GlobalThreadList k) (threadToBeDestroyed k) (created k)
  (value k) (queue k) (heldthread k).
Definition set_started t k := mkKern (current k) (idle k) (readyList k) (status k) (prog k)
  (<[t := true]> (started k)) (GlobalThreadList k) (threadToBeDestroyed k) (created k) (value k)
  (queue k) (heldthread k).
Definition set_GlobalThreadList v k := mkKern (current k) (idle k) (readyList k) (status k) (prog k)
  (started k) v (threadToBeDestroyed k) (created k) (value k) (queue k) (heldthread k).
Definition set_threadToBeDestroyed v k := mkKern (current k) (idle k) (readyList k) (status k)
  (prog k) (started k) (GlobalThreadList k) v (created k) (value k) (queue k) (heldthread k).
Definition set_created v k := mkKern (current k) (idle k) (readyList k) (status k) (prog k)
  (started k) (GlobalThreadList k) (threadToBeDestroyed k) v (value k) (queue k) (heldthread k).
Definition set_value s v k := mkKern (current k) (idle k) (readyList k) (status k) (prog k)
  (started k) (GlobalThreadList k) (threadToBeDestroyed k) (created k) (<[s := v]> (value k))
  (queue k) (heldthread k).
Definition set_queue q v k := mkKern (current k) (idle k) (readyList k) (status k) (prog k)
  (started k) (GlobalThreadList k) (threadToBeDestroyed k) (created k) (value k)
  (<[q := v]> (queue k)) (heldthread k).
Definition set_heldthread l v k := mkKern (current k) (idle k) (readyList k) (status k) (prog k)
  (started k) (GlobalThreadList k) (threadToBeDestroyed k) (created k) (value k) (queue k)
  (<[l := v]> (heldthread k)).

(** ** scheduler.cc *)

(** [AddNewThreadtoList] and [RemoveThreadFromList]: the first free slot, the
    first slot that holds the thread.  The slot is the pid. *)
Fixpoint AddNewThreadtoList (l : list (option nat)) (t : nat) : list (option nat) * option nat :=
  match l with
  | [] => ([], None)
  | None :: l' => (Some t :: l', Some 0%nat)
  | Some u :: l' => let r := AddNewThreadtoList l' t in (Some u :: r.1, S <$> r.2)
  end.

Fixpoint RemoveThreadFromList (l : list (option nat)) (t : nat) : list (option nat) :=
  match l with
  | [] => []
  | x :: l' => if bool_decide (x = Some t) then None :: l' else x :: RemoveThreadFromList l' t
  end.

Definition ReadyToRun (t : nat) (k : Kern) : Kern :=
  setStatus t READY (set_readyList (readyList k ++ [t]) k).

(** [delete threadToBeDestroyed]. *)
Definition destroy (k : Kern) : outcome Kern :=
  match threadToBeDestroyed k with
  | None => Ok k
  | Some d =>
    let k := set_GlobalThreadList (RemoveThreadFromList (GlobalThreadList k) d) k in
    _ ← ASSERT_ (negb (bool_decide (d = current k)));
    Ok (set_threadToBeDestroyed None k)
  end.

(** [Scheduler::Run]: what follows SWITCH happens in the new thread, and only
    if it had been switched out before; a new thread begins in [ThreadRoot]. *)
Definition Run (next : nat) (k : Kern) : outcome Kern :=
  let k := setStatus next RUNNING (set_current next k) in
  if started k next then destroy k else Ok (set_started next k).

(** ** thread.cc *)

(** [Thread::Sleep], up to the idle loop. *)
Definition Sleep (k : Kern) : outcome Kern :=
  let k := setStatus (current k) BLOCKED k in
  match readyList k with
  | [] => Ok (set_idle true k)
  | next :: rest => Run next (set_readyList rest k)
  end.

Definition Yield (k : Kern) : outcome Kern :=
  match readyList k with
  | [] => Ok k
  | next :: rest => Run next (ReadyToRun (current k) (set_readyList rest k))
  end.

Definition Finish (k : Kern) : outcome Kern :=
  Sleep (set_threadToBeDestroyed (Some (current k)) k).

(** [new Thread] followed by [Fork]. *)
Definition Fork (body : list cmd) (k : Kern) : Kern :=
  let t := created k in
  let k := setStatus t JUST_CREATED (set_created (S t) k) in
  let k := set_GlobalThreadList (AddNewThreadtoList (GlobalThreadList k) t).1 k in
  ReadyToRun t (set_prog t body k).

(** ** synch.cc *)

Definition V (s : sid) (k : Kern) : Kern :=
  let k := match queue k (QSem s) with
           | [] => k
           | t :: rest => ReadyToRun t (set_queue (QSem s) rest k)
           end in
  set_value s (value k s + 1) k.

(** One round of the loop of [P]: a thread that has to wait comes back to the
    test with interrupts off. *)
Definition P (s : sid) (rest : list cmd) (k : Kern) : outcome Kern :=
  let t := current k in
  if value k s =? 0 then
    Sleep (set_prog t (CP s true :: rest) (set_queue (QSem s) (queue k (QSem s) ++ [t]) k))
  else Ok (set_prog t rest (set_value s (value k s - 1) k)).

Definition isHeldByCurrentThread (l : nat) (k : Kern) : bool :=
  bool_decide (heldthread k l = Some (current k)).

Definition Release (l : nat) (k : Kern) : Kern :=
  if isHeldByCurrentThread l k then V (SLock l) (set_heldthread l None k) else k.

(** [Condition::Wait] up to [Sleep]; afterwards it acquires the lock with
    interrupts off. *)
Definition Wait (c l : nat) (rest : list cmd) (k : Kern) : outcome Kern :=
  let t := current k in
  let k := Release l k in
  let k := set_queue (QCond c) (queue k (QCond c) ++ [t]) k in
  Sleep (set_prog t (CP (SLock l) true :: CHold l true :: rest) k).

Definition Signal (c : nat) (k : Kern) : Kern :=
  match queue k (QCond c) with
  | [] => k
  | t :: rest => ReadyToRun t (set_queue (QCond c) rest k)
  end.

(** [Broadcast]: as many rounds as there are threads in the queue. *)
Definition Broadcast (c : nat) (k : Kern) : Kern :=
  Nat.iter (length (queue k (QCond c))) (Signal c) k.

(** ** Steps *)

(** The next call of the current thread. *)
Definition exec (k : Kern) : outcome Kern :=
  let t := current k in
  match prog k t with
  | [] => Finish k
  | CP s _ :: rest => P s rest k
  | CV s :: rest => Ok (V s (set_prog t rest k))
  | CHold l _ :: rest => Ok (set_heldthread l (Some t) (set_prog t rest k))
  | CRelease l :: rest => Ok (Release l (set_prog t rest k))
  | CWait c l :: rest => Wait c l rest k
  | CSignal c :: rest => Ok (Signal c (set_prog t rest k))
  | CBroadcast c :: rest => Ok (Broadcast c (set_prog t rest k))
  | CYield :: rest => Yield (set_prog t rest k)
  | CFork body :: rest => Ok (Fork body (set_prog t rest k))
  end.

(** The current thread runs with interrupts enabled. *)
Definition interruptible (k : Kern) : bool :=
  negb (idle k) &&
  match prog k (current k) with
  | CP _ true :: _ | CHold _ true :: _ => false
  | _ => true
  end.

(** The idle loop of [Sleep] finds a thread. *)
Definition dispatch (k : Kern) : outcome Kern :=
  match readyList k with
  | [] => Ok k
  | next :: rest => Run next (set_readyList rest (set_idle false k))
  end.

Inductive step : Kern -> Kern -> Prop :=
| step_exec k k' : idle k = false -> exec k = Ok k' -> step k k'
| step_slice k k' : interruptible k = true -> Yield k = Ok k' -> step k k'
| step_interrupt k n : interruptible k || idle k = true -> step k (V (SUser n) k)
| step_dispatch k k' : idle k = true -> dispatch k = Ok k' -> step k k'.

(** The kernel after start-up: the main thread is running. *)
Definition boot (main : list cmd) (v : nat -> Z) : Kern :=
  mkKern 0 false [] (fun t => if Nat.eqb t 0 then RUNNING else JUST_CREATED)
    (fun t => if Nat.eqb t 0 then main else [])
    (fun t => Nat.eqb t 0)
    (AddNewThreadtoList (replicate MAXTHREADNUM None) 0).1 None 1
    (fun s => match s with SUser n => v n | SLock _ => 1 end)
    (fun _ => []) (fun _ => None).

(** ** The scheduling invariant *)

(** What holds of ready and sleeping threads, whoever is running. *)
Record pool (k : Kern) : Prop := {
  p_nodup : NoDup (readyList k);
  p_ready : forall t, t ∈ readyList k <-> status k t = READY;
  p_fresh : forall t, (created k <= t)%nat -> status k t = JUST_CREATED;
  p_qnodup : forall q, NoDup (queue k q);
  p_queue : forall q t, t ∈ queue k q -> status k t = BLOCKED;
  p_disj : forall q q' t, t ∈ queue k q -> t ∈ queue k q' -> q = q';
  p_head : forall s t, t ∈ queue k (QSem s) -> exists rest, prog k t = CP s true :: rest;
  p_dead : forall d, threadToBeDestroyed k = Some d ->
             status k d = BLOCKED /\ forall q, d ∉ queue k q;
  p_live : forall t, (t < created k)%nat -> status k t <> JUST_CREATED }.

(** The current thread is the one that runs; in the idle loop nobody does. *)
Record good (k : Kern) : Prop := {
  g_pool : pool k;
  g_running : forall t, status k t = RUNNING <-> t = current k /\ idle k = false;
  g_idle : idle k = true -> status k (current k) = BLOCKED \/ status k (current k) = READY }.

(** What a dispatch leaves alone. *)
Record same_sync (k k' : Kern) : Prop := {
  ss_prog : prog k' = prog k;
  ss_value : value k' = value k;
  ss_queue : queue k' = queue k;
  ss_held : heldthread k' = heldthread k;
  ss_created : created k' = created k }.

Lemma fn_eq {A} (f : nat -> A) t x : (<[t := x]> f) t = x.
Proof. apply fn_lookup_insert. Qed.

Lemma fn_ne {A} (f : nat -> A) t u x : t <> u -> (<[t := x]> f) u = f u.
Proof. apply fn_lookup_insert_ne. Qed.

Lemma fn_case {A} (f : nat -> A) t u x :
  (<[t := x]> f) u = if decide (u = t) then x else f u.
Proof. destruct (decide (u = t)) as [->|]; [apply fn_eq|by apply fn_ne]. Qed.

Lemma Run_good next rest k :
  pool k -> (forall t, status k t <> RUNNING) -> idle k = false -> readyList k = next :: rest ->
  exists k', Run next (set_readyList rest k) = Ok k' /\ good k' /\ same_sync k k' /\
    (forall t, status k' t = BLOCKED <-> status k t = BLOCKED).
Proof.
  intros [P1 P2 P3 P4 P5 P6 P7 P8 P9] Hr Hi Hl. rewrite Hl in P1. apply NoDup_cons in P1 as [N1 N2].
  assert (Hnx : status k next = READY) by (apply P2; rewrite Hl; left).
  assert (HR : forall k', readyList k' = rest -> status k' = <[next := RUNNING]> (status k) ->
    idle k' = false -> current k' = next -> same_sync k k' ->
    (threadToBeDestroyed k' = threadToBeDestroyed k \/ threadToBeDestroyed k' = None) ->
    good k' /\ same_sync k k' /\ (forall t, status k' t = BLOCKED <-> status k t = BLOCKED)).
  { intros k' E1 E2 E3 E4 [S1 S2 S3 S4 S5] E5.
    assert (E2' : forall t, status k' t = if decide (t = next) then RUNNING else status k t)
      by (intros; rewrite E2; apply fn_case).
    split; [|split; [done|intros t; rewrite E2'; destruct (decide (t = next)) as [->|]; [|done];
      rewrite Hnx; by split]].
    constructor.
    - constructor.
      + by rewrite E1.
      + intros t. rewrite E1, E2'. destruct (decide (t = next)) as [->|Hne]; [naive_solver|].
        rewrite <- P2, Hl, elem_of_cons. naive_solver.
      + intros t Ht. rewrite E2', P3 by (rewrite <- S5; done).
        destruct (decide (t = next)) as [->|]; [|done].
        rewrite S5 in Ht. rewrite P3 in Hnx by done. done.
      + intros q. rewrite S3. apply P4.
      + intros q t Ht. rewrite S3 in Ht. rewrite E2'. apply P5 in Ht.
        destruct (decide (t = next)) as [->|]; [congruence|done].
      + intros q q' t. rewrite S3. apply P6.
      + intros s t. rewrite S3, S1. apply P7.
      + intros d Hd. destruct E5 as [E5|E5]; rewrite E5 in Hd; [|done]. apply P8 in Hd as [D1 D2].
        rewrite E2', S3. destruct (decide (d = next)) as [->|]; [congruence|done].
      + intros t Ht. rewrite E2'. destruct (decide (t = next)); [done|]. apply P9. by rewrite <- S5.
    - intros t. rewrite E2', E3, E4. destruct (decide (t = next)) as [->|Hne]; [done|].
      split; [by intros ?%Hr|naive_solver].
    - rewrite E3. done. }
  unfold Run. destruct (started _ next).
  - unfold destroy. cbn [threadToBeDestroyed setStatus set_current set_readyList current
      set_GlobalThreadList GlobalThreadList].
    destruct (threadToBeDestroyed k) as [d|] eqn:Ed.
    + destruct (P8 d eq_refl) as [D1 D2]. unfold ASSERT_.
      rewrite bool_decide_eq_false_2 by (intros ->; congruence). cbn.
      eexists. split; [reflexivity|]. apply HR; try done. by right.
    + eexists. split; [reflexivity|]. apply HR; try done. by left.
  - eexists. split; [reflexivity|]. apply HR; try done. by left.
Qed.

(** A thread goes to sleep in a pool that has it blocked already. *)
Lemma Sleep_good k :
  pool (setStatus (current k) BLOCKED k) -> (forall t, status k t = RUNNING -> t = current k) ->
  idle k = false ->
  exists k', Sleep k = Ok k' /\ good k' /\ same_sync k k' /\
    (forall t, status k' t = BLOCKED <-> t = current k \/ status k t = BLOCKED).
Proof.
  intros Hp Hr Hi. unfold Sleep. cbn [readyList setStatus].
  assert (Hst : forall t, status (setStatus (current k) BLOCKED k) t <> RUNNING).
  { intros t. cbn. rewrite fn_case. destruct (decide (t = current k)); [done|]. naive_solver. }
  assert (Hb : forall t, status (setStatus (current k) BLOCKED k) t = BLOCKED <->
    t = current k \/ status k t = BLOCKED).
  { intros t. cbn. rewrite fn_case. destruct (decide (t = current k)); naive_solver. }
  destruct (readyList k) as [|next rest] eqn:Hl.
  - eexists. split; [reflexivity|]. split; [|by split].
    constructor; [destruct Hp; by constructor| |].
    + intros t. split; [by intros ?%Hst|cbn; naive_solver].
    + intros _. left. cbn. apply fn_eq.
  - destruct (Run_good next rest _ Hp Hst Hi Hl) as (k' & E & G & [] & B).
    exists k'. split; [exact E|]. split; [done|]. split; [by constructor|].
    intros t. by rewrite B, Hb.
Qed.

(** ** Every operation keeps the invariant *)

Lemma set_value_good s v k : good k -> good (set_value s v k).
Proof. intros [[] G2 G3]. constructor; [by constructor|done|done]. Qed.

Lemma set_heldthread_good l v k : good k -> good (set_heldthread l v k).
Proof. intros [[] G2 G3]. constructor; [by constructor|done|done]. Qed.

Lemma set_prog_good t p k : good k -> status k t <> BLOCKED -> good (set_prog t p k).
Proof.
  intros [[P1 P2 P3 P4 P5 P6 P7 P8 P9] G2 G3] Ht. constructor; [|done|done]. constructor; try done.
  intros s u Hu. cbn. rewrite fn_case. destruct (decide (u = t)) as [->|]; [|by apply P7].
  by apply P5 in Hu.
Qed.

Lemma ReadyToRun_good q t rest k :
  good k -> queue k q = t :: rest -> good (ReadyToRun t (set_queue q rest k)).
Proof.
  intros [[P1 P2 P3 P4 P5 P6 P7 P8 P9] G2 G3] Hq.
  assert (Hin : t ∈ queue k q) by (rewrite Hq; left).
  assert (Hb : status k t = BLOCKED) by (by eapply P5).
  assert (Hnr : t ∉ readyList k) by (rewrite P2; congruence).
  pose proof (P4 q) as Hnd. rewrite Hq in Hnd. apply NoDup_cons in Hnd as [N1 N2].
  assert (Hqc : forall q' u, u ∈ (<[q := rest]> (queue k)) q' -> u <> t /\ u ∈ queue k q').
  { intros q' u. destruct (decide (q = q')) as [<-|Hne].
    - rewrite fn_lookup_insert. intros Hu. split; [by intros ->|]. rewrite Hq. by right.
    - rewrite fn_lookup_insert_ne by done. intros Hu. split; [|done]. intros ->.
      apply Hne. by eapply P6. }
  constructor; [constructor| |]; cbn.
  - apply NoDup_app. split; [done|]. split; [|apply NoDup_singleton].
    intros x Hx Hx'. apply list_elem_of_singleton in Hx' as ->. done.
  - intros u. rewrite elem_of_app, list_elem_of_singleton, fn_case, P2.
    destruct (decide (u = t)) as [->|]; naive_solver.
  - intros u Hu. rewrite fn_case. destruct (decide (u = t)) as [->|]; [|by apply P3].
    rewrite P3 in Hb by done. done.
  - intros q'. destruct (decide (q = q')) as [<-|Hne].
    + by rewrite fn_lookup_insert.
    + by rewrite fn_lookup_insert_ne.
  - intros q' u [Hu1 Hu2]%Hqc. rewrite fn_ne by done. by eapply P5.
  - intros q1 q2 u [_ U1]%Hqc [_ U2]%Hqc. by eapply P6.
  - intros s u [_ Hu]%Hqc. by apply P7.
  - intros d [D1 D2]%P8. rewrite fn_ne.
    + split; [done|]. intros q' [_ Hd]%Hqc. by eapply D2.
    + intros ->. by apply (D2 q).
  - intros u Hu. rewrite fn_case. destruct (decide (u = t)); [done|by apply P9].
  - intros u. rewrite fn_case. destruct (decide (u = t)) as [->|]; [|apply G2].
    split; [done|]. intros H. apply G2 in H. congruence.
  - intros Hi. rewrite fn_case. destruct (decide (current k = t)); [by right|by apply G3].
Qed.

Lemma V_good s k : good k -> good (V s k).
Proof.
  intros G. unfold V. apply set_value_good.
  destruct (queue k (QSem s)) as [|t rest] eqn:E; [done|]. by apply ReadyToRun_good.
Qed.

Lemma Signal_good c k : good k -> good (Signal c k).
Proof.
  intros G. unfold Signal. destruct (queue k (QCond c)) as [|t rest] eqn:E; [done|].
  by apply ReadyToRun_good.
Qed.

Lemma Broadcast_good c k : good k -> good (Broadcast c k).
Proof.
  intros G. unfold Broadcast. generalize (length (queue k (QCond c))). intros n.
  induction n as [|n IH]; [done|]. by apply Signal_good.
Qed.

Lemma Release_good l k : good k -> good (Release l k).
Proof.
  intros G. unfold Release. destruct (isHeldByCurrentThread l k); [|done].
  by apply V_good, set_heldthread_good.
Qed.

Lemma Fork_good body k : good k -> good (Fork body k).
Proof.
  intros [[P1 P2 P3 P4 P5 P6 P7 P8 P9] G2 G3]. set (t := created k).
  assert (Hf : status k t = JUST_CREATED) by (apply P3; unfold t; lia).
  assert (Hst : forall u, status (Fork body k) u = if decide (u = t) then READY else status k u).
  { intros u. unfold Fork, ReadyToRun. cbn. fold t. rewrite fn_case.
    destruct (decide (u = t)); [done|]. by rewrite fn_ne. }
  assert (Hq : queue (Fork body k) = queue k) by done.
  constructor; [constructor| |].
  - cbn. apply NoDup_app. split; [done|]. split; [|apply NoDup_singleton].
    intros x Hx Hx'. apply list_elem_of_singleton in Hx' as ->. apply P2 in Hx. fold t in Hx. congruence.
  - intros u. rewrite Hst. cbn. rewrite elem_of_app, list_elem_of_singleton, P2. fold t.
    destruct (decide (u = t)) as [->|]; naive_solver.
  - intros u Hu. rewrite Hst. cbn in Hu. fold t in Hu. rewrite decide_False by lia. apply P3.
    fold t. lia.
  - done.
  - intros q u Hu. rewrite Hst. apply P5 in Hu. destruct (decide (u = t)) as [->|]; congruence.
  - done.
  - intros s u Hu. cbn. fold t. rewrite fn_ne; [by apply P7|]. intros <-. apply P5 in Hu. congruence.
  - intros d [D1 D2]%P8. rewrite Hst. split; [|done]. destruct (decide (d = t)) as [->|]; congruence.
  - intros u Hu. rewrite Hst. destruct (decide (u = t)); [done|]. apply P9. cbn in Hu. unfold t in *. lia.
  - intros u. rewrite Hst. destruct (decide (u = t)) as [->|]; [|apply G2].
    split; [done|]. intros H. apply G2 in H. congruence.
  - intros Hi. rewrite Hst. destruct (decide _); [by right|]. by apply G3.
Qed.

(** The current thread queues up and goes to sleep. *)
Lemma block_good q p k :
  good k -> idle k = false -> (forall s, q = QSem s -> exists rest, p = CP s true :: rest) ->
  let k1 := set_prog (current k) p (set_queue q (queue k q ++ [current k]) k) in
  exists k', Sleep k1 = Ok k' /\ good k' /\ same_sync k1 k' /\
    (forall t, status k' t = BLOCKED <-> t = current k \/ status k t = BLOCKED).
Proof.
  intros [[P1 P2 P3 P4 P5 P6 P7 P8 P9] G2 G3] Hi Hp k1.
  assert (Hcur : status k (current k) = RUNNING) by (by apply G2).
  assert (Hqc : forall q' u, u ∈ queue k1 q' -> u = current k /\ q' = q \/ u ∈ queue k q').
  { intros q' u. cbn. destruct (decide (q = q')) as [<-|Hne].
    - rewrite fn_lookup_insert, elem_of_app, list_elem_of_singleton. tauto.
    - rewrite fn_lookup_insert_ne by done. tauto. }
  assert (Hnot : forall q', current k ∉ queue k q') by (intros q' H; apply P5 in H; congruence).
  destruct (Sleep_good k1) as (k' & E & G & S & B); [|by intros t [? _]%G2|done|].
  - constructor; cbn.
    + done.
    + intros t. rewrite fn_case, P2. destruct (decide (t = current k)) as [->|]; [|done].
      rewrite Hcur. done.
    + intros t Ht. rewrite fn_case. destruct (decide (t = current k)) as [->|]; [|by apply P3].
      rewrite P3 in Hcur by done. done.
    + intros q'. destruct (decide (q = q')) as [<-|Hne].
      * rewrite fn_lookup_insert. apply NoDup_app. split; [done|]. split; [|apply NoDup_singleton].
        intros x Hx Hx'. apply list_elem_of_singleton in Hx' as ->. by apply Hnot in Hx.
      * by rewrite fn_lookup_insert_ne.
    + intros q' t [[-> _]|Ht]%Hqc; [apply fn_eq|]. rewrite fn_case.
      destruct (decide (t = current k)); [done|]. by eapply P5.
    + intros q1 q2 t [[-> ->]|U1]%Hqc [[E2 ->]|U2]%Hqc; try done.
      * by apply Hnot in U2.
      * subst t. by apply Hnot in U1.
      * by eapply P6.
    + intros s t [[-> E2]|Ht]%Hqc.
      * rewrite fn_eq. by apply Hp.
      * rewrite fn_ne; [by apply P7|]. intros Heq. apply (Hnot (QSem s)). by rewrite Heq.
    + intros d [D1 D2]%P8. rewrite fn_case. split; [by destruct (decide _)|].
      intros q' [[-> _]|Hd]%Hqc; [congruence|by eapply D2].
    + intros t Ht. rewrite fn_case. destruct (decide (t = current k)); [done|by apply P9].
  - exists k'. done.
Qed.

(** [k'] differs from [k] only in who runs. *)
Definition switched (k k' : Kern) : Prop :=
  same_sync k k' /\ forall t, status k' t = BLOCKED <-> status k t = BLOCKED.

Lemma switched_refl k : switched k k.
Proof. by repeat split. Qed.

Lemma Yield_good k : good k -> idle k = false ->
  exists k', Yield k = Ok k' /\ good k' /\ switched k k'.
Proof.
  intros G Hi. unfold Yield. destruct (readyList k) as [|next rest] eqn:Hl.
  { exists k. split; [done|]. split; [done|apply switched_refl]. }
  destruct G as [[P1 P2 P3 P4 P5 P6 P7 P8 P9] G2 G3].
  assert (Hcur : status k (current k) = RUNNING) by (by apply G2).
  set (k1 := ReadyToRun (current k) k).
  destruct (Run_good next (rest ++ [current k]) k1) as (k' & E & G & S & B).
  - constructor; try done; cbn.
    + apply NoDup_app. split; [done|]. split; [|apply NoDup_singleton].
      intros x Hx Hx'. apply list_elem_of_singleton in Hx' as ->. apply P2 in Hx. congruence.
    + intros t. rewrite elem_of_app, list_elem_of_singleton, fn_case, P2.
      destruct (decide (t = current k)) as [->|]; naive_solver.
    + intros t Ht. rewrite fn_case. destruct (decide (t = current k)) as [->|]; [|by apply P3].
      rewrite P3 in Hcur by done. done.
    + intros q t Ht%P5. rewrite fn_case. destruct (decide (t = current k)); [congruence|done].
    + intros d [D1 D2]%P8. rewrite fn_case. destruct (decide (d = current k)); [congruence|done].
    + intros t Ht. rewrite fn_case. destruct (decide (t = current k)); [done|by apply P9].
  - intros t. cbn. rewrite fn_case. destruct (decide (t = current k)); [done|].
    intros [? _]%G2. done.
  - done.
  - cbn. by rewrite Hl.
  - exists k'. split; [exact E|]. split; [done|]. destruct S. split; [by constructor|].
    intros t. rewrite B. cbn. rewrite fn_case. destruct (decide (t = current k)) as [->|]; [|done].
    rewrite Hcur. done.
Qed.

Lemma dispatch_good k : good k -> idle k = true ->
  exists k', dispatch k = Ok k' /\ good k' /\ switched k k'.
Proof.
  intros G Hi. unfold dispatch. destruct (readyList k) as [|next rest] eqn:Hl.
  { exists k. split; [done|]. split; [done|apply switched_refl]. }
  destruct G as [[] G2 G3].
  destruct (Run_good next rest (set_idle false k)) as (k' & E & G & [] & B); try done.
  - intros t [_ ?]%G2. congruence.
  - exists k'. split; [exact E|]. split; [done|]. split; [by constructor|done].
Qed.

(** What a call does to semaphores, queues, locks and programs, before the
    processor is handed on. *)
Definition effect (k : Kern) : Kern :=
  let t := current k in
  match prog k t with
  | [] => setStatus t BLOCKED k
  | CP s _ :: rest =>
    if value k s =? 0 then
      setStatus t BLOCKED
        (set_prog t (CP s true :: rest) (set_queue (QSem s) (queue k (QSem s) ++ [t]) k))
    else set_prog t rest (set_value s (value k s - 1) k)
  | CV s :: rest => V s (set_prog t rest k)
  | CHold l _ :: rest => set_heldthread l (Some t) (set_prog t rest k)
  | CRelease l :: rest => Release l (set_prog t rest k)
  | CWait c l :: rest =>
    let k := Release l k in
    setStatus t BLOCKED (set_prog t (CP (SLock l) true :: CHold l true :: rest)
      (set_queue (QCond c) (queue k (QCond c) ++ [t]) k))
  | CSignal c :: rest => Signal c (set_prog t rest k)
  | CBroadcast c :: rest => Broadcast c (set_prog t rest k)
  | CYield :: rest => set_prog t rest k
  | CFork body :: rest => Fork body (set_prog t rest k)
  end.

Lemma V_current s k : current (V s k) = current k /\ idle (V s k) = idle k.
Proof. unfold V. by destruct (queue k (QSem s)). Qed.

Lemma Release_current l k : current (Release l k) = current k /\ idle (Release l k) = idle k.
Proof.
  unfold Release. destruct (isHeldByCurrentThread l k); [|done].
  destruct (V_current (SLock l) (set_heldthread l None k)) as [-> ->]. done.
Qed.

(** A call of the current thread: it never faults, keeps the invariant, and its
    effect is as above. *)
Lemma exec_good k : good k -> idle k = false ->
  exists k', exec k = Ok k' /\ good k' /\ switched (effect k) k'.
Proof.
  intros G Hi. assert (Hcur : status k (current k) = RUNNING) by (by apply G).
  assert (Hnb : status k (current k) <> BLOCKED) by congruence.
  assert (Hbl : forall k1, same_sync k1 (setStatus (current k) BLOCKED k1)) by done.
  unfold exec, effect. destruct (prog k (current k)) as [|c rest] eqn:Hp.
  - unfold Finish. set (k1 := set_threadToBeDestroyed (Some (current k)) k).
    destruct G as [[P1 P2 P3 P4 P5 P6 P7 P8 P9] G2 G3].
    destruct (Sleep_good k1) as (k' & E & G' & [] & B); [|by intros t [? _]%G2|done|].
    + constructor; try done; cbn.
      * intros t. rewrite fn_case, P2. destruct (decide (t = current k)) as [->|]; [|done].
        rewrite Hcur. done.
      * intros t Ht. rewrite fn_case. destruct (decide (t = current k)) as [->|]; [|by apply P3].
        rewrite P3 in Hcur by done. done.
      * intros q t Ht%P5. rewrite fn_case. by destruct (decide _).
      * intros d [= <-]. rewrite fn_eq. split; [done|]. intros q ?%P5. congruence.
      * intros t Ht. rewrite fn_case. destruct (decide (t = current k)); [done|by apply P9].
    + exists k'. split; [done|]. split; [done|]. split; [by constructor|].
      intros t. rewrite B. cbn. rewrite fn_case. destruct (decide (t = current k)); naive_solver.
  - destruct c as [s off|s|l off|l|c l|c|c| |body];
      try (eexists; split; [reflexivity|]; split; [|apply switched_refl]).
    + unfold P. destruct (value k s =? 0).
      * destruct (block_good (QSem s) (CP s true :: rest) k G Hi) as (k' & E & G' & S & B).
        { intros s' [= <-]. eauto. }
        exists k'. split; [done|]. split; [done|]. destruct S. split; [by constructor|].
        intros t. rewrite B. cbn. rewrite fn_case. destruct (decide (t = current k)); naive_solver.
      * eexists. split; [reflexivity|]. split; [|apply switched_refl].
        by apply set_prog_good; [apply set_value_good|].
    + by apply V_good, set_prog_good.
    + by apply set_heldthread_good, set_prog_good.
    + by apply Release_good, set_prog_good.
    + unfold Wait. destruct (Release_current l k) as [Ec Ei].
      destruct (block_good (QCond c) (CP (SLock l) true :: CHold l true :: rest) (Release l k))
        as (k' & E & G' & S & B); [by apply Release_good|by rewrite Ei|done|].
      rewrite Ec in *. exists k'. split; [done|]. split; [done|]. destruct S.
      split; [by constructor|]. intros t. rewrite B. cbn. rewrite fn_case.
      destruct (decide (t = current k)); naive_solver.
    + by apply Signal_good, set_prog_good.
    + by apply Broadcast_good, set_prog_good.
    + destruct (Yield_good (set_prog (current k) rest k)) as (k' & E & G' & S);
        [by apply set_prog_good|done|]. exists k'. done.
    + by apply Fork_good, set_prog_good.
Qed.

(** ** Counting threads *)

Fixpoint cnt (f : nat -> bool) (n : nat) : Z :=
  match n with
  | O => 0
  | S n' => cnt f n' + Z.b2z (f n')
  end.

Lemma b2z_range b : 0 <= Z.b2z b <= 1.
Proof. by destruct b. Qed.

Lemma cnt_mono f g n : (forall t, (t < n)%nat -> f t = true -> g t = true) -> cnt f n <= cnt g n.
Proof.
  induction n as [|n IH]; intros H; cbn [cnt]; [lia|].
  assert (cnt f n <= cnt g n) by (apply IH; intros; apply H; [lia|done]).
  specialize (H n ltac:(lia)). destruct (f n), (g n); cbn; try lia; by specialize (H eq_refl).
Qed.

Lemma cnt_ext f g n : (forall t, (t < n)%nat -> f t = g t) -> cnt f n = cnt g n.
Proof.
  intros H. apply Z.le_antisymm; apply cnt_mono; intros t Ht; [by rewrite H|by rewrite <- H].
Qed.

Lemma cnt_nonneg f n : 0 <= cnt f n.
Proof. induction n as [|n IH]; cbn [cnt]; [lia|]. pose proof (b2z_range (f n)). lia. Qed.

(** Only thread [t] changes. *)
Lemma cnt_change f g n t :
  (t < n)%nat -> (forall u, u <> t -> f u = g u) ->
  cnt g n = cnt f n - Z.b2z (f t) + Z.b2z (g t).
Proof.
  induction n as [|n IH]; intros Ht H; [lia|]. cbn [cnt].
  destruct (decide (t = n)) as [->|Hne].
  - rewrite (cnt_ext g f n); [lia|]. intros u Hu. rewrite H; [done|lia].
  - rewrite IH by (done || lia). rewrite (H n) by done. lia.
Qed.

Lemma cnt_one f n t : (t < n)%nat -> f t = true ->
  cnt f n = cnt (fun x => if decide (x = t) then false else f x) n + 1.
Proof.
  intros Ht Ft. rewrite (cnt_change (fun x => if decide (x = t) then false else f x) f n t Ht).
  - rewrite Ft, decide_True by done. cbn. lia.
  - intros u Hu. by rewrite decide_False.
Qed.

Lemma cnt_two f n t u : (t < n)%nat -> (u < n)%nat -> t <> u -> f t = true -> f u = true -> 2 <= cnt f n.
Proof.
  intros Ht Hu Hne Ft Fu. rewrite (cnt_one f n t) by done. rewrite (cnt_one _ n u).
  - match goal with |- _ <= cnt ?h n + 1 + 1 => pose proof (cnt_nonneg h n) end. lia.
  - done.
  - by rewrite decide_False.
Qed.

Lemma cnt_none f n : (forall t, (t < n)%nat -> f t = false) -> cnt f n = 0.
Proof. induction n as [|n IH]; intros Hf; [done|]. cbn. rewrite IH, Hf by auto. done. Qed.

(** With nothing to run every thread sleeps. *)
Lemma quiet_blocked k t :
  good k -> idle k = true -> readyList k = [] -> (t < created k)%nat -> status k t = BLOCKED.
Proof.
  intros G Hi Hr Ht. pose proof (p_live _ (g_pool _ G) t Ht). destruct (status k t) eqn:E; try done.
  - apply (g_running _ G) in E as [_ E]. congruence.
  - apply (p_ready _ (g_pool _ G)) in E. rewrite Hr in E. by apply not_elem_of_nil in E.
Qed.

Lemma live_created k t : pool k -> status k t <> JUST_CREATED -> (t < created k)%nat.
Proof.
  intros Hp Hs. destruct (Nat.lt_ge_cases t (created k)) as [|H]; [done|].
  by apply (p_fresh _ Hp) in H.
Qed.

(** ** No lost wakeup *)

(** Thread [t] has been woken up on semaphore [s] and has not tested it yet. *)
Definition woken (s : sid) (k : Kern) (t : nat) : bool :=
  match prog k t with
  | CP s' true :: _ => bool_decide (s' = s) && negb (bool_decide (status k t = BLOCKED))
  | _ => false
  end.

(** Values are never negative, and if threads sleep on a semaphore then every
    unit of its value has a woken thread on its way to it. *)
Definition sem_ok (k : Kern) : Prop := forall s,
  0 <= value k s /\
  (queue k (QSem s) <> [] -> value k s <= cnt (woken s k) (created k)).

Lemma sem_ok_mono k k' :
  sem_ok k -> value k' = value k -> (forall s, queue k (QSem s) = [] -> queue k' (QSem s) = []) ->
  (created k <= created k')%nat ->
  (forall s t, (t < created k)%nat -> woken s k t = true -> woken s k' t = true) -> sem_ok k'.
Proof.
  intros H Ev Eq Ec Ew s. destruct (H s) as [H1 H2]. rewrite Ev. split; [done|]. intros Hq.
  assert (Hle : forall n, (created k <= n)%nat -> cnt (woken s k') (created k) <= cnt (woken s k') n).
  { intros n Hn. induction Hn as [|n Hn IH]; [lia|]. cbn [cnt].
    pose proof (b2z_range (woken s k' n)). lia. }
  specialize (Hle _ Ec). assert (queue k (QSem s) <> []) as Hq' by (intros ?; by apply Hq, Eq).
  specialize (H2 Hq'). pose proof (cnt_mono (woken s k) (woken s k') (created k) (Ew s)). lia.
Qed.

Lemma sem_ok_switched k k' : switched k k' -> sem_ok k -> sem_ok k'.
Proof.
  intros [[S1 S2 S3 S4 S5] B] H. apply (sem_ok_mono k); try done.
  - by rewrite S3.
  - by rewrite S5.
  - intros s t _. unfold woken. rewrite S1. destruct (prog k t) as [|[s' []| | | | | | | |]]; try done.
    intros [W1 W2]%andb_true_iff. apply andb_true_iff. split; [done|].
    apply negb_true_iff, bool_decide_eq_false in W2. apply negb_true_iff, bool_decide_eq_false.
    by rewrite B.
Qed.

(** Waking a thread can only help. *)
Lemma sem_ok_ready t k : sem_ok k -> sem_ok (ReadyToRun t k).
Proof.
  intros H. apply (sem_ok_mono k); try done. intros s u _. unfold woken. cbn.
  destruct (prog k u) as [|[s' []| | | | | | | |]]; try done.
  rewrite fn_case. destruct (decide (u = t)) as [->|]; [|done].
  intros [W1 W2]%andb_true_iff. by rewrite W1.
Qed.

Lemma V_sem_ok s k : pool k -> sem_ok k -> sem_ok (V s k).
Proof.
  intros Hp H. unfold V. destruct (queue k (QSem s)) as [|t rest] eqn:Hq.
  - intros s'. destruct (H s') as [H1 H2]. cbn. destruct (decide (s = s')) as [<-|Hne].
    + rewrite fn_lookup_insert. split; [lia|]. by rewrite Hq.
    + rewrite fn_lookup_insert_ne by done. done.
  - assert (Hin : t ∈ queue k (QSem s)) by (rewrite Hq; left).
    pose proof (p_queue _ Hp _ _ Hin) as Hb. destruct (p_head _ Hp _ _ Hin) as [p Hpr].
    assert (Ht : (t < created k)%nat) by (apply live_created; [done|congruence]).
    intros s'. destruct (H s') as [H1 H2]. cbn.
    set (k' := set_value _ _ _).
    assert (Hw : cnt (woken s' k') (created k) =
      cnt (woken s' k) (created k) + Z.b2z (bool_decide (s = s'))).
    { rewrite (cnt_change (woken s' k) (woken s' k') (created k) t Ht).
      - assert (woken s' k t = false) as ->.
        { unfold woken. rewrite Hpr, Hb. apply andb_false_r. }
        assert (woken s' k' t = bool_decide (s = s')) as ->.
        { unfold woken. cbn. rewrite Hpr, fn_eq. apply andb_true_r. }
        cbn. lia.
      - intros u Hu. unfold woken. cbn. by rewrite fn_ne. }
    destruct (decide (s = s')) as [<-|Hne].
    + rewrite !fn_lookup_insert. split; [lia|]. intros _. rewrite Hw.
      rewrite bool_decide_eq_true_2 by done. cbn. rewrite Hq in H2.
      assert (value k s <= cnt (woken s k) (created k)) by (by apply H2). lia.
    + rewrite !fn_lookup_insert_ne by congruence. split; [done|]. intros Hq'. rewrite Hw.
      rewrite bool_decide_eq_false_2 by done. cbn. specialize (H2 Hq'). lia.
Qed.

Lemma sem_ok_prog t p k :
  sem_ok k -> (forall s, woken s k t = false) -> sem_ok (set_prog t p k).
Proof.
  intros H Hw. apply (sem_ok_mono k); try done. intros s u _ Hu. unfold woken. cbn.
  destruct (decide (u = t)) as [->|Hne]; [by rewrite Hw in Hu|]. by rewrite fn_ne.
Qed.

Lemma Release_sem_ok l k : pool k -> sem_ok k -> sem_ok (Release l k).
Proof.
  intros Hp H. unfold Release. destruct (isHeldByCurrentThread l k); [|done].
  apply V_sem_ok; [by destruct Hp; constructor|done].
Qed.

Lemma Signal_sem_ok c k : sem_ok k -> sem_ok (Signal c k).
Proof.
  intros H. unfold Signal. destruct (queue k (QCond c)) as [|t rest]; [done|].
  apply sem_ok_ready. apply (sem_ok_mono k); try done.
Qed.

Lemma Broadcast_sem_ok c k : sem_ok k -> sem_ok (Broadcast c k).
Proof.
  intros G. unfold Broadcast. generalize (length (queue k (QCond c))). intros n.
  induction n as [|n IH]; [done|]. by apply Signal_sem_ok.
Qed.

(** The current thread blocks with nothing woken to lose. *)
Lemma sem_ok_block t p k :
  sem_ok k -> (forall s, woken s k t = false) -> sem_ok (setStatus t BLOCKED (set_prog t p k)).
Proof.
  intros H Hw. apply (sem_ok_mono k); try done. intros s u _ Hu. unfold woken in *. cbn.
  destruct (decide (u = t)) as [->|Hne].
  - specialize (Hw s). congruence.
  - by rewrite !fn_ne.
Qed.

Lemma P_sem_ok s off rest k :
  good k -> idle k = false -> prog k (current k) = CP s off :: rest -> sem_ok k ->
  sem_ok (effect k).
Proof.
  intros G Hi Hp H. assert (Hcur : status k (current k) = RUNNING) by (by apply G).
  assert (Ht : (current k < created k)%nat) by (apply live_created; [apply G|congruence]).
  assert (Hw : forall s', woken s' k (current k) = (if decide (s' = s) then off else false)).
  { intros s'. unfold woken. rewrite Hp, Hcur. destruct off; [|by destruct (decide _)].
    rewrite (bool_decide_eq_false_2 (RUNNING = BLOCKED)) by done. rewrite andb_true_r.
    destruct (decide (s' = s)) as [->|]; [by apply bool_decide_eq_true_2|].
    apply bool_decide_eq_false_2. congruence. }
  unfold effect. rewrite Hp. destruct (Z.eqb_spec (value k s) 0) as [Hz|Hz]; intros s';
    destruct (H s') as [H1 H2].
  - cbn. split; [done|]. destruct (decide (s' = s)) as [->|Hne].
    + intros _. rewrite Hz. apply cnt_nonneg.
    + rewrite fn_lookup_insert_ne by congruence. intros Hq. etrans; [by apply H2|].
      apply cnt_mono. intros u _ Hu. unfold woken. cbn. destruct (decide (u = current k)) as [->|Hne'].
      * rewrite Hw, decide_False in Hu; done.
      * by rewrite !fn_ne.
  - set (k' := set_prog _ _ _). pose proof (cnt_change (woken s' k) (woken s' k') _ _ Ht) as Hc.
    change (created k') with (created k). rewrite Hc.
    2:{ intros u Hu. unfold woken. cbn. by rewrite fn_ne. }
    rewrite Hw. pose proof (b2z_range (woken s' k' (current k))).
    change (queue k' (QSem s')) with (queue k (QSem s')). cbn. destruct (decide (s' = s)) as [->|Hne].
    + rewrite fn_lookup_insert. split; [lia|]. intros Hq. specialize (H2 Hq).
      pose proof (b2z_range off). lia.
    + rewrite fn_lookup_insert_ne by done. split; [done|]. intros Hq. specialize (H2 Hq). cbn. lia.
Qed.

Lemma effect_sem_ok k : good k -> idle k = false -> sem_ok k -> sem_ok (effect k).
Proof.
  intros G Hi H. destruct (prog k (current k)) as [|c rest] eqn:Hp.
  - unfold effect. rewrite Hp. apply (sem_ok_mono k); try done. intros s u _ Hu.
    unfold woken in *. cbn. destruct (decide (u = current k)) as [->|]; [|by rewrite fn_ne].
    by rewrite Hp in Hu.
  - assert (Hst : pool (set_prog (current k) rest k)).
    { apply set_prog_good; [done|]. assert (status k (current k) = RUNNING) by (by apply G).
      congruence. }
    destruct c as [s off|s|l off|l|c l|c|c| |body]; [by eapply P_sem_ok|..];
      (assert (Hw : forall s', woken s' k (current k) = false) by (intros; unfold woken; by rewrite Hp));
      unfold effect; rewrite Hp.
    + apply V_sem_ok; [done|by apply sem_ok_prog].
    + by apply sem_ok_prog.
    + apply Release_sem_ok; [done|by apply sem_ok_prog].
    + apply sem_ok_block.
      * eapply (sem_ok_mono (Release l k)); try done. apply Release_sem_ok; [apply G|done].
      * intros s. unfold woken, Release. cbn. destruct (isHeldByCurrentThread l k); [|by rewrite Hp].
        unfold V. destruct (queue _ _); cbn; by rewrite Hp.
    + apply Signal_sem_ok. by apply sem_ok_prog.
    + apply Broadcast_sem_ok. by apply sem_ok_prog.
    + by apply sem_ok_prog.
    + unfold Fork. apply sem_ok_ready. eapply (sem_ok_mono (set_prog (current k) rest k));
        [by apply sem_ok_prog|done|done|cbn; lia|].
      intros s u Hu. unfold woken. cbn. cbn in Hu. by rewrite !(fn_ne _ (created k)) by lia.
Qed.

(** ** Locks *)

(** Programs that use the semaphore of a lock through the lock only. *)
Inductive lock_prog : list cmd -> Prop :=
| lp_nil : lock_prog []
| lp_P n off p : lock_prog p -> lock_prog (CP (SUser n) off :: p)
| lp_Acquire l off off' p : lock_prog p -> lock_prog (CP (SLock l) off :: CHold l off' :: p)
| lp_V n p : lock_prog p -> lock_prog (CV (SUser n) :: p)
| lp_Release l p : lock_prog p -> lock_prog (CRelease l :: p)
| lp_Wait c l p : lock_prog p -> lock_prog (CWait c l :: p)
| lp_Signal c p : lock_prog p -> lock_prog (CSignal c :: p)
| lp_Broadcast c p : lock_prog p -> lock_prog (CBroadcast c :: p)
| lp_Yield p : lock_prog p -> lock_prog (CYield :: p)
| lp_Fork body p : lock_prog body -> lock_prog p -> lock_prog (CFork body :: p).

#[export] Hint Constructors lock_prog : nachos.

(** A thread may be between the two halves of [Acquire]. *)
Definition lock_thread (p : list cmd) : Prop :=
  lock_prog p \/ exists l off p', p = CHold l off :: p' /\ lock_prog p'.

(** Thread [t] has the unit of lock [l] and is about to record it. *)
Definition acquiring (l : nat) (k : Kern) (t : nat) : bool :=
  match prog k t with
  | CHold l' _ :: _ => bool_decide (l' = l)
  | _ => false
  end.

Definition held (l : nat) (k : Kern) : Z :=
  match heldthread k l with Some _ => 1 | None => 0 end.

(** Every lock has one unit: in its semaphore, with a thread that is about to
    become the owner, or with the owner. *)
Record lock_ok (k : Kern) : Prop := {
  lk_unit : forall l, value k (SLock l) + cnt (acquiring l k) (created k) + held l k = 1;
  lk_prog : forall t, lock_thread (prog k t) }.

Lemma lock_prog_head l p k t : lock_prog p -> prog k t = p -> acquiring l k t = false.
Proof. intros Hp E. unfold acquiring. rewrite E. by destruct Hp. Qed.

Lemma lock_ok_same k k' :
  lock_ok k -> prog k' = prog k -> (forall l, value k' (SLock l) = value k (SLock l)) ->
  heldthread k' = heldthread k -> created k' = created k -> lock_ok k'.
Proof.
  intros [H1 H2] E1 E2 E3 E4. constructor.
  - intros l. unfold held. rewrite E2, E3, E4.
    rewrite (cnt_ext (acquiring l k') (acquiring l k)); [apply H1|].
    intros t _. unfold acquiring. by rewrite E1.
  - intros t. by rewrite E1.
Qed.

Lemma lock_ok_switched k k' : switched k k' -> lock_ok k -> lock_ok k'.
Proof. intros [[] _] H. apply (lock_ok_same k); try done. intros. congruence. Qed.

(** The current thread goes on with a program that does not start with [CHold]. *)
Lemma lock_ok_prog t p k :
  lock_ok k -> lock_prog p -> (t < created k)%nat -> (forall l, acquiring l k t = false) ->
  lock_ok (set_prog t p k).
Proof.
  intros [H1 H2] Hp Ht Ha. constructor.
  - intros l. cbn [value created set_prog]. rewrite <- (H1 l). unfold held. cbn.
    rewrite (cnt_change (acquiring l k) (acquiring l (set_prog t p k)) (created k) t Ht).
    + rewrite Ha, (lock_prog_head l p); [cbn; lia|done|cbn; apply fn_eq].
    + intros u Hu. unfold acquiring. cbn. by rewrite fn_ne.
  - intros u. cbn. rewrite fn_case. destruct (decide (u = t)); [by left|apply H2].
Qed.

Lemma V_lock_same s k :
  prog (V s k) = prog k /\ heldthread (V s k) = heldthread k /\ created (V s k) = created k /\
  value (V s k) = <[s := value k s + 1]> (value k).
Proof. unfold V. by destruct (queue k (QSem s)). Qed.

Lemma Release_lock_ok l k : lock_ok k -> lock_ok (Release l k).
Proof.
  intros [H1 H2]. unfold Release, isHeldByCurrentThread.
  destruct (bool_decide_reflect (heldthread k l = Some (current k))) as [Hh|]; [|done].
  destruct (V_lock_same (SLock l) (set_heldthread l None k)) as (E1 & E2 & E3 & E4).
  constructor.
  - intros l'. rewrite E3, E4. unfold held. rewrite E2. cbn [value heldthread created set_heldthread].
    specialize (H1 l'). unfold held in H1.
    replace (cnt (acquiring l' _) _) with (cnt (acquiring l' k) (created k)).
    2:{ apply cnt_ext. intros t _. unfold acquiring. by rewrite E1. }
    destruct (decide (l' = l)) as [->|Hne].
    + rewrite !fn_lookup_insert. rewrite Hh in H1. lia.
    + rewrite fn_lookup_insert_ne by congruence. by rewrite fn_ne by done.
  - intros t. rewrite E1. apply H2.
Qed.

Lemma Signal_lock_ok c k : lock_ok k -> lock_ok (Signal c k).
Proof.
  intros H. unfold Signal. destruct (queue k (QCond c)); [done|]. by apply (lock_ok_same k).
Qed.

Lemma Broadcast_lock_ok c k : lock_ok k -> lock_ok (Broadcast c k).
Proof.
  intros G. unfold Broadcast. generalize (length (queue k (QCond c))). intros n.
  induction n as [|n IH]; [done|]. by apply Signal_lock_ok.
Qed.

Lemma Fork_lock_ok body k :
  lock_ok k -> lock_prog body -> lock_ok (Fork body k).
Proof.
  intros [H1 H2] Hb. constructor.
  - intros l. cbn [value created Fork ReadyToRun setStatus set_readyList set_prog set_GlobalThreadList
      set_created]. rewrite <- (H1 l). cbn [cnt]. unfold held. cbn.
    rewrite (lock_prog_head l body); [|done|cbn; apply fn_eq]. cbn [Z.b2z].
    rewrite (cnt_ext (acquiring l (Fork body k)) (acquiring l k)); [lia|].
    intros t Ht. unfold acquiring. cbn. by rewrite fn_ne by lia.
  - intros t. cbn. rewrite fn_case. destruct (decide _); [by left|apply H2].
Qed.

(** The owner of the unit records itself: nobody else had. *)
Lemma Hold_lock_ok l off rest k :
  lock_ok k -> sem_ok k -> (current k < created k)%nat ->
  prog k (current k) = CHold l off :: rest -> lock_prog rest ->
  heldthread k l = None /\
  lock_ok (set_heldthread l (Some (current k)) (set_prog (current k) rest k)).
Proof.
  intros [H1 H2] Hs Ht Hp Hr. set (t := current k) in *.
  assert (Ha : forall l', acquiring l' k t = bool_decide (l = l')) by (intros; unfold acquiring; by rewrite Hp).
  assert (Hc : forall l', cnt (acquiring l' (set_prog t rest k)) (created k) =
    cnt (acquiring l' k) (created k) - Z.b2z (bool_decide (l = l'))).
  { intros l'. rewrite (cnt_change (acquiring l' k) (acquiring l' (set_prog t rest k)) _ t Ht).
    - rewrite Ha, (lock_prog_head l' rest); [cbn; lia|done|cbn; apply fn_eq].
    - intros u Hu. unfold acquiring. cbn. by rewrite fn_ne. }
  assert (Hn : heldthread k l = None).
  { pose proof (H1 l) as E. unfold held in E. destruct (Hs (SLock l)) as [V0 _].
    pose proof (cnt_nonneg (acquiring l (set_prog t rest k)) (created k)) as C0.
    rewrite Hc, bool_decide_eq_true_2 in C0 by done. cbn in C0.
    destruct (heldthread k l); [lia|done]. }
  split; [done|]. constructor.
  - intros l'. specialize (H1 l'). specialize (Hc l'). unfold held in *. cbn in *.
    change (acquiring l' (set_heldthread l (Some t) (set_prog t rest k)))
      with (acquiring l' (set_prog t rest k)). rewrite Hc.
    destruct (decide (l' = l)) as [->|Hne].
    + rewrite fn_eq, bool_decide_eq_true_2 by done. rewrite Hn in H1. cbn. lia.
    + rewrite fn_ne, bool_decide_eq_false_2 by congruence. cbn. lia.
  - intros u. cbn. rewrite fn_case. destruct (decide (u = t)); [by left|apply H2].
Qed.

(** Taking the unit out of the semaphore. *)
Lemma take_lock_ok l off off' rest k :
  lock_ok k -> (current k < created k)%nat ->
  prog k (current k) = CP (SLock l) off :: CHold l off' :: rest -> lock_prog rest ->
  lock_ok (set_prog (current k) (CHold l off' :: rest)
    (set_value (SLock l) (value k (SLock l) - 1) k)).
Proof.
  intros [H1 H2] Ht Hp Hr. set (t := current k) in *. set (k' := set_prog _ _ _).
  constructor.
  - intros l'. specialize (H1 l'). unfold held in *. change (created k') with (created k).
    change (heldthread k') with (heldthread k).
    rewrite (cnt_change (acquiring l' k) (acquiring l' k') _ t Ht).
    2:{ intros u Hu. unfold acquiring. cbn. by rewrite fn_ne. }
    assert (acquiring l' k t = false) as -> by (unfold acquiring; by rewrite Hp).
    assert (acquiring l' k' t = bool_decide (l = l')) as -> by (unfold acquiring; cbn; by rewrite fn_eq).
    cbn. destruct (decide (l' = l)) as [->|Hne].
    + rewrite fn_lookup_insert, bool_decide_eq_true_2 by done. cbn. lia.
    + rewrite fn_lookup_insert_ne, bool_decide_eq_false_2 by congruence. cbn. lia.
  - intros u. cbn. rewrite fn_case. destruct (decide (u = t)); [|apply H2]. right. eauto.
Qed.

Lemma effect_lock_ok k : good k -> idle k = false -> sem_ok k -> lock_ok k -> lock_ok (effect k).
Proof.
  intros G Hi Hs H. assert (Hcur : status k (current k) = RUNNING) by (by apply G).
  assert (Ht : (current k < created k)%nat) by (apply live_created; [apply G|congruence]).
  unfold effect. destruct (prog k (current k)) as [|c rest] eqn:Hp; [by apply (lock_ok_same k)|].
  destruct (lk_prog _ H (current k)) as [Hl|(l & off & p & E & Hl)]; rewrite Hp in *.
  2:{ injection E as -> ->. by eapply Hold_lock_ok. }
  assert (Ha : forall l, acquiring l k (current k) = false) by (intros; by eapply lock_prog_head).
  inversion Hl; subst; try (case_match; [|by apply (take_lock_ok l off off')]).
  - destruct (value k (SUser n) =? 0).
    + apply (lock_ok_same (set_prog (current k) (CP (SUser n) true :: rest) k)); try done.
      by apply lock_ok_prog; [|constructor|..].
    + apply (lock_ok_same (set_prog (current k) rest k)); try done.
      by apply lock_ok_prog.
  - apply (lock_ok_same (set_prog (current k) (CP (SLock l) true :: CHold l off' :: p) k)); try done.
    by apply lock_ok_prog; [|constructor|..].
  - destruct (V_lock_same (SUser n) (set_prog (current k) rest k)) as (E1 & E2 & E3 & E4).
    apply (lock_ok_same (set_prog (current k) rest k)); try done; [by apply lock_ok_prog|].
    intros l. by rewrite E4, fn_lookup_insert_ne by done.
  - by apply Release_lock_ok, lock_ok_prog.
  - apply (lock_ok_same (set_prog (current k) (CP (SLock l) true :: CHold l true :: rest)
      (Release l k))); try done.
    apply lock_ok_prog; [by apply Release_lock_ok|by constructor|..].
    + unfold Release. destruct (isHeldByCurrentThread l k); [|done].
      by destruct (V_lock_same (SLock l) (set_heldthread l None k)) as (_ & _ & -> & _).
    + intros l'. specialize (Ha l'). unfold acquiring in *. unfold Release.
      destruct (isHeldByCurrentThread l k); [|done].
      by destruct (V_lock_same (SLock l) (set_heldthread l None k)) as (-> & _).
  - by apply Signal_lock_ok, lock_ok_prog.
  - by apply Broadcast_lock_ok, lock_ok_prog.
  - by apply lock_ok_prog.
  - by apply Fork_lock_ok; [apply lock_ok_prog|].
Qed.
