(* ===== verification/ThreadSafety.v ===== *)
(** * Reachable states of the kernel of Threads.v

    The invariants of Threads.v by induction on the steps from start-up, and
    what they say: the scheduler never fails, locks exclude each other, no
    wakeup is lost, ready threads run in their turn, and what happens to the
    remains of a thread that finishes. *)
From S2P Require Import Prelude Threads.
From Stdlib Require Import ZArith Lia List Bool.
From stdpp Require Import base tactics list numbers functions relations gmap.
Local Open Scope Z_scope.

(** ** Induction *)

Lemma boot_good main v : good (boot main v).
Proof.
  constructor; [constructor|..]; cbn.
  - apply NoDup_nil_2.
  - intros t. split; [by intros ?%not_elem_of_nil|]. by destruct (Nat.eqb_spec t 0).
  - intros t Ht. destruct (Nat.eqb_spec t 0); [lia|done].
  - intros q. apply NoDup_nil_2.
  - by intros q t ?%not_elem_of_nil.
  - by intros q q' t ?%not_elem_of_nil.
  - by intros s t ?%not_elem_of_nil.
  - done.
  - intros t Ht. destruct (Nat.eqb_spec t 0); [done|lia].
  - intros t. destruct (Nat.eqb_spec t 0); naive_solver.
  - done.
Qed.

Lemma boot_sem_ok main v : (forall n, 0 <= v n) -> sem_ok (boot main v).
Proof. intros Hv s. cbn. split; [by destruct s|done]. Qed.

Lemma boot_lock_ok main v : lock_prog main -> lock_ok (boot main v).
Proof.
  intros Hm. constructor.
  - intros l. unfold held. cbn [value boot heldthread created cnt].
    rewrite (lock_prog_head l main); done.
  - intros t. left. cbn. destruct (Nat.eqb t 0); [done|constructor].
Qed.

(** A step is a change of the synchronisation state and a switch. *)
Lemma step_cases k k' : good k -> step k k' ->
  good k' /\
  ((idle k = false /\ switched (effect k) k') \/ switched k k' \/ exists n, k' = V (SUser n) k).
Proof.
  intros G S. revert G. destruct S as [k1 k2 Hi E|k1 k2 Hi E|k1 n Hi|k1 k2 Hi E]; intros G.
  - destruct (exec_good k1 G Hi) as (k' & E' & G' & S). rewrite E in E'. injection E' as ->. auto.
  - apply andb_true_iff in Hi as [Hi _]. apply negb_true_iff in Hi.
    destruct (Yield_good k1 G Hi) as (k' & E' & G' & S). rewrite E in E'. injection E' as ->. auto.
  - split; [by apply V_good|]. eauto.
  - destruct (dispatch_good k1 G Hi) as (k' & E' & G' & S). rewrite E in E'. injection E' as ->. auto.
Qed.

Lemma step_sem_ok k k' : good k -> sem_ok k -> step k k' -> sem_ok k'.
Proof.
  intros G H S. destruct (step_cases k k' G S) as [_ [[Hi C]|[C|[n ->]]]].
  - eapply sem_ok_switched; [exact C|]. by apply effect_sem_ok.
  - by eapply sem_ok_switched.
  - apply V_sem_ok; [apply G|done].
Qed.

Lemma step_lock_ok k k' : good k -> sem_ok k -> lock_ok k -> step k k' -> lock_ok k'.
Proof.
  intros G H L S. destruct (step_cases k k' G S) as [_ [[Hi C]|[C|[n ->]]]].
  - eapply lock_ok_switched; [exact C|]. by apply effect_lock_ok.
  - by eapply lock_ok_switched.
  - destruct (V_lock_same (SUser n) k) as (E1 & E2 & E3 & E4). apply (lock_ok_same k); try done.
    intros l. by rewrite E4, fn_lookup_insert_ne.
Qed.

(** What every step keeps holds of every state it reaches. *)
Lemma rtc_invariant (I : Kern -> Prop) k0 k :
  (forall k1 k2, I k1 -> step k1 k2 -> I k2) -> I k0 -> rtc step k0 k -> I k.
Proof. intros Hs H0 H. induction H as [|k1 k2 k3 S _ IH]; eauto. Qed.

Lemma reach_good main v k : rtc step (boot main v) k -> good k.
Proof.
  apply (rtc_invariant good); [|apply boot_good]. intros k1 k2 G S. by eapply step_cases.
Qed.

Lemma reach_sem_ok main v k :
  (forall n, 0 <= v n) -> rtc step (boot main v) k -> good k /\ sem_ok k.
Proof.
  intros Hv. apply (rtc_invariant (fun k => good k /\ sem_ok k)).
  - intros k1 k2 [G H] S. split; [by eapply step_cases|by eapply step_sem_ok].
  - split; [apply boot_good|by apply boot_sem_ok].
Qed.

Lemma reach_lock_ok main v k :
  (forall n, 0 <= v n) -> lock_prog main -> rtc step (boot main v) k ->
  good k /\ sem_ok k /\ lock_ok k.
Proof.
  intros Hv Hm. apply (rtc_invariant (fun k => good k /\ sem_ok k /\ lock_ok k)).
  - intros k1 k2 (G & H & L) S. split; [by eapply step_cases|].
    split; [by eapply step_sem_ok|by eapply step_lock_ok].
  - split; [apply boot_good|]. split; [by apply boot_sem_ok|by apply boot_lock_ok].
Qed.



(** The thread has acquired lock [l]: it holds the unit, recorded or not. *)
Definition owns (l : nat) (k : Kern) (t : nat) : Prop :=
  (t < created k)%nat /\ (acquiring l k t = true \/ heldthread k l = Some t).

(** C2: Locks exclude each other.  If programs use the semaphore of a lock only
    through the lock, then in every reachable state at most one thread has
    acquired a lock; the lock is free (its semaphore is 1) exactly when none
    has; and a thread that records itself as the holder finds no other one
    recorded. *)
Theorem threads_mutual_exclusion main v k l :
  (forall n, 0 <= v n) -> lock_prog main -> rtc step (boot main v) k ->
  (forall t u, owns l k t -> owns l k u -> t = u) /\
  (value k (SLock l) = 1 -> forall t, ~ owns l k t) /\
  (idle k = false -> acquiring l k (current k) = true -> heldthread k l = None).
Proof.
  intros Hv Hm H. destruct (reach_lock_ok main v k Hv Hm H) as (G & S & [L1 L2]).
  specialize (L1 l). destruct (S (SLock l)) as [V0 _]. unfold held in L1.
  pose proof (cnt_nonneg (acquiring l k) (created k)) as C0.
  assert (One : forall t, (t < created k)%nat -> acquiring l k t = true ->
    heldthread k l = None /\ value k (SLock l) = 0).
  { intros t Ht Ha. rewrite (cnt_one _ _ t) in L1 by done.
    match type of L1 with context [cnt ?f ?n + 1] => pose proof (cnt_nonneg f n) end.
    destruct (heldthread k l); lia || (split; [done|lia]). }
  split; [|split].
  - intros t u [Ht [At|At]] [Hu [Au|Au]].
    + destruct (decide (t = u)) as [|Hne]; [done|].
      pose proof (cnt_two _ _ t u Ht Hu Hne At Au). destruct (heldthread k l); lia.
    + destruct (One t Ht At). congruence.
    + destruct (One u Hu Au). congruence.
    + congruence.
  - intros E t [Ht [At|At]]; [destruct (One t Ht At); lia|]. rewrite At in L1. lia.
  - intros Hi Ha. apply (One (current k)); [|done]. apply live_created; [apply G|].
    assert (status k (current k) = RUNNING) by (by apply G). congruence.
Qed.

(** ** Ready threads run in their turn *)

(** The ready list grows at its end, or its head has become the current thread. *)
Definition stays (k k' : Kern) : Prop := exists l, readyList k' = readyList k ++ l.
Definition switches (k k' : Kern) : Prop := exists next rest l,
  readyList k = next :: rest /\ readyList k' = rest ++ l /\ current k' = next.

(** Steps with [n] switches among them. *)
Inductive run : nat -> Kern -> Kern -> Prop :=
| run_refl k : run 0 k k
| run_stay n k1 k2 k3 : run n k1 k2 -> step k2 k3 -> stays k2 k3 -> run n k1 k3
| run_switch n k1 k2 k3 : run n k1 k2 -> step k2 k3 -> switches k2 k3 -> run (S n) k1 k3.

Lemma stays_same k k' : readyList k' = readyList k -> stays k k'.
Proof. intros E. exists []. by rewrite app_nil_r. Qed.

Lemma Run_ready next k k' : Run next k = Ok k' -> readyList k' = readyList k /\ current k' = next.
Proof.
  unfold Run, destroy, ASSERT_. destruct (started _ next); [|by intros [= <-]].
  cbn. destruct (threadToBeDestroyed k); cbn; [|by intros [= <-]].
  destruct (bool_decide _); cbn; [done|by intros [= <-]].
Qed.

Lemma Run_rest next rest k k1 k' :
  readyList k = next :: rest -> readyList k1 = rest \/ (exists l, readyList k1 = rest ++ l) ->
  Run next k1 = Ok k' -> switches k k'.
Proof.
  intros Hl Hr [E1 E2]%Run_ready. exists next, rest.
  destruct Hr as [Hr|[l Hr]]; [exists []|exists l]; rewrite E1, Hr, ?app_nil_r; done.
Qed.

Lemma Sleep_ready k0 k k' : stays k0 k -> Sleep k = Ok k' -> stays k0 k' \/ switches k0 k'.
Proof.
  intros [l Hl]. unfold Sleep. cbn [readyList setStatus]. rewrite Hl.
  destruct (readyList k0) as [|next rest] eqn:Hr; intros E.
  - left. exists (readyList k'). by rewrite Hr.
  - right. eapply Run_rest; [exact Hr|right|exact E]. by exists l.
Qed.

Lemma Yield_ready k k' : Yield k = Ok k' -> stays k k' \/ switches k k'.
Proof.
  unfold Yield. destruct (readyList k) as [|next rest] eqn:Hr; intros E.
  - left. exists (readyList k'). by rewrite Hr.
  - right. eapply Run_rest; [exact Hr|right|exact E]. by exists [current k].
Qed.

Lemma V_stays s k : stays k (V s k).
Proof. unfold V. destruct (queue k (QSem s)); [by apply stays_same|]. by eexists. Qed.

Lemma Release_stays l k : stays k (Release l k).
Proof.
  unfold Release. destruct (isHeldByCurrentThread l k); [|by apply stays_same].
  apply (V_stays (SLock l) (set_heldthread l None k)).
Qed.

Lemma Broadcast_stays c k : stays k (Broadcast c k).
Proof.
  unfold Broadcast. generalize (length (queue k (QCond c))). intros n.
  induction n as [|n [l IH]]; [by apply stays_same|].
  change (Nat.iter (S n) (Signal c) k) with (Signal c (Nat.iter n (Signal c) k)).
  revert IH. generalize (Nat.iter n (Signal c) k). intros k1 IH.
  unfold Signal. destruct (queue k1 (QCond c)) as [|t r]; [by exists l|].
  exists (l ++ [t]). cbn. by rewrite IH, <- app_assoc.
Qed.

(** Every step is counted. *)
Lemma step_ready k k' : step k k' -> stays k k' \/ switches k k'.
Proof.
  intros [k1 k2 Hi E|k1 k2 Hi E|k1 n Hi|k1 k2 Hi E].
  - unfold exec in E.
    destruct (prog k1 (current k1)) as [|[s off|s|l off|l|c l|c|c| |body] rest].
    + eapply Sleep_ready; [|exact E]. by apply stays_same.
    + unfold P in E. destruct (value k1 s =? 0).
      * eapply Sleep_ready; [|exact E]. by apply stays_same.
      * injection E as <-. left. by apply stays_same.
    + injection E as <-. left. apply (V_stays s (set_prog _ _ k1)).
    + injection E as <-. left. by apply stays_same.
    + injection E as <-. left. apply (Release_stays l (set_prog _ _ k1)).
    + eapply Sleep_ready; [|exact E]. destruct (Release_stays l k1) as [r Hr]. by exists r.
    + injection E as <-. left. unfold Signal. destruct (queue _ _); [by apply stays_same|by eexists].
    + injection E as <-. left. apply (Broadcast_stays c (set_prog _ _ k1)).
    + apply (Yield_ready (set_prog _ _ k1) k2 E).
    + injection E as <-. left. by eexists.
  - by apply Yield_ready.
  - left. apply V_stays.
  - unfold dispatch in E. destruct (readyList k1) as [|next rest] eqn:Hr.
    + injection E as <-. left. by apply stays_same.
    + right. eapply Run_rest; [exact Hr| |exact E]. by left.
Qed.

Lemma run_steps n k k' : run n k k' -> rtc step k k'.
Proof. induction 1 as [|n k1 k2 k3 _ IH S|n k1 k2 k3 _ IH S]; [done|..]; by eapply rtc_r. Qed.

(** C39: Bounded waiting.  Every step either leaves the threads on the ready list in
    their order, or runs the first of them.  A thread with [i] others before
    it on the ready list keeps its place and is running after [i + 1] context
    switches at the latest. *)
Theorem threads_bounded_waiting k i t :
  readyList k !! i = Some t ->
  (forall k1 k2 n, run n k k1 -> step k1 k2 -> run n k k2 \/ run (S n) k k2) /\
  (forall n k', run n k k' -> (n <= i)%nat -> readyList k' !! (i - n)%nat = Some t) /\
  (forall n k', run n k k' -> (i < n)%nat ->
     exists k1, run (S i) k k1 /\ current k1 = t /\ rtc step k1 k').
Proof.
  intros Ht. split; [|].
  { intros k1 k2 n R S. destruct (step_ready k1 k2 S);
      [left; by eapply run_stay|right; by eapply run_switch]. }
  assert (Keep : forall n k', run n k k' -> (n <= i)%nat -> readyList k' !! (i - n)%nat = Some t).
  { intros n k' R. induction R as [k|n k1 k2 k3 R IH St [l E]|n k1 k2 k3 R IH St (nx & rest & l & E1 & E2 & _)];
      intros Hn.
    - by rewrite Nat.sub_0_r.
    - rewrite E. apply lookup_app_l_Some. by apply IH.
    - specialize (IH Ht ltac:(lia)). rewrite E1 in IH. rewrite E2. apply lookup_app_l_Some.
      by replace (i - n)%nat with (S (i - S n)) in IH by lia. }
  split; [exact Keep|].
  intros n k' R. induction R as [k|n k1 k2 k3 R IH St C|n k1 k2 k3 R IH St C]; intros Hn; [lia|..].
  - destruct IH as (k4 & R4 & E4 & S4); [done..|]. exists k4. split; [done|]. split; [done|].
    by eapply rtc_r.
  - destruct (decide (i < n)%nat) as [Hlt|Hge].
    + destruct IH as (k4 & R4 & E4 & S4); [done..|]. exists k4. split; [done|]. split; [done|].
      by eapply rtc_r.
    + assert (n = i) as -> by lia. exists k3. split; [by eapply run_switch|].
      split; [|done]. pose proof (Keep i k2 R ltac:(lia)) as Hk. rewrite Nat.sub_diag in Hk.
      destruct C as (nx & rest & l & E1 & _ & E3). rewrite E1 in Hk. injection Hk as ->. done.
Qed.

(** ** Threads that finish *)

(** Thread [d] has finished, nobody is going to delete it, and it keeps its slot
    in the table of all threads. *)
Record leaked (d : nat) (k : Kern) : Prop := {
  lk_blocked : status k d = BLOCKED;
  lk_noqueue : forall q, d ∉ queue k q;
  lk_noready : d ∉ readyList k;
  lk_forgotten : threadToBeDestroyed k <> Some d;
  lk_current : current k <> d;
  lk_live : (d < created k)%nat;
  lk_slot : Some d ∈ GlobalThreadList k }.

Lemma Remove_other l d x : d <> x -> Some d ∈ l -> Some d ∈ RemoveThreadFromList l x.
Proof.
  intros Hne. induction l as [|y l IH]; [done|]. cbn. rewrite elem_of_cons. intros [<-|H].
  - rewrite bool_decide_eq_false_2; [left|]. by intros [= ?].
  - case_bool_decide; right; auto.
Qed.

Lemma Add_other l d x : Some d ∈ l -> Some d ∈ (AddNewThreadtoList l x).1.
Proof.
  induction l as [|[y|] l IH]; [done|..]; cbn; rewrite !elem_of_cons.
  - intros [H|H]; [by left|]. right. auto.
  - intros [?|H]; [done|]. by right.
Qed.

Lemma Run_leaked d next k k' : leaked d k -> next <> d -> Run next k = Ok k' -> leaked d k'.
Proof.
  intros [L1 L2 L3 L4 L5 L6 L7] Hne. unfold Run, destroy, ASSERT_.
  assert (Hs : (<[next := RUNNING]> (status k)) d = BLOCKED) by (by rewrite fn_ne).
  destruct (started _ next).
  - cbn. destruct (threadToBeDestroyed k) as [x|] eqn:Ex; cbn.
    + destruct (bool_decide (x = next)); cbn; [done|]. intros [= <-]. constructor; cbn; try done.
      apply Remove_other; [congruence|done].
    + intros [= <-]. constructor; cbn; try done. by rewrite Ex.
  - intros [= <-]. by constructor.
Qed.

Lemma ReadyToRun_leaked d t k : leaked d k -> t <> d -> leaked d (ReadyToRun t k).
Proof.
  intros [] Hne. constructor; cbn; try done; [by rewrite fn_ne|].
  rewrite elem_of_app, list_elem_of_singleton. intros [?| ->]; done.
Qed.

Lemma tail_leaked d next rest k :
  leaked d k -> readyList k = next :: rest -> next <> d /\ leaked d (set_readyList rest k).
Proof.
  intros [L1 L2 L3 L4 L5 L6 L7] Hr. rewrite Hr, elem_of_cons in L3. split; [naive_solver|].
  constructor; cbn; naive_solver.
Qed.

Lemma pop_leaked d q t rest k :
  leaked d k -> queue k q = t :: rest -> leaked d (ReadyToRun t (set_queue q rest k)).
Proof.
  intros [L1 L2 L3 L4 L5 L6 L7] Hq. apply ReadyToRun_leaked.
  - constructor; try done. intros q'. cbn. destruct (decide (q = q')) as [<-|].
    + rewrite fn_lookup_insert. specialize (L2 q). rewrite Hq, elem_of_cons in L2. tauto.
    + by rewrite fn_lookup_insert_ne.
  - intros ->. apply (L2 q). rewrite Hq. left.
Qed.

Lemma V_leaked d s k : leaked d k -> leaked d (V s k).
Proof.
  intros L. unfold V. destruct (queue k (QSem s)) as [|t rest] eqn:Hq.
  - by destruct L.
  - destruct (pop_leaked d _ t rest k L Hq). by constructor.
Qed.

Lemma Release_leaked d l k : leaked d k -> leaked d (Release l k).
Proof.
  intros L. unfold Release. destruct (isHeldByCurrentThread l k); [|done].
  apply V_leaked. by destruct L.
Qed.

Lemma Signal_leaked d c k : leaked d k -> leaked d (Signal c k).
Proof.
  intros L. unfold Signal. destruct (queue k (QCond c)) as [|t rest] eqn:Hq; [done|].
  by apply pop_leaked.
Qed.

Lemma Broadcast_leaked d c k : leaked d k -> leaked d (Broadcast c k).
Proof.
  intros L. unfold Broadcast. generalize (length (queue k (QCond c))). intros n.
  induction n as [|n IH]; [done|]. by apply Signal_leaked.
Qed.

Lemma Sleep_leaked d k k' : leaked d k -> Sleep k = Ok k' -> leaked d k'.
Proof.
  intros L. unfold Sleep. cbn [readyList setStatus].
  assert (L' : leaked d (setStatus (current k) BLOCKED k)).
  { destruct L. constructor; cbn; try done. by rewrite fn_ne. }
  destruct (readyList k) as [|next rest] eqn:E.
  - intros [= <-]. by destruct L'.
  - destruct (tail_leaked d next rest _ L' E). by apply Run_leaked.
Qed.

Lemma Yield_leaked d k k' : leaked d k -> Yield k = Ok k' -> leaked d k'.
Proof.
  intros L. unfold Yield. destruct (readyList k) as [|next rest] eqn:E; [by intros [= <-]|].
  destruct (tail_leaked d next rest k L E) as [Hne L'].
  apply Run_leaked; [|done]. apply ReadyToRun_leaked; [done|apply L].
Qed.

Lemma set_prog_leaked d t p k : leaked d k -> leaked d (set_prog t p k).
Proof. intros []. by constructor. Qed.

(** To go to sleep on a queue. *)
Lemma enqueue_leaked d q k :
  leaked d k -> leaked d (set_queue q (queue k q ++ [current k]) k).
Proof.
  intros [L1 L2 L3 L4 L5 L6 L7]. constructor; try done. intros q'. cbn.
  destruct (decide (q = q')) as [<-|]; [|by rewrite fn_lookup_insert_ne].
  rewrite fn_lookup_insert, elem_of_app, list_elem_of_singleton. naive_solver.
Qed.

Lemma Fork_leaked d body k : leaked d k -> leaked d (Fork body k).
Proof.
  intros [L1 L2 L3 L4 L5 L6 L7]. unfold Fork. apply ReadyToRun_leaked; [|lia].
  constructor; cbn; try done; [rewrite fn_ne; [done|lia]|lia|by apply Add_other].
Qed.

Lemma exec_leaked d k k' : leaked d k -> exec k = Ok k' -> leaked d k'.
Proof.
  intros L. unfold exec.
  assert (Lp : forall p, leaked d (set_prog (current k) p k)) by (intros; by apply set_prog_leaked).
  destruct (prog k (current k)) as [|[s off|s|l off|l|c l|c|c| |body] rest].
  - apply Sleep_leaked. destruct L. constructor; try done. cbn. congruence.
  - unfold P. destruct (value k s =? 0); intros E.
    + eapply Sleep_leaked; [|exact E]. apply set_prog_leaked. by apply enqueue_leaked.
    + injection E as <-. by destruct L.
  - intros [= <-]. by apply V_leaked.
  - intros [= <-]. by destruct L.
  - intros [= <-]. by apply Release_leaked.
  - unfold Wait. intros E. eapply Sleep_leaked; [|exact E]. apply set_prog_leaked.
    assert (Ec : current (Release l k) = current k).
    { unfold Release, V. destruct (isHeldByCurrentThread l k); [|done].
      by destruct (queue _ (QSem (SLock l))). }
    rewrite <- Ec. apply enqueue_leaked. by apply Release_leaked.
  - intros [= <-]. by apply Signal_leaked.
  - intros [= <-]. by apply Broadcast_leaked.
  - by apply Yield_leaked.
  - intros [= <-]. by apply Fork_leaked.
Qed.

Lemma step_leaked d k k' : leaked d k -> step k k' -> leaked d k'.
Proof.
  intros L S. revert L. destruct S as [k1 k2 _ E|k1 k2 _ E|k1 n _|k1 k2 _ E]; intros L.
  - by eapply exec_leaked.
  - by eapply Yield_leaked.
  - by apply V_leaked.
  - unfold dispatch in E. destruct (readyList k1) as [|next rest] eqn:Er; [congruence|].
    destruct (tail_leaked d next rest k1 L Er) as [Hne L']. eapply Run_leaked; [|exact Hne|exact E].
    by destruct L'.
Qed.

(** The thread waiting to be deleted is overwritten when the current one finishes. *)
Lemma Finish_leaked d k k1 :
  good k -> idle k = false -> threadToBeDestroyed k = Some d -> Some d ∈ GlobalThreadList k ->
  Finish k = Ok k1 -> leaked d k1.
Proof.
  intros G Hi Hd Hs. apply Sleep_leaked. destruct (p_dead _ (g_pool _ G) d Hd) as [B Q].
  assert (R : status k (current k) = RUNNING) by (by apply G).
  assert (Hne : current k <> d) by congruence. constructor; cbn; try done.
  - rewrite (p_ready _ (g_pool _ G)). congruence.
  - congruence.
  - apply live_created; [apply G|]. congruence.
Qed.

(** A finished thread can be forgotten.  [Scheduler::Run] deletes the thread
    that finished only when it continues a thread that had run before; a new
    thread begins elsewhere.  If such a new thread finishes while thread [d]
    still waits for its deletion, [d] is overwritten in [threadToBeDestroyed]:
    in every state reached from there, whatever the threads do, [d] keeps its
    slot in the table of all threads, and nothing can ever delete it. *)
Theorem threads_finish_leak main v k d k1 k' :
  rtc step (boot main v) k -> idle k = false -> prog k (current k) = [] ->
  threadToBeDestroyed k = Some d -> Some d ∈ GlobalThreadList k ->
  exec k = Ok k1 -> rtc step k1 k' ->
  leaked d k'.
Proof.
  intros G%reach_good Hi Hp Hd Hs E. unfold exec in E. rewrite Hp in E.
  apply (rtc_invariant (leaked d)); [apply step_leaked|]. by eapply Finish_leaked.
Qed.

(** ** Instances *)

(** The current threads run on, without interrupts. *)
Fixpoint execs (n : nat) (k : Kern) : outcome Kern :=
  match n with
  | O => Ok k
  | S n => if idle k then Ok k else k1 ← exec k; execs n k1
  end.

Definition after (n : nat) (k : Kern) : Kern :=
  match execs n k with Ok k' => k' | _ => k end.

Lemma execs_steps n k k' : execs n k = Ok k' -> rtc step k k'.
Proof.
  revert k. induction n as [|n IH]; intros k; cbn; [intros [= <-]; apply rtc_refl|].
  destruct (idle k) eqn:Hi; [intros [= <-]; apply rtc_refl|].
  destruct (exec k) as [k1|] eqn:E; cbn; try done. intros H.
  eapply rtc_l; [by apply step_exec|]. by apply IH.
Qed.

Lemma after_steps n k : rtc step k (after n k).
Proof.
  unfold after. destruct (execs n k) eqn:E; [by eapply execs_steps|apply rtc_refl..].
Qed.

(** Two threads and a lock: the second one waits for it, is woken up and takes
    it; the main thread sleeps on semaphore 0 meanwhile. *)
Definition two_threads : list cmd :=
  [CFork (Acquire 0 ++ [CRelease 0]); CFork (Acquire 0 ++ [CRelease 0; CP (SUser 0) false])] ++
  Acquire 0 ++ [CYield; CRelease 0; CP (SUser 0) false].

Definition no_values : nat -> Z := fun _ => 0.

Lemma two_threads_lock_prog : lock_prog two_threads.
Proof. repeat constructor. Qed.



Lemma threads_mutual_exclusion_witness :
  acquiring 0 (after 3 (boot two_threads no_values)) 0 = true /\
  heldthread (after 3 (boot two_threads no_values)) 0 = None /\
  (forall u, owns 0 (after 6 (boot two_threads no_values)) u -> u = 0%nat).
Proof.
  split; [vm_compute; reflexivity|]. split.
  - apply (threads_mutual_exclusion two_threads no_values); try (vm_compute; done).
    + apply two_threads_lock_prog.
    + apply after_steps.
  - intros u Hu. apply (threads_mutual_exclusion two_threads no_values
      (after 6 (boot two_threads no_values)) 0); [done|apply two_threads_lock_prog
      |apply after_steps|exact Hu|].
    split; [vm_compute; lia|right; vm_compute; reflexivity].
Defined.

Lemma threads_bounded_waiting_witness :
  let k := after 4 (boot two_threads no_values) in
  readyList k = [1%nat; 2%nat] /\ (forall n k', run n k k' -> (n <= 1)%nat -> readyList k' !! (1 - n)%nat = Some 2%nat).
Proof.
  split; [vm_compute; reflexivity|].
  apply (threads_bounded_waiting (after 4 (boot two_threads no_values)) 1 2).
  vm_compute. reflexivity.
Defined.

(** Two threads that do nothing: the first one is never deleted. *)
Lemma threads_finish_leak_witness :
  let k0 := boot [CFork []; CFork []; CYield] no_values in
  current (after 5 k0) = 0%nat /\ leaked 1 (after 5 k0).
Proof.
  set (main := [CFork []; CFork []; CYield]). split; [vm_compute; reflexivity|].
  apply (threads_finish_leak main no_values (after 4 (boot main no_values)) 1
           (after 5 (boot main no_values))); try (vm_compute; reflexivity).
  - apply after_steps.
  - apply (bool_decide_unpack _). vm_compute. exact I.
Defined.
