(* ===== verification/Interrupt.v ===== *)
(** * machine/interrupt.cc, machine/interrupt.h, machine/stats.h: simulated time

    The clock, the sorted list of pending interrupts and the interrupt level.
    The handlers of the devices and the rest of the kernel ([Thread::Yield],
    the slice counter of the current thread, the machine's delayed load) come
    in as the fields of the class [Kernel]; what the interrupt simulation needs
    of them are the classes [KernelLaws] and [YieldLaw], which Devices.v
    discharges for the timer, the disk, the console and the network over the
    thread system of Threads.v.  Times are C++ ints: sums wrap, and the theorems
    ask for a clock well below 2^31. *)
From S2P Require Import Prelude CInt.
From S2P Require LinkedList.
From Stdlib Require Import ZArith Lia List Bool.
From stdpp Require Import sorting base tactics list numbers gmap.
Local Open Scope Z_scope.

(** ** Data *)

Inductive IntStatus := IntOff | IntOn.
Inductive MachineStatus := IdleMode | SystemMode | UserMode.
Inductive IntType :=
| TimerInt | DiskInt | ConsoleWriteInt | ConsoleReadInt | NetworkSendInt | NetworkRecvInt.

#[global] Instance IntStatus_eq_dec : EqDecision IntStatus.
Proof. solve_decision. Defined.
#[global] Instance MachineStatus_eq_dec : EqDecision MachineStatus.
Proof. solve_decision. Defined.
#[global] Instance IntType_eq_dec : EqDecision IntType.
Proof. solve_decision. Defined.

(** stats.h; the counters of the disk are in Disk.v. *)
Record Statistics := mkStats {
  totalTicks : Z;
  idleTicks : Z;
  systemTicks : Z;
  userTicks : Z;
  numConsoleCharsRead : Z;
  numConsoleCharsWritten : Z;
  numPageFaults : Z;
  numPacketsSent : Z;
  numPacketsRecvd : Z }.

Definition Statistics_Statistics : Statistics := mkStats 0 0 0 0 0 0 0 0 0.

Definition UserTick : Z := 1.
Definition SystemTick : Z := 10.

Record PendingInterrupt (H : Type) := mkPending {
  handler : H;
  arg : Z;
  when : Z;
  type : IntType }.
Arguments mkPending {H} _ _ _ _.
Arguments handler {H} _.
Arguments arg {H} _.
Arguments when {H} _.
Arguments type {H} _.

(** The members of [Interrupt], the statistics, and the rest of the system. *)
Record Sys (H W : Type) := mkSys {
  level : IntStatus;
  pending : list (Z * PendingInterrupt H);
  inHandler : bool;
  yieldOnReturn : bool;
  mstatus : MachineStatus;
  stats : Statistics;
  world : W }.
Arguments mkSys {H W} _ _ _ _ _ _ _.
Arguments level {H W} _.
Arguments pending {H W} _.
Arguments inHandler {H W} _.
Arguments yieldOnReturn {H W} _.
Arguments mstatus {H W} _.
Arguments stats {H W} _.
Arguments world {H W} _.

(** [List::SortedInsert] of list.cc, for entries of any type. *)
Fixpoint sorted_insert {A} (it : A) (k : Z) (xs : list (Z * A)) : list (Z * A) :=
  match xs with
  | [] => [(k, it)]
  | x :: xs' => if k <? x.1 then (k, it) :: x :: xs' else x :: sorted_insert it k xs'
  end.

Definition IsEmpty {A} (xs : list A) : bool := match xs with [] => true | _ => false end.

(** It is the list of LinkedList.v, whatever the addresses of the entries. *)
Lemma sorted_insert_spec {A} (addr : A -> Z) it k xs :
  prod_map id addr <$> sorted_insert it k xs =
  LinkedList.Spec.sorted_insert (addr it) k (prod_map id addr <$> xs).
Proof.
  induction xs as [|[k' x] xs IH]; [done|]. cbn. destruct (k <? k'); [done|]. cbn. by f_equal.
Qed.

Section Interrupt.
Context {H W : Type}.
Implicit Types s : Sys H W.

Definition set_level l s :=
  mkSys l (pending s) (inHandler s) (yieldOnReturn s) (mstatus s) (stats s) (world s).
Definition set_pending (p : list (Z * PendingInterrupt H)) s :=
  mkSys (level s) p (inHandler s) (yieldOnReturn s) (mstatus s) (stats s) (world s).
Definition set_inHandler b s :=
  mkSys (level s) (pending s) b (yieldOnReturn s) (mstatus s) (stats s) (world s).
Definition set_yieldOnReturn b s :=
  mkSys (level s) (pending s) (inHandler s) b (mstatus s) (stats s) (world s).
Definition setStatus m s :=
  mkSys (level s) (pending s) (inHandler s) (yieldOnReturn s) m (stats s) (world s).
Definition set_stats st s :=
  mkSys (level s) (pending s) (inHandler s) (yieldOnReturn s) (mstatus s) st (world s).
Definition set_world (w : W) s :=
  mkSys (level s) (pending s) (inHandler s) (yieldOnReturn s) (mstatus s) (stats s) w.

Definition now s : Z := totalTicks (stats s).

(** ** Operations *)

(** [Interrupt::Interrupt]. *)
Definition Interrupt_Interrupt (w : W) : Sys H W :=
  mkSys IntOff [] false false SystemMode Statistics_Statistics w.

Definition ChangeLevel (lv : IntStatus) : M (Sys H W) unit := modify (set_level lv).

Definition YieldOnReturn : M (Sys H W) unit :=
  b ← gets inHandler;
  _ ← ASSERT b;
  modify (set_yieldOnReturn true).

Definition Schedule (h : H) (a fromNow : Z) (ty : IntType) : M (Sys H W) unit :=
  t ← gets now;
  let w := wrap32 (t + fromNow) in
  _ ← ASSERT (0 <? fromNow);
  modify (fun s => set_pending (sorted_insert (mkPending h a w ty) w (pending s)) s).

(** [Interrupt::Halt] prints the statistics and ends the simulation. *)
Definition Halt {A} : M (Sys H W) A := fail Halted.

(** The clock jumps to [w] while the machine is idle. *)
Definition advance (w : Z) (st : Statistics) : Statistics :=
  mkStats w (wrap32 (idleTicks st + (w - totalTicks st))) (systemTicks st) (userTicks st)
    (numConsoleCharsRead st) (numConsoleCharsWritten st) (numPageFaults st)
    (numPacketsSent st) (numPacketsRecvd st).

(** The clock of [OneTick]. *)
Definition tick (m : MachineStatus) (st : Statistics) : Statistics :=
  if decide (m = SystemMode) then
    mkStats (wrap32 (totalTicks st + SystemTick)) (idleTicks st)
      (wrap32 (systemTicks st + SystemTick)) (userTicks st)
      (numConsoleCharsRead st) (numConsoleCharsWritten st) (numPageFaults st)
      (numPacketsSent st) (numPacketsRecvd st)
  else
    mkStats (wrap32 (totalTicks st + UserTick)) (idleTicks st) (systemTicks st)
      (wrap32 (userTicks st + UserTick))
      (numConsoleCharsRead st) (numConsoleCharsWritten st) (numPageFaults st)
      (numPacketsSent st) (numPacketsRecvd st).
End Interrupt.

(** What the interrupt simulation calls: the handler of a device,
    [currentThread->Yield()], [currentThread->used_time_slice += 10] and
    [machine->DelayedLoad(0, 0)] (nothing in a kernel without user programs). *)
Class Kernel (H W : Type) := {
  call : H -> Z -> M (Sys H W) unit;
  thread_Yield : M (Sys H W) unit;
  charge_slice : W -> W;
  delayed_load : W -> W }.

Section Clock.
Context {H W : Type} `{K : Kernel H W}.

(** The handler of the interrupt [p] runs in system mode. *)
Definition invoke (p : PendingInterrupt H) : M (Sys H W) unit :=
  old ← gets mstatus;
  _ ← modify (fun s => set_world (delayed_load (world s)) s);
  _ ← modify (set_inHandler true);
  _ ← modify (setStatus SystemMode);
  _ ← call (handler p) (arg p);
  _ ← modify (setStatus old);
  modify (set_inHandler false).

Definition CheckIfDue (advanceClock : bool) : M (Sys H W) bool :=
  s ← get;
  _ ← ASSERT (bool_decide (level s = IntOff));
  match pending s with
  | [] => mret false
  | (w, toOccur) :: rest =>
    _ ← modify (set_pending rest);
    if negb advanceClock && (now s <? w) then
      _ ← modify (set_pending (sorted_insert toOccur w rest));
      mret false
    else
      _ ← (if now s <? w then modify (fun s => set_stats (advance w (stats s)) s) else mret tt);
      if bool_decide (mstatus s = IdleMode) && bool_decide (type toOccur = TimerInt) &&
         IsEmpty rest then
        _ ← modify (set_pending (sorted_insert toOccur w rest));
        mret false
      else
        _ ← invoke toOccur;
        mret true
  end.

(** [while (CheckIfDue(FALSE)) ;] *)
Fixpoint check_loop (fuel : nat) : M (Sys H W) unit :=
  match fuel with
  | O => fail Diverges
  | S fuel' => b ← CheckIfDue false; if (b : bool) then check_loop fuel' else mret tt
  end.

Definition OneTick (fuel : nat) : M (Sys H W) unit :=
  old ← gets mstatus;
  _ ← modify (fun s => set_stats (tick old (stats s)) s);
  _ ← ChangeLevel IntOff;
  _ ← check_loop fuel;
  _ ← ChangeLevel IntOn;
  y ← gets yieldOnReturn;
  if (y : bool) then
    _ ← modify (set_yieldOnReturn false);
    _ ← modify (setStatus SystemMode);
    _ ← thread_Yield;
    modify (setStatus old)
  else mret tt.

Definition SetLevel (fuel : nat) (to : IntStatus) : M (Sys H W) IntStatus :=
  old ← gets level;
  ih ← gets inHandler;
  _ ← ASSERT (bool_decide (to = IntOff) || negb ih);
  _ ← ChangeLevel to;
  _ ← (if bool_decide (to = IntOn) && bool_decide (old = IntOff) then
         _ ← modify (fun s => set_world (charge_slice (world s)) s);
         OneTick fuel
       else mret tt);
  mret old.

Definition Enable (fuel : nat) : M (Sys H W) unit :=
  _ ← SetLevel fuel IntOn; mret tt.

Definition Idle (fuel : nat) : M (Sys H W) unit :=
  _ ← modify (setStatus IdleMode);
  b ← CheckIfDue true;
  if (b : bool) then
    _ ← check_loop fuel;
    _ ← modify (set_yieldOnReturn false);
    modify (setStatus SystemMode)
  else Halt.
End Clock.

(** ** The pending list *)

Section Pending.
Context {A : Type}.
Implicit Types xs new : list (Z * A).

Definition keys_sorted xs : Prop := Sorted Z.le xs.*1.

(** The list after [Schedule] has been called for the entries of [new]. *)
Definition add_pending xs new : list (Z * A) :=
  foldl (fun acc e => sorted_insert e.2 e.1 acc) xs new.

Lemma pending_insert_sorted (it : A) k xs : keys_sorted xs -> keys_sorted (sorted_insert it k xs).
Proof.
  assert (E : forall ys : list (Z * A), ys.*1 = (prod_map id (fun _ : A => 0) <$> ys).*1).
  { intros ys. rewrite <- list_fmap_compose. by apply list_fmap_ext. }
  unfold keys_sorted. rewrite !E, sorted_insert_spec. apply LinkedList.sorted_insert_sorted.
Qed.

Lemma add_pending_sorted xs new : keys_sorted xs -> keys_sorted (add_pending xs new).
Proof.
  unfold add_pending. revert xs. induction new as [|e new IH]; intros xs Hs; [done|]. cbn.
  apply IH. by apply pending_insert_sorted.
Qed.

Lemma sorted_insert_elem (it : A) k xs e : e ∈ sorted_insert it k xs <-> e = (k, it) \/ e ∈ xs.
Proof.
  induction xs as [|x xs IH]; cbn; [by rewrite list_elem_of_singleton, elem_of_nil; tauto|].
  destruct (k <? x.1); rewrite !elem_of_cons, ?IH; tauto.
Qed.

(** Entries for the future do not change what is due. *)
Lemma sorted_insert_due (it : A) k t xs : t < k ->
  filter (fun e : Z * A => e.1 <= t) (sorted_insert it k xs) = filter (fun e => e.1 <= t) xs.
Proof.
  intros Hk. induction xs as [|x xs IH]; cbn [sorted_insert].
  - by rewrite filter_cons_False by (cbn; lia).
  - destruct (k <? x.1).
    + by rewrite filter_cons_False by (cbn; lia).
    + rewrite !filter_cons, IH. done.
Qed.

Lemma add_pending_due t xs new : Forall (fun e : Z * A => t < e.1) new ->
  filter (fun e : Z * A => e.1 <= t) (add_pending xs new) = filter (fun e => e.1 <= t) xs.
Proof.
  unfold add_pending. revert xs. induction new as [|e new IH]; intros xs Hn; [done|].
  apply Forall_cons_1 in Hn as [H1 H2]. cbn [foldl]. rewrite IH by done. by apply sorted_insert_due.
Qed.

Lemma sorted_tail e xs : keys_sorted (e :: xs) -> keys_sorted xs.
Proof. unfold keys_sorted. cbn. by inversion 1. Qed.

Lemma sorted_head_le e xs : keys_sorted (e :: xs) -> Forall (fun x : Z * A => e.1 <= x.1) xs.
Proof.
  unfold keys_sorted. intros Hs. apply Sorted_StronglySorted in Hs; [|intros a b c; lia].
  cbn in Hs. inversion Hs as [|? ? _ Hf]; subst. by rewrite Forall_fmap in Hf.
Qed.

Lemma sorted_future t e xs :
  keys_sorted (e :: xs) -> t < e.1 -> Forall (fun x : Z * A => t < x.1) (e :: xs).
Proof.
  intros Hs Ht. constructor; [done|]. eapply Forall_impl; [exact (sorted_head_le e xs Hs)|]. cbn. lia.
Qed.

Lemma future_due t xs :
  Forall (fun x : Z * A => t < x.1) xs -> filter (fun e : Z * A => e.1 <= t) xs = [].
Proof.
  induction 1 as [|x xs Hx _ IH]; [done|]. by rewrite filter_cons_False by lia.
Qed.
End Pending.

(** ** What the handlers promise *)

Definition clock_ok {H W} (s : Sys H W) : Prop := 0 <= now s < 2 ^ 31 - 2 ^ 20.

Definition ticks (st : Statistics) : Z * Z * Z * Z :=
  (totalTicks st, idleTicks st, systemTicks st, userTicks st).

(** A handler touches neither the clock nor the interrupt state, and schedules
    interrupts in the future only. *)
Record scheduled {H W} (s s' : Sys H W) : Prop := {
  sc_level : level s' = level s;
  sc_inHandler : inHandler s' = inHandler s;
  sc_status : mstatus s' = mstatus s;
  sc_ticks : ticks (stats s') = ticks (stats s);
  sc_pending : exists new, Forall (fun e => now s < e.1) new /\
                 pending s' = add_pending (pending s) new }.

Lemma scheduled_now {H W} (s s' : Sys H W) : scheduled s s' -> now s' = now s.
Proof. intros [_ _ _ E _]. unfold now, ticks in *. congruence. Qed.

Lemma scheduled_refl {H W} (s : Sys H W) : scheduled s s.
Proof. constructor; try done. by exists []. Qed.

Lemma scheduled_trans {H W} (s1 s2 s3 : Sys H W) :
  scheduled s1 s2 -> scheduled s2 s3 -> scheduled s1 s3.
Proof.
  intros S1 S2. pose proof (scheduled_now _ _ S1) as E.
  destruct S1 as [A1 A2 A3 A4 (n1 & N1 & P1)], S2 as [B1 B2 B3 B4 (n2 & N2 & P2)].
  constructor; try congruence. exists (n1 ++ n2). rewrite E in N2. split.
  - by apply Forall_app.
  - rewrite P2, P1. unfold add_pending. by rewrite foldl_app.
Qed.

(** [I]: what handlers need of the rest of the system; [R]: what they may do
    to it. *)
Class KernelLaws {H W} (K : Kernel H W) (I : W -> Prop) (R : W -> W -> Prop) := {
  laws_preorder :: PreOrder R;
  call_ok : forall h a s,
    I (world s) -> clock_ok s -> level s = IntOff -> inHandler s = true -> mstatus s = SystemMode ->
    exists s', call h a s = Ok (tt, s') /\ scheduled s s' /\ I (world s') /\ R (world s) (world s');
  charge_ok : forall w, I w -> I (charge_slice w) /\ R w (charge_slice w);
  delayed_ok : forall w, I w -> I (delayed_load w) /\ R w (delayed_load w) }.

(** Where a thread is running, it can give up the processor. *)
Class YieldLaw {H W} (K : Kernel H W) (I : W -> Prop) (R : W -> W -> Prop) :=
  yield_ok : forall s, I (world s) ->
    exists w, thread_Yield s = Ok (tt, set_world w s) /\ R (world s) w.

(** ** The loop over due interrupts *)

Section Laws.
Context {H W : Type} {K : Kernel H W} {I : W -> Prop} {R : W -> W -> Prop} {L : KernelLaws K I R}.
Implicit Types s : Sys H W.

(** The interrupts whose time has come. *)
Definition due s : list (Z * PendingInterrupt H) :=
  filter (fun e => e.1 <= now s) (pending s).

(** The handlers of the interrupts [es], each after it left the list. *)
Fixpoint fire (es : list (Z * PendingInterrupt H)) : M (Sys H W) unit :=
  match es with
  | [] => mret tt
  | e :: es' =>
    _ ← modify (fun s => set_pending (tail (pending s)) s);
    _ ← invoke e.2;
    fire es'
  end.

(** The first interrupt that is not due is taken off the list and put back. *)
Definition put_back : M (Sys H W) unit :=
  modify (fun s => match pending s with
                   | [] => s
                   | (w, p) :: rest => set_pending (sorted_insert p w rest) s
                   end).

(** Between handlers. *)
Record ready s : Prop := {
  rd_I : I (world s);
  rd_clock : clock_ok s;
  rd_level : level s = IntOff;
  rd_inHandler : inHandler s = false;
  rd_sorted : keys_sorted (pending s) }.

(** From one state between handlers to another. *)
Record same_time s s' : Prop := {
  st_ready : ready s';
  st_ticks : ticks (stats s') = ticks (stats s);
  st_status : mstatus s' = mstatus s;
  st_R : R (world s) (world s') }.

Lemma same_time_now s s' : same_time s s' -> now s' = now s.
Proof. intros [_ E _ _]. unfold now, ticks in *. congruence. Qed.

Lemma same_time_trans s1 s2 s3 : same_time s1 s2 -> same_time s2 s3 -> same_time s1 s3.
Proof.
  intros [A1 A2 A3 A4] [B1 B2 B3 B4]. constructor; [done|congruence..|]. by transitivity (world s2).
Qed.

Lemma invoke_ok p s rest :
  ready s -> keys_sorted rest ->
  exists s', invoke p (set_pending rest s) = Ok (tt, s') /\ same_time s s' /\
    exists new, Forall (fun e => now s < e.1) new /\ pending s' = add_pending rest new.
Proof.
  intros [A1 A2 A3 A4 A5] Hr. unfold invoke. do 4 mstep. cbn [gets].
  destruct (delayed_ok _ A1) as [D1 D2].
  edestruct (call_ok (handler p) (arg p)
    (setStatus SystemMode (set_inHandler true (set_world (delayed_load (world s)) (set_pending rest s)))))
    as (s1 & E & [B1 B2 B3 B4 (new & N1 & N2)] & HI & HR); [done..|].
  cbn [world set_pending] in E |- *. mstep by exact E. mstep. eexists. split; [reflexivity|]. split.
  - constructor; cbn; [|done|done|by etransitivity]. constructor; cbn; [done| |by rewrite B1|done|].
    + unfold clock_ok, now in *. cbn. unfold ticks in B4. cbn in B4. by injection B4 as -> _ _ _.
    + cbn in N2. rewrite N2. by apply add_pending_sorted.
  - exists new. by cbn in N1, N2 |- *.
Qed.

(** The state the loop stops in: nothing is due, but for the timer alone when
    the machine is idle. *)
Definition settled s : Prop :=
  Forall (fun e => now s < e.1) (pending s) \/
  (mstatus s = IdleMode /\ exists e, pending s = [e] /\ type e.2 = TimerInt).

Lemma ready_set_pending s rest : ready s -> keys_sorted rest -> ready (set_pending rest s).
Proof. intros []. by constructor. Qed.

Lemma same_time_set_pending s rest :
  ready s -> keys_sorted rest -> same_time s (set_pending rest s).
Proof. intros Hr Hs. constructor; [by apply ready_set_pending|done..]. Qed.

(** One round of the loop. *)
Lemma CheckIfDue_false s w p rest :
  ready s -> pending s = (w, p) :: rest -> w <= now s ->
  (mstatus s = IdleMode -> type p = TimerInt -> rest <> []) ->
  exists s', CheckIfDue false s = Ok (true, s') /\ invoke p (set_pending rest s) = Ok (tt, s') /\
    same_time s s' /\ due s = (w, p) :: due s'.
Proof.
  intros Hr Hp Hw Hidle. pose proof (rd_sorted _ Hr) as Hs. rewrite Hp in Hs.
  destruct (invoke_ok p s rest Hr (sorted_tail _ _ Hs)) as (s' & E & St & new & N1 & N2).
  exists s'. split; [|split; [done|split; [done|]]].
  - unfold CheckIfDue. mstep. rewrite (bool_decide_eq_true_2 (level s = IntOff)) by apply Hr. mstep. rewrite Hp. mstep.
    cbn [negb andb]. rewrite (proj2 (Z.ltb_ge _ _) Hw). mstep.
    replace (_ && _ && _) with false.
    + by mstep by exact E.
    + symmetry. apply andb_false_iff. destruct (decide (mstatus s = IdleMode));
        [|left; rewrite bool_decide_eq_false_2; done].
      destruct (decide (type p = TimerInt)); [right|left; apply andb_false_iff; right;
        by apply bool_decide_eq_false_2].
      destruct rest; [|done]. by destruct Hidle.
  - unfold due. rewrite Hp, filter_cons_True by done.
    by rewrite (same_time_now _ _ St), N2, add_pending_due.
Qed.

(** The last round: nothing is due, or the machine idles with the timer only. *)
Lemma CheckIfDue_stop s :
  ready s ->
  Forall (fun e => now s < e.1) (pending s) \/
  (mstatus s = IdleMode /\ exists e, pending s = [e] /\ type e.2 = TimerInt) ->
  exists s', CheckIfDue false s = Ok (false, s') /\ put_back s = Ok (tt, s') /\
    same_time s s' /\ settled s'.
Proof.
  intros Hr Hs. pose proof (rd_sorted _ Hr) as Hso. unfold CheckIfDue, put_back, modify.
  destruct (pending s) as [|[w p] rest] eqn:Hp.
  - exists s. mstep. rewrite (bool_decide_eq_true_2 (level s = IntOff)) by apply Hr. mstep. rewrite Hp.
    split; [done|]. split; [done|]. split; [by constructor|]. left. by rewrite Hp.
  - exists (set_pending (sorted_insert p w rest) s). split; [|split; [done|split]].
    + mstep. rewrite (bool_decide_eq_true_2 (level s = IntOff)) by apply Hr. mstep. rewrite Hp. mstep.
      destruct (Z.ltb_spec (now s) w) as [Hlt|Hge]; cbn [negb andb].
      * by mstep.
      * destruct Hs as [[Hf _]%Forall_cons_1|(Hi & e & [= <- ->] & Ht)]; [cbn in Hf; lia|].
        mstep. cbn in Ht. rewrite !bool_decide_eq_true_2 by done. reflexivity.
    + apply same_time_set_pending; [done|]. apply pending_insert_sorted. by eapply sorted_tail.
    + destruct Hs as [Hf|(Hi & e & [= <- ->] & Ht)].
      * left. rewrite Forall_forall in Hf |- *. intros e He. apply Hf.
        cbn in He. rewrite sorted_insert_elem in He. by rewrite elem_of_cons.
      * right. split; [done|]. by exists (w, p).
Qed.

Lemma check_loop_ok fuel s :
  ready s -> (length (due s) < fuel)%nat ->
  exists s', check_loop fuel s = Ok (tt, s') /\ same_time s s' /\ settled s' /\
    (mstatus s <> IdleMode -> (fire (due s) ≫= fun _ => put_back) s = Ok (tt, s')).
Proof.
  revert s. induction fuel as [|fuel IH]; intros s Hr Hf; [lia|]. cbn [check_loop].
  assert (Hstop : Forall (fun e => now s < e.1) (pending s) \/
    (mstatus s = IdleMode /\ exists e, pending s = [e] /\ type e.2 = TimerInt) ->
    exists s', (CheckIfDue false ≫= fun b : bool => if b then check_loop fuel else mret tt) s = Ok (tt, s') /\
      same_time s s' /\ settled s' /\
      (mstatus s <> IdleMode -> (fire (due s) ≫= fun _ => put_back) s = Ok (tt, s'))).
  { intros Hs. destruct (CheckIfDue_stop s Hr Hs) as (s' & E1 & E2 & St & Se).
    exists s'. rewrite (bind_run _ _ _ _ _ E1). split; [done|]. split; [done|]. split; [done|].
    intros Hi. destruct Hs as [Hs|[? _]]; [|done]. unfold due. by rewrite future_due. }
  destruct (pending s) as [|[w p] rest] eqn:Hp; [apply Hstop; by left|].
  pose proof (rd_sorted _ Hr) as Hso. rewrite Hp in Hso.
  destruct (Z.ltb_spec (now s) w) as [Hlt|Hge]; [apply Hstop; left; by apply sorted_future|].
  destruct (decide (mstatus s = IdleMode /\ type p = TimerInt /\ rest = [])) as [(Hi & Ht & ->)|Hn].
  { apply Hstop. right. split; [done|]. by exists (w, p). }
  destruct (CheckIfDue_false s w p rest Hr Hp Hge ltac:(naive_solver)) as (s1 & E1 & E2 & St & Ed).
  destruct (IH s1 ltac:(apply St)) as (s' & E3 & St' & Se & Ef); [rewrite Ed in Hf; cbn in Hf; lia|].
  exists s'. rewrite (bind_run _ _ _ _ _ E1). split; [done|].
  split; [by eapply same_time_trans|]. split; [done|]. intros Hi. rewrite Ed. cbn [fire].
  specialize (Ef ltac:(by rewrite (st_status _ _ St))). unfold mbind, M_bind in Ef |- *.
  unfold modify at 1. rewrite Hp. cbn [tail snd]. rewrite E2. exact Ef.
Qed.

(** ** OneTick *)

(** [OneTick] with the loop replaced by the handlers that are due when it
    starts, in the order of the list. *)
Definition OneTick_spec : M (Sys H W) unit :=
  old ← gets mstatus;
  _ ← modify (fun s => set_stats (tick old (stats s)) s);
  _ ← ChangeLevel IntOff;
  s ← get;
  _ ← (fire (due s) ≫= fun _ => put_back);
  _ ← ChangeLevel IntOn;
  y ← gets yieldOnReturn;
  if (y : bool) then
    _ ← modify (set_yieldOnReturn false);
    _ ← modify (setStatus SystemMode);
    _ ← thread_Yield;
    modify (setStatus old)
  else mret tt.

Definition tick_of (m : MachineStatus) : Z := if decide (m = SystemMode) then SystemTick else UserTick.

(** Every tick is accounted for as idle, system or user time. *)
Record balanced (st : Statistics) : Prop := {
  bl_idle : 0 <= idleTicks st;
  bl_system : 0 <= systemTicks st;
  bl_user : 0 <= userTicks st;
  bl_total : totalTicks st = idleTicks st + systemTicks st + userTicks st }.

Lemma tick_of_range m : 1 <= tick_of m <= 10.
Proof. unfold tick_of, SystemTick, UserTick. case_decide; lia. Qed.

Lemma tick_total m st :
  0 <= totalTicks st < 2 ^ 31 - 10 -> totalTicks (tick m st) = totalTicks st + tick_of m.
Proof.
  intros Ht. unfold tick, tick_of, SystemTick, UserTick. case_decide; cbn; apply wrap32_small;
    unfold is_int; lia.
Qed.

Lemma tick_balanced m st : balanced st -> totalTicks st < 2 ^ 31 - 10 -> balanced (tick m st).
Proof.
  intros [B1 B2 B3 B4] Ht. unfold tick, SystemTick, UserTick.
  case_decide; constructor; cbn; rewrite ?wrap32_small by (unfold is_int; lia); lia.
Qed.

Lemma balanced_ticks st st' : ticks st' = ticks st -> balanced st -> balanced st'.
Proof. unfold ticks. intros [= E1 E2 E3 E4] []. by constructor; rewrite ?E1, ?E2, ?E3, ?E4. Qed.

(** Between calls of the kernel, with interrupts enabled. *)
Record running s : Prop := {
  rn_I : I (world s);
  rn_clock : 0 <= now s < 2 ^ 31 - 2 ^ 20 - 10;
  rn_inHandler : inHandler s = false;
  rn_sorted : keys_sorted (pending s);
  rn_status : mstatus s <> IdleMode;
  rn_balanced : balanced (stats s) }.

(** The state in which [OneTick] looks for due interrupts. *)
Definition ticked s : Sys H W := set_level IntOff (set_stats (tick (mstatus s) (stats s)) s).

Lemma now_ticked s : running s -> now (ticked s) = now s + tick_of (mstatus s).
Proof. intros []. unfold now in *. cbn. apply tick_total. lia. Qed.

Lemma ready_ticked s : running s -> ready (ticked s).
Proof.
  intros Hr. pose proof (now_ticked s Hr). pose proof (tick_of_range (mstatus s)).
  destruct Hr. constructor; try done. unfold clock_ok. lia.
Qed.

Context {Y : YieldLaw K I R}.

Lemma OneTick_ok fuel s :
  running s -> (length (pending s) < fuel)%nat ->
  OneTick fuel s = OneTick_spec s /\
  exists s', OneTick fuel s = Ok (tt, s') /\
    now s' = now s + tick_of (mstatus s) /\ balanced (stats s') /\
    level s' = IntOn /\ inHandler s' = false /\ yieldOnReturn s' = false /\ mstatus s' = mstatus s /\
    keys_sorted (pending s') /\ Forall (fun e => now s' < e.1) (pending s') /\
    R (world s) (world s').
Proof.
  intros Hr Hf. destruct (check_loop_ok fuel (ticked s) (ready_ticked s Hr)) as (s1 & E1 & St & Se & Ef).
  { unfold due. eapply Nat.le_lt_trans; [apply length_filter|]. done. }
  specialize (Ef (rn_status _ Hr)). pose proof (same_time_now _ _ St) as Hn.
  rewrite (now_ticked s Hr) in Hn.
  assert (Bl : balanced (stats s1)).
  { eapply balanced_ticks; [apply St|]. cbn. apply tick_balanced; [apply Hr|].
    destruct Hr as [? Hc]. unfold now in Hc. lia. }
  assert (Hs : mstatus s1 = mstatus s) by apply St.
  assert (Hfut : Forall (fun e => now s1 < e.1) (pending s1)).
  { destruct Se as [Se|[Hi _]]; [done|]. rewrite Hs in Hi. by destruct (rn_status _ Hr). }
  destruct St as [[A1 A2 A3 A4 A5] B2 B3 B4]. split.
  - unfold OneTick, OneTick_spec. do 3 mstep. mstep by exact E1. do 2 mstep. symmetry.
    do 4 mstep. mstep by exact Ef. do 2 mstep. done.
  - unfold OneTick. do 3 mstep. mstep by exact E1. do 2 mstep.
    destruct (yieldOnReturn (set_level IntOn s1)) eqn:Ey.
    + destruct (yield_ok (setStatus SystemMode (set_yieldOnReturn false (set_level IntOn s1))) A1)
        as (w & Ew & HR).
      do 2 mstep. mstep by exact Ew. eexists. split; [reflexivity|]. cbn.
      splits; try done. cbn in *. by etransitivity.
    + eexists. split; [reflexivity|]. cbn. splits; done.
Qed.

(** ** Idle *)

(** Nothing to wait for: no interrupt is pending, or only the timer's. *)
Definition nothing_pending s : bool :=
  match pending s with
  | [] => true
  | [e] => bool_decide (type e.2 = TimerInt)
  | _ => false
  end.

Lemma Idle_halts fuel s :
  level s = IntOff -> nothing_pending s = true -> Idle fuel s = Fault Halted.
Proof.
  intros Hl Hn. unfold Idle, CheckIfDue. mstep. unfold nothing_pending in Hn.
  unfold mbind, M_bind, get, ASSERT. cbn [level setStatus pending].
  rewrite (bool_decide_eq_true_2 (level s = IntOff)) by done.
  destruct (pending s) as [|[w p] [|]] eqn:Hp; [done| |done]. apply bool_decide_eq_true in Hn.
  cbn [type snd] in Hn. cbn. rewrite (bool_decide_eq_true_2 (type p = TimerInt)) by done. cbn.
  by destruct (_ <? w).
Qed.

(** The clock jumps to [w], unless it is later already. *)
Definition jumped (w : Z) s : Sys H W :=
  if now s <? w then set_stats (advance w (stats s)) s else s.

Lemma now_jumped w s : now (jumped w s) = Z.max (now s) w.
Proof. unfold jumped. destruct (Z.ltb_spec (now s) w); cbn; lia. Qed.

Lemma jumped_balanced w s :
  balanced (stats s) -> 0 <= w < 2 ^ 31 -> balanced (stats (jumped w s)).
Proof.
  intros [B1 B2 B3 B4] Hw. unfold jumped. destruct (Z.ltb_spec (now s) w) as [Hlt|]; [|done].
  unfold now in Hlt. constructor; cbn; rewrite ?wrap32_small by (unfold is_int; lia); lia.
Qed.

Lemma jumped_ready w s : ready s -> 0 <= w < 2 ^ 31 - 2 ^ 20 -> ready (jumped w s).
Proof.
  intros [A1 A2 A3 A4 A5] Hw.
  constructor; try (unfold jumped; by destruct (now s <? w)).
Qed.

(** The first interrupt of an idle machine. *)
Lemma CheckIfDue_true s w p rest :
  ready s -> 0 <= w < 2 ^ 31 - 2 ^ 20 -> mstatus s = IdleMode -> pending s = (w, p) :: rest ->
  nothing_pending s = false ->
  exists s', CheckIfDue true s = Ok (true, s') /\ same_time (jumped w s) s' /\
    (length (due s') <= length rest)%nat.
Proof.
  intros Hr Hw Hi Hp Hn. pose proof (rd_sorted _ Hr) as Hs. rewrite Hp in Hs.
  destruct (invoke_ok p (jumped w s) rest (jumped_ready w s Hr Hw) (sorted_tail _ _ Hs))
    as (s' & E & St & new & N1 & N2).
  assert (Hl : (length (due s') <= length rest)%nat).
  { unfold due. rewrite (same_time_now _ _ St), N2, add_pending_due by done. apply length_filter. }
  exists s'. split; [|done]. unfold CheckIfDue. mstep.
  rewrite (bool_decide_eq_true_2 (level s = IntOff)) by apply Hr. mstep. rewrite Hp. mstep.
  cbn [negb andb].
  assert (Hc : bool_decide (type p = TimerInt) && IsEmpty rest = false).
  { unfold nothing_pending in Hn. rewrite Hp in Hn. destruct rest; [|apply andb_false_r].
    cbn in Hn |- *. by rewrite Hn. }
  rewrite <- andb_assoc, Hc, andb_false_r. unfold jumped in E.
  destruct (now s <? w); mstep; by mstep by exact E.
Qed.

Lemma Idle_ok fuel s :
  ready s -> balanced (stats s) -> (length (pending s) < fuel)%nat -> nothing_pending s = false ->
  Forall (fun e => 0 <= e.1 < 2 ^ 31 - 2 ^ 20) (pending s) ->
  exists e s', head (pending s) = Some e /\ Idle fuel s = Ok (tt, s') /\
    now s' = Z.max (now s) e.1 /\ balanced (stats s') /\ ready s' /\
    mstatus s' = SystemMode /\ yieldOnReturn s' = false /\
    (Forall (fun e => now s' < e.1) (pending s') \/ nothing_pending s' = true) /\
    R (world s) (world s').
Proof.
  intros Hr Hb Hf Hn Hw. destruct (pending s) as [|[w p] rest] eqn:Hp.
  { unfold nothing_pending in Hn. by rewrite Hp in Hn. }
  apply Forall_cons_1 in Hw as [Hw _]. cbn in Hw.
  set (s0 := setStatus IdleMode s).
  assert (Hr0 : ready s0) by (by destruct Hr).
  destruct (CheckIfDue_true s0 w p rest Hr0 Hw eq_refl Hp Hn) as (s1 & E1 & St1 & Hl).
  destruct (check_loop_ok fuel s1 ltac:(apply St1)) as (s2 & E2 & St2 & Se & _);
    [cbn in Hf; lia|].
  pose proof (same_time_trans _ _ _ St1 St2) as [A1 A2 A3 A4].
  exists (w, p), (setStatus SystemMode (set_yieldOnReturn false s2)). split; [done|]. split.
  { unfold Idle. mstep. mstep by exact E1. mstep by exact E2. by mstep. }
  assert (En : now s2 = Z.max (now s) w).
  { change (now s) with (now s0). rewrite <- now_jumped. unfold now, ticks in *. congruence. }
  split; [exact En|]. split; [|split; [|split; [done|split; [done|split]]]].
  - eapply balanced_ticks; [exact A2|]. apply jumped_balanced; [done|lia].
  - by destruct A1.
  - destruct Se as [Se|(_ & e & Hpe & Ht)]; [by left|right]. unfold nothing_pending. cbn.
    rewrite Hpe. by apply bool_decide_eq_true_2.
  - cbn. change (world s) with (world s0). etransitivity; [|exact A4].
    unfold jumped. by destruct (now s0 <? w).
Qed.
End Laws.
