(* ===== verification/Devices.v ===== *)
(** * machine/timer.cc, machine/console.cc, machine/network.cc: the devices

    The devices that cause interrupts, their handlers, and the kernel they
    interrupt (Threads.v): the concrete [Kernel] of Interrupt.v.  The keyboard
    and the socket hold what the outside world has sent so far, the display and
    the outgoing socket what the kernel has sent.  [rand n] is what the [n]-th
    call of the C library's [rand] returns; [junk] is the content of memory
    that [new] returns.  The handler of each device ends in [V] on a semaphore:
    that of the synchronous disk, those of SynchConsole, those of the post
    office.  The kernel is one without user programs: there is no delayed load
    to finish before a handler runs. *)
From S2P Require Import Prelude CInt Threads Interrupt.
From S2P Require Disk ThreadSafety.
From Stdlib Require Import ZArith QArith Lia List Bool.
From stdpp Require Import base tactics list numbers functions relations gmap.
Local Open Scope Z_scope.

(** ** Constants: stats.h, network.h *)

Definition ConsoleTime : Z := 100.
Definition NetworkTime : Z := 100.
Definition TimerTicks : Z := 100.
Definition EOF : Z := -1.
Definition MaxWireSize : nat := 64.
Definition PacketHeader_size : nat := 12.
Definition MaxPacketSize : nat := MaxWireSize - PacketHeader_size.

(** The interrupt routines that devices register. *)
Inductive Handler :=
| TimerHandler | DiskDone | ConsoleReadPoll | ConsoleWriteDone | NetworkReadPoll | NetworkSendDone.

(** The semaphores the handlers of the kernel signal. *)
Definition readAvail : sid := SUser 0.
Definition writeDone : sid := SUser 1.
Definition messageAvailable : sid := SUser 2.
Definition messageSent : sid := SUser 3.
Definition diskSemaphore : sid := SUser 4.

Record Console := mkConsole {
  putBusy : bool;
  incoming : Z;
  keyboard : list Z;
  display : list Z }.

Record PacketHeader := mkPacketHeader { pkt_to : Z; pkt_from : Z; pkt_length : Z }.

Record Network := mkNetwork {
  ident : Z;
  chanceToWork : Q;
  sendBusy : bool;
  inHdr : PacketHeader;
  inbox : list Z;
  sock_in : list (list Z);
  sock_out : list (Z * list Z) }.

(** What interrupts act on.  [slice t] is [used_time_slice] of thread [t],
    [randoms] the number of calls of [Random] so far. *)
Record World := mkWorld {
  kern : Kern;
  slice : nat -> Z;
  randoms : nat;
  randomize : bool;
  disk : Disk.Disk;
  console : Console;
  network : Network }.

Definition set_kern k w :=
  mkWorld k (slice w) (randoms w) (randomize w) (disk w) (console w) (network w).
Definition set_slice f w :=
  mkWorld (kern w) f (randoms w) (randomize w) (disk w) (console w) (network w).
Definition set_randoms n w :=
  mkWorld (kern w) (slice w) n (randomize w) (disk w) (console w) (network w).
Definition set_disk d w :=
  mkWorld (kern w) (slice w) (randoms w) (randomize w) d (console w) (network w).
Definition set_console c w :=
  mkWorld (kern w) (slice w) (randoms w) (randomize w) (disk w) c (network w).
Definition set_network n w :=
  mkWorld (kern w) (slice w) (randoms w) (randomize w) (disk w) (console w) n.

Notation System := (Sys Handler World).

(** ** Access to the parts *)

Definition getw {A} (f : World -> A) : M System A := gets (fun s => f (world s)).
Definition modw (f : World -> World) : M System unit :=
  modify (fun s => set_world (f (world s)) s).

(** [semaphore->V()] in a handler. *)
Definition signal (sm : sid) : M System unit := modw (fun w => set_kern (V sm (kern w)) w).

Definition count_charRead (st : Statistics) : Statistics :=
  mkStats (totalTicks st) (idleTicks st) (systemTicks st) (userTicks st)
    (wrap32 (numConsoleCharsRead st + 1)) (numConsoleCharsWritten st) (numPageFaults st)
    (numPacketsSent st) (numPacketsRecvd st).
Definition count_charWritten (st : Statistics) : Statistics :=
  mkStats (totalTicks st) (idleTicks st) (systemTicks st) (userTicks st)
    (numConsoleCharsRead st) (wrap32 (numConsoleCharsWritten st + 1)) (numPageFaults st)
    (numPacketsSent st) (numPacketsRecvd st).
Definition count_packetSent (st : Statistics) : Statistics :=
  mkStats (totalTicks st) (idleTicks st) (systemTicks st) (userTicks st)
    (numConsoleCharsRead st) (numConsoleCharsWritten st) (numPageFaults st)
    (wrap32 (numPacketsSent st + 1)) (numPacketsRecvd st).
Definition count_packetRecvd (st : Statistics) : Statistics :=
  mkStats (totalTicks st) (idleTicks st) (systemTicks st) (userTicks st)
    (numConsoleCharsRead st) (numConsoleCharsWritten st) (numPageFaults st)
    (numPacketsSent st) (wrap32 (numPacketsRecvd st + 1)).
Definition count (f : Statistics -> Statistics) : M System unit :=
  modify (fun s => set_stats (f (stats s)) s).

(** ** Wire format *)

(** The image of a [PacketHeader] (and of a [MailHeader]): three words. *)
Definition header_bytes (a b len : Z) : list Z := int_bytes a ++ int_bytes b ++ int_bytes len.

(** Three words back; the third one is unsigned. *)
Definition bytes_header (l : list Z) : outcome (Z * Z * Z) :=
  match l with
  | a0 :: a1 :: a2 :: a3 :: b0 :: b1 :: b2 :: b3 :: c0 :: c1 :: c2 :: c3 :: _ =>
    Ok (int_of_bytes a0 a1 a2 a3, int_of_bytes b0 b1 b2 b3, uint_of_bytes c0 c1 c2 c3)
  | _ => Fault BadAccess
  end.

(** [bcopy(src, buf + off, n)]. *)
Definition bcopy (src : list Z) (n : nat) (off : nat) (buf : list Z) : outcome (list Z) :=
  if decide (n <= length src /\ off + n <= length buf)%nat
  then Ok (take off buf ++ take n src ++ drop (off + n) buf)
  else Fault BadAccess.

Section Devices.
Variable rand : nat -> Z.
Variable junk : list Z.

Definition Random : M System Z :=
  n ← getw randoms;
  _ ← modw (set_randoms (S n));
  mret (rand n).

(** ** timer.cc *)

Definition TimeOfNextInterrupt : M System Z :=
  r ← getw randomize;
  if (r : bool) then x ← Random; mret (1 + Z.rem x (TimerTicks * 2)) else mret TimerTicks.

(** [Timer::Timer] schedules the first interrupt. *)
Definition Timer_Timer (doRandom : bool) : M System unit :=
  _ ← modw (fun w => mkWorld (kern w) (slice w) (randoms w) doRandom (disk w) (console w) (network w));
  t ← TimeOfNextInterrupt;
  Schedule TimerHandler 0 t TimerInt.

(** [TimerInterruptHandler] of system.cc. *)
Definition TimerInterruptHandler : M System unit :=
  m ← gets mstatus;
  if bool_decide (m = IdleMode) then mret tt else YieldOnReturn.

Definition TimerExpired : M System unit :=
  t ← TimeOfNextInterrupt;
  _ ← Schedule TimerHandler 0 t TimerInt;
  TimerInterruptHandler.

(** ** disk.cc *)

(** [Disk::HandleInterrupt], and the handler of the synchronous disk. *)
Definition disk_HandleInterrupt : M System unit :=
  _ ← modw (fun w => set_disk (Disk.HandleInterrupt (disk w)) w);
  signal diskSemaphore.

(** ** console.cc *)

(** [Console::Console]; the files are those given. *)
Definition Console_Console (input : list Z) : M System unit :=
  _ ← modw (set_console (mkConsole false EOF input []));
  Schedule ConsoleReadPoll 0 ConsoleTime ConsoleReadInt.

Definition CheckCharAvail : M System unit :=
  _ ← Schedule ConsoleReadPoll 0 ConsoleTime ConsoleReadInt;
  c ← getw console;
  if negb (incoming c =? EOF) then mret tt
  else
    match keyboard c with
    | [] => mret tt
    | b :: rest =>
      _ ← modw (set_console (mkConsole (putBusy c) (schar b) rest (display c)));
      _ ← count count_charRead;
      signal readAvail
    end.

Definition WriteDone : M System unit :=
  _ ← modw (fun w => set_console
         (mkConsole false (incoming (console w)) (keyboard (console w)) (display (console w))) w);
  _ ← count count_charWritten;
  signal writeDone.

Definition GetChar : M System Z :=
  c ← getw console;
  _ ← modw (set_console (mkConsole (putBusy c) EOF (keyboard c) (display c)));
  mret (incoming c).

Definition PutChar (ch : Z) : M System unit :=
  c ← getw console;
  _ ← ASSERT (negb (putBusy c));
  _ ← modw (set_console (mkConsole true (incoming c) (keyboard c) (display c ++ [u8 ch])));
  Schedule ConsoleWriteDone 0 ConsoleTime ConsoleWriteInt.

(** ** network.cc *)

(** [Network::Network]: the reliability is cut to the interval [0,1]. *)
Definition Network_Network (addr : Z) (reliability : Q) : M System unit :=
  let chance := if Qle_bool 0 reliability
                then if Qle_bool reliability 1 then reliability else 1%Q
                else 0%Q in
  _ ← modw (set_network (mkNetwork addr chance false (mkPacketHeader 0 0 0)
              (replicate MaxPacketSize 0) [] []));
  Schedule NetworkReadPoll 0 NetworkTime NetworkRecvInt.

Definition CheckPktAvail : M System unit :=
  _ ← Schedule NetworkReadPoll 0 NetworkTime NetworkRecvInt;
  n ← getw network;
  if negb (pkt_length (inHdr n) =? 0) then mret tt
  else
    match sock_in n with
    | [] => mret tt
    | buffer :: rest =>
      _ ← ASSERT (Nat.eqb (length buffer) MaxWireSize);
      h ← lift (bytes_header buffer);
      let hdr := mkPacketHeader h.1.1 h.1.2 h.2 in
      _ ← modw (set_network (mkNetwork (ident n) (chanceToWork n) (sendBusy n) hdr (inbox n) rest
                  (sock_out n)));
      _ ← ASSERT ((pkt_to hdr =? ident n) && (pkt_length hdr <=? Z.of_nat MaxPacketSize));
      box ← lift (bcopy (drop PacketHeader_size buffer) (Z.to_nat (pkt_length hdr)) 0 (inbox n));
      _ ← modw (set_network (mkNetwork (ident n) (chanceToWork n) (sendBusy n) hdr box rest
                  (sock_out n)));
      _ ← count count_packetRecvd;
      signal messageAvailable
    end.

Definition SendDone : M System unit :=
  _ ← modw (fun w => let n := network w in
        set_network (mkNetwork (ident n) (chanceToWork n) false (inHdr n) (inbox n) (sock_in n)
          (sock_out n)) w);
  _ ← count count_packetSent;
  signal messageSent.

(** [Random() % 100 >= chanceToWork * 100]. *)
Definition lost (r : Z) (chance : Q) : bool := Qle_bool (chance * 100) (inject_Z (Z.rem r 100)).

Definition Network_Send (hdr : PacketHeader) (data : list Z) : M System unit :=
  n ← getw network;
  _ ← ASSERT (negb (sendBusy n) && (0 <? pkt_length hdr) &&
              (pkt_length hdr <=? Z.of_nat MaxPacketSize) && (pkt_from hdr =? ident n));
  _ ← Schedule NetworkSendDone 0 NetworkTime NetworkSendInt;
  r ← Random;
  if lost r (chanceToWork n) then mret tt
  else
    b1 ← lift (bcopy (header_bytes (pkt_to hdr) (pkt_from hdr) (pkt_length hdr)) PacketHeader_size
                 0 (take MaxWireSize junk));
    b2 ← lift (bcopy data (Z.to_nat (pkt_length hdr)) PacketHeader_size b1);
    modw (set_network (mkNetwork (ident n) (chanceToWork n) (sendBusy n) (inHdr n) (inbox n)
            (sock_in n) (sock_out n ++ [(pkt_to hdr, b2)]))).

(** [Network::Receive]: the header, and what it copies to [data]. *)
Definition Network_Receive : M System (PacketHeader * list Z) :=
  n ← getw network;
  let hdr := inHdr n in
  _ ← modw (set_network (mkNetwork (ident n) (chanceToWork n) (sendBusy n)
              (mkPacketHeader (pkt_to hdr) (pkt_from hdr) 0) (inbox n) (sock_in n) (sock_out n)));
  mret (hdr, take (Z.to_nat (pkt_length hdr)) (inbox n)).

(** ** The kernel *)

Definition handler_of (h : Handler) : M System unit :=
  match h with
  | TimerHandler => TimerExpired
  | DiskDone => disk_HandleInterrupt
  | ConsoleReadPoll => CheckCharAvail
  | ConsoleWriteDone => WriteDone
  | NetworkReadPoll => CheckPktAvail
  | NetworkSendDone => SendDone
  end.

(** [currentThread->Yield()], up to the switch. *)
Definition kernel_Yield : M System unit :=
  k ← getw kern;
  k' ← lift (Yield k);
  modw (set_kern k').

(** [currentThread->used_time_slice += 10]. *)
Definition charge (w : World) : World :=
  let t := current (kern w) in set_slice (<[t := wrap32 (slice w t + 10)]> (slice w)) w.

#[export] Instance nachos_kernel : Kernel Handler World := {
  call := fun h _ => handler_of h;
  thread_Yield := kernel_Yield;
  charge_slice := charge;
  delayed_load := fun w => w }.
End Devices.

(** ** What handlers keep *)

Definition packet_ok (addr : Z) (b : list Z) : Prop :=
  length b = MaxWireSize /\
  exists h, bytes_header b = Ok h /\ h.1.1 = addr /\ h.2 <= Z.of_nat MaxPacketSize.

(** Only packets for this machine arrive. *)
Record net_ok (n : Network) : Prop := {
  no_inbox : length (inbox n) = MaxPacketSize;
  no_sock : Forall (packet_ok (ident n)) (sock_in n) }.

(** The kernel can be interrupted: a thread runs with interrupts enabled, or
    ([idl]) the machine is idle. *)
Record world_ok (idl : bool) (w : World) : Prop := {
  wo_good : good (kern w);
  wo_open : (if idl then idle (kern w) else interruptible (kern w)) = true;
  wo_net : net_ok (network w) }.

Definition world_steps (w w' : World) : Prop := rtc step (kern w) (kern w').

#[global] Instance world_steps_preorder : PreOrder world_steps.
Proof. split; [intros w; apply rtc_refl|]. intros a b c. apply rtc_trans. Qed.

Lemma V_control sm k :
  current (V sm k) = current k /\ idle (V sm k) = idle k /\ prog (V sm k) = prog k.
Proof. unfold V. by destruct (queue k (QSem sm)). Qed.

Lemma V_open sm k : idle (V sm k) = idle k /\ interruptible (V sm k) = interruptible k.
Proof.
  destruct (V_control sm k) as (E1 & E2 & E3). unfold interruptible. by rewrite E1, E2, E3.
Qed.

Section HandlerLaws.
Context (rand : nat -> Z) (rand_range : forall n, 0 <= rand n).
Context (idl : bool).

(** The state inside a handler. *)
Record inside (s : System) : Prop := {
  in_world : world_ok idl (world s);
  in_clock : clock_ok s;
  in_handler : inHandler s = true;
  in_status : mstatus s = SystemMode }.

(** A part of a handler: it returns [a] with [Q a], stays inside, schedules
    for the future and steps the kernel. *)
Definition part {A} (m : M System A) (Q : A -> Prop) : Prop := forall s, inside s ->
  exists a s', m s = Ok (a, s') /\ Q a /\ inside s' /\ scheduled s s' /\
    world_steps (world s) (world s').

Lemma part_bind {A B} (m : M System A) (f : A -> M System B) Q1 Q2 :
  part m Q1 -> (forall a, Q1 a -> part (f a) Q2) -> part (m ≫= f) Q2.
Proof.
  intros Hm Hf s Hs. destruct (Hm s Hs) as (a & s1 & E1 & HQ & I1 & S1 & R1).
  destruct (Hf a HQ s1 I1) as (b & s2 & E2 & HQ2 & I2 & S2 & R2).
  exists b, s2. rewrite (bind_run _ _ _ _ _ E1). splits; try done.
  - by eapply scheduled_trans.
  - by transitivity (world s1).
Qed.

Lemma part_ret {A} (a : A) (Q : A -> Prop) : Q a -> part (mret a) Q.
Proof. intros HQ s Hs. exists a, s. splits; try done. apply scheduled_refl. Qed.

Lemma part_gets {A} (f : System -> A) : part (gets f) (fun _ => True).
Proof. intros s Hs. exists (f s), s. splits; try done. apply scheduled_refl. Qed.

(** A change that leaves kernel and network alone. *)
Lemma part_modw (f : World -> World) :
  (forall w, kern (f w) = kern w /\ (net_ok (network w) -> net_ok (network (f w)))) ->
  part (modw f) (fun _ => True).
Proof.
  intros Hf s [[A1 A2 A3] B C D]. destruct (Hf (world s)) as [E1 E2].
  exists tt, (set_world (f (world s)) s). splits; try done.
  - constructor; try done. constructor; cbn; rewrite ?E1; auto.
  - constructor; try done. by exists [].
  - unfold world_steps. cbn. by rewrite E1.
Qed.

Lemma part_count f :
  (forall st, ticks (f st) = ticks st) -> part (count f) (fun _ => True).
Proof.
  intros Hf s [A B C D]. exists tt, (set_stats (f (stats s)) s). specialize (Hf (stats s)).
  splits; try done.
  - constructor; try done. unfold clock_ok, now in *. cbn. unfold ticks in Hf. by injection Hf as ->.
  - constructor; try done. by exists [].
Qed.

Lemma part_signal n : part (signal (SUser n)) (fun _ => True).
Proof.
  intros s [[A1 A2 A3] B C D]. destruct (V_open (SUser n) (kern (world s))) as [E1 E2].
  exists tt. eexists. split; [reflexivity|]. splits; try done.
  - constructor; try done. constructor; cbn [kern set_kern world set_world network];
      [by apply V_good| |done].
    revert A2. destruct idl; by rewrite ?E1, ?E2.
  - constructor; try done. by exists [].
  - unfold world_steps. cbn. apply rtc_once, step_interrupt.
    revert A2. destruct idl; intros ->; [apply orb_true_r|done].
Qed.

Lemma part_Schedule h a t ty :
  0 < t <= 2 ^ 20 -> part (Schedule h a t ty) (fun _ => True).
Proof.
  intros Ht s [A B C D]. pose proof B as B'. unfold clock_ok in B'.
  exists tt. eexists. unfold Schedule. split.
  { mstep. rewrite (proj2 (Z.ltb_lt 0 t)) by lia. mstep. reflexivity. }
  splits; try done.
  constructor; try done. exists [(wrap32 (now s + t), mkPending h a (wrap32 (now s + t)) ty)].
  split; [|reflexivity]. constructor; [|done].
  cbn [fst]. rewrite wrap32_small by (unfold is_int; lia). lia.
Qed.

Lemma part_TimeOfNextInterrupt : part (TimeOfNextInterrupt rand) (fun t => 0 < t <= 2 ^ 20).
Proof.
  eapply part_bind; [apply part_gets|]. intros [] _.
  - eapply (part_bind _ _ (fun x => 0 <= x)).
    + eapply part_bind; [apply part_gets|]. intros n _.
      eapply part_bind; [by apply part_modw|]. intros _ _. by apply part_ret.
    + intros x Hx. apply part_ret. change (TimerTicks * 2) with 200.
      pose proof (Z.rem_bound_pos x 200 Hx ltac:(lia)). lia.
  - by apply part_ret.
Qed.

Lemma part_TimerExpired : part (TimerExpired rand) (fun _ => True).
Proof.
  eapply part_bind; [apply part_TimeOfNextInterrupt|]. intros t Ht.
  eapply part_bind; [by apply part_Schedule|]. intros _ _ s Hs.
  exists tt, (set_yieldOnReturn true s). unfold TimerInterruptHandler, YieldOnReturn. split.
  - mstep. rewrite (in_status _ Hs). rewrite bool_decide_eq_false_2 by done. unfold mbind, M_bind, gets, ASSERT. by rewrite (in_handler _ Hs).
  - destruct Hs. splits; try done. constructor; try done. by exists [].
Qed.

Lemma part_disk : part disk_HandleInterrupt (fun _ => True).
Proof. eapply part_bind; [by apply part_modw|]. intros _ _. apply part_signal. Qed.

Lemma part_WriteDone : part WriteDone (fun _ => True).
Proof.
  eapply part_bind; [by apply part_modw|]. intros _ _.
  eapply part_bind; [by apply part_count|]. intros _ _. apply part_signal.
Qed.

Lemma part_SendDone : part SendDone (fun _ => True).
Proof.
  eapply part_bind.
  { apply part_modw. intros w. split; [done|]. intros []. by constructor. }
  intros _ _. eapply part_bind; [by apply part_count|]. intros _ _. apply part_signal.
Qed.

Lemma part_CheckCharAvail : part CheckCharAvail (fun _ => True).
Proof.
  eapply part_bind; [by apply part_Schedule|]. intros _ _.
  eapply part_bind; [apply part_gets|]. intros c _.
  destruct (negb (incoming c =? EOF)); [by apply part_ret|].
  destruct (keyboard c) as [|b rest]; [by apply part_ret|].
  eapply part_bind; [by apply part_modw|]. intros _ _.
  eapply part_bind; [by apply part_count|]. intros _ _. apply part_signal.
Qed.

(** An incoming packet, with the inbox free. *)
Lemma part_CheckPktAvail : part CheckPktAvail (fun _ => True).
Proof.
  eapply part_bind; [by apply part_Schedule|]. intros _ _ s Hs.
  pose proof (wo_net _ _ (in_world _ Hs)) as [N1 N2]. unfold getw, gets.
  destruct (pkt_length (inHdr (network (world s))) =? 0) eqn:El.
  2:{ exists tt, s. split; [mstep; by rewrite El|]. splits; try done. apply scheduled_refl. }
  destruct (sock_in (network (world s))) as [|b rest] eqn:Eb.
  { exists tt, s. split; [mstep; by rewrite El, Eb|]. splits; try done. apply scheduled_refl. }
  apply Forall_cons_1 in N2 as [(L & h & Hh & H1 & H2) N2].
  set (hdr := mkPacketHeader h.1.1 h.1.2 h.2).
  set (n := network (world s)) in *. set (ln := Z.to_nat (pkt_length hdr)).
  assert (Hln : (ln <= MaxPacketSize)%nat) by (unfold ln, hdr, MaxPacketSize in *; cbn in *; lia).
  set (box := take 0 (inbox n) ++ take ln (drop PacketHeader_size b) ++ drop (0 + ln) (inbox n)).
  assert (Lb : length box = MaxPacketSize).
  { unfold box. rewrite !length_app, !length_take, !length_drop, L, N1.
    unfold MaxPacketSize, MaxWireSize, PacketHeader_size in *. lia. }
  assert (Eb' : bcopy (drop PacketHeader_size b) ln 0 (inbox n) = Ok box).
  { unfold bcopy. rewrite decide_True; [done|]. rewrite length_drop, L, N1.
    unfold MaxPacketSize, MaxWireSize, PacketHeader_size in *. lia. }
  assert (Hok : net_ok (mkNetwork (ident n) (chanceToWork n) (sendBusy n) hdr box rest (sock_out n)))
    by (by constructor).
  destruct (part_bind _ _ _ _ (part_modw (set_network (mkNetwork (ident n) (chanceToWork n)
    (sendBusy n) hdr box rest (sock_out n))) ltac:(done)) (fun _ _ =>
    part_bind _ _ _ _ (part_count count_packetRecvd ltac:(done)) (fun _ _ => part_signal 2)) s Hs)
    as (a & s' & E & HQ & I' & S' & R').
  exists a, s'. split; [|done]. mstep. change (network (world s)) with n. rewrite El. cbn [negb]. rewrite Eb.
  mstep by (apply ASSERT_true; by rewrite L). mstep by (apply lift_Ok; exact Hh). fold hdr. mstep.
  mstep by (apply ASSERT_true; apply andb_true_iff; split; [by apply Z.eqb_eq|by apply Z.leb_le]).
  mstep by (apply lift_Ok; exact Eb'). exact E.
Qed.

Lemma part_handler h : part (handler_of rand h) (fun _ => True).
Proof.
  destruct h; [apply part_TimerExpired|apply part_disk|apply part_CheckCharAvail
    |apply part_WriteDone|apply part_CheckPktAvail|apply part_SendDone].
Qed.

#[global] Instance nachos_kernel_laws : KernelLaws (nachos_kernel rand) (world_ok idl) world_steps.
Proof.
  split.
  - apply _.
  - intros h a s HI Hc _ Hh Hm. destruct (part_handler h s) as ([] & s' & E & _ & [I' _ _ _] & S' & R');
      [by constructor|]. by exists s'.
  - intros w [A1 A2 A3]. split; [by constructor|]. apply rtc_refl.
  - done.
Qed.
End HandlerLaws.

#[global] Instance nachos_yield_law rand :
  YieldLaw (nachos_kernel rand) (world_ok false) world_steps.
Proof.
  intros s [G O _]. pose proof O as O'. apply andb_true_iff in O' as [Oi _].
  apply negb_true_iff in Oi.
  destruct (Yield_good (kern (world s)) G Oi) as (k' & E & _ & _).
  exists (set_kern k' (world s)). split.
  - cbn. unfold kernel_Yield. mstep. mstep by (apply lift_Ok; exact E). done.
  - unfold world_steps. cbn. apply rtc_once. by apply step_slice.
Qed.

(** ** Interrupts and threads together *)


(** The idle machine.  With no interrupt pending, or only the timer's,
    [Idle] halts.  Otherwise it returns: the clock jumps exactly to the
    earliest pending interrupt (or stays, if that is overdue), the jump is
    accounted as idle time, that interrupt and all others due then have been
    fired, no context switch is pending, and the threads have made steps of
    Threads.v. *)
Theorem devices_Idle rand fuel (s : System) :
  (forall n, 0 <= rand n) -> ready (I := world_ok true) s -> balanced (stats s) ->
  (length (pending s) < fuel)%nat ->
  Forall (fun e => 0 <= e.1 < 2 ^ 31 - 2 ^ 20) (pending s) ->
  let K := nachos_kernel rand in
  if nothing_pending s then Idle fuel s = Fault Halted
  else exists e s', head (pending s) = Some e /\ Idle fuel s = Ok (tt, s') /\
    now s' = Z.max (now s) e.1 /\ balanced (stats s') /\ ready (I := world_ok true) s' /\
    mstatus s' = SystemMode /\ yieldOnReturn s' = false /\
    (Forall (fun e => now s' < e.1) (pending s') \/ nothing_pending s' = true) /\
    rtc step (kern (world s)) (kern (world s')).
Proof.
  intros Hr Hs Hb Hf Hp K. destruct (nothing_pending s) eqn:En.
  - apply Idle_halts; [apply Hs|done].
  - exact (Idle_ok (K := K) (L := nachos_kernel_laws rand Hr true) fuel s Hs Hb Hf En Hp).
Qed.

(** ** The console *)

(** What the kernel does with the keyboard: the poll of the device, and
    [readAvail->P()] followed by [GetChar], which waits (here: does nothing)
    while the semaphore is 0. *)
Inductive console_op := Poll | Get.

Definition console_do (op : console_op) : M System (list Z) :=
  match op with
  | Poll => _ ← CheckCharAvail; mret []
  | Get =>
    k ← getw kern;
    if value k readAvail =? 0 then mret []
    else
      _ ← modw (set_kern (set_value readAvail (value k readAvail - 1) k));
      ch ← GetChar;
      mret [ch]
  end.

Fixpoint console_run (ops : list console_op) : M System (list Z) :=
  match ops with
  | [] => mret []
  | op :: ops' => a ← console_do op; b ← console_run ops'; mret (a ++ b)
  end.

(** The character in the buffer. *)
Definition buffered (c : Console) : list Z := if incoming c =? EOF then [] else [incoming c].

(** The semaphore counts the buffered character and nobody sleeps on it. *)
Record console_ok (s : System) : Prop := {
  co_time : 0 <= now s < 2 ^ 31 - 2 ^ 20;
  co_value : value (kern (world s)) readAvail = Z.of_nat (length (buffered (console (world s))));
  co_queue : queue (kern (world s)) (QSem readAvail) = [];
  co_typed : Forall (fun b => 0 <= b < 256 /\ b <> 255) (keyboard (console (world s))) }.

(** All characters that have been typed and not been read. *)
Definition unread (s : System) : list Z :=
  buffered (console (world s)) ++ (schar <$> keyboard (console (world s))).

Lemma Schedule_run h a t ty (s : System) : 0 < t ->
  Schedule h a t ty s = Ok (tt, set_pending (sorted_insert (mkPending h a (wrap32 (now s + t)) ty)
    (wrap32 (now s + t)) (pending s)) s).
Proof. intros Ht. unfold Schedule. mstep. by rewrite (proj2 (Z.ltb_lt 0 t)) by lia. Qed.

Lemma schar_not_EOF b : 0 <= b < 256 -> b <> 255 -> schar b =? EOF = false.
Proof.
  intros Hb Hn. apply Z.eqb_neq. unfold EOF. destruct (Z.lt_ge_cases b 128).
  - rewrite schar_small by lia. lia.
  - rewrite schar_big by lia. lia.
Qed.

Lemma console_do_ok op (s : System) : console_ok s ->
  exists out s', console_do op s = Ok (out, s') /\ console_ok s' /\ unread s = out ++ unread s'.
Proof.
  intros [T V0 Q F]. destruct op; cbn [console_do].
  - set (s1 := set_pending (sorted_insert (mkPending ConsoleReadPoll 0 (wrap32 (now s + ConsoleTime))
      ConsoleReadInt) (wrap32 (now s + ConsoleTime)) (pending s)) s).
    assert (E1 : Schedule ConsoleReadPoll 0 ConsoleTime ConsoleReadInt s = Ok (tt, s1))
      by (by apply Schedule_run).
    assert (C1 : console_ok s1) by (by constructor).
    unfold buffered in V0. destruct (incoming (console (world s)) =? EOF) eqn:Ei.
    2:{ exists [], s1. split; [|done]. unfold CheckCharAvail. mstep by (mstep by exact E1; mstep;
          cbn [world s1 set_pending]; rewrite Ei; reflexivity). done. }
    destruct (keyboard (console (world s))) as [|b rest] eqn:Ek.
    { exists [], s1. split; [|done].
      unfold CheckCharAvail. mstep by (mstep by exact E1; mstep; cbn [world s1 set_pending];
        rewrite Ei; cbn [negb]; rewrite Ek; reflexivity). done. }
    apply Forall_cons_1 in F as [[F1 F2] F3].
    eexists [], _. split.
    { unfold CheckCharAvail. mstep by (mstep by exact E1; mstep; cbn [world s1 set_pending];
        rewrite Ei; cbn [negb]; rewrite Ek; do 2 mstep; reflexivity). reflexivity. }
    cbn in V0. clear C1 E1. subst s1. split.
    + constructor; cbn [world set_world set_kern set_console kern console set_stats set_pending];
        try done.
      * unfold V. rewrite Q. cbn. rewrite V0. unfold buffered. cbn. by rewrite schar_not_EOF.
      * unfold V. rewrite Q. exact Q.
    + unfold unread, buffered. cbn. by rewrite Ei, Ek, schar_not_EOF.
  - destruct (value (kern (world s)) readAvail =? 0) eqn:Ev.
    { exists [], s. split; [mstep; by rewrite Ev|]. by split; [constructor|]. }
    apply Z.eqb_neq in Ev. unfold buffered in V0.
    destruct (incoming (console (world s)) =? EOF) eqn:Ei; cbn in V0; [lia|].
    eexists [incoming (console (world s))], _. split.
    { mstep. rewrite (proj2 (Z.eqb_neq _ _) Ev). mstep. unfold GetChar.
      mstep by (do 2 mstep; reflexivity). reflexivity. }
    split.
    + constructor; cbn; try done. rewrite V0. by rewrite fn_lookup_insert.
    + unfold unread, buffered. cbn. by rewrite Ei.
Qed.

(** The console loses and reorders no input.  However the polls of the
    device and the reads of the kernel interleave, the characters read so far
    followed by the buffered one and by those not polled yet are the
    characters typed, in order; no call fails, and the semaphore is 1 exactly
    when a character is buffered.  The byte 255, which looks like EOF, is
    excluded. *)
Theorem console_input_order (ops : list console_op) (s : System) :
  console_ok s ->
  exists out s', console_run ops s = Ok (out, s') /\ console_ok s' /\ unread s = out ++ unread s'.
Proof.
  revert s. induction ops as [|op ops IH]; intros s Hs.
  - by exists [], s.
  - destruct (console_do_ok op s Hs) as (o1 & s1 & E1 & H1 & U1).
    destruct (IH s1 H1) as (o2 & s2 & E2 & H2 & U2).
    exists (o1 ++ o2), s2. split; [|split; [done|]].
    + cbn [console_run]. mstep by exact E1. by mstep by exact E2.
    + by rewrite <- app_assoc, <- U2.
Qed.

(** ** Instances *)

Definition demo_rand (n : nat) : Z := 7 * Z.of_nat n + 3.

Definition demo_world (k : Kern) (input : list Z) : World :=
  mkWorld k (fun _ => 0) 0 true (Disk.mkDisk (Disk.mkFile ∅ 0) false 0 0 0 0)
    (mkConsole false EOF input [])
    (mkNetwork 5 1 false (mkPacketHeader 0 0 0) (replicate MaxPacketSize 0) [] []).

(** Time 95: the console polls at 100, the timer fires at 105. *)
Definition demo_system (k : Kern) (m : MachineStatus) (lv : IntStatus) : System :=
  mkSys lv [(100, mkPending ConsoleReadPoll 0 100 ConsoleReadInt);
            (105, mkPending TimerHandler 0 105 TimerInt)] false false m
    (mkStats 95 0 95 0 0 0 0 0 0) (demo_world k [65; 66]).

Definition demo_kern : Kern := boot [CFork [CYield]; CP readAvail false] (fun _ => 0).

Lemma demo_rand_range n : 0 <= demo_rand n.
Proof. unfold demo_rand. lia. Qed.

Lemma demo_world_ok (idl : bool) k input :
  good k -> (if idl then idle k else interruptible k) = true -> world_ok idl (demo_world k input).
Proof. intros G O. constructor; [done|done|]. constructor; [done|constructor]. Qed.


Definition demo_idle : Kern := ThreadSafety.after 4 demo_kern.

(** The machine idles until the console polls at 100 and wakes the reader. *)
Lemma devices_Idle_witness :
  let K := nachos_kernel demo_rand in
  exists s', Idle 3 (demo_system demo_idle SystemMode IntOff) = Ok (tt, s') /\ now s' = 100.
Proof.
  intros K. pose proof (devices_Idle demo_rand 3 (demo_system demo_idle SystemMode IntOff)
    demo_rand_range) as T.
  destruct T as (e & s' & [= <-] & E & N & _).
  - constructor; [|unfold clock_ok; cbn; lia|done|done|repeat constructor; cbn; lia].
    apply demo_world_ok; [|vm_compute; reflexivity].
    eapply ThreadSafety.reach_good, ThreadSafety.after_steps.
  - by constructor.
  - cbn. lia.
  - repeat constructor; cbn; lia.
  - exists s'. split; [exact E|exact N].
Defined.

Lemma console_input_order_witness :
  exists out s', console_run [Get; Poll; Poll; Get; Poll; Get] (demo_system demo_kern SystemMode IntOn)
    = Ok (out, s') /\ [65; 66] = out ++ unread s'.
Proof.
  destruct (console_input_order [Get; Poll; Poll; Get; Poll; Get]
    (demo_system demo_kern SystemMode IntOn)) as (out & s' & E & _ & U).
  - constructor; [cbn; lia|reflexivity|reflexivity|]. repeat constructor; lia.
  - exists out, s'. split; [exact E|exact U].
Defined.
