(* ===== verification/SynchList.v ===== *)
(** * threads/synchlist.cc: the synchronised list

    Threads that call [Append], [Remove] and [Mapcar] on one list, over the
    thread system of Threads.v.  What a thread does between two calls of the
    kernel is one step ([local]): an interrupt can only happen when a kernel
    routine enables interrupts again.  The list itself is the sequence that
    LinkedList.v shows it to be. *)
From S2P Require Import Prelude Threads.
From S2P Require ThreadSafety.
From Stdlib Require Import ZArith Lia List Bool.
From stdpp Require Import base tactics list numbers functions relations gmap.
Local Open Scope Z_scope.

(** ** The system *)

(** The lock and the condition of the list. *)
Definition lock : nat := 0.
Definition listEmpty : nat := 0.

Inductive op := SAppend (item : Z) | SRemove | SMapcar.

(** [Inside]: from the call of [Acquire] until the thread is done with the
    list. *)
Inductive phase := Outside | Inside.

Record SL := mkSL {
  kern : Kern;
  items : list Z;
  todo : nat -> list op;
  ph : nat -> phase;
  appended : list Z;
  removed : list Z;
  mapped : list (list Z) }.

Definition set_kern k s :=
  mkSL k (items s) (todo s) (ph s) (appended s) (removed s) (mapped s).

(** Thread [t] goes on with the calls [p] in phase [f], with [ops] to do. *)
Definition continue t (p : list cmd) f ops s :=
  mkSL (set_prog t p (kern s)) (items s) (<[t := ops]> (todo s)) (<[t := f]> (ph s))
    (appended s) (removed s) (mapped s).

(** What [t] does when its last kernel call has returned: enter the next
    operation, or, with the lock acquired, work on the list.  [None]: the
    thread has nothing left to do. *)
Definition local (t : nat) (s : SL) : option SL :=
  match ph s t, todo s t with
  | Outside, [] => None
  | Outside, o :: ops => Some (continue t (Acquire lock) Inside (o :: ops) s)
  | Inside, SAppend x :: ops =>
    let s := continue t [CSignal listEmpty; CRelease lock] Outside ops s in
    Some (mkSL (kern s) (items s ++ [x]) (todo s) (ph s) (appended s ++ [x]) (removed s) (mapped s))
  | Inside, SRemove :: ops =>
    match items s with
    | [] => Some (continue t [CWait listEmpty lock] Inside (SRemove :: ops) s)
    | x :: xs =>
      let s := continue t [CRelease lock] Outside ops s in
      Some (mkSL (kern s) xs (todo s) (ph s) (appended s) (removed s ++ [x]) (mapped s))
    end
  | Inside, SMapcar :: ops =>
    let s := continue t [CRelease lock] Outside ops s in
    Some (mkSL (kern s) (items s) (todo s) (ph s) (appended s) (removed s) (mapped s ++ [items s]))
  | Inside, [] => None
  end.

Inductive sl_step : SL -> SL -> Prop :=
| sl_local s s' :
    idle (kern s) = false -> prog (kern s) (current (kern s)) = [] ->
    local (current (kern s)) s = Some s' -> sl_step s s'
| sl_exec s k' :
    idle (kern s) = false ->
    (prog (kern s) (current (kern s)) = [] -> local (current (kern s)) s = None) ->
    exec (kern s) = Ok k' -> sl_step s (set_kern k' s)
| sl_slice s k' :
    interruptible (kern s) = true -> Yield (kern s) = Ok k' -> sl_step s (set_kern k' s)
| sl_interrupt s n :
    interruptible (kern s) || idle (kern s) = true -> sl_step s (set_kern (V (SUser n) (kern s)) s)
| sl_dispatch s k' :
    idle (kern s) = true -> dispatch (kern s) = Ok k' -> sl_step s (set_kern k' s).

(** The main thread forks [n] threads; thread [t] runs [script t]. *)
Definition sl_init (n : nat) (script : nat -> list op) : SL :=
  mkSL (boot (replicate n (CFork [])) (fun _ => 0)) []
    (fun t => if Nat.eqb t 0 then [] else script t) (fun _ => Outside) [] [] [].

(** ** The invariant of a thread *)

(** Where a thread can be. *)
Inductive shape : phase -> list op -> list cmd -> Prop :=
| sh_main m : shape Outside [] (replicate m (CFork []))
| sh_out ops : shape Outside ops []
| sh_signal ops : shape Outside ops [CSignal listEmpty; CRelease lock]
| sh_release ops : shape Outside ops [CRelease lock]
| sh_acquire o ops off off' : shape Inside (o :: ops) [CP (SLock lock) off; CHold lock off']
| sh_hold o ops off : shape Inside (o :: ops) [CHold lock off]
| sh_in o ops : shape Inside (o :: ops) []
| sh_wait ops : shape Inside (SRemove :: ops) [CWait listEmpty lock].

(** The places where the thread is the recorded owner of the lock. *)
Definition owner (f : phase) (p : list cmd) : bool :=
  match f, p with
  | Inside, [] | Inside, CWait _ _ :: _ => true
  | Outside, CSignal _ :: _ | Outside, CRelease _ :: _ => true
  | _, _ => false
  end.

Record thread_ok (s : SL) (t : nat) : Prop := {
  to_shape : shape (ph s t) (todo s t) (prog (kern s) t);
  to_owner : heldthread (kern s) lock = Some t <-> owner (ph s t) (prog (kern s) t) = true;
  to_blocked : status (kern s) t = BLOCKED ->
    (t ∈ queue (kern s) (QSem (SLock lock)) \/ t ∈ queue (kern s) (QCond listEmpty)) \/
    (ph s t = Outside /\ todo s t = [] /\ prog (kern s) t = []);
  to_cond : t ∈ queue (kern s) (QCond listEmpty) -> ph s t = Inside /\
    (exists ops, todo s t = SRemove :: ops) /\
    prog (kern s) t = [CP (SLock lock) true; CHold lock true];
  to_wait : prog (kern s) t = [CWait listEmpty lock] -> items s = [];
  to_items : Forall (fun o => o <> SAppend 0) (todo s t);
  to_fresh : (created (kern s) <= t)%nat -> ph s t = Outside /\ prog (kern s) t = [] }.

(** Thread [t] is going to look for an item, or to signal one. *)
Definition pend (s : SL) (t : nat) : bool :=
  match prog (kern s) t with
  | CSignal _ :: _ => true
  | CWait _ _ :: _ => false
  | _ => match ph s t, todo s t with
         | Inside, SRemove :: _ => negb (bool_decide (t ∈ queue (kern s) (QCond listEmpty)))
         | _, _ => false
         end
  end.

(** Where threads sleep on the condition, every item has a thread on its way
    to it. *)
Definition count_ok (s : SL) : Prop :=
  queue (kern s) (QCond listEmpty) <> [] ->
  Z.of_nat (length (items s)) <= cnt (pend s) (created (kern s)).

Record sl_ok (s : SL) : Prop := {
  so_good : good (kern s);
  so_sem : sem_ok (kern s);
  so_lock : lock_ok (kern s);
  so_thread : forall t, thread_ok s t;
  so_pend : count_ok s;
  so_items : Forall (fun x => x <> 0) (items s);
  so_fifo : appended s = removed s ++ items s }.

(** ** What changes and what does not *)

(** A change of the kernel state in which thread [u] has no part. *)
Record untouched (s s' : SL) (u : nat) : Prop := {
  un_prog : prog (kern s') u = prog (kern s) u;
  un_ph : ph s' u = ph s u;
  un_todo : todo s' u = todo s u;
  un_held : heldthread (kern s') lock = Some u <-> heldthread (kern s) lock = Some u;
  un_blocked : status (kern s') u = BLOCKED -> status (kern s) u = BLOCKED /\
    (u ∈ queue (kern s) (QSem (SLock lock)) -> u ∈ queue (kern s') (QSem (SLock lock))) /\
    (u ∈ queue (kern s) (QCond listEmpty) -> u ∈ queue (kern s') (QCond listEmpty));
  un_cond : u ∈ queue (kern s') (QCond listEmpty) -> u ∈ queue (kern s) (QCond listEmpty);
  un_created : (created (kern s) <= created (kern s'))%nat }.

Lemma untouched_ok s s' u :
  untouched s s' u -> thread_ok s u ->
  (prog (kern s) u = [CWait listEmpty lock] -> items s = [] -> items s' = []) -> thread_ok s' u.
Proof.
  intros [U1 U2 U3 U4 U5 U6 U7] [T1 T2 T3 T4 T5 T6 T7] Hi.
  constructor; rewrite ?U1, ?U2, ?U3, ?U4; try done.
  - intros (B & Q1 & Q2)%U5. destruct (T3 B) as [[?|?]|?]; auto.
  - auto.
  - auto.
  - intros Hc. apply T7. lia.
Qed.

(** The owner of the lock is the only one in its places. *)
Lemma not_owner s t u :
  thread_ok s t -> owner (ph s t) (prog (kern s) t) = true -> thread_ok s u -> u <> t ->
  prog (kern s) u <> [CWait listEmpty lock].
Proof.
  intros Ht Ho Hu Hne E. apply (to_owner _ _ Ht) in Ho. pose proof (to_shape _ _ Hu) as Hs.
  rewrite E in Hs. assert (heldthread (kern s) lock = Some u).
  { apply (to_owner _ _ Hu). rewrite E. by inversion Hs; [destruct m|]. }
  congruence.
Qed.

Lemma shape_current s t p :
  thread_ok s t -> prog (kern s) t = p -> shape (ph s t) (todo s t) p.
Proof. intros [] <-. done. Qed.

(** Another thread is dispatched. *)
Lemma switched_untouched s k' u : switched (kern s) k' -> untouched s (set_kern k' s) u.
Proof.
  intros [[S1 S2 S3 S4 S5] B].
  constructor; cbn; rewrite ?S1, ?S3, ?S4, ?S5, ?B; try done.
Qed.

Lemma pend_same s s' t :
  prog (kern s') t = prog (kern s) t -> ph s' t = ph s t -> todo s' t = todo s t ->
  (t ∈ queue (kern s') (QCond listEmpty) <-> t ∈ queue (kern s) (QCond listEmpty)) ->
  pend s' t = pend s t.
Proof.
  intros E1 E2 E3 E4. unfold pend. rewrite E1, E2, E3.
  by rewrite (bool_decide_ext _ _ E4).
Qed.

Lemma switched_ok s k' :
  (forall t, thread_ok s t) -> count_ok s -> switched (kern s) k' ->
  (forall t, thread_ok (set_kern k' s) t) /\ count_ok (set_kern k' s).
Proof.
  intros T Pd Sw. pose proof Sw as [[S1 S2 S3 S4 S5] B]. split.
  - intros t. eapply untouched_ok; [by apply switched_untouched|done|done].
  - unfold count_ok. cbn. rewrite S3, S5. intros Hq. rewrite (cnt_ext _ (pend s)); [by apply Pd|].
    intros t _. apply pend_same; cbn; by rewrite ?S1, ?S3.
Qed.

(** The current thread: it is running. *)
Section Current.
Variable s : SL.
Hypothesis Hok : sl_ok s.
Hypothesis Hidle : idle (kern s) = false.
Let k := kern s.
Let t := current k.

Lemma cur_running : status k t = RUNNING.
Proof. by apply (so_good _ Hok). Qed.

Lemma cur_created : (t < created k)%nat.
Proof. apply live_created; [apply Hok|]. rewrite cur_running. done. Qed.

Lemma cur_queue q : t ∉ queue k q.
Proof.
  intros Hq. apply (p_queue _ (g_pool _ (so_good _ Hok))) in Hq.
  pose proof cur_running as R. unfold t, k in *. congruence.
Qed.

(** The counting invariant, when the number of items grows by [d] and the
    current thread's part by at least as much. *)
Lemma pend_change s' (d : Z) :
  created (kern s') = created k ->
  (forall u, u <> t -> pend s' u = pend s u) ->
  Z.of_nat (length (items s')) = Z.of_nat (length (items s)) + d ->
  Z.b2z (pend s t) + d <= Z.b2z (pend s' t) ->
  queue k (QCond listEmpty) <> [] ->
  Z.of_nat (length (items s')) <= cnt (pend s') (created (kern s')).
Proof.
  intros Ec Hu Hl Hd Hq. rewrite Ec, Hl.
  rewrite (cnt_change (pend s) (pend s') (created k) t cur_created).
  - pose proof (so_pend _ Hok Hq) as Hp. fold k in Hp. lia.
  - intros u Hne. symmetry. auto.
Qed.
End Current.

(** ** Steps of the threads between kernel calls *)

(** The kernel goes on with other calls for the current thread. *)
Lemma continue_kern s p :
  sl_ok s -> idle (kern s) = false -> prog (kern s) (current (kern s)) = [] -> lock_prog p ->
  let k' := set_prog (current (kern s)) p (kern s) in
  good k' /\ sem_ok k' /\ lock_ok k'.
Proof.
  intros Hok Hi Hp Hl k'. pose proof (cur_running s Hok Hi) as R.
  split; [|split].
  - apply set_prog_good; [apply Hok|congruence].
  - apply sem_ok_prog; [apply Hok|]. intros sm. unfold woken. by rewrite Hp.
  - apply lock_ok_prog; [apply Hok|done|by apply cur_created|].
    intros l. unfold acquiring. by rewrite Hp.
Qed.

(** In every step of this kind the other threads are untouched. *)
Lemma continue_untouched s s' p u :
  kern s' = set_prog (current (kern s)) p (kern s) -> u <> current (kern s) ->
  (forall f ops, ph s' = <[current (kern s) := f]> (ph s) ->
    todo s' = <[current (kern s) := ops]> (todo s) -> untouched s s' u).
Proof.
  intros Ek Hne f ops E1 E2.
  constructor; rewrite ?Ek, ?E1, ?E2; cbn; rewrite ?fn_ne by done; done.
Qed.

(** What is left to show of such a step: the place of the thread, the owner of
    the lock, the count and the list. *)
Lemma continue_ok s s' p f ops (d : Z) :
  let t := current (kern s) in
  sl_ok s -> idle (kern s) = false -> prog (kern s) t = [] ->
  kern s' = set_prog t p (kern s) -> ph s' = <[t := f]> (ph s) -> todo s' = <[t := ops]> (todo s) ->
  lock_prog p -> shape f ops p -> owner f p = owner (ph s t) [] ->
  (items s' = items s \/ owner (ph s t) [] = true) ->
  (p = [CWait listEmpty lock] -> items s' = []) ->
  Forall (fun o => o <> SAppend 0) ops ->
  (items s' = [] \/
   (Z.of_nat (length (items s')) = Z.of_nat (length (items s)) + d /\
    Z.b2z (pend s t) + d <= Z.b2z (pend s' t))) ->
  Forall (fun x => x <> 0) (items s') -> appended s' = removed s' ++ items s' ->
  sl_ok s'.
Proof.
  intros t Hok Hi Hp Ek Ep Et Hl Hs Ho Hit Hw Hf Hc Hn Hff.
  destruct (continue_kern s p Hok Hi Hp Hl) as (G & Sm & L).
  assert (Hun : forall u, u <> t -> untouched s s' u)
    by (intros u Hu; by eapply continue_untouched).
  constructor; rewrite ?Ek; try done.
  - intros u. destruct (decide (u = t)) as [->|Hne].
    + pose proof (so_thread _ Hok t) as [T1 T2 T3 T4 T5 T6 T7].
      pose proof (cur_running s Hok Hi) as R. pose proof (cur_created s Hok Hi) as C. pose proof (cur_queue s Hok Hi (QCond listEmpty)) as Q.
      constructor; rewrite ?Ek, ?Ep, ?Et; cbn; rewrite ?fn_eq; try done.
      * by rewrite Ho, T2, Hp.
      * intros B. unfold t in *. congruence.
      * unfold t. lia.
    + eapply untouched_ok; [by apply Hun|apply Hok|]. intros Ew Hnil.
      destruct Hit as [->|Ho']; [done|]. exfalso.
      apply (not_owner s t u); [apply Hok|by rewrite Hp|apply Hok|done|done].
  - intros Hq. destruct Hc as [->|[Hd Hb]]; [apply cnt_nonneg|]. rewrite Ek in Hq.
    apply (pend_change s Hok Hi s' d); try done; [by rewrite Ek|].
    intros u Hu. destruct (Hun u Hu). apply pend_same; try done. by rewrite Ek.
Qed.

Lemma local_ok s s' :
  sl_ok s -> idle (kern s) = false -> prog (kern s) (current (kern s)) = [] ->
  local (current (kern s)) s = Some s' -> sl_ok s'.
Proof.
  intros Hok Hi Hp. set (t := current (kern s)) in *.
  pose proof (so_thread _ Hok t) as [T1 T2 T3 T4 T5 T6 _]. pose proof (so_fifo _ Hok) as Ff.
  pose proof (so_items _ Hok) as Nz. rewrite Hp in T1.
  assert (Pf : pend s t = match ph s t, todo s t with Inside, SRemove :: _ => true | _, _ => false end).
  { unfold pend. rewrite Hp. rewrite bool_decide_eq_false_2; [done|]. by apply cur_queue. }
  unfold local. destruct (ph s t) eqn:Ep, (todo s t) as [|o ops] eqn:Et; try done.
  - intros [= <-]. eapply (continue_ok s _ (Acquire lock) Inside (o :: ops) 0); try done;
      fold t; rewrite ?Ep; try done; [repeat constructor|constructor|by left|].
    right. split; [cbn; lia|]. rewrite Pf. apply b2z_range.
  - apply Forall_cons_1 in T6 as [T6 T7]. destruct o as [x| |].
    + intros [= <-]. eapply (continue_ok s _ [CSignal listEmpty; CRelease lock] Outside ops 1);
        try done; fold t; rewrite ?Ep; try done; cbn [items appended removed continue].
      * repeat constructor.
      * constructor.
      * by right.
      * right. rewrite length_app. split; [cbn; lia|]. rewrite Pf.
        unfold pend. cbn [kern continue prog set_prog]. rewrite fn_eq. done.
      * apply Forall_app. split; [done|]. constructor; [congruence|done].
      * by rewrite app_assoc, Ff.
    + destruct (items s) as [|x xs] eqn:Ei; intros [= <-].
      * eapply (continue_ok s _ [CWait listEmpty lock] Inside (SRemove :: ops) 0); try done;
          fold t; rewrite ?Ep; try done; cbn [items appended removed continue]; rewrite ?Ei; try done.
        -- repeat constructor.
        -- constructor.
        -- by right.
        -- by constructor.
        -- by left.
      * apply Forall_cons_1 in Nz as [Nx Nz].
        eapply (continue_ok s _ [CRelease lock] Outside ops (-1)); try done;
          fold t; rewrite ?Ep; try done; cbn [items appended removed continue]; rewrite ?Ei.
        -- repeat constructor.
        -- constructor.
        -- by right.
        -- right. cbn [length]. split; [lia|]. rewrite Pf. cbn. pose proof (b2z_range (pend
             (mkSL (set_prog t [CRelease lock] (kern s)) xs (<[t:=ops]> (todo s))
               (<[t:=Outside]> (ph s)) (appended s) (removed s ++ [x]) (mapped s)) t)). lia.
        -- by rewrite Ff, <- app_assoc.
    + intros [= <-]. eapply (continue_ok s _ [CRelease lock] Outside ops 0); try done;
        fold t; rewrite ?Ep; try done; cbn [items appended removed continue].
      * repeat constructor.
      * constructor.
      * by right.
      * right. split; [lia|]. rewrite Pf. apply b2z_range.
Qed.

(** ** Kernel calls *)

(** What [V] does to a thread. *)
Lemma V_thread sm k u :
  prog (V sm k) u = prog k u /\ heldthread (V sm k) = heldthread k /\ created (V sm k) = created k /\
  (forall c, queue (V sm k) (QCond c) = queue k (QCond c)) /\
  (status (V sm k) u = BLOCKED -> status k u = BLOCKED /\
     forall q, u ∈ queue k q -> u ∈ queue (V sm k) q).
Proof.
  unfold V. destruct (queue k (QSem sm)) as [|t rest] eqn:Hq.
  - splits; try done.
  - splits; try done. cbn. rewrite fn_case. destruct (decide (u = t)) as [|Hne]; [done|].
    intros B. split; [done|]. intros q Hu. destruct (decide (QSem sm = q)) as [<-|].
    + rewrite fn_lookup_insert. rewrite Hq, elem_of_cons in Hu. by destruct Hu.
    + by rewrite fn_lookup_insert_ne.
Qed.

(** The state after a call of the current thread that leaves it with the calls
    [p]: what is left to show. *)
Lemma call_core s k1 p :
  let t := current (kern s) in
  sl_ok s -> idle (kern s) = false ->
  prog k1 t = p -> created k1 = created (kern s) ->
  (forall u, u <> t -> untouched s (set_kern k1 s) u) ->
  shape (ph s t) (todo s t) p ->
  (heldthread k1 lock = Some t <-> owner (ph s t) p = true) ->
  (status k1 t = BLOCKED -> (t ∈ queue k1 (QSem (SLock lock)) \/ t ∈ queue k1 (QCond listEmpty)) \/
     (ph s t = Outside /\ todo s t = [] /\ p = [])) ->
  (t ∈ queue k1 (QCond listEmpty) -> ph s t = Inside /\ (exists ops, todo s t = SRemove :: ops) /\
     p = [CP (SLock lock) true; CHold lock true]) ->
  p <> [CWait listEmpty lock] ->
  forall u, thread_ok (set_kern k1 s) u.
Proof.
  intros t Hok Hi Hp Hc Hu Hs Ho Hb Hq Hw u. destruct (decide (u = t)) as [->|Hne].
  - pose proof (so_thread _ Hok t) as [T1 T2 T3 T4 T5 T6 T7]. pose proof (cur_created s Hok Hi).
    constructor; cbn; rewrite ?Hp; try done. rewrite Hc. unfold t. lia.
  - eapply untouched_ok; [by apply Hu|apply Hok|done].
Qed.

(** The count, where the condition's queue is left alone. *)
Lemma call_count s k1 :
  let t := current (kern s) in
  sl_ok s -> idle (kern s) = false -> created k1 = created (kern s) ->
  (forall u, u <> t -> prog k1 u = prog (kern s) u) ->
  queue k1 (QCond listEmpty) = queue (kern s) (QCond listEmpty) ->
  (pend s t = true -> pend (set_kern k1 s) t = true) ->
  count_ok (set_kern k1 s).
Proof.
  intros t Hok Hi Hc Hu Hq Hp. unfold count_ok. cbn [kern set_kern]. rewrite Hq. intros Hq'.
  apply (pend_change s Hok Hi (set_kern k1 s) 0); try done.
  - intros u Hne. apply pend_same; cbn; [by apply Hu|done|done|by rewrite Hq].
  - cbn. lia.
  - fold t. destruct (pend s t); [rewrite Hp by done; done|]. apply b2z_range.
Qed.

Lemma current_held s : sl_ok s ->
  owner (ph s (current (kern s))) (prog (kern s) (current (kern s))) = true ->
  heldthread (kern s) lock = Some (current (kern s)).
Proof. intros Hok Ho. by apply (so_thread _ Hok). Qed.

(** [Finish]. *)
Lemma finish_core s :
  let t := current (kern s) in
  sl_ok s -> idle (kern s) = false -> prog (kern s) t = [] -> local t s = None ->
  (forall u, thread_ok (set_kern (setStatus t BLOCKED (kern s)) s) u) /\
  count_ok (set_kern (setStatus t BLOCKED (kern s)) s).
Proof.
  intros t Hok Hi Hp Hl. pose proof (so_thread _ Hok t) as [T1 T2 T3 T4 T5 T6 T7]. rewrite Hp in *.
  assert (Hout : ph s t = Outside /\ todo s t = []).
  { unfold local in Hl. destruct (ph s t), (todo s t) as [|[]]; try done; [by inversion T1|].
    by destruct (items s). }
  split.
  - apply (call_core s _ []); try done.
    + intros u Hne. constructor; cbn; try done. rewrite fn_ne by done. done.
    + intros _. right. naive_solver.
  - apply call_count; try done.
Qed.

Lemma shape_fork f ops rest : shape f ops (CFork [] :: rest) ->
  f = Outside /\ ops = [] /\ exists m, rest = replicate m (CFork []).
Proof.
  intros Hs. remember (CFork [] :: rest) as p eqn:E. destruct Hs as [[|m]| | | | | | |]; try done.
  injection E as <-. eauto.
Qed.

(** The main thread forks another one. *)
Lemma fork_core s rest :
  let t := current (kern s) in
  let k1 := Fork [] (set_prog t rest (kern s)) in
  sl_ok s -> idle (kern s) = false -> prog (kern s) t = CFork [] :: rest ->
  (forall u, thread_ok (set_kern k1 s) u) /\ count_ok (set_kern k1 s).
Proof.
  intros t k1 Hok Hi Hp. pose proof (so_thread _ Hok t) as [T1 T2 T3 T4 T5 T6 T7].
  pose proof (cur_created s Hok Hi) as Hc. pose proof (cur_running s Hok Hi) as R.
  rewrite Hp in *. fold t in Hc, R.
  assert (Hm : ph s t = Outside /\ todo s t = [] /\ exists m, rest = replicate m (CFork [])).
  { by apply shape_fork. }
  destruct Hm as (M1 & M2 & m & ->).
  assert (Hn : t <> created (kern s)) by lia.
  assert (Hother : forall u, u <> t -> prog k1 u = prog (kern s) u).
  { intros u Hne. cbn. destruct (decide (u = created (kern s))) as [->|].
    - rewrite fn_eq. symmetry. apply (so_thread _ Hok). lia.
    - by rewrite !fn_ne by done. }
  split.
  - intros u. destruct (decide (u = t)) as [->|Hne].
    + constructor; cbn; rewrite ?M1, ?M2, ?(fn_ne _ (created (kern s))), ?fn_eq by done; try done.
      * constructor.
      * rewrite T2, M1. by destruct m.
      * fold t. rewrite R. done.
      * intros Hq. by apply (cur_queue s Hok Hi) in Hq.
      * by destruct m.
      * lia.
    + eapply untouched_ok; [|apply Hok|done].
      constructor; try done; [by apply Hother| |cbn; lia]. cbn.
      rewrite fn_case. destruct (decide _); [done|]. by rewrite fn_ne.
  - unfold count_ok. cbn [kern set_kern]. change (queue k1) with (queue (kern s)).
    change (created k1) with (S (created (kern s))). intros Hq. cbn [cnt].
    assert (E : cnt (pend (set_kern k1 s)) (created (kern s)) = cnt (pend s) (created (kern s))).
    { apply cnt_ext. intros u Hu. destruct (decide (u = t)) as [->|Hne].
      - unfold pend. cbn [kern set_kern prog k1]. rewrite M1. rewrite Hp. cbn.
        rewrite fn_ne, fn_eq by done. rewrite M1. by destruct m.
      - apply pend_same; cbn [kern set_kern]; [by apply Hother|done|done|done]. }
    rewrite E. pose proof (b2z_range (pend (set_kern k1 s) (created (kern s)))).
    pose proof (so_pend _ Hok Hq). cbn [items set_kern]. lia.
Qed.

(** [Signal]: the signaller's part of the count goes to the woken thread. *)
Lemma signal_core s :
  let t := current (kern s) in
  let k1 := Signal listEmpty (set_prog t [CRelease lock] (kern s)) in
  sl_ok s -> idle (kern s) = false -> prog (kern s) t = [CSignal listEmpty; CRelease lock] ->
  (forall u, thread_ok (set_kern k1 s) u) /\ count_ok (set_kern k1 s).
Proof.
  intros t k1 Hok Hi Hp. pose proof (so_thread _ Hok t) as [T1 T2 T3 T4 T5 T6 T7].
  pose proof (cur_created s Hok Hi) as Hc. pose proof (cur_running s Hok Hi) as R.
  rewrite Hp in *. fold t in Hc, R.
  assert (M1 : ph s t = Outside) by (inversion T1; [by destruct m|done]).
  assert (Hpend : pend s t = true) by (unfold pend; by rewrite Hp).
  unfold k1, Signal. cbn [queue set_prog].
  destruct (queue (kern s) (QCond listEmpty)) as [|v rest] eqn:Hq.
  - split; [|unfold count_ok; cbn; by rewrite Hq].
    apply (call_core s _ [CRelease lock]); try done; fold t; rewrite ?M1; try done.
    + cbn. apply fn_eq.
    + intros u Hne. constructor; cbn; rewrite ?fn_ne by done; done.
    + constructor.
    + cbn. rewrite R. done.
    + cbn. rewrite Hq. by intros ?%not_elem_of_nil.
  - assert (Hv : v ∈ queue (kern s) (QCond listEmpty)) by (rewrite Hq; left).
    pose proof (so_thread _ Hok v) as [V1 V2 V3 V4 V5 V6 V7]. destruct (V4 Hv) as (P1 & (ops & P2) & P3).
    assert (Hne : v <> t) by (intros ->; congruence).
    pose proof (p_qnodup _ (g_pool _ (so_good _ Hok)) (QCond listEmpty)) as Hnd.
    rewrite Hq in Hnd. apply NoDup_cons in Hnd as [Hnv _].
    set (k2 := ReadyToRun v _).
    assert (Eq2 : queue k2 (QCond listEmpty) = rest) by (cbn; apply fn_lookup_insert).
    assert (Es2 : queue k2 (QSem (SLock lock)) = queue (kern s) (QSem (SLock lock)))
      by (cbn; by rewrite fn_lookup_insert_ne).
    split.
    + apply (call_core s k2 [CRelease lock]); try done; fold t; rewrite ?M1; try done.
      * cbn. apply fn_eq.
      * intros u Hu. constructor; cbn [kern set_kern]; try done.
        -- cbn. by rewrite fn_ne.
        -- rewrite Eq2, Es2, Hq. cbn. rewrite fn_case. destruct (decide (u = v)); [done|].
           intros B. splits; try done. rewrite elem_of_cons. naive_solver.
        -- rewrite Eq2, Hq, elem_of_cons. auto.
      * constructor.
      * cbn. rewrite fn_ne by done. rewrite R. done.
      * rewrite Eq2. intros Hr. destruct (cur_queue s Hok Hi (QCond listEmpty)). rewrite Hq. by right.
    + unfold count_ok. cbn [kern set_kern items]. rewrite Eq2. change (created k2) with (created (kern s)).
      intros _. pose proof (so_pend _ Hok) as Hcnt. unfold count_ok in Hcnt. rewrite Hq in Hcnt.
      specialize (Hcnt ltac:(done)).
      set (f := fun u => if decide (u = t) then false else pend s u).
      assert (Hvl : (v < created (kern s))%nat).
      { apply live_created; [apply Hok|]. rewrite (p_queue _ (g_pool _ (so_good _ Hok)) _ _ Hv). done. }
      rewrite (cnt_change f (pend (set_kern k2 s)) _ v Hvl).
      2:{ intros u Hu. unfold f. destruct (decide (u = t)) as [->|Hut].
          - unfold pend. cbn. by rewrite fn_eq, M1.
          - symmetry. apply pend_same; cbn [kern set_kern]; try done; [cbn; by rewrite fn_ne|].
            rewrite Eq2, Hq, elem_of_cons. naive_solver. }
      assert (pend (set_kern k2 s) v = true) as ->.
      { unfold pend. cbn [kern set_kern ph todo]. rewrite P1, P2. cbn [prog k2]. cbn.
        rewrite fn_ne, P3 by done. change (queue k2 (QCond listEmpty)) with (queue k2 (QCond listEmpty)).
        cbn. rewrite bool_decide_eq_false_2; [done|]. by rewrite fn_lookup_insert. }
      assert (f v = false) as ->.
      { unfold f. rewrite decide_False by done. unfold pend. rewrite P1, P2, P3.
        by rewrite bool_decide_eq_true_2. }
      rewrite (cnt_one (pend s) (created (kern s)) t Hc Hpend) in Hcnt. fold f in Hcnt. cbn. lia.
Qed.

(** [Release] by the owner. *)
Lemma Release_owner k : heldthread k lock = Some (current k) ->
  Release lock k = V (SLock lock) (set_heldthread lock None k).
Proof. intros E. unfold Release, isHeldByCurrentThread. by rewrite bool_decide_eq_true_2. Qed.

(** Threads that do not own the lock, when the owner gives it up. *)
Lemma Release_untouched s k1 u :
  heldthread (kern s) lock = Some (current (kern s)) -> u <> current (kern s) ->
  prog k1 u = prog (kern s) u -> heldthread k1 lock = None -> created k1 = created (kern s) ->
  (status k1 u = BLOCKED -> status (kern s) u = BLOCKED /\
     forall q, u ∈ queue (kern s) q -> u ∈ queue k1 q) ->
  (u ∈ queue k1 (QCond listEmpty) -> u ∈ queue (kern s) (QCond listEmpty)) ->
  untouched s (set_kern k1 s) u.
Proof.
  intros Ho Hne Ep Eh Ec Hb Hq. constructor; cbn; try done.
  - rewrite Eh, Ho. split; [done|]. congruence.
  - intros [B Q]%Hb. auto.
  - by rewrite Ec.
Qed.

Lemma release_core s :
  let t := current (kern s) in
  let k1 := Release lock (set_prog t [] (kern s)) in
  sl_ok s -> idle (kern s) = false -> prog (kern s) t = [CRelease lock] ->
  (forall u, thread_ok (set_kern k1 s) u) /\ count_ok (set_kern k1 s).
Proof.
  intros t k1 Hok Hi Hp. pose proof (so_thread _ Hok t) as [T1 T2 T3 T4 T5 T6 T7].
  pose proof (cur_running s Hok Hi) as R. rewrite Hp in *. fold t in R.
  assert (M1 : ph s t = Outside) by (inversion T1; [by destruct m|done]).
  assert (Ho : heldthread (kern s) lock = Some t) by (apply T2; by rewrite M1).
  unfold k1. rewrite Release_owner by done. set (k0 := set_heldthread lock None _).
  assert (Hv : forall u, prog (V (SLock lock) k0) u = prog k0 u) by (intros; by apply V_thread).
  destruct (V_thread (SLock lock) k0 t) as (_ & Eh & Ec & Eq & Eb).
  split.
  - apply (call_core s _ []); try done; fold t; rewrite ?M1, ?Hv, ?Eh; cbn [kern set_kern].
    + cbn. apply fn_eq.
    + intros u Hne. apply Release_untouched; try done.
      * rewrite Hv. cbn. by rewrite fn_ne.
      * by rewrite Eh.
      * apply (V_thread (SLock lock) k0 u).
      * by rewrite Eq.
    + constructor.
    + done.
    + intros [B _]%Eb. cbn in B. congruence.
    + rewrite Eq. cbn. by intros ?%(cur_queue s Hok Hi).
  - apply call_count; try done; fold t.
    + intros u Hne. rewrite Hv. cbn. by rewrite fn_ne.
    + unfold pend. rewrite Hp, M1. done.
Qed.

(** [P] on the lock's semaphore. *)
Lemma P_core s off off' :
  let t := current (kern s) in
  sl_ok s -> idle (kern s) = false ->
  prog (kern s) t = [CP (SLock lock) off; CHold lock off'] ->
  (forall u, thread_ok (set_kern (effect (kern s)) s) u) /\ count_ok (set_kern (effect (kern s)) s).
Proof.
  intros t Hok Hi Hp. pose proof (so_thread _ Hok t) as [T1 T2 T3 T4 T5 T6 T7].
  pose proof (cur_running s Hok Hi) as R. pose proof (cur_queue s Hok Hi) as Q.
  rewrite Hp in *. fold t in R, Q.
  assert (Hm : ph s t = Inside /\ exists o ops, todo s t = o :: ops)
    by (inversion T1; [by destruct m|eauto]).
  destruct Hm as (M1 & o & ops & M2).
  assert (Hh : heldthread (kern s) lock <> Some t) by (rewrite T2, M1; done).
  unfold effect. fold t. rewrite Hp. destruct (value (kern s) (SLock lock) =? 0).
  - set (k1 := setStatus _ _ _). split.
    + apply (call_core s k1 [CP (SLock lock) true; CHold lock off']); try done; fold t;
        rewrite ?M1, ?M2; try done.
      * cbn. apply fn_eq.
      * intros u Hne. constructor; cbn; rewrite ?fn_ne by done; try done.
        intros B. splits; try done. rewrite fn_lookup_insert, elem_of_app. auto.
      * constructor.
      * intros _. left. left. cbn. rewrite fn_lookup_insert, elem_of_app, list_elem_of_singleton. auto.
      * cbn. by intros ?%Q.
    + apply call_count; try done; fold t.
      * intros u Hne. cbn. by rewrite fn_ne.
      * unfold pend. cbn [kern set_kern]. rewrite Hp. cbn [prog k1]. cbn. by rewrite fn_eq.
  - set (k1 := set_prog _ _ _). split.
    + apply (call_core s k1 [CHold lock off']); try done; fold t; rewrite ?M1, ?M2; try done.
      * cbn. apply fn_eq.
      * intros u Hne. constructor; cbn; rewrite ?fn_ne by done; done.
      * constructor.
      * cbn. rewrite R. done.
      * cbn. by intros ?%Q.
    + apply call_count; try done; fold t.
      * intros u Hne. cbn. by rewrite fn_ne.
      * unfold pend. cbn [kern set_kern]. rewrite Hp. cbn [prog k1]. cbn. by rewrite fn_eq.
Qed.

(** The second half of [Acquire]. *)
Lemma hold_core s off :
  let t := current (kern s) in
  let k1 := set_heldthread lock (Some t) (set_prog t [] (kern s)) in
  sl_ok s -> idle (kern s) = false -> prog (kern s) t = [CHold lock off] ->
  (forall u, thread_ok (set_kern k1 s) u) /\ count_ok (set_kern k1 s).
Proof.
  intros t k1 Hok Hi Hp. pose proof (so_thread _ Hok t) as [T1 T2 T3 T4 T5 T6 T7].
  pose proof (cur_running s Hok Hi) as R. pose proof (cur_queue s Hok Hi) as Q.
  rewrite Hp in *. fold t in R, Q.
  assert (Hm : ph s t = Inside /\ exists o ops, todo s t = o :: ops)
    by (inversion T1; [by destruct m|eauto]).
  destruct Hm as (M1 & o & ops & M2).
  destruct (Hold_lock_ok lock off [] (kern s)) as [Hn _];
    [apply Hok|apply Hok|by apply cur_created|done|constructor|].
  split.
  - apply (call_core s k1 []); try done; fold t; rewrite ?M1, ?M2; try done.
    + cbn. apply fn_eq.
    + intros u Hne. constructor; cbn; rewrite ?fn_ne by done; try done.
      rewrite Hn, fn_eq. split; congruence.
    + constructor.
    + cbn. rewrite R. done.
    + cbn. by intros ?%Q.
  - apply call_count; try done; fold t.
    + intros u Hne. cbn. by rewrite fn_ne.
    + unfold pend. cbn [kern set_kern]. rewrite Hp. cbn [prog k1]. cbn. by rewrite fn_eq.
Qed.

(** [Wait]: the list is empty, so that nothing is lost. *)
Lemma wait_core s :
  let t := current (kern s) in
  sl_ok s -> idle (kern s) = false -> prog (kern s) t = [CWait listEmpty lock] ->
  (forall u, thread_ok (set_kern (effect (kern s)) s) u) /\ count_ok (set_kern (effect (kern s)) s).
Proof.
  intros t Hok Hi Hp. pose proof (so_thread _ Hok t) as [T1 T2 T3 T4 T5 T6 T7].
  pose proof (cur_running s Hok Hi) as R. rewrite Hp in *. fold t in R.
  assert (Hm : ph s t = Inside /\ exists ops, todo s t = SRemove :: ops)
    by (inversion T1; [by destruct m|eauto]).
  destruct Hm as (M1 & ops & M2). specialize (T5 eq_refl).
  assert (Ho : heldthread (kern s) lock = Some t) by (apply T2; by rewrite M1).
  unfold effect. fold t. rewrite Hp, Release_owner by done.
  set (k0 := set_heldthread lock None _).
  assert (Hv : forall u, prog (V (SLock lock) k0) u = prog k0 u) by (intros; by apply V_thread).
  destruct (V_thread (SLock lock) k0 t) as (_ & Eh & Ec & Eq & _).
  set (k1 := setStatus _ _ _).
  assert (Eq1 : queue k1 (QCond listEmpty) = queue (kern s) (QCond listEmpty) ++ [t]).
  { cbn [queue k1 setStatus set_prog set_queue]. by rewrite fn_lookup_insert, Eq. }
  assert (Eh1 : heldthread k1 lock = None) by (cbn [heldthread k1 setStatus set_prog set_queue]; by rewrite Eh).
  split; [|intros _; cbn [items set_kern]; rewrite T5; apply cnt_nonneg].
  apply (call_core s k1 [CP (SLock lock) true; CHold lock true]); try done; fold t;
    rewrite ?M1, ?M2; try done.
  - cbn [prog k1 setStatus set_prog]. apply fn_eq.
  - intros u Hne. destruct (V_thread (SLock lock) k0 u) as (_ & _ & _ & _ & Eb).
    apply Release_untouched; try done.
    + cbn [prog k1 setStatus set_prog set_queue]. rewrite fn_ne by done. by rewrite Hv.
    + cbn [status k1 setStatus set_prog set_queue]. rewrite fn_ne by done. intros [B Qs]%Eb.
      split; [done|]. intros q Hq. cbn [queue k1 setStatus set_prog set_queue].
      destruct (decide (QCond listEmpty = q)) as [<-|].
      * rewrite fn_lookup_insert, Eq, elem_of_app. by left.
      * rewrite fn_lookup_insert_ne by done. by apply Qs.
    + rewrite Eq1, elem_of_app, list_elem_of_singleton. naive_solver.
  - constructor.
  - by rewrite Eh1.
  - intros _. left. right. rewrite Eq1, elem_of_app, list_elem_of_singleton. auto.
  - eauto.
Qed.

(** ** Every step keeps the invariant *)

Lemma effect_core s :
  sl_ok s -> idle (kern s) = false ->
  (prog (kern s) (current (kern s)) = [] -> local (current (kern s)) s = None) ->
  (forall u, thread_ok (set_kern (effect (kern s)) s) u) /\ count_ok (set_kern (effect (kern s)) s).
Proof.
  intros Hok Hi Hl. pose proof (to_shape _ _ (so_thread _ Hok (current (kern s)))) as Hs.
  remember (prog (kern s) (current (kern s))) as p eqn:Hp. symmetry in Hp.
  assert (Hfin : p = [] -> (forall u, thread_ok (set_kern (effect (kern s)) s) u) /\
    count_ok (set_kern (effect (kern s)) s)).
  { intros ->. unfold effect. rewrite Hp. apply finish_core; auto. }
  destruct Hs as [[|m]| | | |o ops off off'|o ops off| |].
  - by apply Hfin.
  - unfold effect. rewrite Hp. by apply fork_core.
  - by apply Hfin.
  - unfold effect. rewrite Hp. by apply signal_core.
  - unfold effect. rewrite Hp. by apply release_core.
  - by apply (P_core s off off').
  - unfold effect. rewrite Hp. by apply (hold_core s off).
  - by apply Hfin.
  - by apply wait_core.
Qed.

(** Nobody sleeps on a semaphore of the devices. *)
Lemma user_queue s n : sl_ok s -> queue (kern s) (QSem (SUser n)) = [].
Proof.
  intros Hok. destruct (queue (kern s) (QSem (SUser n))) as [|u rest] eqn:Hq; [done|].
  assert (Hu : u ∈ queue (kern s) (QSem (SUser n))) by (rewrite Hq; left).
  destruct (p_head _ (g_pool _ (so_good _ Hok)) _ _ Hu) as [r Hr].
  pose proof (to_shape _ _ (so_thread _ Hok u)) as Hs. rewrite Hr in Hs. inversion Hs. by destruct m.
Qed.

Lemma sl_ok_step s k' :
  sl_ok s -> step (kern s) k' ->
  (forall u, thread_ok (set_kern k' s) u) /\ count_ok (set_kern k' s) -> sl_ok (set_kern k' s).
Proof.
  intros [G Sm L T C It Ff] St [T' C']. constructor; try done.
  - by eapply ThreadSafety.step_cases.
  - by eapply ThreadSafety.step_sem_ok.
  - by eapply ThreadSafety.step_lock_ok.
Qed.

Lemma sl_step_ok s s' : sl_ok s -> sl_step s s' -> sl_ok s'.
Proof.
  intros Hok St. destruct St as [s s' Hi Hp Hl|s k' Hi Hl E|s k' Hi E|s n Hi|s k' Hi E].
  - by eapply local_ok.
  - apply sl_ok_step; [done|by apply step_exec|].
    destruct (exec_good _ (so_good _ Hok) Hi) as (k1 & E1 & G1 & Sw). rewrite E in E1.
    injection E1 as <-. destruct (effect_core s Hok Hi Hl) as [T C].
    exact (switched_ok (set_kern (effect (kern s)) s) k' T C Sw).
  - apply sl_ok_step; [done|by apply step_slice|].
    apply andb_true_iff in Hi as [Hi _]. apply negb_true_iff in Hi.
    destruct (Yield_good _ (so_good _ Hok) Hi) as (k1 & E1 & G1 & Sw). rewrite E in E1.
    injection E1 as <-. apply switched_ok; [apply Hok..|done].
  - apply sl_ok_step; [done|by apply step_interrupt|].
    unfold V. rewrite user_queue by done. split; [|exact (so_pend _ Hok)].
    intros u. apply (untouched_ok s); [by constructor|apply Hok|done].
  - apply sl_ok_step; [done|by apply step_dispatch|].
    destruct (dispatch_good _ (so_good _ Hok) Hi) as (k1 & E1 & G1 & Sw). rewrite E in E1.
    injection E1 as <-. apply switched_ok; [apply Hok..|done].
Qed.

Lemma lock_prog_forks n : lock_prog (replicate n (CFork [])).
Proof. induction n; cbn; constructor; by try constructor. Qed.

Lemma sl_init_ok n script :
  (forall t, Forall (fun o => o <> SAppend 0) (script t)) -> sl_ok (sl_init n script).
Proof.
  intros Hs. constructor; cbn [kern sl_init]; try done.
  - apply ThreadSafety.boot_good.
  - by apply ThreadSafety.boot_sem_ok.
  - apply ThreadSafety.boot_lock_ok, lock_prog_forks.
  - intros t. constructor; cbn.
    + destruct (Nat.eqb t 0); constructor.
    + split; [done|]. destruct (Nat.eqb t 0); [by destruct n|done].
    + by destruct (Nat.eqb t 0).
    + by intros ?%not_elem_of_nil.
    + done.
    + by destruct (Nat.eqb t 0).
    + intros Ht. split; [done|]. destruct t; [lia|done].
  - intros Hq. by destruct Hq.
Qed.

Lemma sl_reach_ok n script s :
  (forall t, Forall (fun o => o <> SAppend 0) (script t)) ->
  rtc sl_step (sl_init n script) s -> sl_ok s.
Proof.
  intros Hs H. pose proof (sl_init_ok n script Hs) as H0.
  induction H as [|s1 s2 s3 St _ IH]; eauto using sl_step_ok.
Qed.

(** C5: The synchronised list is a queue.  Whatever the threads, their
    operations, time slices and interrupts: in every reachable state the items
    appended are the items removed, in the same order, followed by those in
    the list; no item is NULL, so that the assertion of [Remove] holds; a
    thread that works on the list is the recorded holder of the lock and the
    only one in that position; and the running thread can always go on: its
    next call succeeds. *)
Theorem synchlist_is_queue n script s :
  (forall t, Forall (fun o => o <> SAppend 0) (script t)) ->
  rtc sl_step (sl_init n script) s ->
  appended s = removed s ++ items s /\
  Forall (fun x => x <> 0) (items s) /\
  (forall t u, ph s t = Inside -> prog (kern s) t = [] -> ph s u = Inside -> prog (kern s) u = [] ->
     t = u /\ heldthread (kern s) lock = Some t) /\
  (idle (kern s) = false -> exists s', sl_step s s' /\
     (local (current (kern s)) s = Some s' \/ exec (kern s) = Ok (kern s'))).
Proof.
  intros Hs H%sl_reach_ok; [|done]. pose proof H as [G Sm L T C It Ff]. splits; try done.
  - intros t u F1 P1 F2 P2.
    assert (Own : forall v, ph s v = Inside -> prog (kern s) v = [] -> heldthread (kern s) lock = Some v).
    { intros v Fv Pv. apply (to_owner _ _ (T v)). by rewrite Fv, Pv. }
    pose proof (Own t F1 P1). pose proof (Own u F2 P2). split; congruence.
  - intros Hi. destruct (exec_good _ G Hi) as (k' & E & _).
    destruct (prog (kern s) (current (kern s))) as [|c rest] eqn:Hp;
      [destruct (local (current (kern s)) s) as [s'|] eqn:Hl|].
    + exists s'. split; [by apply sl_local|by left].
    + exists (set_kern k' s). split; [by apply sl_exec|by right].
    + exists (set_kern k' s). split; [|by right]. apply sl_exec; try done. by rewrite Hp.
Qed.

(** The place of a thread that sleeps. *)
Lemma sleeper s t : sl_ok s -> status (kern s) t = BLOCKED ->
  (exists r, prog (kern s) t = CP (SLock lock) true :: r /\ ph s t = Inside /\
     (t ∈ queue (kern s) (QSem (SLock lock)) \/ t ∈ queue (kern s) (QCond listEmpty))) \/
  (ph s t = Outside /\ todo s t = [] /\ prog (kern s) t = []).
Proof.
  intros Hok B. pose proof (so_thread _ Hok t) as [T1 T2 T3 T4 T5 T6 T7].
  destruct (T3 B) as [[Q|Q]|F]; [left|left|by right].
  - destruct (p_head _ (g_pool _ (so_good _ Hok)) _ _ Q) as [r Hr]. exists r.
    split; [done|]. split; [|by left]. rewrite Hr in T1. by inversion T1; [destruct m|].
  - destruct (T4 Q) as (P1 & _ & P3). eexists. split; [done|]. split; [done|by right].
Qed.

(** C4: The synchronised list loses no wakeup.  If the machine has nothing left
    to run, then every thread has finished all its operations or waits in
    [Remove], and if any thread waits the list is empty; nobody holds the
    lock or waits for it.  So no thread is left behind while there are items. *)
Theorem synchlist_no_lost_wakeup n script s :
  (forall t, Forall (fun o => o <> SAppend 0) (script t)) ->
  rtc sl_step (sl_init n script) s ->
  idle (kern s) = true -> readyList (kern s) = [] ->
  (forall t, (t < created (kern s))%nat -> todo s t = [] \/
     (t ∈ queue (kern s) (QCond listEmpty) /\ exists ops, todo s t = SRemove :: ops)) /\
  (queue (kern s) (QCond listEmpty) <> [] -> items s = []) /\
  heldthread (kern s) lock = None /\ queue (kern s) (QSem (SLock lock)) = [].
Proof.
  intros Hs Hok%sl_reach_ok Hi Hr; [|done]. pose proof Hok as [G Sm L T C It Ff].
  assert (Hb : forall t, (t < created (kern s))%nat -> status (kern s) t = BLOCKED)
    by (intros t; by apply quiet_blocked).
  assert (Hn : heldthread (kern s) lock = None).
  { destruct (heldthread (kern s) lock) as [t|] eqn:E; [exfalso|done].
    apply (to_owner _ _ (T t)) in E. destruct (Nat.lt_ge_cases t (created (kern s))) as [Ht|Ht].
    - destruct (sleeper s t Hok (Hb t Ht)) as [(r & P1 & P2 & _)|(P1 & _ & P2)];
        by rewrite P1, P2 in E.
    - destruct (to_fresh _ _ (T t) Ht) as [P1 P2]. by rewrite P1, P2 in E. }
  assert (Hv : value (kern s) (SLock lock) = 1).
  { pose proof (lk_unit _ L lock) as E. unfold held in E. rewrite Hn in E.
    rewrite cnt_none in E; [lia|]. intros t Ht. unfold acquiring.
    destruct (sleeper s t Hok (Hb t Ht)) as [(r & P1 & _)|(_ & _ & P2)]; [by rewrite P1|by rewrite P2]. }
  assert (Hq : queue (kern s) (QSem (SLock lock)) = []).
  { destruct (queue (kern s) (QSem (SLock lock))) eqn:E; [done|exfalso].
    destruct (Sm (SLock lock)) as [_ W]. rewrite E, Hv, cnt_none in W; [by specialize (W ltac:(done))|].
    intros t Ht. unfold woken. rewrite (bool_decide_eq_true_2 (status _ t = BLOCKED)) by auto.
    destruct (prog (kern s) t) as [|[? []| | | | | | | |]]; try done. apply andb_false_r. }
  splits; try done.
  - intros t Ht. destruct (sleeper s t Hok (Hb t Ht)) as [(r & _ & _ & [Q|Q])|(_ & P & _)]; [|right|by left].
    + rewrite Hq in Q. by apply not_elem_of_nil in Q.
    + split; [done|]. by apply (to_cond _ _ (T t)).
  - intros Hw. specialize (C Hw). rewrite cnt_none in C; [by destruct (items s)|].
    intros t Ht. unfold pend.
    destruct (sleeper s t Hok (Hb t Ht)) as [(r & P1 & P2 & [Q|Q])|(P1 & P2 & P3)].
    + rewrite Hq in Q. by apply not_elem_of_nil in Q.
    + destruct (to_cond _ _ (T t) Q) as (_ & (ops & E) & _).
      rewrite P1, P2, E. by rewrite bool_decide_eq_true_2.
    + by rewrite P1, P3.
Qed.

(** ** Instances *)

(** The running thread goes on, without interrupts. *)
Definition sl_next (s : SL) : option SL :=
  if idle (kern s) then None
  else
    match prog (kern s) (current (kern s)), local (current (kern s)) s with
    | [], Some s' => Some s'
    | _, _ => match exec (kern s) with Ok k' => Some (set_kern k' s) | Fault _ => None end
    end.

Fixpoint sl_after (n : nat) (s : SL) : SL :=
  match n with
  | O => s
  | S n' => match sl_next s with Some s' => sl_after n' s' | None => s end
  end.

Lemma sl_next_step s s' : sl_next s = Some s' -> sl_step s s'.
Proof.
  unfold sl_next. destruct (idle (kern s)) eqn:Hi; [done|].
  destruct (prog (kern s) (current (kern s))) as [|c rest] eqn:Hp;
    destruct (local (current (kern s)) s) as [s1|] eqn:Hl.
  - intros [= <-]. by apply sl_local.
  - destruct (exec (kern s)) eqn:E; [|done]. intros [= <-]. by apply sl_exec.
  - destruct (exec (kern s)) eqn:E; [|done]. intros [= <-]. apply sl_exec; try done. by rewrite Hp.
  - destruct (exec (kern s)) eqn:E; [|done]. intros [= <-]. by apply sl_exec.
Qed.

Lemma sl_after_steps n s : rtc sl_step s (sl_after n s).
Proof.
  revert s. induction n as [|n IH]; intros s; [apply rtc_refl|]. cbn.
  destruct (sl_next s) as [s'|] eqn:E; [|apply rtc_refl].
  eapply rtc_l; [by apply sl_next_step|apply IH].
Qed.

(** Thread 1 removes twice, thread 2 appends once. *)
Definition demo_script (t : nat) : list op :=
  match t with 1%nat => [SRemove; SRemove] | 2%nat => [SMapcar; SAppend 7] | _ => [] end.

Lemma demo_script_ok t : Forall (fun o => o <> SAppend 0) (demo_script t).
Proof. destruct t as [|[|[|t]]]; repeat constructor; done. Qed.

Lemma synchlist_is_queue_witness :
  let s := sl_after 24 (sl_init 2 demo_script) in
  [7] = removed s ++ items s.
Proof.
  change [7] with (appended (sl_after 24 (sl_init 2 demo_script))).
  apply (synchlist_is_queue 2 demo_script); [apply demo_script_ok|apply sl_after_steps].
Defined.

Lemma synchlist_no_lost_wakeup_witness :
  let s := sl_after 60 (sl_init 2 demo_script) in
  removed s = [7] /\ queue (kern s) (QCond listEmpty) = [1%nat] /\
  (queue (kern s) (QCond listEmpty) <> [] -> items s = []).
Proof.
  split; [vm_compute; reflexivity|]. split; [vm_compute; reflexivity|].
  apply (synchlist_no_lost_wakeup 2 demo_script); [apply demo_script_ok|apply sl_after_steps
    |vm_compute; reflexivity|vm_compute; reflexivity].
Defined.
