(* ===== verification/Client.v ===== *)
(** * Programs that run on the thread system

    The clients of threads/ that synchronise: SynchDisk, SynchConsole, the
    post office, the test programs of threadtest.cc.  A client is the code its
    threads run between two calls of the kernel ([act]) and what its device
    does when it interrupts ([dev]).  [Sys] runs a client over the kernel of
    Threads.v, with its ready list, sleep queues, time slices and interrupts.
    [Abs] is what the clients may rely on: threads that take turns at any
    point, and semaphores and locks that are indivisible.  Every run over the
    kernel is a run of [Abs] ([reach_view]), and where the kernel has nothing
    left to run no thread of [Abs] can go on either ([quiet_stuck]).  The
    clients' own theorems are proved against [Abs]. *)
From S2P Require Import Prelude Threads.
From S2P Require ThreadSafety.
From Stdlib Require Import ZArith Lia List Bool.
From stdpp Require Import base tactics list numbers functions relations gmap.
Local Open Scope Z_scope.

(** ** Clients *)

(** What a thread has to do: calls of the kernel, made one after the other, or
    code of its own. *)
Inductive stmt (A : Type) := Call (p : list cmd) | Act (a : A).
Arguments Call {A} p.
Arguments Act {A} a.

(** [act a t g]: thread [t] runs the code [a] on the shared data [g] up to its
    next kernel call; what it does then comes before what it had to do
    already.  [dev g n g']: the device may interrupt, the data become [g'] and
    the handler calls [V] on semaphore [n]. *)
Class Client (G A : Type) := {
  act : A -> nat -> G -> outcome (G * list (stmt A));
  dev : G -> nat -> G -> Prop }.

(** Kernel calls as the sources make them: locks through [Acquire], [Release]
    and [Wait] only, interrupts enabled, and threads forked with nothing to do
    but their part of [todo]. *)
Fixpoint calls_ok (p : list cmd) : bool :=
  match p with
  | [] => true
  | CP (SUser _) false :: p' => calls_ok p'
  | CP (SLock l) false :: q =>
    match q with
    | CHold l' false :: p' => Nat.eqb l l' && calls_ok p'
    | _ => false
    end
  | CV (SUser _) :: p' => calls_ok p'
  | (CRelease _ | CWait _ _ | CSignal _ | CBroadcast _ | CYield | CFork []) :: p' => calls_ok p'
  | _ => false
  end.

Definition stmt_ok {A} (x : stmt A) : Prop :=
  match x with Call p => calls_ok p = true | Act _ => True end.

Class ClientOk (G A : Type) `{Client G A} : Prop :=
  act_calls : forall a t g g' p, act a t g = Ok (g', p) -> Forall stmt_ok p.

(** ** Abstract machine *)

Inductive item (A : Type) := IC (c : cmd) | IA (a : A).
Arguments IC {A} c.
Arguments IA {A} a.

(** A call as the abstract machine makes it: [CWait] gives the lock up, and the
    thread then acquires it again. *)
Definition erase (c : cmd) : list cmd :=
  match c with
  | CP s _ => [CP s false]
  | CHold l _ => [CHold l false]
  | CWait c l => [CWait c l; CP (SLock l) false; CHold l false]
  | c => [c]
  end.

Definition calls {A} (p : list cmd) : list (item A) := IC <$> concat (erase <$> p).

Definition items_of {A} (x : stmt A) : list (item A) :=
  match x with Call p => calls p | Act a => [IA a] end.

Definition flat {A} (p : list (stmt A)) : list (item A) := concat (items_of <$> p).

Arguments calls : simpl never.
Arguments flat : simpl never.

Record Abs (G A : Type) := mkAbs {
  aval : sid -> Z;
  aheld : nat -> option nat;
  aglob : G;
  acode : nat -> list (item A) }.
Arguments mkAbs {G A}.
Arguments aval {G A}.
Arguments aheld {G A}.
Arguments aglob {G A}.
Arguments acode {G A}.

(** Two states with the same values. *)
#[global] Instance abs_equiv {G A} : Equiv (Abs G A) := fun a b =>
  (forall s, aval a s = aval b s) /\ (forall l, aheld a l = aheld b l) /\
  aglob a = aglob b /\ (forall t, acode a t = acode b t).

#[global] Instance abs_equivalence {G A} : Equivalence (≡@{Abs G A}).
Proof.
  split.
  - by intros [].
  - intros a b (? & ? & ? & ?). by repeat split.
  - intros a b c (H1 & H2 & H3 & H4) (K1 & K2 & K3 & K4).
    repeat split; intros; etrans; eauto.
Qed.

(** Indivisible calls. *)
Definition call_enabled {G A} (c : cmd) (a : Abs G A) : bool :=
  match c with CP s _ => 0 <? aval a s | _ => true end.

Definition releases (c : cmd) (l : nat) : bool :=
  match c with CRelease l' | CWait _ l' => Nat.eqb l l' | _ => false end.

Definition call_held {G A} (t : nat) (c : cmd) (a : Abs G A) (l : nat) : option nat :=
  match c with
  | CHold l' _ => if Nat.eqb l l' then Some t else aheld a l
  | _ => if releases c l && bool_decide (aheld a l = Some t) then None else aheld a l
  end.

Definition call_val {G A} (t : nat) (c : cmd) (a : Abs G A) (s : sid) : Z :=
  match c with
  | CP s' _ => if decide (s = s') then aval a s - 1 else aval a s
  | CV s' => if decide (s = s') then aval a s + 1 else aval a s
  | _ =>
    match s with
    | SLock l => if releases c l && bool_decide (aheld a l = Some t) then aval a s + 1 else aval a s
    | SUser _ => aval a s
    end
  end.

Definition code_upd {G A} (t : nat) (p : list (item A)) (a : Abs G A) (u : nat) : list (item A) :=
  if decide (u = t) then p else acode a u.

(** One thread makes its next call or runs its next piece of code, or the
    device interrupts. *)
Inductive astep {G A} `{Client G A} (a a' : Abs G A) : Prop :=
| as_call t c r :
    acode a t = IC c :: r -> call_enabled c a = true ->
    a' ≡ mkAbs (call_val t c a) (call_held t c a) (aglob a) (code_upd t r a) -> astep a a'
| as_act t x r g' p :
    acode a t = IA x :: r -> act x t (aglob a) = Ok (g', p) ->
    a' ≡ mkAbs (aval a) (aheld a) g' (code_upd t (flat p ++ r) a) -> astep a a'
| as_dev n g' :
    dev (aglob a) n g' ->
    a' ≡ mkAbs (call_val 0 (CV (SUser n)) a) (aheld a) g' (acode a) -> astep a a'.

(** ** Over the kernel *)

Record Sys (G A : Type) := mkSys { kern : Kern; glob : G; todo : nat -> list (stmt A) }.
Arguments mkSys {G A}.
Arguments kern {G A}.
Arguments glob {G A}.
Arguments todo {G A}.

Definition set_kern {G A} k (s : Sys G A) : Sys G A := mkSys k (glob s) (todo s).

(** What [t] does when its last kernel call has returned; [None]: nothing. *)
Definition local {G A} `{Client G A} (t : nat) (s : Sys G A) : option (outcome (Sys G A)) :=
  match todo s t with
  | [] => None
  | Call p :: r => Some (Ok (mkSys (set_prog t p (kern s)) (glob s) (<[t := r]> (todo s))))
  | Act a :: r => Some (
      x ← act a t (glob s);
      Ok (mkSys (kern s) x.1 (<[t := x.2 ++ r]> (todo s))))
  end.

Inductive sys_step {G A} `{Client G A} : Sys G A -> Sys G A -> Prop :=
| sys_local s s' :
    idle (kern s) = false -> prog (kern s) (current (kern s)) = [] ->
    local (current (kern s)) s = Some (Ok s') -> sys_step s s'
| sys_exec s k' :
    idle (kern s) = false ->
    (prog (kern s) (current (kern s)) = [] -> local (current (kern s)) s = None) ->
    exec (kern s) = Ok k' -> sys_step s (set_kern k' s)
| sys_slice s k' :
    interruptible (kern s) = true -> Yield (kern s) = Ok k' -> sys_step s (set_kern k' s)
| sys_interrupt s n g' :
    interruptible (kern s) || idle (kern s) = true -> dev (glob s) n g' ->
    sys_step s (mkSys (V (SUser n) (kern s)) g' (todo s))
| sys_dispatch s k' :
    idle (kern s) = true -> dispatch (kern s) = Ok k' -> sys_step s (set_kern k' s).

(** Thread [t], the [t]-th to be created, runs [script t]; thread 0 is the main
    thread, which forks the others. *)
Definition sys_init {G A} (script : nat -> list (stmt A)) (v : nat -> Z) (g : G) : Sys G A :=
  mkSys (boot [] v) g script.

(** What the clients see of a state. *)
Definition code {G A} (s : Sys G A) (t : nat) : list (item A) :=
  calls (prog (kern s) t) ++ flat (todo s t).

Definition view {G A} (s : Sys G A) : Abs G A :=
  mkAbs (value (kern s)) (heldthread (kern s)) (glob s) (code s).

(** ** The invariant of the kernel under a client *)

Definition forks_ok (p : list cmd) : Prop := Forall (fun c => forall b, c = CFork b -> b = []) p.

Record sys_ok {G A} (s : Sys G A) : Prop := {
  so_good : good (kern s);
  so_sem : sem_ok (kern s);
  so_lock : lock_ok (kern s);
  so_forks : forall t, forks_ok (prog (kern s) t);
  so_todo : forall t, Forall stmt_ok (todo s t);
  so_fresh : forall t, (created (kern s) <= t)%nat -> prog (kern s) t = [];
  so_asleep : forall t, status (kern s) t = BLOCKED ->
    (exists q, t ∈ queue (kern s) q) \/ code s t = [] }.

Lemma calls_ok_prog p : calls_ok p = true -> lock_prog p /\ forks_ok p.
Proof.
  remember (length p) as n eqn:Hn. revert p Hn.
  induction (lt_wf n) as [n _ IH]. intros p -> Hp.
  destruct p as [|c p]; [by repeat constructor|]. cbn in IH.
  assert (Hr : forall p', (length p' <= length p)%nat -> calls_ok p' = true -> lock_prog p' /\ forks_ok p')
    by (intros p' Hl; apply (IH (length p')); lia).
  destruct c as [[m|l] []|[m|l]| | | | | | |[]]; cbn in Hp; try done;
    try (destruct (Hr p) as [? ?]; [done|done|]; split; constructor; auto with nachos; by intros ? [= <-]).
  destruct p as [|[| |l' []| | | | | |] p]; try done.
  apply andb_true_iff in Hp as [<-%Nat.eqb_eq Hp]. destruct (Hr p) as [? ?]; [cbn; lia|done|].
  split; [by constructor|]. by repeat constructor.
Qed.

(** ** One call *)

(** The threads that a call leaves asleep, and their places in the queues. *)
Definition keeps_asleep (k k' : Kern) (u : nat) : Prop :=
  status k' u = BLOCKED -> status k u = BLOCKED /\ forall q, u ∈ queue k q -> u ∈ queue k' q.

Lemma keeps_refl k u : keeps_asleep k k u.
Proof. by intros ?. Qed.

Lemma keeps_trans k1 k2 k3 u : keeps_asleep k1 k2 u -> keeps_asleep k2 k3 u -> keeps_asleep k1 k3 u.
Proof. intros H1 H2 B. destruct (H2 B) as [B2 Q2]. destruct (H1 B2) as [B1 Q1]. auto. Qed.

(** Wake the first thread of a queue. *)
Lemma wake_keeps q t rest k u :
  queue k q = t :: rest -> keeps_asleep k (ReadyToRun t (set_queue q rest k)) u.
Proof.
  intros Hq. unfold keeps_asleep. cbn. rewrite fn_case. destruct (decide (u = t)) as [->|Hne]; [done|].
  intros B. split; [done|]. intros q' Hu. destruct (decide (q = q')) as [<-|Hq'].
  - rewrite fn_lookup_insert. rewrite Hq in Hu. by apply elem_of_cons in Hu as [->|].
  - by rewrite fn_lookup_insert_ne.
Qed.

Lemma V_keeps s k u : keeps_asleep k (V s k) u.
Proof.
  unfold V. destruct (queue k (QSem s)) as [|t rest] eqn:Hq; [done|].
  by apply (wake_keeps (QSem s)).
Qed.

Lemma Signal_keeps c k u : keeps_asleep k (Signal c k) u.
Proof.
  unfold Signal. destruct (queue k (QCond c)) as [|t rest] eqn:Hq; [done|].
  by apply (wake_keeps (QCond c)).
Qed.

Lemma Broadcast_keeps c k u : keeps_asleep k (Broadcast c k) u.
Proof.
  unfold Broadcast. generalize (length (queue k (QCond c))). intros n.
  induction n as [|n IH]; [done|]. eapply keeps_trans; [exact IH|apply Signal_keeps].
Qed.

Lemma Release_keeps l k u : keeps_asleep k (Release l k) u.
Proof.
  unfold Release. destruct (isHeldByCurrentThread l k); [|done].
  apply (keeps_trans k (set_heldthread l None k)); [done|apply V_keeps].
Qed.

(** What [Signal] and [Broadcast] have no part in. *)
Record same_data (k k' : Kern) : Prop := {
  sd_prog : prog k' = prog k;
  sd_value : value k' = value k;
  sd_held : heldthread k' = heldthread k;
  sd_created : created k' = created k }.

Lemma Signal_data c k : same_data k (Signal c k).
Proof. unfold Signal. by destruct (queue k (QCond c)). Qed.

Lemma Broadcast_data c k : same_data k (Broadcast c k).
Proof.
  unfold Broadcast. generalize (length (queue k (QCond c))). intros n.
  induction n as [|n [I1 I2 I3 I4]]; [done|].
  destruct (Signal_data c (Nat.iter n (Signal c) k)) as [E1 E2 E3 E4].
  split; etrans; [exact E1|exact I1|exact E2|exact I2|exact E3|exact I3|exact E4|exact I4].
Qed.

(** [Release] by thread [t]. *)
Lemma Release_data l k :
  let t := current k in
  prog (Release l k) = prog k /\ created (Release l k) = created k /\
  (forall l', heldthread (Release l k) l' =
     if Nat.eqb l' l && bool_decide (heldthread k l' = Some t) then None else heldthread k l') /\
  (forall s, value (Release l k) s =
     match s with
     | SLock l' => if Nat.eqb l' l && bool_decide (heldthread k l' = Some t) then value k s + 1 else value k s
     | SUser _ => value k s
     end).
Proof.
  intros t. unfold Release, isHeldByCurrentThread. fold t.
  destruct (bool_decide_reflect (heldthread k l = Some t)) as [Hh|Hh].
  - destruct (V_lock_same (SLock l) (set_heldthread l None k)) as (-> & -> & -> & ->).
    splits; try done.
    + intros l'. cbn. rewrite fn_case. destruct (Nat.eqb_spec l' l) as [->|]; [|by rewrite decide_False].
      by rewrite decide_True, bool_decide_eq_true_2.
    + intros [n|l']; cbn; [by rewrite fn_lookup_insert_ne|].
      destruct (Nat.eqb_spec l' l) as [->|]; [|by rewrite fn_lookup_insert_ne by congruence].
      by rewrite fn_lookup_insert, bool_decide_eq_true_2.
  - splits; try done.
    + intros l'. destruct (Nat.eqb_spec l' l) as [->|]; [|done]. by rewrite bool_decide_eq_false_2.
    + intros [n|l']; [done|]. destruct (Nat.eqb_spec l' l) as [->|]; [|done].
      by rewrite bool_decide_eq_false_2.
Qed.

(** What a call of the current thread is to the clients: a test of a semaphore
    that has to be repeated, or an indivisible call. *)
Definition call_effect {G A} (t : nat) (s s' : Sys G A) : Prop :=
  (view s' ≡ view s) \/
  exists c r, code s t = IC c :: r /\ call_enabled c (view s) = true /\
    view s' ≡ mkAbs (call_val t c (view s)) (call_held t c (view s)) (glob s) (code_upd t r (view s)).

Lemma view_code_upd {G A} (s : Sys G A) k' t p :
  (forall u, u <> t -> prog k' u = prog (kern s) u) ->
  calls (prog k' t) ++ flat (todo s t) = p ->
  forall u, code (set_kern k' s) u = code_upd t p (view s) u.
Proof.
  intros Hu Ht u. unfold code_upd. destruct (decide (u = t)) as [->|Hne]; [exact Ht|].
  unfold code. cbn. by rewrite Hu.
Qed.

Lemma calls_cons {A} c p : @calls A (c :: p) = (IC <$> erase c) ++ calls p.
Proof. unfold calls. cbn. by rewrite fmap_app. Qed.

Section Effect.
Context {G A : Type}.
Variable s : Sys G A.
Local Notation k := (kern s).
Local Notation t := (current (kern s)).
Hypothesis Hok : sys_ok s.

(** A call whose effect on the data is that of [c]. *)
Lemma simple_effect c rest k' :
  prog k t = c :: rest -> erase c = [c] -> call_enabled c (view s) = true ->
  (forall u, prog k' u = (<[t := rest]> (prog k)) u) ->
  (forall x, value k' x = call_val t c (view s) x) ->
  (forall l, heldthread k' l = call_held t c (view s) l) ->
  call_effect t s (set_kern k' s).
Proof.
  intros Hp He Hen Ep Ev Eh. right. exists c, (calls rest ++ flat (todo s t)).
  split; [|split; [done|]].
  - unfold code. rewrite Hp, calls_cons, He. done.
  - split; [exact Ev|]. split; [exact Eh|]. split; [done|].
    apply view_code_upd; [|by rewrite Ep, fn_eq]. intros u Hu. by rewrite Ep, fn_ne.
Qed.

Lemma P_effect x off rest :
  prog k t = CP x off :: rest -> call_effect t s (set_kern (effect k) s).
Proof.
  intros Hp. unfold effect. rewrite Hp. destruct (Z.eqb_spec (value k x) 0) as [Hv|Hv].
  - left. split; [done|]. split; [done|]. split; [done|]. intros u. cbn. unfold code. cbn. rewrite fn_case.
    destruct (decide (u = t)) as [->|]; [|done]. rewrite Hp. by rewrite !calls_cons.
  - right. exists (CP x false), (calls rest ++ flat (todo s t)). split; [|split].
    + unfold code. by rewrite Hp, calls_cons.
    + cbn. pose proof (so_sem _ Hok x) as [? _]. apply Z.ltb_lt.  lia.
    + split; [|split; [done|split; [done|]]].
      * intros y. cbn. destruct (decide (y = x)) as [->|]; [by rewrite fn_lookup_insert|].
        by rewrite fn_lookup_insert_ne.
      * apply view_code_upd; cbn; [|by rewrite fn_eq]. intros u Hu. by rewrite fn_ne.
Qed.

Lemma Hold_effect l off rest :
  prog k t = CHold l off :: rest -> call_effect t s (set_kern (effect k) s).
Proof.
  intros Hp. unfold effect. rewrite Hp. right.
  exists (CHold l false), (calls rest ++ flat (todo s t)). split; [|split; [done|]].
  - unfold code. by rewrite Hp, calls_cons.
  - split; [intros []; done|]. split; [|split; [done|]].
    + intros l'. cbn. rewrite fn_case.
      destruct (Nat.eqb_spec l' l), (decide (l' = l)); done.
    + apply view_code_upd; cbn; [|by rewrite fn_eq]. intros u Hu. by rewrite fn_ne.
Qed.

Lemma Wait_effect c l rest :
  prog k t = CWait c l :: rest -> call_effect t s (set_kern (effect k) s).
Proof.
  intros Hp. unfold effect. rewrite Hp. destruct (Release_data l k) as (E1 & E2 & E3 & E4).
  right. exists (CWait c l), (calls [CP (SLock l) true; CHold l true] ++ calls rest ++ flat (todo s t)).
  split; [|split; [done|]].
  - unfold code. by rewrite Hp, calls_cons.
  - split; [|split; [|split; [done|]]].
    + intros x. cbn. rewrite E4. by destruct x.
    + intros l'. cbn. by rewrite E3.
    + apply view_code_upd; cbn.
      * intros u Hu. by rewrite fn_ne, E1.
      * rewrite fn_eq. by rewrite !calls_cons.
Qed.

Lemma Fork_effect body rest :
  prog k t = CFork body :: rest -> (t < created k)%nat ->
  call_effect t s (set_kern (effect k) s).
Proof.
  intros Hp Ht. unfold effect. rewrite Hp.
  assert (body = []) as ->.
  { pose proof (so_forks _ Hok t) as F.  rewrite Hp in F.
    apply Forall_cons_1 in F as [F _]. by apply F. }
  apply (simple_effect (CFork []) rest); try done; [|by intros []].
  intros u. cbn. rewrite fn_case. destruct (decide (u = created k)) as [->|]; [|done].
  rewrite fn_ne by lia. symmetry. by apply (so_fresh _ Hok).
Qed.

Lemma exec_effect :
  (t < created k)%nat -> (prog k t = [] -> todo s t = []) ->
  call_effect t s (set_kern (effect k) s).
Proof.
  intros Ht Hn. destruct (prog k t) as [|c rest] eqn:Hp.
  - left. unfold effect. rewrite Hp. done.
  - destruct c as [x off|x|l off|l|c l|c|c| |body].
    + by eapply P_effect.
    + unfold effect. rewrite Hp.
      destruct (V_lock_same x (set_prog t rest k)) as (E1 & E2 & E3 & E4).
      apply (simple_effect (CV x) rest); try done.
      * intros u. by rewrite E1.
      * intros y. rewrite E4. cbn. destruct (decide (y = x)) as [->|];
          [by rewrite fn_lookup_insert|by rewrite fn_lookup_insert_ne].
      * intros l. by rewrite E2.
    + by eapply Hold_effect.
    + unfold effect. rewrite Hp.
      destruct (Release_data l (set_prog t rest k)) as (E1 & E2 & E3 & E4).
      apply (simple_effect (CRelease l) rest); try done; intros ?; by rewrite ?E1, ?E3, ?E4.
    + by eapply Wait_effect.
    + unfold effect. rewrite Hp. destruct (Signal_data c (set_prog t rest k)) as [E1 E2 E3 E4].
      apply (simple_effect (CSignal c) rest); try done; intros u;
        rewrite ?E1, ?E2, ?E3; by try destruct u.
    + unfold effect. rewrite Hp. destruct (Broadcast_data c (set_prog t rest k)) as [E1 E2 E3 E4].
      apply (simple_effect (CBroadcast c) rest); try done; intros u;
        rewrite ?E1, ?E2, ?E3; by try destruct u.
    + unfold effect. rewrite Hp. apply (simple_effect CYield rest); try done. by intros [].
    + by eapply Fork_effect.
Qed.

(** The calls that are left. *)
Lemma effect_prog : (t < created k)%nat ->
  exists p, forks_ok p /\ forall u, prog (effect k) u = if decide (u = t) then p else prog k u.
Proof.
  intros Ht. pose proof (so_forks _ Hok t) as F. unfold effect.
  destruct (prog k t) as [|c rest] eqn:Hp.
  { exists []. split; [constructor|]. intros u. cbn. by destruct (decide (u = t)) as [->|]. }
  pose proof (Forall_cons_1 _ _ _ F) as [F1 F2].
  assert (Hc : forall p, forks_ok p -> exists p', forks_ok p' /\
    forall u, (<[t := p]> (prog k)) u = if decide (u = t) then p' else prog k u)
    by (intros p Hf; exists p; split; [done|]; intros u; apply fn_case).
  destruct c as [x off|x|l off|l|c l|c|c| |body].
  - destruct (value k x =? 0); apply Hc; [|done]. by constructor.
  - destruct (V_lock_same x (set_prog t rest k)) as (-> & _). by apply Hc.
  - by apply Hc.
  - destruct (Release_data l (set_prog t rest k)) as (-> & _). by apply Hc.
  - destruct (Release_data l k) as (E & _). cbn. rewrite E. apply Hc. by repeat constructor.
  - destruct (Signal_data c (set_prog t rest k)) as [-> _ _ _]. by apply Hc.
  - destruct (Broadcast_data c (set_prog t rest k)) as [-> _ _ _]. by apply Hc.
  - by apply Hc.
  - rewrite (F1 body eq_refl). exists rest. split; [done|]. intros u. cbn. rewrite fn_case.
    destruct (decide (u = created k)) as [->|]; [|apply fn_case].
    rewrite decide_False by lia. symmetry. by apply (so_fresh _ Hok).
Qed.
End Effect.

(** A call puts nobody to sleep but the thread that makes it. *)
Lemma effect_keeps k u : u <> current k -> keeps_asleep k (effect k) u.
Proof.
  intros Hu. unfold effect. destruct (prog k (current k)) as [|c rest].
  { unfold keeps_asleep. cbn. by rewrite fn_ne. }
  destruct c as [x off|x|l off|l|c l|c|c| |body].
  - destruct (value k x =? 0); [|done]. unfold keeps_asleep. cbn. rewrite fn_ne by done.
    intros B. split; [done|]. intros q Hq. destruct (decide (QSem x = q)) as [<-|];
      [rewrite fn_lookup_insert, elem_of_app; by left|by rewrite fn_lookup_insert_ne].
  - exact (V_keeps x (set_prog (current k) rest k) u).
  - done.
  - exact (Release_keeps l (set_prog (current k) rest k) u).
  - apply (keeps_trans k (Release l k)); [apply Release_keeps|]. unfold keeps_asleep. cbn.
    rewrite fn_ne by done. intros B. split; [done|]. intros q Hq.
    destruct (decide (QCond c = q)) as [<-|];
      [rewrite fn_lookup_insert, elem_of_app; by left|by rewrite fn_lookup_insert_ne].
  - exact (Signal_keeps c (set_prog (current k) rest k) u).
  - exact (Broadcast_keeps c (set_prog (current k) rest k) u).
  - done.
  - unfold keeps_asleep. cbn. rewrite !fn_case.
    by destruct (decide (u = created k)).
Qed.

Lemma effect_created k : (created k <= created (effect k))%nat.
Proof.
  unfold effect. destruct (prog k (current k)) as [|[x off|x|l off|l|c l|c|c| |body] rest]; try done.
  - by destruct (value k x =? 0).
  - destruct (V_lock_same x (set_prog (current k) rest k)) as (_ & _ & -> & _). done.
  - destruct (Release_data l (set_prog (current k) rest k)) as (_ & -> & _). done.
  - destruct (Release_data l k) as (_ & E & _). cbn. by rewrite E.
  - destruct (Signal_data c (set_prog (current k) rest k)) as [_ _ _ ->]. done.
  - destruct (Broadcast_data c (set_prog (current k) rest k)) as [_ _ _ ->]. done.
  - cbn. lia.
Qed.

(** If it sleeps itself, then in a queue, unless it has finished. *)
Lemma effect_asleep k : status k (current k) = RUNNING ->
  status (effect k) (current k) = BLOCKED ->
  (exists q, current k ∈ queue (effect k) q) \/ prog k (current k) = [].
Proof.
  intros R. set (t := current k) in *. unfold effect. fold t.
  assert (Hk : forall k', keeps_asleep k k' t -> status k' t <> BLOCKED)
    by (intros k' Hk B; destruct (Hk B); congruence).
  destruct (prog k t) as [|c rest]; [by right|]. intros B. left. revert B.
  destruct c as [x off|x|l off|l|c l|c|c| |body].
  - destruct (value k x =? 0); [|by intros ?%Hk]. intros _. exists (QSem x). cbn.
    rewrite fn_lookup_insert, elem_of_app, list_elem_of_singleton. by right.
  - intros B. by apply (Hk _ (V_keeps x (set_prog t rest k) t)) in B.
  - by intros ?%Hk.
  - intros B. by apply (Hk _ (Release_keeps l (set_prog t rest k) t)) in B.
  - intros _. exists (QCond c). cbn.
    rewrite fn_lookup_insert, elem_of_app, list_elem_of_singleton. by right.
  - intros B. by apply (Hk _ (Signal_keeps c (set_prog t rest k) t)) in B.
  - intros B. by apply (Hk _ (Broadcast_keeps c (set_prog t rest k) t)) in B.
  - by intros ?%Hk.
  - cbn. rewrite !fn_case. by destruct (decide (t = created k)), (decide (t = t)); try congruence.
Qed.

(** ** Every step keeps the invariant and is a step of the abstract machine *)

Lemma flat_cons {A} (x : stmt A) p : flat (x :: p) = items_of x ++ flat p.
Proof. done. Qed.

Lemma flat_app {A} (p q : list (stmt A)) : flat (p ++ q) = flat p ++ flat q.
Proof. unfold flat. by rewrite fmap_app, concat_app. Qed.

(** Another thread is dispatched. *)
Lemma switched_view {G A} (s : Sys G A) k' :
  switched (kern s) k' -> view (set_kern k' s) ≡ view s.
Proof.
  intros [[S1 S2 S3 S4 S5] _]. split; [|split; [|split; [done|]]]; intros x; cbn.
  - by rewrite S2.
  - by rewrite S4.
  - unfold code. cbn. by rewrite S1.
Qed.

Lemma switched_sys_ok {G A} (s : Sys G A) k' :
  sys_ok s -> switched (kern s) k' -> good k' -> sys_ok (set_kern k' s).
Proof.
  intros [G1 S1 L1 F1 T1 N1 B1] Sw Gd. pose proof Sw as [[E1 E2 E3 E4 E5] B].
  constructor; cbn; rewrite ?E1, ?E3, ?E5; try done.
  - by eapply sem_ok_switched.
  - by eapply lock_ok_switched.
  - intros t. rewrite B. intros [Hq|Hq]%B1; [by left|right].
    destruct (switched_view s k' Sw) as (_ & _ & _ & Ec). specialize (Ec t). cbn in Ec.
    by rewrite Ec.
Qed.

Section Steps.
Context {G A : Type} `{ClientOk G A}.
Implicit Type s : Sys G A.

Lemma running s : sys_ok s -> idle (kern s) = false ->
  status (kern s) (current (kern s)) = RUNNING /\ (current (kern s) < created (kern s))%nat.
Proof.
  intros Hok Hi. assert (status (kern s) (current (kern s)) = RUNNING) as R by (by apply Hok).
  split; [done|]. apply live_created; [apply Hok|congruence].
Qed.

Lemma call_local s p r :
  let t := current (kern s) in
  let s' := mkSys (set_prog t p (kern s)) (glob s) (<[t := r]> (todo s)) in
  sys_ok s -> idle (kern s) = false -> prog (kern s) t = [] -> todo s t = Call p :: r ->
  sys_ok s' /\ view s' ≡ view s.
Proof.
  intros t s' Hok Hi Hp Ht. destruct (running s Hok Hi) as [R C]. fold t in R, C.
  assert (E : view s' ≡ view s).
  { split; [done|]. split; [done|]. split; [done|]. intros u. cbn. unfold code. cbn.
    rewrite !fn_case. destruct (decide (u = t)) as [->|]; [|done]. by rewrite Hp, Ht, flat_cons. }
  split; [|done]. pose proof (so_todo _ Hok t) as Hs. rewrite Ht in Hs.
  apply Forall_cons_1 in Hs as [Hc Hr]. destruct (calls_ok_prog p Hc) as [Hl Hf].
  destruct Hok as [G1 S1 L1 F1 T1 N1 B1]. constructor; cbn.
  - apply set_prog_good; [done|congruence].
  - apply sem_ok_prog; [done|]. intros x. unfold woken. by rewrite Hp.
  - apply lock_ok_prog; try done. intros l. unfold acquiring. by rewrite Hp.
  - intros u. rewrite fn_case. by destruct (decide (u = t)).
  - intros u. rewrite fn_case. by destruct (decide (u = t)).
  - intros u Hu. rewrite fn_ne by lia. auto.
  - intros u [Hq|Hq]%B1; [by left|right]. destruct E as (_ & _ & _ & Ec). specialize (Ec u).
    cbn in Ec. by rewrite Ec.
Qed.

Lemma act_local s a r g' p :
  let t := current (kern s) in
  let s' := mkSys (kern s) g' (<[t := p ++ r]> (todo s)) in
  sys_ok s -> idle (kern s) = false -> prog (kern s) t = [] -> todo s t = Act a :: r ->
  act a t (glob s) = Ok (g', p) -> sys_ok s' /\ astep (view s) (view s').
Proof.
  intros t s' Hok Hi Hp Ht Ha. destruct (running s Hok Hi) as [R C]. fold t in R, C.
  assert (Hc : forall u, u <> t -> code s' u = code s u)
    by (intros u Hu; unfold code; cbn; by rewrite fn_ne).
  pose proof (so_todo _ Hok t) as Hs. rewrite Ht in Hs. apply Forall_cons_1 in Hs as [_ Hr].
  split.
  - pose proof Hok as [G1 S1 L1 F1 T1 N1 B1]. constructor; cbn; try done.
    + intros u. rewrite fn_case. destruct (decide (u = t)); [|done].
      apply Forall_app. split; [by eapply act_calls|done].
    + intros u B. destruct (decide (u = t)) as [->|Hu]; [congruence|]. rewrite Hc by done. auto.
  - apply (as_act _ _ t a (flat r) g' p); [|done|].
    + cbn. unfold code. by rewrite Hp, Ht.
    + split; [done|]. split; [done|]. split; [done|]. intros u. unfold code_upd. cbn.
      destruct (decide (u = t)) as [->|Hu]; [|by apply Hc].
      unfold code. cbn. by rewrite Hp, fn_eq, flat_app.
Qed.

Lemma exec_sys_ok s k' :
  sys_ok s -> idle (kern s) = false ->
  (prog (kern s) (current (kern s)) = [] -> todo s (current (kern s)) = []) ->
  good k' -> switched (effect (kern s)) k' -> sys_ok (set_kern k' s).
Proof.
  intros Hok Hi Hn Gd Sw. destruct (running s Hok Hi) as [R C].
  destruct (effect_prog s Hok C) as (p & Hp1 & Hp2).
  pose proof Hok as [G1 S1 L1 F1 T1 N1 B1]. pose proof Sw as [[E1 E2 E3 E4 E5] B].
  pose proof (effect_created (kern s)) as Hcr.
  constructor; cbn; try done.
  - eapply sem_ok_switched; [exact Sw|]. by apply effect_sem_ok.
  - eapply lock_ok_switched; [exact Sw|]. by apply effect_lock_ok.
  - intros u. rewrite E1, Hp2. by destruct (decide _).
  - intros u Hu. rewrite E5 in Hu. rewrite E1, Hp2, decide_False by lia. apply N1. lia.
  - intros u. rewrite B, E3. intros Hb. destruct (decide (u = current (kern s))) as [->|Hne].
    + destruct (effect_asleep _ R Hb) as [Hq|Hq]; [by left|right].
      unfold code. cbn. rewrite E1, Hn by done. unfold effect. rewrite Hq. cbn. by rewrite Hq.
    + destruct (effect_keeps (kern s) u Hne Hb) as [Hb' Hq]. destruct (B1 u Hb') as [[q Hu]|Hu];
        [left; eauto|right]. rewrite <- Hu. unfold code. cbn.
      by rewrite E1, Hp2, decide_False.
Qed.

Lemma interrupt_sys_ok s n (g' : G) : sys_ok s -> sys_ok (mkSys (V (SUser n) (kern s)) g' (todo s)).
Proof.
  intros [G1 S1 L1 F1 T1 N1 B1]. destruct (V_lock_same (SUser n) (kern s)) as (E1 & E2 & E3 & E4).
  constructor; cbn [kern glob todo]; rewrite ?E1, ?E3; try done.
  - by apply V_good.
  - apply V_sem_ok; [apply G1|done].
  - apply (lock_ok_same (kern s)); try done. intros l. by rewrite E4, fn_lookup_insert_ne.
  - intros u Hb. destruct (V_keeps (SUser n) (kern s) u Hb) as [Hb' Hq].
    destruct (B1 u Hb') as [[q Hu]|Hu]; [left; eauto|right]. unfold code in *. cbn [kern todo]. by rewrite E1.
Qed.

Lemma call_effect_step s s' : call_effect (current (kern s)) s s' ->
  view s' ≡ view s \/ astep (view s) (view s').
Proof. intros [E|(c & r & Hc & He & E)]; [by left|right]. by eapply as_call. Qed.

Lemma astep_proper (a b c : Abs G A) : astep a b -> b ≡ c -> astep a c.
Proof.
  intros [t x r H1 H2 H3|t x r g' p H1 H2 H3|n g' H1 H2] E.
  - eapply as_call; [done..|by rewrite <- E].
  - eapply as_act; [done..|by rewrite <- E].
  - eapply as_dev; [done|by rewrite <- E].
Qed.

Lemma astep_proper_l (a b c : Abs G A) : a ≡ b -> astep b c -> astep a c.
Proof.
  intros (E1 & E2 & E3 & E4).
  assert (Hc : forall t p u, code_upd t p a u = code_upd t p b u)
    by (intros t p u; unfold code_upd; by rewrite E4).
  assert (Hv : forall t x y, call_val t x a y = call_val t x b y)
    by (intros t x y; unfold call_val; by rewrite E1, ?E2; destruct y; rewrite ?E1, ?E2).
  assert (Hh : forall t x l, call_held t x a l = call_held t x b l)
    by (intros t x l; unfold call_held; by rewrite E2).
  intros [t x r H1 H2 H3|t x r g' p H1 H2 H3|n g' H1 H2].
  - apply (as_call _ _ t x r).
    + by rewrite E4.
    + destruct x; try done. cbn in *. by rewrite E1.
    + rewrite H3. split; [|split; [|split]]; intros; cbn; try done; by symmetry.
  - apply (as_act _ _ t x r g' p).
    + by rewrite E4.
    + by rewrite E3.
    + rewrite H3. split; [|split; [|split]]; intros; cbn; try done; by symmetry.
  - apply (as_dev _ _ n g').
    + by rewrite E3.
    + rewrite H2. split; [|split; [|split]]; intros; cbn; try done; by rewrite ?E1.
Qed.

(** The simulation: a step over the kernel keeps the invariant, and is no step
    or one step of the abstract machine. *)
Lemma sys_step_view s s' : sys_ok s -> sys_step s s' ->
  sys_ok s' /\ (view s' ≡ view s \/ astep (view s) (view s')).
Proof.
  intros Hok St. destruct St as [s s' Hi Hp Hl|s k' Hi Hl E|s k' Hi E|s n g' Hi D|s k' Hi E].
  - unfold local in Hl. destruct (todo s (current (kern s))) as [|[p|a] r] eqn:Ht; [done|..].
    + injection Hl as <-. destruct (call_local s p r Hok Hi Hp Ht). auto.
    + destruct (act a (current (kern s)) (glob s)) as [[g' p]|] eqn:Ha; [|done].
      injection Hl as <-. destruct (act_local s a r g' p Hok Hi Hp Ht Ha). auto.
  - destruct (exec_good _ (so_good _ Hok) Hi) as (k1 & E1 & G1 & Sw). rewrite E in E1.
    injection E1 as <-. destruct (running s Hok Hi) as [R C].
    assert (Hn : prog (kern s) (current (kern s)) = [] -> todo s (current (kern s)) = []).
    { intros Hp. specialize (Hl Hp). unfold local in Hl. by destruct (todo _ _) as [|[] ?]. }
    split; [by apply exec_sys_ok|].
    pose proof (switched_view (set_kern (effect (kern s)) s) k' Sw) as Ev.
    destruct (call_effect_step _ _ (exec_effect s Hok C Hn)) as [Es|Es]; [left|right].
    + by etrans.
    + by eapply astep_proper.
  - apply andb_true_iff in Hi as [Hi _]. apply negb_true_iff in Hi.
    destruct (Yield_good _ (so_good _ Hok) Hi) as (k1 & E1 & G1 & Sw). rewrite E in E1.
    injection E1 as <-. split; [by apply switched_sys_ok|left; by apply switched_view].
  - split; [by apply interrupt_sys_ok|right].
    destruct (V_lock_same (SUser n) (kern s)) as (E1 & E2 & E3 & E4).
    eapply as_dev; [done|]. split; [|split; [|split; [done|]]]; intros x; cbn [view aval aheld aglob acode kern glob todo].
    + rewrite E4. cbn. destruct (decide (x = SUser n)) as [->|];
        [by rewrite fn_lookup_insert|by rewrite fn_lookup_insert_ne].
    + by rewrite E2.
    + unfold code. cbn [kern todo]. by rewrite E1.
  - destruct (dispatch_good _ (so_good _ Hok) Hi) as (k1 & E1 & G1 & Sw). rewrite E in E1.
    injection E1 as <-. split; [by apply switched_sys_ok|left; by apply switched_view].
Qed.

(** The running thread can always go on, unless its own code fails. *)
Lemma sys_progress s : sys_ok s -> idle (kern s) = false ->
  (exists s', sys_step s s') \/
  (exists a r e, code s (current (kern s)) = IA a :: r /\
     act a (current (kern s)) (glob s) = Fault e).
Proof.
  intros Hok Hi. destruct (exec_good _ (so_good _ Hok) Hi) as (k' & E & _).
  destruct (prog (kern s) (current (kern s))) as [|c rest] eqn:Hp.
  - destruct (local (current (kern s)) s) as [[s'|e]|] eqn:Hl.
    + left. exists s'. by apply sys_local.
    + right. unfold local in Hl. destruct (todo s (current (kern s))) as [|[p|a] r] eqn:Ht; try done.
      destruct (act a (current (kern s)) (glob s)) as [x|e'] eqn:Ha; [done|].
      exists a, (flat r), e'. split; [|done]. unfold code. by rewrite Hp, Ht.
    + left. exists (set_kern k' s). by apply sys_exec.
  - left. exists (set_kern k' s). apply sys_exec; try done. by rewrite Hp.
Qed.

(** ** Reachable states *)

Lemma sys_init_ok script v (g : G) :
  (forall n, 0 <= v n) -> (forall t, Forall stmt_ok (script t)) -> sys_ok (sys_init script v g : Sys G A).
Proof.
  intros Hv Hs. constructor; cbn; try done.
  - apply ThreadSafety.boot_good.
  - by apply ThreadSafety.boot_sem_ok.
  - apply ThreadSafety.boot_lock_ok. constructor.
  - intros t. destruct (Nat.eqb t 0); constructor.
  - intros t _. by destruct (Nat.eqb t 0).
  - intros t. by destruct (Nat.eqb t 0).
Qed.

(** What the kernel guarantees of the abstract states it runs through: no
    semaphore is negative, and a lock is recorded only when nobody has it. *)
Record abs_facts (a : Abs G A) : Prop := {
  af_val : forall x, 0 <= aval a x;
  af_hold : forall t l off r, acode a t = IC (CHold l off) :: r -> aheld a l = None }.

Lemma code_hold s t l off r : sys_ok s -> code s t = IC (CHold l off) :: r ->
  (t < created (kern s))%nat /\ acquiring l (kern s) t = true.
Proof.
  intros Hok Hc. unfold code in Hc. destruct (prog (kern s) t) as [|c rest] eqn:Hp.
  - exfalso. pose proof (so_todo _ Hok t) as Ht. cbn in Hc. revert Hc.
    induction Ht as [|x p Hx Hp' IH]; [done|]. rewrite flat_cons.
    destruct x as [q|a]; [|done]. destruct q as [|c q]; [exact IH|].
    cbn. rewrite calls_cons. by destruct c as [[] []| |? []| | | | | |].
  - assert (Hlt : (t < created (kern s))%nat).
    { destruct (Nat.lt_ge_cases t (created (kern s))) as [|Hge]; [done|].
      apply (so_fresh _ Hok) in Hge. congruence. }
    split; [done|]. unfold acquiring. rewrite Hp. rewrite calls_cons in Hc.
    destruct c; try done. cbn in Hc. injection Hc as -> _ _. by apply bool_decide_eq_true_2.
Qed.

Lemma view_facts s : sys_ok s -> abs_facts (view s).
Proof.
  intros Hok. constructor; [intros x; apply (so_sem _ Hok)|].
  intros t l off r Hc. destruct (code_hold s t l off r Hok Hc) as [Ht Ha]. cbn.
  pose proof (lk_unit _ (so_lock _ Hok) l) as L. rewrite (cnt_one _ _ t Ht Ha) in L.
  match type of L with context [cnt ?f ?n + 1] => pose proof (cnt_nonneg f n) end.
  destruct (so_sem _ Hok (SLock l)) as [V0 _]. unfold held in L.
  destruct (heldthread (kern s) l); [lia|done].
Qed.

Section Reach.
Variables (script : nat -> list (stmt A)) (v : nat -> Z) (g : G).
Hypothesis Hv : forall n, 0 <= v n.
Hypothesis Hscript : forall t, Forall stmt_ok (script t).

Lemma reach_ok s : rtc sys_step (sys_init script v g) s -> sys_ok s.
Proof.
  intros R. pose proof (sys_init_ok script v g Hv Hscript) as I0.
  induction R as [|s1 s2 s3 St _ IH]; [done|]. apply IH. by apply (sys_step_view s1).
Qed.

(** To prove an invariant of what the clients see, consider the steps of the
    abstract machine. *)
Lemma reach_invariant (I : Abs G A -> Prop) s :
  (forall a b, a ≡ b -> I a -> I b) ->
  (forall a a', abs_facts a -> I a -> astep a a' -> I a') ->
  I (view (sys_init script v g)) -> rtc sys_step (sys_init script v g) s -> I (view s).
Proof.
  intros He Hs I0 R. pose proof (sys_init_ok script v g Hv Hscript) as Hok.
  induction R as [|s1 s2 s3 St _ IH]; [done|].
  destruct (sys_step_view s1 s2 Hok St) as [Hok' [E|E]]; apply IH; try done.
  - eapply He; [|exact I0]. by symmetry.
  - eapply Hs; [|exact I0|exact E]. by apply view_facts.
Qed.

Lemma reach_view s : rtc sys_step (sys_init script v g) s ->
  exists a, rtc astep (view (sys_init script v g)) a /\ a ≡ view s.
Proof.
  apply (reach_invariant (fun b => exists a, rtc astep (view (sys_init script v g)) a /\ a ≡ b)).
  - intros a b E (c & R & E'). exists c. split; [done|]. by etrans.
  - intros a a' _ (c & R & E) St. exists a'. split; [|done]. eapply rtc_r; [done|].
    eapply astep_proper_l; [|done]. by symmetry.
  - eexists. split; [apply rtc_refl|done].
Qed.
End Reach.

(** With nothing to run every thread has finished, or waits for a condition, or
    for a semaphore whose value is 0. *)
Lemma quiet_stuck s t :
  sys_ok s -> idle (kern s) = true -> readyList (kern s) = [] -> (t < created (kern s))%nat ->
  code s t = [] \/ (exists c, t ∈ queue (kern s) (QCond c)) \/
  (exists x r, code s t = IC (CP x false) :: r /\ value (kern s) x = 0).
Proof.
  intros Hok Hi Hr Ht. pose proof (so_good _ Hok) as G'.
  destruct (so_asleep _ Hok t (quiet_blocked _ t G' Hi Hr Ht)) as [[[x|c] Hq]|Hc];
    [right; right|right; left; eauto|by left].
  destruct (p_head _ (g_pool _ G') _ _ Hq) as [rest Hp].
  exists x, (calls rest ++ flat (todo s t)). split; [unfold code; by rewrite Hp, calls_cons|].
  destruct (so_sem _ Hok x) as [V0 W]. rewrite cnt_none in W.
  - specialize (W ltac:(intros E; rewrite E in Hq; by apply not_elem_of_nil in Hq)). lia.
  - intros u Hu. unfold woken. rewrite (bool_decide_eq_true_2 (status _ u = BLOCKED))
      by (by apply quiet_blocked).
    destruct (prog (kern s) u) as [|[? []| | | | | | | |]]; try done. apply andb_false_r.
Qed.
End Steps.

(** A thread that has not been created has its whole script to do. *)
Lemma reach_unborn {G A} `{ClientOk G A} script v (g : G) (s : Sys G A) :
  (forall n, 0 <= v n) -> (forall t, Forall stmt_ok (script t)) ->
  rtc sys_step (sys_init script v g) s ->
  (0 < created (kern s))%nat /\
  forall u, (created (kern s) <= u)%nat -> code s u = flat (script u).
Proof.
  intros Hv Hs R.
  enough ((0 < created (kern s))%nat /\ forall u, (created (kern s) <= u)%nat -> todo s u = script u)
    as [H1 H2].
  { split; [done|]. intros u Hu. unfold code. rewrite H2 by done.
    by rewrite (so_fresh _ (reach_ok script v g Hv Hs s R) u Hu). }
  revert s R. apply rtc_ind_r; [split; [cbn; lia|done]|].
  intros s1 s2 R St [I1 I2]. pose proof (reach_ok script v g Hv Hs s1 R) as Hok.
  enough ((created (kern s1) <= created (kern s2))%nat /\
    forall u, (created (kern s1) <= u)%nat -> todo s2 u = todo s1 u) as [Hc Ht].
  { split; [lia|]. intros u Hu. rewrite Ht, I2 by lia. done. }
  destruct St as [s s' Hi Hp Hl|s k' Hi Hl E|s k' Hi E|s n g' Hi D|s k' Hi E]; cbn [kern set_kern todo].
  - destruct (running s Hok Hi) as [_ C]. unfold local in Hl.
    destruct (todo s (current (kern s))) as [|[p|a] r]; [done|..].
    + injection Hl as <-. cbn. split; [lia|]. intros u Hu. by rewrite fn_ne by lia.
    + destruct (act a (current (kern s)) (glob s)); [|done]. injection Hl as <-. cbn. split; [lia|].
      intros u Hu. by rewrite fn_ne by lia.
  - destruct (exec_good _ (so_good _ Hok) Hi) as (k1 & E1 & _ & [[_ _ _ _ Sc] _]). rewrite E in E1.
    injection E1 as <-. rewrite Sc. split; [apply effect_created|done].
  - apply andb_true_iff in Hi as [Hi _]. apply negb_true_iff in Hi.
    destruct (Yield_good _ (so_good _ Hok) Hi) as (k1 & E1 & _ & [[_ _ _ _ Sc] _]). rewrite E in E1.
    injection E1 as <-. by rewrite Sc.
  - destruct (V_lock_same (SUser n) (kern s)) as (_ & _ & -> & _). done.
  - destruct (dispatch_good _ (so_good _ Hok) Hi) as (k1 & E1 & _ & [[_ _ _ _ Sc] _]). rewrite E in E1.
    injection E1 as <-. by rewrite Sc.
Qed.

(** ** Clients without conditions *)

Lemma V_cond x k c : queue (V x k) (QCond c) = queue k (QCond c).
Proof.
  unfold V. destruct (queue k (QSem x)) as [|t rest]; [done|]. cbn. by rewrite fn_lookup_insert_ne.
Qed.

Lemma Release_cond l k c : queue (Release l k) (QCond c) = queue k (QCond c).
Proof. unfold Release. destruct (isHeldByCurrentThread l k); [|done]. by rewrite V_cond. Qed.

Lemma Signal_cond c' k c : queue k (QCond c) = [] -> queue (Signal c' k) (QCond c) = [].
Proof.
  intros Hq. unfold Signal. destruct (queue k (QCond c')) as [|t rest] eqn:E; [done|]. cbn.
  destruct (decide (QCond c' = QCond c)) as [Ec|]; [congruence|]. by rewrite fn_lookup_insert_ne.
Qed.

Lemma Broadcast_cond c' k c : queue k (QCond c) = [] -> queue (Broadcast c' k) (QCond c) = [].
Proof.
  intros Hq. unfold Broadcast. generalize (length (queue k (QCond c'))). intros n.
  induction n as [|n IH]; [done|]. by apply Signal_cond.
Qed.

(** Only [Wait] puts a thread in the queue of a condition. *)
Lemma effect_cond k c :
  (forall c' l rest, prog k (current k) <> CWait c' l :: rest) ->
  queue k (QCond c) = [] -> queue (effect k) (QCond c) = [].
Proof.
  intros Hw Hq. unfold effect. destruct (prog k (current k)) as [|[x off|x|l off|l|c' l|c'|c'| |b] rest];
    try done.
  - destruct (value k x =? 0); [|done]. cbn. by rewrite fn_lookup_insert_ne.
  - by rewrite V_cond.
  - by rewrite Release_cond.
  - by destruct (Hw c' l rest).
  - by apply Signal_cond.
  - by apply Broadcast_cond.
Qed.

Section NoConditions.
Context {G A : Type} `{ClientOk G A}.

Lemma step_no_cond (s s' : Sys G A) c :
  sys_ok s -> (forall t c' l r, code s t <> IC (CWait c' l) :: r) ->
  queue (kern s) (QCond c) = [] -> sys_step s s' -> queue (kern s') (QCond c) = [].
Proof.
  intros Hok Hw Hq St.
  assert (Hsw : forall k k', switched k k' -> queue k (QCond c) = [] -> queue k' (QCond c) = [])
    by (intros k k' [[] _]; congruence).
  destruct St as [s s' Hi Hp Hl|s k' Hi Hl E|s k' Hi E|s n g' Hi D|s k' Hi E]; cbn [kern set_kern].
  - unfold local in Hl. destruct (todo s (current (kern s))) as [|[p|a] r]; [done|..].
    + by injection Hl as <-.
    + destruct (act a (current (kern s)) (glob s)); [|done]. by injection Hl as <-.
  - destruct (exec_good _ (so_good _ Hok) Hi) as (k1 & E1 & _ & Sw). rewrite E in E1.
    injection E1 as <-. apply (Hsw _ _ Sw), effect_cond; [|done]. intros c' l rest Hp.
    apply (Hw (current (kern s)) c' l (calls [CP (SLock l) false; CHold l false] ++ calls rest ++
      flat (todo s (current (kern s))))). unfold code. by rewrite Hp, calls_cons.
  - apply andb_true_iff in Hi as [Hi _]. apply negb_true_iff in Hi.
    destruct (Yield_good _ (so_good _ Hok) Hi) as (k1 & E1 & _ & Sw). rewrite E in E1.
    injection E1 as <-. by apply (Hsw _ _ Sw).
  - by rewrite V_cond.
  - destruct (dispatch_good _ (so_good _ Hok) Hi) as (k1 & E1 & _ & Sw). rewrite E in E1.
    injection E1 as <-. by apply (Hsw _ _ Sw).
Qed.

Lemma reach_no_cond script v (g : G) (s : Sys G A) c :
  (forall n, 0 <= v n) -> (forall t, Forall stmt_ok (script t)) ->
  (forall s', rtc sys_step (sys_init script v g) s' -> forall t c' l r, code s' t <> IC (CWait c' l) :: r) ->
  rtc sys_step (sys_init script v g) s -> queue (kern s) (QCond c) = [].
Proof.
  intros Hv Hs Hw. revert s.
  apply (rtc_ind_r (fun s => queue (kern s) (QCond c) = []) (sys_init script v g)); [done|].
  intros s1 s2 R St IH. apply (step_no_cond s1); [by eapply reach_ok|by apply Hw|done|done].
Qed.

(** ... whose threads, with nothing left to run, have finished or wait for a
    semaphore of value 0. *)
Lemma reach_stuck script v (g : G) (s : Sys G A) :
  (forall n, 0 <= v n) -> (forall t, Forall stmt_ok (script t)) ->
  (forall s', rtc sys_step (sys_init script v g) s' -> forall t c' l r, code s' t <> IC (CWait c' l) :: r) ->
  rtc sys_step (sys_init script v g) s -> idle (kern s) = true -> readyList (kern s) = [] ->
  forall t, (t < created (kern s))%nat ->
  code s t = [] \/ exists x r, code s t = IC (CP x false) :: r /\ value (kern s) x = 0.
Proof.
  intros Hv Hs Hw R Hi Hr t Ht. pose proof (reach_ok script v g Hv Hs s R) as Hok.
  destruct (quiet_stuck s t Hok Hi Hr Ht) as [|[[c Hq]|]]; [by left| |by right].
  rewrite (reach_no_cond script v g s c Hv Hs Hw R) in Hq. by apply not_elem_of_nil in Hq.
Qed.

(** If moreover nobody holds a lock, nobody waits for it. *)
Lemma stuck_lock_free (s : Sys G A) l : sys_ok s -> heldthread (kern s) l = None ->
  (forall t, (t < created (kern s))%nat -> code s t = [] \/ exists x r, code s t = IC (CP x false) :: r) ->
  value (kern s) (SLock l) = 1.
Proof.
  intros Hok Hh Hc. pose proof (lk_unit _ (so_lock _ Hok) l) as L. unfold held in L. rewrite Hh in L.
  rewrite cnt_none in L; [lia|]. intros t Ht. unfold acquiring.
  destruct (prog (kern s) t) as [|c rest] eqn:Hp; [done|]. destruct c as [| |l' off| | | | | |]; try done.
  exfalso. destruct (Hc t Ht) as [E|(x & r & E)]; unfold code in E; by rewrite Hp, calls_cons in E.
Qed.
End NoConditions.

(** ** Sums over the threads *)

Fixpoint zsum (f : nat -> Z) (n : nat) : Z :=
  match n with O => 0 | S n' => zsum f n' + f n' end.

Lemma zsum_ext f g n : (forall t, (t < n)%nat -> f t = g t) -> zsum f n = zsum g n.
Proof. induction n as [|n IH]; intros Hf; [done|]. cbn. rewrite IH, Hf by auto. done. Qed.

Lemma zsum_change f g n t :
  (t < n)%nat -> (forall u, u <> t -> f u = g u) -> zsum g n = zsum f n - f t + g t.
Proof.
  induction n as [|n IH]; intros Ht Hf; [lia|]. cbn. destruct (decide (t = n)) as [->|Hne].
  - rewrite (zsum_ext g f); [lia|]. intros u Hu. symmetry. apply Hf. lia.
  - rewrite IH, (Hf n) by (done || lia). lia.
Qed.

Lemma zsum_le f g n : (forall t, (t < n)%nat -> f t <= g t) -> zsum f n <= zsum g n.
Proof.
  induction n as [|n IH]; intros Hf; [done|]. cbn.
  pose proof (Hf n ltac:(lia)). specialize (IH ltac:(auto)). lia.
Qed.

Lemma zsum_add f g n : zsum (fun t => f t + g t) n = zsum f n + zsum g n.
Proof. induction n as [|n IH]; cbn; lia. Qed.

Lemma zsum_opp f n : zsum (fun t => - f t) n = - zsum f n.
Proof. induction n as [|n IH]; cbn; lia. Qed.

Lemma zsum_zero n : zsum (fun _ => 0) n = 0.
Proof. induction n as [|n IH]; cbn; lia. Qed.

Lemma zsum_nonneg f n : (forall t, (t < n)%nat -> 0 <= f t) -> 0 <= zsum f n.
Proof. intros Hf. rewrite <- (zsum_zero n). by apply zsum_le. Qed.

(** Only thread [t] counts. *)
Lemma zsum_single f n t :
  (t < n)%nat -> (forall u, (u < n)%nat -> u <> t -> f u = 0) -> zsum f n = f t.
Proof.
  intros Ht Hf. set (g := fun u => if decide (u = t) then 0 else f u).
  rewrite (zsum_change g f n t Ht); [|intros u Hu; unfold g; by rewrite decide_False].
  rewrite (zsum_ext g (fun _ => 0)), zsum_zero; [unfold g; rewrite decide_True by done; lia|].
  intros u Hu. unfold g. destruct (decide (u = t)); auto.
Qed.

(** Thread [t] counts at least for itself, two threads for both. *)
Lemma zsum_ge f n t : (t < n)%nat -> (forall u, (u < n)%nat -> 0 <= f u) -> f t <= zsum f n.
Proof.
  intros Ht Hf. set (g := fun u => if decide (u = t) then 0 else f u).
  rewrite (zsum_change g f n t Ht); [|intros u Hu; unfold g; by rewrite decide_False].
  unfold g at 2. rewrite decide_True by done. enough (0 <= zsum g n) by lia.
  apply zsum_nonneg. intros u Hu. unfold g. destruct (decide (u = t)); [done|auto].
Qed.

Lemma zsum_ge2 f n t u :
  (t < n)%nat -> (u < n)%nat -> t <> u -> (forall x, (x < n)%nat -> 0 <= f x) ->
  f t + f u <= zsum f n.
Proof.
  intros Ht Hu Hne Hf. set (g := fun x => if decide (x = t) then 0 else f x).
  rewrite (zsum_change g f n t Ht); [|intros x Hx; unfold g; by rewrite decide_False].
  unfold g at 2. rewrite decide_True by done. enough (g u <= zsum g n) as Hg.
  { unfold g at 1 in Hg. rewrite decide_False in Hg by done. lia. }
  apply zsum_ge; [done|]. intros x Hx. unfold g. destruct (decide (x = t)); [done|auto].
Qed.

(** ** Conservation *)

(** A weight for every semaphore, for the shared data and for every piece of
    code, so that what a thread still has to do has a weight as well: [P] costs
    the weight of the semaphore, [V] pays it back. *)
Section Conservation.
Context {G A : Type} `{Client G A}.
Variables (w : nat -> Z) (sems : list nat) (gm : G -> Z) (wa : A -> Z).

Definition item_bal (i : item A) : Z :=
  match i with
  | IC (CP (SUser n) _) => - w n
  | IC (CV (SUser n)) => w n
  | IC _ => 0
  | IA a => wa a
  end.

Definition bal (p : list (item A)) : Z := foldr (fun i z => item_bal i + z) 0 p.

Lemma bal_app p q : bal (p ++ q) = bal p + bal q.
Proof. unfold bal. induction p as [|i p IH]; cbn; [done|]. rewrite IH. lia. Qed.

Definition semsum (v : sid -> Z) : Z := foldr (fun n z => w n * v (SUser n) + z) 0 sems.

(** The total weight, of threads [0] to [N - 1]. *)
Definition weight (N : nat) (a : Abs G A) : Z :=
  semsum (aval a) + gm (aglob a) + zsum (fun t => bal (acode a t)) N.

(** The threads from [N] on have nothing to do. *)
Definition beyond (N : nat) (a : Abs G A) : Prop :=
  forall t, (N <= t)%nat -> acode a t = [].

Hypothesis sems_nodup : NoDup sems.
Hypothesis sems_all : forall n, w n <> 0 -> n ∈ sems.

Lemma semsum_list l v v' n d :
  NoDup l -> (forall m, v' (SUser m) = v (SUser m) + (if decide (m = n) then d else 0)) ->
  foldr (fun m z => w m * v' (SUser m) + z) 0 l =
  foldr (fun m z => w m * v (SUser m) + z) 0 l + (if decide (n ∈ l) then w n * d else 0).
Proof.
  intros Hl E. induction Hl as [|m l Hm Hl IH]; cbn; [done|]. rewrite E, IH.
  destruct (decide (m = n)) as [->|Hne].
  - rewrite (decide_False (P := n ∈ l)), (decide_True (P := n ∈ n :: l)) by (done || left). lia.
  - destruct (decide (n ∈ l)) as [Hn|Hn].
    + rewrite decide_True by (by right). lia.
    + rewrite decide_False; [lia|]. intros [->|?]%elem_of_cons; done.
Qed.

Lemma semsum_change v v' n d :
  (forall m, v' (SUser m) = v (SUser m) + (if decide (m = n) then d else 0)) ->
  semsum v' = semsum v + w n * d.
Proof.
  intros E. unfold semsum. rewrite (semsum_list sems v v' n d sems_nodup E).
  destruct (decide (n ∈ sems)) as [|Hn]; [done|].
  destruct (decide (w n = 0)) as [->|Hw]; [done|]. by apply sems_all in Hw.
Qed.

Lemma semsum_same v v' : (forall m, v' (SUser m) = v (SUser m)) -> semsum v' = semsum v.
Proof.
  intros E. rewrite (semsum_change v v' 0 0); [lia|]. intros m. rewrite E. destruct (decide _); lia.
Qed.

(** A call changes the semaphores by its weight. *)
Lemma call_semsum t c (a : Abs G A) :
  semsum (call_val t c a) = semsum (aval a) + item_bal (IC c).
Proof.
  destruct c as [[n|l] off|[n|l]|l off|l|c l|c|c| |body]; cbn [item_bal];
    try (rewrite (semsum_same (aval a)); [lia|]; intros m; done).
  - rewrite (semsum_change (aval a) _ n (-1)); [lia|]. intros m. cbn.
    destruct (decide (SUser m = SUser n)), (decide (m = n)); try congruence; lia.
  - rewrite (semsum_change (aval a) _ n 1); [lia|]. intros m. cbn.
    destruct (decide (SUser m = SUser n)), (decide (m = n)); try congruence; lia.
Qed.

Lemma weight_equiv N (a b : Abs G A) : a ≡ b -> weight N a = weight N b.
Proof.
  intros (E1 & E2 & E3 & E4). unfold weight. rewrite (semsum_same (aval b)), E3 by done.
  f_equal. apply zsum_ext. intros t _. by rewrite E4.
Qed.

Lemma bal_upd N t p (a : Abs G A) : (t < N)%nat ->
  zsum (fun u => bal (code_upd t p a u)) N =
  zsum (fun u => bal (acode a u)) N - bal (acode a t) + bal p.
Proof.
  intros Ht. rewrite (zsum_change (fun u => bal (acode a u)) _ N t Ht).
  - unfold code_upd. by rewrite decide_True.
  - intros u Hu. unfold code_upd. by rewrite decide_False.
Qed.

(** The total weight never changes, if the code that is run and the device keep
    it. *)
Lemma weight_step N (a a' : Abs G A) : beyond N a ->
  (forall x t r g' p, acode a t = IA x :: r -> act x t (aglob a) = Ok (g', p) ->
     gm (aglob a) + wa x = gm g' + bal (flat p)) ->
  (forall n g', dev (aglob a) n g' -> gm (aglob a) = gm g' + w n) ->
  astep a a' -> beyond N a' /\ weight N a' = weight N a.
Proof.
  intros Hb act_bal dev_bal St.
  assert (Hin : forall t i r, acode a t = i :: r -> (t < N)%nat).
  { intros t i r Ht. destruct (Nat.lt_ge_cases t N) as [|Hge]; [done|].
    apply Hb in Hge. congruence. }
  assert (Hby : forall t p v h g c, (t < N)%nat -> c ≡ mkAbs v h g (code_upd t p a) -> beyond N c).
  { intros t p v h g c Ht (_ & _ & _ & E4) u Hu. rewrite E4. cbn. unfold code_upd.
    rewrite decide_False by lia. by apply Hb. }
  destruct St as [t c r H1 H2 E|t x r g' p H1 H2 E|n g' H1 E].
  - pose proof (Hin _ _ _ H1) as Ht. split; [by eapply Hby|]. rewrite (weight_equiv N _ _ E).
    unfold weight. cbn [aval aglob acode]. rewrite call_semsum, bal_upd by done.
    rewrite H1. cbn [bal foldr]. unfold bal. lia.
  - pose proof (Hin _ _ _ H1) as Ht. split; [by eapply Hby|]. rewrite (weight_equiv N _ _ E).
    unfold weight. cbn [aval aglob acode]. rewrite bal_upd, H1, bal_app by done.
    apply (act_bal _ _ _ _ _ H1) in H2. unfold bal in *. cbn [foldr item_bal]. lia.
  - split; [intros u Hu; destruct E as (_ & _ & _ & ->); by apply Hb|].
    rewrite (weight_equiv N _ _ E). unfold weight. cbn [aval aglob acode].
    rewrite call_semsum. cbn [item_bal]. apply dev_bal in H1. lia.
Qed.
End Conservation.

(** ** Brackets *)

(** A thread is the recorded holder of a lock exactly between [Acquire] and
    [Release], with the places in the code where it has to be, or must not be,
    given by [need]. *)
Section Brackets.
Context {G A : Type} `{Client G A}.
Variables (l : nat) (need : A -> option bool).

Fixpoint brk (b : bool) (p : list (item A)) : bool :=
  match p with
  | [] => negb b
  | IC c :: r =>
    if releases c l then b && brk false r
    else match c with
         | CHold l' _ => if Nat.eqb l l' then negb b && brk true r else brk b r
         | _ => brk b r
         end
  | IA x :: r => match need x with Some b' => eqb b b' | None => true end && brk b r
  end.

Definition bracketed (a : Abs G A) : Prop :=
  forall t, brk (bool_decide (aheld a l = Some t)) (acode a t) = true.

Hypothesis act_brk : forall x t g g' p b r,
  act x t g = Ok (g', p) -> brk b (IA x :: r) = true -> brk b (flat p ++ r) = true.

Lemma bracketed_equiv (a b : Abs G A) : a ≡ b -> bracketed a -> bracketed b.
Proof. intros (E1 & E2 & E3 & E4) Ha t. rewrite <- E2, <- E4. apply Ha. Qed.

Lemma bracketed_call (a : Abs G A) t c r :
  abs_facts a -> bracketed a -> acode a t = IC c :: r ->
  bracketed (mkAbs (call_val t c a) (call_held t c a) (aglob a) (code_upd t r a)).
Proof.
  intros F Ha Hc u. cbn [aheld acode]. pose proof (Ha t) as Ht. rewrite Hc in Ht. cbn [brk] in Ht.
  pose proof (Ha u) as Hu. unfold code_upd.
  destruct (releases c l) eqn:Hr.
  - assert (Hh : aheld a l = Some t)
      by (apply andb_true_iff in Ht as [Ht _]; by apply bool_decide_eq_true_1 in Ht).
    assert (call_held t c a l = None) as E.
    { unfold call_held. destruct c; try done; rewrite Hr, bool_decide_eq_true_2 by done; done. }
    rewrite E, bool_decide_eq_false_2 by done.
    destruct (decide (u = t)) as [->|Hne]; [by apply andb_true_iff in Ht as [_ Ht]|].
    rewrite bool_decide_eq_false_2 in Hu; [done|congruence].
  - unfold call_held. destruct c as [| |l' off| | | | | |]; cbn [releases] in Hr |- *; rewrite ?Hr; cbn [andb];
      try (destruct (decide (u = t)) as [->|Hne]; done).
    destruct (Nat.eqb_spec l l') as [<-|Hl].
    + pose proof (af_hold _ F t l off r Hc) as Hn. rewrite Hn in Hu.
      destruct (decide (u = t)) as [->|Hne].
      * rewrite bool_decide_eq_true_2 by done. by apply andb_true_iff in Ht as [_ Ht].
      * rewrite bool_decide_eq_false_2 by congruence. by rewrite bool_decide_eq_false_2 in Hu.
    + by destruct (decide (u = t)) as [->|].
Qed.

Lemma bracketed_step (a a' : Abs G A) :
  abs_facts a -> bracketed a -> astep a a' -> bracketed a'.
Proof.
  intros F Ha [t c r H1 H2 E|t x r g' p H1 H2 E|n g' H1 E];
    (eapply bracketed_equiv; [symmetry; exact E|]).
  - by apply bracketed_call.
  - intros u. cbn. unfold code_upd. destruct (decide (u = t)) as [->|]; [|apply Ha].
    eapply act_brk; [done|]. rewrite <- H1. apply Ha.
  - exact Ha.
Qed.

(** Where the lock is needed only its holder can be. *)
Lemma need_holder (a : Abs G A) t x r b :
  bracketed a -> acode a t = IA x :: r -> need x = Some b ->
  bool_decide (aheld a l = Some t) = b.
Proof.
  intros Ha Hc Hn. specialize (Ha t). rewrite Hc in Ha. cbn in Ha. rewrite Hn in Ha.
  by apply andb_true_iff in Ha as [Ha%eqb_prop _].
Qed.
End Brackets.

(** ** Runs *)

(** A run with the choices of the scheduler and of the device given: the
    running thread goes on (or the idle loop does), its time slice ends, the
    device interrupts. *)
Inductive choice := Go | Slice | Irq.

Section Runs.
Context {G A : Type} `{Client G A}.
Variable irq : G -> option (nat * G).

Definition sys_next (c : choice) (s : Sys G A) : option (Sys G A) :=
  let k := kern s in
  let next := fun o => match o with Ok k' => Some (set_kern k' s) | Fault _ => None end in
  match c with
  | Go =>
    if idle k then next (dispatch k)
    else
      match prog k (current k), local (current k) s with
      | [], Some (Ok s') => Some s'
      | [], Some (Fault _) => None
      | _, _ => next (exec k)
      end
  | Slice => if interruptible k then next (Yield k) else None
  | Irq =>
    if interruptible k || idle k then
      match irq (glob s) with
      | Some (n, g') => Some (mkSys (V (SUser n) k) g' (todo s))
      | None => None
      end
    else None
  end.

Fixpoint sys_run (cs : list choice) (s : Sys G A) : option (Sys G A) :=
  match cs with
  | [] => Some s
  | c :: cs' => match sys_next c s with Some s' => sys_run cs' s' | None => None end
  end.

Hypothesis irq_dev : forall g n g', irq g = Some (n, g') -> dev g n g'.

Lemma sys_next_step c s s' : sys_next c s = Some s' -> sys_step s s'.
Proof.
  destruct c; cbn.
  - destruct (idle (kern s)) eqn:Hi.
    + destruct (dispatch (kern s)) eqn:E; [|done]. intros [= <-]. by apply sys_dispatch.
    + destruct (prog (kern s) (current (kern s))) as [|c rest] eqn:Hp;
        destruct (local (current (kern s)) s) as [[s1|]|] eqn:Hl; try done.
      1: intros [= <-]; by apply sys_local.
      all: destruct (exec (kern s)) eqn:E; [|done]; intros [= <-]; apply sys_exec; try done;
        by rewrite Hp.
  - destruct (interruptible (kern s)) eqn:Hi; [|done].
    destruct (Yield (kern s)) eqn:E; [|done]. intros [= <-]. by apply sys_slice.
  - destruct (interruptible (kern s) || idle (kern s)) eqn:Hi; [|done].
    destruct (irq (glob s)) as [[n g']|] eqn:E; [|done]. intros [= <-].
    by apply sys_interrupt; [|apply irq_dev].
Qed.

Lemma sys_run_steps cs s s' : sys_run cs s = Some s' -> rtc sys_step s s'.
Proof.
  revert s. induction cs as [|c cs IH]; intros s; cbn; [by intros [= <-]; apply rtc_refl|].
  destruct (sys_next c s) as [s1|] eqn:E; [|done]. intros Hr.
  eapply rtc_l; [by eapply sys_next_step|by apply IH].
Qed.

(** Go on as long as possible. *)
Fixpoint sys_go (n : nat) (s : Sys G A) : Sys G A :=
  match n with
  | O => s
  | S n' => match sys_next Go s with Some s' => sys_go n' s' | None => s end
  end.

Lemma sys_go_steps n s : rtc sys_step s (sys_go n s).
Proof.
  revert s. induction n as [|n IH]; intros s; [apply rtc_refl|]. cbn [sys_go].
  destruct (sys_next Go s) as [s1|] eqn:E; [|apply rtc_refl].
  eapply rtc_l; [by eapply sys_next_step|apply IH].
Qed.
End Runs.

(** ** Clients whose threads are in known places *)

(** The rest of a piece of code after its first item. *)
Lemma drop_next {A} i (l : list A) x r : drop i l = x :: r -> drop (S i) l = r.
Proof. intros E. rewrite <- Nat.add_1_r, <- drop_drop, E. done. Qed.

(** Consider the places [drop i l] of a list one after the other. *)
Ltac places :=
  repeat match goal with
  | |- context [drop ?i (_ :: _)] => is_var i; destruct i; cbn [drop]; try done
  end;
  rewrite ?drop_nil; try done.

(** The semaphores of a weight. *)
Record keeps (w : nat -> Z) (sems : list nat) : Prop := {
  kp_nodup : NoDup sems;
  kp_all : forall n, w n <> 0 -> n ∈ sems }.

Lemma keeps_one w m : (forall n, w n = 0 \/ n = m) -> keeps w [m].
Proof.
  intros H. split; [apply NoDup_singleton|]. intros n Hn. destruct (H n) as [?| ->]; [done|left].
Qed.

Section Programs.
Context {G A : Type} `{ClientOk G A}.
Variables (shape : list (item A) -> Prop) (N : nat) (sc : nat -> list (stmt A)) (v : nat -> Z) (g0 : G).
Hypothesis v_nonneg : forall n, 0 <= v n.
Hypothesis shape_call : forall c r, shape (IC c :: r) -> shape r.
Hypothesis shape_act : forall a t r g g' p,
  shape (IA a :: r) -> act a t g = Ok (g', p) -> shape (flat p ++ r).
Hypothesis shape_init : forall t, shape (flat (sc t)).
Hypothesis sc_ok : forall t, Forall stmt_ok (sc t).
Hypothesis sc_end : forall t, (N <= t)%nat -> sc t = [].

Let start : Sys G A := sys_init sc v g0.

Lemma start_code t : acode (view start) t = flat (sc t).
Proof. cbn. unfold code. cbn. by destruct (Nat.eqb t 0). Qed.

Lemma shape_astep (a a' : Abs G A) :
  (forall t, shape (acode a t)) -> astep a a' -> forall t, shape (acode a' t).
Proof.
  intros Hs [t c r H1 H2 E|t x r g' p H1 H2 E|n g' H1 E] u; destruct E as (_ & _ & _ & ->); cbn;
    unfold code_upd; try destruct (decide (u = t)); try apply Hs.
  - apply (shape_call c). rewrite <- H1. apply Hs.
  - eapply shape_act; [|exact H2]. rewrite <- H1. apply Hs.
Qed.

Lemma reach_shape s : rtc sys_step start s -> sys_ok s /\ forall t, shape (code s t).
Proof.
  intros R. split; [exact (reach_ok sc v g0 v_nonneg sc_ok s R)|].
  apply (reach_invariant sc v g0 v_nonneg sc_ok (fun a => forall t, shape (acode a t))); [| | |exact R].
  - intros a b (_ & _ & _ & E) Hs t. by rewrite <- E.
  - intros a a' _ Hs. by apply shape_astep.
  - intros t. rewrite start_code. apply shape_init.
Qed.

(** The weight of a reachable state is that of the first one. *)
Lemma reach_weight w sems gm wa s :
  keeps w sems ->
  (forall a t r g g' p, shape (IA a :: r) -> act a t g = Ok (g', p) ->
     gm g + wa a = gm g' + bal w wa (flat p)) ->
  (forall g n g', dev g n g' -> gm g = gm g' + w n) ->
  (forall t, bal w wa (flat (sc t)) = 0) ->
  rtc sys_step start s ->
  semsum w sems (value (kern s)) + gm (glob s) + zsum (fun t => bal w wa (code s t)) N =
  foldr (fun n z => w n * v n + z) 0 sems + gm g0 /\
  forall t, (N <= t)%nat -> code s t = [].
Proof.
  intros [K1 K2] Hw Hd Hz R. set (T := foldr _ 0 sems + gm g0).
  enough (weight w sems gm wa N (view s) = T /\ beyond N (view s) /\
    forall t, shape (acode (view s) t)) as (HT & HB & _) by done.
  apply (reach_invariant sc v g0 v_nonneg sc_ok
    (fun a => weight w sems gm wa N a = T /\ beyond N a /\ forall t, shape (acode a t))); [| | |exact R].
  - intros a b E (I1 & I2 & I3). pose proof E as (_ & _ & _ & E4). splits.
    + rewrite <- I1. symmetry. by apply weight_equiv.
    + intros t Ht. rewrite <- E4. by apply I2.
    + intros t. rewrite <- E4. apply I3.
  - intros a a' _ (I1 & I2 & I3) St.
    destruct (weight_step w sems gm wa K1 K2 N a a' I2) as [J1 J2]; [| |exact St|].
    + intros x t r g' p Hc Ha. eapply Hw; [|exact Ha]. rewrite <- Hc. apply I3.
    + intros n g'. apply Hd.
    + splits; [congruence|done|by eapply shape_astep].
  - splits.
    + unfold weight, T. rewrite (zsum_ext _ (fun _ => 0)), zsum_zero; [by rewrite Z.add_0_r|].
      intros t _. by rewrite start_code.
    + intros t Ht. rewrite start_code, sc_end by done. done.
    + intros t. rewrite start_code. apply shape_init.
Qed.

(** Without conditions: with nothing left to run, a thread has finished, or it
    has not been created, or it waits for a semaphore of value 0. *)
Lemma shape_stuck s : (forall c l r, ~ shape (IC (CWait c l) :: r)) ->
  rtc sys_step start s -> idle (kern s) = true -> readyList (kern s) = [] ->
  forall t,
  ((t < created (kern s))%nat /\
     (code s t = [] \/ exists x r, code s t = IC (CP x false) :: r /\ value (kern s) x = 0)) \/
  ((created (kern s) <= t)%nat /\ code s t = flat (sc t)).
Proof.
  intros Hw R Hi Hr t. destruct (Nat.lt_ge_cases t (created (kern s))) as [Ht|Ht]; [left|right].
  - split; [done|]. eapply reach_stuck; [exact v_nonneg|exact sc_ok| |exact R|done..].
    intros s' R' u c l r Hc. destruct (reach_shape s' R') as [_ Sh]. specialize (Sh u).
    rewrite Hc in Sh. by apply Hw in Sh.
  - split; [done|]. by eapply reach_unborn.
Qed.
End Programs.
