(* ===== verification/Driver.v ===== *)
(** * Synchronous access to a device

    SynchDisk and SynchConsole wrap an asynchronous device the same way: take
    the lock, start the request, wait on a semaphore for the interrupt that
    ends it, release the lock; input is waited for under the same lock.  The
    class [Driver] states what such a device promises, and the theorems on the
    wrapper are proved from that, over the thread system: threads interleave
    at every kernel call, the device interrupts when it is busy. *)
From S2P Require Import Prelude CInt Threads Client.
From S2P Require Disk SynchDisk Devices.
From Stdlib Require Import ZArith Lia List Bool.
From stdpp Require Import base tactics list numbers functions relations gmap.
Local Open Scope Z_scope.

(** ** Devices *)

(** [request x t g]: thread [t] starts request [x]; with the flag set the
    request is over at once and its completion handler is called by the thread
    itself.  [complete]: the interrupt that ends a request.  [take]: what is
    done with input that has arrived; [arrive]: the interrupt that brings it;
    [full]: input is there. *)
Class Driver (G R Q : Type) := {
  dlock : nat;
  dsem : nat;
  insem : nat;
  busy : G -> bool;
  full : G -> bool;
  request : R -> nat -> G -> outcome (G * bool);
  complete : G -> G;
  take : Q -> nat -> G -> G;
  arrive : G -> option G;
  okg : G -> Prop;
  okr : R -> Prop }.

Class DriverOk (G R Q : Type) `{Driver G R Q} : Prop := {
  sems_differ : dsem <> insem;
  request_ok : forall x t g, okg g -> okr x -> busy g = false ->
    exists g' b, request x t g = Ok (g', b) /\ okg g' /\ busy g' = negb b /\ full g' = full g;
  complete_busy : forall g, busy (complete g) = false;
  complete_full : forall g, full (complete g) = full g;
  complete_ok : forall g, okg g -> okg (complete g);
  take_busy : forall y t g, busy (take y t g) = busy g;
  take_full : forall y t g, full (take y t g) = false;
  take_ok : forall y t g, okg g -> full g = true -> okg (take y t g);
  arrive_busy : forall g g', arrive g = Some g' -> busy g' = busy g;
  arrive_full : forall g g', okg g -> arrive g = Some g' -> full g = false /\ full g' = true;
  arrive_ok : forall g g', arrive g = Some g' -> okg g -> okg g' }.

(** ** The wrapper *)

Inductive dop (R Q : Type) := Io (x : R) | Inp (y : Q).
Arguments Io {R Q}.
Arguments Inp {R Q}.

Inductive dact (R Q : Type) := Op (o : dop R Q) | Req (x : R) | Take (y : Q).
Arguments Op {R Q}.
Arguments Req {R Q}.
Arguments Take {R Q}.

Section Wrapper.
Context {G R Q : Type} `{Driver G R Q}.

Definition body (o : dop R Q) : list (stmt (dact R Q)) :=
  match o with
  | Io x => [Call (Acquire dlock); Act (Req x); Call [CP (SUser dsem) false]; Call [CRelease dlock]]
  | Inp y => [Call (Acquire dlock); Call [CP (SUser insem) false]; Act (Take y); Call [CRelease dlock]]
  end.

#[global] Instance driver_client : Client G (dact R Q) := {|
  act := fun a t g =>
    match a with
    | Op o => Ok (g, body o)
    | Req x => r ← request x t g; Ok (r.1, if (r.2 : bool) then [Call [CV (SUser dsem)]] else [])
    | Take y => Ok (take y t g, [])
    end;
  dev := fun g n g' =>
    (busy g = true /\ n = dsem /\ g' = complete g) \/ (n = insem /\ arrive g = Some g') |}.

#[global] Instance driver_client_ok : ClientOk G (dact R Q).
Proof.
  intros a t g g' p. destruct a as [o|x|y]; cbn.
  - intros [= _ <-]. assert (calls_ok (Acquire dlock) = true) by (cbn; by rewrite Nat.eqb_refl).
    destruct o; by repeat constructor.
  - destruct (request x t g) as [[g1 []]|]; [| |done]; intros [= _ <-]; by repeat constructor.
  - intros [= _ <-]. constructor.
Qed.

(** The main thread forks [n] threads; thread [t] performs [ops t]. *)
Definition driver_script (n : nat) (ops : nat -> list (dop R Q)) (t : nat) : list (stmt (dact R Q)) :=
  if Nat.eqb t 0 then replicate n (Call [CFork []])
  else if Nat.leb t n then (fun o => Act (Op o)) <$> ops t else [].

(** ** Where a thread can be *)

Lemma flat_Io x : flat (body (Io x)) =
  [IC (CP (SLock dlock) false); IC (CHold dlock false); IA (Req x); IC (CP (SUser dsem) false);
   IC (CRelease dlock)].
Proof. done. Qed.

Lemma flat_Inp y : flat (body (Inp y)) =
  [IC (CP (SLock dlock) false); IC (CHold dlock false); IC (CP (SUser insem) false); IA (Take y);
   IC (CRelease dlock)].
Proof. done. Qed.

Definition opok (o : dop R Q) : Prop := match o with Io x => okr x | Inp _ => True end.

Definition oplist (os : list (dop R Q)) : list (item (dact R Q)) := (fun o => IA (Op o)) <$> os.

Inductive shape : list (item (dact R Q)) -> Prop :=
| sh_main n : shape (replicate n (IC (CFork [])))
| sh_body i o os : opok o -> Forall opok os -> shape (drop i (flat (body o)) ++ oplist os)
| sh_ops os : Forall opok os -> shape (oplist os)
| sh_hit x os : okr x -> Forall opok os ->
    shape (IC (CV (SUser dsem)) :: drop 3 (flat (body (Io x))) ++ oplist os).

Lemma shape_call c r : shape (IC c :: r) -> shape r.
Proof.
  inversion 1 as [n E|i o os Ho Hos E|os Hos E|x os Hx Hos E].
  - destruct n as [|n]; [done|]. injection E as _ <-. constructor.
  - destruct (drop i (flat (body o))) as [|c' r'] eqn:Ed; [by destruct os|].
    injection E as -> <-.
    replace r' with (drop (S i) (flat (body o))); [by constructor|].
    rewrite <- Nat.add_1_r, <- drop_drop, Ed. done.
  - by destruct os.
  - subst. exact (sh_body 3 (Io x) os Hx Hos).
Qed.

Lemma shape_act a r : shape (IA a :: r) ->
  (exists o os, a = Op o /\ r = oplist os /\ opok o /\ Forall opok os) \/
  (exists x os, a = Req x /\ r = drop 3 (flat (body (Io x))) ++ oplist os /\ okr x /\ Forall opok os) \/
  (exists y os, a = Take y /\ r = IC (CRelease dlock) :: oplist os /\ Forall opok os).
Proof.
  assert (Hops : forall os, Forall opok os -> oplist os = IA a :: r ->
    exists o os', a = Op o /\ r = oplist os' /\ opok o /\ Forall opok os').
  { intros [|o os] Hos E; [done|]. injection E as <- <-. apply Forall_cons_1 in Hos as [? ?].
    by exists o, os. }
  inversion 1 as [n E|i o os Ho Hos E|os Hos E|x os Hx Hos E].
  - by destruct n.
  - destruct o as [x|y]; rewrite ?flat_Io, ?flat_Inp in E; destruct i as [|[|[|[|[|i]]]]]; cbn in E; try done;
      try (rewrite drop_nil in E; left; by eapply Hops).
    + injection E as <- <-. right; left. by exists x, os.
    + injection E as <- <-. right; right. by exists y, os.
  - left. by eapply Hops.
Qed.

Lemma shape_step (a a' : Abs G (dact R Q)) :
  (forall t, shape (acode a t)) -> astep a a' -> forall t, shape (acode a' t).
Proof.
  intros Hs [t c r H1 H2 E|t x r g' p H1 H2 E|n g' H1 E] u; destruct E as (_ & _ & _ & ->); [| |apply Hs].
  - unfold code_upd. cbn. destruct (decide (u = t)); [|apply Hs].
    apply (shape_call c). rewrite <- H1. apply Hs.
  - unfold code_upd. cbn. destruct (decide (u = t)); [|apply Hs].
    pose proof (Hs t) as Ht. rewrite H1 in Ht.
    destruct (shape_act _ _ Ht) as [(o & os & -> & -> & Ho & Hos)|[(z & os & -> & -> & Hz & Hos)|(y & os & -> & -> & Hos)]];
      cbn in H2.
    + injection H2 as <- <-. exact (sh_body 0 o os Ho Hos).
    + destruct (request z t (aglob a)) as [[g1 []]|]; [..|done]; injection H2 as <- <-.
      * by constructor.
      * exact (sh_body 3 (Io z) os Hz Hos).
    + injection H2 as <- <-. exact (sh_body 4 (Inp y) os I Hos).
Qed.

(** ** Requests under way *)

Definition w_dsem (n : nat) : Z := if Nat.eqb n dsem then 1 else 0.
Definition w_act (a : dact R Q) : Z := match a with Req _ => 1 | _ => 0 end.

(** 1 from the start of a request until its [P], 0 elsewhere. *)
Definition inflight (p : list (item (dact R Q))) : Z := - bal w_dsem w_act p.

Definition needs (a : dact R Q) : option bool :=
  match a with Op _ => Some false | Req _ | Take _ => Some true end.

Definition driver_weight := weight w_dsem [dsem] (fun g => Z.b2z (busy g)) w_act.

(** 1 from the [P] on the input semaphore until the input is taken. *)
Definition w_insem (n : nat) : Z := if Nat.eqb n insem then 1 else 0.
Definition w_take (a : dact R Q) : Z := match a with Take _ => 1 | _ => 0 end.
Definition input_weight := weight w_insem [insem] (fun g => - Z.b2z (full g)) w_take.

Context `{!DriverOk G R Q}.

Lemma dsem_all n : w_dsem n <> 0 -> n ∈ [dsem].
Proof. unfold w_dsem. destruct (Nat.eqb_spec n dsem) as [->|]; [intros; left|done]. Qed.

Lemma bal_oplist os : bal w_dsem w_act (oplist os) = 0.
Proof. induction os as [|o os IH]; [done|]. change (0 + bal w_dsem w_act (oplist os) = 0). by rewrite IH. Qed.

Lemma insem_all n : w_insem n <> 0 -> n ∈ [insem].
Proof. unfold w_insem. destruct (Nat.eqb_spec n insem) as [->|]; [intros; left|done]. Qed.

Lemma in_oplist os : bal w_insem w_take (oplist os) = 0.
Proof. induction os as [|o os IH]; [done|]. change (0 + bal w_insem w_take (oplist os) = 0). by rewrite IH. Qed.

Lemma weights : w_dsem dsem = 1 /\ w_dsem insem = 0 /\ w_insem insem = 1 /\ w_insem dsem = 0.
Proof.
  unfold w_dsem, w_insem. rewrite !Nat.eqb_refl. pose proof sems_differ.
  destruct (Nat.eqb_spec insem dsem), (Nat.eqb_spec dsem insem); by try congruence.
Qed.

Lemma shape_taking p : shape p -> 0 <= bal w_insem w_take p.
Proof.
  destruct weights as (_ & _ & Hi & Hd). intros [n|i o os Ho Hos|os Hos|x os Hx Hos].
  - induction n as [|n IH]; [done|]. cbn. unfold bal in IH. lia.
  - rewrite bal_app, in_oplist. destruct o as [x|y]; rewrite ?flat_Io, ?flat_Inp;
      destruct i as [|[|[|[|[|i]]]]]; cbn; rewrite ?drop_nil, ?Hd, ?Hi; cbn; lia.
  - by rewrite in_oplist.
  - rewrite flat_Io. cbn. rewrite Hd. pose proof (in_oplist os) as Hb. unfold bal in Hb. lia.
Qed.

Lemma shape_inflight p : shape p ->
  inflight p = 0 \/
  (inflight p = 1 /\ exists os, p = IC (CP (SUser dsem) false) :: IC (CRelease dlock) :: oplist os).
Proof.
  destruct weights as (Hd & Hi & _). unfold inflight. intros [n|i o os Ho Hos|os Hos|x os Hx Hos].
  - left. induction n as [|n IH]; [done|]. cbn. unfold bal in IH. lia.
  - rewrite bal_app, bal_oplist. destruct o as [x|y]; rewrite ?flat_Io, ?flat_Inp;
      destruct i as [|[|[|[|[|i]]]]]; cbn; rewrite ?drop_nil, ?Hd, ?Hi; cbn; eauto.
  - left. by rewrite bal_oplist.
  - left. rewrite flat_Io. cbn. rewrite Hd. pose proof (bal_oplist os) as Hb. unfold bal in Hb. lia.
Qed.

(** ** The invariant *)

Record dr_ok (N : nat) (a : Abs G (dact R Q)) : Prop := {
  do_shape : forall t, shape (acode a t);
  do_brk : bracketed dlock needs a;
  do_beyond : beyond N a;
  do_weight : driver_weight N a = 0;
  do_input : input_weight N a = 0;
  do_glob : okg (aglob a) }.

Lemma dr_ok_equiv N a b : a ≡ b -> dr_ok N a -> dr_ok N b.
Proof.
  intros E [H1 H2 H3 H4 H6 H5]. pose proof E as (E1 & E2 & E3 & E4). constructor.
  - intros t. by rewrite <- E4.
  - by eapply bracketed_equiv.
  - intros t Ht. rewrite <- E4. by apply H3.
  - rewrite <- H4. unfold driver_weight. symmetry. apply weight_equiv; [apply NoDup_singleton|apply dsem_all|done].
  - rewrite <- H6. unfold input_weight. symmetry. apply weight_equiv; [apply NoDup_singleton|apply insem_all|done].
  - by rewrite <- E3.
Qed.

Lemma dr_act_brk x t g g' p b r :
  act x t g = Ok (g', p) -> brk dlock needs b (IA x :: r) = true ->
  brk dlock needs b (flat p ++ r) = true.
Proof.
  cbn. destruct x as [o|x|y]; cbn.
  - intros [= _ <-] [->%eqb_prop Hb]%andb_true_iff.
    destruct o; rewrite ?flat_Io, ?flat_Inp; cbn; rewrite Nat.eqb_refl; done.
  - intros Hr [_ Hb]%andb_true_iff.
    destruct (request x t g) as [[g1 []]|]; [..|done]; by injection Hr as <- <-.
  - by intros [= _ <-] [_ Hb]%andb_true_iff.
Qed.

(** Requests that have not been waited for are in the device or in the
    semaphore. *)
Lemma weight_inflight N a : dr_ok N a ->
  aval a (SUser dsem) + Z.b2z (busy (aglob a)) = zsum (fun t => inflight (acode a t)) N.
Proof.
  intros [_ _ _ Hw _ _]. unfold driver_weight, weight in Hw. cbn [semsum foldr] in Hw.
  unfold inflight. rewrite zsum_opp. unfold semsum in Hw. cbn in Hw.
  assert (w_dsem dsem = 1) as Hd by (unfold w_dsem; by rewrite Nat.eqb_refl). rewrite Hd in Hw. lia.
Qed.

Lemma inflight_holder N a t : dr_ok N a -> inflight (acode a t) <> 0 ->
  inflight (acode a t) = 1 /\ aheld a dlock = Some t /\
  exists os, acode a t = IC (CP (SUser dsem) false) :: IC (CRelease dlock) :: oplist os.
Proof.
  intros [Hs Hb _ _ _ _] Hn. destruct (shape_inflight _ (Hs t)) as [|[H1 [os Ho]]]; [done|].
  split; [done|]. split; [|by exists os]. specialize (Hb t). rewrite Ho in Hb. cbn in Hb.
  rewrite Nat.eqb_refl in Hb. apply andb_true_iff in Hb as [Hb _]. by apply bool_decide_eq_true_1 in Hb.
Qed.

(** At most one request is under way. *)
Lemma one_request N a : abs_facts a -> dr_ok N a ->
  aval a (SUser dsem) + Z.b2z (busy (aglob a)) <= 1.
Proof.
  intros F Ha. rewrite (weight_inflight N a Ha).
  assert (Hz : forall t, aheld a dlock <> Some t -> inflight (acode a t) = 0).
  { intros t Ht. destruct (decide (inflight (acode a t) = 0)) as [|Hn]; [done|].
    by destruct (inflight_holder N a t Ha Hn) as (_ & ? & _). }
  destruct (aheld a dlock) as [h|] eqn:Eh.
  - destruct (Nat.lt_ge_cases h N) as [Hh|Hh].
    + rewrite (zsum_single _ N h Hh); [|intros u _ Hu; apply Hz; congruence].
      destruct (shape_inflight _ (do_shape _ _ Ha h)) as [->|[-> _]]; lia.
    + rewrite (zsum_ext _ (fun _ => 0)), zsum_zero; [lia|]. intros u Hu. apply Hz.
      intros [= ->]. lia.
  - rewrite (zsum_ext _ (fun _ => 0)), zsum_zero; [lia|]. intros u Hu. by apply Hz.
Qed.

(** A thread that starts a request holds the lock and finds the device idle. *)
Lemma request_idle N a t x r : abs_facts a -> dr_ok N a -> acode a t = IA (Req x) :: r ->
  aheld a dlock = Some t /\ busy (aglob a) = false /\ aval a (SUser dsem) = 0 /\ okr x.
Proof.
  intros F Ha Hc.
  assert (Hh : aheld a dlock = Some t).
  { eapply bool_decide_eq_true_1, (need_holder dlock needs); [apply Ha|exact Hc|done]. }
  assert (Hs : zsum (fun t => inflight (acode a t)) N = 0).
  { rewrite (zsum_ext _ (fun _ => 0)); [apply zsum_zero|]. intros u _.
    destruct (decide (inflight (acode a u) = 0)) as [|Hn]; [done|].
    destruct (inflight_holder N a u Ha Hn) as (_ & Hu & os & Ho).
    assert (u = t) as -> by congruence. congruence. }
  rewrite <- (weight_inflight N a Ha) in Hs. pose proof (af_val _ F (SUser dsem)).
  split; [done|]. pose proof (do_shape _ _ Ha t) as Sh. rewrite Hc in Sh.
  destruct (busy (aglob a)); cbn in Hs; [lia|]. splits; [done|lia|].
  by destruct (shape_act _ _ Sh) as [(o & os & ? & _)|[(z' & os & [= ->] & _ & Hz & _)|(y & os & ? & _)]].
Qed.

(** A thread that takes input finds some. *)
Lemma take_finds N a t y r : abs_facts a -> dr_ok N a -> acode a t = IA (Take y) :: r ->
  aheld a dlock = Some t /\ full (aglob a) = true.
Proof.
  intros F Ha Hc. split.
  { eapply bool_decide_eq_true_1, (need_holder dlock needs); [apply Ha|exact Hc|done]. }
  pose proof (do_input _ _ Ha) as Hw. unfold input_weight, weight, semsum in Hw. cbn in Hw.
  destruct weights as (_ & _ & Hi & _). rewrite Hi in Hw.
  pose proof (af_val _ F (SUser insem)) as Hv0.
  assert (Ht : (t < N)%nat).
  { destruct (Nat.lt_ge_cases t N) as [|Hge]; [done|]. apply (do_beyond _ _ Ha) in Hge. congruence. }
  pose proof (zsum_ge (fun u => bal w_insem w_take (acode a u)) N t Ht
    (fun u _ => shape_taking _ (do_shape _ _ Ha u))) as Hge.
  assert (Hr : bal w_insem w_take (acode a t) = 1).
  { pose proof (do_shape _ _ Ha t) as Sh. rewrite Hc in *.
    destruct (shape_act _ _ Sh) as [(o & os & ? & _)|[(z & os & ? & _)|(y' & os & _ & -> & _)]]; try done.
    pose proof (in_oplist os) as Hb. unfold bal in *. cbn. lia. }
  cbn beta in Hge. destruct (full (aglob a)); cbn in Hw; [done|lia].
Qed.

Lemma dr_act_bal x t g g' p :
  okg g -> (forall z, x = Req z -> okr z /\ busy g = false) -> act x t g = Ok (g', p) ->
  Z.b2z (busy g) + w_act x = Z.b2z (busy g') + bal w_dsem w_act (flat p).
Proof.
  destruct weights as (Hd & Hi' & _). intros Hg Hq. destruct x as [o|x|y]; cbn.
  - intros [= <- <-]. destruct o; rewrite ?flat_Io, ?flat_Inp; cbn; rewrite ?Hd, ?Hi'; lia.
  - destruct (request x t g) as [[g1 b]|] eqn:E; [|done].
    destruct (Hq x eq_refl) as [Hk Hi]. destruct (request_ok x t g Hg Hk Hi) as (g2 & b2 & E2 & _ & Hb & _).
    rewrite E in E2. injection E2 as <- <-. intros [= <- <-]. rewrite Hi, Hb.
    destruct b; [change (0 + 1 = 0 + (w_dsem dsem + 0)); by rewrite Hd|done].
  - intros [= <- <-]. rewrite take_busy. done.
Qed.

Lemma dr_dev_bal g n g' : dev g n g' -> Z.b2z (busy g) = Z.b2z (busy g') + w_dsem n.
Proof.
  intros [(Hb & -> & ->)|(-> & Ha)].
  - rewrite Hb, complete_busy. unfold w_dsem. by rewrite Nat.eqb_refl.
  - rewrite (arrive_busy _ _ Ha). destruct weights as (_ & -> & _). lia.
Qed.

Lemma in_act_bal x t g g' p :
  okg g -> (forall z, x = Req z -> okr z /\ busy g = false) -> (forall y, x = Take y -> full g = true) ->
  act x t g = Ok (g', p) ->
  - Z.b2z (full g) + w_take x = - Z.b2z (full g') + bal w_insem w_take (flat p).
Proof.
  destruct weights as (_ & _ & Hi' & Hd). intros Hg Hq Hf. destruct x as [o|x|y]; cbn.
  - intros [= <- <-]. destruct o; rewrite ?flat_Io, ?flat_Inp; cbn; rewrite ?Hd, ?Hi'; lia.
  - destruct (request x t g) as [[g1 b]|] eqn:E; [|done].
    destruct (Hq x eq_refl) as [Hk Hi]. destruct (request_ok x t g Hg Hk Hi) as (g2 & b2 & E2 & _ & _ & Hb).
    rewrite E in E2. injection E2 as <- <-. intros [= <- <-]. rewrite Hb.
    destruct b; [change (- Z.b2z (full g) + 0 = - Z.b2z (full g) + (w_insem dsem + 0)); rewrite Hd|]; done.
  - intros [= <- <-]. rewrite take_full, (Hf y eq_refl). done.
Qed.

Lemma in_dev_bal g n g' : okg g -> dev g n g' -> - Z.b2z (full g) = - Z.b2z (full g') + w_insem n.
Proof.
  destruct weights as (_ & _ & Hi & Hd). intros Hg [(Hb & -> & ->)|(-> & Ha)].
  - rewrite complete_full, Hd. lia.
  - destruct (arrive_full _ _ Hg Ha) as [-> ->]. by rewrite Hi.
Qed.

Lemma dr_act_okg x t g g' p : okg g -> act x t g = Ok (g', p) ->
  (forall z, x = Req z -> okr z /\ busy g = false) -> (forall y, x = Take y -> full g = true) -> okg g'.
Proof.
  intros Hg. destruct x as [o|x|y]; cbn.
  - by intros [= <- _].
  - intros Hr Hx _. destruct (request x t g) as [[g1 b]|] eqn:E; [|done]. injection Hr as <- _.
    destruct (Hx x eq_refl) as [Hk Hb].
    destruct (request_ok x t g Hg Hk Hb) as (g2 & b2 & E2 & Hk' & _). congruence.
  - intros [= <- _] _ Hf. apply take_ok; [done|by eapply Hf].
Qed.

Lemma dr_step N a a' : abs_facts a -> dr_ok N a -> astep a a' -> dr_ok N a'.
Proof.
  intros F Ha St. pose proof Ha as [H1 H2 H3 H4 H6 H5].
  assert (Hq : forall x t r, acode a t = IA x :: r ->
    (forall z, x = Req z -> okr z /\ busy (aglob a) = false) /\ (forall y, x = Take y -> full (aglob a) = true)).
  { intros x t r Hc. split; intros z ->.
    - by destruct (request_idle N a t z r F Ha Hc) as (_ & ? & _ & ?).
    - by destruct (take_finds N a t z r F Ha Hc). }
  destruct (weight_step w_dsem [dsem] (fun g => Z.b2z (busy g)) w_act) with (N := N) (a := a) (a' := a')
    as [Hb Hw]; try done.
  { apply NoDup_singleton. } { apply dsem_all. }
  { intros x t r g' p Hc. apply dr_act_bal; [done|]. by eapply Hq. }
  { intros m g'. apply dr_dev_bal. }
  destruct (weight_step w_insem [insem] (fun g => - Z.b2z (full g)) w_take) with (N := N) (a := a) (a' := a')
    as [_ Hw']; try done.
  { apply NoDup_singleton. } { apply insem_all. }
  { intros x t r g' p Hc. destruct (Hq _ _ _ Hc). by apply in_act_bal. }
  { intros m g'. by apply in_dev_bal. }
  constructor; try done.
  - by apply (shape_step a).
  - apply (bracketed_step dlock needs) with (a := a); try done. apply dr_act_brk.
  - unfold driver_weight in *. by rewrite Hw.
  - unfold input_weight in *. by rewrite Hw'.
  - destruct St as [t c r C1 C2 E|t x r g' p C1 C2 E|n g' [(_ & _ & ->)|(_ & C1)] E];
      destruct E as (_ & _ & -> & _); cbn; [done| |by apply complete_ok|by eapply arrive_ok].
    destruct (Hq _ _ _ C1). by eapply dr_act_okg; [exact H5|exact C2|..].
Qed.

(** ** What the wrapper guarantees *)

Section Reachable.
Variables (n : nat) (ops : nat -> list (dop R Q)) (v : nat -> Z) (g0 : G).
Hypothesis Hv : forall m, 0 <= v m.
Hypothesis Hv0 : v dsem = 0.
Hypothesis Hi0 : v insem = 0.
Hypothesis Hops : forall t, Forall opok (ops t).
Hypothesis Hg0 : okg g0.
Hypothesis Hb0 : busy g0 = false.
Hypothesis Hf0 : full g0 = false.

Let init : Sys G (dact R Q) := sys_init (driver_script n ops) v g0.

Lemma script_ok t : Forall stmt_ok (driver_script n ops t).
Proof.
  unfold driver_script. destruct (Nat.eqb t 0).
  - by apply Forall_replicate.
  - destruct (Nat.leb t n); [|constructor]. induction (ops t); by constructor.
Qed.

Lemma flat_script t : flat (driver_script n ops t) =
  if Nat.eqb t 0 then replicate n (IC (CFork [])) else if Nat.leb t n then oplist (ops t) else [].
Proof.
  unfold driver_script. destruct (Nat.eqb t 0); [|destruct (Nat.leb t n); [|done]].
  - induction n as [|m IH]; [done|]. cbn. rewrite flat_cons, IH. done.
  - induction (ops t) as [|o os IH]; [done|]. cbn. rewrite flat_cons, IH. done.
Qed.

Lemma init_code t : acode (view init) t = flat (driver_script n ops t).
Proof. cbn. unfold code. cbn. by destruct (Nat.eqb t 0). Qed.

Lemma init_shape t : shape (acode (view init) t).
Proof.
  rewrite init_code, flat_script. destruct (Nat.eqb t 0); [constructor|].
  destruct (Nat.leb t n); [by constructor|exact (sh_ops [] (Forall_nil_2 _))].
Qed.

Lemma brk_ops os : brk dlock needs false (oplist os) = true.
Proof. by induction os. Qed.

Lemma init_dr_ok : dr_ok (S n) (view init).
Proof.
  constructor.
  - apply init_shape.
  - intros t. cbn [aheld view init sys_init kern boot heldthread]. rewrite init_code, flat_script.
    rewrite bool_decide_eq_false_2 by done. destruct (Nat.eqb t 0).
    + clear. by induction n.
    + destruct (Nat.leb t n); [apply brk_ops|done].
  - intros t Ht. rewrite init_code, flat_script.
    destruct (Nat.eqb_spec t 0), (Nat.leb_spec t n); try lia. done.
  - unfold driver_weight, weight. cbn [aval aglob view init sys_init kern boot value glob semsum foldr].
    rewrite Hv0, Hb0. rewrite (zsum_ext _ (fun _ => 0)), zsum_zero; [cbn; lia|].
    intros t _. rewrite init_code, flat_script. destruct (Nat.eqb t 0).
    + clear. induction n as [|m IH]; [done|]. cbn. unfold bal in IH. lia.
    + destruct (Nat.leb t n); [apply bal_oplist|done].
  - unfold input_weight, weight. cbn [aval aglob view init sys_init kern boot value glob semsum foldr].
    rewrite Hi0, Hf0. rewrite (zsum_ext _ (fun _ => 0)), zsum_zero; [cbn; lia|].
    intros t _. rewrite init_code, flat_script. destruct (Nat.eqb t 0).
    + clear. induction n as [|m IH]; [done|]. cbn. unfold bal in IH. lia.
    + destruct (Nat.leb t n); [apply in_oplist|done].
  - done.
Qed.

Lemma reach_dr_ok s : rtc sys_step init s -> sys_ok s /\ dr_ok (S n) (view s).
Proof.
  intros Hr. split; [by eapply reach_ok; [..|exact Hr]; [done|apply script_ok]|].
  apply (reach_invariant (driver_script n ops) v g0 Hv script_ok); try done.
  - apply dr_ok_equiv.
  - apply dr_step.
  - apply init_dr_ok.
Qed.
End Reachable.

Lemma shape_P x off r : shape (IC (CP x off) :: r) ->
  x = SLock dlock \/ x = SUser dsem \/
  (x = SUser insem /\ exists y os, r = IA (Take y) :: IC (CRelease dlock) :: oplist os).
Proof.
  inversion 1 as [m E|i o os Ho Hos E|os Hos E|z os Hz Hos E].
  - by destruct m.
  - destruct o as [z|y]; rewrite ?flat_Io, ?flat_Inp in E; destruct i as [|[|[|[|[|i]]]]]; cbn in E; try done;
      try (rewrite drop_nil in E; by destruct os); injection E as <- _ <-; eauto 6.
  - by destruct os.
Qed.

(** The holder of the lock, if it waits, waits for its request or for input. *)
Lemma holder_waits N a h x r : dr_ok N a -> aheld a dlock = Some h ->
  acode a h = IC (CP x false) :: r -> x <> SLock dlock.
Proof.
  intros Ha Hh Hc ->. pose proof (do_brk _ _ Ha h) as Hb. rewrite Hh, Hc in Hb.
  rewrite bool_decide_eq_true_2 in Hb by done. pose proof (do_shape _ _ Ha h) as Sh. rewrite Hc in Sh.
  revert Hb. inversion Sh as [m E|i o os Ho Hos E|os Hos E|z os Hz Hos E].
  - by destruct m.
  - destruct o as [z|y]; rewrite ?flat_Io, ?flat_Inp in E; rewrite ?flat_Io, ?flat_Inp; destruct i as [|[|[|[|[|i]]]]]; cbn in E; try done;
      try (rewrite drop_nil in E; by destruct os); injection E as <-; cbn; by rewrite Nat.eqb_refl.
  - by destruct os.
Qed.

Lemma shape_no_wait c l r : ~ shape (IC (CWait c l) :: r).
Proof.
  inversion 1 as [m E|i o os Ho Hos E|os Hos E|z os Hz Hos E].
  - by destruct m.
  - destruct o as [z|y]; rewrite ?flat_Io, ?flat_Inp in E; destruct i as [|[|[|[|[|i]]]]]; cbn in E; try done;
      rewrite drop_nil in E; by destruct os.
  - by destruct os.
Qed.

Lemma shape_P_dsem off r : shape (IC (CP (SUser dsem) off) :: r) ->
  inflight (IC (CP (SUser dsem) off) :: r) = 1.
Proof.
  destruct weights as (Hd & _).
  inversion 1 as [m E|i o os Ho Hos E|os Hos E|z os Hz Hos E].
  - by destruct m.
  - destruct o as [z|y]; rewrite ?flat_Io, ?flat_Inp in E; destruct i as [|[|[|[|[|i]]]]]; cbn in E; try done;
      try (rewrite drop_nil in E; by destruct os); rewrite ?flat_Io, ?flat_Inp.
    + unfold inflight. rewrite bal_app, bal_oplist. cbn. by rewrite Hd.
    + injection E as E _. by destruct sems_differ.
  - by destruct os.
Qed.

Section Guarantees.
Variables (n : nat) (ops : nat -> list (dop R Q)) (v : nat -> Z) (g0 : G).
Hypothesis Hv : forall m, 0 <= v m.
Hypothesis Hv0 : v dsem = 0.
Hypothesis Hi0 : v insem = 0.
Hypothesis Hops : forall t, Forall opok (ops t).
Hypothesis Hg0 : okg g0.
Hypothesis Hb0 : busy g0 = false.
Hypothesis Hf0 : full g0 = false.
Variable s : Sys G (dact R Q).
Hypothesis Hs : rtc sys_step (sys_init (driver_script n ops) v g0) s.

Lemma driver_safe :
  value (kern s) (SUser dsem) + Z.b2z (busy (glob s)) <= 1 /\
  (forall t x r, code s t = IA (Req x) :: r ->
     heldthread (kern s) dlock = Some t /\ busy (glob s) = false /\
     exists g' b, request x t (glob s) = Ok (g', b)) /\
  (forall t y r, code s t = IA (Take y) :: r ->
     heldthread (kern s) dlock = Some t /\ full (glob s) = true) /\
  (idle (kern s) = false -> exists s', sys_step s s').
Proof.
  destruct (reach_dr_ok n ops v g0 Hv Hv0 Hi0 Hops Hg0 Hb0 Hf0 s Hs) as [Hok Ha].
  pose proof (view_facts s Hok) as F.
  assert (Hr : forall t x r, code s t = IA (Req x) :: r ->
    heldthread (kern s) dlock = Some t /\ busy (glob s) = false /\
    exists g' b, request x t (glob s) = Ok (g', b)).
  { intros t x r Hc. destruct (request_idle _ _ t x r F Ha Hc) as (H1 & H2 & _ & H3).
    destruct (request_ok x t (glob s)) as (g' & b & E & _); [apply Ha|done|done|]. eauto. }
  splits; [by apply (one_request (S n) (view s))|done| |].
  { intros t y r Hc. by apply (take_finds (S n) (view s) t y r). }
  intros Hi.
  destruct (sys_progress s Hok Hi) as [|(a & r & e & Hc & Hf)]; [done|exfalso].
  destruct a as [o|x|y]; [done| |done].
  destruct (Hr _ _ _ Hc) as (_ & _ & g' & b & E). cbn in Hf. by rewrite E in Hf.
Qed.

Lemma holder_created h : heldthread (kern s) dlock = Some h -> (h < created (kern s))%nat.
Proof.
  intros Hh. destruct (reach_dr_ok n ops v g0 Hv Hv0 Hi0 Hops Hg0 Hb0 Hf0 s Hs) as [Hok Ha].
  destruct (Nat.lt_ge_cases h (created (kern s))) as [|Hge]; [done|exfalso].
  destruct (reach_unborn _ _ _ _ Hv (script_ok n ops) Hs) as [Hc Hu].
  pose proof (do_brk _ _ Ha h) as Hb. cbn in Hb. rewrite Hu, (flat_script n ops) in Hb by done.
  rewrite bool_decide_eq_true_2 in Hb by done.
  destruct (Nat.eqb_spec h 0); [lia|]. destruct (Nat.leb h n); [|done]. by destruct (ops h).
Qed.

(** The interrupt of a request has come before its [P], or is still to come. *)
Lemma waiter_signalled t r : busy (glob s) = false ->
  code s t = IC (CP (SUser dsem) false) :: r -> value (kern s) (SUser dsem) <> 0.
Proof.
  intros Hb Hc V0. destruct (reach_dr_ok n ops v g0 Hv Hv0 Hi0 Hops Hg0 Hb0 Hf0 s Hs) as [Hok Ha].
  pose proof (do_shape _ _ Ha t) as Sh. cbn in Sh. rewrite Hc in Sh.
  apply shape_P_dsem in Sh. rewrite <- Hc in Sh.
  assert (Hz : aval (view s) (SUser dsem) + Z.b2z (busy (aglob (view s))) = 0)
    by (cbn; by rewrite V0, Hb).
  rewrite (weight_inflight (S n) (view s) Ha) in Hz.
  assert (Ht : (t < S n)%nat).
  { destruct (Nat.lt_ge_cases t (S n)) as [|Hge]; [done|].
    pose proof (do_beyond _ _ Ha t Hge) as E. cbn in E. congruence. }
  pose proof (zsum_ge (fun u => inflight (acode (view s) u)) (S n) t Ht) as Hge. cbn beta in Hge.
  cbn [acode view] in Hge, Hz. rewrite Sh, Hz in Hge. enough (1 <= 0) by lia. apply Hge.
  intros u _. destruct (shape_inflight _ (do_shape _ _ Ha u)) as [E|[E _]]; cbn in E; rewrite E; lia.
Qed.

Lemma driver_quiet :
  idle (kern s) = true -> readyList (kern s) = [] -> busy (glob s) = false ->
  (forall t, (t < created (kern s))%nat -> code s t = []) \/
  (exists h y r, heldthread (kern s) dlock = Some h /\
     code s h = IC (CP (SUser insem) false) :: IA (Take y) :: r /\ value (kern s) (SUser insem) = 0).
Proof.
  intros Hi Hr Hb. destruct (reach_dr_ok n ops v g0 Hv Hv0 Hi0 Hops Hg0 Hb0 Hf0 s Hs) as [Hok Ha].
  assert (Hst : forall t, (t < created (kern s))%nat ->
    code s t = [] \/ exists x r, code s t = IC (CP x false) :: r /\ value (kern s) x = 0).
  { eapply reach_stuck; [exact Hv|apply script_ok| |exact Hs|done|done].
    intros s' R' t c l r Hc. destruct (reach_dr_ok n ops v g0 Hv Hv0 Hi0 Hops Hg0 Hb0 Hf0 s' R') as [_ [Sh _ _ _ _ _]].
    specialize (Sh t). cbn in Sh. rewrite Hc in Sh. by apply shape_no_wait in Sh. }
  assert (Hd : forall t r, code s t = IC (CP (SUser dsem) false) :: r -> value (kern s) (SUser dsem) <> 0)
    by (intros t r Hc; by eapply waiter_signalled).
  destruct (heldthread (kern s) dlock) as [h|] eqn:Hh.
  - right. pose proof (do_brk _ _ Ha h) as Bk. cbn in Bk.
    rewrite bool_decide_eq_true_2 in Bk by done.
    destruct (Hst h (holder_created h Hh)) as [E|(x & r & E & V0)]; [by rewrite E in Bk|].
    pose proof (holder_waits _ _ h x r Ha Hh E) as Hx.
    pose proof (do_shape _ _ Ha h) as Sh. cbn in Sh. rewrite E in Sh.
    destruct (shape_P _ _ _ Sh) as [->|[->|(-> & y & os & ->)]]; [done|by apply Hd in E|].
    exists h, y, (IC (CRelease dlock) :: oplist os). done.
  - left. intros t Ht. destruct (Hst t Ht) as [|(x & r & E & V0)]; [done|exfalso].
    pose proof (do_shape _ _ Ha t) as Sh. cbn in Sh. rewrite E in Sh.
    destruct (shape_P _ _ _ Sh) as [->|[->|(-> & y & os & ->)]].
    + rewrite (stuck_lock_free s dlock Hok Hh) in V0; [done|]. intros u Hu.
      destruct (Hst u Hu) as [|(? & ? & ? & _)]; eauto.
    + by apply Hd in E.
    + pose proof (do_brk _ _ Ha t) as Bk. cbn in Bk. rewrite E, Hh in Bk.
      by rewrite bool_decide_eq_false_2 in Bk by done.
Qed.
End Guarantees.
End Wrapper.
