(* ===== verification/SynchDevices.v ===== *)
(** * filesys/synchdisk.cc and SynchConsole of machine/console.cc, with threads

    [SynchDisk::ReadSector] and [WriteSector], and [SynchConsole::PutChar] and
    [GetChar], called by any number of threads over the thread system: both
    are drivers in the sense of Driver.v.  The disk and its cache are those of
    Disk.v and SynchDisk.v, the console that of Devices.v; the lock and the
    semaphores are those of Threads.v. *)
From S2P Require Import Prelude CInt Threads Client Driver.
From S2P Require Import Disk SynchDisk.
From S2P Require Devices.
From Stdlib Require Import ZArith Lia List Bool.
From stdpp Require Import base tactics list numbers functions relations gmap.
Local Open Scope Z_scope.

(** ** The disk *)

Module SharedDisk.

Inductive disk_req := ReadReq (sectorNumber : Z) | WriteReq (sectorNumber : Z) (data : list Z).

(** [served]: the requests in the order in which they were started, with the
    thread and the bytes read or written. *)
Record DiskState := mkDiskState { sd : SynchDisk; served : list (nat * disk_req * list Z) }.

Section Disk.
Context `{E : Env}.

(** [ReadSector] between [Acquire] and [P]; the flag says that [RequestDone]
    is called at once, in [disk->HandleInterrupt()]. *)
Definition read_request (sectorNumber : Z) : M SynchDisk (list Z * bool) :=
  s ← get;
  let find := find_cache (cache s) 0 sectorNumber in
  if find =? -1 then
    n ← reading;
    x ← on_disk (ReadRequest (totalTicks n) sectorNumber);
    c ← lift (arr_set (cache s) (FiFoPointer s) (mkCache 1 sectorNumber x.1));
    _ ← modify (set_cache c);
    _ ← modify (set_FiFoPointer (Z.rem (FiFoPointer s + 1) 4));
    mret (x.1, false)
  else
    e ← lift (arr_get (cache s) find);
    _ ← on_disk (modify HandleInterrupt);
    mret (cdata e, true).

(** The same part of [WriteSector]. *)
Definition write_request (sectorNumber : Z) (data : list Z) : M SynchDisk (list Z * bool) :=
  n ← reading;
  _ ← on_disk (WriteRequest (totalTicks n) sectorNumber data);
  mret (data, false).

Definition disk_request (x : disk_req) (t : nat) (g : DiskState) : outcome (DiskState * bool) :=
  r ← (match x with
       | ReadReq n => read_request n (sd g)
       | WriteReq n d => write_request n d (sd g)
       end);
  Ok (mkDiskState r.2 (served g ++ [(t, x, r.1.1)]), r.1.2).

(** The two models of [ReadSector] and [WriteSector] run the same code. *)
Lemma ReadSector_request n s :
  ReadSector n s =
  (_ ← lock_Acquire;
   x ← read_request n;
   _ ← (if (x.2 : bool) then RequestDone else mret tt);
   _ ← semaphore_P;
   _ ← lock_Release;
   mret x.1) s.
Proof.
  unfold ReadSector, read_request, disk_interrupt, mbind, M_bind.
  destruct (lock_Acquire s) as [[[] s1]|]; [|done]. cbn.
  destruct (find_cache (cache s1) 0 n =? -1).
  - cbn. destruct (on_disk _ _) as [[x s2]|]; [|done].
    destruct (arr_set (cache s1) (FiFoPointer s1) _); done.
  - destruct (arr_get (cache s1) _); done.
Qed.

Lemma WriteSector_request n data s :
  WriteSector n data s =
  (_ ← lock_Acquire;
   x ← write_request n data;
   _ ← semaphore_P;
   lock_Release) s.
Proof.
  unfold WriteSector, write_request, mbind, M_bind.
  destruct (lock_Acquire s) as [[[] s1]|]; [|done]. cbn. by destruct (on_disk _ _) as [[x s2]|].
Qed.

(** ** What was read and written *)

Section Log.
Variable c0 : Z -> list Z.

(** The contents after the writes of a log. *)
Definition latest (h : list (nat * disk_req * list Z)) : Z -> list Z :=
  foldl (fun c e => match e.1.2 with WriteReq n d => upd c n d | ReadReq _ => c end) c0 h.

(** What sector [n] has held so far. *)
Definition past (h : list (nat * disk_req * list Z)) (n : Z) (d : list Z) : Prop :=
  d = c0 n \/ exists t, (t, WriteReq n d, d) ∈ h.

Inductive log_ok : list (nat * disk_req * list Z) -> Prop :=
| log_nil : log_ok []
| log_write h t n d : log_ok h -> log_ok (h ++ [(t, WriteReq n d, d)])
| log_read h t n d : log_ok h -> past h n d -> log_ok (h ++ [(t, ReadReq n, d)]).

Record state_ok (g : DiskState) : Prop := {
  st_wf : disk_wf (disk (sd g));
  st_cache : length (cache (sd g)) = 4%nat;
  st_fifo : 0 <= FiFoPointer (sd g) < 4;
  st_log : log_ok (served g);
  st_content : forall n, content (sd g) n = latest (served g) n;
  st_past : Forall (fun e => valid e = 1 -> past (served g) (csector e) (cdata e)) (cache (sd g)) }.

Lemma past_more h e n d : past h n d -> past (h ++ [e]) n d.
Proof. intros [?|[t Ht]]; [by left|right]. exists t. apply elem_of_app. by left. Qed.

Lemma latest_snoc h e :
  latest (h ++ [e]) = match e.1.2 with WriteReq n d => upd (latest h) n d | ReadReq _ => latest h end.
Proof. unfold latest. by rewrite foldl_app. Qed.

Lemma latest_past h n : log_ok h -> past h n (latest h n).
Proof.
  induction 1 as [|h t m d Hh IH|h t m d Hh IH Hp]; [by left|..]; rewrite latest_snoc; cbn.
  - unfold upd. destruct (decide (n = m)) as [->|]; [|by apply past_more].
    right. exists t. apply elem_of_app. right. by left.
  - by apply past_more.
Qed.

Lemma past_cache_more e h c :
  Forall (fun x => valid x = 1 -> past h (csector x) (cdata x)) c ->
  Forall (fun x => valid x = 1 -> past (h ++ [e]) (csector x) (cdata x)) c.
Proof. intros Hc. eapply Forall_impl; [exact Hc|]. intros x Hx V. by apply past_more, Hx. Qed.

(** ** The disk is a device *)

Definition req_ok (x : disk_req) : Prop :=
  match x with
  | ReadReq n => 0 <= n < NumSectors
  | WriteReq n d => 0 <= n < NumSectors /\ length d = 128%nat
  end.

Context `{!EnvOk E}.

Lemma read_request_spec n t g :
  state_ok g -> active (disk (sd g)) = false -> 0 <= n < NumSectors ->
  exists g' b, disk_request (ReadReq n) t g = Ok (g', b) /\ state_ok g' /\
    active (disk (sd g')) = negb b.
Proof.
  intros [W C Fp L K Pa] Ha Hn. unfold disk_request, read_request. cbn [mbind outcome_bind M_bind get].
  unfold mbind, outcome_bind, M_bind, get. cbn [sd].
  destruct (Z.eqb_spec (find_cache (cache (sd g)) 0 n) (-1)) as [Hf|Hf].
  - destruct (ReadRequest_spec (totalTicks (clk (sd g))) n (disk (sd g)))
      as (d & Er & Wd & Ad & Sd); [apply ticks_nonneg|done..|].
    unfold reading, on_disk. cbn [disk set_clk clk]. rewrite Er. cbn.
    rewrite arr_set_in by (rewrite C; lia). cbn. eexists _, _. split; [reflexivity|]. split; [|done].
    assert (Hpn : past (served g) n (sector (disk (sd g)) n))
      by (change (past (served g) n (content (sd g) n)); rewrite K; by apply latest_past).
    constructor; cbn; try done.
    + by rewrite length_insert.
    + rewrite Z.rem_mod_nonneg by lia. apply Z.mod_pos_bound. lia.
    + by constructor.
    + intros m. rewrite latest_snoc. cbn. rewrite <- K. apply Sd.
    + apply Forall_insert; [by apply past_cache_more|]. intros _. cbn. by apply past_more.
  - destruct (find_cache_hit _ _ _ Hf ltac:(lia)) as (k & e & -> & Hk & Hv & Hs).
    rewrite Z.add_0_l, (arr_get_nat _ _ _ Hk). cbn. eexists _, _. split; [reflexivity|]. split; [|done].
    assert (Hpe : past (served g) n (cdata e))
      by (rewrite <- Hs; rewrite Forall_lookup in Pa; by eapply Pa).
    constructor; cbn; try done.
    + by apply disk_wf_HandleInterrupt.
    + by constructor.
    + intros m. rewrite latest_snoc. cbn. rewrite <- K. apply sector_HandleInterrupt.
    + by apply past_cache_more.
Qed.

Lemma write_request_spec n data t g :
  state_ok g -> active (disk (sd g)) = false -> 0 <= n < NumSectors -> length data = 128%nat ->
  exists g' b, disk_request (WriteReq n data) t g = Ok (g', b) /\ state_ok g' /\
    active (disk (sd g')) = negb b.
Proof.
  intros [W C Fp L K Pa] Ha Hn Hd. unfold disk_request, write_request, mbind, outcome_bind, M_bind.
  destruct (WriteRequest_spec (totalTicks (clk (sd g))) n data (disk (sd g)))
    as (d & Er & Wd & Ad & Sd); [apply ticks_nonneg|done..|].
  unfold reading, on_disk. cbn [disk set_clk clk]. rewrite Er. cbn.
  eexists _, _. split; [reflexivity|]. split; [|done]. constructor; cbn; try done.
  - by constructor.
  - intros m. rewrite latest_snoc. cbn. unfold upd. unfold content in *. cbn. rewrite Sd, <- K. done.
  - by apply past_cache_more.
Qed.

#[local] Instance disk_driver : Driver DiskState disk_req Empty_set := {|
  dlock := 2;
  dsem := 4;
  insem := 5;
  busy := fun g => active (disk (sd g));
  full := fun _ => false;
  Driver.request := disk_request;
  complete := fun g => mkDiskState (set_disk (HandleInterrupt (disk (sd g))) (sd g)) (served g);
  Driver.take := fun _ _ g => g;
  arrive := fun _ => None;
  okg := state_ok;
  okr := req_ok |}.

#[local] Instance disk_driver_ok : DriverOk DiskState disk_req Empty_set.
Proof.
  constructor; cbn; try done.
  - intros [n|n d] t g Hg Hx Hb; [|destruct Hx];
      [destruct (read_request_spec n t g) as (g' & b & ?)
      |destruct (write_request_spec n d t g) as (g' & b & ?)]; naive_solver.
  - intros g [W C Fp L K Pa]. constructor; cbn; try done. by apply disk_wf_HandleInterrupt.
Qed.
End Log.

(** The disk as it is created: idle, nothing cached. *)
Record fresh (g : DiskState) : Prop := {
  fr_wf : disk_wf (disk (sd g));
  fr_idle : active (disk (sd g)) = false;
  fr_cache : length (cache (sd g)) = 4%nat;
  fr_empty : Forall (fun e => valid e <> 1) (cache (sd g));
  fr_fifo : 0 <= FiFoPointer (sd g) < 4;
  fr_served : served g = [] }.

(** The main thread forks [n] threads, thread [t] makes the calls [ops t]. *)
Definition disk_script (n : nat) (ops : nat -> list disk_req) : nat -> list (stmt (dact disk_req Empty_set)) :=
  driver_script n (fun t => Io <$> ops t).

Definition disk_client (g : DiskState) : Client DiskState (dact disk_req Empty_set) :=
  @driver_client _ _ _ (disk_driver (content (sd g))).

Definition disk_init (n : nat) (ops : nat -> list disk_req) (g : DiskState) :
    Sys DiskState (dact disk_req Empty_set) :=
  sys_init (disk_script n ops) (fun _ => 0) g.

Context `{!EnvOk E}.

Lemma fresh_ok g : fresh g -> state_ok (content (sd g)) g.
Proof.
  intros [F1 F2 F3 F4 F5 F6]. constructor; try done; rewrite ?F6; try done; [constructor|].
  eapply Forall_impl; [exact F4|]. intros e He V. done.
Qed.

(** C6: The synchronous disk works for any number of threads.  Whatever the
    threads, their valid requests, time slices and disk interrupts, in every
    reachable state: at most one request is under way; a thread that starts
    one holds the lock, finds the disk idle and succeeds, so that no assertion
    of the disk can fail and the running thread can always go on; the disk
    holds what the writes made it in the order in which they were started, and
    every read returned something its sector had held; and when nothing is left
    to run and no interrupt is outstanding, every thread has finished. *)
Theorem synchdisk_threads n ops g s :
  fresh g -> (forall t, Forall req_ok (ops t)) ->
  rtc (@sys_step _ _ (disk_client g)) (disk_init n ops g) s ->
  value (kern s) (SUser 4) + Z.b2z (active (disk (sd (glob s)))) <= 1 /\
  (forall t x r, code s t = IA (Req x) :: r ->
     heldthread (kern s) 2 = Some t /\ active (disk (sd (glob s))) = false /\
     exists g' b, disk_request x t (glob s) = Ok (g', b)) /\
  (idle (kern s) = false -> exists s', @sys_step _ _ (disk_client g) s s') /\
  log_ok (content (sd g)) (served (glob s)) /\
  (forall m, content (sd (glob s)) m = latest (content (sd g)) (served (glob s)) m) /\
  (idle (kern s) = true -> readyList (kern s) = [] -> active (disk (sd (glob s))) = false ->
     forall t, (t < created (kern s))%nat -> code s t = []).
Proof.
  intros Fr Hops Hr. set (c0 := content (sd g)).
  pose (D := disk_driver c0). pose (DO := disk_driver_ok c0).
  assert (Ho : forall t, Forall opok (Io <$> ops t))
    by (intros t; apply Forall_fmap; eapply Forall_impl; [apply Hops|done]).
  pose proof (driver_safe n (fun t => Io <$> ops t) (fun _ => 0) g (fun _ => Z.le_refl 0) eq_refl eq_refl Ho
    (fresh_ok g Fr) (fr_idle g Fr) eq_refl s Hr) as (S1 & S2 & _ & S3).
  destruct (reach_dr_ok n (fun t => Io <$> ops t) (fun _ => 0) g (fun _ => Z.le_refl 0) eq_refl eq_refl Ho
    (fresh_ok g Fr) (fr_idle g Fr) eq_refl s Hr) as [_ [_ _ _ _ _ Hg]].
  splits; [done|exact S2|exact S3|apply Hg|apply Hg|].
  intros Hi Hrl Ha t Ht.
  destruct (driver_quiet n (fun t => Io <$> ops t) (fun _ => 0) g (fun _ => Z.le_refl 0) eq_refl eq_refl Ho
    (fresh_ok g Fr) (fr_idle g Fr) eq_refl s Hr Hi Hrl Ha) as [Hq|(h & [] & _)]. by apply Hq.
Qed.
End Disk.

(** ** An instance *)

Definition demo_ops (t : nat) : list disk_req :=
  match t with
  | 1%nat => [WriteReq 3 (replicate 128 1); ReadReq 3]
  | 2%nat => [ReadReq 3; ReadReq 3]
  | _ => []
  end.

Definition demo_irq (g : DiskState) : option (nat * DiskState) :=
  if active (disk (sd g)) then
    Some (4%nat, mkDiskState (set_disk (HandleInterrupt (disk (sd g))) (sd g)) (served g))
  else None.

Definition demo_state : DiskState :=
  match SynchDisk_SynchDisk empty_cache None with
  | Ok s => mkDiskState s []
  | Fault _ => mkDiskState (mkSynchDisk (mkDisk (mkFile ∅ 0) false 0 0 0 0) 0 false [] [] false [] [] 0 0) []
  end.

Lemma demo_fresh : fresh demo_state.
Proof.
  destruct (SynchDisk_SynchDisk_fresh empty_cache eq_refl) as (s & Es & Rs & Cs & Ss).
  unfold demo_state. rewrite Es. destruct Rs. constructor; cbn; try done. rewrite Cs. by repeat constructor.
Qed.

(** The threads run until everybody waits, the disk interrupts, and so on. *)
Definition demo_schedule : list Client.choice :=
  replicate 30 Go ++ [Irq] ++ replicate 30 Go ++ [Irq] ++ replicate 30 Go.

Definition demo_end : Sys DiskState (dact disk_req Empty_set) :=
  let _ := @disk_client zero_env demo_state in
  default (disk_init 2 demo_ops demo_state)
    (sys_run demo_irq demo_schedule (disk_init 2 demo_ops demo_state)).

Lemma synchdisk_threads_witness :
  length (served (glob demo_end)) = 4%nat /\
  log_ok (content (sd demo_state)) (served (glob demo_end)) /\
  code demo_end 1 = [] /\ code demo_end 2 = [].
Proof.
  split; [vm_compute; reflexivity|].
  destruct (@synchdisk_threads zero_env zero_env_ok 2 demo_ops demo_state demo_end demo_fresh)
    as (_ & _ & _ & Hl & _ & Hq).
  - intros [|[|[|t]]]; repeat constructor; done.
  - unfold demo_end.
    destruct (@sys_run _ _ (@disk_client zero_env demo_state) demo_irq demo_schedule
      (disk_init 2 demo_ops demo_state)) as [s|] eqn:Er; [|apply rtc_refl].
    eapply sys_run_steps; [|exact Er]. intros g n g'. unfold demo_irq.
    destruct (active (disk (sd g))) eqn:Ha; [|done]. intros [= <- <-]. left. split; [exact Ha|]. split; reflexivity.
  - split; [exact Hl|]. split; apply Hq; vm_compute; (reflexivity || lia).
Defined.

End SharedDisk.

(** ** The console *)

Module SharedConsole.
Import Devices Client.

(** [got]: what [GetChar] has returned, and to whom. *)
Record ConsoleState := mkConsoleState { con : Console; got : list (nat * Z) }.

(** [Console::PutChar], [GetChar], [WriteDone] and [CheckCharAvail] on the
    device itself. *)
Definition put_char (ch : Z) (c : Console) : outcome Console :=
  _ ← ASSERT_ (negb (putBusy c));
  Ok (mkConsole true (incoming c) (keyboard c) (display c ++ [u8 ch])).

Definition get_char (c : Console) : Z * Console :=
  (incoming c, mkConsole (putBusy c) EOF (keyboard c) (display c)).

Definition write_done (c : Console) : Console :=
  mkConsole false (incoming c) (keyboard c) (display c).

Definition check_char (c : Console) : option Console :=
  if negb (incoming c =? EOF) then None
  else
    match keyboard c with
    | [] => None
    | b :: rest => Some (mkConsole (putBusy c) (schar b) rest (display c))
    end.

(** They are what the routines of Devices.v do to the console. *)
Lemma PutChar_put ch s :
  PutChar ch s =
  (c ← getw console; c' ← lift (put_char ch c); _ ← modw (set_console c');
   Interrupt.Schedule ConsoleWriteDone 0 ConsoleTime Interrupt.ConsoleWriteInt) s.
Proof.
  unfold PutChar, put_char, mbind, M_bind, ASSERT, ASSERT_, getw, gets, lift. cbn.
  by destruct (negb (putBusy (console (Interrupt.world s)))).
Qed.

Lemma GetChar_get s :
  GetChar s =
  (c ← getw console; _ ← modw (set_console (get_char c).2); mret (get_char c).1) s.
Proof. done. Qed.

Lemma WriteDone_done s :
  WriteDone s =
  (_ ← modw (fun w => set_console (write_done (console w)) w); _ ← count count_charWritten;
   signal writeDone) s.
Proof. done. Qed.

Lemma CheckCharAvail_check s :
  CheckCharAvail s =
  (_ ← Interrupt.Schedule ConsoleReadPoll 0 ConsoleTime Interrupt.ConsoleReadInt;
   c ← getw console;
   match check_char c with
   | Some c' => _ ← modw (set_console c'); _ ← count count_charRead; signal readAvail
   | None => mret tt
   end) s.
Proof.
  unfold CheckCharAvail, check_char, mbind, M_bind. destruct (Interrupt.Schedule _ _ _ _ s) as [[[] s1]|]; [|done].
  cbn. destruct (negb (incoming (console (Interrupt.world s1)) =? EOF)); [done|].
  by destruct (keyboard (console (Interrupt.world s1))).
Qed.

(** The driver: the lock and the two semaphores of SynchConsole. *)
Section Console.
Variable typed : list Z.

(** What has been read, the character in the buffer and what is still to come
    are what was typed; no byte is 255, which the buffer cannot tell from
    [EOF]. *)
Record state_ok (g : ConsoleState) : Prop := {
  cs_order : (got g).*2 ++ buffered (con g) ++ (schar <$> keyboard (con g)) = schar <$> typed;
  cs_bytes : Forall (fun b => 0 <= b < 255) (keyboard (con g)) }.

#[local] Instance console_driver : Driver ConsoleState Z unit := {|
  dlock := 3;
  dsem := 1;
  insem := 0;
  busy := fun g => putBusy (con g);
  full := fun g => negb (incoming (con g) =? EOF);
  Driver.request := fun ch _ g => c ← put_char ch (con g); Ok (mkConsoleState c (got g), false);
  complete := fun g => mkConsoleState (write_done (con g)) (got g);
  Driver.take := fun _ t g => let r := get_char (con g) in mkConsoleState r.2 (got g ++ [(t, r.1)]);
  arrive := fun g => match check_char (con g) with Some c => Some (mkConsoleState c (got g)) | None => None end;
  okg := state_ok;
  okr := fun _ => True |}.

Lemma schar_EOF b : 0 <= b < 255 -> schar b <> EOF.
Proof.
  intros Hb E. unfold schar, EOF in E. pose proof (Z.mod_pos_bound (b + 128) 256).
  pose proof (Z.div_mod (b + 128) 256). lia.
Qed.

Lemma arrive_spec g c : state_ok g -> check_char (con g) = Some c ->
  incoming (con g) = EOF /\ putBusy c = putBusy (con g) /\ incoming c <> EOF /\ state_ok (mkConsoleState c (got g)).
Proof.
  intros [O B]. unfold check_char. destruct (Z.eqb_spec (incoming (con g)) EOF) as [Hi|]; [|done]. cbn.
  destruct (keyboard (con g)) as [|b rest] eqn:Hk; [done|]. intros [= <-].
  apply Forall_cons_1 in B as [B1 B2]. pose proof (schar_EOF b B1) as Hb. splits; try done.
  constructor; cbn; [|done]. rewrite <- O. unfold buffered. cbn. rewrite Hi.
  destruct (Z.eqb_spec (schar b) EOF); done.
Qed.

#[local] Instance console_driver_ok : DriverOk ConsoleState Z unit.
Proof.
  constructor; cbn; try done.
  - intros ch t g Hg _ Hb. unfold put_char, ASSERT_. rewrite Hb. cbn. eexists _, _. split; [reflexivity|].
    split; [|done]. by destruct Hg.
  - intros g []. by constructor.
  - intros y t g [O B] Hf. apply negb_true_iff in Hf. constructor; cbn; [|done].
    rewrite fmap_app, <- app_assoc, <- O. unfold buffered. by rewrite Hf.
  - intros g g' E. unfold check_char in E. destruct (negb (incoming (con g) =? EOF)); [done|].
    destruct (keyboard (con g)); [done|]. by injection E as <-.
  - intros g g' Hg E. destruct (check_char (con g)) as [c|] eqn:Hc; [|done]. injection E as <-.
    destruct (arrive_spec g c Hg Hc) as (-> & _ & Hn & _). cbn. split; [done|].
    by destruct (Z.eqb_spec (incoming c) EOF).
  - intros g g' E Hg. destruct (check_char (con g)) as [c|] eqn:Hc; [|done]. injection E as <-.
    by apply (arrive_spec g c Hg Hc).
Qed.
End Console.

Definition console_client (typed : list Z) : Client ConsoleState (dact Z unit) :=
  @driver_client _ _ _ (console_driver typed).

(** [Io ch] is [SynchConsole::PutChar], [Inp tt] is [SynchConsole::GetChar]. *)
Definition console_init (typed : list Z) (n : nat) (ops : nat -> list (dop Z unit)) :
    Sys ConsoleState (dact Z unit) :=
  let _ := console_driver typed in
  sys_init (driver_script n ops) (fun _ => 0) (mkConsoleState (mkConsole false EOF typed []) []).


(** Thread 1 echoes two characters, thread 2 prints one. *)
Definition demo_ops (t : nat) : list (dop Z unit) :=
  match t with 1%nat => [Inp tt; Io 104; Inp tt; Io 105] | 2%nat => [Io 33] | _ => [] end.

Definition demo_irq (g : ConsoleState) : option (nat * ConsoleState) :=
  if putBusy (con g) then Some (1%nat, mkConsoleState (write_done (con g)) (got g))
  else match check_char (con g) with Some c => Some (0%nat, mkConsoleState c (got g)) | None => None end.

Definition demo_run (typed : list Z) (irqs : nat) : Sys ConsoleState (dact Z unit) :=
  let _ := console_client typed in
  default (console_init typed 2 demo_ops)
    (sys_run demo_irq (concat (replicate irqs (replicate 30 Go ++ [Irq])) ++ replicate 30 Go)
       (console_init typed 2 demo_ops)).

Lemma demo_reach typed irqs :
  rtc (@sys_step _ _ (console_client typed)) (console_init typed 2 demo_ops) (demo_run typed irqs).
Proof.
  unfold demo_run. destruct (@sys_run _ _ (console_client typed) demo_irq _ _) as [s|] eqn:Er;
    [|apply rtc_refl].
  eapply sys_run_steps; [|exact Er]. intros g n g'. unfold demo_irq.
  destruct (putBusy (con g)) eqn:Hb.
  - intros [= <- <-]. left. split; [exact Hb|]. split; reflexivity.
  - destruct (check_char (con g)) as [c|] eqn:Hc; [|done]. intros [= <- <-]. right.
    split; [reflexivity|]. cbn. by rewrite Hc.
Qed.


(** [GetChar] keeps the lock while it waits: with nothing typed, the output of
    thread 2 waits for thread 1's input for ever. *)
Lemma synchconsole_reader_blocks_writer :
  let s := demo_run [] 0 in
  rtc (@sys_step _ _ (console_client [])) (console_init [] 2 demo_ops) s /\
  idle (kern s) = true /\ readyList (kern s) = [] /\ display (con (glob s)) = [] /\
  heldthread (kern s) 3 = Some 1%nat /\
  (exists r, code s 2 = IC (CP (SLock 3) false) :: r) /\
  putBusy (con (glob s)) = false /\ check_char (con (glob s)) = None.
Proof.
  split; [apply demo_reach|]. splits; try (vm_compute; reflexivity). vm_compute. eauto.
Qed.
End SharedConsole.
