(* ===== verification/ConsoleTest.v ===== *)
(** * userprog/progtest.cc: the test of the console

    [ConsoleTest] echoes what is typed through the SynchConsole of
    machine/console.cc, until a 'q'.  It runs in the main thread over the thread
    system of Threads.v: another instance of the class [Client], on the console
    of SynchDevices.v.  What is shown is compared with a function of what was
    typed. *)
From S2P Require Import Prelude CInt Threads Client Driver SynchDevices.
From S2P Require Devices.
From Stdlib Require Import ZArith Lia List Bool.
From stdpp Require Import base tactics list numbers functions relations gmap.
Import SharedConsole.
Local Open Scope Z_scope.

Definition KEY_q : Z := 113.

(** ** The program *)

(** The pieces of code between two kernel calls: the head of the loop, the
    call of the console in [GetChar], that in [PutChar], and the test. *)
Inductive piece := Round | Get | Put (ch : Z) | Test (ch : Z).

(** The lock of the console is lock 3, [readAvail] semaphore 0, [writeDone]
    semaphore 1. *)
Definition SynchConsole_GetChar : list (stmt piece) :=
  [Call (Acquire 3); Call [CP (SUser 0) false]; Act Get].

(** The rest of [GetChar], which returns [ch], and of the round. *)
Definition returned (ch : Z) : list (stmt piece) :=
  [Call [CRelease 3];
   Call (Acquire 3); Act (Put ch); Call [CP (SUser 1) false]; Call [CRelease 3];
   Act (Test ch)].

Definition run_piece (x : piece) (t : nat) (g : ConsoleState) : outcome (ConsoleState * list (stmt piece)) :=
  match x with
  | Round => Ok (g, SynchConsole_GetChar)
  | Get =>
    let r := get_char (con g) in
    Ok (mkConsoleState r.2 (got g ++ [(t, r.1)]), returned r.1)
  | Put ch => c ← put_char ch (con g); Ok (mkConsoleState c (got g), [])
  | Test ch => Ok (g, if ch =? KEY_q then [] else [Act Round])
  end.

(** The interrupts: the end of an output, a character that has arrived. *)
Definition console_interrupt (g : ConsoleState) (n : nat) (g' : ConsoleState) : Prop :=
  (Devices.putBusy (con g) = true /\ n = 1%nat /\ g' = mkConsoleState (write_done (con g)) (got g)) \/
  (n = 0%nat /\ exists c, check_char (con g) = Some c /\ g' = mkConsoleState c (got g)).

#[global] Instance echo_client : Client ConsoleState piece := {| act := run_piece; dev := console_interrupt |}.

#[global] Instance echo_client_ok : ClientOk ConsoleState piece.
Proof.
  intros [| |ch|ch] t g g' p; cbn.
  - intros [= _ <-]. by repeat constructor.
  - intros [= _ <-]. by repeat constructor.
  - destruct (put_char ch (con g)); [|done]. intros [= _ <-]. constructor.
  - intros [= _ <-]. destruct (ch =? KEY_q); by repeat constructor.
Qed.

(** [ConsoleTest], called by the main thread. *)
Definition ConsoleTest (t : nat) : list (stmt piece) := if Nat.eqb t 0 then [Act Round] else [].

Definition console_start (typed : list Z) : Sys ConsoleState piece :=
  sys_init ConsoleTest (fun _ => 0)
    (mkConsoleState (Devices.mkConsole false Devices.EOF typed []) []).

(** What should be shown: everything up to the first 'q'. *)
Fixpoint echo (typed : list Z) : list Z :=
  match typed with
  | [] => []
  | b :: rest => if b =? KEY_q then [b] else b :: echo rest
  end.

(** ** Where the thread can be *)

Inductive place := Looping | Getting (i : nat) | Putting (ch : Z) (i : nat) | Done.

Definition get_items : list (item piece) :=
  [IC (CP (SLock 3) false); IC (CHold 3 false); IC (CP (SUser 0) false); IA Get].

Definition put_items (ch : Z) : list (item piece) :=
  [IC (CRelease 3); IC (CP (SLock 3) false); IC (CHold 3 false); IA (Put ch); IC (CP (SUser 1) false);
   IC (CRelease 3); IA (Test ch)].

Definition items_at (pl : place) : list (item piece) :=
  match pl with
  | Looping => [IA Round]
  | Getting i => drop i get_items
  | Putting ch i => drop i (put_items ch)
  | Done => []
  end.

Definition place_ok (pl : place) : Prop :=
  match pl with Getting i => (i < 4)%nat | Putting _ i => (i < 7)%nat | _ => True end.

(** The value of the lock's semaphore, and whether the thread is its holder. *)
Definition lock_at (pl : place) : Z * option nat :=
  match pl with
  | Getting 1 | Putting _ 2 => (0, None)
  | Getting 2 | Getting 3 | Putting _ 0 | Putting _ 3 | Putting _ 4 | Putting _ 5 => (0, Some 0%nat)
  | _ => (1, None)
  end.

(** 1 with a character that was waited for and not fetched; 1 with an output
    that was started and not waited for. *)
Definition fetching (pl : place) : Z := match pl with Getting 3 => 1 | _ => 0 end.
Definition showing (pl : place) : Z := match pl with Putting _ 4 => 1 | _ => 0 end.

(** What the rounds that are over have read, what has been read in all and
    what has been shown. *)
Definition read_at (pl : place) (seen : list Z) : list Z :=
  match pl with Putting ch _ => seen ++ [ch] | Done => seen ++ [KEY_q] | _ => seen end.
Definition shown_at (pl : place) (seen : list Z) : list Z :=
  match pl with
  | Putting ch i => if (i <? 4)%nat then seen else seen ++ [ch]
  | _ => read_at pl seen
  end.

Record echo_ok (typed : list Z) (pl : place) (seen : list Z) (a : Abs ConsoleState piece) : Prop := {
  eo_place : place_ok pl;
  eo_code : acode a 0%nat = items_at pl;
  eo_others : forall t, t <> 0%nat -> acode a t = [];
  eo_lock : (aval a (SLock 3), aheld a 3%nat) = lock_at pl;
  eo_in : aval a (SUser 0) + fetching pl = Z.b2z (negb (Devices.incoming (con (aglob a)) =? Devices.EOF));
  eo_out : aval a (SUser 1) + Z.b2z (Devices.putBusy (con (aglob a))) = showing pl;
  eo_data : state_ok typed (aglob a);
  eo_seen : Forall (fun c => c <> KEY_q) seen;
  eo_got : (got (aglob a)).*2 = read_at pl seen;
  eo_shown : Devices.display (con (aglob a)) = u8 <$> shown_at pl seen }.

Definition echo_inv (typed : list Z) (a : Abs ConsoleState piece) : Prop :=
  exists pl seen, echo_ok typed pl seen a.

Lemma echo_inv_equiv typed a b : a ≡ b -> echo_inv typed a -> echo_inv typed b.
Proof.
  intros (E1 & E2 & E3 & E4) (pl & seen & [H1 H2 H3 H4 H5 H6 H7 H8 H9 H10]). exists pl, seen.
  constructor; rewrite <- ?E1, <- ?E2, <- ?E3, <- ?E4; try done.
  intros t Ht. rewrite <- E4. by apply H3.
Qed.

(** The place behind a kernel call. *)
Definition next (pl : place) : place :=
  match pl with Getting i => Getting (S i) | Putting ch i => Putting ch (S i) | pl => pl end.

Ltac places H :=
  match type of H with
  | place_ok ?pl =>
    let i := fresh "i" in let c := fresh "ch" in
    destruct pl as [|i|c i|]; cbn in H; do 7 (try destruct i as [|i]); try lia
  end.

Lemma call_ok typed pl seen a a' c r :
  echo_ok typed pl seen a -> acode a 0%nat = IC c :: r -> call_enabled c a = true ->
  a' ≡ mkAbs (call_val 0 c a) (call_held 0 c a) (aglob a) (code_upd 0 r a) ->
  echo_ok typed (next pl) seen a'.
Proof.
  intros [H1 H2 H3 H4 H5 H6 H7 H8 H9 H10] Hc En (E1 & E2 & E3 & E4). rewrite H2 in Hc.
  assert (Ho : forall t, t <> 0%nat -> acode a' t = []).
  { intros t Ht. rewrite E4. unfold code_upd. cbn. rewrite decide_False by done. by apply H3. }
  assert (Hr : acode a' 0%nat = r) by by (rewrite E4; unfold code_upd; cbn).
  pose proof (E1 (SLock 3)) as L1. pose proof (E2 3%nat) as L2.
  pose proof (E1 (SUser 0)) as V0. pose proof (E1 (SUser 1)) as V1.
  pose proof (f_equal fst H4) as Hv. pose proof (f_equal snd H4) as Hh. cbn [fst snd] in Hv, Hh.
  places H1; cbn in Hc; try done; injection Hc as <- <-; cbn in *; rewrite ?Hv, ?Hh in *; cbn in *;
    constructor; cbn; rewrite ?E3; try done; try lia.
  all: rewrite ?L1, ?L2, ?V0, ?V1; repeat case_decide; first [done | congruence | lia].
Qed.

(** A piece of the program does not fail, and leads to the next place. *)
Lemma act_ok typed pl seen a x r :
  abs_facts a -> echo_ok typed pl seen a -> acode a 0%nat = IA x :: r ->
  exists g' p, act x 0 (aglob a) = Ok (g', p) /\
    forall a', a' ≡ mkAbs (aval a) (aheld a) g' (code_upd 0 (flat p ++ r) a) ->
      exists pl' seen', echo_ok typed pl' seen' a'.
Proof.
  intros F [H1 H2 H3 H4 H5 H6 H7 H8 H9 H10] Hc. rewrite H2 in Hc.
  pose proof (af_val _ F (SUser 0)) as P0. pose proof (af_val _ F (SUser 1)) as P1.
  assert (Go : forall g' p a' pl' seen',
    a' ≡ mkAbs (aval a) (aheld a) g' (code_upd 0 (flat p ++ r) a) ->
    place_ok pl' -> flat p ++ r = items_at pl' -> lock_at pl' = lock_at pl ->
    aval a (SUser 0) + fetching pl' = Z.b2z (negb (Devices.incoming (con g') =? Devices.EOF)) ->
    aval a (SUser 1) + Z.b2z (Devices.putBusy (con g')) = showing pl' ->
    state_ok typed g' -> Forall (fun c => c <> KEY_q) seen' ->
    (got g').*2 = read_at pl' seen' -> Devices.display (con g') = u8 <$> shown_at pl' seen' ->
    echo_ok typed pl' seen' a').
  { intros g' p a' pl' seen' (E1 & E2 & E3 & E4) K1 K2 K3 K4 K5 K6 K7 K8 K9.
    constructor; rewrite ?E1, ?E2, ?E3, ?E4; cbn; try done.
    - intros t Ht. rewrite E4. unfold code_upd. cbn. rewrite decide_False by done. by apply H3.
    - by rewrite K3. }
  places H1; cbn in Hc; try done; injection Hc as <- <-; cbn [lock_at fetching showing read_at shown_at] in *.
  - eexists _, _. split; [reflexivity|]. intros a' E. exists (Getting 0), seen. eapply Go; try done. cbn. lia.
  - assert (Hf : negb (Devices.incoming (con (aglob a)) =? Devices.EOF) = true)
      by (revert H5; destruct (negb _); [done|cbn; lia]).
    eexists _, _. split; [reflexivity|]. intros a' E.
    exists (Putting (Devices.incoming (con (aglob a))) 0), seen. eapply Go; try done; cbn.
    + lia.
    + rewrite Hf in H5. cbn in H5. lia.
    + exact (@take_ok _ _ _ _ (console_driver_ok typed) tt 0%nat (aglob a) H7 Hf).
    + by rewrite fmap_app, H9.
  - assert (Hb : Devices.putBusy (con (aglob a)) = false)
      by (revert H6; destruct (Devices.putBusy _); [cbn; lia|done]).
    unfold put_char, ASSERT_. cbn. unfold put_char. rewrite Hb. cbn.
    eexists _, _. split; [reflexivity|]. intros a' E. exists (Putting ch 4), seen. eapply Go; try done; cbn.
    + lia.
    + rewrite Hb in H6. cbn in H6. lia.
    + destruct H7. by constructor.
    + by rewrite fmap_app, H10.
  - eexists _, _. split; [reflexivity|]. intros a' E. destruct (Z.eqb_spec ch KEY_q) as [->|Hq].
    + exists Done, seen. by eapply Go.
    + exists Looping, (seen ++ [ch]). eapply Go; try done. apply Forall_app. by repeat constructor.
Qed.

Lemma dev_ok typed pl seen a a' n g' :
  echo_ok typed pl seen a -> dev (aglob a) n g' ->
  a' ≡ mkAbs (call_val 0 (CV (SUser n)) a) (aheld a) g' (acode a) -> echo_ok typed pl seen a'.
Proof.
  intros [H1 H2 H3 H4 H5 H6 H7 H8 H9 H10] Hd (E1 & E2 & E3 & E4).
  assert (Ha : forall t, t <> 0%nat -> acode a' t = []) by (intros t Ht; rewrite E4; by apply H3).
  destruct Hd as [(Hb & -> & ->)|(-> & c & Hc & ->)].
  - constructor; rewrite ?E1, ?E2, ?E3, ?E4; cbn; try done.
    + rewrite Hb in H6. cbn in H6. rewrite decide_True by done. lia.
    + by destruct H7.
  - destruct (arrive_spec typed _ _ H7 Hc) as (Hi & Hb & Hn & Ho).
    assert (Hsh : Devices.display c = Devices.display (con (aglob a))).
    { unfold check_char in Hc. rewrite Hi in Hc. cbn in Hc. destruct (Devices.keyboard _); [done|].
      by injection Hc as <-. }
    constructor; rewrite ?E1, ?E2, ?E3, ?E4; cbn; rewrite ?Hb, ?Hsh; try done.
    rewrite decide_True by done. rewrite Hi in H5. cbn in H5. rewrite (proj2 (Z.eqb_neq _ _) Hn). cbn. lia.
Qed.

Lemma echo_step typed a a' : abs_facts a -> echo_inv typed a -> astep a a' -> echo_inv typed a'.
Proof.
  intros F (pl & seen & H) [t c r H1 H2 E|t x r g' p H1 H2 E|n g' H1 E].
  - destruct (decide (t = 0%nat)) as [->|Ht]; [|by rewrite (eo_others _ _ _ _ H t Ht) in H1].
    exists (next pl), seen. by eapply call_ok.
  - destruct (decide (t = 0%nat)) as [->|Ht]; [|by rewrite (eo_others _ _ _ _ H t Ht) in H1].
    destruct (act_ok _ _ _ _ _ _ F H H1) as (g2 & p2 & E2 & K). rewrite H2 in E2. injection E2 as <- <-.
    by destruct (K a' E) as (pl' & seen' & ?); exists pl', seen'.
  - exists pl, seen. by eapply dev_ok.
Qed.

Lemma echo_script_ok t : Forall stmt_ok (ConsoleTest t).
Proof. unfold ConsoleTest. destruct (Nat.eqb t 0); by repeat constructor. Qed.

Lemma start_inv typed : Forall (fun b => 0 <= b < 255) typed -> echo_inv typed (view (console_start typed)).
Proof.
  intros Ht. exists Looping, []. constructor; cbn; try done.
  intros [|t] ?; [done|reflexivity].
Qed.

Lemma reach_echo typed s : Forall (fun b => 0 <= b < 255) typed ->
  rtc sys_step (console_start typed) s -> sys_ok s /\ echo_inv typed (view s).
Proof.
  intros Ht Hr. split; [by eapply reach_ok; [..|exact Hr]; [|apply echo_script_ok]|].
  eapply (reach_invariant ConsoleTest (fun _ => 0)); [done|apply echo_script_ok|apply echo_inv_equiv| | |exact Hr].
  - apply echo_step.
  - by apply start_inv.
Qed.

(** ** What is read and what is shown *)

Lemma u8_schar b : 0 <= b < 255 -> u8 (schar b) = b.
Proof.
  intros Hb. unfold u8, schar. rewrite Zminus_mod_idemp_l. replace (b + 128 - 128) with b by lia.
  apply Z.mod_small. lia.
Qed.

Lemma schar_q b : 0 <= b < 255 -> schar b = KEY_q <-> b = KEY_q.
Proof. intros Hb. split; [|by intros ->]. intros E. rewrite <- (u8_schar b Hb), E. done. Qed.

Lemma echo_app t1 t2 : Forall (fun b => b <> KEY_q) t1 -> echo (t1 ++ t2) = t1 ++ echo t2.
Proof.
  induction 1 as [|b t1 Hb _ IH]; [done|]. cbn. rewrite (proj2 (Z.eqb_neq _ _) Hb). by rewrite IH.
Qed.

Lemma echo_all t : Forall (fun b => b <> KEY_q) t -> echo t = t.
Proof. intros H. rewrite <- (app_nil_r t) at 1. rewrite echo_app by done. apply app_nil_r. Qed.

(** The characters read are the first of those typed. *)
Lemma read_prefix typed seen more :
  Forall (fun b => 0 <= b < 255) typed -> Forall (fun c => c <> KEY_q) seen -> seen ++ more = schar <$> typed ->
  exists t2, typed = (u8 <$> seen) ++ t2 /\ more = schar <$> t2 /\ Forall (fun b => b <> KEY_q) (u8 <$> seen) /\
    Forall (fun b => 0 <= b < 255) t2.
Proof.
  intros Ht Hs E. symmetry in E. apply fmap_app_inv in E as (t1 & t2 & -> & -> & ->).
  apply Forall_app in Ht as [Ht1 Ht2].
  assert (Eu : u8 <$> (schar <$> t1) = t1).
  { rewrite <- list_fmap_compose. rewrite <- (list_fmap_id t1) at 2. apply list_fmap_ext. intros i b Hb. cbn.
    apply u8_schar. by eapply (proj1 (Forall_lookup _ _) Ht1). }
  rewrite Eu. exists t2. splits; try done. rewrite Forall_fmap in Hs.
  rewrite Forall_lookup in Hs, Ht1 |- *. intros i b Hb E. apply (Hs i b Hb). cbn. by apply schar_q; [eapply Ht1|].
Qed.

Section Places.
Variables (typed : list Z) (pl : place) (seen : list Z) (a : Abs ConsoleState piece).
Hypothesis Ht : Forall (fun b => 0 <= b < 255) typed.
Hypothesis H : echo_ok typed pl seen a.

(** With nothing read in this round the rounds before have shown it all. *)
Lemma between : read_at pl seen = seen -> exists t2,
  typed = Devices.display (con (aglob a)) ++ t2 /\ echo typed = Devices.display (con (aglob a)) ++ echo t2 /\
  Devices.buffered (con (aglob a)) ++ (schar <$> Devices.keyboard (con (aglob a))) = schar <$> t2 /\
  (KEY_q ∈ typed <-> KEY_q ∈ t2).
Proof.
  intros Er. assert (Es : shown_at pl seen = seen).
  { destruct pl; cbn in *; try done; apply (f_equal length) in Er; rewrite length_app in Er; cbn in Er; lia. }
  pose proof (cs_order _ _ (eo_data _ _ _ _ H)) as E. rewrite (eo_got _ _ _ _ H), Er in E.
  destruct (read_prefix _ _ _ Ht (eo_seen _ _ _ _ H) E) as (t2 & -> & Em & Hn & _).
  rewrite (eo_shown _ _ _ _ H), Es. exists t2. splits; try done; [by apply echo_app|].
  rewrite elem_of_app. split; [intros [Hq|]; [|done]|by right]. rewrite Forall_forall in Hn. by destruct (Hn _ Hq).
Qed.

(** The character of this round is the next that was typed. *)
Lemma within ch : read_at pl seen = seen ++ [ch] -> exists t3,
  typed = (u8 <$> seen) ++ u8 ch :: t3 /\ echo typed = (u8 <$> seen) ++ echo (u8 ch :: t3) /\
  (u8 ch = KEY_q <-> ch = KEY_q).
Proof.
  intros Er. pose proof (cs_order _ _ (eo_data _ _ _ _ H)) as E. rewrite (eo_got _ _ _ _ H), Er in E.
  rewrite <- app_assoc in E.
  destruct (read_prefix _ _ _ Ht (eo_seen _ _ _ _ H) E) as ([|b t3] & -> & Em & Hn & H2); [done|].
  injection Em as -> _. apply Forall_cons_1 in H2 as [Hb _]. rewrite (u8_schar b Hb). exists t3.
  splits; [done|by apply echo_app|by rewrite schar_q].
Qed.

Lemma shown_prefix : exists rest, Devices.display (con (aglob a)) ++ rest = echo typed.
Proof.
  destruct (decide (read_at pl seen = seen)) as [Er|Er]; [destruct (between Er) as (t2 & _ & -> & _); eauto|].
  assert (Hw : exists ch, read_at pl seen = seen ++ [ch]) by (destruct pl; cbn in *; eauto; done).
  destruct Hw as (ch & Hw). destruct (within ch Hw) as (t3 & _ & -> & _). rewrite (eo_shown _ _ _ _ H).
  assert (Hs : shown_at pl seen = seen \/ shown_at pl seen = seen ++ [ch])
    by (destruct pl as [| |c i|]; unfold shown_at, read_at in *; try (destruct (i <? 4)%nat); auto).
  destruct Hs as [->| ->]; [eauto|]. rewrite fmap_app. cbn [echo].
  destruct (u8 ch =? KEY_q); eexists; rewrite <- app_assoc; [exact (f_equal _ (app_nil_r _))|reflexivity].
Qed.

(** When the program has returned, it has shown it all. *)
Lemma returned_shown : acode a 0%nat = [] -> Devices.display (con (aglob a)) = echo typed /\ KEY_q ∈ typed.
Proof.
  intros Hc. rewrite (eo_code _ _ _ _ H) in Hc.
  assert (Hd : pl = Done).
  { pose proof (eo_place _ _ _ _ H) as P. clear H. places P; done. }
  destruct (within KEY_q) as (t3 & Et & -> & _); [by rewrite Hd|].
  rewrite (eo_shown _ _ _ _ H), Et, Hd. cbn [shown_at read_at]. rewrite fmap_app. split; [done|].
  apply elem_of_app. right. by left.
Qed.

(** When it waits with nothing to come, likewise. *)
Lemma waiting_shown x r : acode a 0%nat = IC (CP x false) :: r -> aval a x = 0 ->
  Devices.putBusy (con (aglob a)) = false -> check_char (con (aglob a)) = None ->
  Devices.display (con (aglob a)) = echo typed /\ ~ KEY_q ∈ typed.
Proof.
  intros Hc V Hb Hk. rewrite (eo_code _ _ _ _ H) in Hc.
  pose proof (eo_place _ _ _ _ H) as P. pose proof (f_equal fst (eo_lock _ _ _ _ H)) as L. cbn [fst] in L.
  pose proof (eo_in _ _ _ _ H) as Hi. pose proof (eo_out _ _ _ _ H) as Ho. rewrite Hb in Ho.
  assert (Hg : read_at pl seen = seen /\ Devices.incoming (con (aglob a)) = Devices.EOF).
  { clear H. places P; cbn in Hc; try done; injection Hc as <- <-; cbn in *; try lia. split; [done|].
    rewrite V in Hi. destruct (Z.eqb_spec (Devices.incoming (con (aglob a))) Devices.EOF); [done|cbn in Hi; lia]. }
  destruct Hg as [Er Hinc]. destruct (between Er) as (t2 & Et & -> & Em & ->).
  unfold check_char in Hk. rewrite Hinc in Hk. cbn in Hk. unfold Devices.buffered in Em. rewrite Hinc in Em.
  destruct (Devices.keyboard (con (aglob a))); [|done]. destruct t2; [|done].
  split; [by rewrite app_nil_r|by intros ?%not_elem_of_nil].
Qed.
End Places.

(** ** The theorem *)

Section Echo.
Variables (typed : list Z) (s : Sys ConsoleState piece).
Hypothesis Ht : Forall (fun b => 0 <= b < 255) typed.
Hypothesis Hr : rtc sys_step (console_start typed) s.

Lemma echo_assertions :
  (forall ch r, code s 0 = IA (Put ch) :: r -> Devices.putBusy (con (glob s)) = false) /\
  (forall r, code s 0 = IA Get :: r -> Devices.incoming (con (glob s)) <> Devices.EOF).
Proof.
  destruct (reach_echo typed s Ht Hr) as [Hok (pl & seen & H)]. pose proof (view_facts s Hok) as F.
  pose proof (af_val _ F (SUser 0)) as P0. pose proof (af_val _ F (SUser 1)) as P1.
  pose proof (eo_code _ _ _ _ H) as C. pose proof (eo_in _ _ _ _ H) as Hi.
  pose proof (eo_out _ _ _ _ H) as Ho. pose proof (eo_place _ _ _ _ H) as P. cbn [acode aglob view] in *.
  split.
  - intros ch r Hc. rewrite Hc in C. clear H. places P; try done. cbn in Ho.
    destruct (Devices.putBusy (con (glob s))); [cbn in *; lia|done].
  - intros r Hc. rewrite Hc in C. clear H. places P; try done. cbn in Hi. intros E. rewrite E in Hi. cbn in *. lia.
Qed.

Lemma echo_progress : idle (kern s) = false -> exists s', sys_step s s'.
Proof.
  intros Hi. destruct (reach_echo typed s Ht Hr) as [Hok (pl & seen & H)].
  destruct (sys_progress s Hok Hi) as [|(x & r & e & Hc & Hf)]; [done|exfalso].
  assert (E : current (kern s) = 0%nat).
  { destruct (decide (current (kern s) = 0%nat)) as [|Hn]; [done|].
    pose proof (eo_others _ _ _ _ H _ Hn) as E. cbn in E. by rewrite Hc in E. }
  rewrite E in *. destruct (act_ok _ _ _ _ _ _ (view_facts s Hok) H Hc) as (g' & p & E2 & _).
  change (aglob (view s)) with (glob s) in E2. by rewrite Hf in E2.
Qed.

Lemma echo_stuck : idle (kern s) = true -> readyList (kern s) = [] ->
  code s 0 = [] \/ exists x r, code s 0 = IC (CP x false) :: r /\ value (kern s) x = 0.
Proof.
  intros Hi Hl. eapply reach_stuck; [..|exact Hr|exact Hi|exact Hl|]; [done|apply echo_script_ok| |].
  - intros s' R t c l r Hc. destruct (reach_echo typed s' Ht R) as [_ (pl & seen & H)].
    destruct (decide (t = 0%nat)) as [->|Hn].
    + pose proof (eo_code _ _ _ _ H) as C. cbn in C. rewrite Hc in C.
      pose proof (eo_place _ _ _ _ H) as P. clear H. places P; done.
    + pose proof (eo_others _ _ _ _ H _ Hn) as E. cbn in E. by rewrite Hc in E.
  - by apply (reach_unborn ConsoleTest (fun _ => 0) _ s ltac:(done) echo_script_ok Hr).
Qed.

(** C8: The console test echoes.  Whatever the order of time slices and
    interrupts, in every reachable state: the assertion of [PutChar] holds when
    it is reached, [GetChar] finds a character, and a running thread can go on;
    what is shown is a beginning of what was typed up to the first 'q'; when
    [ConsoleTest] has returned it is all of that, and there was a 'q'; and when
    nothing is left to run and the console has nothing to do, it has returned
    if a 'q' was typed, and waits for more, with everything shown, if not. *)
Theorem consoletest_echoes :
  (forall ch r, code s 0 = IA (Put ch) :: r -> Devices.putBusy (con (glob s)) = false) /\
  (forall r, code s 0 = IA Get :: r -> Devices.incoming (con (glob s)) <> Devices.EOF) /\
  (idle (kern s) = false -> exists s', sys_step s s') /\
  (exists rest, Devices.display (con (glob s)) ++ rest = echo typed) /\
  (code s 0 = [] -> Devices.display (con (glob s)) = echo typed /\ KEY_q ∈ typed) /\
  (idle (kern s) = true -> readyList (kern s) = [] -> Devices.putBusy (con (glob s)) = false ->
   check_char (con (glob s)) = None ->
   Devices.display (con (glob s)) = echo typed /\ (code s 0 = [] <-> KEY_q ∈ typed)).
Proof.
  destruct (reach_echo typed s Ht Hr) as [_ (pl & seen & H)]. destruct echo_assertions as [A1 A2].
  pose proof (returned_shown typed pl seen (view s) Ht H) as R. cbn in R.
  splits; [done|done|exact echo_progress|by apply (shown_prefix typed pl seen (view s))|done|].
  intros Hi Hl Hb Hk. destruct (echo_stuck Hi Hl) as [E|(x & r & E & V)]; [by destruct (R E)|].
  destruct (waiting_shown typed pl seen (view s) Ht H x r E V Hb Hk) as [Hd Hn]. cbn in Hd. split; [done|].
  rewrite E. done.
Qed.
End Echo.

(** ** A run: "hiqx" *)

Definition demo_run (typed : list Z) (irqs : nat) : Sys ConsoleState piece :=
  default (console_start typed)
    (sys_run demo_irq (concat (replicate irqs (replicate 30 Go ++ [Irq])) ++ replicate 30 Go)
       (console_start typed)).

Lemma demo_run_reach typed irqs : rtc sys_step (console_start typed) (demo_run typed irqs).
Proof.
  unfold demo_run. destruct (sys_run demo_irq _ _) as [s|] eqn:Er; [|apply rtc_refl].
  eapply sys_run_steps; [|exact Er]. intros g n g'. unfold demo_irq.
  destruct (Devices.putBusy (con g)) eqn:Hb.
  - intros [= <- <-]. by left.
  - destruct (check_char (con g)) as [c|] eqn:Hc; [|done]. intros [= <- <-]. right. split; [done|]. eauto.
Qed.

Lemma consoletest_echoes_witness :
  let s := demo_run [104; 105; 113; 120] 7 in
  code s 0 = [] /\ Devices.display (con (glob s)) = [104; 105; 113] /\
  Devices.display (con (glob (demo_run [104; 105] 4))) = [104; 105].
Proof.
  assert (B : forall l, forallb (fun b => (0 <=? b) && (b <? 255)) l = true -> Forall (fun b => 0 <= b < 255) l).
  { intros l Hl. apply Forall_forall. intros x Hx. rewrite forallb_forall in Hl.
    specialize (Hl x (proj1 (list_elem_of_In _ _) Hx)). lia. }
  destruct (consoletest_echoes [104; 105; 113; 120] (demo_run [104; 105; 113; 120] 7) (B [104; 105; 113; 120] eq_refl)
    (demo_run_reach _ _)) as (_ & _ & _ & _ & Hd & _).
  destruct (consoletest_echoes [104; 105] (demo_run [104; 105] 4) (B [104; 105] eq_refl) (demo_run_reach _ _))
    as (_ & _ & _ & _ & _ & Hw).
  split; [vm_compute; reflexivity|]. split.
  - apply Hd. vm_compute. reflexivity.
  - apply Hw; vm_compute; reflexivity.
Defined.
