(* ===== verification/ReaderWriter.v ===== *)
(** * filesys/synchdisk.cc, openfile.cc: readers and writers of a file

    [SynchReaderStart], [SynchReaderExit], [SynchWriterStart] and
    [SynchWriterExit], called by any number of threads around their reads and
    writes of a file, which is known by the sector of its header.  The counters
    are the array [readerNum]; the semaphores and the lock are those of
    Threads.v. *)
From S2P Require Import Prelude Threads Client.
From S2P Require Disk.
From Stdlib Require Import ZArith Lia List Bool.
From stdpp Require Import base tactics list numbers functions relations gmap.
Local Open Scope Z_scope.

(** ** The programs *)

Definition readerLock : nat := 4.
Definition readerWriterSemap (sector : Z) : sid := SUser (100 + Z.to_nat sector).

(** [readerWtiterSemap[i] = new Semaphore("readerWriterSemap", 1)]. *)
Definition semap_initial (n : nat) : Z :=
  if Nat.leb 100 n && Nat.ltb n (100 + Z.to_nat Disk.NumSectors) then 1 else 0.

Inductive rw_op := ReadFile (sector : Z) | WriteFile (sector : Z).

(** [Enter] and [Leave]: what SynchReaderStart and SynchReaderExit do under the
    lock; [Reading] and [Writing]: the thread uses the file. *)
Inductive rw_code :=
| Do (o : rw_op)
| Enter (sector : Z)
| Leave (sector : Z)
| Reading (sector : Z)
| Writing (sector : Z).

Definition SynchReaderStart (sector : Z) : list (stmt rw_code) :=
  [Call (Acquire readerLock); Act (Enter sector); Call [CRelease readerLock]].

Definition SynchReaderExit (sector : Z) : list (stmt rw_code) :=
  [Call (Acquire readerLock); Act (Leave sector); Call [CRelease readerLock]].

Definition SynchWriterStart (sector : Z) : list (stmt rw_code) :=
  [Call [CP (readerWriterSemap sector) false]].

Definition SynchWriterExit (sector : Z) : list (stmt rw_code) :=
  [Call [CV (readerWriterSemap sector)]].

(** [OpenFile::Read] and [Write]. *)
Definition rw_body (o : rw_op) : list (stmt rw_code) :=
  match o with
  | ReadFile n => SynchReaderStart n ++ [Act (Reading n)] ++ SynchReaderExit n
  | WriteFile n => SynchWriterStart n ++ [Act (Writing n)] ++ SynchWriterExit n
  end.

Definition rw_run (a : rw_code) (readerNum : list Z) : outcome (list Z * list (stmt rw_code)) :=
  match a with
  | Do o => Ok (readerNum, rw_body o)
  | Enter n =>
    v ← arr_get readerNum n;
    r ← arr_set readerNum n (v + 1);
    Ok (r, if v + 1 =? 1 then [Call [CP (readerWriterSemap n) false]] else [])
  | Leave n =>
    v ← arr_get readerNum n;
    r ← arr_set readerNum n (v - 1);
    Ok (r, if v - 1 =? 0 then [Call [CV (readerWriterSemap n)]] else [])
  | Reading _ | Writing _ => Ok (readerNum, [])
  end.

#[global] Instance rw_client : Client (list Z) rw_code := {|
  act := fun a _ g => rw_run a g;
  dev := fun _ _ _ => False |}.

#[global] Instance rw_client_ok : ClientOk (list Z) rw_code.
Proof.
  intros a t g g' p. destruct a as [[n|n]|n|n|n|n]; cbn.
  - intros [= _ <-]. by repeat constructor.
  - intros [= _ <-]. by repeat constructor.
  - destruct (arr_get g n) as [v|]; [cbn|done]. destruct (arr_set g n (v + 1)); [cbn|done].
    intros [= _ <-]. destruct (v + 1 =? 1); by repeat constructor.
  - destruct (arr_get g n) as [v|]; [cbn|done]. destruct (arr_set g n (v - 1)); [cbn|done].
    intros [= _ <-]. destruct (v - 1 =? 0); by repeat constructor.
  - intros [= _ <-]. constructor.
  - intros [= _ <-]. constructor.
Qed.

Definition rw_script (n : nat) (ops : nat -> list rw_op) (t : nat) : list (stmt rw_code) :=
  if Nat.eqb t 0 then replicate n (Call [CFork []])
  else if Nat.leb t n then (fun o => Act (Do o)) <$> ops t else [].

Definition rw_start (n : nat) (ops : nat -> list rw_op) : Sys (list Z) rw_code :=
  sys_init (rw_script n ops) semap_initial (replicate (Z.to_nat Disk.NumSectors) 0).

(** ** Where a thread can be *)

Definition sec_ok (n : Z) : Prop := 0 <= n < Disk.NumSectors.
Definition op_ok (o : rw_op) : Prop := match o with ReadFile n | WriteFile n => sec_ok n end.

Definition oplist (os : list rw_op) : list (item rw_code) := (fun o => IA (Do o)) <$> os.

Lemma reader_eq n : flat (rw_body (ReadFile n)) =
  [IC (CP (SLock readerLock) false); IC (CHold readerLock false); IA (Enter n);
   IC (CRelease readerLock); IA (Reading n);
   IC (CP (SLock readerLock) false); IC (CHold readerLock false); IA (Leave n);
   IC (CRelease readerLock)].
Proof. done. Qed.

Lemma writer_eq n : flat (rw_body (WriteFile n)) =
  [IC (CP (readerWriterSemap n) false); IA (Writing n); IC (CV (readerWriterSemap n))].
Proof. done. Qed.

(** [rs_first]: the first reader waits for the writers; [rs_last]: the last one
    lets them in. *)
Inductive shape : list (item rw_code) -> Prop :=
| rs_main m : shape (replicate m (IC (CFork [])))
| rs_ops os : Forall op_ok os -> shape (oplist os)
| rs_body i o os : op_ok o -> Forall op_ok os -> shape (drop i (flat (rw_body o)) ++ oplist os)
| rs_first n os : sec_ok n -> Forall op_ok os ->
    shape (IC (CP (readerWriterSemap n) false) :: drop 3 (flat (rw_body (ReadFile n))) ++ oplist os)
| rs_last n os : sec_ok n -> Forall op_ok os ->
    shape (IC (CV (readerWriterSemap n)) :: drop 8 (flat (rw_body (ReadFile n))) ++ oplist os).

Lemma rw_shape_call c r : shape (IC c :: r) -> shape r.
Proof.
  inversion 1 as [m E|os Hos E|i o os Ho Hos E|n os Hn Hos E|n os Hn Hos E].
  - destruct m as [|m]; [done|]. injection E as _ <-. constructor.
  - by destruct os.
  - destruct (drop i (flat (rw_body o))) as [|c' r'] eqn:Ed; [by destruct os|].
    injection E as -> <-. replace r' with (drop (S i) (flat (rw_body o))); [by constructor|].
    rewrite <- Nat.add_1_r, <- drop_drop, Ed. done.
  - subst. exact (rs_body 3 (ReadFile n) os Hn Hos).
  - subst. exact (rs_body 8 (ReadFile n) os Hn Hos).
Qed.

(** Where a thread runs code of its own, and what comes after. *)
Lemma shape_IA a r : shape (IA a :: r) -> exists os, Forall op_ok os /\
  ((exists o, a = Do o /\ op_ok o /\ r = oplist os) \/
   (exists n, sec_ok n /\
     ((a = Enter n /\ r = drop 3 (flat (rw_body (ReadFile n))) ++ oplist os) \/
      (a = Reading n /\ r = drop 5 (flat (rw_body (ReadFile n))) ++ oplist os) \/
      (a = Leave n /\ r = drop 8 (flat (rw_body (ReadFile n))) ++ oplist os) \/
      (a = Writing n /\ r = drop 2 (flat (rw_body (WriteFile n))) ++ oplist os)))).
Proof.
  assert (Hops : forall os, Forall op_ok os -> oplist os = IA a :: r ->
    exists os', Forall op_ok os' /\ exists o, a = Do o /\ op_ok o /\ r = oplist os').
  { intros [|o os] Hos E; [done|]. injection E as <- <-. apply Forall_cons_1 in Hos as [? ?]. eauto 6. }
  inversion 1 as [m E|os Hos E|i o os Ho Hos E|n os Hn Hos E|n os Hn Hos E].
  - by destruct m.
  - destruct (Hops os Hos E) as (os' & ? & ?). eauto.
  - assert (Hnil : forall x : list (item rw_code), x ++ oplist os = IA a :: r -> x = [] ->
      exists os', Forall op_ok os' /\ exists o, a = Do o /\ op_ok o /\ r = oplist os')
      by (intros x Ex ->; by apply Hops in Ex).
    revert E Hnil. destruct o as [n|n]; rewrite ?reader_eq, ?writer_eq; places; intros E Hnil;
      try (destruct (Hnil _ E eq_refl) as (os' & ? & ?); eauto 8; fail);
      injection E as <- <-; exists os; (split; [done|]); right; exists n; (split; [done|]);
      rewrite ?reader_eq, ?writer_eq; eauto 7.
Qed.

Lemma rw_shape_act a (t : nat) r g g' p :
  shape (IA a :: r) -> act a t g = Ok (g', p) -> shape (flat p ++ r).
Proof.
  intros Sh. destruct (shape_IA a r Sh)
    as (os & Hos & [(o & -> & Ho & ->)|(n & Hn & [[-> ->]|[[-> ->]|[[-> ->]|[-> ->]]]])]); cbn.
  - intros [= _ <-]. exact (rs_body 0 o os Ho Hos).
  - destruct (arr_get g n) as [x|]; [cbn|done]. destruct (arr_set g n (x + 1)); [cbn|done].
    intros [= _ <-]. destruct (x + 1 =? 1); [by apply rs_first|exact (rs_body 3 (ReadFile n) os Hn Hos)].
  - intros [= _ <-]. exact (rs_body 5 (ReadFile n) os Hn Hos).
  - destruct (arr_get g n) as [x|]; [cbn|done]. destruct (arr_set g n (x - 1)); [cbn|done].
    intros [= _ <-]. destruct (x - 1 =? 0); [by apply rs_last|exact (rs_body 8 (ReadFile n) os Hn Hos)].
  - intros [= _ <-]. exact (rs_body 2 (WriteFile n) os Hn Hos).
Qed.

(** ** Counting readers and writers of one file *)

Section File.
Variable n : Z.
Hypothesis Hn : sec_ok n.

Definition w_semap (m : nat) : Z := if Nat.eqb m (100 + Z.to_nat n) then 1 else 0.
Definition w_none (a : rw_code) : Z := 0.
Definition w_reads (a : rw_code) : Z :=
  match a with
  | Enter m => if m =? n then 1 else 0
  | Leave m => if m =? n then -1 else 0
  | _ => 0
  end.

Definition count (g : list Z) : Z := default 0 (g !! Z.to_nat n).
Definition busy (g : list Z) : Z := Z.b2z (0 <? count g).

(** 1 for a writer of the file, -1 for a reader that has counted itself and
    not yet taken the semaphore. *)
Definition writes (p : list (item rw_code)) : Z := bal w_semap w_none p.

(** 1 for a reader that has counted itself. *)
Definition reads (p : list (item rw_code)) : Z := - bal (fun _ => 0) w_reads p.

Lemma semap_eq m : sec_ok m -> w_semap (100 + Z.to_nat m) = if m =? n then 1 else 0.
Proof.
  unfold w_semap, sec_ok in *. intros Hm.
  destruct (Nat.eqb_spec (100 + Z.to_nat m) (100 + Z.to_nat n)), (Z.eqb_spec m n); lia.
Qed.

Lemma oplist_weights os : writes (oplist os) = 0 /\ reads (oplist os) = 0.
Proof.
  unfold writes, reads. induction os as [|o os [I1 I2]]; [done|].
  change (0 + bal w_semap w_none (oplist os) = 0 /\ - (0 + bal (fun _ => 0) w_reads (oplist os)) = 0). lia.
Qed.

Lemma body_weights o os : op_ok o ->
  writes (flat (rw_body o) ++ oplist os) = 0 /\ reads (flat (rw_body o) ++ oplist os) = 0.
Proof.
  intros Ho. destruct (oplist_weights os) as [E1 E2]. unfold writes, reads in *. rewrite !bal_app.
  destruct o as [m|m]; rewrite ?reader_eq, ?writer_eq; cbn [bal foldr item_bal w_none w_reads readerWriterSemap readerLock];
    rewrite ?semap_eq by done; unfold w_none in *; destruct (m =? n); lia.
Qed.

(** The first reader before it takes the semaphore. *)
Definition first_waits (p : list (item rw_code)) : Prop :=
  exists off r, p = IC (CP (readerWriterSemap n) off) :: IC (CRelease readerLock) :: r.

(** What a thread counts for, in every place. *)
Lemma shape_weights p : shape p -> 0 <= reads p <= 1 /\
  (0 <= writes p <= 1 \/ (writes p = -1 /\ reads p = 1 /\ first_waits p)).
Proof.
  intros [m|os Hos|i o os Ho Hos|m os Hm Hos|m os Hm Hos].
  - assert (writes (replicate m (IC (CFork []))) = 0 /\ reads (replicate m (IC (CFork []))) = 0) as [-> ->].
    { unfold writes, reads. induction m as [|m [I1 I2]]; [done|]. unfold bal in *. cbn in *. lia. }
    lia.
  - destruct (oplist_weights os) as [-> ->]. lia.
  - destruct (oplist_weights os) as [E1 E2]. unfold writes, reads in *. rewrite !bal_app.
    destruct o as [m|m]; rewrite ?reader_eq, ?writer_eq; places;
      cbn [bal foldr item_bal w_none w_reads readerWriterSemap readerLock];
      rewrite ?semap_eq by done; unfold w_none in *; destruct (m =? n); lia.
  - destruct (oplist_weights os) as [E1 E2]. unfold writes, reads in *. rewrite reader_eq.
    cbn [drop app bal foldr item_bal w_none w_reads readerWriterSemap readerLock] in *.
    unfold bal in E1, E2. rewrite semap_eq by done. unfold w_none in *.
    destruct (Z.eqb_spec m n) as [->|]; (split; [lia|]); [right|left; lia].
    split; [lia|]. split; [lia|]. by eexists _, _.
  - destruct (oplist_weights os) as [E1 E2]. unfold writes, reads in *. rewrite reader_eq.
    cbn [drop app bal foldr item_bal w_none w_reads readerWriterSemap readerLock] in *.
    unfold bal in E1, E2. rewrite semap_eq by done. unfold w_none in *. destruct (m =? n); lia.
Qed.

(** A thread that reads the file is counted, one that writes it has the
    semaphore. *)
Lemma reading_reads r : shape (IA (Reading n) :: r) -> reads (IA (Reading n) :: r) = 1.
Proof.
  intros Sh. destruct (shape_IA _ _ Sh)
    as (os & Hos & [(o & ? & _)|(m & Hm & [[? _]|[[[= <-] ->]|[[? _]|[? _]]]])]); try done.
  destruct (oplist_weights os) as [_ E2]. unfold reads in *. rewrite reader_eq.
  cbn [drop app bal foldr item_bal w_reads]. unfold bal in E2. rewrite Z.eqb_refl. lia.
Qed.

Lemma reading_writes r : shape (IA (Reading n) :: r) -> writes (IA (Reading n) :: r) = 0.
Proof.
  intros Sh. destruct (shape_IA _ _ Sh)
    as (os & Hos & [(o & ? & _)|(m & Hm & [[? _]|[[[= <-] ->]|[[? _]|[? _]]]])]); try done.
  destruct (oplist_weights os) as [E1 _]. unfold writes in *. rewrite reader_eq.
  cbn [drop app bal foldr item_bal w_none readerLock]. unfold bal in E1. unfold w_none in *. lia.
Qed.

Lemma writing_writes r : shape (IA (Writing n) :: r) -> writes (IA (Writing n) :: r) = 1.
Proof.
  intros Sh. destruct (shape_IA _ _ Sh)
    as (os & Hos & [(o & ? & _)|(m & Hm & [[? _]|[[? _]|[[? _]|[[= <-] ->]]]])]); try done.
  destruct (oplist_weights os) as [E1 _]. unfold writes in *. rewrite writer_eq.
  cbn [drop app bal foldr item_bal w_none readerWriterSemap]. unfold bal in E1.
  rewrite semap_eq, Z.eqb_refl by done. unfold w_none in *. lia.
Qed.

Lemma count_set g m x g' : arr_set g m x = Ok g' -> count g' = if m =? n then x else count g.
Proof.
  intros [Hm ->]%arr_set_Ok. unfold count, sec_ok in *. destruct (Z.eqb_spec m n) as [->|Hne].
  - by rewrite list_lookup_insert_eq by lia.
  - by rewrite list_lookup_insert_ne by lia.
Qed.

Lemma count_get g x : arr_get g n = Ok x -> count g = x.
Proof. intros [_ E]%arr_get_Ok. unfold count. by rewrite E. Qed.
End File.

(** ** The invariant *)

Definition needs (a : rw_code) : option bool :=
  match a with Enter _ | Leave _ => Some true | _ => Some false end.

Lemma rw_act_brk a (t : nat) g g' p b r :
  act a t g = Ok (g', p) -> brk readerLock needs b (IA a :: r) = true ->
  brk readerLock needs b (flat p ++ r) = true.
Proof.
  cbn. destruct a as [[m|m]|m|m|m|m]; cbn.
  - by intros [= _ <-] [->%eqb_prop Hb]%andb_true_iff.
  - by intros [= _ <-] [->%eqb_prop Hb]%andb_true_iff.
  - intros Hr [->%eqb_prop Hb]%andb_true_iff. destruct (arr_get g m) as [x|]; [cbn in Hr|done].
    destruct (arr_set g m (x + 1)); [cbn in Hr|done]. injection Hr as _ <-. by destruct (x + 1 =? 1).
  - intros Hr [->%eqb_prop Hb]%andb_true_iff. destruct (arr_get g m) as [x|]; [cbn in Hr|done].
    destruct (arr_set g m (x - 1)); [cbn in Hr|done]. injection Hr as _ <-. by destruct (x - 1 =? 0).
  - by intros [= _ <-] [->%eqb_prop Hb]%andb_true_iff.
  - by intros [= _ <-] [->%eqb_prop Hb]%andb_true_iff.
Qed.

Record rw_ok (a : Abs (list Z) rw_code) : Prop := {
  ro_shape : forall t, shape (acode a t);
  ro_brk : bracketed readerLock needs a;
  ro_len : length (aglob a) = Z.to_nat Disk.NumSectors;
  ro_first : forall n t, sec_ok n -> first_waits n (acode a t) -> count n (aglob a) = 1 }.

Lemma rw_ok_equiv a b : a ≡ b -> rw_ok a -> rw_ok b.
Proof.
  intros E [H1 H2 H3 H4]. pose proof E as (E1 & E2 & E3 & E4). constructor.
  - intros t. by rewrite <- E4.
  - by eapply bracketed_equiv.
  - by rewrite <- E3.
  - intros n t. rewrite <- E3, <- E4. apply H4.
Qed.

Lemma first_holder n (a : Abs (list Z) rw_code) t : bracketed readerLock needs a -> first_waits n (acode a t) ->
  aheld a readerLock = Some t.
Proof.
  intros Hb (off & r & E). specialize (Hb t). rewrite E in Hb. cbn in Hb.
  apply andb_true_iff in Hb as [Hb _]. by apply bool_decide_eq_true_1 in Hb.
Qed.

(** A call never leads to that place. *)
Lemma shape_not_first n c p : shape (IC c :: p) -> ~ first_waits n p.
Proof.
  intros Sh (off & r & ->). revert Sh.
  inversion 1 as [m E|os Hos E|i o os Ho Hos E|m os Hm Hos E|m os Hm Hos E].
  - by destruct m as [|[|m]].
  - by destruct os.
  - revert E. destruct o as [m|m]; rewrite ?reader_eq, ?writer_eq; places; by destruct os.
Qed.

(** Neither does code, except that of the first reader. *)
Lemma act_first n a (t : nat) g g' p r :
  sec_ok n -> shape (IA a :: r) ->
  act a t g = Ok (g', p) -> first_waits n (flat p ++ r) -> count n g' = 1.
Proof.
  intros Hn Sh Ha (off & q & E).
  destruct (shape_IA a r Sh)
    as (os & Hos & [(o & -> & Ho & ->)|(m & Hm & [[-> ->]|[[-> ->]|[[-> ->]|[-> ->]]]])]); cbn in Ha.
  - injection Ha as <- <-. by destruct o.
  - destruct (arr_get g m) as [x|] eqn:Ex; [cbn in Ha|done].
    destruct (arr_set g m (x + 1)) as [g1|] eqn:Es; [cbn in Ha|done]. injection Ha as <- <-.
    destruct (Z.eqb_spec (x + 1) 1) as [Hx|]; [|done].
    injection E as E _ _. assert (m = n) as -> by (unfold sec_ok in *; lia).
    rewrite (count_set n Hn _ _ _ _ Es), Z.eqb_refl. done.
  - by injection Ha as <- <-.
  - destruct (arr_get g m) as [x|]; [cbn in Ha|done].
    destruct (arr_set g m (x - 1)) as [g1|]; [cbn in Ha|done]. injection Ha as <- <-.
    by destruct (x - 1 =? 0).
  - by injection Ha as <- <-.
Qed.

Lemma act_len a (t : nat) g g' p : act a t g = Ok (g', p) -> length g' = length g.
Proof.
  cbn. destruct a as [o|m|m|m|m]; cbn; try by intros [= <- _].
  - destruct (arr_get g m) as [x|]; [cbn|done]. destruct (arr_set g m (x + 1)) as [g1|] eqn:Es; [cbn|done].
    intros [= <- _]. apply arr_set_Ok in Es as [_ ->]. apply length_insert.
  - destruct (arr_get g m) as [x|]; [cbn|done]. destruct (arr_set g m (x - 1)) as [g1|] eqn:Es; [cbn|done].
    intros [= <- _]. apply arr_set_Ok in Es as [_ ->]. apply length_insert.
Qed.

(** Code that runs without the lock leaves the counters alone. *)
Lemma act_count a (t : nat) g g' p :
  act a t g = Ok (g', p) -> needs a = Some false -> g' = g.
Proof. destruct a; cbn; try done; by intros [= <- _]. Qed.

Lemma rw_step a a' : abs_facts a -> rw_ok a -> astep a a' -> rw_ok a'.
Proof.
  intros F [H1 H2 H3 H4] St.
  assert (Hs : forall t, shape (acode a' t))
    by (apply (shape_astep shape rw_shape_call rw_shape_act a); done).
  assert (Hb : bracketed readerLock needs a')
    by (apply (bracketed_step readerLock needs) with (a := a); try done; apply rw_act_brk).
  constructor; try done.
  - destruct St as [t c r C1 C2 E|t x r g' p C1 C2 E|n g' []]; destruct E as (_ & _ & -> & _); [done|].
    cbn. by rewrite (act_len _ _ _ _ _ C2).
  - intros n u Hn Hf. pose proof Hf as Hf'.
    destruct St as [t c r C1 C2 E|t x r g' p C1 C2 E|? g' []]; destruct E as (_ & _ & -> & E4);
      rewrite E4 in Hf; cbn in Hf |- *; unfold code_upd in Hf;
      destruct (decide (u = t)) as [->|Hne]; try by eapply H4.
    + exfalso. eapply shape_not_first; [|exact Hf]. rewrite <- C1. apply H1.
    + eapply act_first; [done| |exact C2|exact Hf]. rewrite <- C1. apply H1.
    + rewrite <- (H4 n u Hn Hf). f_equal. eapply act_count; [exact C2|].
      destruct (needs x) as [[]|] eqn:Hx; [|done|by destruct x].
      pose proof (need_holder readerLock needs a t x r true H2 C1 Hx) as Ht.
      apply bool_decide_eq_true_1 in Ht. pose proof (first_holder n a u H2 Hf). congruence.
Qed.

(** The conservation laws of one file. *)
Section Laws.
Variable n : Z.
Hypothesis Hn : sec_ok n.

Lemma flat_weights (p : list (stmt rw_code)) os :
  writes n (flat p ++ oplist os) = bal (w_semap n) w_none (flat p) /\
  reads n (flat p ++ oplist os) = - bal (fun _ => 0) (w_reads n) (flat p).
Proof.
  destruct (oplist_weights n os) as [E1 E2]. unfold writes, reads in *. rewrite !bal_app. lia.
Qed.

Lemma keeps_writes a (t : nat) r g g' p :
  shape (IA a :: r) -> act a t g = Ok (g', p) ->
  busy n g + w_none a = busy n g' + bal (w_semap n) w_none (flat p).
Proof.
  intros Sh Ha. unfold busy, w_none at 1.
  destruct (shape_IA a r Sh)
    as (os & Hos & [(o & -> & Ho & ->)|(m & Hm & [[-> ->]|[[-> ->]|[[-> ->]|[-> ->]]]])]); cbn in Ha.
  - injection Ha as <- <-. destruct (body_weights n Hn o os Ho) as [E _].
    rewrite (proj1 (flat_weights _ os)) in E. lia.
  - destruct (arr_get g m) as [x|] eqn:Ex; [cbn in Ha|done].
    destruct (arr_set g m (x + 1)) as [g1|] eqn:Es; [cbn in Ha|done]. injection Ha as <- <-.
    rewrite (count_set n Hn _ _ _ _ Es).
    assert (E : bal (w_semap n) w_none (flat (if x + 1 =? 1 then [Call [CP (readerWriterSemap m) false]] else []))
      = if (x + 1 =? 1) && (m =? n) then -1 else 0).
    { destruct (x + 1 =? 1); [|done].
      change (- w_semap n (100 + Z.to_nat m) + 0 = if m =? n then -1 else 0).
      rewrite semap_eq by done. by destruct (m =? n). }
    rewrite E. destruct (Z.eqb_spec m n) as [->|]; [|rewrite andb_false_r; lia].
    rewrite (count_get n g x Ex). destruct (Z.eqb_spec (x + 1) 1), (Z.ltb_spec 0 x), (Z.ltb_spec 0 (x + 1)); cbn; lia.
  - injection Ha as <- <-. unfold bal, flat. cbn. lia.
  - destruct (arr_get g m) as [x|] eqn:Ex; [cbn in Ha|done].
    destruct (arr_set g m (x - 1)) as [g1|] eqn:Es; [cbn in Ha|done]. injection Ha as <- <-.
    rewrite (count_set n Hn _ _ _ _ Es).
    assert (E : bal (w_semap n) w_none (flat (if x - 1 =? 0 then [Call [CV (readerWriterSemap m)]] else []))
      = if (x - 1 =? 0) && (m =? n) then 1 else 0).
    { destruct (x - 1 =? 0); [|done].
      change (w_semap n (100 + Z.to_nat m) + 0 = if m =? n then 1 else 0).
      rewrite semap_eq by done. by destruct (m =? n). }
    rewrite E. destruct (Z.eqb_spec m n) as [->|]; [|rewrite andb_false_r; lia].
    rewrite (count_get n g x Ex). destruct (Z.eqb_spec (x - 1) 0), (Z.ltb_spec 0 x), (Z.ltb_spec 0 (x - 1)); cbn; lia.
  - injection Ha as <- <-. unfold bal, flat. cbn. lia.
Qed.

Lemma keeps_reads a (t : nat) r g g' p :
  shape (IA a :: r) -> act a t g = Ok (g', p) ->
  count n g + w_reads n a = count n g' + bal (fun _ => 0) (w_reads n) (flat p).
Proof.
  intros Sh Ha.
  destruct (shape_IA a r Sh)
    as (os & Hos & [(o & -> & Ho & ->)|(m & Hm & [[-> ->]|[[-> ->]|[[-> ->]|[-> ->]]]])]); cbn in Ha.
  - injection Ha as <- <-. destruct (body_weights n Hn o os Ho) as [_ E].
    rewrite (proj2 (flat_weights _ os)) in E. cbn. lia.
  - destruct (arr_get g m) as [x|] eqn:Ex; [cbn in Ha|done].
    destruct (arr_set g m (x + 1)) as [g1|] eqn:Es; [cbn in Ha|done]. injection Ha as <- <-.
    rewrite (count_set n Hn _ _ _ _ Es). cbn [w_reads].
    replace (bal _ _ _) with 0 by (by destruct (x + 1 =? 1)).
    destruct (Z.eqb_spec m n) as [->|]; [|lia]. rewrite (count_get n g x Ex). lia.
  - injection Ha as <- <-. unfold bal, flat. cbn. lia.
  - destruct (arr_get g m) as [x|] eqn:Ex; [cbn in Ha|done].
    destruct (arr_set g m (x - 1)) as [g1|] eqn:Es; [cbn in Ha|done]. injection Ha as <- <-.
    rewrite (count_set n Hn _ _ _ _ Es). cbn [w_reads].
    replace (bal _ _ _) with 0 by (by destruct (x - 1 =? 0)).
    destruct (Z.eqb_spec m n) as [->|]; [|lia]. rewrite (count_get n g x Ex). lia.
  - injection Ha as <- <-. unfold bal, flat. cbn. lia.
Qed.
End Laws.

(** ** Reachable states *)

Section Reachable.
Variables (N : nat) (ops : nat -> list rw_op).
Hypothesis Hops : forall t, Forall op_ok (ops t).

Let sc := rw_script N ops.
Let g0 : list Z := replicate (Z.to_nat Disk.NumSectors) 0.

Lemma semap_nonneg n : 0 <= semap_initial n.
Proof. unfold semap_initial. by destruct (_ && _). Qed.

Lemma rw_flat_script t : flat (sc t) =
  if Nat.eqb t 0 then replicate N (IC (CFork [])) else if Nat.leb t N then oplist (ops t) else [].
Proof.
  unfold sc, rw_script. destruct (Nat.eqb t 0); [|destruct (Nat.leb t N); [|done]].
  - clear sc. induction N as [|m IH]; [done|]. cbn. rewrite flat_cons, IH. done.
  - induction (ops t) as [|o os IH]; [done|]. cbn. rewrite flat_cons, IH. done.
Qed.

Lemma script_shape t : shape (flat (sc t)).
Proof.
  rewrite rw_flat_script. destruct (Nat.eqb t 0); [constructor|].
  destruct (Nat.leb t N); [by constructor|exact (rs_ops [] (Forall_nil_2 _))].
Qed.

Lemma script_weights n t : writes n (flat (sc t)) = 0 /\ reads n (flat (sc t)) = 0.
Proof.
  rewrite rw_flat_script. destruct (Nat.eqb t 0); [|destruct (Nat.leb t N); [apply oplist_weights|done]].
  clear sc. unfold writes, reads. induction N as [|m [I1 I2]]; [done|]. unfold bal in *. cbn in *. lia.
Qed.

Lemma rw_script_ok t : Forall stmt_ok (sc t).
Proof.
  unfold sc, rw_script. destruct (Nat.eqb t 0); [by apply Forall_replicate|].
  destruct (Nat.leb t N); [|constructor]. induction (ops t); by constructor.
Qed.

Lemma script_end t : (S N <= t)%nat -> sc t = [].
Proof.
  unfold sc, rw_script. intros Ht. by destruct (Nat.eqb_spec t 0), (Nat.leb_spec t N); try lia.
Qed.

Lemma start_rw_ok : rw_ok (view (rw_start N ops)).
Proof.
  constructor.
  - intros t. change (shape (acode (view (sys_init sc semap_initial g0)) t)).
    rewrite start_code. apply script_shape.
  - intros t. change (brk readerLock needs false (acode (view (sys_init sc semap_initial g0)) t) = true).
    rewrite start_code, rw_flat_script. destruct (Nat.eqb t 0).
    + clear. by induction N.
    + destruct (Nat.leb t N); [|done]. by induction (ops t).
  - apply length_replicate.
  - intros n t Hn (off & r & E).
    change (acode (view (sys_init sc semap_initial g0)) t = IC (CP (readerWriterSemap n) off) :: IC (CRelease readerLock) :: r) in E.
    rewrite start_code, rw_flat_script in E. destruct (Nat.eqb t 0); [by destruct N|].
    destruct (Nat.leb t N); [by destruct (ops t)|done].
Qed.

Variable s : Sys (list Z) rw_code.
Hypothesis Hs : rtc sys_step (rw_start N ops) s.

Lemma reach_rw_ok : sys_ok s /\ rw_ok (view s).
Proof.
  split; [exact (reach_ok sc semap_initial g0 semap_nonneg rw_script_ok s Hs)|].
  apply (reach_invariant sc semap_initial g0 semap_nonneg rw_script_ok rw_ok); [| | |exact Hs].
  - apply rw_ok_equiv.
  - apply rw_step.
  - apply start_rw_ok.
Qed.

(** The laws of file [n]: one unit for the writers or the readers together, and
    a count of the readers. *)
Lemma reach_laws n : sec_ok n ->
  value (kern s) (readerWriterSemap n) + busy n (glob s) + zsum (fun t => writes n (code s t)) (S N) = 1 /\
  count n (glob s) = zsum (fun t => reads n (code s t)) (S N) /\
  forall t, (S N <= t)%nat -> code s t = [].
Proof.
  intros Hn.
  assert (Hc : count n g0 = 0).
  { unfold count, g0, sec_ok in *. by rewrite lookup_replicate_2 by lia. }
  destruct (reach_weight shape (S N) sc semap_initial g0 semap_nonneg rw_shape_call rw_shape_act script_shape
    rw_script_ok script_end (w_semap n) [(100 + Z.to_nat n)%nat] (busy n) w_none s) as [W1 We]; [..|exact Hs|].
  { apply keeps_one. intros m. unfold w_semap. destruct (Nat.eqb_spec m (100 + Z.to_nat n)); auto. }
  { by apply keeps_writes. }
  { by intros ? ? ? []. }
  { intros t. apply (script_weights n t). }
  destruct (reach_weight shape (S N) sc semap_initial g0 semap_nonneg rw_shape_call rw_shape_act script_shape
    rw_script_ok script_end (fun _ => 0) [] (count n) (w_reads n) s) as [W2 _]; [..|exact Hs|].
  { split; [apply NoDup_nil_2|done]. }
  { by apply keeps_reads. }
  { by intros ? ? ? []. }
  { intros t. pose proof (script_weights n t) as [_ E]. unfold reads in E. lia. }
  splits; [| |done].
  - unfold semsum in W1. cbn [foldr] in W1. rewrite (semap_eq n Hn n Hn), Z.eqb_refl in W1.
    assert (semap_initial (100 + Z.to_nat n) = 1) as E.
    { unfold semap_initial, sec_ok in *. rewrite (proj2 (Nat.leb_le _ _)) by lia.
      by rewrite (proj2 (Nat.ltb_lt _ _)) by lia. }
    rewrite E in W1. unfold busy in W1 at 2. rewrite Hc in W1. unfold writes, readerWriterSemap. cbn in W1 |- *. lia.
  - unfold reads. rewrite zsum_opp. unfold semsum in W2. cbn [foldr] in W2. lia.
Qed.
End Reachable.

(** ** Exclusion *)

Section Exclusion.
Variables (N : nat) (ops : nat -> list rw_op).
Hypothesis Hops : forall t, Forall op_ok (ops t).
Variable s : Sys (list Z) rw_code.
Hypothesis Hs : rtc sys_step (rw_start N ops) s.
Variable n : Z.
Hypothesis Hn : sec_ok n.

Let f t := writes n (code s t).

Lemma below_N t : f t <> 0 \/ reads n (code s t) <> 0 -> (t < S N)%nat.
Proof.
  destruct (reach_laws N ops Hops s Hs n Hn) as (_ & _ & He). intros Hf.
  destruct (Nat.lt_ge_cases t (S N)) as [|Hge]; [done|]. unfold f in Hf. rewrite (He t Hge) in Hf.
  by destruct Hf.
Qed.

Lemma negative_holder t : f t < 0 ->
  f t = -1 /\ reads n (code s t) = 1 /\ first_waits n (code s t) /\
  heldthread (kern s) readerLock = Some t.
Proof.
  destruct (reach_rw_ok N ops Hops s Hs) as [_ [Sh Bk _ _]]. intros Hf. unfold f in *.
  pose proof (Sh t : shape (code s t)) as Sht.
  destruct (shape_weights n Hn _ Sht) as [_ [Hw|(Hw & Hr & Hp)]]; [lia|].
  splits; try done. by apply (first_holder n (view s)).
Qed.

(** Leaving one thread out, no other counts for less than nothing. *)
Lemma sum_bounds : exists p,
  (forall u, u <> p -> 0 <= f u) /\
  (0 <= f p \/ (f p = -1 /\ reads n (code s p) = 1 /\ count n (glob s) = 1)).
Proof.
  destruct (reach_rw_ok N ops Hops s Hs) as [_ [_ _ _ Fw]].
  exists (default 0%nat (heldthread (kern s) readerLock)). split.
  - intros u Hu. destruct (Z.neg_nonneg_cases (f u)) as [Hf|]; [|done].
    destruct (negative_holder u Hf) as (_ & _ & _ & Hh). by rewrite Hh in Hu.
  - destruct (Z.neg_nonneg_cases (f (default 0%nat (heldthread (kern s) readerLock)))) as [Hf|]; [right|by left].
    destruct (negative_holder _ Hf) as (H1 & H2 & H3 & _). splits; try done. by eapply Fw.
Qed.

Lemma exclusive t u : t <> u -> f t = 1 ->
  ~ (f u = 1) /\ ~ (f u = 0 /\ reads n (code s u) = 1).
Proof.
  intros Hne Ht. destruct (reach_rw_ok N ops Hops s Hs) as [Hok [Sh _ _ _]].
  destruct (reach_laws N ops Hops s Hs n Hn) as (W & C & _).
  pose proof (so_sem _ Hok (readerWriterSemap n)) as [V0 _].
  assert (Hr : forall x, (x < S N)%nat -> 0 <= reads n (code s x))
    by (intros x _; apply (shape_weights n Hn _ (Sh x))).
  assert (Ht' : (t < S N)%nat) by (apply below_N; lia).
  destruct sum_bounds as (p & Hp & Hc).
  set (g := fun x => if decide (x = p) then Z.max 0 (f p) else f x).
  assert (Hg : forall x, (x < S N)%nat -> 0 <= g x)
    by (intros x _; unfold g; destruct (decide (x = p)); [lia|auto]).
  assert (Hgf : forall x, f x = 1 -> g x = 1)
    by (intros x Hx; unfold g; destruct (decide (x = p)) as [->|]; lia).
  assert (Hsum : zsum g (S N) - 1 <= zsum f (S N) /\ (0 <= f p -> zsum g (S N) = zsum f (S N))).
  { destruct (Nat.lt_ge_cases p (S N)) as [Hlt|Hge].
    - rewrite (zsum_change f g (S N) p Hlt) by (intros x Hx; unfold g; by rewrite decide_False).
      unfold g. rewrite decide_True by done. lia.
    - rewrite (zsum_ext g f); [lia|]. intros x Hx. unfold g. by rewrite decide_False by lia. }
  change (zsum (fun x => writes n (code s x)) (S N)) with (zsum f (S N)) in W.
  assert (Hb : 0 <= busy n (glob s) <= 1) by apply b2z_range.
  assert (H1 : 1 <= zsum g (S N)).
  { rewrite <- (Hgf t Ht). by apply zsum_ge. }
  split.
  - intros Hu. assert (Hu' : (u < S N)%nat) by (apply below_N; lia).
    pose proof (zsum_ge2 g (S N) t u Ht' Hu' Hne Hg) as H2. rewrite !Hgf in H2 by done.
    destruct Hc as [Hc|(Hc & _ & Hcnt)]; [lia|].
    unfold busy in W. rewrite Hcnt in W. cbn [Z.ltb Z.compare Z.b2z] in W. lia.
  - intros [Hu0 Hu]. assert (Hu' : (u < S N)%nat) by (apply below_N; lia).
    pose proof (zsum_ge (fun x => reads n (code s x)) (S N) u Hu' Hr) as H2. cbn beta in H2.
    assert (Hbusy : busy n (glob s) = 1)
      by (unfold busy; destruct (Z.ltb_spec 0 (count n (glob s))); [done|lia]).
    destruct Hc as [Hc|(Hc & Hrp & Hcnt)]; [lia|].
    assert (p <> u) as Hpu by (intros ->; lia).
    assert (Hp' : (p < S N)%nat) by (apply below_N; lia).
    pose proof (zsum_ge2 (fun x => reads n (code s x)) (S N) p u Hp' Hu' Hpu Hr) as H3. cbn beta in H3. lia.
Qed.
End Exclusion.

(** ** Nobody is left behind *)

Lemma rw_shape_P x off r : shape (IC (CP x off) :: r) ->
  (x = SLock readerLock /\ exists r', r = IC (CHold readerLock false) :: r') \/
  exists n, sec_ok n /\ x = readerWriterSemap n /\
    (first_waits n (IC (CP x off) :: r) \/
     (exists r', r = IA (Writing n) :: r') /\
      forall m, sec_ok m -> writes m (IC (CP x off) :: r) = 0 /\ reads m (IC (CP x off) :: r) = 0).
Proof.
  inversion 1 as [m E|os Hos E|i o os Ho Hos E|m os Hm Hos E|m os Hm Hos E].
  - by destruct m.
  - by destruct os.
  - assert (Hw : forall k, sec_ok k -> forall p, flat (rw_body o) ++ oplist os = p ->
      writes k p = 0 /\ reads k p = 0) by (intros k Hk p <-; by apply body_weights).
    revert E Hw. destruct o as [m|m]; rewrite ?reader_eq, ?writer_eq; places; intros E Hw;
      try (by destruct os); injection E as <- <- <-.
    + left. split; [done|]. by eexists.
    + left. split; [done|]. by eexists.
    + right. exists m. split; [done|]. split; [done|]. right. split; [by eexists|].
      intros k Hk. by apply Hw.
  - right. exists m. split; [done|]. split; [done|]. left. by eexists _, _.
Qed.

Lemma rw_shape_no_wait c l r : ~ shape (IC (CWait c l) :: r).
Proof.
  inversion 1 as [m E|os Hos E|i o os Ho Hos E|m os Hm Hos E|m os Hm Hos E].
  - by destruct m.
  - by destruct os.
  - revert E. destruct o as [m|m]; rewrite ?reader_eq, ?writer_eq; places; by destruct os.
Qed.

Lemma brk_main b m : brk readerLock needs b (replicate m (IC (CFork []))) = negb b.
Proof. by induction m. Qed.

Lemma first_weight n p : sec_ok n -> shape p -> first_waits n p -> writes n p = -1.
Proof.
  intros Hn Sh (off & q & ->). revert Sh.
  inversion 1 as [m E|os Hos E|i o os Ho Hos E|m os Hm Hos E|m os Hm Hos E].
  - by destruct m.
  - by destruct os.
  - revert E. destruct o as [m|m]; rewrite ?reader_eq, ?writer_eq; places; by destruct os.
  - destruct (oplist_weights n os) as [E1 _]. unfold writes in *.
    cbn [drop app bal foldr item_bal w_none readerWriterSemap] in *. unfold bal in E1.
    rewrite semap_eq by done. assert (m = n) as -> by (unfold sec_ok in *; lia).
    rewrite Z.eqb_refl. unfold w_none in *. lia.
Qed.

Section Quiet.
Variables (N : nat) (ops : nat -> list rw_op).
Hypothesis Hops : forall t, Forall op_ok (ops t).
Variable s : Sys (list Z) rw_code.
Hypothesis Hs : rtc sys_step (rw_start N ops) s.
Hypothesis Hi : idle (kern s) = true.
Hypothesis Hr : readyList (kern s) = [].

Lemma quiet_places t :
  ((t < created (kern s))%nat /\
     (code s t = [] \/ exists x r, code s t = IC (CP x false) :: r /\ value (kern s) x = 0)) \/
  ((created (kern s) <= t)%nat /\ code s t = flat (rw_script N ops t)).
Proof.
  eapply (shape_stuck shape (rw_script N ops)); [apply semap_nonneg|apply rw_shape_call|apply rw_shape_act|
    by apply script_shape|by apply rw_script_ok|apply rw_shape_no_wait|exact Hs|done|done].
Qed.

(** A thread that does not hold the lock counts for nothing. *)
Lemma quiet_weights n t : sec_ok n -> heldthread (kern s) readerLock <> Some t ->
  writes n (code s t) = 0.
Proof.
  intros Hn Hh. destruct (reach_rw_ok N ops Hops s Hs) as [_ [Sh Bk _ _]].
  destruct (quiet_places t) as [[_ [->|(x & r & E & _)]]|[_ ->]]; [done| |by apply script_weights].
  pose proof (Sh t : shape (code s t)) as Sht. rewrite E in Sht.
  destruct (rw_shape_P _ _ _ Sht) as [[-> [r' ->]]|(m & Hm & -> & [Hf|[_ Hw]])].
  - destruct (shape_weights n Hn _ Sht) as [_ [Hw|(_ & _ & off & q & Eq)]]; [|done].
    rewrite E. clear Hw. revert Sht.
    inversion 1 as [k Ek|os Hos Ek|i o os Ho Hos Ek|k os Hk Hos Ek|k os Hk Hos Ek];
      [by destruct k|by destruct os|].
    revert Ek. destruct (oplist_weights n os) as [E1 _]. unfold writes in *.
    destruct o as [k|k]; rewrite ?reader_eq, ?writer_eq; places; intros Ek; try (by destruct os);
      rewrite <- Ek; cbn [app bal foldr item_bal w_none]; unfold bal in E1; unfold w_none in *; lia.
  - exfalso. apply Hh. apply (first_holder m (view s)); [done|]. cbn. by rewrite E.
  - rewrite E. by apply Hw.
Qed.

(** Nobody holds the lock: its holder could only wait for writers, and there
    are none. *)
Lemma quiet_lock_free : heldthread (kern s) readerLock = None.
Proof.
  destruct (reach_rw_ok N ops Hops s Hs) as [Hok [Sh Bk _ Fw]].
  destruct (heldthread (kern s) readerLock) as [h|] eqn:Hh; [exfalso|done].
  pose proof (Bk h) as Bh. cbn in Bh. rewrite Hh, bool_decide_eq_true_2 in Bh by done.
  destruct (quiet_places h) as [[_ [E|(x & r & E & V0)]]|[_ E]].
  - by rewrite E in Bh.
  - pose proof (Sh h : shape (code s h)) as Shh. rewrite E in Bh, Shh.
    destruct (rw_shape_P _ _ _ Shh) as [[-> [r' ->]]|(m & Hm & -> & [Hf|[[r' ->] _]])]; [done| |done].
    rewrite <- E in Hf, Shh. pose proof (Fw m h Hm Hf) as Hc. cbn in Hc.
    destruct (reach_laws N ops Hops s Hs m Hm) as (W & _ & He).
    assert (Hh' : (h < S N)%nat).
    { destruct (Nat.lt_ge_cases h (S N)) as [|Hge]; [done|]. rewrite (He h Hge) in E. done. }
    rewrite (zsum_single _ _ h Hh') in W.
    + unfold busy in W. rewrite Hc in W. cbn [Z.ltb Z.compare Z.b2z] in W. rewrite V0 in W.
      rewrite (first_weight m _ Hm Shh Hf) in W. lia.
    + intros u _ Hu. apply quiet_weights; [done|]. congruence.
  - rewrite E in Bh. rewrite (rw_flat_script N ops) in Bh. destruct (Nat.eqb h 0); [by rewrite brk_main in Bh|].
    destruct (Nat.leb h N); [by destruct (ops h)|done].
Qed.

Lemma quiet_finished t : (t < created (kern s))%nat -> code s t = [].
Proof.
  intros Ht. destruct (reach_rw_ok N ops Hops s Hs) as [Hok [Sh Bk _ _]].
  destruct (quiet_places t) as [[_ [?|(x & r & E & V0)]]|[? _]]; [done| |lia]. exfalso.
  pose proof (Sh t : shape (code s t)) as Sht. rewrite E in Sht.
  assert (Hfree : value (kern s) (SLock readerLock) = 1).
  { apply (stuck_lock_free s readerLock Hok quiet_lock_free). intros u Hu.
    destruct (quiet_places u) as [[_ [?|(y & q & Ey & _)]]|[? _]]; [by left|right; eauto|lia]. }
  destruct (rw_shape_P _ _ _ Sht) as [[-> _]|(m & Hm & -> & Hrest)]; [lia|].
  destruct (reach_laws N ops Hops s Hs m Hm) as (W & C & _).
  rewrite (zsum_ext _ (fun _ => 0)), zsum_zero in W.
  2:{ intros u _. apply quiet_weights; [done|]. by rewrite quiet_lock_free. }
  rewrite (zsum_ext _ (fun _ => 0)), zsum_zero in C.
  2:{ intros u _. destruct (quiet_places u) as [[_ [->|(y & q & Ey & Vy)]]|[_ ->]];
        [done| |by apply script_weights].
      pose proof (Sh u : shape (code s u)) as Shu. rewrite Ey in Shu.
      destruct (rw_shape_P _ _ _ Shu) as [[-> _]|(k & Hk & -> & [Hf|[_ Hw]])].
      - lia.
      - exfalso. rewrite <- Ey in Hf. pose proof (first_holder k (view s) u Bk Hf) as Hh.
        cbn in Hh. by rewrite quiet_lock_free in Hh.
      - rewrite Ey. by apply Hw. }
  unfold busy in W. rewrite C in W. cbn in W, V0. lia.
Qed.
End Quiet.

(** C9: The readers/writers protocol of SynchDisk is correct for any number of
    threads and files.  Whatever the time slices, in every reachable state: a
    thread that writes a file is the only one that uses it; the running thread
    can always go on, so that no access to the counters is out of range; and
    when nothing is left to run, every thread has finished: the protocol never
    deadlocks. *)
Theorem readers_writers_exclusive N ops s :
  (forall t, Forall op_ok (ops t)) -> rtc sys_step (rw_start N ops) s ->
  (forall n t u r r', t <> u -> code s t = IA (Writing n) :: r ->
     code s u <> IA (Writing n) :: r' /\ code s u <> IA (Reading n) :: r') /\
  (idle (kern s) = false -> exists s', sys_step s s') /\
  (idle (kern s) = true -> readyList (kern s) = [] ->
     forall t, (t < created (kern s))%nat -> code s t = []).
Proof.
  intros Hops Hs. destruct (reach_rw_ok N ops Hops s Hs) as [Hok [Sh Bk Hl _]].
  assert (Hsec : forall t a r n, code s t = IA a :: r -> (a = Writing n \/ a = Enter n \/ a = Leave n) -> sec_ok n).
  { intros t a r n E Ha. pose proof (Sh t : shape (code s t)) as Sht. rewrite E in Sht.
    destruct (shape_IA _ _ Sht)
      as (os & _ & [(o & -> & _)|(m & Hm & [[-> _]|[[-> _]|[[-> _]|[-> _]]]])]); naive_solver. }
  splits.
  - intros n t u r r' Hne Ht. pose proof (Hsec t _ _ n Ht (or_introl eq_refl)) as Hn.
    pose proof (Sh t : shape (code s t)) as Sht. rewrite Ht in Sht.
    destruct (exclusive N ops Hops s Hs n Hn t u Hne) as [H1 H2];
      [rewrite Ht; by apply writing_writes|].
    pose proof (Sh u : shape (code s u)) as Shu. split; intros Hu; rewrite Hu in *.
    + apply H1. by apply writing_writes.
    + apply H2. split; [|by apply reading_reads]. by apply reading_writes.
  - intros Hi. destruct (sys_progress s Hok Hi) as [|(a & r & e & Hc & Hf)]; [done|exfalso].
    assert (Hg : forall n, sec_ok n -> exists x, arr_get (glob s) n = Ok x).
    { intros n Hn. cbn in Hl. unfold sec_ok in Hn.
      destruct (lookup_lt_is_Some_2 (glob s) (Z.to_nat n)) as [x E]; [lia|].
      exists x. apply arr_get_in; [lia|done]. }
    assert (Hset : forall n x, sec_ok n -> exists g', arr_set (glob s) n x = Ok g').
    { intros n x Hn. cbn in Hl. unfold sec_ok in Hn. eexists. apply arr_set_in. lia. }
    destruct a as [o|n|n|n|n]; cbn in Hf; try done;
      (assert (Hn : sec_ok n) by (eapply Hsec; [exact Hc|auto]));
      destruct (Hg n Hn) as [x Ex]; rewrite Ex in Hf; cbn in Hf.
    + destruct (Hset n (x + 1) Hn) as [g' Es]. by rewrite Es in Hf.
    + destruct (Hset n (x - 1) Hn) as [g' Es]. by rewrite Es in Hf.
  - intros Hi Hr t. by apply (quiet_finished N ops).
Qed.

(** Two threads read the same file while a third waits to write it. *)
Definition demo_ops (t : nat) : list rw_op :=
  match t with
  | 1%nat | 2%nat => [ReadFile 1; WriteFile 1]
  | 3%nat => [WriteFile 1]
  | _ => []
  end.

Definition no_device (g : list Z) : option (nat * list Z) := None.

(** Every thread loses the processor at every third step, and then none does. *)
Definition demo_at (n m : nat) : Sys (list Z) rw_code :=
  sys_go no_device m
    (default (rw_start 3 demo_ops)
       (sys_run no_device (concat (replicate n [Go; Go; Slice])) (rw_start 3 demo_ops))).

Lemma rw_demo_reach n m : rtc sys_step (rw_start 3 demo_ops) (demo_at n m).
Proof.
  unfold demo_at. destruct (sys_run no_device _ _) as [s|] eqn:E; cbn.
  - etrans; [by eapply sys_run_steps; [|exact E]|by apply sys_go_steps].
  - by apply sys_go_steps.
Qed.

Lemma readers_writers_exclusive_witness :
  (exists r, code (demo_at 15 0) 2 = IA (Reading 1) :: r) /\
  code (demo_at 15 300) 1 = [] /\ code (demo_at 15 300) 2 = [] /\ code (demo_at 15 300) 3 = [].
Proof.
  split; [vm_compute; eauto|].
  destruct (readers_writers_exclusive 3 demo_ops (demo_at 15 300)) as (_ & _ & Hq);
    [|apply rw_demo_reach|].
  - intros [|[|[|[|t]]]]; repeat constructor; done.
  - splits; apply Hq; vm_compute; (reflexivity || lia).
Defined.
