(* ===== verification/ThreadTest.v ===== *)
(** * threads/threadtest.cc: the test programs of the thread system

    The programs run by the threads, and the routines [ThreadTest1] to
    [ThreadTest5] that fork them, as a client of Client.v.  A loop is a piece
    of code whose local variables are its arguments; what a routine does
    between two kernel calls is one piece of code.  What the programs print is
    left out. *)
From S2P Require Import Prelude Threads Client.
From Stdlib Require Import ZArith Lia List Bool.
From stdpp Require Import base tactics list numbers functions relations gmap.
Local Open Scope Z_scope.

(** ** Data: the globals of the file *)

Definition mutex : sid := SUser 10.
Definition empty : sid := SUser 11.
Definition full : sid := SUser 12.
Definition chopsticks (i : Z) : sid := SUser (20 + Z.to_nat i).
Definition pro_con_lock : nat := 11.
Definition con : nat := 11.
Definition barrier_lock : nat := 12.
Definition barrier_cond : nat := 12.

(** The initial values of the semaphores. *)
Definition initial (n : nat) : Z :=
  match n with
  | 10%nat => 1 | 11%nat => 10 | 12%nat => 0
  | 20%nat | 21%nat | 22%nat | 23%nat => 1
  | _ => 0
  end.

Record Globals := mkGlobals {
  itemnum : Z;
  countnum : Z;
  barrier_flag : list Z }.

Definition globals0 : Globals := mkGlobals 0 0 [0; 0; 0; 0].

Definition set_itemnum v g := mkGlobals v (countnum g) (barrier_flag g).
Definition set_countnum v g := mkGlobals (itemnum g) v (barrier_flag g).
Definition set_barrier_flag l g := mkGlobals (itemnum g) (countnum g) l.

(** ** Code *)

(** [Produce] and [Consume]: [itemnum++] and [itemnum--]; [Meal]: the
    philosopher eats.  [Rounds n]: the [n] more rounds of the loop in which a
    test yields. *)
Inductive code_of :=
| SimpleThread (which num : Z)
| Producer_semaphore (which loop : Z)
| Consumer_semaphore (which loop : Z)
| Producer_cond (which loop : Z)
| Consumer_cond (which loop : Z)
| Consume_check
| Produce
| Consume
| Philosopher_deadlock (which i : Z)
| Philosopher (which i : Z)
| Meal (which : Z)
| barrier_function (which i thiscountnum : Z)
| barrier_inner (which i thiscountnum : Z)
| barrier_arrive (which : Z)
| barrier_leave (which thiscountnum : Z)
| init_flag
| Rounds (n : nat).

Definition yield : cmd := CYield.

Definition left_of (which : Z) : Z := (which - 1 + 4) mod 4.

Definition server_get (which : Z) : list cmd :=
  [CP (chopsticks (left_of which)) false; yield; CP (chopsticks which) false].

Definition server_ret (which : Z) : list cmd :=
  [CV (chopsticks (left_of which)); yield; CV (chopsticks which)].

(** [barrier_flag] is an array of four. *)
Definition all_thread_ready (g : Globals) : bool := forallb (fun f => f =? 1) (barrier_flag g).

(** One round of the loop of each thread function, [[]] after the last. *)
Definition SimpleThread_loop (which num : Z) : list (stmt code_of) :=
  if num <? 5 then [Call [yield]; Act (SimpleThread which (num + 1))] else [].

Definition Producer_semaphore_loop (which loop : Z) : list (stmt code_of) :=
  if loop <=? 5 then
    [Call [CP empty false; yield; CP mutex false; yield]; Act Produce;
     Call [yield; CV mutex; yield; CV full]; Act (Producer_semaphore which (loop + 1))]
  else [].

Definition Consumer_semaphore_loop (which loop : Z) : list (stmt code_of) :=
  if loop <=? 10 then
    [Call [CP full false; yield; CP mutex false; yield]; Act Consume;
     Call [CV mutex; yield; CV empty]; Act (Consumer_semaphore which (loop + 1))]
  else [].

Definition Producer_cond_loop (which loop : Z) : list (stmt code_of) :=
  if loop <=? 5 then
    [Call (Acquire pro_con_lock); Call [yield]; Act Produce;
     Call [yield; CRelease pro_con_lock; yield; CBroadcast con];
     Act (Producer_cond which (loop + 1))]
  else [].

Definition Consumer_cond_loop (which loop : Z) : list (stmt code_of) :=
  if loop <=? 5 then
    [Call (Acquire pro_con_lock); Call [yield]; Act Consume_check; Call [yield]; Act Consume;
     Call [yield; CRelease pro_con_lock; yield]; Act (Consumer_cond which (loop + 1))]
  else [].

Definition Philosopher_deadlock_loop (which i : Z) : list (stmt code_of) :=
  if i <? 20 then
    [Call [CP (chopsticks (left_of which)) false; yield; CP (chopsticks which) false; yield];
     Act (Meal which);
     Call [yield; CV (chopsticks (left_of which)); yield; CV (chopsticks which); yield];
     Act (Philosopher_deadlock which (i + 1))]
  else [].

Definition Philosopher_loop (which i : Z) : list (stmt code_of) :=
  if i <? 10 then
    [Call [CP mutex false]; Call (server_get which); Call [CV mutex]; Act (Meal which);
     Call [CP mutex false]; Call (server_ret which); Call [CV mutex];
     Act (Philosopher which (i + 1))]
  else [].

(** The outer and the inner loop of [barrier_function]; [barrier_inner] goes on
    to the barrier when the inner loop ends. *)
Definition barrier_function_loop (which i thiscountnum : Z) : list (stmt code_of) :=
  if i <? 2 then [Act (barrier_inner which i thiscountnum)] else [].

Definition barrier_inner_loop (which i thiscountnum : Z) : list (stmt code_of) :=
  if thiscountnum <? 5 then [Call [yield]; Act (barrier_inner which i (thiscountnum + 1))]
  else [Call (Acquire barrier_lock); Act (barrier_arrive which);
        Act (barrier_leave which thiscountnum);
        Call [yield; CRelease barrier_lock; yield; CBroadcast barrier_cond];
        Act (barrier_function which (i + 1) which)].

(** What a thread does between two kernel calls. *)
Definition run (a : code_of) (g : Globals) : outcome (Globals * list (stmt code_of)) :=
  match a with
  | SimpleThread which num => Ok (g, SimpleThread_loop which num)
  | Producer_semaphore which loop => Ok (g, Producer_semaphore_loop which loop)
  | Consumer_semaphore which loop => Ok (g, Consumer_semaphore_loop which loop)
  | Producer_cond which loop => Ok (g, Producer_cond_loop which loop)
  | Consumer_cond which loop => Ok (g, Consumer_cond_loop which loop)
  | Consume_check => Ok (g, if itemnum g <=? 0 then [Call [CWait con pro_con_lock]] else [])
  | Produce => Ok (set_itemnum (itemnum g + 1) g, [])
  | Consume => Ok (set_itemnum (itemnum g - 1) g, [])
  | Philosopher_deadlock which i => Ok (g, Philosopher_deadlock_loop which i)
  | Philosopher which i => Ok (g, Philosopher_loop which i)
  | Meal _ => Ok (g, [])
  | barrier_function which i thiscountnum => Ok (g, barrier_function_loop which i thiscountnum)
  | barrier_inner which i thiscountnum => Ok (g, barrier_inner_loop which i thiscountnum)
  | barrier_arrive which =>
    f ← arr_set (barrier_flag g) which 1;
    let g := set_barrier_flag f g in
    Ok (g, if all_thread_ready g then [] else [Call [CWait barrier_cond barrier_lock]])
  | barrier_leave which thiscountnum =>
    f ← arr_set (barrier_flag g) which 0;
    Ok (set_barrier_flag f (set_countnum (countnum g + thiscountnum) g), [])
  | init_flag => Ok (set_barrier_flag [0; 0; 0; 0] g, [])
  | Rounds n =>
    Ok (g, match n with O => [] | S n' => [Call [yield]; Act (Rounds n')] end)
  end.

#[global] Instance test_client : Client Globals code_of := {|
  act := fun a _ g => run a g;
  dev := fun _ _ _ => False |}.

#[global] Instance test_client_ok : ClientOk Globals code_of.
Proof.
  intros a t g g' p. destruct a; cbn;
    unfold SimpleThread_loop, Producer_semaphore_loop, Consumer_semaphore_loop, Producer_cond_loop,
      Consumer_cond_loop, Philosopher_deadlock_loop, Philosopher_loop, barrier_function_loop,
      barrier_inner_loop;
    repeat first
      [ case_match
      | match goal with |- mbind _ ?m = _ -> _ => destruct m; cbn end ];
    intros [= _ <-] || intros [=]; repeat constructor.
Qed.

(** ** The tests *)

(** What the main thread does, and the threads it forks, in this order. *)
Definition test := (list (stmt code_of) * list code_of)%type.

Definition forks (n : nat) : list (stmt code_of) := replicate n (Call [CFork []]).

Definition ThreadTest1 : test := ([], []).
Definition ThreadTest2 : test :=
  (forks 4 ++ [Act (Rounds 10000)],
   [Philosopher 0 0; Philosopher 1 0; Philosopher 2 0; Philosopher 3 0]).
Definition ThreadTest3 : test :=
  (forks 4 ++ [Act (Rounds 10000)],
   [Consumer_cond 1 1; Producer_cond 1 1; Producer_cond 2 1; Consumer_cond 2 1]).
Definition ThreadTest4 : test :=
  (Act init_flag :: forks 4 ++ [Act (Rounds 10000)],
   [barrier_function 0 0 0; barrier_function 1 0 1; barrier_function 2 0 2; barrier_function 3 0 3]).
Definition ThreadTest5 : test := ([], []).

Definition ThreadTest (testnum : Z) : test :=
  if testnum =? 1 then ThreadTest1
  else if testnum =? 2 then ThreadTest2
  else if testnum =? 3 then ThreadTest3
  else if testnum =? 4 then ThreadTest4
  else if testnum =? 5 then ThreadTest5
  else ([], []).

Definition script (x : test) (t : nat) : list (stmt code_of) :=
  match t with
  | O => x.1
  | S t' => match x.2 !! t' with Some a => [Act a] | None => [] end
  end.

Definition start (x : test) : Sys Globals code_of := sys_init (script x) initial globals0.

(** ** Reachable states *)

Lemma initial_nonneg n : 0 <= initial n.
Proof. unfold initial. by repeat case_match. Qed.

Lemma no_dev (g : Globals) n g' : ~ dev g n g'.
Proof. by intros []. Qed.

(** ** Producers and consumers with semaphores *)

Section Buffer.

Definition producer (which loop : Z) : list (item code_of) :=
  flat [Call [CP empty false; yield; CP mutex false; yield]; Act Produce;
        Call [yield; CV mutex; yield; CV full]; Act (Producer_semaphore which (loop + 1))].

Definition consumer (which loop : Z) : list (item code_of) :=
  flat [Call [CP full false; yield; CP mutex false; yield]; Act Consume;
        Call [CV mutex; yield; CV empty]; Act (Consumer_semaphore which (loop + 1))].

Lemma producer_eq which loop : producer which loop =
  [IC (CP empty false); IC yield; IC (CP mutex false); IC yield; IA Produce; IC yield; IC (CV mutex);
   IC yield; IC (CV full); IA (Producer_semaphore which (loop + 1))].
Proof. done. Qed.

Lemma consumer_eq which loop : consumer which loop =
  [IC (CP full false); IC yield; IC (CP mutex false); IC yield; IA Consume; IC (CV mutex);
   IC yield; IC (CV empty); IA (Consumer_semaphore which (loop + 1))].
Proof. done. Qed.

Inductive buffer_shape : list (item code_of) -> Prop :=
| bs_main n : buffer_shape (replicate n (IC (CFork [])))
| bs_producer which loop i : buffer_shape (drop i (producer which loop))
| bs_consumer which loop i : buffer_shape (drop i (consumer which loop)).

Lemma buffer_call c r : buffer_shape (IC c :: r) -> buffer_shape r.
Proof.
  inversion 1 as [n E|which loop i E|which loop i E].
  - destruct n as [|n]; [done|]. injection E as _ <-. constructor.
  - rewrite <- (drop_next _ _ _ _ E). constructor.
  - rewrite <- (drop_next _ _ _ _ E). constructor.
Qed.

Lemma buffer_act a r : buffer_shape (IA a :: r) ->
  (exists which loop, a = Producer_semaphore which loop /\ r = []) \/
  (exists which loop, a = Consumer_semaphore which loop /\ r = []) \/
  (exists which loop, a = Produce /\ r = drop 5 (producer which loop)) \/
  (exists which loop, a = Consume /\ r = drop 5 (consumer which loop)).
Proof.
  inversion 1 as [n E|which loop i E|which loop i E].
  - by destruct n.
  - revert E. rewrite producer_eq. places; intros [= <- <-]; rewrite <- ?producer_eq; eauto 6.
    right; right; left. by exists which, loop.
  - revert E. rewrite consumer_eq. places; intros [= <- <-]; eauto 6.
    right; right; right. by exists which, loop.
Qed.

Lemma buffer_run a (t : nat) r g g' p :
  buffer_shape (IA a :: r) -> act a t g = Ok (g', p) -> buffer_shape (flat p ++ r).
Proof.
  intros Hs. destruct (buffer_act _ _ Hs)
    as [(w & l & -> & ->)|[(w & l & -> & ->)|[(w & l & -> & ->)|(w & l & -> & ->)]]]; cbn.
  - intros [= _ <-]. unfold Producer_semaphore_loop; destruct (l <=? 5); [exact (bs_producer w l 0)|exact (bs_main 0)].
  - intros [= _ <-]. unfold Consumer_semaphore_loop; destruct (l <=? 10); [exact (bs_consumer w l 0)|exact (bs_main 0)].
  - intros [= _ <-]. exact (bs_producer w l 5).
  - intros [= _ <-]. exact (bs_consumer w l 5).
Qed.

(** Three weights: of the critical section, of the items that are announced by
    [full] and of the places that are announced by [empty]. *)
Definition w_mutex (n : nat) : Z := if Nat.eqb n 10 then 1 else 0.
Definition w_full (n : nat) : Z := if Nat.eqb n 12 then -1 else 0.
Definition w_empty (n : nat) : Z := if Nat.eqb n 11 then 1 else 0.
Definition w_none (a : code_of) : Z := 0.
Definition w_item (a : code_of) : Z := match a with Produce => 1 | Consume => -1 | _ => 0 end.

Definition inside (p : list (item code_of)) : Z := bal w_mutex w_none p.
Definition hidden (p : list (item code_of)) : Z := - bal w_full w_item p.
Definition reserved (p : list (item code_of)) : Z := bal w_empty w_item p.

Lemma keeps_weights : keeps w_mutex [10%nat] /\ keeps w_full [12%nat] /\ keeps w_empty [11%nat].
Proof.
  splits; apply keeps_one; intros n; unfold w_mutex, w_full, w_empty;
    match goal with |- context [Nat.eqb ?a ?b] => destruct (Nat.eqb_spec a b); auto end.
Qed.

Lemma main_weights n :
  let p := replicate n (IC (CFork [])) in inside p = 0 /\ hidden p = 0 /\ reserved p = 0.
Proof.
  unfold inside, hidden, reserved. induction n as [|n (I1 & I2 & I3)]; [done|].
  unfold bal in *. cbn in *. splits; lia.
Qed.

Lemma buffer_bounds p : buffer_shape p ->
  0 <= inside p <= 1 /\ 0 <= hidden p <= 1 /\ 0 <= reserved p <= 1.
Proof.
  intros [n|which loop i|which loop i].
  - destruct (main_weights n) as (-> & -> & ->). lia.
  - rewrite producer_eq. places; repeat split; vm_compute; by try intros ?.
  - rewrite consumer_eq. places; repeat split; vm_compute; by try intros ?.
Qed.

(** A thread about to wait is in no critical section, and if it waits for
    [empty] or [full] it has nothing under way. *)
Lemma buffer_wait x off r : buffer_shape (IC (CP x off) :: r) ->
  (x = mutex \/ (x = empty /\ hidden (IC (CP x off) :: r) = 0) \/ (x = full /\ reserved (IC (CP x off) :: r) = 0)) /\
  inside (IC (CP x off) :: r) = 0 /\
  (x <> mutex -> hidden (IC (CP x off) :: r) = 0 /\ reserved (IC (CP x off) :: r) = 0).
Proof.
  inversion 1 as [n E|which loop i E|which loop i E].
  - by destruct n.
  - revert E. rewrite producer_eq. places; intros [= <- <- <-]; splits; auto; by intros [].
  - revert E. rewrite consumer_eq. places; intros [= <- <- <-]; splits; auto; by intros [].
Qed.

(** The thread changes [itemnum]. *)
Definition critical (p : list (item code_of)) : Prop :=
  exists a r, p = IA a :: r /\ (a = Produce \/ a = Consume).

Lemma critical_inside p : buffer_shape p -> critical p -> inside p = 1.
Proof.
  intros Hs (a & r & -> & Ha).
  destruct (buffer_act _ _ Hs) as [(w & l & -> & ->)|[(w & l & -> & ->)|[(w & l & -> & ->)|(w & l & -> & ->)]]];
    destruct Ha as [?|?]; done.
Qed.

(** Producers and consumers, in any number. *)
Definition role (x : bool * Z) : code_of :=
  if x.1 then Producer_semaphore x.2 1 else Consumer_semaphore x.2 1.

Definition buffer_test (roles : list (bool * Z)) : test :=
  (forks (length roles), role <$> roles).

Section Reachable.
Variable roles : list (bool * Z).
Let sc := script (buffer_test roles).
Let N := S (length roles).

Lemma flat_forks n : flat (forks n) = replicate n (IC (CFork [])).
Proof.
  induction n as [|n IH]; [done|]. change (forks (S n)) with (Call [CFork []] :: forks n).
  rewrite flat_cons, IH. done.
Qed.

Lemma buffer_script t :
  buffer_shape (flat (sc t)) /\ inside (flat (sc t)) = 0 /\ hidden (flat (sc t)) = 0 /\
  reserved (flat (sc t)) = 0.
Proof.
  unfold sc, script. destruct t as [|t]; cbn [buffer_test fst snd].
  - rewrite flat_forks. split; [constructor|apply main_weights].
  - rewrite list_lookup_fmap. destruct (roles !! t) as [[[] w]|]; cbn.
    + split; [exact (bs_producer w 0 9)|done].
    + split; [exact (bs_consumer w 0 8)|done].
    + split; [exact (bs_main 0)|done].
Qed.

Lemma buffer_script_ok t : Forall stmt_ok (sc t).
Proof.
  unfold sc, script. destruct t as [|t]; cbn [buffer_test fst snd].
  - by apply Forall_replicate.
  - rewrite list_lookup_fmap. destruct (roles !! t); by repeat constructor.
Qed.

Lemma buffer_script_end t : (N <= t)%nat -> sc t = [].
Proof.
  unfold sc, N, script. destruct t as [|t]; [lia|]. intros Ht. cbn [buffer_test snd].
  by rewrite list_lookup_fmap, lookup_ge_None_2 by lia.
Qed.

Variable s : Sys Globals code_of.
Hypothesis Hs : rtc sys_step (start (buffer_test roles)) s.

Lemma buffer_keeps w gm wa :
  (forall g, gm (set_itemnum (itemnum g + 1) g) = gm g + wa Produce) ->
  (forall g, gm (set_itemnum (itemnum g - 1) g) = gm g + wa Consume) ->
  (forall w' l, wa (Producer_semaphore w' l) = 0 /\ wa (Consumer_semaphore w' l) = 0) ->
  (forall w' l, bal w wa (producer w' l) = 0 /\ bal w wa (consumer w' l) = 0) ->
  forall a (t : nat) r g g' p, buffer_shape (IA a :: r) -> act a t g = Ok (g', p) ->
  gm g + wa a = gm g' + bal w wa (flat p).
Proof.
  intros G1 G2 G3 G4 a t r g g' p Sh.
  destruct (buffer_act _ _ Sh) as [(w' & l & -> & ->)|[(w' & l & -> & ->)|[(w' & l & -> & ->)|(w' & l & -> & ->)]]];
    cbn; intros [= <- <-].
  - destruct (G3 w' l) as [-> _], (G4 w' l) as [B _]. unfold producer in B.
    unfold Producer_semaphore_loop; destruct (l <=? 5); [rewrite B; lia|unfold flat; cbn; lia].
  - destruct (G3 w' l) as [_ ->], (G4 w' l) as [_ B]. unfold consumer in B.
    unfold Consumer_semaphore_loop; destruct (l <=? 10); [rewrite B; lia|unfold flat; cbn; lia].
  - rewrite G1. unfold flat. cbn. lia.
  - rewrite G2. unfold flat. cbn. lia.
Qed.

Lemma buffer_reach :
  sys_ok s /\ (forall t, buffer_shape (code s t)) /\ (forall t, (N <= t)%nat -> code s t = []) /\
  value (kern s) mutex + zsum (fun t => inside (code s t)) N = 1 /\
  itemnum (glob s) = value (kern s) full + zsum (fun t => hidden (code s t)) N /\
  itemnum (glob s) + value (kern s) empty + zsum (fun t => reserved (code s t)) N = 10.
Proof.
  destruct keeps_weights as (K1 & K2 & K3).
  assert (Hi : forall t, buffer_shape (flat (sc t))) by apply buffer_script.
  destruct (reach_shape buffer_shape sc initial globals0 initial_nonneg buffer_call buffer_run Hi buffer_script_ok s Hs) as [Hok Hsh].
  pose proof (reach_weight buffer_shape N sc initial globals0 initial_nonneg buffer_call buffer_run Hi buffer_script_ok
    buffer_script_end) as W.
  destruct (W w_mutex [10%nat] (fun _ => 0) w_none s K1) as [W1 We]; [by apply buffer_keeps|done|apply buffer_script|done|].
  destruct (W w_full [12%nat] itemnum w_item s K2) as [W2 _];
    [by apply buffer_keeps|done|intros t; destruct (buffer_script t) as (_ & _ & E & _); unfold hidden in E; lia|done|].
  destruct (W w_empty [11%nat] itemnum w_item s K3) as [W3 _]; [by apply buffer_keeps|done|apply buffer_script|done|].
  unfold semsum in W1, W2, W3. cbn [foldr] in W1, W2, W3.
  change (w_mutex 10) with 1 in W1. change (initial 10) with 1 in W1.
  change (w_full 12) with (-1) in W2. change (initial 12) with 0 in W2.
  change (w_empty 11) with 1 in W3. change (initial 11) with 10 in W3.
  change (itemnum globals0) with 0 in W2, W3.
  unfold inside, hidden, reserved, mutex, full, empty. rewrite zsum_opp. splits; try done; lia.
Qed.

Lemma buffer_no_wait c l r : ~ buffer_shape (IC (CWait c l) :: r).
Proof.
  inversion 1 as [n E|w i k E|w i k E]; [by destruct n|revert E..];
    rewrite ?producer_eq, ?consumer_eq; places.
Qed.

(** With nothing left to run the mutex is free, the buffer counts its items,
    and whoever waits has a reason to. *)
Lemma buffer_quiet : idle (kern s) = true -> readyList (kern s) = [] ->
  value (kern s) mutex = 1 /\ itemnum (glob s) = value (kern s) full /\
  itemnum (glob s) + value (kern s) empty = 10 /\
  forall t, (t < created (kern s))%nat -> code s t = [] \/
    (exists r, code s t = IC (CP empty false) :: r /\ itemnum (glob s) = 10) \/
    (exists r, code s t = IC (CP full false) :: r /\ itemnum (glob s) = 0).
Proof.
  intros Hi Hr. destruct buffer_reach as (Hok & Hsh & Hend & W1 & W2 & W3).
  pose proof (shape_stuck buffer_shape sc initial globals0 initial_nonneg buffer_call buffer_run
    (fun t => proj1 (buffer_script t)) buffer_script_ok s buffer_no_wait Hs Hi Hr) as Hst.
  assert (Hz : forall t, inside (code s t) = 0).
  { intros t. destruct (Hst t) as [[_ [->|(x & r & E & _)]]|[_ ->]]; [done| |apply buffer_script].
    specialize (Hsh t). rewrite E in *. by apply buffer_wait. }
  rewrite (zsum_ext _ (fun _ => 0)), zsum_zero in W1 by (intros; apply Hz).
  assert (Hz' : forall t, hidden (code s t) = 0 /\ reserved (code s t) = 0).
  { intros t. destruct (Hst t) as [[_ [->|(x & r & E & V0)]]|[_ ->]]; [done| |apply buffer_script].
    specialize (Hsh t). rewrite E in *. destruct (buffer_wait _ _ _ Hsh) as (_ & _ & Hw).
    apply Hw. intros ->. lia. }
  rewrite (zsum_ext _ (fun _ => 0)), zsum_zero in W2 by (intros; apply Hz').
  rewrite (zsum_ext _ (fun _ => 0)), zsum_zero in W3 by (intros; apply Hz').
  splits; [lia..|]. intros t Ht. destruct (Hst t) as [[_ [?|(x & r & E & V0)]]|[? _]]; [by left|right|lia].
  specialize (Hsh t). rewrite E in Hsh. destruct (buffer_wait _ _ _ Hsh) as ([->|[[-> _]|[-> _]]] & _).
  - lia.
  - left. exists r. split; [done|lia].
  - right. exists r. split; [done|lia].
Qed.
End Reachable.

(** C10: The producers and consumers of the semaphore version are correct.  For
    any number of them, whatever the time slices: the buffer holds between 0
    and 10 items; two threads never change [itemnum] at the same time; the
    running thread can always go on; and when nothing is left to run, [mutex]
    is free, [full] counts the items and [empty] the free places, and every
    thread has finished, or is a producer that waits at a full buffer, or a
    consumer that waits at an empty one: nobody is left behind. *)
Theorem threadtest_bounded_buffer roles s :
  rtc sys_step (start (buffer_test roles)) s ->
  0 <= itemnum (glob s) <= 10 /\
  (forall t u, critical (code s t) -> critical (code s u) -> t = u) /\
  (idle (kern s) = false -> exists s', sys_step s s') /\
  (idle (kern s) = true -> readyList (kern s) = [] ->
     value (kern s) mutex = 1 /\ itemnum (glob s) = value (kern s) full /\
     itemnum (glob s) + value (kern s) empty = 10 /\
     forall t, (t < created (kern s))%nat -> code s t = [] \/
       (exists r, code s t = IC (CP empty false) :: r /\ itemnum (glob s) = 10) \/
       (exists r, code s t = IC (CP full false) :: r /\ itemnum (glob s) = 0)).
Proof.
  intros Hs. destruct (buffer_reach roles s Hs) as (Hok & Hsh & Hend & W1 & W2 & W3).
  assert (Hv : forall x, 0 <= value (kern s) x) by (intros x; apply (so_sem _ Hok)).
  splits.
  - pose proof (zsum_nonneg (fun t => hidden (code s t)) (S (length roles))) as Z2.
    specialize (Z2 ltac:(intros; by apply buffer_bounds)). specialize (Hv full). lia.
  - pose proof (zsum_nonneg (fun t => reserved (code s t)) (S (length roles))) as Z3.
    specialize (Z3 ltac:(intros; by apply buffer_bounds)). specialize (Hv empty). lia.
  - intros t u Ct Cu. destruct (decide (t = u)) as [|Hne]; [done|exfalso].
    assert (Hlt : forall t, critical (code s t) -> (t < S (length roles))%nat).
    { intros x (a & r & E & _). destruct (Nat.lt_ge_cases x (S (length roles))) as [|Hge]; [done|].
      by rewrite (Hend x Hge) in E. }
    pose proof (zsum_ge2 (fun t => inside (code s t)) (S (length roles)) t u (Hlt t Ct) (Hlt u Cu) Hne)
      as Z1.
    specialize (Z1 ltac:(intros; by apply buffer_bounds)). cbn beta in Z1.
    rewrite !critical_inside in Z1 by done. specialize (Hv mutex). lia.
  - intros Hi. destruct (sys_progress s Hok Hi) as [|(a & r & e & Hc & Hf)]; [done|].
    specialize (Hsh (current (kern s))). rewrite Hc in Hsh.
    destruct (buffer_act _ _ Hsh) as [(w & l & -> & _)|[(w & l & -> & _)|[(w & l & -> & _)|(w & l & -> & _)]]];
      done.
  - by apply (buffer_quiet roles).
Qed.

Definition no_device (g : Globals) : option (nat * Globals) := None.

Lemma no_device_dev g n g' : no_device g = Some (n, g') -> dev g n g'.
Proof. done. Qed.

(** Two producers and one consumer: ten items for ten rounds. *)
Definition demo_roles : list (bool * Z) := [(true, 1); (true, 2); (false, 1)].

Lemma threadtest_bounded_buffer_witness :
  let s := sys_go no_device 400 (start (buffer_test demo_roles)) in
  itemnum (glob (sys_go no_device 60 (start (buffer_test demo_roles)))) = 1 /\
  value (kern s) mutex = 1 /\ code s 1 = [] /\ code s 3 = [] /\ itemnum (glob s) = value (kern s) full.
Proof.
  destruct (threadtest_bounded_buffer demo_roles (sys_go no_device 400 (start (buffer_test demo_roles))))
    as (_ & _ & _ & Hq); [apply sys_go_steps, no_device_dev|].
  destruct Hq as (H1 & H2 & _); [vm_compute; reflexivity..|].
  cbv zeta. splits; [vm_compute; reflexivity|exact H1|vm_compute; reflexivity|vm_compute; reflexivity|exact H2].
Defined.
End Buffer.

(** ** Philosophers *)

Section Dinner.

Definition dinner_deadlock (which i : Z) : list (item code_of) :=
  flat [Call [CP (chopsticks (left_of which)) false; yield; CP (chopsticks which) false; yield];
        Act (Meal which);
        Call [yield; CV (chopsticks (left_of which)); yield; CV (chopsticks which); yield];
        Act (Philosopher_deadlock which (i + 1))].

Definition dinner (which i : Z) : list (item code_of) :=
  flat [Call [CP mutex false]; Call (server_get which); Call [CV mutex]; Act (Meal which);
        Call [CP mutex false]; Call (server_ret which); Call [CV mutex];
        Act (Philosopher which (i + 1))].

Lemma dinner_deadlock_eq which i : dinner_deadlock which i =
  [IC (CP (chopsticks (left_of which)) false); IC yield; IC (CP (chopsticks which) false); IC yield;
   IA (Meal which); IC yield; IC (CV (chopsticks (left_of which))); IC yield;
   IC (CV (chopsticks which)); IC yield; IA (Philosopher_deadlock which (i + 1))].
Proof. done. Qed.

Lemma dinner_eq which i : dinner which i =
  [IC (CP mutex false); IC (CP (chopsticks (left_of which)) false); IC yield;
   IC (CP (chopsticks which) false); IC (CV mutex); IA (Meal which); IC (CP mutex false);
   IC (CV (chopsticks (left_of which))); IC yield; IC (CV (chopsticks which)); IC (CV mutex);
   IA (Philosopher which (i + 1))].
Proof. done. Qed.

Definition seat (which : Z) : Prop := 0 <= which < 4.

Inductive dinner_shape : list (item code_of) -> Prop :=
| ds_main n : dinner_shape (replicate n (IC (CFork [])))
| ds_deadlock which i k : seat which -> dinner_shape (drop k (dinner_deadlock which i))
| ds_server which i k : seat which -> dinner_shape (drop k (dinner which i)).

Lemma dinner_call c r : dinner_shape (IC c :: r) -> dinner_shape r.
Proof.
  inversion 1 as [n E|which i k Hw E|which i k Hw E].
  - destruct n as [|n]; [done|]. injection E as _ <-. constructor.
  - rewrite <- (drop_next _ _ _ _ E). by constructor.
  - rewrite <- (drop_next _ _ _ _ E). by constructor.
Qed.

Lemma dinner_act a r : dinner_shape (IA a :: r) -> exists which i, seat which /\
  ((a = Philosopher_deadlock which i /\ r = []) \/ (a = Philosopher which i /\ r = []) \/
   (a = Meal which /\ (r = drop 5 (dinner_deadlock which i) \/ r = drop 6 (dinner which i)))).
Proof.
  inversion 1 as [n E|which i k Hw E|which i k Hw E].
  - by destruct n.
  - revert E. rewrite dinner_deadlock_eq. places; intros [= <- <-].
    + exists which, i. auto 6.
    + exists which, (i + 1). auto.
  - revert E. rewrite dinner_eq. places; intros [= <- <-].
    + exists which, i. auto 6.
    + exists which, (i + 1). auto.
Qed.

Lemma dinner_run a (t : nat) r g g' p :
  dinner_shape (IA a :: r) -> act a t g = Ok (g', p) -> dinner_shape (flat p ++ r).
Proof.
  intros Hs. destruct (dinner_act _ _ Hs)
    as (w & i & Hw & [[-> ->]|[[-> ->]|[-> Hr]]]); cbn; intros [= _ <-].
  - unfold Philosopher_deadlock_loop; destruct (i <? 20); [exact (ds_deadlock w i 0 Hw)|exact (ds_main 0)].
  - unfold Philosopher_loop; destruct (i <? 10); [exact (ds_server w i 0 Hw)|exact (ds_main 0)].
  - destruct Hr as [-> | ->]; [exact (ds_deadlock w i 5 Hw)|exact (ds_server w i 6 Hw)].
Qed.

(** 1 while the thread has chopstick [c]. *)
Definition w_chop (c : Z) (n : nat) : Z := if Nat.eqb n (20 + Z.to_nat c) then 1 else 0.
Definition has (c : Z) (p : list (item code_of)) : Z := bal (w_chop c) w_none p.

Lemma seat_cases which : seat which -> which = 0 \/ which = 1 \/ which = 2 \/ which = 3.
Proof. unfold seat. lia. Qed.

Lemma has_main c n : has c (replicate n (IC (CFork []))) = 0.
Proof. unfold has. induction n as [|n IH]; [done|]. unfold bal in *. cbn in *. lia. Qed.

Lemma has_bounds c p : seat c -> dinner_shape p -> 0 <= has c p <= 1.
Proof.
  intros Hc%seat_cases [n|which i k Hw%seat_cases|which i k Hw%seat_cases].
  - rewrite has_main. lia.
  - rewrite dinner_deadlock_eq.
    destruct Hc as [->|[->|[->| ->]]], Hw as [->|[->|[->| ->]]]; places; vm_compute; split; by intros ?.
  - rewrite dinner_eq.
    destruct Hc as [->|[->|[->| ->]]], Hw as [->|[->|[->| ->]]]; places; vm_compute; split; by intros ?.
Qed.

(** A philosopher who eats has both chopsticks. *)
Lemma meal_has which r : dinner_shape (IA (Meal which) :: r) -> seat which /\
  has which (IA (Meal which) :: r) = 1 /\ has (left_of which) (IA (Meal which) :: r) = 1.
Proof.
  intros Hs. destruct (dinner_act _ _ Hs) as (w & i & Hw & [[? _]|[[? _]|[[= ->] Hr]]]); try done.
  split; [done|]. apply seat_cases in Hw.
  destruct Hr as [-> | ->], Hw as [->|[->|[->| ->]]]; done.
Qed.

Lemma has_body c which i : seat c -> seat which ->
  has c (dinner_deadlock which i) = 0 /\ has c (dinner which i) = 0.
Proof.
  intros Hc%seat_cases Hw%seat_cases. rewrite dinner_deadlock_eq, dinner_eq.
  by destruct Hc as [->|[->|[->| ->]]], Hw as [->|[->|[->| ->]]].
Qed.

Definition guest (x : bool * Z) : code_of :=
  if x.1 then Philosopher x.2 0 else Philosopher_deadlock x.2 0.

Definition dinner_test (guests : list (bool * Z)) : test :=
  (forks (length guests), guest <$> guests).

Section Reachable.
Variable guests : list (bool * Z).
Hypothesis Hseats : Forall (fun x => seat x.2) guests.
Let sc := script (dinner_test guests).
Let N := S (length guests).

Lemma dinner_script t : dinner_shape (flat (sc t)) /\ forall c, seat c -> has c (flat (sc t)) = 0.
Proof.
  unfold sc, script. destruct t as [|t]; cbn [dinner_test fst snd].
  - rewrite flat_forks. split; [constructor|intros c _; apply has_main].
  - rewrite list_lookup_fmap. destruct (guests !! t) as [[[] w]|] eqn:E; cbn;
      [..|by split; [exact (ds_main 0)|]];
      rewrite Forall_lookup in Hseats; specialize (Hseats _ _ E); cbn in Hseats.
    + split; [exact (ds_server w (-1) 11 Hseats)|done].
    + split; [exact (ds_deadlock w (-1) 10 Hseats)|done].
Qed.

Lemma dinner_script_ok t : Forall stmt_ok (sc t).
Proof.
  unfold sc, script. destruct t as [|t]; cbn [dinner_test fst snd].
  - by apply Forall_replicate.
  - rewrite list_lookup_fmap. destruct (guests !! t); by repeat constructor.
Qed.

Lemma dinner_script_end t : (N <= t)%nat -> sc t = [].
Proof.
  unfold sc, N, script. destruct t as [|t]; [lia|]. intros Ht. cbn [dinner_test snd].
  by rewrite list_lookup_fmap, lookup_ge_None_2 by lia.
Qed.

Lemma dinner_reach s : rtc sys_step (start (dinner_test guests)) s ->
  sys_ok s /\ (forall t, dinner_shape (code s t)) /\ (forall t, (N <= t)%nat -> code s t = []) /\
  forall c, seat c -> value (kern s) (chopsticks c) + zsum (fun t => has c (code s t)) N = 1.
Proof.
  intros Hs. assert (Hi : forall t, dinner_shape (flat (sc t))) by apply dinner_script.
  destruct (reach_shape dinner_shape sc initial globals0 initial_nonneg dinner_call dinner_run Hi dinner_script_ok s Hs) as [Hok Hsh].
  assert (Hc : forall c, seat c ->
    value (kern s) (chopsticks c) + zsum (fun t => has c (code s t)) N = 1 /\
    forall t, (N <= t)%nat -> code s t = []).
  { intros c Hc. destruct (reach_weight dinner_shape N sc initial globals0 initial_nonneg dinner_call dinner_run Hi dinner_script_ok
      dinner_script_end (w_chop c) [(20 + Z.to_nat c)%nat] (fun _ => 0) w_none s) as [W We].
    - apply keeps_one. intros n. unfold w_chop. destruct (Nat.eqb_spec n (20 + Z.to_nat c)); auto.
    - intros a t r g g' p Sh.
      destruct (dinner_act _ _ Sh) as (w & i & Hw & [[-> ->]|[[-> ->]|[-> Hr]]]); cbn; intros [= <- <-];
        destruct (has_body c w i Hc Hw) as [B1 B2]; unfold has, dinner, dinner_deadlock in B1, B2.
      + unfold Philosopher_deadlock_loop; destruct (i <? 20); [by rewrite B1|done].
      + unfold Philosopher_loop; destruct (i <? 10); [by rewrite B2|done].
      + done.
    - done.
    - intros t. by apply dinner_script.
    - done.
    - split; [|done]. unfold semsum in W. cbn [foldr] in W.
      assert (w_chop c (20 + Z.to_nat c) = 1) as E1 by (unfold w_chop; by rewrite Nat.eqb_refl).
      assert (initial (20 + Z.to_nat c) = 1) as E2
        by (by apply seat_cases in Hc as [->|[->|[->| ->]]]).
      rewrite E1, E2 in W. unfold has, chopsticks. lia. }
  splits; try done; [by apply (Hc 0)|]. intros c Hs'. by apply Hc.
Qed.
End Reachable.

(** C11: No two neighbours eat at the same time.  Whatever the philosophers, of
    either kind, their seats and the time slices: two threads that are having
    a meal sit opposite each other; and the running thread can always go on. *)
Theorem threadtest_philosophers guests s :
  Forall (fun x => seat x.2) guests ->
  rtc sys_step (start (dinner_test guests)) s ->
  (forall t u w w' r r', t <> u -> code s t = IA (Meal w) :: r -> code s u = IA (Meal w') :: r' ->
     (w - w') mod 4 = 2) /\
  (idle (kern s) = false -> exists s', sys_step s s').
Proof.
  intros Hg Hs. destruct (dinner_reach guests Hg s Hs) as (Hok & Hsh & Hend & Hw).
  split.
  - intros t u w w' r r' Hne Ct Cu.
    pose proof (Hsh t) as St. pose proof (Hsh u) as Su. rewrite Ct in St. rewrite Cu in Su.
    apply meal_has in St as (Sw & T1 & T2). apply meal_has in Su as (Sw' & U1 & U2).
    rewrite <- Ct in T1, T2. rewrite <- Cu in U1, U2.
    assert (Hlt : forall x b q, code s x = IA b :: q -> (x < S (length guests))%nat).
    { intros x b q E. destruct (Nat.lt_ge_cases x (S (length guests))) as [|Hge]; [done|].
      by rewrite (Hend x Hge) in E. }
    assert (Hx : forall c, seat c -> has c (code s t) + has c (code s u) <= 1).
    { intros c Hc. pose proof (zsum_ge2 (fun t => has c (code s t)) (S (length guests)) t u
        (Hlt _ _ _ Ct) (Hlt _ _ _ Cu) Hne) as Z2.
      specialize (Z2 ltac:(intros; by apply has_bounds)). cbn beta in Z2.
      specialize (Hw c Hc). pose proof (so_sem _ Hok (chopsticks c)) as [V0 _]. lia. }
    assert (Hl : forall x, seat x -> seat (left_of x)) by (intros x _; exact (Z.mod_pos_bound (x - 1 + 4) 4 eq_refl)).
    assert (N1 : w <> w') by (intros ->; specialize (Hx w' Sw'); lia).
    assert (N2 : w <> left_of w') by (intros E; specialize (Hx w Sw); rewrite <- E in U2; lia).
    assert (N3 : w' <> left_of w) by (intros E; specialize (Hx w' Sw'); rewrite <- E in T2; lia).
    apply seat_cases in Sw, Sw'. unfold left_of in *.
    destruct Sw as [->|[->|[->| ->]]], Sw' as [->|[->|[->| ->]]]; done.
  - intros Hi. destruct (sys_progress s Hok Hi) as [|(a & r & e & Hc & Hf)]; [done|].
    specialize (Hsh (current (kern s))). rewrite Hc in Hsh.
    by destruct (dinner_act _ _ Hsh) as (w & i & _ & [[-> _]|[[-> _]|[-> _]]]).
Qed.
End Dinner.

(** ** Particular runs *)

Section RunsOfTests.

(** The run without time slices. *)
Definition outcome_of (x : test) : Sys Globals code_of := sys_go no_device 60000 (start x).

(** The run with one time slice, after [n] steps. *)
Definition sliced (n : nat) (x : test) : Sys Globals code_of :=
  match sys_next no_device Slice (sys_go no_device n (start x)) with
  | Some s => sys_go no_device 60000 s
  | None => start x
  end.

(** The run in which thread [u] loses the processor whenever another thread is
    ready. *)
Fixpoint starved (u n : nat) (s : Sys Globals code_of) : Sys Globals code_of :=
  match n with
  | O => s
  | S n' =>
    let c := if Nat.eqb (current (kern s)) u && interruptible (kern s) &&
                negb (bool_decide (readyList (kern s) = [])) then Slice else Go in
    match sys_next no_device c s with Some s' => starved u n' s' | None => s end
  end.

Lemma outcome_reach x : rtc sys_step (start x) (outcome_of x).
Proof. apply sys_go_steps, no_device_dev. Qed.

Lemma sliced_reach n x : rtc sys_step (start x) (sliced n x).
Proof.
  unfold sliced. destruct (sys_next no_device Slice _) as [s|] eqn:E; [|apply rtc_refl].
  etrans; [apply (sys_go_steps no_device no_device_dev n)|].
  eapply rtc_l; [eapply (sys_next_step no_device no_device_dev); exact E|].
  apply sys_go_steps, no_device_dev.
Qed.

Lemma starved_reach u n s : rtc sys_step s (starved u n s).
Proof.
  revert s. induction n as [|n IH]; intros s; [apply rtc_refl|]. cbn [starved].
  destruct (sys_next no_device _ s) as [s1|] eqn:E; [|apply rtc_refl].
  eapply rtc_l; [by eapply sys_next_step; [apply no_device_dev|]|apply IH].
Qed.

(** Nothing is left to run. *)
Definition halted (s : Sys Globals code_of) : bool :=
  idle (kern s) && bool_decide (readyList (kern s) = []).

(** The threads that have not finished. *)
Definition unfinished (s : Sys Globals code_of) : list nat :=
  List.filter (fun t => match code s t with [] => false | _ => true end) (seq 0 (created (kern s))).

(** Without time slices the three tests that [ThreadTest] can run to some
    purpose end, with every thread finished: the philosophers of test 2, the
    producers and consumers of test 3, whose ten items are all consumed, and
    the barrier of test 4, where each of four threads adds 5 twice.  The
    philosophers who ask no server starve, each with one chopstick. *)
Theorem threadtest_outcomes :
  (forall n, n = 2 \/ n = 3 \/ n = 4 ->
     rtc sys_step (start (ThreadTest n)) (outcome_of (ThreadTest n)) /\
     halted (outcome_of (ThreadTest n)) = true /\ unfinished (outcome_of (ThreadTest n)) = []) /\
  itemnum (glob (outcome_of (ThreadTest 3))) = 0 /\
  countnum (glob (outcome_of (ThreadTest 4))) = 40 /\
  (let s := outcome_of (forks 4 ++ [Act (Rounds 10000)],
     [Philosopher_deadlock 0 0; Philosopher_deadlock 1 0; Philosopher_deadlock 2 0;
      Philosopher_deadlock 3 0]) in
   halted s = true /\ unfinished s = [1; 2; 3; 4]%nat).
Proof.
  split.
  - intros n [->|[->| ->]]; (split; [apply outcome_reach|]); split; vm_compute; reflexivity.
  - cbv zeta. splits; vm_compute; reflexivity.
Qed.

(** One time slice is enough to break them.  Test 2: a philosopher that
    waits for a chopstick keeps the mutex, its neighbour needs the mutex to
    return the chopstick, and all four starve.  Test 4: the last thread has
    seen everybody arrive, and a thread that arrives for the next round after
    the broadcast sleeps for ever.  Test 3: a consumer that has been woken up
    does not look at the buffer again, so that with other time slices it
    takes an item that is not there and [itemnum] becomes -1. *)
Theorem threadtest_time_slices :
  (rtc sys_step (start (ThreadTest 2)) (sliced 32 (ThreadTest 2)) /\
   halted (sliced 32 (ThreadTest 2)) = true /\
   unfinished (sliced 32 (ThreadTest 2)) = [1; 2; 3; 4]%nat) /\
  (rtc sys_step (start (ThreadTest 4)) (sliced 284 (ThreadTest 4)) /\
   halted (sliced 284 (ThreadTest 4)) = true /\
   unfinished (sliced 284 (ThreadTest 4)) = [2%nat]) /\
  (rtc sys_step (start (ThreadTest 3)) (starved 3 341 (start (ThreadTest 3))) /\
   itemnum (glob (starved 3 341 (start (ThreadTest 3)))) = -1).
Proof.
  split; [|split].
  - split; [apply sliced_reach|]. split; vm_compute; reflexivity.
  - split; [apply sliced_reach|]. split; vm_compute; reflexivity.
  - split; [apply starved_reach|]. vm_compute; reflexivity.
Qed.

(** Two philosophers on opposite seats. *)
Lemma threadtest_philosophers_witness :
  let s := sys_go no_device 17 (start (dinner_test [(false, 0); (false, 2)])) in
  (exists r r', code s 1 = IA (Meal 0) :: r /\ code s 2 = IA (Meal 2) :: r') /\ (0 - 2) mod 4 = 2.
Proof.
  cbv zeta. set (s := sys_go no_device 17 _).
  destruct (threadtest_philosophers [(false, 0); (false, 2)] s) as [H _].
  - repeat constructor; done.
  - apply sys_go_steps, no_device_dev.
  - assert (H1 : exists r, code s 1 = IA (Meal 0) :: r) by (vm_compute; eauto).
    assert (H2 : exists r, code s 2 = IA (Meal 2) :: r) by (vm_compute; eauto).
    destruct H1 as [r H1], H2 as [r' H2]. split; [eauto|]. by eapply (H 1%nat 2%nat).
Defined.
End RunsOfTests.
