(* ===== verification/PostOffice.v ===== *)
(** * network/post.cc: messages between machines

    Mail boxes and the post office on top of the network device of Devices.v,
    in the sequential reading of one thread: [P] on a semaphore of value zero
    lets the outstanding interrupt of the network happen and is [Blocked] when
    there is none; a lock that is taken is [Blocked] too.  The list in a mail
    box is the queue that SynchList.v shows it to be.  [junk] is the content
    of memory that [new] returns. *)
From S2P Require Import Prelude CInt Threads Interrupt Devices.
From S2P Require ThreadSafety.
From Stdlib Require Import ZArith QArith Lia List Bool.
From stdpp Require Import base tactics list numbers functions gmap.
Local Open Scope Z_scope.

(** ** Data: post.h *)

Definition MailHeader_size : nat := 12.
Definition MaxMailSize : nat := MaxPacketSize - MailHeader_size.

Record MailHeader := mkMailHeader { mail_to : Z; mail_from : Z; mail_length : Z }.

Record Mail := mkMail { pktHdr : PacketHeader; mailHdr : MailHeader; data : list Z }.

(** The post office: the machine below it, its boxes, its address, and the
    buffer of the postal worker. *)
Record PostOffice := mkPO {
  machine : System;
  boxes : list (list Mail);
  netAddr : Z;
  buffer : list Z }.

Definition set_machine s po := mkPO s (boxes po) (netAddr po) (buffer po).
Definition set_boxes b po := mkPO (machine po) b (netAddr po) (buffer po).
Definition set_buffer b po := mkPO (machine po) (boxes po) (netAddr po) b.
Definition numBoxes (po : PostOffice) : Z := Z.of_nat (length (boxes po)).

Definition sendLock : nat := 1.

(** A routine of the machine below. *)
Definition below {A} (m : M System A) : M PostOffice A := fun po =>
  match m (machine po) with
  | Ok (a, s) => Ok (a, set_machine s po)
  | Fault e => Fault e
  end.

Lemma below_run {A} (m : M System A) po a s :
  m (machine po) = Ok (a, s) -> below m po = Ok (a, set_machine s po).
Proof. intros E. unfold below. by rewrite E. Qed.

(** The first pending interrupt with handler [h], and the others. *)
Fixpoint take_pending (h : Handler) (l : list (Z * PendingInterrupt Handler)) :
    option (list (Z * PendingInterrupt Handler)) :=
  match l with
  | [] => None
  | e :: l' =>
    match handler e.2, h with
    | NetworkSendDone, NetworkSendDone | NetworkReadPoll, NetworkReadPoll => Some l'
    | _, _ => cons e <$> take_pending h l'
    end
  end.

Section Post.
Variable rand : nat -> Z.
Variable junk : list Z.

(** [semaphore->P()], where interrupt [h] is the one that calls [V]. *)
Definition P_wait (sm : sid) (h : Handler) : M System unit :=
  k ← getw kern;
  _ ← (if value k sm =? 0 then
         s ← get;
         match take_pending h (pending s) with
         | Some l => _ ← modify (set_pending l); handler_of rand h
         | None => fail Blocked
         end
       else mret tt);
  k ← getw kern;
  if value k sm =? 0 then fail Blocked
  else modw (set_kern (set_value sm (value k sm - 1) k)).

(** [Lock::Acquire] and [Lock::Release]. *)
Definition Acquire_lock (l : nat) : M System unit :=
  k ← getw kern;
  if value k (SLock l) =? 0 then fail Blocked
  else modw (set_kern (set_heldthread l (Some (current k))
               (set_value (SLock l) (value k (SLock l) - 1) k))).
Definition Release_lock (l : nat) : M System unit :=
  modw (fun w => set_kern (Release l (kern w)) w).

(** ** Mail boxes *)

Definition Mail_Mail (pktH : PacketHeader) (mailH : MailHeader) (msgData : list Z) : outcome Mail :=
  _ ← ASSERT_ (mail_length mailH <=? Z.of_nat MaxMailSize);
  d ← bcopy msgData (Z.to_nat (mail_length mailH)) 0 (take MaxMailSize junk);
  Ok (mkMail pktH mailH d).

Definition MailBox_Put (pktH : PacketHeader) (mailH : MailHeader) (msgData : list Z)
    (box : list Mail) : outcome (list Mail) :=
  mail ← Mail_Mail pktH mailH msgData;
  Ok (box ++ [mail]).

(** The headers and the bytes copied to the caller; an empty box makes the
    caller wait. *)
Definition MailBox_Get (box : list Mail) :
    outcome ((PacketHeader * MailHeader * list Z) * list Mail) :=
  match box with
  | [] => Fault Blocked
  | mail :: rest =>
    Ok ((pktHdr mail, mailHdr mail, take (Z.to_nat (mail_length (mailHdr mail))) (data mail)), rest)
  end.

(** ** The post office *)

(** [PostOffice::PostOffice], with the network device; the postal worker is
    the thread that runs [PostalDelivery]. *)
Definition PostOffice_PostOffice (addr : Z) (reliability : Q) (nBoxes : nat) (s : System) :
    outcome PostOffice :=
  '(_, s) ← Network_Network addr reliability s;
  Ok (mkPO s (replicate nBoxes []) addr (take MaxPacketSize junk)).

(** One round of the loop of [PostalDelivery]. *)
Definition PostalDelivery : M PostOffice unit :=
  _ ← below (P_wait messageAvailable NetworkReadPoll);
  r ← below Network_Receive;
  po ← get;
  let buf := r.2 ++ drop (length r.2) (buffer po) in
  _ ← modify (set_buffer buf);
  h ← lift (bytes_header buf);
  let mh := mkMailHeader h.1.1 h.1.2 h.2 in
  _ ← ASSERT ((0 <=? mail_to mh) && (mail_to mh <? numBoxes po));
  _ ← ASSERT (mail_length mh <=? Z.of_nat MaxMailSize);
  box ← lift (arr_get (boxes po) (mail_to mh));
  box' ← lift (MailBox_Put r.1 mh (drop MailHeader_size buf) box);
  bs ← lift (arr_set (boxes po) (mail_to mh) box');
  modify (set_boxes bs).

(** The packet that [Send] hands to the network. *)
Definition Send_packet (po : PostOffice) (pktH : PacketHeader) (mailH : MailHeader)
    (msg : list Z) : outcome (PacketHeader * list Z) :=
  _ ← ASSERT_ (mail_length mailH <=? Z.of_nat MaxMailSize);
  _ ← ASSERT_ ((0 <=? mail_to mailH) && (mail_to mailH <? numBoxes po));
  let pktH := mkPacketHeader (pkt_to pktH) (netAddr po)
                (u32 (mail_length mailH + Z.of_nat MailHeader_size)) in
  b1 ← bcopy (header_bytes (mail_to mailH) (mail_from mailH) (mail_length mailH)) MailHeader_size 0
         (take MaxPacketSize junk);
  b2 ← bcopy msg (Z.to_nat (mail_length mailH)) MailHeader_size b1;
  Ok (pktH, b2).

Definition PostOffice_Send (pktH : PacketHeader) (mailH : MailHeader) (msg : list Z) :
    M PostOffice unit :=
  po ← get;
  pb ← lift (Send_packet po pktH mailH msg);
  _ ← below (Acquire_lock sendLock);
  _ ← below (Network_Send rand junk pb.1 pb.2);
  _ ← below (P_wait messageSent NetworkSendDone);
  below (Release_lock sendLock).

Definition PostOffice_Receive (box : Z) : M PostOffice (PacketHeader * MailHeader * list Z) :=
  po ← get;
  _ ← ASSERT ((0 <=? box) && (box <? numBoxes po));
  b ← lift (arr_get (boxes po) box);
  r ← lift (MailBox_Get b);
  bs ← lift (arr_set (boxes po) box r.2);
  _ ← modify (set_boxes bs);
  _ ← ASSERT (mail_length r.1.1.2 <=? Z.of_nat MaxMailSize);
  mret r.1.

(** The interrupt handlers of the post office. *)
Definition IncomingPacket : M System unit := signal messageAvailable.
Definition PacketSent : M System unit := signal messageSent.
End Post.

(** The UNIX socket delivers packets in the order in which they were sent. *)
Definition arrive (wire : list Z) : M System unit :=
  modw (fun w => let n := network w in
    set_network (mkNetwork (ident n) (chanceToWork n) (sendBusy n) (inHdr n) (inbox n)
      (sock_in n ++ [wire]) (sock_out n)) w).

(** ** Images of headers and buffers *)

Lemma uint_int_bytes a : is_uint a ->
  exists b0 b1 b2 b3, int_bytes a = [b0; b1; b2; b3] /\ uint_of_bytes b0 b1 b2 b3 = a.
Proof.
  intros Ha. unfold int_bytes. eexists _, _, _, _. split; [reflexivity|].
  rewrite uint_of_int_bytes. by apply u32_small.
Qed.

Lemma int_int_bytes a : is_int a ->
  exists b0 b1 b2 b3, int_bytes a = [b0; b1; b2; b3] /\ int_of_bytes b0 b1 b2 b3 = a.
Proof.
  intros Ha. unfold int_bytes, int_of_bytes. eexists _, _, _, _. split; [reflexivity|].
  rewrite uint_of_int_bytes, wrap32_u32. by apply wrap32_small.
Qed.

Lemma length_packet_header a b len : length (header_bytes a b len) = 12%nat.
Proof. done. Qed.

Lemma bytes_header_roundtrip a b len rest : is_int a -> is_int b -> is_uint len ->
  bytes_header (header_bytes a b len ++ rest) = Ok (a, b, len).
Proof.
  intros Ha Hb Hl. unfold header_bytes.
  destruct (int_int_bytes a Ha) as (? & ? & ? & ? & -> & <-).
  destruct (int_int_bytes b Hb) as (? & ? & ? & ? & -> & <-).
  destruct (uint_int_bytes len Hl) as (? & ? & ? & ? & -> & <-). done.
Qed.

(** A copy to the front of a buffer, and one behind [pre]. *)
Lemma bcopy_after pre src tl n off buf :
  buf = pre ++ tl -> off = length pre -> (n <= length src)%nat -> (n <= length tl)%nat ->
  bcopy src n off buf = Ok (pre ++ take n src ++ drop n tl).
Proof.
  intros -> -> Hs Ht. unfold bcopy. rewrite decide_True by (rewrite length_app; lia).
  by rewrite take_app_length, <- drop_drop, drop_app_length.
Qed.

Lemma take_length_app {A} (l r : list A) n : length l = n -> take n (l ++ r) = l.
Proof. intros <-. apply take_app_length. Qed.

Lemma drop_length_app {A} (l r : list A) n : length l = n -> drop n (l ++ r) = r.
Proof. intros <-. apply drop_app_length. Qed.

(** ** Sending *)

(** A machine whose network and send lock are free, with a network that loses
    nothing. *)
Record sender (a : Z) (s : System) : Prop := {
  sd_ident : ident (network (world s)) = a;
  sd_busy : sendBusy (network (world s)) = false;
  sd_chance : chanceToWork (network (world s)) = 1%Q;
  sd_lock : value (kern (world s)) (SLock sendLock) = 1;
  sd_sent : value (kern (world s)) messageSent = 0;
  sd_queue : queue (kern (world s)) (QSem messageSent) = [];
  sd_lockq : queue (kern (world s)) (QSem (SLock sendLock)) = [] }.

Lemma take_pending_inserted p k l :
  handler p = NetworkSendDone -> exists l', take_pending NetworkSendDone (sorted_insert p k l) = Some l'.
Proof.
  intros Hp. induction l as [|e l [l' IH]]; cbn; [rewrite Hp; eauto|].
  destruct (k <? e.1); cbn; [rewrite Hp; eauto|]. rewrite IH. destruct (handler e.2); cbn; eauto.
Qed.

Lemma lost_reliable r : 0 <= r -> lost r 1 = false.
Proof.
  intros Hr. unfold lost. apply not_true_iff_false. rewrite Qle_bool_iff.
  intros Hq. change (1 * 100)%Q with (inject_Z 100) in Hq. rewrite <- Zle_Qle in Hq.
  pose proof (Z.rem_bound_pos r 100 Hr ltac:(lia)). lia.
Qed.

Section PostProofs.
Context (rand : nat -> Z) (rand_range : forall n, 0 <= rand n).
Context (junk : list Z) (junk_length : (MaxWireSize <= length junk)%nat).

(** What goes over the wire for a message. *)
Definition wire_of (a : Z) (pktH : PacketHeader) (mailH : MailHeader) (msg tl : list Z) : list Z :=
  header_bytes (pkt_to pktH) a (mail_length mailH + 12) ++
  header_bytes (mail_to mailH) (mail_from mailH) (mail_length mailH) ++ msg ++ tl.

Lemma Send_packet_ok po pktH mailH msg :
  mail_length mailH = Z.of_nat (length msg) -> (length msg <= MaxMailSize)%nat ->
  0 <= mail_to mailH < numBoxes po ->
  exists tl, Send_packet junk po pktH mailH msg =
    Ok (mkPacketHeader (pkt_to pktH) (netAddr po) (mail_length mailH + 12),
        header_bytes (mail_to mailH) (mail_from mailH) (mail_length mailH) ++ msg ++ tl).
Proof.
  intros Hl Hm Hb. change MaxMailSize with 40%nat in Hm.
  assert (L : length (take MaxPacketSize junk) = 52%nat).
  { change MaxPacketSize with 52%nat. change MaxWireSize with 64%nat in junk_length.
    rewrite length_take. lia. }
  unfold Send_packet, ASSERT_. change (Z.of_nat MaxMailSize) with 40.
  change (Z.of_nat MailHeader_size) with 12. change MailHeader_size with 12%nat.
  rewrite (proj2 (Z.leb_le (mail_length mailH) _)) by lia.
  rewrite (proj2 (Z.leb_le 0 (mail_to mailH))), (proj2 (Z.ltb_lt (mail_to mailH) _)) by lia.
  cbn [mbind outcome_bind andb].
  rewrite (bcopy_after [] _ (take MaxPacketSize junk)) by (done || rewrite ?L; cbn; lia).
  cbn [mbind outcome_bind]. rewrite (take_ge (header_bytes _ _ _)) by done. cbn [app].
  erewrite bcopy_after; [|reflexivity|done|lia|rewrite length_drop, L; lia].
  eexists. cbn [mbind outcome_bind]. rewrite Hl, Nat2Z.id, (take_ge msg) by lia.
  rewrite u32_small by (unfold is_uint; lia). reflexivity.
Qed.

Definition sent_on (n : Network) (to : Z) (wire : list Z) : Network :=
  mkNetwork (ident n) (chanceToWork n) (sendBusy n) (inHdr n) (inbox n) (sock_in n)
    (sock_out n ++ [(to, wire)]).

Lemma Network_Send_ok s pktH mailH msg tl :
  let n := network (world s) in
  sendBusy n = false -> chanceToWork n = 1%Q ->
  mail_length mailH = Z.of_nat (length msg) -> (length msg <= MaxMailSize)%nat ->
  exists s' tl',
    Network_Send rand junk (mkPacketHeader (pkt_to pktH) (ident n) (mail_length mailH + 12))
      (header_bytes (mail_to mailH) (mail_from mailH) (mail_length mailH) ++ msg ++ tl) s
      = Ok (tt, s') /\
    kern (world s') = kern (world s) /\
    network (world s') = sent_on n (pkt_to pktH) (wire_of (ident n) pktH mailH msg tl') /\
    length (wire_of (ident n) pktH mailH msg tl') = MaxWireSize /\
    exists l, take_pending NetworkSendDone (pending s') = Some l.
Proof.
  intros n Hb Hc Hl Hm. change MaxMailSize with 40%nat in Hm.
  set (hd := header_bytes (mail_to mailH) (mail_from mailH) (mail_length mailH)).
  set (ph := header_bytes (pkt_to pktH) (ident n) (mail_length mailH + 12)).
  assert (L : length (take MaxWireSize junk) = 64%nat).
  { change MaxWireSize with 64%nat in *. rewrite length_take. lia. }
  assert (Lh : length hd = 12%nat) by done. assert (Lp : length ph = 12%nat) by done.
  set (tl' := drop (12 + length msg) (drop 12 (take MaxWireSize junk))).
  assert (E1 : bcopy ph PacketHeader_size 0 (take MaxWireSize junk) =
    Ok (ph ++ drop 12 (take MaxWireSize junk))).
  { change PacketHeader_size with 12%nat. rewrite (bcopy_after [] _ (take MaxWireSize junk)) by (done || rewrite ?L; cbn; lia).
    by rewrite (take_ge ph). }
  assert (E2 : bcopy (hd ++ msg ++ tl) (Z.to_nat (mail_length mailH + 12)) PacketHeader_size
    (ph ++ drop 12 (take MaxWireSize junk)) = Ok (ph ++ hd ++ msg ++ tl')).
  { replace (Z.to_nat (mail_length mailH + 12)) with (12 + length msg)%nat by lia.
    rewrite (bcopy_after ph _ (drop 12 (take MaxWireSize junk))); try done.
    - rewrite (app_assoc hd msg tl), (take_length_app (hd ++ msg)) by (rewrite length_app; lia).
      by rewrite <- (app_assoc hd msg).
    - rewrite !length_app. lia.
    - rewrite length_drop, L. lia. }
  eexists _, tl'. split.
  { unfold Network_Send, Random. mstep. fold n. rewrite Hb.
    mstep by (apply ASSERT_true; cbn [pkt_length pkt_from]; change (Z.of_nat MaxPacketSize) with 52;
      rewrite (proj2 (Z.ltb_lt 0 _)), (proj2 (Z.leb_le _ 52)), Z.eqb_refl by lia; reflexivity).
    mstep by (by apply Schedule_run). mstep by (do 2 mstep; reflexivity).
    rewrite Hc, lost_reliable by apply rand_range. cbn [pkt_to pkt_from pkt_length]. fold ph.
    mstep by (apply lift_Ok; exact E1). mstep by (apply lift_Ok; exact E2). reflexivity. }
  splits; try done.
  - cbn. unfold sent_on. by rewrite Hb, Hc.
  - change MaxWireSize with 64%nat. unfold wire_of. fold ph hd. rewrite !length_app. unfold tl'.
    rewrite !length_drop, L. lia.
  - by apply take_pending_inserted.
Qed.

(** The interrupt comes, and the sender goes on. *)
Lemma P_wait_sent s l :
  value (kern (world s)) messageSent = 0 -> queue (kern (world s)) (QSem messageSent) = [] ->
  sendBusy (network (world s)) = false ->
  take_pending NetworkSendDone (pending s) = Some l ->
  exists s', P_wait rand messageSent NetworkSendDone s = Ok (tt, s') /\
    kern (world s') = set_value messageSent 0 (set_value messageSent 1 (kern (world s))) /\
    network (world s') = network (world s).
Proof.
  intros Hv Hq Hb Hl. eexists. split.
  { unfold P_wait. mstep. rewrite Hv. cbn [Z.eqb].
    mstep by (mstep; rewrite Hl; mstep; cbn [handler_of]; unfold SendDone, signal; do 2 mstep; reflexivity).
    mstep. cbn [world set_world set_stats set_pending set_network kern set_kern network].
    unfold V. rewrite Hq. cbn [value set_value]. rewrite fn_lookup_insert, Hv. reflexivity. }
  split; [done|]. cbn. destruct (network (world s)); cbn in *. by subst.
Qed.

Lemma PostOffice_Send_ok po pktH mailH msg :
  let n := network (world (machine po)) in
  sender (netAddr po) (machine po) ->
  mail_length mailH = Z.of_nat (length msg) -> (length msg <= MaxMailSize)%nat ->
  0 <= mail_to mailH < numBoxes po ->
  exists s' tl, PostOffice_Send rand junk pktH mailH msg po = Ok (tt, set_machine s' po) /\
    sender (netAddr po) s' /\
    network (world s') = sent_on n (pkt_to pktH) (wire_of (netAddr po) pktH mailH msg tl) /\
    length (wire_of (netAddr po) pktH mailH msg tl) = MaxWireSize /\
    value (kern (world s')) messageAvailable = value (kern (world (machine po))) messageAvailable /\
    queue (kern (world s')) = queue (kern (world (machine po))).
Proof.
  intros n [S1 S2 S3 S4 S5 S6 S7] Hl Hm Hb. fold n in S1, S2, S3.
  destruct (Send_packet_ok po pktH mailH msg Hl Hm Hb) as [tl0 E0].
  set (k := kern (world (machine po))) in *.
  set (k1 := set_heldthread sendLock (Some (current k)) (set_value (SLock sendLock) 0 k)).
  set (s1 := set_world (set_kern k1 (world (machine po))) (machine po)).
  assert (E1 : Acquire_lock sendLock (machine po) = Ok (tt, s1)).
  { unfold Acquire_lock. mstep. fold k. rewrite S4. done. }
  destruct (Network_Send_ok s1 pktH mailH msg tl0 S2 S3 Hl Hm) as (s2 & tl & E2 & K2 & N2 & L2 & l & P2).
  change (network (world s1)) with n in *. rewrite S1 in *.
  destruct (P_wait_sent s2 l) as (s3 & E3 & K3 & N3).
  { rewrite K2. cbn. by rewrite fn_lookup_insert_ne. }
  { by rewrite K2. }
  { by rewrite N2. }
  { done. }
  rewrite K2 in K3. change (kern (world s1)) with k1 in K3. rewrite N2 in N3.
  set (s4 := set_world (set_kern (Release sendLock (kern (world s3))) (world s3)) s3).
  assert (K4 : Release sendLock (kern (world s3)) = set_value (SLock sendLock) 1
    (set_heldthread sendLock None (kern (world s3)))).
  { unfold Release, isHeldByCurrentThread. rewrite K3. cbn [heldthread set_value k1 set_heldthread current].
    rewrite fn_eq, bool_decide_eq_true_2 by done. unfold V. cbn [queue set_heldthread set_value k1].
    rewrite S7. cbn [value set_heldthread set_value k1].
    rewrite !(fn_lookup_insert_ne _ messageSent) by done. by rewrite fn_lookup_insert. }
  exists s4, tl. split; [|split; [|split; [done|split; [done|]]]].
  - unfold PostOffice_Send. mstep. mstep by (apply lift_Ok; exact E0).
    mstep by (apply below_run; exact E1). mstep by (apply below_run; exact E2).
    mstep by (apply below_run; exact E3). done.
  - constructor; cbn [world s4 set_world network set_kern kern]; rewrite ?K4, ?N3; try done.
    + cbn [value set_value set_heldthread]. rewrite fn_lookup_insert_ne by done. rewrite K3.
      cbn [value set_value]. apply fn_lookup_insert.
    + cbn. by rewrite K3.
    + cbn. by rewrite K3.
  - change (kern (world s4)) with (Release sendLock (kern (world s3))). rewrite K4, K3.
    cbn [value queue set_value set_heldthread k1]. by rewrite !fn_lookup_insert_ne by done.
Qed.
End PostProofs.

(** ** Receiving *)

(** Machine [b] with nothing under way. *)
Record receiver (b : Z) (po : PostOffice) : Prop := {
  rv_ident : ident (network (world (machine po))) = b;
  rv_hdr : pkt_length (inHdr (network (world (machine po)))) = 0;
  rv_sock : sock_in (network (world (machine po))) = [];
  rv_inbox : length (inbox (network (world (machine po)))) = MaxPacketSize;
  rv_buffer : length (buffer po) = MaxPacketSize;
  rv_value : value (kern (world (machine po))) messageAvailable = 0;
  rv_queue : queue (kern (world (machine po))) (QSem messageAvailable) = [] }.

(** The device's side: the packet is split into header and data. *)
Lemma CheckPktAvail_ok b s hdr body :
  let n := network (world s) in
  ident n = b -> pkt_length (inHdr n) = 0 -> sock_in n = [] -> length (inbox n) = MaxPacketSize ->
  value (kern (world s)) messageAvailable = 0 ->
  queue (kern (world s)) (QSem messageAvailable) = [] ->
  pkt_to hdr = b -> is_int b -> is_int (pkt_from hdr) -> 0 <= pkt_length hdr <= 52 ->
  length body = MaxPacketSize ->
  exists s', (arrive (header_bytes (pkt_to hdr) (pkt_from hdr) (pkt_length hdr) ++ body) ≫=
      fun _ => CheckPktAvail) s = Ok (tt, s') /\
    network (world s') = mkNetwork b (chanceToWork n) (sendBusy n) hdr
      (take (Z.to_nat (pkt_length hdr)) body ++ drop (Z.to_nat (pkt_length hdr)) (inbox n))
      [] (sock_out n) /\
    kern (world s') = set_value messageAvailable 1 (kern (world s)).
Proof.
  intros n Hi Hz Hs Hx Hv Hq Ht Ib If Hl Lb.
  change MaxPacketSize with 52%nat in Hx, Lb.
  assert (E : bcopy (drop PacketHeader_size (header_bytes (pkt_to hdr) (pkt_from hdr) (pkt_length hdr) ++ body))
    (Z.to_nat (pkt_length hdr)) 0 (inbox n) =
    Ok (take (Z.to_nat (pkt_length hdr)) body ++ drop (Z.to_nat (pkt_length hdr)) (inbox n))).
  { rewrite drop_length_app by done. rewrite (bcopy_after [] _ (inbox n)); try done; rewrite ?Lb, ?Hx; lia. }
  eexists. split.
  { unfold arrive, CheckPktAvail. mstep. mstep by (by apply Schedule_run). mstep.
    cbn [world set_pending set_world network set_network sock_in inHdr inbox ident]. fold n.
    rewrite Hz, Hs. cbn [Z.eqb negb app].
    mstep by (apply ASSERT_true; rewrite length_app, length_packet_header, Lb; reflexivity).
    mstep by (apply lift_Ok, bytes_header_roundtrip; [congruence|done|unfold is_uint; lia]).
    cbn [fst snd]. mstep.
    mstep by (apply ASSERT_true; cbn [pkt_to pkt_length]; change (Z.of_nat MaxPacketSize) with 52;
      rewrite Ht, Hi, Z.eqb_refl; apply Z.leb_le; lia).
    mstep by (apply lift_Ok; exact E). do 2 mstep. reflexivity. }
  split; cbn [world set_world network set_network kern set_kern set_stats set_pending].
  - rewrite Hi. by destruct hdr.
  - unfold V. rewrite Hq, Hv. done.
Qed.

Section Delivery.
Context (rand : nat -> Z) (junk : list Z) (junk_length : (MaxWireSize <= length junk)%nat).

(** What a delivery leaves alone. *)
Definition still_sends (po po' : PostOffice) : Prop :=
  netAddr po' = netAddr po /\ (forall a, sender a (machine po) -> sender a (machine po')) /\
  sock_out (network (world (machine po'))) = sock_out (network (world (machine po))).

Lemma sender_frame a s s' :
  ident (network (world s')) = ident (network (world s)) ->
  sendBusy (network (world s')) = sendBusy (network (world s)) ->
  chanceToWork (network (world s')) = chanceToWork (network (world s)) ->
  (forall sm, sm <> messageAvailable -> value (kern (world s')) sm = value (kern (world s)) sm) ->
  queue (kern (world s')) = queue (kern (world s)) -> sender a s -> sender a s'.
Proof.
  intros H1 H2 H3 H4 H5 [S1 S2 S3 S4 S5 S6 S7]. constructor; rewrite ?H1, ?H2, ?H3, ?H4, ?H5; done.
Qed.

(** The postal worker's side: the message is put into its box. *)
Lemma PostalDelivery_ok b po hdr mailH msg tl box :
  let n := network (world (machine po)) in
  ident n = b -> inHdr n = hdr -> sock_in n = [] ->
  inbox n = header_bytes (mail_to mailH) (mail_from mailH) (mail_length mailH) ++ msg ++ tl ->
  length (inbox n) = MaxPacketSize -> length (buffer po) = MaxPacketSize ->
  value (kern (world (machine po))) messageAvailable = 1 ->
  queue (kern (world (machine po))) (QSem messageAvailable) = [] ->
  is_int (mail_to mailH) -> is_int (mail_from mailH) ->
  mail_length mailH = Z.of_nat (length msg) -> (length msg <= MaxMailSize)%nat ->
  pkt_length hdr = mail_length mailH + 12 ->
  0 <= mail_to mailH -> boxes po !! Z.to_nat (mail_to mailH) = Some box ->
  exists po' tl', PostalDelivery rand junk po = Ok (tt, po') /\ receiver b po' /\
    boxes po' = <[Z.to_nat (mail_to mailH) := box ++ [mkMail hdr mailH (msg ++ tl')]]> (boxes po) /\
    still_sends po po'.
Proof.
  intros n Hi Hh Hs Hx Lx Lb Hv Hq I1 I2 Hl Hm Hp H0 Hbox.
  change MaxMailSize with 40%nat in Hm. change MaxPacketSize with 52%nat in *.
  set (hd := header_bytes (mail_to mailH) (mail_from mailH) (mail_length mailH)) in *.
  assert (Lhd : length hd = 12%nat) by done.
  assert (Hn : Z.to_nat (pkt_length hdr) = (12 + length msg)%nat) by lia.
  set (k := kern (world (machine po))) in *.
  set (s1 := set_world (set_kern (set_value messageAvailable 0 k) (world (machine po))) (machine po)).
  assert (E1 : P_wait rand messageAvailable NetworkReadPoll (machine po) = Ok (tt, s1)).
  { unfold P_wait. mstep. fold k. rewrite Hv. cbn [Z.eqb]. mstep. mstep. cbn [world set_world]. fold k.
    rewrite Hv. done. }
  set (n2 := mkNetwork (ident n) (chanceToWork n) (sendBusy n)
    (mkPacketHeader (pkt_to hdr) (pkt_from hdr) 0) (inbox n) (sock_in n) (sock_out n)).
  set (s2 := set_world (set_network n2 (world s1)) s1).
  assert (E2 : Network_Receive s1 = Ok ((hdr, hd ++ msg), s2)).
  { assert (Et : take (12 + length msg) (inbox n) = hd ++ msg)
      by (rewrite Hx, app_assoc, take_length_app; [done|rewrite length_app; lia]).
    unfold Network_Receive. mstep. change (network (world s1)) with n. rewrite Hh, Hn, Et. by mstep. }
  set (buf := (hd ++ msg) ++ drop (length (hd ++ msg)) (buffer po)).
  assert (Ed : drop MailHeader_size buf = msg ++ drop (length (hd ++ msg)) (buffer po)).
  { unfold buf. by rewrite <- app_assoc, drop_length_app. }
  set (tl' := drop (length msg) (take MaxMailSize junk)).
  assert (Em : MailBox_Put junk hdr mailH (drop MailHeader_size buf) box =
    Ok (box ++ [mkMail hdr mailH (msg ++ tl')])).
  { unfold MailBox_Put, Mail_Mail, ASSERT_. rewrite (proj2 (Z.leb_le _ (Z.of_nat MaxMailSize)))
      by (change (Z.of_nat MaxMailSize) with 40; lia). cbn [mbind outcome_bind].
    change MaxWireSize with 64%nat in junk_length.
    rewrite Hl, Nat2Z.id, Ed, (bcopy_after [] _ (take MaxMailSize junk)); try done.
    - cbn [mbind outcome_bind app]. by rewrite take_length_app.
    - rewrite length_app. lia.
    - change MaxMailSize with 40%nat. rewrite length_take. lia. }
  assert (Hlt : (Z.to_nat (mail_to mailH) < length (boxes po))%nat) by (by eapply lookup_lt_Some).
  eexists (mkPO s2 (<[Z.to_nat (mail_to mailH) := box ++ [mkMail hdr mailH (msg ++ tl')]]> (boxes po))
    (netAddr po) buf), tl'. split; [|split; [|split; [done|]]].
  - unfold PostalDelivery. mstep by (apply below_run; exact E1). mstep by (apply below_run; exact E2).
    do 2 mstep. cbn [fst snd buffer set_machine]. fold buf.
    mstep by (apply lift_Ok; unfold buf; rewrite <- app_assoc;
      apply bytes_header_roundtrip; [done|done|unfold is_uint; lia]).
    cbn [fst snd mail_to]. mstep by (apply ASSERT_true; unfold numBoxes; cbn [boxes set_machine];
      rewrite (proj2 (Z.leb_le 0 _)), (proj2 (Z.ltb_lt (mail_to mailH) _)) by lia; reflexivity).
    mstep by (apply ASSERT_true, Z.leb_le; cbn [mail_length]; change (Z.of_nat MaxMailSize) with 40; lia).
    cbn [mail_to boxes set_machine].
    mstep by (apply lift_Ok, arr_get_in; [done|exact Hbox]).
    replace (mkMailHeader (mail_to mailH) (mail_from mailH) (mail_length mailH)) with mailH by (by destruct mailH).
    mstep by (apply lift_Ok; exact Em).
    mstep by (apply lift_Ok, arr_set_in; split; [done|lia]). done.
  - constructor; cbn [machine world s2 s1 set_world network set_network n2 kern set_kern buffer]; try done.
    change MaxPacketSize with 52%nat. unfold buf. rewrite !length_app, length_drop, Lb. lia.
  - split; [done|]. split; [|done]. intros a. apply sender_frame; try done.
    intros sm Hsm. cbn. by rewrite fn_lookup_insert_ne by done.
Qed.
End Delivery.

(** The first mail of a box that was empty before. *)
Lemma PostOffice_Receive_ok po (bs : list (list Mail)) box hdr mailH msg tl :
  boxes po = <[Z.to_nat box := [mkMail hdr mailH (msg ++ tl)]]> bs -> bs !! Z.to_nat box = Some [] ->
  0 <= box -> mail_length mailH = Z.of_nat (length msg) -> (length msg <= MaxMailSize)%nat ->
  PostOffice_Receive box po = Ok ((hdr, mailH, msg), set_boxes bs po).
Proof.
  intros Hb He H0 Hl Hm. assert (Hlt : (Z.to_nat box < length bs)%nat) by (by eapply lookup_lt_Some).
  unfold PostOffice_Receive. mstep.
  mstep by (apply ASSERT_true; unfold numBoxes; rewrite Hb, length_insert;
    rewrite (proj2 (Z.leb_le 0 _)), (proj2 (Z.ltb_lt box _)) by lia; reflexivity).
  mstep by (apply lift_Ok, arr_get_in; [lia|rewrite Hb; by apply list_lookup_insert_eq]).
  mstep. mstep by (apply lift_Ok, arr_set_in; rewrite Hb, length_insert; lia).
  cbn [fst snd mailHdr pktHdr data]. mstep.
  mstep by (apply ASSERT_true, Z.leb_le; lia).
  rewrite Hb, list_insert_insert_eq, list_insert_id by done.
  by rewrite Hl, Nat2Z.id, take_app_length.
Qed.

(** ** From one machine to another *)

(** A packet arrives and the postal worker puts its message into the box. *)
Lemma delivered rand junk (Hj : (MaxWireSize <= length junk)%nat) a pktH mailH msg tl B box :
  is_int a -> is_int (pkt_to pktH) -> is_int (mail_to mailH) -> is_int (mail_from mailH) ->
  mail_length mailH = Z.of_nat (length msg) -> (length msg <= MaxMailSize)%nat ->
  0 <= mail_to mailH -> length (wire_of a pktH mailH msg tl) = MaxWireSize ->
  receiver (pkt_to pktH) B -> boxes B !! Z.to_nat (mail_to mailH) = Some box ->
  exists B1 B2 tl', below (arrive (wire_of a pktH mailH msg tl) ≫= fun _ => CheckPktAvail) B = Ok (tt, B1) /\
    PostalDelivery rand junk B1 = Ok (tt, B2) /\ receiver (pkt_to pktH) B2 /\
    boxes B2 = <[Z.to_nat (mail_to mailH) := box ++
      [mkMail (mkPacketHeader (pkt_to pktH) a (mail_length mailH + 12)) mailH (msg ++ tl')]]> (boxes B) /\
    still_sends B B2.
Proof.
  intros Ia It I1 I2 Hl Hm H0 L [R1 R2 R3 R4 R5 R6 R7] Hbox.
  set (hdr := mkPacketHeader (pkt_to pktH) a (mail_length mailH + 12)).
  set (body := header_bytes (mail_to mailH) (mail_from mailH) (mail_length mailH) ++ msg ++ tl).
  assert (Lb : length body = MaxPacketSize).
  { unfold wire_of in L. rewrite length_app in L. fold body in L.
    change MaxWireSize with 64%nat in L. change MaxPacketSize with 52%nat.
    rewrite length_packet_header in L. lia. }
  change MaxMailSize with 40%nat in Hm.
  destruct (CheckPktAvail_ok (pkt_to pktH) (machine B) hdr body) as (s1 & E1 & N1 & K1);
    try done; [cbn; lia|].
  set (n := network (world (machine B))) in *.
  assert (Hln : Z.to_nat (pkt_length hdr) = (12 + length msg)%nat) by (cbn; lia).
  assert (Ex : inbox (network (world s1)) =
    header_bytes (mail_to mailH) (mail_from mailH) (mail_length mailH) ++ msg ++
      drop (12 + length msg) (inbox n)).
  { rewrite N1. cbn [inbox]. rewrite Hln. unfold body.
    rewrite (app_assoc _ msg tl), take_length_app by (rewrite length_app, length_packet_header; lia).
    by rewrite <- app_assoc. }
  destruct (PostalDelivery_ok rand junk Hj (pkt_to pktH) (set_machine s1 B) hdr mailH msg
    (drop (12 + length msg) (inbox n)) box) as (B2 & tl' & E2 & R' & Hb2 & HS1 & HS2 & HS3);
    cbn [machine set_machine boxes buffer]; rewrite ?N1, ?K1; try done; try lia.
  { cbn. by rewrite N1 in Ex. }
  { cbn [inbox]. change MaxPacketSize with 52%nat in *. rewrite Hln, length_app, length_take, length_drop. lia. }
  exists (set_machine s1 B), B2, tl'. cbn [boxes set_machine netAddr machine] in *.
  split; [by apply below_run|]. split; [exact E2|]. split; [exact R'|]. split; [exact Hb2|].
  split; [exact HS1|]. split; [|by rewrite HS3, N1]. intros a' Ha'. apply HS2.
  apply (sender_frame a' (machine B)); rewrite ?N1, ?K1; try done. intros sm Hsm. cbn.
  by rewrite fn_lookup_insert_ne by done.
Qed.

(** C36: Mail arrives unchanged.  On a network that loses nothing, a message of
    at most [MaxMailSize] bytes sent to box [mail_to] of machine [pkt_to] puts
    one packet of exactly [MaxWireSize] bytes on the wire and leaves the sender
    ready to send again; when the packet arrives at a machine with that
    address, the network device and the postal worker append one mail to that
    box and touch no other, and are ready for the next packet; [Receive] hands
    out the mails of a box in the order in which they arrived, with the mail
    header, the sender's address and exactly the bytes sent. *)
Theorem post_roundtrip rand junk A pktH mailH msg :
  (forall n, 0 <= rand n) -> (MaxWireSize <= length junk)%nat ->
  sender (netAddr A) (machine A) -> is_int (netAddr A) -> is_int (pkt_to pktH) ->
  is_int (mail_to mailH) -> is_int (mail_from mailH) ->
  mail_length mailH = Z.of_nat (length msg) -> (length msg <= MaxMailSize)%nat ->
  0 <= mail_to mailH < numBoxes A ->
  exists s wire, PostOffice_Send rand junk pktH mailH msg A = Ok (tt, set_machine s A) /\
    sender (netAddr A) s /\ length wire = MaxWireSize /\
    sock_out (network (world s)) =
      sock_out (network (world (machine A))) ++ [(pkt_to pktH, wire)] /\
    forall B box, receiver (pkt_to pktH) B -> boxes B !! Z.to_nat (mail_to mailH) = Some box ->
      exists B1 B2 mail, below (arrive wire ≫= fun _ => CheckPktAvail) B = Ok (tt, B1) /\
        PostalDelivery rand junk B1 = Ok (tt, B2) /\ receiver (pkt_to pktH) B2 /\
        boxes B2 = <[Z.to_nat (mail_to mailH) := box ++ [mail]]> (boxes B) /\
        MailBox_Get (mail :: []) = Ok ((mkPacketHeader (pkt_to pktH) (netAddr A)
          (mail_length mailH + 12), mailH, msg), []) /\
        (box = [] -> PostOffice_Receive (mail_to mailH) B2 =
          Ok ((mkPacketHeader (pkt_to pktH) (netAddr A) (mail_length mailH + 12), mailH, msg),
              set_boxes (boxes B) B2)).
Proof.
  intros Hr Hj HA Ia It I1 I2 Hl Hm Hb.
  destruct (PostOffice_Send_ok rand Hr junk Hj A pktH mailH msg HA Hl Hm Hb)
    as (s & tl & E & HS & N & L & _).
  exists s. eexists. split; [exact E|]. split; [done|]. split; [exact L|]. split; [by rewrite N|].
  intros B box HB Hbox.
  destruct (delivered rand junk Hj (netAddr A) pktH mailH msg tl B box) as (B1 & B2 & tl' & E1 & E2 & R' & Hb2 & _);
    try done; [lia|].
  eexists B1, B2, (mkMail _ mailH (msg ++ tl')). split; [exact E1|]. split; [exact E2|]. split; [exact R'|].
  split; [exact Hb2|]. split.
  - unfold MailBox_Get. cbn [pktHdr mailHdr data]. by rewrite Hl, Nat2Z.id, take_app_length.
  - intros ->. apply (PostOffice_Receive_ok B2 (boxes B) _ _ mailH msg tl'); [done|done|lia|done|done].
Qed.

(** ** An instance *)

(** A machine with address 5 and ten boxes; it writes to itself. *)
Definition demo_post : PostOffice :=
  mkPO (demo_system demo_kern SystemMode IntOn) (replicate 10 []) 5 (replicate MaxPacketSize 0).

Lemma post_roundtrip_witness :
  exists s wire, PostOffice_Send demo_rand (replicate 64 170) (mkPacketHeader 5 0 0)
      (mkMailHeader 3 1 2) [72; 105] demo_post = Ok (tt, set_machine s demo_post) /\
    length wire = 64%nat /\
    exists B1 B2, below (arrive wire ≫= fun _ => CheckPktAvail) demo_post = Ok (tt, B1) /\
      PostalDelivery demo_rand (replicate 64 170) B1 = Ok (tt, B2) /\
      PostOffice_Receive 3 B2 = Ok ((mkPacketHeader 5 5 14, mkMailHeader 3 1 2, [72; 105]),
        set_boxes (replicate 10 []) B2).
Proof.
  destruct (post_roundtrip demo_rand (replicate 64 170) demo_post (mkPacketHeader 5 0 0)
    (mkMailHeader 3 1 2) [72; 105]) as (s & wire & E & _ & L & _ & HB);
    try (apply demo_rand_range); try (by constructor); try (unfold is_int; cbn; lia); try (cbn; lia);
    try done.
  exists s, wire. split; [exact E|]. split; [exact L|].
  destruct (HB demo_post []) as (B1 & B2 & mail & E1 & E2 & _ & _ & _ & R);
    [by constructor|reflexivity|].
  exists B1, B2. split; [exact E1|]. split; [exact E2|]. exact (R eq_refl).
Defined.
