(* ===== verification/NetTest.v ===== *)
(** * network/nettest.cc: two machines that run MailTest

    [MailTest] waits twice, in its two calls of [Receive]; it is modelled as the
    three pieces between its waits, over PostOffice.v.  [step] lets either of
    two machines execute its next piece, or lets the next packet for it arrive
    and be delivered to its box, in any order.  A machine that has halted
    receives nothing any more. *)
From S2P Require Import Prelude CInt Threads Interrupt Devices PostOffice.
From Stdlib Require Import ZArith Lia List Bool.
From stdpp Require Import base tactics list numbers functions relations.
Local Open Scope Z_scope.

(** ** MailTest *)

(** The texts, without their terminating 0. *)
Definition hello_text : list Z := [72; 101; 108; 108; 111; 32; 116; 104; 101; 114; 101; 33].
Definition ack_text : list Z := [71; 111; 116; 32; 105; 116; 33].
Definition strlen (s : list Z) : Z := Z.of_nat (length s).

(** What [printf] prints of the buffer. *)
Fixpoint printed_string (l : list Z) : list Z :=
  match l with [] => [] | c :: r => if c =? 0 then [] else c :: printed_string r end.

(** "Got ... from ..., box ...". *)
Record Got := mkGot { text : list Z; from_machine : Z; from_box : Z }.

Inductive phase := Begin | First | Second | Done.
#[global] Instance phase_dec : EqDecision phase.
Proof. solve_decision. Defined.

Record Station := mkStation { office : PostOffice; at_phase : phase; said : list Got }.

Definition set_office po s := mkStation po (at_phase s) (said s).

Section Conversation.
Context (rand : nat -> Z) (junk : list Z).

(** The fields of the packet header that MailTest leaves uninitialised. *)
Context (junk_from junk_length : Z).
Definition outPktHdr (to : Z) : PacketHeader := mkPacketHeader to junk_from junk_length.

Definition MailTest_send (farAddr : Z) : M PostOffice unit :=
  PostOffice_Send rand junk (outPktHdr farAddr) (mkMailHeader 0 1 (strlen hello_text + 1)) (hello_text ++ [0]).

Definition MailTest_ack : M PostOffice Got :=
  r ← PostOffice_Receive 0;
  let '(inPktHdr, inMailHdr, buffer) := r in
  _ ← PostOffice_Send rand junk (outPktHdr (pkt_from inPktHdr))
        (mkMailHeader (mail_from inMailHdr) 1 (strlen ack_text + 1)) (ack_text ++ [0]);
  mret (mkGot (printed_string buffer) (pkt_from inPktHdr) (mail_from inMailHdr)).

Definition MailTest_end : M PostOffice Got :=
  r ← PostOffice_Receive 1;
  let '(inPktHdr, inMailHdr, buffer) := r in
  mret (mkGot (printed_string buffer) (pkt_from inPktHdr) (mail_from inMailHdr)).

(** The next piece of MailTest on a machine; behind the last one it halts. *)
Definition MailTest (farAddr : Z) (s : Station) : outcome Station :=
  match at_phase s with
  | Begin => x ← MailTest_send farAddr (office s); Ok (mkStation x.2 First (said s))
  | First => x ← MailTest_ack (office s); Ok (mkStation x.2 Second (said s ++ [x.1]))
  | Second => x ← MailTest_end (office s); Ok (mkStation x.2 Done (said s ++ [x.1]))
  | Done => Fault Halted
  end.

(** ** Two machines *)

(** The machines are [true] and [false]; [arrived i]: how many of the packets of
    the other machine have arrived at machine [i]. *)
Record Net := mkNet { stations : bool -> Station; arrived : bool -> nat }.

Context (addr : bool -> Z).

Definition sent (n : Net) (i : bool) : list (Z * list Z) :=
  sock_out (network (world (machine (office (stations n i))))).

Inductive step : Net -> Net -> Prop :=
| Runs n i s :
    MailTest (addr (negb i)) (stations n i) = Ok s ->
    step n (mkNet (<[i := s]> (stations n)) (arrived n))
| Arrives n i wire po1 po2 :
    at_phase (stations n i) <> Done ->
    sent n (negb i) !! arrived n i = Some (addr i, wire) ->
    below (arrive wire ≫= fun _ => CheckPktAvail) (office (stations n i)) = Ok (tt, po1) ->
    PostalDelivery rand junk po1 = Ok (tt, po2) ->
    step n (mkNet (<[i := set_office po2 (stations n i)]> (stations n))
              (<[i := S (arrived n i)]> (arrived n))).

(** Machines that have just started, with ten boxes each. *)
Definition initial (n : Net) : Prop :=
  addr true <> addr false /\ forall i, arrived n i = 0%nat /\ at_phase (stations n i) = Begin /\ said (stations n i) = [] /\
    let po := office (stations n i) in
    netAddr po = addr i /\ sender (addr i) (machine po) /\ receiver (addr i) po /\
    boxes po = replicate 10 [] /\ sent n i = [].

(** What both machines print. *)
Definition conversation (i : bool) : list Got :=
  [mkGot hello_text (addr (negb i)) 1; mkGot ack_text (addr (negb i)) 1].

(** ** Each machine *)

Context (rand_range : forall n, 0 <= rand n) (junk_long : (MaxWireSize <= length junk)%nat).
Context (addr_int : forall i, is_int (addr i)).

Definition idle_office (a : Z) (po : PostOffice) : Prop :=
  netAddr po = a /\ sender a (machine po) /\ receiver a po.

Definition out (po : PostOffice) := sock_out (network (world (machine po))).

(** The wire image of a message of machine [a]. *)
Definition packet (a to : Z) (mailH : MailHeader) (msg : list Z) (p : Z * list Z) : Prop :=
  exists tl, p = (to, wire_of a (outPktHdr to) mailH msg tl) /\
    length (wire_of a (outPktHdr to) mailH msg tl) = MaxWireSize.

Lemma send_idle a po to mailH msg :
  idle_office a po -> mail_length mailH = Z.of_nat (length msg) -> (length msg <= MaxMailSize)%nat ->
  0 <= mail_to mailH < numBoxes po ->
  exists po' p, PostOffice_Send rand junk (outPktHdr to) mailH msg po = Ok (tt, po') /\
    idle_office a po' /\ boxes po' = boxes po /\ out po' = out po ++ [p] /\ packet a to mailH msg p.
Proof.
  intros (<- & HS & [R1 R2 R3 R4 R5 R6 R7]) Hl Hm Hb.
  destruct (PostOffice_Send_ok rand rand_range junk junk_long po (outPktHdr to) mailH msg HS Hl Hm Hb)
    as (s & tl & E & HS' & N & L & Hv & Hq).
  exists (set_machine s po), (to, wire_of (netAddr po) (outPktHdr to) mailH msg tl).
  split; [exact E|]. split; [|split; [done|split; [|by exists tl]]].
  - split; [done|]. split; [exact HS'|].
    constructor; cbn [machine set_machine buffer]; rewrite ?N, ?Hv, ?Hq; done.
  - unfold out. cbn [machine set_machine]. by rewrite N.
Qed.

Lemma deliver_idle a b mailH msg p po box :
  idle_office b po -> packet a b mailH msg p -> is_int a -> is_int b ->
  is_int (mail_to mailH) -> is_int (mail_from mailH) ->
  mail_length mailH = Z.of_nat (length msg) -> (length msg <= MaxMailSize)%nat ->
  0 <= mail_to mailH -> boxes po !! Z.to_nat (mail_to mailH) = Some box ->
  exists po1 po2 tl, below (arrive p.2 ≫= fun _ => CheckPktAvail) po = Ok (tt, po1) /\
    PostalDelivery rand junk po1 = Ok (tt, po2) /\ idle_office b po2 /\ out po2 = out po /\
    boxes po2 = <[Z.to_nat (mail_to mailH) :=
      box ++ [mkMail (mkPacketHeader b a (mail_length mailH + 12)) mailH (msg ++ tl)]]> (boxes po).
Proof.
  intros (<- & HS & HR) (tl & -> & L) Ia Ib I1 I2 Hl Hm H0 Hbox.
  destruct (delivered rand junk junk_long a (outPktHdr (netAddr po)) mailH msg tl po box)
    as (po1 & po2 & tl' & E1 & E2 & R2 & B2 & S1 & S2 & S3); try done.
  exists po1, po2, tl'. split; [exact E1|]. split; [exact E2|]. split; [|by rewrite B2].
  split; [done|]. split; [by apply S2|done].
Qed.

(** ** What holds between two machines *)

(** Message [k] of MailTest goes to box [k]. *)
Definition hello_header : MailHeader := mkMailHeader 0 1 (strlen hello_text + 1).
Definition ack_header : MailHeader := mkMailHeader 1 1 (strlen ack_text + 1).
Definition script : list (MailHeader * list Z) :=
  [(hello_header, hello_text ++ [0]); (ack_header, ack_text ++ [0])].

(** The number of messages sent and received before a phase. *)
Definition sends (p : phase) : nat :=
  match p with Begin => 0 | First => 1 | Second | Done => 2 end.
Definition receives (p : phase) : nat :=
  match p with Begin | First => 0 | Second => 1 | Done => 2 end.
Definition rank (p : phase) : nat :=
  match p with Begin => 0 | First => 1 | Second => 2 | Done => 3 end.

(** Box [k] of machine [i] holds message [k] from its arrival to its receipt. *)
Definition box_ok (i : bool) (p : phase) (arr k : nat) (m : MailHeader * list Z) (b : list Mail) : Prop :=
  if decide (receives p <= k < arr)%nat
  then exists tl, b = [mkMail (mkPacketHeader (addr i) (addr (negb i)) (mail_length m.1 + 12)) m.1 (m.2 ++ tl)]
  else b = [].

Record station_ok (i : bool) (s : Station) (arr : nat) (other : phase) : Prop := {
  so_office : idle_office (addr i) (office s);
  so_out : Forall2 (fun m p => packet (addr i) (addr (negb i)) m.1 m.2 p)
             (take (sends (at_phase s)) script) (out (office s));
  so_boxes : exists b0 b1, boxes (office s) = b0 :: b1 :: replicate 8 [] /\
             box_ok i (at_phase s) arr 0 (hello_header, hello_text ++ [0]) b0 /\
             box_ok i (at_phase s) arr 1 (ack_header, ack_text ++ [0]) b1;
  so_said : said s = take (receives (at_phase s)) (conversation i);
  so_arrived : (receives (at_phase s) <= arr <= sends other)%nat }.

Definition net_ok (n : Net) : Prop :=
  forall i, station_ok i (stations n i) (arrived n i) (at_phase (stations n (negb i))).

(** The next piece runs, unless the mail it waits for has not arrived. *)
Definition piece_runs (i : bool) (s : Station) (arr : nat) (other : phase) : Prop :=
  exists s', MailTest (addr (negb i)) s = Ok s' /\ station_ok i s' arr other /\
    rank (at_phase s') = S (rank (at_phase s)) /\ (sends (at_phase s) <= sends (at_phase s'))%nat.

Lemma begin_runs i s arr other :
  station_ok i s arr other -> at_phase s = Begin -> piece_runs i s arr other.
Proof.
  intros [H1 H2 (b0 & b1 & B & B0 & B1) H4 H5] Hp. rewrite Hp in *.
  destruct (send_idle (addr i) (office s) (addr (negb i)) hello_header (hello_text ++ [0]))
    as (po & p & E & Hi & Hb & Ho & Hpk); [done|done|cbn; lia|unfold numBoxes; rewrite B; cbn; lia|].
  exists (mkStation po First (said s)). unfold MailTest, MailTest_send. rewrite Hp.
  fold hello_header. rewrite E. cbn [mbind outcome_bind snd at_phase]. split; [done|].
  split; [|by cbn; auto]. constructor; cbn [office at_phase said]; [done| |exists b0, b1; by rewrite Hb|done|done].
  rewrite Ho. inversion H2; subst. by repeat constructor.
Qed.

(** Without its mail a receiver waits. *)
Lemma Receive_blocked k po : boxes po !! Z.to_nat k = Some [] -> 0 <= k ->
  PostOffice_Receive k po = Fault Blocked.
Proof.
  intros Hb H0. pose proof (lookup_lt_Some _ _ _ Hb).
  unfold PostOffice_Receive. mstep.
  mstep by (apply ASSERT_true; unfold numBoxes;
    rewrite (proj2 (Z.leb_le 0 _)), (proj2 (Z.ltb_lt k _)) by lia; reflexivity).
  mstep by (apply lift_Ok, arr_get_in; [lia|exact Hb]). done.
Qed.

Lemma bind_blocked {S A B} (m : M S A) (f : A -> M S B) s :
  m s = Fault Blocked -> (m ≫= f) s = Fault Blocked.
Proof. intros H. unfold mbind, M_bind. by rewrite H. Qed.

Lemma idle_set_boxes a bs po : idle_office a po -> idle_office a (set_boxes bs po).
Proof. intros (H1 & H2 & [R1 R2 R3 R4 R5 R6 R7]). split; [done|]. split; [done|]. by constructor. Qed.

Lemma first_runs i s arr other :
  station_ok i s arr other -> at_phase s = First ->
  if decide (arr = 0)%nat then MailTest (addr (negb i)) s = Fault Blocked else piece_runs i s arr other.
Proof.
  intros [H1 H2 (b0 & b1 & B & B0 & B1) H4 H5] Hp. rewrite Hp in *. unfold box_ok in B0, B1.
  cbn [receives] in *. unfold MailTest, MailTest_ack. rewrite Hp. destruct (decide (arr = 0%nat)) as [Ha|Ha].
  - rewrite decide_False in B0 by lia. subst b0.
    rewrite (bind_blocked (PostOffice_Receive 0)); [done|].
    apply Receive_blocked; [by rewrite B|done].
  - rewrite decide_True in B0 by lia. destruct B0 as (tl & ->). cbn [fst snd] in B.
    pose proof (PostOffice_Receive_ok (office s) ([] :: b1 :: replicate 8 []) 0 _ hello_header
      (hello_text ++ [0]) tl B eq_refl ltac:(done) eq_refl ltac:(cbn; lia)) as Er.
    set (po1 := set_boxes ([] :: b1 :: replicate 8 []) (office s)) in *.
    destruct (send_idle (addr i) po1 (addr (negb i)) ack_header (ack_text ++ [0]))
      as (po & p & E & Hi & Hb & Ho & Hpk);
      [by apply idle_set_boxes|done|cbn; lia|unfold numBoxes; cbn; lia|].
    exists (mkStation po Second (said s ++ [mkGot hello_text (addr (negb i)) 1])).
    split; [|split; [|by rewrite Hp; cbn; auto]].
    + unfold MailTest, MailTest_ack, MailTest_end. rewrite Hp. mstep by (exact Er). cbn [pkt_from mail_from]. mstep by (exact E). done.
    + constructor; cbn [office at_phase said]; [done| | | |cbn; lia].
      * rewrite Ho. change (out po1) with (out (office s)). inversion H2 as [|? ? ? ? ? H6]; subst.
        inversion H6; subst. by repeat constructor.
      * exists [], b1. rewrite Hb. split; [done|]. unfold box_ok. cbn [receives].
        rewrite decide_False by lia. split; [done|]. by case_decide; case_decide; try lia.
      * by rewrite H4.
Qed.

Lemma second_runs i s arr other :
  station_ok i s arr other -> at_phase s = Second ->
  if decide (arr = 1)%nat then MailTest (addr (negb i)) s = Fault Blocked else piece_runs i s arr other.
Proof.
  intros [H1 H2 (b0 & b1 & B & B0 & B1) H4 H5] Hp. rewrite Hp in *. unfold box_ok in B0, B1.
  cbn [receives] in *. unfold MailTest, MailTest_end. rewrite Hp. rewrite decide_False in B0 by lia. subst b0.
  destruct (decide (arr = 1%nat)) as [Ha|Ha].
  - rewrite decide_False in B1 by lia. subst b1.
    rewrite (bind_blocked (PostOffice_Receive 1)); [done|].
    apply Receive_blocked; [by rewrite B|done].
  - assert (arr <= 2)%nat by (destruct other; cbn in H5; lia).
    rewrite decide_True in B1 by lia. destruct B1 as (tl & ->). cbn [fst snd] in B.
    pose proof (PostOffice_Receive_ok (office s) ([] :: [] :: replicate 8 []) 1 _ ack_header
      (ack_text ++ [0]) tl B eq_refl ltac:(done) eq_refl ltac:(cbn; lia)) as Er.
    eexists (mkStation _ Done (said s ++ [mkGot ack_text (addr (negb i)) 1])).
    split; [|split; [|by rewrite Hp; cbn; auto]].
    + unfold MailTest, MailTest_ack, MailTest_end. rewrite Hp. mstep by (exact Er). done.
    + constructor; cbn [office at_phase said]; [by apply idle_set_boxes|done| | |cbn; lia].
      * exists [], []. split; [done|]. unfold box_ok. cbn [receives]. by rewrite !decide_False by lia.
      * by rewrite H4.
Qed.

(** A station either waits for mail that has not arrived, or its next piece runs. *)
Lemma station_runs i s arr other : station_ok i s arr other ->
  at_phase s = Done \/ piece_runs i s arr other \/
  (MailTest (addr (negb i)) s = Fault Blocked /\
    (at_phase s = First /\ arr = 0%nat \/ at_phase s = Second /\ arr = 1%nat)).
Proof.
  intros H. destruct (at_phase s) eqn:Hp; [| | |by left]; right.
  - left. by apply begin_runs.
  - pose proof (first_runs i s arr other H Hp) as R. case_decide; auto.
  - pose proof (second_runs i s arr other H Hp) as R. case_decide; auto.
Qed.

Lemma station_ok_mono i s arr other other' : (sends other <= sends other')%nat ->
  station_ok i s arr other -> station_ok i s arr other'.
Proof. intros Hle [H1 H2 H3 H4 H5]. constructor; auto; lia. Qed.

Lemma box_ok_other i p arr k m b : k <> arr -> box_ok i p arr k m b -> box_ok i p (S arr) k m b.
Proof. intros Hk. unfold box_ok. by case_decide; case_decide; try lia. Qed.

Lemma box_ok_new i p arr m b tl : (receives p <= arr)%nat -> box_ok i p arr arr m b ->
  box_ok i p (S arr) arr m
    (b ++ [mkMail (mkPacketHeader (addr i) (addr (negb i)) (mail_length m.1 + 12)) m.1 (m.2 ++ tl)]).
Proof.
  intros Hp. unfold box_ok. rewrite decide_False by lia. intros ->. rewrite decide_True by lia.
  by exists tl.
Qed.

(** The next packet of the other machine can be delivered, in one way only. *)
Lemma arrival i s k other m p :
  station_ok i s k other -> (k < sends other)%nat -> script !! k = Some m ->
  packet (addr (negb i)) (addr i) m.1 m.2 p ->
  exists po1 po2, below (arrive p.2 ≫= fun _ => CheckPktAvail) (office s) = Ok (tt, po1) /\
    PostalDelivery rand junk po1 = Ok (tt, po2) /\ station_ok i (set_office po2 s) (S k) other.
Proof.
  intros [H1 H2 (b0 & b1 & B & B0 & B1) H4 H5] Hk Hm Hp.
  assert (exists b, boxes (office s) !! k = Some b) as (b & Hb).
  { rewrite B. destruct k as [|[|k]]; [by eexists..|by destruct other; cbn in Hk; lia]. }
  assert (Hto : mail_to m.1 = Z.of_nat k /\ mail_from m.1 = 1 /\
    mail_length m.1 = Z.of_nat (length m.2) /\ (length m.2 <= MaxMailSize)%nat).
  { destruct k as [|[|k]]; [| |done]; injection Hm as <-; cbn; repeat split; lia. }
  destruct Hto as (T & F & L & Hl).
  destruct (deliver_idle (addr (negb i)) (addr i) m.1 m.2 p (office s) b)
    as (po1 & po2 & tl & E1 & E2 & Hi & Ho & Hb2); rewrite ?T, ?F, ?Nat2Z.id; try done.
  { destruct k as [|[|k]]; [done..|by destruct other; cbn in Hk; lia]. }
  { lia. }
  exists po1, po2. split; [done|]. split; [done|].
  constructor; cbn [office at_phase said set_office]; [done|by rewrite Ho| |done|lia].
  rewrite Hb2, T, Nat2Z.id. rewrite B in Hb |- *.
  destruct k as [|[|k]]; [| |by destruct other; cbn in Hk; lia];
    injection Hb as ->; injection Hm as <-; eexists _, _; (split; [done|]).
  - split; [apply box_ok_new; [lia|done]|by apply box_ok_other].
  - split; [by apply box_ok_other|apply box_ok_new; [lia|done]].
Qed.

(** ** Both machines *)

Definition total (n : Net) : nat :=
  rank (at_phase (stations n true)) + rank (at_phase (stations n false)) +
  arrived n true + arrived n false.

Lemma initial_ok n : initial n -> net_ok n /\ total n = 0%nat.
Proof.
  intros (_ & H). split.
  - intros i. destruct (H i) as (A & P & S & HH). cbn in HH. destruct HH as (N & HS & HR & B & O).
    constructor; rewrite ?P, ?A; [done| | |done|cbn; lia].
    + cbn. unfold out. unfold sent in O. rewrite O. done.
    + exists [], []. by rewrite B.
  - unfold total. destruct (H true) as (-> & -> & _), (H false) as (-> & -> & _). done.
Qed.

Lemma net_ok_update n i s a : net_ok n ->
  a (negb i) = arrived n (negb i) ->
  station_ok i s (a i) (at_phase (stations n (negb i))) ->
  (sends (at_phase (stations n i)) <= sends (at_phase s))%nat ->
  net_ok (mkNet (<[i := s]> (stations n)) a).
Proof.
  intros Hn Ha Hs Hle j. cbn [stations arrived].
  assert (negb i <> i) by (by destruct i).
  destruct (decide (j = i)) as [->|Hj].
  - by rewrite fn_lookup_insert, fn_lookup_insert_ne by done.
  - assert (j = negb i) as -> by (by destruct i, j). rewrite negb_involutive.
    rewrite fn_lookup_insert, fn_lookup_insert_ne, Ha by done.
    pose proof (Hn (negb i)) as Hj'. rewrite negb_involutive in Hj'.
    by eapply station_ok_mono.
Qed.

Lemma sent_packet n i p : net_ok n -> sent n (negb i) !! arrived n i = Some p ->
  (arrived n i < sends (at_phase (stations n (negb i))))%nat /\
  exists m, script !! arrived n i = Some m /\ packet (addr (negb i)) (addr i) m.1 m.2 p.
Proof.
  intros Hn Hp. destruct (Hn (negb i)) as [_ HO _ _ _]. rewrite negb_involutive in HO.
  destruct (Forall2_lookup_r _ _ _ _ _ HO Hp) as (m & Hm & HP).
  apply lookup_take_Some in Hm as [Hm Hlt]. by split; [|exists m].
Qed.

Lemma sent_lookup n i : net_ok n -> (arrived n i < sends (at_phase (stations n (negb i))))%nat ->
  exists p, sent n (negb i) !! arrived n i = Some p.
Proof.
  intros Hn Hlt. destruct (Hn (negb i)) as [_ HO _ _ _].
  apply lookup_lt_is_Some. change (sent n (negb i)) with (out (office (stations n (negb i)))).
  rewrite <- (Forall2_length _ _ _ HO), length_take.
  assert (sends (at_phase (stations n (negb i))) <= 2)%nat by (destruct (at_phase _); cbn; lia).
  cbn. lia.
Qed.


Lemma step_ok n n' : step n n' -> net_ok n -> net_ok n' /\ total n' = S (total n).
Proof.
  intros Hs Hn. destruct Hs as [n i s E|n i wire po1 po2 _ Hw E1 E2].
  - destruct (station_runs i _ _ _ (Hn i)) as [Hp|[(s' & E' & Hs & Hr & Hle)|[Hb _]]].
    + unfold MailTest in E. by rewrite Hp in E.
    + rewrite E in E'. injection E' as <-. split.
      * by apply net_ok_update.
      * unfold total. cbn [stations arrived]. destruct i; cbn in *;
          rewrite ?fn_lookup_insert, ?fn_lookup_insert_ne by done; lia.
    + by rewrite E in Hb.
  - destruct (sent_packet n i _ Hn Hw) as (Hlt & m & Hm & HP).
    destruct (arrival i _ _ _ m _ (Hn i) Hlt Hm HP) as (q1 & q2 & F1 & F2 & Hs). cbn [snd] in F1.
    rewrite E1 in F1. injection F1 as <-. rewrite E2 in F2. injection F2 as <-.
    split; [apply net_ok_update; [done| |by rewrite fn_lookup_insert|done]|].
    { apply fn_lookup_insert_ne. by destruct i. }
    unfold total. cbn [stations arrived]. destruct i; cbn in *;
      rewrite !fn_lookup_insert, !fn_lookup_insert_ne by done; cbn; lia.
Qed.

Lemma can_arrive n i : net_ok n -> at_phase (stations n i) <> Done ->
  (arrived n i < sends (at_phase (stations n (negb i))))%nat -> exists n', step n n'.
Proof.
  intros Hn Hp Hlt. destruct (sent_lookup n i Hn Hlt) as ((to & wire) & Hw).
  destruct (sent_packet n i _ Hn Hw) as (_ & m & Hm & HP).
  destruct (arrival i _ _ _ m _ (Hn i) Hlt Hm HP) as (q1 & q2 & F1 & F2 & _).
  assert (to = addr i) as -> by (destruct HP as (tl & HP & _); by injection HP).
  eexists. by eapply Arrives.
Qed.

Lemma can_run n i : net_ok n -> piece_runs i (stations n i) (arrived n i) (at_phase (stations n (negb i))) ->
  exists n', step n n'.
Proof. intros Hn (s' & E & _). eexists. by eapply Runs. Qed.

(** A machine that waits, waits for a message that is on its way or that the
    other machine is about to send. *)
Lemma progress n i : net_ok n -> at_phase (stations n i) <> Done -> exists n', step n n'.
Proof.
  intros Hn Hp.
  destruct (decide (arrived n i < sends (at_phase (stations n (negb i))))%nat) as [Hlt|Hge];
    [by eapply can_arrive|].
  destruct (station_runs i _ _ _ (Hn i)) as [Hd|[Hr|[_ Hw]]]; [done|by eapply can_run|].
  set (j := negb i) in *. assert (Hji : negb j = i) by (by destruct i).
  pose proof (so_arrived _ _ _ _ (Hn i)) as [_ Ha]. fold j in Ha.
  destruct (station_runs j _ _ _ (Hn j)) as [Hd|[Hr|[_ Hw']]]; [|by eapply can_run|].
  - rewrite Hd in Hge. cbn in Hge. destruct Hw as [[_ ?]|[_ ?]]; lia.
  - apply (can_arrive n j Hn); [by destruct Hw' as [[-> _]|[-> _]]|]. rewrite Hji.
    destruct Hw as [[Hi Hi2]|[Hi Hi2]], Hw' as [[Hj Hj2]|[Hj Hj2]];
      rewrite ?Hi, ?Hj, ?Hi2, ?Hj2 in *; cbn in *; lia.
Qed.

Lemma total_bound n : net_ok n -> (total n <= 10)%nat.
Proof.
  intros Hn. unfold total. pose proof (so_arrived _ _ _ _ (Hn true)) as [_ H1].
  pose proof (so_arrived _ _ _ _ (Hn false)) as [_ H2]. cbn [negb] in *.
  destruct (at_phase (stations n true)), (at_phase (stations n false)); cbn in *; lia.
Qed.

Lemma all_done n : net_ok n -> (forall i, at_phase (stations n i) = Done) -> total n = 10%nat.
Proof.
  intros Hn Hd. pose proof (total_bound n Hn). unfold total in *.
  pose proof (so_arrived _ _ _ _ (Hn true)) as [H1 _]. pose proof (so_arrived _ _ _ _ (Hn false)) as [H2 _].
  rewrite !Hd in *. cbn in *. lia.
Qed.

Lemma reach_end m : forall n, net_ok n -> (total n + m = 10)%nat -> exists n', nsteps step m n n'.
Proof.
  induction m as [|m IH]; intros n Hn Ht; [by exists n; constructor|].
  assert (exists n1, step n n1) as (n1 & H1).
  { destruct (decide (at_phase (stations n true) = Done)) as [E1|]; [|by apply (progress n true)].
    destruct (decide (at_phase (stations n false) = Done)) as [E2|]; [|by apply (progress n false)].
    assert (total n = 10%nat) by (apply all_done; [done|by intros [|]]). lia. }
  destruct (step_ok _ _ H1 Hn) as [H2 H3]. destruct (IH n1 H2) as (n' & Hs); [lia|].
  exists n'. by econstructor.
Qed.

Lemma nsteps_ok k n n' : nsteps step k n n' -> net_ok n -> net_ok n' /\ total n' = (k + total n)%nat.
Proof.
  induction 1 as [|k n n1 n' Hs _ IH]; intros Hn; [done|].
  destruct (step_ok _ _ Hs Hn) as [H1 H2]. destruct (IH H1) as [H3 H4]. split; [done|lia].
Qed.

(** C35: Two machines that run MailTest against each other over a network that
    loses nothing always finish, however the pieces of the two programs and
    the arrivals of their packets interleave: no state is reached from which
    nothing can happen before both have halted, every execution that goes on as
    long as it can has ten steps, a machine whose next piece cannot run is waiting for mail (no
    assertion fails), what a machine has printed is always the beginning of
    the conversation, and both have printed all of it, "Hello there!" and then
    "Got it!" from box 1 of the other machine, when nothing more happens. *)
Theorem mailtest_converses n k n' : initial n -> nsteps step k n n' ->
  (k <= 10)%nat /\
  (forall i, said (stations n' i) `prefix_of` conversation i /\
     (at_phase (stations n' i) <> Done ->
        (exists s, MailTest (addr (negb i)) (stations n' i) = Ok s) \/
        MailTest (addr (negb i)) (stations n' i) = Fault Blocked)) /\
  ((exists n'', step n' n'') \/
   k = 10%nat /\
   forall i, at_phase (stations n' i) = Done /\ said (stations n' i) = conversation i).
Proof.
  intros [Hn Ht]%initial_ok Hs. destruct (nsteps_ok k n n' Hs Hn) as [Hn' Ht'].
  pose proof (total_bound n' Hn'). split; [lia|]. split.
  - intros i. split; [rewrite (so_said _ _ _ _ (Hn' i)); apply prefix_take|].
    intros Hp. destruct (station_runs i _ _ _ (Hn' i)) as [?|[(s' & E & _)|[E _]]]; [done| |by right].
    left. by exists s'.
  - destruct (decide (at_phase (stations n' true) = Done)); [|left; by apply (progress n' true)].
    destruct (decide (at_phase (stations n' false) = Done)); [|left; by apply (progress n' false)].
    assert (Hd : forall i, at_phase (stations n' i) = Done) by (by intros [|]).
    right. pose proof (all_done n' Hn' Hd). split; [lia|]. intros i.
    by rewrite (so_said _ _ _ _ (Hn' i)), Hd.
Qed.
End Conversation.

(** ** Two machines *)

Definition demo_addr (i : bool) : Z := if i then 5 else 6.
Definition demo_machine (a : Z) : System :=
  let s := demo_system demo_kern SystemMode IntOn in
  let n := network (world s) in
  set_world (set_network (mkNetwork a (chanceToWork n) (sendBusy n) (inHdr n) (inbox n)
    (sock_in n) (sock_out n)) (world s)) s.
Definition demo_station (a : Z) : Station :=
  mkStation (mkPO (demo_machine a) (replicate 10 []) a (replicate MaxPacketSize 0)) Begin [].
Definition demo_net : Net := mkNet (fun i => demo_station (demo_addr i)) (fun _ => 0%nat).

Lemma demo_initial : initial demo_addr demo_net.
Proof. split; [done|]. intros [|]; (repeat split); done. Qed.

Lemma mailtest_converses_witness :
  let step := step demo_rand (replicate 64 170) 77 88 demo_addr in
  exists n', nsteps step 10 demo_net n' /\ forall i, said (stations n' i) =
    [mkGot hello_text (demo_addr (negb i)) 1; mkGot ack_text (demo_addr (negb i)) 1].
Proof.
  intros step.
  assert (Ha : forall i, is_int (demo_addr i)) by (intros [|]; unfold is_int; cbn; lia).
  assert (Hj : (MaxWireSize <= length (replicate 64 170))%nat) by (apply Nat.leb_le; reflexivity).
  destruct (initial_ok (replicate 64 170) 77 88 demo_addr Hj demo_net demo_initial) as [Hn Ht].
  destruct (reach_end demo_rand (replicate 64 170) 77 88 demo_addr demo_rand_range Hj Ha 10 demo_net Hn)
    as (n' & Hs); [by rewrite Ht|].
  exists n'. split; [exact Hs|].
  destruct (mailtest_converses demo_rand (replicate 64 170) 77 88 demo_addr demo_rand_range Hj Ha
    demo_net 10 n' demo_initial Hs) as (_ & _ & [(n2 & H2)|[_ HD]]); [|intros i; apply HD].
  destruct (mailtest_converses demo_rand (replicate 64 170) 77 88 demo_addr demo_rand_range Hj Ha
    demo_net 11 n2 demo_initial) as (Hk & _); [by eapply nsteps_r|]. exfalso. lia.
Defined.
